(* ===== verification/_CoqProject ===== *)
-Q . S2P
Prelude.v
GoHash.v
Reason.v
GapReason.v
Decimal.v
DecimalSpec.v
EffectiveTime.v
CalendarRules.v
CalendarSpec.v
AlgorithmInput.v
Predicate.v
ThresholdCompiler.v
ThresholdSpec.v
TriggerEvent.v
Detect.v
DetectSpec.v
DetectThreshold.v
DetectExamples.v
History.v
Trigger.v
RecoveryWalk.v
TriggerLevel.v
Schedule.v
TimeSpec.v
TriggerRecord.v
Window.v
WindowInvariant.v
WindowApply.v
WindowAlign.v
WindowHistory.v
TriggerWindow.v
WindowExamples.v
TriggerExamples.v
LevelCompiler.v
LevelSpec.v
RecoverySlack.v
LevelExamples.v
Group.v
Absence.v
AbsenceSpec.v
AbsenceVerdicts.v
AbsenceRounds.v
Roster.v
RosterSpec.v
AbsenceExamples.v
NoDataMemory.v
NoDataMemorySpec.v
NoDataStore.v
NoDataStoreSpec.v
NoDataWriters.v
NoDataExamples.v
NoDataSlot.v
NoDataSlotSpec.v
NoDataRounds.v
TargetPlan.v
PlanCompiler.v
PlanSpec.v
PlanDetect.v
NoDataDetect.v
PlanExamples.v
NoDataPlan.v
CompileCache.v
CompileCacheSpec.v
CompileSpec.v
Admission.v
AdmissionSpec.v
QueryPermits.v
QueryPermitsSpec.v
PermitRuns.v
PermitInvariant.v
ChannelInvariant.v
PermitSpec.v
Runner.v
QueryCooldown.v
QueryCooldownSpec.v
QueryCooldownStore.v
RunnerRound.v
RunnerSpec.v
