(* ===== verification/Prelude.v ===== *)
(** * alarmd: the deterministic core of alarm evaluation

    [src/pkg/alarmd] decides, once a Slot, which alarms a strategy raises and
    recovers. This development models the part of it that decides: every
    definition is executable and follows the Go function it names. Paths below are
    under [src/pkg/alarmd].

    ** How the program runs, and which file models what

    A Slot evaluates every due Plan. A record's value becomes one fact per Level;
    the fact is recorded in the series' runtime window; the trigger reads the
    window's history and decides the Level, the record and the event. Beside that,
    a Plan with a no-data setting judges which groups did not report: it reads its
    stored memory, derives the groups it expects, evaluates absence, turns the
    verdicts into synthetic series that go through the same window and trigger, and
    writes the memory back as a delta under optimistic concurrency. What runs a Slot
    is a Query Group's Runner, one round after another: a round takes the group's
    flight, asks for a due Slot, holds it while the group's queries are in the cooldown
    pool, and executes it; its queries take permits of the process, which live Slots,
    recoveries and the lookback share.

    - Prelude: fallible functions as [result], Go's machine integers ([u8] to [u64]
      and [i64] as wrapped [Z]), byte order of strings, a stable sort, and the
      tactics and lemmas of lists, options and maps every file shares. GoHash: the
      standard library's SHA-256 and FNV-1a.
    - Reason, GapReason: contract/v2_model.go, v2_reason.go, gap_reason_fold.go,
      gap_scope_progress.go. The catalogue of reason codes and the fold that picks
      one reason of many.
    - Decimal, DecimalSpec: strategy/normalizer.go and the numbers of strategy/types.go.
      The text of a value as an exact rational, rounded into 127 bits, and printed back.
    - AlgorithmInput, Predicate, ThresholdCompiler, ThresholdSpec: strategy/g4_contract.go,
      strategy/types.go, strategy/registry.go, and the check of strategy/compiler.go. The
      inputs an algorithm declares, the threshold predicate, and its compilation.
    - EffectiveTime, LevelCompiler, LevelSpec, RecoverySlack: strategy/effective_time.go
      and strategy/compiler.go ([compileLevel]). A Level from its configuration: its
      algorithms through the registry, its trigger and recovery plans, the history
      it requires and retains, and the slack that keeps a recovery reachable.
    - CalendarRules, CalendarSpec, Schedule, TimeSpec:
      strategy/effective_rules.go, effective_time.go, effective_time_provider.go. A
      location as a function from instants to offsets, the civil date and
      [time.Date]; calendar items compiled and matched; the providers, the status of
      a Level's requirement at an instant and the boundary it holds until.
    - Detect, DetectSpec, DetectThreshold: detect/evaluator.go, record_core.go, threshold.go,
      registry.go. A record's values normalized once each, the detectors of a Level run on
      them ([Detector] is their interface, a class), the Level's fact, and a whole Plan.
    - TargetPlan, PlanCompiler, PlanSpec, PlanDetect, NoDataDetect:
      strategy/compiler.go ([compileUncached]), strategy/no_data_level.go,
      contract/target_plan.go ([Validate]). A Plan from its configuration and its
      settings, each check in its order, the no-data Level it synthesizes, what it
      costs; and what detection answers over the Plan that was compiled.
    - CompileCache, CompileCacheSpec, CompileSpec: strategy/cache.go and strategy/compiler.go
      ([Compile], [compileCacheKey]). The cache in the order of use within two budgets, the
      memory of content keys, and calls of [Compile] beside each other as steps between
      two accesses to what they share.
    - Admission, AdmissionSpec: contract/target_scope.go and admission/ ([chain],
      [identity_fuller], [contract_scope], [target_scope], [target_plan], [host_status],
      [definitive]). What is learned of a record, the filters of a chain as records of
      functions, and what a rejection can be acted on as.
    - Window, WindowInvariant, WindowApply, WindowAlign, WindowHistory: state/window.go
      and state/codec.go. The window as a record of points with one validity and one
      anomaly bit per Level; [ApplyContext] (first write wins, prune), [Align],
      and the walk of a history.
    - History: the interface between the window and the trigger
      (trigger/model_v2.go, [HistoryView]) as a class, and [represents], what its
      answers mean. The window's view is an instance and proves [represents]; the
      trigger's theorems assume it and nothing else of the window.
    - TriggerEvent, Trigger, RecoveryWalk, TriggerLevel, TriggerRecord, TriggerWindow:
      trigger/evaluator_v2.go, trigger/model_v2.go, contract/v2_outputs.go. One Level
      ([evaluateLevelV2]), one record ([EvaluateV2]), the event and its reader.
    - Group, Absence, AbsenceSpec, AbsenceVerdicts, AbsenceRounds: nodata/group.go and
      nodata/absence.go. A series' group and its key; one Slot's absence evaluation,
      with the order of every map range an argument.
    - Roster, RosterSpec: nodata/roster.go, nodata/host_candidates.go,
      contract/target_plan.go, contract/target_scope.go. The groups an item expects.
    - NoDataMemory, NoDataMemorySpec: execution/no_data_contract.go, no_data_load.go.
      The statement a round writes, its builder, and what may be loaded.
    - NoDataStore, NoDataStoreSpec, NoDataWriters: state/execution_v2_no_data.go,
      execution_v2_no_data_hash.go, redis_no_data_hash.go. The stored hash, the Lua
      script, and any number of writers, and the record's expiry, as a step relation.
    - NoDataSlot, NoDataSlotSpec, NoDataRounds, NoDataPlan: contract/no_data.go,
      nodata/slot.go, synthetic.go, plan_slot.go. One Plan's round, and rounds
      composed with the store.
    - QueryPermits, QueryPermitsSpec: scheduler/recovery.go, recovery_channels.go,
      lookback_permit.go. The permits of the process as functions of the coordinator's
      state, a function per critical section: two queues that take turns, the budget, the
      channels of recovery and the lookback's permits, the messages sent to who waits.
    - PermitRuns, PermitInvariant, ChannelInvariant, PermitSpec: the callers of those
      functions as a step relation ([permit_step], [channel_step]), a caller's every exit a
      step; what holds of every world they reach.
    - Runner, QueryCooldown, QueryCooldownSpec, QueryCooldownStore: scheduler/runtime.go,
      recovery.go, query_cooldown.go, cmd/alarmd/runtime_phase_two_query_cooldown_store.go.
      The attempts of a Slot and their backoff; the pool a Query Group without answers
      is held in, its record, and the script that keeps it for seven days; a record that
      outlived them reads as none.
    - RunnerRound, RunnerSpec: scheduler/runtime.go ([runOneTracked], [tryAcquireAs],
      [recordDueBound], [NextDeadline]). One round, from its flight to its bound, with
      what surrounds it (the session, the source, the executor) as answers.
    - The files ending in Examples, and the last part of those without one, hold concrete
      runs and the witnesses.

    ** What the theorems show

    - Detection: a normalized number is the nearest millionth of the decimal text, or the
      reason there is none ([DecimalSpec.normalize_decides]); a compiled threshold matches exactly when one of
      its groups holds ([ThresholdSpec.threshold_decides]); a Level's fact is its detectors'
      answers in three-valued logic ([DetectSpec.level_fact_decides]); and a compiled
      Plan of thresholds answers every record from its configuration and the text of
      its values ([PlanDetect.plan_detects]), its no-data view every synthetic series
      ([NoDataDetect.no_data_detects]).
    - Admission: the scope filter admits exactly the records inside an alternative
      ([AdmissionSpec.scope_decides]); a decision made with a group unread is the one every
      later reading gives ([AdmissionSpec.rejection_stands]); a rejection acted on was decided on facts
      that were read ([AdmissionSpec.definitive_outside]), but for an object whose identity
      could not be built ([AdmissionSpec.unbuilt_identity_definitive]).
    - The compile cache: however its calls interleave, a compiler answers as an uncached
      compile does ([CompileSpec.compile_answers]), but for the two fields a Plan's JSON leaves out
      ([CompileSpec.compile_serves_stale]); a put keeps the last used that fit
      ([CompileCacheSpec.put_keeps_recent]).
    - Compilation: a Plan that compiles is its configuration, Level by Level and cost by
      cost ([PlanSpec.plan_compiled]), and it compiles exactly when every check of its
      configuration passes ([PlanSpec.plan_admitted]); a Level that compiles requires the positions the trigger computes for
      it and retains less than twice as many ([LevelSpec.level_history]); and it recovers
      through one outage within the tolerance that leaves the far end of what is retained
      to spare, or is shorter than it by one position less than the trigger's threshold
      ([RecoverySlack.slack_reaches_recovery]; [LevelExamples.ex_far_outage] is one that
      does neither).
    - Effective time: a calendar item matches exactly the days its rule names
      ([CalendarSpec.calendar_item_decides]); a Level is effective exactly in its
      windows, on an active day and off a rest day ([TimeSpec.effective_time_decides]);
      the status a schedule answers holds until the boundary it returns
      ([Schedule.schedule_holds_until]).
    - The trigger: a Level's verdict is the one the observed positions call for with
      every hole counted as a possible anomaly ([TriggerLevel.level_verdict]); a
      recovery is sound ([TriggerLevel.recovery_sound]); a result passes the event
      contract exactly when its value has a finite float64, as every normalized value has
      ([TriggerLevel.level_result_admissible]); records, counts and
      events ([TriggerRecord]); evaluation always ends over a window that serves the
      Level ([TriggerWindow.level_evaluates]).
    - The window: a batch never changes a known fact and drops exactly what is past
      retention ([WindowApply.apply_window], [apply_results]); alignment carries facts
      by Level and fingerprint ([WindowAlign]); the history is that of the facts
      ([WindowHistory]).
    - Absence: the evaluation implements the fate relation ([AbsenceVerdicts]); no
      open absence is lost, none is closed twice; a silent group is reported until
      the horizon over any number of rounds ([AbsenceRounds]); nothing depends on the
      order of Go's maps.
    - The memory: the builder accepts exactly what a later round can read
      ([NoDataMemorySpec]); a record in the store is one writer's memory through races and
      lost replies, and through expiry as long as no delta of a record that expired is
      applied to a later one ([NoDataWriters.memory_never_mixed]), which nothing in the
      store excludes ([NoDataExamples.expired_record_is_mixed]); a round's record is what
      its evaluation remembers, group by group ([NoDataRounds.round_keeps_record]); a Plan
      is never stuck on its own record but for more groups than a limit
      ([NoDataPlan.plan_never_stuck]).
    - Rosters: the expected set, member keys and host candidates ([RosterSpec]).
    - Permits: whatever the interleaving, what is out is what is counted, within the
      budget ([PermitSpec.within_budget]); a caller waits only while the budget is spent, and
      can always end ([PermitSpec.callers_answered]); a permit goes to the queue whose turn it
      is and in it to another group than the last while one waits
      ([QueryPermitsSpec.fair_turn]).
    - The cooldown: a Query Group is in the pool exactly when three Slots failed since its last
      answer ([QueryCooldownSpec.pool_is_evidence]); a held Slot wakes
      ([QueryCooldownSpec.held_wakes]); a restart or another owner changes neither
      ([QueryCooldownStore.restart_keeps_pool]), and the stored epochs never fall
      ([QueryCooldownStore.epochs_grow]).
    - Rounds: a Slot executes only through every gate ([RunnerSpec.round_executes]), and
      after a failure no earlier than its backoff ([RunnerSpec.failed_waits]).

    ** Bounds and fuel

    Recursion that is not structural takes fuel, and each use is proved to have
    enough: the recovery walk runs on the Level's retention, which bounds its steps
    ([RecoveryWalk]); the script's loops on the number of their arguments
    ([NoDataStoreSpec.script_terminates]); the scan for a schedule's next boundary on the
    number of days the code scans; the dispatch of permits on the number of waiters, one of
    which leaves at every turn ([QueryPermitsSpec.dispatch_moves]); SHA-256 on its blocks; binary search on
    the length of its list. Integers are [Z] with Go's wrap-around written out where
    an operation could leave its type; lengths of slices are taken to fit an [int], and
    [PermitRuns.no_wrap] is that the sequence of permits, 64 bits, did not come round.
    A stored epoch is read back by Lua as a double, exact up to 2^53; the seconds permits were
    held are exact nanoseconds where the code adds them up in a float64.

    ** Arguments of the model

    Canonical digests ([DeriveCanonicalDigestV2]), what [CanonicalJSONV2] accepts (of a
    canonical decimal exactly one with a finite float64, where it matters), JSON encodings of the stored
    fields and the digest of a header, taken to tell two headers apart (the class
    [NoDataStore.HashText] and its laws), what [strconv.ParseFloat] makes of
    a dimension's text (the class [Admission.NumberText]), the text of a cooldown's record
    (the class [QueryCooldown.RecordText] and its laws), the orders Go ranges
    over maps in, the offsets of a time zone and the readings of a clock (a function of the
    reading's place in the operation) are arguments; a theorem that needs more than their type says so in
    a named hypothesis, and its witness instantiates it with a concrete function.
    Redis is its documented semantics: a hash, a lifetime, an atomic script.

    ** Not modelled

    Everything that moves data rather than decides: HTTP, Kafka, gRPC and Redis
    clients, configuration, observability, the control plane's catalog and the other
    programs of the repository. Of the scheduler, the planning of Slots (which Slot is due,
    the ranges given up on, supplements), the dispatcher that starts rounds and the
    rebalance of Query Groups between owners; of what is modelled of it, the observations and the
    checks of a Slot and of a request, which are answers of a round. Of the other modelled packages, the loops over items and
    the renewal of lifetimes of the no-data store, and rendering of errors' text
    beyond their kind; the named-input detectors and their compilers. Of admission, the
    fullers that read the CMDB and the resolution of a target plan's members are
    interfaces; the rate of identity reports and the attribution of a business are not
    modelled. *)

From stdpp Require Export base numbers list strings gmap fin_maps sorting.
From Stdlib Require Export ZArith Lia.

#[export] Set Default Goal Selector "!".

Open Scope Z_scope.

(** ** Fallible Go functions

    A Go function that returns [(T, error)] is a function into [result]. *)

Inductive result (E A : Type) : Type :=
  | Ok (value : A)
  | Err (error : E).
Arguments Ok {E A} _.
Arguments Err {E A} _.

#[export] Instance result_ret {E} : MRet (result E) := λ A a, Ok a.
#[export] Instance result_bind {E} : MBind (result E) := λ A B f m,
  match m with Ok a => f a | Err e => Err e end.

Definition is_ok {E A} (m : result E A) : bool :=
  match m with Ok _ => true | Err _ => false end.

(** [fail_if c e] is the early return [if c { return e }]. *)
Definition fail_if {E} (c : bool) (e : E) : result E unit :=
  if c then Err e else Ok tt.

Lemma bind_Ok {E A B} (m : result E A) (f : A → result E B) b :
  (a ← m; f a) = Ok b ↔ ∃ a, m = Ok a ∧ f a = Ok b.
Proof.
  destruct m as [a|e]; simpl; split; [eauto|by intros (?&[=->]&?)|done|by intros (?&?&?)].
Qed.

Lemma fail_if_Ok {E} c (e : E) u : fail_if c e = Ok u ↔ c = false.
Proof. by destruct c, u. Qed.

(** ** Machine integers

    A Go integer is a [Z] that satisfies its range predicate; arithmetic that
    can wrap is written with the wrap around it. *)

Definition maxUint32 : Z := 2 ^ 32 - 1.
Definition maxInt64 : Z := 2 ^ 63 - 1.
Definition minInt64 : Z := - 2 ^ 63.
Definition maxUint64 : Z := 2 ^ 64 - 1.

Definition is_u32 (z : Z) : Prop := 0 ≤ z ≤ maxUint32.
Definition is_u64 (z : Z) : Prop := 0 ≤ z ≤ maxUint64.
Definition is_i64 (z : Z) : Prop := minInt64 ≤ z ≤ maxInt64.

Definition u8 (z : Z) : Z := z mod 2 ^ 8.
Definition u32 (z : Z) : Z := z mod 2 ^ 32.
Definition u64 (z : Z) : Z := z mod 2 ^ 64.
Definition i64 (z : Z) : Z := (z + 2 ^ 63) mod 2 ^ 64 - 2 ^ 63.

Create HintDb go.
Create Rewrite HintDb go_rw.

(** [go_lia] is [lia] with the integer ranges opened. *)
Ltac go_lia :=
  unfold is_u32, is_u64, is_i64, maxUint32, maxInt64, minInt64, maxUint64 in *; lia.

Lemma u32_id z : is_u32 z → u32 z = z.
Proof. intros. unfold u32. rewrite Z.mod_small; [done | go_lia]. Qed.
Lemma u64_id z : is_u64 z → u64 z = z.
Proof. intros. unfold u64. rewrite Z.mod_small; [done | go_lia]. Qed.
Lemma i64_id z : is_i64 z → i64 z = z.
Proof. intros. unfold i64. rewrite Z.mod_small; go_lia. Qed.
Lemma u32_range z : is_u32 (u32 z).
Proof. unfold u32. pose proof (Z.mod_pos_bound z (2 ^ 32) ltac:(lia)). go_lia. Qed.
Lemma u64_range z : is_u64 (u64 z).
Proof. unfold u64. pose proof (Z.mod_pos_bound z (2 ^ 64) ltac:(lia)). go_lia. Qed.
Lemma i64_range z : is_i64 (i64 z).
Proof. unfold i64. pose proof (Z.mod_pos_bound (z + 2 ^ 63) (2 ^ 64) ltac:(lia)). go_lia. Qed.

#[export] Hint Resolve u32_range u64_range i64_range : go.
#[export] Hint Rewrite u32_id u64_id i64_id using (auto with go; go_lia) : go_rw.

(** ** Boolean tests

    The code's conditions are boolean expressions; [breflect] turns every one in
    the context into the proposition it decides. *)

Ltac breflect :=
  repeat match goal with
  | H : context [ Z.ltb ?a ?b = true ] |- _ => rewrite Z.ltb_lt in H
  | H : context [ Z.ltb ?a ?b = false ] |- _ => rewrite Z.ltb_ge in H
  | H : context [ Z.leb ?a ?b = true ] |- _ => rewrite Z.leb_le in H
  | H : context [ Z.leb ?a ?b = false ] |- _ => rewrite Z.leb_gt in H
  | H : context [ Z.eqb ?a ?b = true ] |- _ => rewrite Z.eqb_eq in H
  | H : context [ Z.eqb ?a ?b = false ] |- _ => rewrite Z.eqb_neq in H
  | H : (?a && ?b) = true |- _ => apply andb_true_iff in H as [? ?]
  | H : (?a || ?b) = false |- _ => apply orb_false_iff in H as [? ?]
  | H : (?a && ?b) = false |- _ => apply andb_false_iff in H
  | H : (?a || ?b) = true |- _ => apply orb_true_iff in H
  | H : negb ?a = true |- _ => apply negb_true_iff in H
  | H : negb ?a = false |- _ => apply negb_false_iff in H
  | H : bool_decide ?P = true |- _ => apply bool_decide_eq_true in H
  | H : bool_decide ?P = false |- _ => apply bool_decide_eq_false in H
  end.

(** [case_cond] splits on the condition the premise of the goal branches on. *)
Ltac case_cond :=
  lazymatch goal with
  | |- (if ?b then _ else _) = _ → _ => let H := fresh "Hcond" in destruct b eqn:H
  end.

(** ** [sort.Search]

    The standard library's binary search over [[0, n)]: the loop of
    [sort.Search] with its bounds, on fuel. *)

Fixpoint search_loop (fuel : nat) (f : nat → bool) (i j : nat) : nat :=
  match fuel with
  | O => i
  | S fuel =>
      if (i <? j)%nat then
        let h := ((i + j) / 2)%nat in
        if f h then search_loop fuel f i h else search_loop fuel f (S h) j
      else i
  end.

Definition sort_Search (n : nat) (f : nat → bool) : nat := search_loop n f 0 n.

(** The loop keeps [f] false below [i] and true from [j] on, and the fuel
    covers the interval, so it ends with the two meeting. *)
Lemma search_loop_spec (f : nat → bool) n fuel i j :
  (∀ a b, (a ≤ b < n)%nat → f a = true → f b = true) →
  (i ≤ j ≤ n)%nat → (j - i ≤ fuel)%nat →
  (∀ k, (k < i)%nat → f k = false) →
  (∀ k, (j ≤ k < n)%nat → f k = true) →
  (search_loop fuel f i j ≤ n)%nat ∧
  (∀ k, (k < search_loop fuel f i j)%nat → f k = false) ∧
  (∀ k, (search_loop fuel f i j ≤ k < n)%nat → f k = true).
Proof.
  intros Hmono. revert i j.
  induction fuel as [|fuel IH]; intros i j Hij Hfuel Hlo Hhi; cbn [search_loop].
  - repeat split; [lia | done |]. intros; apply Hhi; lia.
  - destruct (Nat.ltb_spec i j) as [Hlt|Hge].
    2: { repeat split; [lia | done |]. intros; apply Hhi; lia. }
    assert (i ≤ (i + j) / 2 < j)%nat as [Hh1 Hh2].
    { split; [apply Nat.div_le_lower_bound; lia|apply Nat.Div0.div_lt_upper_bound; lia]. }
    destruct (f ((i + j) / 2)%nat) eqn:Hf.
    + apply IH; try lia; [done|].
      intros k Hk. destruct (decide (j ≤ k)%nat); [apply Hhi; lia|].
      eapply Hmono; [|exact Hf]. lia.
    + apply IH; try lia; [|done].
      intros k Hk. destruct (f k) eqn:Hfk; [|done].
      rewrite (Hmono k ((i + j) / 2)%nat) in Hf; [done|lia|done].
Qed.

(** [sort.Search] on a monotone predicate is the smallest index it holds at,
    and [n] when it holds nowhere. *)
Lemma sort_Search_spec (f : nat → bool) n :
  (∀ a b, (a ≤ b < n)%nat → f a = true → f b = true) →
  (sort_Search n f ≤ n)%nat ∧
  (∀ k, (k < sort_Search n f)%nat → f k = false) ∧
  (∀ k, (sort_Search n f ≤ k < n)%nat → f k = true).
Proof. intros. apply search_loop_spec; [done|lia..]. Qed.

(** ** [sort.SliceStable]

    A stable sort by a total preorder: equal elements keep their order. *)

Section stable_sort.
Context {A : Type} (R : relation A) `{!RelDecision R}.

Fixpoint sorted_insert (x : A) (l : list A) : list A :=
  match l with
  | [] => [x]
  | y :: l => if decide (R x y) then x :: y :: l else y :: sorted_insert x l
  end.

Definition stable_sort (l : list A) : list A := foldr sorted_insert [] l.

Lemma sorted_insert_perm x l : sorted_insert x l ≡ₚ x :: l.
Proof.
  induction l as [|y l IH]; simpl; [done|]. case_decide; [done|].
  rewrite IH. apply Permutation_swap.
Qed.

Lemma stable_sort_perm l : stable_sort l ≡ₚ l.
Proof. induction l as [|x l IH]; simpl; [done|]. by rewrite sorted_insert_perm, IH. Qed.

Context `{!Total R, !Transitive R}.

Lemma sorted_insert_sorted x l : StronglySorted R l → StronglySorted R (sorted_insert x l).
Proof.
  induction 1 as [|y l Hl IH Hy]; simpl; [repeat constructor|].
  case_decide as Hxy.
  - constructor; [by constructor|]. constructor; [done|].
    eapply Forall_impl; [exact Hy|]. intros z ?. by transitivity y.
  - constructor; [done|]. rewrite sorted_insert_perm. constructor; [|done].
    by destruct (total R x y).
Qed.

Lemma stable_sort_sorted l : StronglySorted R (stable_sort l).
Proof. induction l; simpl; [constructor|]. by apply sorted_insert_sorted. Qed.
End stable_sort.

Arguments stable_sort {A} R {_} l.

(** The order a sort key induces. *)
Definition ordered_by {A} (key : A → Z) (l r : A) : Prop := key l ≤ key r.
#[export] Instance ordered_by_dec {A} (key : A → Z) : RelDecision (ordered_by key).
Proof. intros l r. unfold ordered_by. apply _. Defined.
#[export] Instance ordered_by_total {A} (key : A → Z) : Total (ordered_by key).
Proof. intros x y. unfold ordered_by. lia. Qed.
#[export] Instance ordered_by_trans {A} (key : A → Z) : Transitive (ordered_by key).
Proof. intros x y z. unfold ordered_by. lia. Qed.

(** ** Order on Go strings

    Go compares strings bytewise, which is [String.compare] on the bytes. *)

Definition str_ltb (a b : string) : bool := String.ltb a b.

Lemma str_ltb_ge a b : str_ltb a b = false ↔ String.le b a.
Proof.
  unfold str_ltb, String.le, String.ltb, String.leb. rewrite (String.compare_antisym b a).
  destruct (String.compare a b); naive_solver.
Qed.

Lemma str_ltb_lt a b : str_ltb a b = true ↔ String.le a b ∧ a ≠ b.
Proof.
  split.
  - intros H. split.
    + destruct (total String.le a b) as [|Hba]; [done|]. apply str_ltb_ge in Hba. congruence.
    + intros ->. assert (str_ltb b b = false) as Hb by (by apply str_ltb_ge). congruence.
  - intros [Hle Hne]. destruct (str_ltb a b) eqn:H; [done|]. apply str_ltb_ge in H. destruct Hne.
    by apply (anti_symm String.le).
Qed.

Lemma str_ltb_trans a b c : str_ltb a b = true → str_ltb b c = true → str_ltb a c = true.
Proof.
  rewrite !str_ltb_lt. intros [Hab Hne] [Hbc _]. split; [by transitivity b|]. intros <-. apply Hne.
  by apply (anti_symm String.le).
Qed.

(** ** Strings *)

Lemma app_assoc_str (a b c : string) : (a +:+ b) +:+ c = a +:+ b +:+ c.
Proof. induction a as [|x a IH]; [done|]. change (String x ((a +:+ b) +:+ c) = String x (a +:+ b +:+ c)). by rewrite IH. Qed.

Lemma app_nil_str (a : string) : a +:+ "" = a.
Proof. induction a as [|x a IH]; [done|]. change (String x (a +:+ "") = String x a). by rewrite IH. Qed.

Lemma cons_app_str (c : Ascii.ascii) (a b : string) : String c (a +:+ b) = String c a +:+ b.
Proof. done. Qed.

Lemma length_app_str (a b : string) : String.length (a +:+ b) = (String.length a + String.length b)%nat.
Proof. induction a as [|c a IH]; [done|]. rewrite <- cons_app_str. simpl. by rewrite IH. Qed.

Lemma substring_prefix (a b : string) : String.substring 0 (String.length a) (a +:+ b) = a.
Proof. induction a as [|c a IH]; [by destruct b|]. rewrite <- cons_app_str. simpl. by rewrite IH. Qed.

Lemma substring_suffix (a b : string) : String.substring (String.length a) (String.length b) (a +:+ b) = b.
Proof.
  induction a as [|c a IH]; [|rewrite <- cons_app_str; exact IH].
  change (String.substring 0 (String.length b) b = b). rewrite <- (app_nil_str b) at 2. apply substring_prefix.
Qed.

Lemma split_str (n : nat) (s : string) : (n ≤ String.length s)%nat → ∃ a b, s = a +:+ b ∧ String.length a = n.
Proof.
  revert s. induction n as [|n IH]; intros s Hn; [by exists ""%string, s|].
  destruct s as [|c s]; simpl in Hn; [lia|]. destruct (IH s) as (a & b & -> & <-); [lia|]. by exists (String c a), b.
Qed.

(** ** Sorted lists *)

Section sorted.
Context {A : Type} (R : relation A).

Lemma sorted_take l n : StronglySorted R l → StronglySorted R (take n l).
Proof. intros Hl. rewrite <- (take_drop n l) in Hl. by apply StronglySorted_app_1_l in Hl. Qed.

Lemma sorted_drop l n : StronglySorted R l → StronglySorted R (drop n l).
Proof. intros Hl. rewrite <- (take_drop n l) in Hl. by apply StronglySorted_app_1_r in Hl. Qed.

Lemma sorted_lookup l i j x y :
  StronglySorted R l → l !! i = Some x → l !! j = Some y → (i < j)%nat → R x y.
Proof.
  intros Hl Hx Hy Hij. rewrite <- (take_drop (S i) l) in Hl.
  eapply StronglySorted_app_1_elem_of; [exact Hl| |].
  - apply list_elem_of_lookup. exists i. rewrite lookup_take_lt by lia. done.
  - apply list_elem_of_lookup. exists (j - S i)%nat. rewrite lookup_drop. rewrite <- Hy. f_equal. lia.
Qed.

Lemma sorted_filter (P : A → Prop) `{∀ x, Decision (P x)} (l : list A) :
  StronglySorted R l → StronglySorted R (filter P l).
Proof.
  induction 1 as [|x l Hl IH Hx]; [constructor|]. rewrite filter_cons. case_decide; [|done].
  constructor; [done|]. rewrite Forall_forall in *. intros y [_ Hy]%list_elem_of_filter. auto.
Qed.

Lemma sorted_insert_at l1 x l2 :
  StronglySorted R (l1 ++ l2) →
  (∀ y, y ∈ l1 → R y x) → (∀ y, y ∈ l2 → R x y) → StronglySorted R (l1 ++ x :: l2).
Proof.
  rewrite !StronglySorted_app. intros (H12 & H1 & H2) Hx1 Hx2. split_and!; [|done|].
  - intros y z Hy [->|Hz]%elem_of_cons; auto.
  - constructor; [done|]. by apply Forall_forall.
Qed.
End sorted.

(** [sort.Search(len(l), func(i) { return P(l[i]) })]. *)
Definition search_list {A} (P : A → bool) (l : list A) : nat :=
  sort_Search (length l) (λ index, match l !! index with Some x => P x | None => true end).

(** On a list sorted so that [P] switches from false to true once, the search
    splits it there. *)
Lemma search_list_split {A} (R : relation A) (P : A → bool) (l : list A) :
  StronglySorted R l → (∀ x y, R x y → P x = true → P y = true) →
  Forall (λ x, P x = false) (take (search_list P l) l) ∧
  Forall (λ x, P x = true) (drop (search_list P l) l).
Proof.
  intros Hl HP. unfold search_list. set (f := λ index : nat, match l !! index with Some x => P x | None => true end).
  destruct (sort_Search_spec f (length l)) as (Hle & Hlo & Hhi).
  { intros a b Hab Ha. unfold f in *. destruct (l !! b) as [y|] eqn:Hy; [|done].
    destruct (lookup_lt_is_Some_2 l a ltac:(lia)) as [x Hx]. rewrite Hx in Ha.
    destruct (decide (a = b)) as [->|]; [congruence|].
    eapply HP; [|exact Ha]. eapply sorted_lookup; [exact Hl|exact Hx|exact Hy|lia]. }
  split; apply Forall_lookup; intros i x Hi.
  - apply lookup_take_Some in Hi as [Hi Hlt]. specialize (Hlo i Hlt). unfold f in Hlo. by rewrite Hi in Hlo.
  - rewrite lookup_drop in Hi. pose proof (lookup_lt_Some _ _ _ Hi) as Hlt.
    specialize (Hhi _ (conj (Nat.le_add_r _ _) Hlt)). unfold f in Hhi at 1. by rewrite Hi in Hhi.
Qed.

(** So the element found, when its key is the one looked for, is the one there is. *)
Lemma search_list_ge {A} (P : A → bool) (l : list A) x :
  Forall (λ x, P x = false) (take (search_list P l) l) → l !! search_list P l = None →
  x ∈ l → P x = false.
Proof.
  intros Hlo Hn Hx. rewrite take_ge in Hlo by (by apply lookup_ge_None).
  rewrite Forall_forall in Hlo. by apply Hlo.
Qed.

(** ** Filters *)

Lemma filter_none {A} (P : A → Prop) `{∀ x, Decision (P x)} (l : list A) :
  (∀ x, x ∈ l → ¬ P x) → filter P l = [].
Proof.
  intros HP. destruct (filter P l) as [|x l'] eqn:Hf; [done|].
  assert (x ∈ filter P l) as [Hx Hin]%list_elem_of_filter by (rewrite Hf; left).
  by destruct (HP x Hin).
Qed.

Lemma filter_every {A} (P : A → Prop) `{∀ x, Decision (P x)} (l : list A) :
  (∀ x, x ∈ l → P x) → filter P l = l.
Proof.
  induction l as [|x l IH]; intros HP; [done|].
  rewrite filter_cons_True by (apply HP; left). f_equal. apply IH. intros y Hy. apply HP. by right.
Qed.

Lemma filter_ext_in {A} (P Q : A → Prop) `{∀ x, Decision (P x), ∀ x, Decision (Q x)} (l : list A) :
  (∀ x, x ∈ l → P x ↔ Q x) → filter P l = filter Q l.
Proof.
  induction l as [|x l IH]; intros HPQ; [done|]. rewrite !filter_cons.
  rewrite IH by (intros; apply HPQ; by right). pose proof (HPQ x ltac:(left)).
  repeat case_decide; tauto.
Qed.

Lemma length_omap {A B} (f : A → option B) (l : list A) : (length (omap f l) ≤ length l)%nat.
Proof. induction l as [|x l IH]; cbn; [lia|]. destruct (f x); cbn; unfold omap in *; lia. Qed.

Lemma elem_of_snoc {A} (l : list A) x y : y ∈ l ++ [x] ↔ y ∈ l ∨ y = x.
Proof. by rewrite elem_of_app, list_elem_of_singleton. Qed.

(** ** Maps *)

Lemma foldl_delete_lookup {A} (names : list string) (m : gmap string A) name :
  foldl (λ m k, delete k m) m names !! name = if bool_decide (name ∈ names) then None else m !! name.
Proof.
  revert m. induction names as [|k names IH]; intros m; cbn [foldl]; [done|]. rewrite IH.
  destruct (decide (k = name)) as [->|Hne].
  - rewrite lookup_delete_eq, (bool_decide_eq_true_2 (name ∈ name :: names)) by left. by case_bool_decide.
  - rewrite lookup_delete_ne by done. by rewrite (bool_decide_ext (name ∈ k :: names) (name ∈ names)) by set_solver.
Qed.
