(* ===== verification/GoHash.v ===== *)
(** The hash functions of the Go standard library the program uses, executable:
    SHA-256 ([crypto/sha256]) and FNV-1a in 32 and 64 bits ([hash/fnv]), over
    bytes written as integers between 0 and 255. *)
From S2P Require Import Prelude.

Open Scope Z_scope.

(** ** Bytes of Go strings and integers *)

Fixpoint bytes_of_string (s : string) : list Z :=
  match s with
  | EmptyString => []
  | String c s => Z.of_N (Ascii.N_of_ascii c) :: bytes_of_string s
  end.

(** [binary.BigEndian.PutUint64]. *)
Definition put_uint64 (z : Z) : list Z :=
  (λ k, u8 (Z.shiftr (u64 z) (8 * k))) <$> [7; 6; 5; 4; 3; 2; 1; 0].

Lemma put_uint64_length z : length (put_uint64 z) = 8%nat.
Proof. reflexivity. Qed.

(** ** FNV-1a *)

Definition fnv64a (bytes : list Z) : Z :=
  foldl (λ h b, u64 (Z.lxor h b * 1099511628211)) 14695981039346656037 bytes.

Definition fnv32a (bytes : list Z) : Z :=
  foldl (λ h b, u32 (Z.lxor h b * 16777619)) 2166136261 bytes.

Lemma foldl_range {A} (P : Z → Prop) (f : Z → A → Z) acc l :
  P acc → (∀ h b, P (f h b)) → P (foldl f acc l).
Proof. revert acc. induction l as [|b l IH]; intros acc ??; simpl; auto. Qed.

Lemma fnv64a_range bytes : is_u64 (fnv64a bytes).
Proof. apply (foldl_range is_u64); [go_lia|intros; apply u64_range]. Qed.

Lemma fnv32a_range bytes : is_u32 (fnv32a bytes).
Proof. apply (foldl_range is_u32); [go_lia|intros; apply u32_range]. Qed.

#[export] Hint Resolve fnv64a_range fnv32a_range : go.

Example fnv_examples :
  fnv64a (bytes_of_string "a") = 0xaf63dc4c8601ec8c ∧ fnv32a (bytes_of_string "a") = 0xe40c292c.
Proof. vm_compute. done. Qed.

(** ** SHA-256 *)

Definition rotr (n x : Z) : Z := Z.lor (Z.shiftr x n) (u32 (Z.shiftl x (32 - n))).
Definition not32 (x : Z) : Z := Z.lxor x maxUint32.

Definition sha_ch (x y z : Z) : Z := Z.lxor (Z.land x y) (Z.land (not32 x) z).
Definition sha_maj (x y z : Z) : Z := Z.lxor (Z.lxor (Z.land x y) (Z.land x z)) (Z.land y z).
Definition sha_S0 (x : Z) : Z := Z.lxor (Z.lxor (rotr 2 x) (rotr 13 x)) (rotr 22 x).
Definition sha_S1 (x : Z) : Z := Z.lxor (Z.lxor (rotr 6 x) (rotr 11 x)) (rotr 25 x).
Definition sha_s0 (x : Z) : Z := Z.lxor (Z.lxor (rotr 7 x) (rotr 18 x)) (Z.shiftr x 3).
Definition sha_s1 (x : Z) : Z := Z.lxor (Z.lxor (rotr 17 x) (rotr 19 x)) (Z.shiftr x 10).

(** The round constants are the first 32 bits of the fractional parts of the cube
    roots of the first 64 primes, the initial state those of the square roots of
    the first eight. *)
Definition is_prime (n : Z) : bool :=
  forallb (λ d, negb (n mod d =? 0)) (Z.of_nat <$> seq 2 (Z.to_nat (Z.sqrt n) - 1)).
Definition primes_below (n : nat) : list Z := filter (λ p, is_prime p = true) (Z.of_nat <$> seq 2 (n - 2)).

(** The integer cube root, one bit at a time from [2 ^ k] down. *)
Fixpoint cube_root (k : nat) (r n : Z) : Z :=
  match k with
  | O => r
  | S k => let r' := r + 2 ^ Z.of_nat k in cube_root k (if r' * r' * r' <=? n then r' else r) n
  end.

Definition sha_K : list Z :=
  Eval vm_compute in (λ p, u32 (cube_root 36 0 (p * 2 ^ 96))) <$> primes_below 312.
Definition sha_init : list Z :=
  Eval vm_compute in (λ p, u32 (Z.sqrt (p * 2 ^ 64))) <$> primes_below 20.

(** The message schedule, newest word first. *)
Fixpoint sha_schedule (n : nat) (w : list Z) : list Z :=
  match n with
  | O => w
  | S n =>
      let at_ k := nth k w 0 in
      sha_schedule n (u32 (sha_s1 (at_ 1%nat) + at_ 6%nat + sha_s0 (at_ 14%nat) + at_ 15%nat) :: w)
  end.

Definition sha_round (state : list Z) (kw : Z * Z) : list Z :=
  match state with
  | [a; b; c; d; e; f; g; h] =>
      let t1 := h + sha_S1 e + sha_ch e f g + kw.1 + kw.2 in
      let t2 := sha_S0 a + sha_maj a b c in
      [u32 (t1 + t2); a; b; c; u32 (d + t1); e; f; g]
  | _ => state
  end.

Definition sha_block (state : list Z) (words : list Z) : list Z :=
  let w := rev (sha_schedule 48 (rev words)) in
  zip_with (λ x y, u32 (x + y)) state (foldl sha_round state (zip sha_K w)).

Fixpoint sha_words (bytes : list Z) : list Z :=
  match bytes with
  | a :: b :: c :: d :: bytes =>
      Z.lor (Z.lor (Z.shiftl a 24) (Z.shiftl b 16)) (Z.lor (Z.shiftl c 8) d) :: sha_words bytes
  | _ => []
  end.

Definition sha_pad (bytes : list Z) : list Z :=
  let n := Z.of_nat (length bytes) in
  bytes ++ [128] ++ replicate (Z.to_nat ((55 - n) mod 64)) 0 ++ put_uint64 (8 * n).

Fixpoint sha_blocks (fuel : nat) (state words : list Z) : list Z :=
  match fuel, words with
  | S fuel, _ :: _ => sha_blocks fuel (sha_block state (take 16 words)) (drop 16 words)
  | _, _ => state
  end.

Definition sum256 (bytes : list Z) : list Z :=
  let words := sha_words (sha_pad bytes) in
  state ← sha_blocks (length words) sha_init words;
  [u8 (Z.shiftr state 24); u8 (Z.shiftr state 16); u8 (Z.shiftr state 8); u8 state].

Example sum256_abc : sum256 (bytes_of_string "abc") = [
  0xba; 0x78; 0x16; 0xbf; 0x8f; 0x01; 0xcf; 0xea; 0x41; 0x41; 0x40; 0xde; 0x5d; 0xae; 0x22; 0x23;
  0xb0; 0x03; 0x61; 0xa3; 0x96; 0x17; 0x7a; 0x9c; 0xb4; 0x10; 0xff; 0x61; 0xf2; 0x00; 0x15; 0xad].
Proof. vm_compute. reflexivity. Qed.

Example sum256_empty : take 4 (sum256 []) = [0xe3; 0xb0; 0xc4; 0x42].
Proof. vm_compute. reflexivity. Qed.
