(* ===== verification/Reason.v ===== *)
(** The reason catalogue (contract/v2_model.go, contract/v2_reason.go): the
    reason codes, the class and the domains of each, and the predicates that ask
    where a code may appear. *)
From S2P Require Import Prelude.

Local Open Scope string_scope.

Definition ReasonMalformedJSON : string := "MALFORMED_JSON".
Definition ReasonSchemaMajorUnsupported : string := "SCHEMA_MAJOR_UNSUPPORTED".
Definition ReasonRequiredFeatureUnsupported : string := "REQUIRED_FEATURE_UNSUPPORTED".
Definition ReasonTenantInvalid : string := "TENANT_INVALID".
Definition ReasonPayloadDigestMismatch : string := "PAYLOAD_DIGEST_MISMATCH".
Definition ReasonPlanSetConflict : string := "PLAN_SET_CONFLICT".
Definition ReasonSelectorOrdinalInvalid : string := "SELECTOR_ORDINAL_INVALID".
Definition ReasonMessageBudgetExceeded : string := "MESSAGE_BUDGET_EXCEEDED".
Definition ReasonPlanInvalid : string := "PLAN_INVALID".
Definition ReasonPlanDuplicateLevelID : string := "PLAN_DUPLICATE_LEVEL_ID".
Definition ReasonPlanBudgetExceeded : string := "PLAN_BUDGET_EXCEEDED".
Definition ReasonNoDataConfigInvalid : string := "NO_DATA_CONFIG_INVALID".
Definition ReasonNoDataPlanUncompilable : string := "NO_DATA_PLAN_UNCOMPILABLE".
Definition ReasonEffectiveTimeInvalid : string := "EFFECTIVE_TIME_INVALID".
Definition ReasonEffectiveTimeSnapshotInvalid : string := "EFFECTIVE_TIME_SNAPSHOT_INVALID".
Definition ReasonEffectiveTimeSnapshotStatusInvalid : string := "EFFECTIVE_TIME_SNAPSHOT_STATUS_INVALID".
Definition ReasonEffectiveTimeSnapshotUnavailable : string := "EFFECTIVE_TIME_SNAPSHOT_UNAVAILABLE".
Definition ReasonEffectiveTimeSchemaUnsupported : string := "EFFECTIVE_TIME_SCHEMA_UNSUPPORTED".
Definition ReasonEffectiveTimeCalendarsMissing : string := "EFFECTIVE_TIME_CALENDARS_MISSING".
Definition ReasonEffectiveTimeCalendarMissing : string := "EFFECTIVE_TIME_CALENDAR_MISSING".
Definition ReasonEffectiveTimeCalendarNotPresent : string := "EFFECTIVE_TIME_CALENDAR_NOT_PRESENT".
Definition ReasonEffectiveTimeCalendarIdentity : string := "EFFECTIVE_TIME_CALENDAR_IDENTITY_INVALID".
Definition ReasonEffectiveTimeCalendarDuplicate : string := "EFFECTIVE_TIME_CALENDAR_DUPLICATE".
Definition ReasonEffectiveTimeCalendarItemsMissing : string := "EFFECTIVE_TIME_CALENDAR_ITEMS_MISSING".
Definition ReasonEffectiveTimeItemDuplicate : string := "EFFECTIVE_TIME_ITEM_DUPLICATE".
Definition ReasonEffectiveTimeItemInvalid : string := "EFFECTIVE_TIME_ITEM_INVALID".
Definition ReasonEffectiveTimeItemTimeInvalid : string := "EFFECTIVE_TIME_ITEM_TIME_INVALID".
Definition ReasonEffectiveTimeTimeKindInvalid : string := "EFFECTIVE_TIME_TIME_KIND_INVALID".
Definition ReasonEffectiveTimeTimezoneInvalid : string := "EFFECTIVE_TIME_TIMEZONE_INVALID".
Definition ReasonEffectiveTimeRepeatInvalid : string := "EFFECTIVE_TIME_REPEAT_INVALID".
Definition ReasonEffectiveTimeRepeatListInvalid : string := "EFFECTIVE_TIME_REPEAT_LIST_INVALID".
Definition ReasonEffectiveTimeRepeatEveryInvalid : string := "EFFECTIVE_TIME_REPEAT_EVERY_INVALID".
Definition ReasonEffectiveTimeRepeatUntilInvalid : string := "EFFECTIVE_TIME_REPEAT_UNTIL_INVALID".
Definition ReasonCompilerTerminalUnclassified : string := "COMPILER_TERMINAL_UNCLASSIFIED".
Definition ReasonNoDataRosterUnsupported : string := "NO_DATA_ROSTER_UNSUPPORTED".
Definition ReasonBackendCapabilityMissing : string := "BACKEND_CAPABILITY_MISSING".
Definition ReasonProjectionInvalid : string := "PROJECTION_INVALID".
Definition ReasonSelectorInvalid : string := "SELECTOR_INVALID".
Definition ReasonLevelInvalid : string := "LEVEL_INVALID".
Definition ReasonAlgorithmUnsupported : string := "ALGORITHM_UNSUPPORTED".
Definition ReasonLevelBudgetExceeded : string := "LEVEL_BUDGET_EXCEEDED".
Definition ReasonRecordInvalid : string := "RECORD_INVALID".
Definition ReasonRecordIdentityConflict : string := "RECORD_IDENTITY_CONFLICT".
Definition ReasonRecordTooLarge : string := "RECORD_TOO_LARGE".
Definition ReasonTimeInvalid : string := "TIME_INVALID".
Definition ReasonLateOutOfWindow : string := "LATE_OUT_OF_WINDOW".
Definition ReasonValidationBudgetExceeded : string := "VALIDATION_BUDGET_EXCEEDED".
Definition ReasonRequiredValueMissing : string := "REQUIRED_VALUE_MISSING".
Definition ReasonRequiredValueTypeMismatch : string := "REQUIRED_VALUE_TYPE_MISMATCH".
Definition ReasonRequiredValueNormalizationFailed : string := "REQUIRED_VALUE_NORMALIZATION_FAILED".
Definition ReasonConfigDrift : string := "CONFIG_DRIFT".
Definition ReasonQueryPartial : string := "QUERY_PARTIAL".
Definition ReasonQueryEmpty : string := "QUERY_EMPTY".
Definition ReasonQueryTimeout : string := "QUERY_TIMEOUT".
Definition ReasonQueryUnavailable : string := "QUERY_UNAVAILABLE".
Definition ReasonQueryTargetMissing : string := "QUERY_TARGET_MISSING".
Definition ReasonDetectIntervalStorageNotSliding : string := "DETECT_INTERVAL_STORAGE_NOT_SLIDING".
Definition ReasonReadinessBudgetInvalid : string := "READINESS_BUDGET_INVALID".
Definition ReasonQueryNotReady : string := "QUERY_NOT_READY".
Definition ReasonExecutionBudgetExhausted : string := "EXECUTION_BUDGET_EXHAUSTED".
Definition ReasonSnapshotUnavailable : string := "SNAPSHOT_UNAVAILABLE".
Definition ReasonGapSkipped : string := "GAP_SKIPPED".
Definition ReasonSchedulePruned : string := "SCHEDULE_PRUNED".
Definition ReasonPlanNotActive : string := "PLAN_NOT_ACTIVE".
Definition ReasonScheduleRepaired : string := "SCHEDULE_REPAIRED".
Definition ReasonScheduleReopened : string := "SCHEDULE_REOPENED".
Definition ReasonPlanReactivated : string := "PLAN_REACTIVATED".
Definition ReasonEffectiveTimeInactive : string := "EFFECTIVE_TIME_INACTIVE".
Definition ReasonEffectiveTimeUnknown : string := "EFFECTIVE_TIME_UNKNOWN".
Definition ReasonHistoryWarming : string := "HISTORY_WARMING".
Definition ReasonHistoryGapped : string := "HISTORY_GAPPED".
Definition ReasonKafkaUnavailable : string := "KAFKA_UNAVAILABLE".
Definition ReasonRedisUnavailable : string := "REDIS_UNAVAILABLE".
Definition ReasonStateReadTimeout : string := "STATE_READ_TIMEOUT".
Definition ReasonStateReadDeadline : string := "STATE_READ_DEADLINE".
Definition ReasonQGBudgetShareExceeded : string := "QG_BUDGET_SHARE_EXCEEDED".
Definition ReasonProviderUnavailable : string := "PROVIDER_UNAVAILABLE".
Definition ReasonProgressBeginRejected : string := "PROGRESS_BEGIN_REJECTED".
Definition ReasonProgressBeginFailed : string := "PROGRESS_BEGIN_FAILED".
Definition ReasonActivationReadFailed : string := "ACTIVATION_READ_FAILED".
Definition ReasonActivationMissing : string := "ACTIVATION_MISSING".
Definition ReasonSnapshotRetryPending : string := "SNAPSHOT_RETRY_PENDING".
Definition ReasonSlotSourceRetry : string := "SLOT_SOURCE_RETRY".
Definition ReasonBlockedExactSetUnavailable : string := "BLOCKED_EXACT_SET_UNAVAILABLE".
Definition ReasonScheduleUnreadable : string := "SCHEDULE_UNREADABLE".
Definition ReasonViewNotExecutable : string := "VIEW_NOT_EXECUTABLE".
Definition ReasonGapGuardConflict : string := "GAP_GUARD_CONFLICT".
Definition ReasonGapGuardDuplicatedAcrossBatches : string := "GAP_GUARD_DUPLICATED_ACROSS_BATCHES".
Definition ReasonGapGuardDisagree : string := "GAP_GUARD_DISAGREE".
Definition ReasonGapApplyConflict : string := "GAP_APPLY_CONFLICT".
Definition ReasonGapApplyStaleVersion : string := "GAP_APPLY_STALE_VERSION".
Definition ReasonGapWriteRetryable : string := "GAP_WRITE_RETRYABLE".
Definition ReasonStateVersionConflict : string := "STATE_VERSION_CONFLICT".
Definition ReasonStateStaleVersion : string := "STATE_STALE_VERSION".
Definition ReasonSnapshotRetentionInsufficient : string := "SNAPSHOT_RETENTION_INSUFFICIENT".
Definition ReasonCompletionOffsetBelowReserve : string := "COMPLETION_OFFSET_BELOW_RESERVE".
Definition ReasonResourceHardStop : string := "RESOURCE_HARD_STOP".
Definition ReasonSlotBudgetExceeded : string := "SLOT_BUDGET_EXCEEDED".
Definition ReasonOutputACKUnknown : string := "OUTPUT_ACK_UNKNOWN".
Definition ReasonOutputConversionRejected : string := "OUTPUT_CONVERSION_REJECTED".
Definition ReasonOutputClientRejected : string := "OUTPUT_CLIENT_REJECTED".
Definition ReasonOutputLeaseExpiring : string := "OUTPUT_LEASE_EXPIRING".
Definition ReasonStateWriteRetryable : string := "STATE_WRITE_RETRYABLE".
Definition ReasonStateCorrupt : string := "STATE_CORRUPT".
Definition ReasonStateSchemaUnsupported : string := "STATE_SCHEMA_UNSUPPORTED".
Definition ReasonStateBudgetExceeded : string := "STATE_BUDGET_EXCEEDED".
Definition ReasonStateLevelContractMismatch : string := "STATE_LEVEL_CONTRACT_MISMATCH".
Definition ReasonTriggerInvariant : string := "TRIGGER_INVARIANT".
Definition ReasonAuditDrop : string := "AUDIT_DROP".
Definition ReasonOwnershipStaleFence : string := "OWNERSHIP_STALE_FENCE".
Definition ReasonOwnershipNotDesired : string := "OWNERSHIP_NOT_DESIRED".
Definition ReasonOwnershipLeaseBusy : string := "OWNERSHIP_LEASE_BUSY".
Definition ReasonContentScopeMoved : string := "CONTENT_SCOPE_MOVED".
Definition ReasonMultipleEvaluationUnitsUnsupported : string := "MULTIPLE_EVALUATION_UNITS_UNSUPPORTED".

Inductive ReasonClassV2 : Type :=
  | ReasonClassDeterministic
  | ReasonClassRetryable
  | ReasonClassCoverage.

#[export] Instance ReasonClassV2_eq_dec : EqDecision ReasonClassV2.
Proof. solve_decision. Defined.

(** [ReasonDomainsV2] is a [uint32] bit set. *)
Definition ReasonDomainQueryResult : Z := 1.
Definition ReasonDomainValidationIssue : Z := 2.
Definition ReasonDomainReceipt : Z := 4.
Definition ReasonDomainSummary : Z := 8.
Definition ReasonDomainObservation : Z := 16.

Definition Has (domains domain : Z) : bool :=
  negb (domain =? 0)%Z && (Z.land domains domain =? domain)%Z.

Record ReasonDefinitionV2 : Type := mkReason {
  Code : string;
  Class : ReasonClassV2;
  Domains : Z;
}.

Definition reasonOutcomeDomainsV2 : Z :=
  Z.lor (Z.lor ReasonDomainValidationIssue ReasonDomainReceipt) ReasonDomainObservation.
Definition reasonMessageDomainsV2 : Z := Z.lor ReasonDomainReceipt ReasonDomainObservation.
Definition reasonQueryDomainsV2 : Z :=
  Z.lor (Z.lor (Z.lor ReasonDomainQueryResult ReasonDomainReceipt) ReasonDomainSummary) ReasonDomainObservation.

Definition reasonCatalogV2 : gmap string ReasonDefinitionV2 := list_to_map [
  (ReasonMalformedJSON, mkReason ReasonMalformedJSON ReasonClassDeterministic (reasonMessageDomainsV2));
  (ReasonSchemaMajorUnsupported, mkReason ReasonSchemaMajorUnsupported ReasonClassDeterministic (reasonMessageDomainsV2));
  (ReasonRequiredFeatureUnsupported, mkReason ReasonRequiredFeatureUnsupported ReasonClassDeterministic (reasonMessageDomainsV2));
  (ReasonTenantInvalid, mkReason ReasonTenantInvalid ReasonClassDeterministic (reasonMessageDomainsV2));
  (ReasonPayloadDigestMismatch, mkReason ReasonPayloadDigestMismatch ReasonClassDeterministic (reasonMessageDomainsV2));
  (ReasonPlanSetConflict, mkReason ReasonPlanSetConflict ReasonClassDeterministic (reasonMessageDomainsV2));
  (ReasonSelectorOrdinalInvalid, mkReason ReasonSelectorOrdinalInvalid ReasonClassDeterministic (reasonMessageDomainsV2));
  (ReasonMessageBudgetExceeded, mkReason ReasonMessageBudgetExceeded ReasonClassDeterministic (reasonMessageDomainsV2));
  (ReasonPlanInvalid, mkReason ReasonPlanInvalid ReasonClassDeterministic (reasonOutcomeDomainsV2));
  (ReasonMultipleEvaluationUnitsUnsupported, mkReason ReasonMultipleEvaluationUnitsUnsupported ReasonClassDeterministic (reasonOutcomeDomainsV2));
  (ReasonPlanDuplicateLevelID, mkReason ReasonPlanDuplicateLevelID ReasonClassDeterministic (reasonOutcomeDomainsV2));
  (ReasonPlanBudgetExceeded, mkReason ReasonPlanBudgetExceeded ReasonClassDeterministic (reasonOutcomeDomainsV2));
  (ReasonNoDataConfigInvalid, mkReason ReasonNoDataConfigInvalid ReasonClassDeterministic (reasonOutcomeDomainsV2));
  (ReasonNoDataPlanUncompilable, mkReason ReasonNoDataPlanUncompilable ReasonClassDeterministic (reasonOutcomeDomainsV2));
  (ReasonEffectiveTimeInvalid, mkReason ReasonEffectiveTimeInvalid ReasonClassDeterministic (reasonOutcomeDomainsV2));
  (ReasonEffectiveTimeSnapshotInvalid, mkReason ReasonEffectiveTimeSnapshotInvalid ReasonClassDeterministic (reasonOutcomeDomainsV2));
  (ReasonEffectiveTimeSnapshotStatusInvalid, mkReason ReasonEffectiveTimeSnapshotStatusInvalid ReasonClassDeterministic (reasonOutcomeDomainsV2));
  (ReasonEffectiveTimeSnapshotUnavailable, mkReason ReasonEffectiveTimeSnapshotUnavailable ReasonClassDeterministic (reasonOutcomeDomainsV2));
  (ReasonEffectiveTimeSchemaUnsupported, mkReason ReasonEffectiveTimeSchemaUnsupported ReasonClassDeterministic (reasonOutcomeDomainsV2));
  (ReasonEffectiveTimeCalendarsMissing, mkReason ReasonEffectiveTimeCalendarsMissing ReasonClassDeterministic (reasonOutcomeDomainsV2));
  (ReasonEffectiveTimeCalendarMissing, mkReason ReasonEffectiveTimeCalendarMissing ReasonClassDeterministic (reasonOutcomeDomainsV2));
  (ReasonEffectiveTimeCalendarNotPresent, mkReason ReasonEffectiveTimeCalendarNotPresent ReasonClassDeterministic (reasonOutcomeDomainsV2));
  (ReasonEffectiveTimeCalendarIdentity, mkReason ReasonEffectiveTimeCalendarIdentity ReasonClassDeterministic (reasonOutcomeDomainsV2));
  (ReasonEffectiveTimeCalendarDuplicate, mkReason ReasonEffectiveTimeCalendarDuplicate ReasonClassDeterministic (reasonOutcomeDomainsV2));
  (ReasonEffectiveTimeCalendarItemsMissing, mkReason ReasonEffectiveTimeCalendarItemsMissing ReasonClassDeterministic (reasonOutcomeDomainsV2));
  (ReasonEffectiveTimeItemDuplicate, mkReason ReasonEffectiveTimeItemDuplicate ReasonClassDeterministic (reasonOutcomeDomainsV2));
  (ReasonEffectiveTimeItemInvalid, mkReason ReasonEffectiveTimeItemInvalid ReasonClassDeterministic (reasonOutcomeDomainsV2));
  (ReasonEffectiveTimeItemTimeInvalid, mkReason ReasonEffectiveTimeItemTimeInvalid ReasonClassDeterministic (reasonOutcomeDomainsV2));
  (ReasonEffectiveTimeTimeKindInvalid, mkReason ReasonEffectiveTimeTimeKindInvalid ReasonClassDeterministic (reasonOutcomeDomainsV2));
  (ReasonEffectiveTimeTimezoneInvalid, mkReason ReasonEffectiveTimeTimezoneInvalid ReasonClassDeterministic (reasonOutcomeDomainsV2));
  (ReasonEffectiveTimeRepeatInvalid, mkReason ReasonEffectiveTimeRepeatInvalid ReasonClassDeterministic (reasonOutcomeDomainsV2));
  (ReasonEffectiveTimeRepeatListInvalid, mkReason ReasonEffectiveTimeRepeatListInvalid ReasonClassDeterministic (reasonOutcomeDomainsV2));
  (ReasonEffectiveTimeRepeatEveryInvalid, mkReason ReasonEffectiveTimeRepeatEveryInvalid ReasonClassDeterministic (reasonOutcomeDomainsV2));
  (ReasonEffectiveTimeRepeatUntilInvalid, mkReason ReasonEffectiveTimeRepeatUntilInvalid ReasonClassDeterministic (reasonOutcomeDomainsV2));
  (ReasonCompilerTerminalUnclassified, mkReason ReasonCompilerTerminalUnclassified ReasonClassDeterministic (reasonOutcomeDomainsV2));
  (ReasonNoDataRosterUnsupported, mkReason ReasonNoDataRosterUnsupported ReasonClassDeterministic (reasonOutcomeDomainsV2));
  (ReasonBackendCapabilityMissing, mkReason ReasonBackendCapabilityMissing ReasonClassDeterministic (reasonOutcomeDomainsV2));
  (ReasonProjectionInvalid, mkReason ReasonProjectionInvalid ReasonClassDeterministic (reasonOutcomeDomainsV2));
  (ReasonSelectorInvalid, mkReason ReasonSelectorInvalid ReasonClassDeterministic (reasonOutcomeDomainsV2));
  (ReasonLevelInvalid, mkReason ReasonLevelInvalid ReasonClassDeterministic (reasonOutcomeDomainsV2));
  (ReasonAlgorithmUnsupported, mkReason ReasonAlgorithmUnsupported ReasonClassDeterministic (reasonOutcomeDomainsV2));
  (ReasonLevelBudgetExceeded, mkReason ReasonLevelBudgetExceeded ReasonClassDeterministic (reasonOutcomeDomainsV2));
  (ReasonRecordInvalid, mkReason ReasonRecordInvalid ReasonClassDeterministic (reasonOutcomeDomainsV2));
  (ReasonRecordIdentityConflict, mkReason ReasonRecordIdentityConflict ReasonClassDeterministic (reasonOutcomeDomainsV2));
  (ReasonTimeInvalid, mkReason ReasonTimeInvalid ReasonClassDeterministic (reasonOutcomeDomainsV2));
  (ReasonLateOutOfWindow, mkReason ReasonLateOutOfWindow ReasonClassDeterministic (reasonOutcomeDomainsV2));
  (ReasonValidationBudgetExceeded, mkReason ReasonValidationBudgetExceeded ReasonClassDeterministic (reasonOutcomeDomainsV2));
  (ReasonRequiredValueMissing, mkReason ReasonRequiredValueMissing ReasonClassDeterministic (Z.lor ReasonDomainReceipt ReasonDomainObservation));
  (ReasonRequiredValueTypeMismatch, mkReason ReasonRequiredValueTypeMismatch ReasonClassDeterministic (Z.lor ReasonDomainReceipt ReasonDomainObservation));
  (ReasonRequiredValueNormalizationFailed, mkReason ReasonRequiredValueNormalizationFailed ReasonClassDeterministic (Z.lor ReasonDomainReceipt ReasonDomainObservation));
  (ReasonConfigDrift, mkReason ReasonConfigDrift ReasonClassCoverage (reasonQueryDomainsV2));
  (ReasonPlanReactivated, mkReason ReasonPlanReactivated ReasonClassCoverage (reasonQueryDomainsV2));
  (ReasonQueryPartial, mkReason ReasonQueryPartial ReasonClassCoverage (reasonQueryDomainsV2));
  (ReasonQueryEmpty, mkReason ReasonQueryEmpty ReasonClassCoverage (reasonQueryDomainsV2));
  (ReasonQueryTimeout, mkReason ReasonQueryTimeout ReasonClassCoverage (reasonQueryDomainsV2));
  (ReasonQueryUnavailable, mkReason ReasonQueryUnavailable ReasonClassCoverage (reasonQueryDomainsV2));
  (ReasonQueryTargetMissing, mkReason ReasonQueryTargetMissing ReasonClassCoverage (reasonQueryDomainsV2));
  (ReasonDetectIntervalStorageNotSliding, mkReason ReasonDetectIntervalStorageNotSliding ReasonClassCoverage (reasonQueryDomainsV2));
  (ReasonReadinessBudgetInvalid, mkReason ReasonReadinessBudgetInvalid ReasonClassCoverage (reasonQueryDomainsV2));
  (ReasonQueryNotReady, mkReason ReasonQueryNotReady ReasonClassRetryable (ReasonDomainObservation));
  (ReasonExecutionBudgetExhausted, mkReason ReasonExecutionBudgetExhausted ReasonClassCoverage (Z.lor (Z.lor ReasonDomainQueryResult ReasonDomainReceipt) ReasonDomainObservation));
  (ReasonSnapshotUnavailable, mkReason ReasonSnapshotUnavailable ReasonClassCoverage (ReasonDomainObservation));
  (ReasonGapSkipped, mkReason ReasonGapSkipped ReasonClassCoverage (ReasonDomainObservation));
  (ReasonSchedulePruned, mkReason ReasonSchedulePruned ReasonClassCoverage (ReasonDomainObservation));
  (ReasonPlanNotActive, mkReason ReasonPlanNotActive ReasonClassCoverage (ReasonDomainObservation));
  (ReasonScheduleRepaired, mkReason ReasonScheduleRepaired ReasonClassCoverage (ReasonDomainObservation));
  (ReasonScheduleReopened, mkReason ReasonScheduleReopened ReasonClassCoverage (ReasonDomainObservation));
  (ReasonEffectiveTimeInactive, mkReason ReasonEffectiveTimeInactive ReasonClassCoverage (Z.lor ReasonDomainReceipt ReasonDomainObservation));
  (ReasonEffectiveTimeUnknown, mkReason ReasonEffectiveTimeUnknown ReasonClassCoverage (Z.lor ReasonDomainReceipt ReasonDomainObservation));
  (ReasonHistoryWarming, mkReason ReasonHistoryWarming ReasonClassCoverage (Z.lor ReasonDomainReceipt ReasonDomainObservation));
  (ReasonHistoryGapped, mkReason ReasonHistoryGapped ReasonClassCoverage (Z.lor ReasonDomainReceipt ReasonDomainObservation));
  (ReasonRecordTooLarge, mkReason ReasonRecordTooLarge ReasonClassCoverage (Z.lor ReasonDomainSummary ReasonDomainObservation));
  (ReasonAuditDrop, mkReason ReasonAuditDrop ReasonClassCoverage (ReasonDomainObservation));
  (ReasonKafkaUnavailable, mkReason ReasonKafkaUnavailable ReasonClassRetryable (Z.lor ReasonDomainSummary ReasonDomainObservation));
  (ReasonRedisUnavailable, mkReason ReasonRedisUnavailable ReasonClassRetryable (ReasonDomainObservation));
  (ReasonStateReadTimeout, mkReason ReasonStateReadTimeout ReasonClassRetryable (ReasonDomainObservation));
  (ReasonStateReadDeadline, mkReason ReasonStateReadDeadline ReasonClassRetryable (ReasonDomainObservation));
  (ReasonQGBudgetShareExceeded, mkReason ReasonQGBudgetShareExceeded ReasonClassDeterministic (ReasonDomainObservation));
  (ReasonProviderUnavailable, mkReason ReasonProviderUnavailable ReasonClassRetryable (ReasonDomainObservation));
  (ReasonProgressBeginRejected, mkReason ReasonProgressBeginRejected ReasonClassRetryable (ReasonDomainObservation));
  (ReasonProgressBeginFailed, mkReason ReasonProgressBeginFailed ReasonClassDeterministic (ReasonDomainObservation));
  (ReasonActivationReadFailed, mkReason ReasonActivationReadFailed ReasonClassRetryable (ReasonDomainObservation));
  (ReasonActivationMissing, mkReason ReasonActivationMissing ReasonClassRetryable (ReasonDomainObservation));
  (ReasonSnapshotRetryPending, mkReason ReasonSnapshotRetryPending ReasonClassRetryable (ReasonDomainObservation));
  (ReasonSlotSourceRetry, mkReason ReasonSlotSourceRetry ReasonClassRetryable (ReasonDomainObservation));
  (ReasonViewNotExecutable, mkReason ReasonViewNotExecutable ReasonClassRetryable (ReasonDomainObservation));
  (ReasonBlockedExactSetUnavailable, mkReason ReasonBlockedExactSetUnavailable ReasonClassDeterministic (ReasonDomainObservation));
  (ReasonScheduleUnreadable, mkReason ReasonScheduleUnreadable ReasonClassDeterministic (ReasonDomainObservation));
  (ReasonGapGuardConflict, mkReason ReasonGapGuardConflict ReasonClassDeterministic (ReasonDomainObservation));
  (ReasonGapGuardDuplicatedAcrossBatches, mkReason ReasonGapGuardDuplicatedAcrossBatches ReasonClassDeterministic (ReasonDomainObservation));
  (ReasonGapGuardDisagree, mkReason ReasonGapGuardDisagree ReasonClassDeterministic (ReasonDomainObservation));
  (ReasonGapApplyConflict, mkReason ReasonGapApplyConflict ReasonClassRetryable (ReasonDomainObservation));
  (ReasonGapApplyStaleVersion, mkReason ReasonGapApplyStaleVersion ReasonClassRetryable (ReasonDomainObservation));
  (ReasonGapWriteRetryable, mkReason ReasonGapWriteRetryable ReasonClassRetryable (ReasonDomainObservation));
  (ReasonStateVersionConflict, mkReason ReasonStateVersionConflict ReasonClassDeterministic (ReasonDomainObservation));
  (ReasonStateStaleVersion, mkReason ReasonStateStaleVersion ReasonClassDeterministic (ReasonDomainObservation));
  (ReasonSnapshotRetentionInsufficient, mkReason ReasonSnapshotRetentionInsufficient ReasonClassDeterministic (ReasonDomainObservation));
  (ReasonCompletionOffsetBelowReserve, mkReason ReasonCompletionOffsetBelowReserve ReasonClassDeterministic (ReasonDomainObservation));
  (ReasonResourceHardStop, mkReason ReasonResourceHardStop ReasonClassRetryable (ReasonDomainObservation));
  (ReasonSlotBudgetExceeded, mkReason ReasonSlotBudgetExceeded ReasonClassCoverage (ReasonDomainObservation));
  (ReasonOutputACKUnknown, mkReason ReasonOutputACKUnknown ReasonClassRetryable (ReasonDomainObservation));
  (ReasonOutputConversionRejected, mkReason ReasonOutputConversionRejected ReasonClassDeterministic (Z.lor ReasonDomainReceipt ReasonDomainObservation));
  (ReasonOutputClientRejected, mkReason ReasonOutputClientRejected ReasonClassDeterministic (Z.lor ReasonDomainReceipt ReasonDomainObservation));
  (ReasonOutputLeaseExpiring, mkReason ReasonOutputLeaseExpiring ReasonClassRetryable (ReasonDomainObservation));
  (ReasonStateWriteRetryable, mkReason ReasonStateWriteRetryable ReasonClassRetryable (ReasonDomainObservation));
  (ReasonStateCorrupt, mkReason ReasonStateCorrupt ReasonClassDeterministic (Z.lor ReasonDomainReceipt ReasonDomainObservation));
  (ReasonStateSchemaUnsupported, mkReason ReasonStateSchemaUnsupported ReasonClassDeterministic (Z.lor ReasonDomainReceipt ReasonDomainObservation));
  (ReasonStateBudgetExceeded, mkReason ReasonStateBudgetExceeded ReasonClassDeterministic (Z.lor ReasonDomainReceipt ReasonDomainObservation));
  (ReasonStateLevelContractMismatch, mkReason ReasonStateLevelContractMismatch ReasonClassDeterministic (ReasonDomainObservation));
  (ReasonTriggerInvariant, mkReason ReasonTriggerInvariant ReasonClassDeterministic (ReasonDomainObservation));
  (ReasonOwnershipStaleFence, mkReason ReasonOwnershipStaleFence ReasonClassDeterministic (ReasonDomainObservation));
  (ReasonOwnershipNotDesired, mkReason ReasonOwnershipNotDesired ReasonClassDeterministic (ReasonDomainObservation));
  (ReasonOwnershipLeaseBusy, mkReason ReasonOwnershipLeaseBusy ReasonClassRetryable (ReasonDomainObservation));
  (ReasonContentScopeMoved, mkReason ReasonContentScopeMoved ReasonClassDeterministic (ReasonDomainObservation))
].

(** [sort.Slice] by code over the values of the map; the codes are distinct, so
    the order the map is ranged over does not show. *)
Definition code_le (left right : ReasonDefinitionV2) : Prop := String.le (Code left) (Code right).

#[export] Instance code_le_dec : RelDecision code_le.
Proof. intros l r. unfold code_le. apply _. Defined.

Definition ReasonCatalogV2 : list ReasonDefinitionV2 :=
  merge_sort code_le ((map_to_list reasonCatalogV2).*2).

Definition LookupReasonV2 (code : string) : option ReasonDefinitionV2 := reasonCatalogV2 !! code.

Definition IsKnownReasonV2 (code : string) : bool :=
  match LookupReasonV2 code with Some _ => true | None => false end.

Definition ReasonAllowedForV2 (code : string) (domain : Z) : bool :=
  match LookupReasonV2 code with
  | Some definition => Has (Domains definition) domain
  | None => false
  end.

Definition LevelUnavailableReasonV2 (code : string) : bool :=
  ReasonAllowedForV2 code (Z.lor ReasonDomainReceipt ReasonDomainObservation).

(** Every entry is filed under its own code. *)
Lemma reasonCatalogV2_codes code definition :
  reasonCatalogV2 !! code = Some definition → Code definition = code.
Proof.
  intros H%elem_of_list_to_map_2. revert H. rewrite list_elem_of_In.
  repeat (intros [[=<- <-]|H]; [reflexivity|revert H]). done.
Qed.

(** A property of every catalogued definition is checked on the finite list. *)
Lemma reasonCatalogV2_forall (P : string → ReasonDefinitionV2 → bool) :
  forallb (λ e, P e.1 e.2) (map_to_list reasonCatalogV2) = true →
  ∀ code definition, reasonCatalogV2 !! code = Some definition → P code definition = true.
Proof.
  intros Hall code definition H%elem_of_map_to_list%list_elem_of_In.
  rewrite forallb_forall in Hall. exact (Hall _ H).
Qed.

(** A code a domain set allows is allowed for any part of it. *)
Lemma Has_lor domains a b :
  a ≠ 0%Z → Has domains (Z.lor a b) = true → Has domains a = true.
Proof.
  intros Ha. unfold Has. rewrite !andb_true_iff, !negb_true_iff, !Z.eqb_eq, !Z.eqb_neq.
  intros [_ Hab]. split; [done|].
  apply Z.bits_inj'. intros n Hn. apply (f_equal (λ z, Z.testbit z n)) in Hab.
  rewrite !Z.land_spec, Z.lor_spec in *.
  destruct (Z.testbit domains n), (Z.testbit a n), (Z.testbit b n); simpl in *; congruence.
Qed.
