(* ===== verification/GapReason.v ===== *)
(** The fold of a gap scope's reasons (contract/gap_reason_fold.go), the words a
    scope's progress is labelled with (contract/gap_scope_progress.go) and the
    running comparison the detector folds by
    (detect/evaluator.go, [strongerUnknownReason]). *)
From Stdlib Require OrdersEx.
From S2P Require Import Prelude Reason.

Local Open Scope string_scope.

Definition GapReasonFoldOrder : list string := [
  ReasonReadinessBudgetInvalid;
  ReasonQueryTargetMissing;
  ReasonDetectIntervalStorageNotSliding;
  ReasonQueryUnavailable;
  ReasonQueryTimeout;
  ReasonExecutionBudgetExhausted;
  ReasonConfigDrift;
  ReasonPlanReactivated;
  ReasonQueryPartial;
  ReasonQueryEmpty
].

(** [for rank, listed := range GapReasonFoldOrder]. *)
Fixpoint rank_loop (rank : nat) (order : list string) (reason : string) : nat * bool :=
  match order with
  | [] => (rank, false)
  | listed :: order =>
      if String.eqb listed reason then (rank, true) else rank_loop (S rank) order reason
  end.

Definition gapReasonRank (reason : string) : nat * bool := rank_loop 0 GapReasonFoldOrder reason.

Definition gapReasonOutranks (candidate incumbent : string) : bool :=
  let '(candidateRank, candidateListed) := gapReasonRank candidate in
  let '(incumbentRank, incumbentListed) := gapReasonRank incumbent in
  if negb (Bool.eqb candidateListed incumbentListed) then negb candidateListed
  else if negb (candidateRank =? incumbentRank)%nat then (candidateRank <? incumbentRank)%nat
  else str_ltb candidate incumbent.

(** The body of the loop of [FoldGapReason]. *)
Definition fold_step (folded reason : string) : string :=
  if String.eqb reason "" then folded
  else if String.eqb folded "" || gapReasonOutranks reason folded then reason
  else folded.

Definition FoldGapReason (reasons : list string) : string := foldl fold_step "" reasons.

Definition strongerUnknownReason (current candidate : string) : bool :=
  negb (String.eqb candidate current)
  && String.eqb (FoldGapReason [candidate; current]) candidate.

Definition GapScopeProgressNone : string := "none".
Definition GapScopeProgressPartial : string := "partial".
Definition GapScopeProgressReady : string := "ready".

Definition GapScopeProgress (observed required : Z) : string :=
  if (observed =? 0)%Z then GapScopeProgressNone
  else if (observed <? required)%Z then GapScopeProgressPartial
  else GapScopeProgressReady.

Definition GapScopeReasonOther : string := "other".
Definition GapScopeQueryFreeReasons : list string := [ReasonSnapshotUnavailable; ReasonGapSkipped].

Definition GapScopeReasons : list string :=
  merge_sort String.le
    ((Code <$> filter (λ d, Z.land (Domains d) ReasonDomainQueryResult ≠ 0%Z) ReasonCatalogV2)
     ++ [ReasonHistoryWarming] ++ GapScopeQueryFreeReasons).

Definition NormalizeGapScopeReason (code : string) : string :=
  if existsb (λ reason, String.eqb reason code) GapScopeReasons then code
  else GapScopeReasonOther.

(** ** The order the fold prefers *)

Section order.
Implicit Types (a b c reason : string) (reasons : list string).

Lemma rank_loop_ge n order reason : (n ≤ (rank_loop n order reason).1)%nat.
Proof.
  revert n. induction order as [|x order IH]; intros n; simpl; [lia|].
  destruct (String.eqb x reason); simpl; [lia|]. etrans; [|apply IH]. lia.
Qed.

Lemma rank_loop_unlisted n order reason :
  (rank_loop n order reason).2 = false →
  (rank_loop n order reason).1 = (n + length order)%nat.
Proof.
  revert n. induction order as [|x order IH]; intros n; simpl; [lia|].
  destruct (String.eqb x reason); simpl; [done|]. intros H. rewrite IH by done. lia.
Qed.

(** Two listed reasons of the same rank are the same reason. *)
Lemma rank_loop_inj n order a b :
  (rank_loop n order a).2 = true → rank_loop n order a = rank_loop n order b → a = b.
Proof.
  revert n. induction order as [|x order IH]; intros n; simpl; [done|].
  destruct (String.eqb_spec x a), (String.eqb_spec x b); subst; simpl; try done.
  - intros _ H. pose proof (rank_loop_ge (S n) order b) as Hge. rewrite <- H in Hge. simpl in Hge. lia.
  - intros _ H. pose proof (rank_loop_ge (S n) order a) as Hge. rewrite H in Hge. simpl in Hge. lia.
  - apply IH.
Qed.

Lemma str_ltb_spec a b : str_ltb a b = true ↔ String.compare a b = Lt.
Proof. unfold str_ltb, String.ltb. by destruct (String.compare a b). Qed.

(** What [gapReasonOutranks] decides, over the two reasons' rank and listing. *)
Lemma gapReasonOutranks_spec a b :
  gapReasonOutranks a b = true ↔
  let '(ra, la) := gapReasonRank a in
  let '(rb, lb) := gapReasonRank b in
  (la = false ∧ lb = true) ∨
  (la = lb ∧ ((ra < rb)%nat ∨ (ra = rb ∧ str_ltb a b = true))).
Proof.
  unfold gapReasonOutranks.
  destruct (gapReasonRank a) as [ra la], (gapReasonRank b) as [rb lb].
  destruct la, lb; simpl; try tauto.
  - destruct (Nat.eqb_spec ra rb); simpl; rewrite ?Nat.ltb_lt; naive_solver lia.
  - naive_solver.
  - destruct (Nat.eqb_spec ra rb); simpl; rewrite ?Nat.ltb_lt; naive_solver lia.
Qed.

Lemma gapReasonOutranks_irrefl a : gapReasonOutranks a a = false.
Proof.
  apply not_true_is_false. rewrite gapReasonOutranks_spec.
  destruct (gapReasonRank a) as [r l].
  intros [[-> ?]|[_ [?|[_ H]]]]; [done|lia|].
  apply str_ltb_spec in H.
  exact (StrictOrder_Irreflexive (R := OrdersEx.String_as_OT.lt) _ H).
Qed.

Lemma gapReasonOutranks_trans a b c :
  gapReasonOutranks a b = true → gapReasonOutranks b c = true → gapReasonOutranks a c = true.
Proof.
  rewrite !gapReasonOutranks_spec.
  destruct (gapReasonRank a) as [ra la], (gapReasonRank b) as [rb lb], (gapReasonRank c) as [rc lc].
  intros [[? ?]|[? Hab]] [[? ?]|[? Hbc]]; simplify_eq; [by left..|].
  right. split; [done|].
  destruct Hab as [?|[-> Hab]], Hbc as [?|[-> Hbc]]; try (left; lia).
  right. split; [done|]. rewrite str_ltb_spec in *.
  exact (StrictOrder_Transitive (R := OrdersEx.String_as_OT.lt) _ _ _ Hab Hbc).
Qed.

Lemma gapReasonOutranks_total a b :
  a ≠ b → gapReasonOutranks a b = true ∨ gapReasonOutranks b a = true.
Proof.
  intros Hne. rewrite !gapReasonOutranks_spec.
  destruct (gapReasonRank a) as [ra la] eqn:Ha, (gapReasonRank b) as [rb lb] eqn:Hb.
  destruct la, lb; try tauto.
  - destruct (Nat.lt_trichotomy ra rb) as [?|[->|?]]; try tauto.
    destruct Hne. eapply rank_loop_inj; unfold gapReasonRank in *; [by rewrite Ha|congruence].
  - assert (ra = rb) as <-.
    { unfold gapReasonRank in *.
      pose proof (rank_loop_unlisted 0 GapReasonFoldOrder a). rewrite Ha in *.
      pose proof (rank_loop_unlisted 0 GapReasonFoldOrder b). rewrite Hb in *.
      simpl in *. naive_solver. }
    rewrite !str_ltb_spec.
    pose proof (OrdersEx.String_as_OT.compare_spec a b) as Hc.
    inversion Hc as [He|Hl|Hl]; [by destruct Hne| |]; unfold OrdersEx.String_as_OT.lt in Hl; eauto 6.
Qed.
End order.

(** ** What the fold chooses *)

(** [preferred P r]: [r] is the reason of [P] that no other reason of [P]
    outranks; the empty string when [P] names no reason. *)
Definition preferred (P : string → Prop) (r : string) : Prop :=
  (r = "" ∧ ∀ x, P x → x = "") ∨
  (r ≠ "" ∧ P r ∧ ∀ x, P x → x ≠ "" → x = r ∨ gapReasonOutranks r x = true).

Lemma preferred_unique P r s : preferred P r → preferred P s → r = s.
Proof.
  intros [[-> Hr]|(Hr & HPr & Hmr)] [[-> Hs]|(Hs & HPs & Hms)]; [done|naive_solver..|].
  destruct (Hmr s HPs Hs) as [->|Hrs]; [done|].
  destruct (Hms r HPr Hr) as [->|Hsr]; [done|].
  pose proof (gapReasonOutranks_trans _ _ _ Hrs Hsr) as Hrr.
  by rewrite gapReasonOutranks_irrefl in Hrr.
Qed.

Lemma preferred_ext P Q r : (∀ x, x ≠ "" → P x ↔ Q x) → preferred P r → preferred Q r.
Proof.
  intros HPQ [[-> H]|(Hr & HP & Hm)]; [left|right].
  - split; [done|]. intros x HQ. destruct (decide (x = "")) as [|Hne]; [done|].
    apply H, HPQ; done.
  - split_and!; [done|by apply HPQ|]. intros x HQ Hne. apply Hm; [by apply HPQ|done].
Qed.

Lemma fold_step_preferred acc reason : preferred (λ x, x = acc ∨ x = reason) (fold_step acc reason).
Proof.
  unfold fold_step.
  destruct (String.eqb_spec reason "") as [->|Hr].
  { destruct (decide (acc = "")) as [->|Ha]; [left; naive_solver|right; naive_solver]. }
  destruct (String.eqb_spec acc "") as [->|Ha]; simpl; [right; naive_solver|].
  destruct (gapReasonOutranks reason acc) eqn:Ho; right; [naive_solver|].
  split_and!; [done|by left|]. intros x [->| ->] _; [by left|].
  destruct (decide (reason = acc)) as [->|Hne]; [by left|right].
  destruct (gapReasonOutranks_total acc reason); [done|done|congruence].
Qed.

(** Folding in two stages prefers what folding at once prefers. *)
Lemma preferred_trans P Q r s :
  preferred P r → preferred (λ x, x = r ∨ Q x) s → preferred (λ x, P x ∨ Q x) s.
Proof.
  intros [[-> Hr]|(Hr & HPr & Hmr)] [[-> Hs]|(Hs & HPs & Hms)].
  - left. naive_solver.
  - right. split_and!; [done|naive_solver|]. intros x [Hx|Hx] Hne; [naive_solver|eauto].
  - destruct Hr. eauto.
  - right. split_and!; [done|naive_solver|]. intros x [Hx|Hx] Hne; [|eauto].
    destruct (Hms r ltac:(by left) Hr) as [<-|Hsr]; [by apply Hmr|].
    destruct (Hmr x Hx Hne) as [->|Hrx]; [by right|].
    right. by eapply gapReasonOutranks_trans.
Qed.

Lemma foldl_preferred reasons acc :
  preferred (λ x, x = acc ∨ x ∈ reasons) (foldl fold_step acc reasons).
Proof.
  revert acc. induction reasons as [|reason reasons IH]; intros acc; simpl.
  - eapply preferred_ext; [|exact (fold_step_preferred acc "")]. set_solver.
  - eapply preferred_ext; [|exact (preferred_trans _ _ _ _ (fold_step_preferred acc reason) (IH _))].
    set_solver.
Qed.

Lemma FoldGapReason_preferred reasons : preferred (λ x, x ∈ reasons) (FoldGapReason reasons).
Proof. eapply preferred_ext; [|exact (foldl_preferred reasons "")]. set_solver. Qed.

#[export] Hint Resolve FoldGapReason_preferred : go.

Lemma strongerUnknownReason_step current candidate :
  (if strongerUnknownReason current candidate then candidate else current)
  = fold_step current candidate.
Proof.
  unfold strongerUnknownReason, FoldGapReason. simpl.
  replace (fold_step "" candidate) with candidate
    by (unfold fold_step; destruct (String.eqb_spec candidate ""); naive_solver).
  destruct (String.eqb_spec candidate current) as [->|Hne]; simpl.
  { unfold fold_step. by repeat case_match. }
  pose proof (fold_step_preferred current candidate) as H1.
  pose proof (fold_step_preferred candidate current) as H2.
  assert (fold_step candidate current = fold_step current candidate) as ->.
  { eapply preferred_unique; [exact H2|]. eapply preferred_ext; [|exact H1]. naive_solver. }
  destruct (String.eqb_spec (fold_step current candidate) candidate) as [|Hnc]; [done|].
  destruct H1 as [[He Hall]|(_ & [?|?] & _)]; [|done..].
  rewrite He in *. apply Hall. by left.
Qed.

(** * Properties *)

(** [FoldGapReason] is deterministic in the set of reasons it is given: two
    lists that name the same non-empty reasons, in any order and with any
    repetition, fold to the same one - and that one is a reason of the list that
    every other reason of the list is outranked by, or the empty string when the
    list names none. *)
Lemma fold_gap_reason_set (reasons others : list string) :
  (∀ x, x ≠ "" → x ∈ reasons ↔ x ∈ others) →
  FoldGapReason reasons = FoldGapReason others ∧
  (FoldGapReason reasons = "" ↔ ∀ x, x ∈ reasons → x = "") ∧
  (FoldGapReason reasons ≠ "" →
     FoldGapReason reasons ∈ reasons ∧
     ∀ x, x ∈ reasons → x ≠ "" → x ≠ FoldGapReason reasons →
       gapReasonOutranks (FoldGapReason reasons) x = true).
Proof.
  intros Hset. split.
  - eapply preferred_unique; [apply FoldGapReason_preferred|].
    eapply preferred_ext; [|apply FoldGapReason_preferred]. naive_solver.
  - destruct (FoldGapReason_preferred reasons) as [[-> H]|(Hne & Hin & Hm)].
    + split; [naive_solver|done].
    + split; [naive_solver|]. intros _. split; [done|]. intros x Hx Hx0 Hxr.
      destruct (Hm x Hx Hx0); [done|done].
Qed.

Lemma fold_gap_reason_set_witness :
  FoldGapReason [ReasonQueryPartial; ""; ReasonQueryTimeout; ReasonQueryEmpty] =
    FoldGapReason [ReasonQueryTimeout; ReasonQueryEmpty; ReasonQueryPartial; ReasonQueryTimeout].
Proof.
  refine (proj1 (fold_gap_reason_set _ _ _)).
  intros x Hx. rewrite !elem_of_cons. split; intuition (subst; try done; eauto).
Defined.

(** The running comparison the detector folds a Level's unavailable inputs
    by ([strongerUnknownReason], one input at a time, from the empty reason) ends
    on the reason [FoldGapReason] gives the marker of the same inputs. *)
Lemma level_unknown_reason_is_fold (reasons : list string) :
  foldl (λ current candidate,
    if strongerUnknownReason current candidate then candidate else current) "" reasons
  = FoldGapReason reasons.
Proof.
  unfold FoldGapReason. generalize "". induction reasons as [|r reasons IH]; intros acc; simpl; [done|].
  by rewrite strongerUnknownReason_step, IH.
Qed.

(** The published set, computed: the query-result reasons, the warming reason and
    the two query-free ones, sorted by code. *)
Lemma GapScopeReasons_eq : GapScopeReasons = [
  ReasonConfigDrift; ReasonDetectIntervalStorageNotSliding; ReasonExecutionBudgetExhausted;
  ReasonGapSkipped; ReasonHistoryWarming; ReasonPlanReactivated; ReasonQueryEmpty; ReasonQueryPartial;
  ReasonQueryTargetMissing; ReasonQueryTimeout; ReasonQueryUnavailable; ReasonReadinessBudgetInvalid;
  ReasonSnapshotUnavailable].
Proof. vm_compute. reflexivity. Qed.

Lemma existsb_eqb_sym (code : string) codes :
  existsb (λ reason, String.eqb reason code) codes = existsb (String.eqb code) codes.
Proof. induction codes as [|c codes IH]; simpl; [done|]. by rewrite String.eqb_sym, IH. Qed.

Lemma NormalizeGapScopeReason_eq code :
  NormalizeGapScopeReason code =
  if existsb (String.eqb code) [
    ReasonConfigDrift; ReasonDetectIntervalStorageNotSliding; ReasonExecutionBudgetExhausted;
    ReasonGapSkipped; ReasonHistoryWarming; ReasonPlanReactivated; ReasonQueryEmpty; ReasonQueryPartial;
    ReasonQueryTargetMissing; ReasonQueryTimeout; ReasonQueryUnavailable; ReasonReadinessBudgetInvalid;
    ReasonSnapshotUnavailable]
  then code else GapScopeReasonOther.
Proof. unfold NormalizeGapScopeReason. by rewrite existsb_eqb_sym, GapScopeReasons_eq. Qed.

(** The statement of the coverage property, as a test of one catalogued code. *)
Definition fold_order_check (code : string) (_ : ReasonDefinitionV2) : bool :=
  Bool.eqb (ReasonAllowedForV2 code ReasonDomainQueryResult) (gapReasonRank code).2
  && implb (ReasonAllowedForV2 code ReasonDomainQueryResult) (LevelUnavailableReasonV2 code)
  && String.eqb
       (if existsb (String.eqb code) [
         ReasonConfigDrift; ReasonDetectIntervalStorageNotSliding; ReasonExecutionBudgetExhausted;
         ReasonGapSkipped; ReasonHistoryWarming; ReasonPlanReactivated; ReasonQueryEmpty; ReasonQueryPartial;
         ReasonQueryTargetMissing; ReasonQueryTimeout; ReasonQueryUnavailable; ReasonReadinessBudgetInvalid;
         ReasonSnapshotUnavailable]
        then code else GapScopeReasonOther)
       (if ReasonAllowedForV2 code ReasonDomainQueryResult
           || existsb (String.eqb code) [ReasonHistoryWarming; ReasonSnapshotUnavailable; ReasonGapSkipped]
        then code else GapScopeReasonOther).

Lemma fold_order_checked :
  forallb (λ e, fold_order_check e.1 e.2) (map_to_list reasonCatalogV2) = true.
Proof. vm_compute. reflexivity. Qed.

Lemma rank_loop_listed n order reason : (rank_loop n order reason).2 = existsb (String.eqb reason) order.
Proof.
  revert n. induction order as [|x order IH]; intros n; simpl; [done|].
  rewrite (String.eqb_sym x reason). by destruct (String.eqb reason x).
Qed.

(** A code in a list of catalogued codes is catalogued. *)
Lemma existsb_catalogued (codes : list string) code :
  forallb (λ c, IsKnownReasonV2 c) codes = true →
  reasonCatalogV2 !! code = None → existsb (String.eqb code) codes = false.
Proof.
  intros Hall Hnone. apply not_true_is_false.
  rewrite existsb_exists. intros (c & Hin & Heq%String.eqb_eq). subst c.
  rewrite forallb_forall in Hall. specialize (Hall _ Hin).
  unfold IsKnownReasonV2, LookupReasonV2 in Hall. rewrite Hnone in Hall. discriminate Hall.
Qed.

(** The fold order ranks every reason the catalogue lets a query result
    carry, and nothing else; and each of them is a reason a Level may be
    unavailable for, so a Detect fact that carries a folded query reason is one
    the trigger accepts. *)
Lemma fold_order_covers_query_results (code : string) :
  (ReasonAllowedForV2 code ReasonDomainQueryResult = true ↔ (gapReasonRank code).2 = true) ∧
  (ReasonAllowedForV2 code ReasonDomainQueryResult = true → LevelUnavailableReasonV2 code = true) ∧
  NormalizeGapScopeReason code =
    (if ReasonAllowedForV2 code ReasonDomainQueryResult
        || existsb (String.eqb code) [ReasonHistoryWarming; ReasonSnapshotUnavailable; ReasonGapSkipped]
     then code else GapScopeReasonOther).
Proof.
  rewrite NormalizeGapScopeReason_eq.
  destruct (reasonCatalogV2 !! code) as [definition|] eqn:Hcode.
  - pose proof (reasonCatalogV2_forall fold_order_check fold_order_checked _ _ Hcode) as Hc.
    unfold fold_order_check in Hc. rewrite !andb_true_iff, eqb_true_iff, String.eqb_eq in Hc.
    destruct Hc as [[-> Hi] ->]. split_and!; [done| |done].
    destruct (gapReasonRank code).2, (LevelUnavailableReasonV2 code); done.
  - unfold gapReasonRank, LevelUnavailableReasonV2, ReasonAllowedForV2, LookupReasonV2.
    rewrite rank_loop_listed, Hcode.
    rewrite !existsb_catalogued by first [exact Hcode|vm_compute; reflexivity].
    split_and!; [tauto|discriminate|reflexivity].
Qed.

(** A catalogued code and one that is not. *)
Example fold_order_examples :
  NormalizeGapScopeReason ReasonQueryTimeout = ReasonQueryTimeout ∧
  NormalizeGapScopeReason ReasonSchedulePruned = GapScopeReasonOther.
Proof. vm_compute. done. Qed.

