(* ===== verification/Decimal.v ===== *)
(** Detected values as fixed-point numbers (strategy/normalizer.go and the number
    types of strategy/types.go): the text of a JSON number read as an exact
    rational, scaled by its unit, rounded to six decimals half to even, and kept in
    127 bits; the units a value and a threshold are given in. *)
From Stdlib Require Import Ascii QArith.
From S2P Require Import Prelude Reason.

Open Scope Z_scope.

(** ** Numbers (strategy/types.go) *)

Record NormalizedNumber : Type := mkNumber {
  negative : bool;
  high : Z;
  low : Z;
}.

#[export] Instance NormalizedNumber_eq_dec : EqDecision NormalizedNumber.
Proof. solve_decision. Defined.

(** [big.Int.String] of a natural number: its decimal digits, the least one last;
    a number has at most as many as its bits. *)
Definition digit_char (d : Z) : ascii := ascii_of_nat (48 + Z.to_nat d).

Fixpoint digits_loop (fuel : nat) (z : Z) (text : string) : string :=
  match fuel with
  | O => text
  | S fuel =>
      let text := String (digit_char (z mod 10)) text in
      if z / 10 =? 0 then text else digits_loop fuel (z / 10) text
  end.

Definition print_digits (z : Z) : string := digits_loop (S (Z.to_nat (Z.log2 z))) z "".

Fixpoint zeros (n : nat) : string := match n with O => ""%string | S n => String "0" (zeros n) end.

Definition magnitude (n : NormalizedNumber) : Z := high n * 2 ^ 64 + low n.

Definition CanonicalDecimal (n : NormalizedNumber) : string :=
  let digits := print_digits (magnitude n) in
  let digits := if (String.length digits <=? 6)%nat then zeros (7 - String.length digits) +:+ digits else digits in
  let cut := (String.length digits - 6)%nat in
  let result := String.substring 0 cut digits +:+ "." +:+ String.substring cut 6 digits in
  if negative n && (negb (high n =? 0) || negb (low n =? 0)) then "-" +:+ result else result.

Definition compare (n other : NormalizedNumber) : Z :=
  if negb (Bool.eqb (negative n) (negative other)) then (if negative n then -1 else 1)
  else
    let comparison :=
      if (high n <? high other) || ((high n =? high other) && (low n <? low other)) then -1
      else if (high other <? high n) || ((high n =? high other) && (low other <? low n)) then 1
      else 0 in
    if negative n then - comparison else comparison.

(** [magnitude.BitLen() > 127] refuses what does not fit. *)
Definition normalizedNumberFromBigInt (value : Z) : option NormalizedNumber :=
  let magnitude := Z.abs value in
  if 2 ^ 127 <=? magnitude then None
  else Some (mkNumber (value <? 0) (magnitude / 2 ^ 64) (magnitude mod 2 ^ 64)).

(** ** The text of a number *)

Definition is_digit (c : ascii) : bool := (48 <=? nat_of_ascii c)%nat && (nat_of_ascii c <=? 57)%nat.
Definition digit_value (c : ascii) : Z := Z.of_nat (nat_of_ascii c) - 48.

Fixpoint span_digits (text : string) : string * string :=
  match text with
  | String c rest => if is_digit c then let '(digits, rest) := span_digits rest in (String c digits, rest) else ("", text)
  | EmptyString => ("", "")
  end%string.

(** The four submatches of [decimalPattern]. *)
Record matches : Type := mkMatches {
  m_sign : string;
  m_integer : string;
  m_fraction : string;
  m_exponent : string;
}.

Definition match_sign (text : string) : string * string :=
  match text with
  | String c rest => if (c =? "-")%char then ("-", rest) else ("", text)
  | EmptyString => ("", "")
  end%string.

(** [0|[1-9][0-9]*] *)
Definition match_integer (text : string) : option (string * string) :=
  match text with
  | String c rest =>
      if (c =? "0")%char then Some ("0"%string, rest)
      else if is_digit c then Some (span_digits text)
      else None
  | EmptyString => None
  end.

(** [(?:\.([0-9]+))?] *)
Definition match_fraction (text : string) : option (string * string) :=
  match text with
  | String c rest =>
      if (c =? ".")%char then
        match span_digits rest with
        | (EmptyString, _) => None
        | found => Some found
        end
      else Some (""%string, text)
  | EmptyString => Some (""%string, ""%string)
  end.

(** [(?:[eE]([+-]?[0-9]+))?] *)
Definition match_exponent (text : string) : option (string * string) :=
  match text with
  | String c rest =>
      if (c =? "e")%char || (c =? "E")%char then
        let '(sign, rest) :=
          match rest with
          | String c rest' => if (c =? "+")%char || (c =? "-")%char then (String c "", rest') else (""%string, rest)
          | EmptyString => (""%string, ""%string)
          end in
        match span_digits rest with
        | (EmptyString, _) => None
        | (digits, rest) => Some (sign +:+ digits, rest)
        end
      else Some (""%string, text)
  | EmptyString => Some (""%string, ""%string)
  end.

(** [decimalPattern.FindStringSubmatch]: the pattern is anchored at both ends and
    no part of it can match in two ways. *)
Definition decimalPattern (text : string) : option matches :=
  let '(sign, text) := match_sign text in
  '(integer, text) ← match_integer text;
  '(fraction, text) ← match_fraction text;
  '(exponent, text) ← match_exponent text;
  match text with
  | EmptyString => Some (mkMatches sign integer fraction exponent)
  | String _ _ => None
  end.

(** [big.Int.SetString(digits, 10)] of digits. *)
Fixpoint digits_value (acc : Z) (digits : string) : Z :=
  match digits with
  | EmptyString => acc
  | String c digits => digits_value (10 * acc + digit_value c) digits
  end.

(** [strconv.Atoi] of a submatch: an optional sign and digits; what leaves an [int]
    is an error. *)
Definition Atoi (text : string) : option Z :=
  let '(sign, digits) :=
    match text with
    | String c rest => if (c =? "-")%char then (-1, rest) else if (c =? "+")%char then (1, rest) else (1, text)
    | EmptyString => (1, text)
    end in
  let value := sign * digits_value 0 digits in
  if (value <? minInt64) || (maxInt64 <? value) then None else Some value.

(** [big.Rat.SetFrac], which keeps a fraction in lowest terms. *)
Definition set_frac (numerator denominator : Z) : Q := Qred (numerator # Z.to_pos denominator).

Definition parseDecimalRationalMatch (value : string) (m : matches) (allowExponent : bool) : option Q :=
  if (String.length value =? 0)%nat || (128 <? String.length value)%nat
     || (negb allowExponent && negb (m_exponent m =? "")%string) then None
  else
    exponent ←
      (if negb (m_exponent m =? "")%string then
         parsed ← Atoi (m_exponent m);
         if (parsed <? -128) || (128 <? parsed) then None else Some parsed
       else Some 0);
    let numerator := digits_value 0 (m_integer m +:+ m_fraction m) in
    let numerator := if (m_sign m =? "-")%string then - numerator else numerator in
    let scale := Z.of_nat (String.length (m_fraction m)) - exponent in
    Some (set_frac (if scale <? 0 then numerator * 10 ^ (- scale) else numerator)
                   (if 0 <? scale then 10 ^ scale else 1)).

Definition parseDecimalRational (value : string) (allowExponent : bool) : option Q :=
  if (String.length value =? 0)%nat || (128 <? String.length value)%nat then None
  else m ← decimalPattern value; parseDecimalRationalMatch value m allowExponent.

(** ** Normalization *)

Definition normalizedDecimalScale : Z := 1000000.

(** The quotient truncated by [QuoRem], moved away from zero past the half. *)
Definition round_quotient (numerator denominator : Z) : Z :=
  let quotient := Z.quot numerator denominator in
  let remainder := Z.rem numerator denominator in
  let twiceRemainder := 2 * Z.abs remainder in
  if (denominator <? twiceRemainder) || ((twiceRemainder =? denominator) && Z.testbit quotient 0) then
    (if numerator <? 0 then quotient - 1 else quotient + 1)
  else quotient.

Definition normalizeRational (value : Q) (multiplier : Z) : option NormalizedNumber :=
  if multiplier <=? 0 then None
  else
    let scaled := Qred (Qred (value * inject_Z multiplier) * inject_Z normalizedDecimalScale) in
    normalizedNumberFromBigInt (round_quotient (Qnum scaled) (Zpos (Qden scaled))).

(** The white space [bytes.TrimSpace] removes, each code point in its encoding. *)
Definition code (bytes : list nat) : string := foldr (λ b s, String (ascii_of_nat b) s) ""%string bytes.

Definition white_space : list string := Eval vm_compute in
  code <$> ([[9]; [10]; [11]; [12]; [13]; [32]; [194; 133]; [194; 160]; [225; 154; 128]]
    ++ ((λ b, [226; 128; b]) <$> seq 128 11)
    ++ [[226; 128; 168]; [226; 128; 169]; [226; 128; 175]; [226; 129; 159]; [227; 128; 128]])%nat.

Definition cut_prefix_of (prefix text : string) : option string :=
  if String.prefix prefix text then Some (String.substring (String.length prefix) (String.length text) text) else None.

Definition cut_suffix_of (suffix text : string) : option string :=
  let n := (String.length text - String.length suffix)%nat in
  if (String.length suffix <=? String.length text)%nat && (String.substring n (String.length suffix) text =? suffix)%string
  then Some (String.substring 0 n text) else None.

Definition first_cut (cut : string → string → option string) (text : string) : option string :=
  head (omap (λ space, cut space text) white_space).

Fixpoint trim (cut : string → string → option string) (fuel : nat) (text : string) : string :=
  match fuel with
  | O => text
  | S fuel => match first_cut cut text with Some rest => trim cut fuel rest | None => text end
  end.

Definition TrimSpace (text : string) : string :=
  let text := trim cut_prefix_of (String.length text) text in
  trim cut_suffix_of (String.length text) text.

Inductive NormalizeResult : Type :=
  | Available (value : NormalizedNumber)
  | Unavailable (reasonCode : string).

Record NumericNormalizerSpec : Type := mkNormalizer {
  ref : string;
  sourceUnit : string;
  targetUnit : string;
  sourceMultiplier : Z;
  decimalPlaces : Z;
  rounding : string;
}.

(** [raw] is the JSON of the value, empty when the record has none. *)
Definition Normalize (s : NumericNormalizerSpec) (raw : string) : NormalizeResult :=
  let trimmed := TrimSpace raw in
  match trimmed with
  | EmptyString => Unavailable ReasonRequiredValueMissing
  | String c _ =>
      if (trimmed =? "null")%string then Unavailable ReasonRequiredValueMissing
      else if bool_decide (c ∈ [ascii_of_nat 34; "{"%char; "["%char]) || (trimmed =? "true")%string || (trimmed =? "false")%string
      then Unavailable ReasonRequiredValueTypeMismatch
      else
        match decimalPattern trimmed with
        | None => Unavailable ReasonRequiredValueTypeMismatch
        | Some m =>
            match parseDecimalRationalMatch trimmed m true with
            | None => Unavailable ReasonRequiredValueNormalizationFailed
            | Some rational =>
                match normalizeRational rational (sourceMultiplier s) with
                | None => Unavailable ReasonRequiredValueNormalizationFailed
                | Some value => Available value
                end
            end
        end
  end.

(** ** Units *)

Record unitSpec : Type := mkUnit {
  unitID : string;
  unit_targetUnit : string;
  identity : bool;
  suffixes : list string;
  defaultIndex : nat;
  factorsToBase : list Z;
}.

Fixpoint powers_from (factor value : Z) (count : nat) : list Z :=
  match count with O => [] | S count => value :: powers_from factor (value * factor) count end.
Definition powers (factor : Z) (count : nat) : list Z := powers_from factor 1 count.

Definition identityIDs : list string := [""; "none"; "short"; "celsius"; "fahrenheit"; "kelvin"]%string.
Definition binaryIDs : list (string * nat) :=
  [("bits", 0); ("bytes", 0); ("kbytes", 1); ("mbytes", 2); ("gbytes", 3); ("tbytes", 4); ("pbytes", 5)]%nat%string.
Definition decimalIDs : list (string * nat) :=
  [("decbits", 0); ("decbytes", 0); ("pps", 0); ("bps", 0); ("Bps", 0); ("hertz", 0);
   ("deckbytes", 1); ("KBs", 1); ("Kbits", 1);
   ("decmbytes", 2); ("MBs", 2); ("Mbits", 2);
   ("decgbytes", 3); ("GBs", 3); ("Gbits", 3);
   ("dectbytes", 4); ("TBs", 4); ("Tbits", 4);
   ("decpbytes", 5); ("PBs", 5); ("Pbits", 5)]%nat%string.
(** "µs" in UTF-8. *)
Definition micro : string := Eval vm_compute in code [194; 181; 115]%nat.
Definition timeIDs : list (string * nat) :=
  [("ns", 0); (micro, 1); ("ms", 2); ("s", 3); ("m", 4); ("h", 5); ("d", 6)]%nat%string.
Definition countIDs : list string := ["cps"; "ops"; "reqps"; "rps"; "wps"; "iops"; "cpm"; "opm"; "rpm"; "wpm"]%string.

Definition index_in (table : list (string * nat)) (unitID : string) : option nat :=
  snd <$> head (filter (λ entry, entry.1 = unitID) table).

Definition unitSpecFor (unitID : string) : option unitSpec :=
  if bool_decide (unitID ∈ identityIDs) then Some (mkUnit unitID unitID true [""%string] 0 [1])
  else if bool_decide (unitID ∈ ["percent"; "percentunit"]%string) then
    Some (mkUnit unitID "%" false ["%"; "x100%"]%string (if (unitID =? "percentunit")%string then 1 else 0) [1; 100])
  else
    match index_in binaryIDs unitID with
    | Some index => Some (mkUnit unitID "base" false [""; "Ki"; "Mi"; "Gi"; "Ti"; "Pi"; "Ei"]%string index (powers 1024 7))
    | None =>
    match index_in decimalIDs unitID with
    | Some index => Some (mkUnit unitID "base" false [""; "k"; "M"; "G"; "T"; "P"; "E"]%string index (powers 1000 7))
    | None =>
    match index_in timeIDs unitID with
    | Some index =>
        Some (mkUnit unitID "ns" false ["ns"; micro; "ms"; "s"; "m"; "h"; "d"]%string index
                [1; 1000; 1000000; 1000000000; 60000000000; 3600000000000; 86400000000000])
    | None =>
        if bool_decide (unitID ∈ countIDs) then Some (mkUnit unitID "base" false [""; "K"; "M"; "B"; "T"]%string 0 (powers 1000 5))
        else None
    end end end.

(** [strings.Split(dataUnit, "||")], of which only a pair is read. *)
Fixpoint split_bars (current text : string) : list string :=
  match text with
  | String "|" (String "|" rest) => current :: split_bars "" rest
  | String c rest => split_bars (current +:+ String c "") rest
  | EmptyString => [current]
  end.

Section units.
(** The canonical digest of a normalizer. *)
Variable normalizer_digest : NumericNormalizerSpec → option string.

Definition compileUnitNormalizer (dataUnit thresholdPrefix : string) : option (NumericNormalizerSpec * Z) :=
  let unitID := match split_bars "" dataUnit with [_; unit] => unit | _ => dataUnit end in
  spec ← unitSpecFor unitID;
  thresholdMultiplier ←
    (if negb (thresholdPrefix =? "")%string && negb (identity spec) then
       index ← fst <$> list_find (λ suffix, suffix = thresholdPrefix) (suffixes spec);
       factorsToBase spec !! index
     else Some 1);
  multiplier ← factorsToBase spec !! defaultIndex spec;
  let normalizer := mkNormalizer "" dataUnit (unit_targetUnit spec) multiplier 6 "HALF_EVEN" in
  digest ← normalizer_digest normalizer;
  Some (mkNormalizer digest dataUnit (unit_targetUnit spec) multiplier 6 "HALF_EVEN", thresholdMultiplier).
End units.
