(* ===== verification/DecimalSpec.v ===== *)
(** What the normalization of a detected value is: a number's text is exactly what
    the pattern takes, its normalized value is the nearest multiple of a millionth
    of its unit (half to even) when that fits, numbers compare as their values, and
    a canonical decimal reads back as the number it was printed from. *)
From Stdlib Require Import Ascii QArith Qpower Qabs.
From S2P Require Import Prelude Reason Decimal.

Open Scope Z_scope.

(** ** The pattern as a grammar *)

Definition digits_only (text : string) : bool := forallb is_digit (String.list_ascii_of_string text).

Definition nonempty (text : string) : Prop := text ≠ ""%string.

(** No leading zero but the digit zero's own. *)
Definition integer_text (text : string) : Prop :=
  text = "0"%string ∨ ∃ c rest, text = String c rest ∧ is_digit c = true ∧ c ≠ "0"%char ∧ digits_only rest = true.

Definition fraction_text (text fraction : string) : Prop :=
  (text = "" ∧ fraction = "")%string ∨ (text = "." +:+ fraction ∧ nonempty fraction ∧ digits_only fraction = true).

Definition exponent_text (text exponent : string) : Prop :=
  (text = "" ∧ exponent = "")%string ∨
  ∃ e sign digits, text = String e (sign +:+ digits) ∧ exponent = sign +:+ digits ∧ e ∈ ["e"%char; "E"%char] ∧
                   sign ∈ [""; "+"; "-"]%string ∧ nonempty digits ∧ digits_only digits = true.

Inductive decimal_text : string → matches → Prop :=
  | decimal_text_intro sign integer fraction exponent f e :
      sign ∈ [""; "-"]%string → integer_text integer → fraction_text f fraction → exponent_text e exponent →
      decimal_text (sign +:+ integer +:+ f +:+ e) (mkMatches sign integer fraction exponent).

(** What follows a part of the pattern cannot be taken for more of it. *)
Definition stops (text : string) : Prop :=
  match text with EmptyString => True | String c _ => is_digit c = false end.

Lemma digits_only_cons c text : digits_only (String c text) = is_digit c && digits_only text.
Proof. done. Qed.

Lemma digits_only_app a b : digits_only (a +:+ b) = digits_only a && digits_only b.
Proof. induction a as [|c a IH]; [done|]. rewrite <- cons_app_str, !digits_only_cons, IH. by rewrite andb_assoc. Qed.

Lemma span_digits_spec text digits rest :
  span_digits text = (digits, rest) ↔ text = digits +:+ rest ∧ digits_only digits = true ∧ stops rest.
Proof.
  revert digits rest. induction text as [|c text IH]; intros digits rest; cbn [span_digits].
  - split; [by intros [= <- <-]|]. intros (H & _ & _). by destruct digits, rest.
  - destruct (is_digit c) eqn:Hc.
    + destruct (span_digits text) as [ds r]. destruct (proj1 (IH ds r) eq_refl) as (-> & Hds & Hr). split.
      * intros [= <- <-]. by rewrite digits_only_cons, Hc, <- cons_app_str.
      * intros (H & Hd & Hstop). destruct digits as [|c' digits].
        { change (String c (ds +:+ r) = rest) in H. subst rest. simpl in Hstop. congruence. }
        rewrite <- cons_app_str in H. injection H as <- H. rewrite digits_only_cons in Hd. breflect.
        by pose proof (proj2 (IH digits rest) (conj H (conj H1 Hstop))) as [= -> ->].
    + split; [by intros [= <- <-]|]. intros (H & Hd & Hstop). destruct digits as [|c' digits].
      * change (String c text = rest) in H. by subst rest.
      * rewrite <- cons_app_str in H. injection H as <- H. rewrite digits_only_cons in Hd. breflect. congruence.
Qed.

(** Text that a number's next part can start with, or that can end it. *)
Definition follows (text : string) : Prop :=
  match text with EmptyString => True | String c _ => c ∈ ["."%char; "e"%char; "E"%char] end.

Lemma follows_stops text : follows text → stops text.
Proof. destruct text as [|c text]; simpl; [done|]. intros H. by repeat (apply elem_of_cons in H as [->|H]); [..|inversion H]. Qed.

Lemma exponent_follows text exponent : exponent_text text exponent → follows text ∧ ∀ c rest, text = String c rest → c ≠ "."%char.
Proof.
  intros [[-> _]|(e & sign & digits & -> & _ & He & _)]; [done|]. split.
  - by constructor 2.
  - intros c rest [= <- _] ->. by repeat (apply elem_of_cons in He as [He|He]); [..|inversion He].
Qed.

Lemma fraction_follows f fraction e exponent :
  fraction_text f fraction → exponent_text e exponent → follows (f +:+ e).
Proof. intros [[-> _]|[-> _]] He; [by apply (exponent_follows _ _ He)|]. constructor. Qed.

Lemma match_integer_sound text integer rest :
  match_integer text = Some (integer, rest) → text = integer +:+ rest ∧ integer_text integer.
Proof.
  destruct text as [|c text]; [done|]. cbn [match_integer]. destruct (Ascii.eqb_spec c "0") as [->|Hc].
  { intros [= <- <-]. split; [done|by left]. }
  cbn [span_digits]. destruct (is_digit c) eqn:Hd; [|done]. destruct (span_digits text) as [ds r] eqn:Hs.
  intros [= <- <-]. apply span_digits_spec in Hs as (-> & Hds & _). split; [done|]. right. by exists c, ds.
Qed.

Lemma match_integer_complete integer rest :
  integer_text integer → stops rest → match_integer (integer +:+ rest) = Some (integer, rest).
Proof.
  intros [->|(c & ds & -> & Hc & Hne & Hds)] Hstop; [done|].
  rewrite <- cons_app_str. cbn [match_integer span_digits]. destruct (Ascii.eqb_spec c "0"); [done|]. rewrite Hc.
  by rewrite (proj2 (span_digits_spec (ds +:+ rest) ds rest)).
Qed.

Lemma match_fraction_sound text fraction rest :
  match_fraction text = Some (fraction, rest) → ∃ f, text = f +:+ rest ∧ fraction_text f fraction.
Proof.
  destruct text as [|c text]; cbn [match_fraction].
  { intros [= <- <-]. exists ""%string. split; [done|by left]. }
  destruct (Ascii.eqb_spec c ".") as [->|Hc].
  - destruct (span_digits text) as [ds r] eqn:Hs. destruct ds as [|d ds]; [done|]. intros [= <- <-].
    apply span_digits_spec in Hs as (-> & Hds & _). exists ("." +:+ String d ds)%string. split; [done|]. by right.
  - intros [= <- <-]. exists ""%string. split; [done|by left].
Qed.

Lemma match_fraction_complete f fraction rest :
  fraction_text f fraction → stops rest → (∀ c text, rest = String c text → c ≠ "."%char) →
  match_fraction (f +:+ rest) = Some (fraction, rest).
Proof.
  intros [[-> ->]|(-> & Hne & Hds)] Hstop Hdot.
  - change ("" +:+ rest)%string with rest. destruct rest as [|c rest]; [done|]. cbn [match_fraction].
    destruct (Ascii.eqb_spec c ".") as [->|]; [|done]. by destruct (Hdot "."%char rest).
  - rewrite app_assoc_str. change ("." +:+ (fraction +:+ rest))%string with (String "." (fraction +:+ rest)).
    cbn [match_fraction]. rewrite Ascii.eqb_refl, (proj2 (span_digits_spec (fraction +:+ rest) fraction rest)) by done.
    by destruct fraction.
Qed.

Lemma match_exponent_sound text exponent rest :
  match_exponent text = Some (exponent, rest) → ∃ e, text = e +:+ rest ∧ exponent_text e exponent.
Proof.
  destruct text as [|c text]; cbn [match_exponent].
  { intros [= <- <-]. exists ""%string. split; [done|by left]. }
  destruct ((c =? "e")%char || (c =? "E")%char) eqn:Hc.
  2: { intros [= <- <-]. exists ""%string. split; [done|by left]. }
  assert (c ∈ ["e"%char; "E"%char]) as He by (apply orb_true_iff in Hc as [->%Ascii.eqb_eq| ->%Ascii.eqb_eq]; set_solver).
  destruct (match text with String c0 rest' => _ | "" => _ end)%string as [sign r] eqn:Hsign.
  assert (text = sign +:+ r ∧ sign ∈ [""; "+"; "-"]%string) as [-> Hin].
  { destruct text as [|c0 text]; [injection Hsign as <- <-; split; [done|set_solver]|].
    destruct (Ascii.eqb_spec c0 "+") as [->|]; [injection Hsign as <- <-; split; [done|set_solver]|].
    destruct (Ascii.eqb_spec c0 "-") as [->|]; injection Hsign as <- <-; split; (done || set_solver). }
  destruct (span_digits r) as [ds r'] eqn:Hs. destruct ds as [|d ds]; [done|]. intros [= <- <-].
  apply span_digits_spec in Hs as (-> & Hds & _). exists (String c (sign +:+ String d ds)). split.
  - change (String c (sign +:+ (String d ds +:+ r')) = String c ((sign +:+ String d ds) +:+ r')). by rewrite app_assoc_str.
  - right. by exists c, sign, (String d ds).
Qed.

Lemma match_exponent_complete e exponent : exponent_text e exponent → match_exponent e = Some (exponent, ""%string).
Proof.
  intros [[-> ->]|(c & sign & ds & -> & -> & Hc & Hsign & Hne & Hds)]; [done|]. cbn [match_exponent].
  replace ((c =? "e")%char || (c =? "E")%char) with true
    by (by repeat (apply elem_of_cons in Hc as [->|Hc]); [..|inversion Hc]).
  assert (span_digits ds = (ds, ""%string)) as Hspan by (apply span_digits_spec; by rewrite app_nil_str).
  assert (∀ c0 r, ds = String c0 r → c0 ≠ "+"%char ∧ c0 ≠ "-"%char) as Hfirst.
  { intros c0 r ->. rewrite digits_only_cons in Hds. breflect. by split; intros ->. }
  destruct ds as [|d ds]; [done|]. destruct (Hfirst d ds eq_refl) as [Hp Hm].
  repeat (apply elem_of_cons in Hsign as [->|Hsign]); [| | |inversion Hsign].
  - change ("" +:+ String d ds)%string with (String d ds).
    cbn iota. rewrite (proj2 (Ascii.eqb_neq d "+") Hp), (proj2 (Ascii.eqb_neq d "-") Hm). cbn [orb]. by rewrite Hspan.
  - change ("+" +:+ String d ds)%string with (String "+" (String d ds)). cbn [orb Ascii.eqb Bool.eqb]. by rewrite Hspan.
  - change ("-" +:+ String d ds)%string with (String "-" (String d ds)). cbn [orb Ascii.eqb Bool.eqb]. by rewrite Hspan.
Qed.

Lemma match_sign_complete sign rest :
  sign ∈ [""; "-"]%string → (∀ c text, rest = String c text → c ≠ "-"%char) → match_sign (sign +:+ rest) = (sign, rest).
Proof.
  intros Hsign Hrest. repeat (apply elem_of_cons in Hsign as [->|Hsign]); [| |inversion Hsign]; [|done].
  change ("" +:+ rest)%string with rest. destruct rest as [|c rest]; [done|]. cbn [match_sign].
  destruct (Ascii.eqb_spec c "-") as [->|]; [|done]. by destruct (Hrest "-"%char rest).
Qed.

Lemma match_sign_sound text sign rest : match_sign text = (sign, rest) → text = sign +:+ rest ∧ sign ∈ [""; "-"]%string.
Proof.
  destruct text as [|c text]; cbn [match_sign]; [intros [= <- <-]; split; [done|set_solver]|].
  destruct (Ascii.eqb_spec c "-") as [->|]; intros [= <- <-]; split; (done || set_solver).
Qed.

(** The pattern takes exactly the texts of the grammar. *)
Lemma decimalPattern_spec text m : decimalPattern text = Some m ↔ decimal_text text m.
Proof.
  split.
  - unfold decimalPattern. destruct (match_sign text) as [sign t1] eqn:Hs. apply match_sign_sound in Hs as [-> Hsign].
    intros ([integer t2] & Hi & H)%bind_Some. apply match_integer_sound in Hi as [-> Hint].
    apply bind_Some in H as ([fraction t3] & Hf & H). apply match_fraction_sound in Hf as (f & -> & Hfrac).
    apply bind_Some in H as ([exponent t4] & He & H). apply match_exponent_sound in He as (e & -> & Hexp).
    destruct t4; [|done]. injection H as <-. rewrite app_nil_str. by constructor.
  - intros [sign integer fraction exponent f e Hsign Hint Hfrac Hexp]. unfold decimalPattern.
    pose proof (fraction_follows _ _ _ _ Hfrac Hexp) as Hfol. destruct (exponent_follows _ _ Hexp) as [Hfe Hdot].
    rewrite match_sign_complete; [|done|].
    2: { intros c0 text0 Hc ->. destruct Hint as [->|(c & ds & -> & Hc' & _)]; [by injection Hc|].
         rewrite <- cons_app_str in Hc. by injection Hc as ->. }
    rewrite match_integer_complete by (by auto using follows_stops). cbn [mbind option_bind].
    rewrite (match_fraction_complete f fraction e) by (by auto using follows_stops). cbn [mbind option_bind].
    by rewrite (match_exponent_complete e exponent).
Qed.

(** ** Rounding *)

(** [q] is the integer nearest to [x], the even one when two are. *)
Definition nearest_even (x : Q) (q : Z) : Prop :=
  2 * Z.abs (Qnum x - q * Zpos (Qden x)) ≤ Zpos (Qden x) ∧
  (2 * Z.abs (Qnum x - q * Zpos (Qden x)) = Zpos (Qden x) → Z.even q = true).

#[export] Instance nearest_even_proper : Proper (Qeq ==> eq ==> iff) nearest_even.
Proof.
  assert (∀ x y q, Qeq x y → nearest_even x q → nearest_even y q) as H.
  { intros [a b] [c d] q Heq [Hle Heven]. unfold Qeq, nearest_even in *. simpl in *.
    assert (Z.abs (a - q * Z.pos b) * Z.pos d = Z.abs (c - q * Z.pos d) * Z.pos b) as He.
    { rewrite <- (Z.abs_eq (Z.pos d)) at 1 by lia. rewrite <- (Z.abs_eq (Z.pos b)) at 2 by lia.
      rewrite <- !Z.abs_mul. f_equal. lia. }
    split; [nia|]. intros E. apply Heven. nia. }
  intros x y Hxy q r <-. split; apply H; [done|by symmetry].
Qed.

Lemma nearest_even_mono x y q r : (x <= y)%Q → nearest_even x q → nearest_even y r → q ≤ r.
Proof.
  unfold nearest_even, Qle. destruct x as [a b], y as [c d]. simpl. intros Hle [Hq Heq] [Hr Her].
  destruct (decide (q ≤ r)) as [|Hlt]; [done|exfalso].
  set (x := a - q * Z.pos b) in *. set (y := c - r * Z.pos d) in *.
  assert (x * Z.pos d + (q - r) * (Z.pos b * Z.pos d) ≤ y * Z.pos b) as Hxy by (unfold x, y; lia).
  assert (- (Z.pos b * Z.pos d) ≤ 2 * (x * Z.pos d)) as Hx by nia.
  assert (2 * (y * Z.pos b) ≤ Z.pos b * Z.pos d) as Hy by nia.
  assert (q = r + 1) as -> by nia. replace (r + 1 - r) with 1 in Hxy by lia.
  assert (2 * x = - Z.pos b) by nia. assert (2 * y = Z.pos d) by nia.
  assert (2 * Z.abs x = Z.pos b) as E1 by lia. assert (2 * Z.abs y = Z.pos d) as E2 by lia.
  specialize (Heq E1). specialize (Her E2). rewrite Z.even_add, Her in Heq. done.
Qed.

Lemma nearest_even_unique x q r : nearest_even x q → nearest_even x r → q = r.
Proof.
  intros Hq Hr. apply Z.le_antisymm; eapply (nearest_even_mono x x); try done; apply Qle_refl.
Qed.

Lemma nearest_even_integer z : nearest_even (inject_Z z) z.
Proof. unfold nearest_even. simpl. split; lia. Qed.

Lemma round_quotient_spec n d : nearest_even (n # d) (round_quotient n (Zpos d)).
Proof.
  unfold nearest_even, round_quotient. cbn [Qnum Qden].
  pose proof (Z.quot_rem' n (Z.pos d)) as Hn. pose proof (Z.rem_bound_abs n (Z.pos d) ltac:(lia)) as Hb.
  pose proof (Z.rem_nonneg n (Z.pos d) ltac:(lia)) as Hpos. pose proof (Z.rem_nonpos n (Z.pos d) ltac:(lia)) as Hneg.
  set (q := Z.quot n (Z.pos d)) in *. set (r := Z.rem n (Z.pos d)) in *. clearbody q r.
  destruct ((Z.pos d <? 2 * Z.abs r) || ((2 * Z.abs r =? Z.pos d) && Z.testbit q 0)) eqn:Hcond; breflect.
  - assert (Z.pos d ≤ 2 * Z.abs r ∧ (2 * Z.abs r = Z.pos d → Z.odd q = true)) as [Hle Hodd].
    { destruct Hcond as [H|H]; breflect; [lia|]. rewrite Z.bit0_odd in *. split; [lia|done]. }
    destruct (Z.ltb_spec n 0).
    + assert (r ≤ 0) by lia. replace (n - (q - 1) * Z.pos d) with (r + Z.pos d) by lia. split; [lia|]. intros E.
      rewrite Z.even_sub, <- Z.negb_odd, Hodd by lia. done.
    + assert (0 ≤ r) by lia. replace (n - (q + 1) * Z.pos d) with (r - Z.pos d) by lia. split; [lia|]. intros E.
      rewrite Z.even_add, <- Z.negb_odd, Hodd by lia. done.
  - replace (n - q * Z.pos d) with r by lia. split; [lia|]. intros E. rewrite <- Z.negb_odd, <- Z.bit0_odd.
    destruct H0 as [H'|H']; breflect; [lia|]. by rewrite H'.
Qed.

(** ** Numbers *)

Definition number_value (n : NormalizedNumber) : Z := (if negative n then -1 else 1) * magnitude n.

(** What [normalizedNumberFromBigInt] makes: 127 bits, and no negative zero. *)
Record number_ok (n : NormalizedNumber) : Prop := {
  nok_high : 0 ≤ high n < 2 ^ 63;
  nok_low : 0 ≤ low n < 2 ^ 64;
  nok_zero : negative n = true → magnitude n ≠ 0;
}.

Lemma from_big_spec value n :
  normalizedNumberFromBigInt value = Some n ↔ Z.abs value < 2 ^ 127 ∧ number_ok n ∧ number_value n = value.
Proof.
  unfold normalizedNumberFromBigInt. destruct (Z.leb_spec (2 ^ 127) (Z.abs value)) as [Hle|Hlt]; [split; [done|lia]|].
  pose proof (Z_div_mod_eq_full (Z.abs value) (2 ^ 64)) as Hdm.
  pose proof (Z.mod_pos_bound (Z.abs value) (2 ^ 64) ltac:(lia)) as Hm.
  assert (0 ≤ Z.abs value / 2 ^ 64 < 2 ^ 63) as Hh.
  { split; [apply Z.div_pos; lia|]. apply Z.div_lt_upper_bound; lia. }
  split.
  - intros [= <-]. split_and!; [done| |].
    + constructor; simpl; [done|done|]. unfold magnitude. simpl. destruct (Z.ltb_spec value 0); [lia|done].
    + unfold number_value, magnitude. simpl. destruct (Z.ltb_spec value 0); lia.
  - intros (_ & [Hnh Hnl Hz] & Hv). f_equal. destruct n as [neg h l]. unfold number_value, magnitude in *. simpl in *.
    assert (Z.abs value = h * 2 ^ 64 + l) as -> by (destruct neg; lia).
    rewrite Z.div_add_l, Z.div_small, Z.add_0_r by lia. rewrite Z.add_comm, Z.mod_add, Z.mod_small by lia. f_equal.
    destruct neg; [specialize (Hz eq_refl); apply Z.ltb_lt; lia|apply Z.ltb_ge; lia].
Qed.

Lemma number_value_inj a b : number_ok a → number_ok b → number_value a = number_value b → a = b.
Proof.
  intros Ha Hb E. assert (Z.abs (number_value a) < 2 ^ 127) as Hlt.
  { destruct Ha. unfold number_value, magnitude. destruct (negative a); nia. }
  assert (normalizedNumberFromBigInt (number_value a) = Some a) as E1 by (by apply from_big_spec).
  assert (normalizedNumberFromBigInt (number_value a) = Some b) as E2 by (apply from_big_spec; by rewrite E in *). congruence.
Qed.

(** Numbers are compared as their values. *)
Lemma compare_spec a b : number_ok a → number_ok b →
  compare a b = match number_value a ?= number_value b with Lt => -1 | Eq => 0 | Gt => 1 end.
Proof.
  intros [Hah Hal Haz] [Hbh Hbl Hbz]. unfold compare, number_value, magnitude in *.
  destruct a as [na ha la], b as [nb hb lb]. simpl in *.
  set (ma := ha * 2 ^ 64 + la) in *. set (mb := hb * 2 ^ 64 + lb) in *.
  assert ((if (ha <? hb) || ((ha =? hb) && (la <? lb)) then -1
           else if (hb <? ha) || ((ha =? hb) && (lb <? la)) then 1 else 0) =
          match ma ?= mb with Lt => -1 | Eq => 0 | Gt => 1 end) as ->.
  { destruct (Z.ltb_spec ha hb), (Z.eqb_spec ha hb), (Z.ltb_spec la lb), (Z.ltb_spec hb ha), (Z.ltb_spec lb la); simpl;
      destruct (Z.compare_spec ma mb); lia. }
  assert (0 ≤ ma) by lia. assert (0 ≤ mb) by lia. clearbody ma mb.
  destruct na, nb; simpl; try specialize (Haz eq_refl); try specialize (Hbz eq_refl);
    (destruct (Z.compare_spec ma mb) || idtac);
    match goal with |- _ = match ?x ?= ?y with _ => _ end => destruct (Z.compare_spec x y) | _ => idtac end; lia.
Qed.

(** ** The value of a text *)

Definition exponent_value (text : string) : Z :=
  match text with
  | EmptyString => 0
  | String c rest =>
      if (c =? "-")%char then - digits_value 0 rest else if (c =? "+")%char then digits_value 0 rest else digits_value 0 text
  end.

Definition text_value (m : matches) : Q :=
  inject_Z ((if (m_sign m =? "-")%string then -1 else 1) * digits_value 0 (m_integer m +:+ m_fraction m))
  * inject_Z 10 ^ (exponent_value (m_exponent m) - Z.of_nat (String.length (m_fraction m))).

Definition text_bounded (text : string) (m : matches) : Prop :=
  (String.length text ≤ 128)%nat ∧ -128 ≤ exponent_value (m_exponent m) ≤ 128.

Lemma Atoi_spec text :
  Atoi text = if (exponent_value text <? minInt64) || (maxInt64 <? exponent_value text) then None else Some (exponent_value text).
Proof.
  destruct text as [|c text]; [done|]. unfold Atoi, exponent_value.
  destruct (c =? "-")%char; [by replace (-1 * digits_value 0 text) with (- digits_value 0 text) by lia|].
  destruct (c =? "+")%char; by rewrite Z.mul_1_l.
Qed.

Lemma power_split n s :
  (inject_Z n * inject_Z 10 ^ (- s) == (if s <? 0 then n * 10 ^ (- s) else n) # Z.to_pos (if 0 <? s then 10 ^ s else 1))%Q.
Proof.
  destruct (Z.ltb_spec s 0), (Z.ltb_spec 0 s); [lia| | |].
  - rewrite <- Zpower_Qpower, <- inject_Z_mult by lia. done.
  - rewrite Qpower_opp, <- Zpower_Qpower by lia.
    assert (0 < 10 ^ s) as Hp by (by apply Z.pow_pos_nonneg; lia). destruct (10 ^ s) as [|p|p]; [lia| |lia].
    unfold Qeq. simpl. lia.
  - assert (s = 0) as -> by lia. unfold Qeq. simpl. lia.
Qed.

(** The parser reads every bounded text, as the number it writes. *)
Lemma parse_spec text m :
  text ≠ ""%string →
  match parseDecimalRationalMatch text m true with
  | Some q => text_bounded text m ∧ (q == text_value m)%Q
  | None => ¬ text_bounded text m
  end.
Proof.
  intros Hne. unfold parseDecimalRationalMatch, text_bounded. cbn [negb andb orb]. rewrite orb_false_r.
  destruct (Nat.eqb_spec (String.length text) 0) as [H0|_]; [by destruct text|]. cbn [orb].
  destruct (Nat.ltb_spec 128 (String.length text)) as [Hl|Hl]; [lia|].
  assert ((if negb (m_exponent m =? "")%string
           then parsed ← Atoi (m_exponent m); if (parsed <? -128) || (128 <? parsed) then None else Some parsed
           else Some 0) =
          if (exponent_value (m_exponent m) <? -128) || (128 <? exponent_value (m_exponent m)) then None
          else Some (exponent_value (m_exponent m))) as ->.
  { destruct (String.eqb_spec (m_exponent m) "") as [->|]; [done|]. cbn [negb]. rewrite Atoi_spec.
    unfold minInt64, maxInt64.
    destruct (_ || _) eqn:Hr; cbn [mbind option_bind]; [|done]. destruct (_ || _) eqn:Hr' at 1; [done|]. breflect. lia. }
  destruct (_ || _) eqn:Hr; cbn [mbind option_bind].
  { intros [_ ?]. apply orb_true_iff in Hr as [?|?]; breflect; lia. }
  breflect. split; [lia|]. unfold set_frac, text_value. rewrite Qred_correct.
  set (e := exponent_value _). set (k := Z.of_nat _).
  replace (e - k) with (- (k - e)) by lia. rewrite power_split.
  destruct (m_sign m =? "-")%string; [|by rewrite Z.mul_1_l].
  by replace (-1 * digits_value 0 (m_integer m +:+ m_fraction m)) with (- digits_value 0 (m_integer m +:+ m_fraction m)) by lia.
Qed.

(** ** Normalization *)

Lemma normalizeRational_spec value multiplier n : 0 < multiplier →
  normalizeRational value multiplier = Some n ↔
  number_ok n ∧ Z.abs (number_value n) < 2 ^ 127 ∧
  nearest_even (value * inject_Z (multiplier * normalizedDecimalScale)) (number_value n).
Proof.
  intros Hm. unfold normalizeRational. destruct (Z.leb_spec multiplier 0); [lia|].
  set (scaled := Qred _).
  assert (scaled == value * inject_Z (multiplier * normalizedDecimalScale))%Q as Hs.
  { unfold scaled. rewrite !Qred_correct, inject_Z_mult. ring. }
  rewrite <- Hs. destruct scaled as [num den]. cbn [Qnum Qden]. pose proof (round_quotient_spec num den) as Hr.
  rewrite from_big_spec. split.
  - intros (Hlt & Hok & E). rewrite E. done.
  - intros (Hok & Hlt & Hn). pose proof (nearest_even_unique _ _ _ Hr Hn) as ->. done.
Qed.

Lemma normalizeRational_None value multiplier z : 0 < multiplier →
  nearest_even (value * inject_Z (multiplier * normalizedDecimalScale)) z →
  normalizeRational value multiplier = None ↔ 2 ^ 127 ≤ Z.abs z.
Proof.
  intros Hm Hz. split.
  - intros Hn. destruct (decide (2 ^ 127 ≤ Z.abs z)) as [|Hlt]; [done|exfalso].
    destruct (normalizedNumberFromBigInt z) as [n|] eqn:E.
    + apply from_big_spec in E as (? & ? & <-).
      assert (normalizeRational value multiplier = Some n) by (by apply normalizeRational_spec). congruence.
    + unfold normalizedNumberFromBigInt in E. destruct (Z.leb_spec (2 ^ 127) (Z.abs z)); [lia|done].
  - intros Hle. destruct (normalizeRational value multiplier) as [n|] eqn:E; [exfalso|done].
    apply normalizeRational_spec in E as (_ & Hlt & Hn); [|done]. pose proof (nearest_even_unique _ _ _ Hz Hn) as ->. lia.
Qed.

(** A text of the grammar starts with its sign or a digit. *)
Lemma decimal_text_first text m :
  decimal_text text m → ∃ c rest, text = String c rest ∧ (c = "-"%char ∨ is_digit c = true).
Proof.
  intros [sign integer fraction exponent f e Hsign Hint _ _].
  repeat (apply elem_of_cons in Hsign as [->|Hsign]); [| |inversion Hsign].
  - destruct Hint as [->|(c & ds & -> & Hc & _)].
    + eexists _, _. split; [done|by right].
    + exists c, (ds +:+ f +:+ e). split; [done|by right].
  - eexists _, _. split; [done|by left].
Qed.

Lemma nearest_exists (x : Q) : ∃ z, nearest_even x z.
Proof. destruct x as [n d]. eexists. apply round_quotient_spec. Qed.

(** What [Normalize] decides; [normalize_decides] states it of the code. *)
Lemma Normalize_spec s raw :
  0 < sourceMultiplier s →
  let text := TrimSpace raw in
  let scaled m := (text_value m * inject_Z (sourceMultiplier s * normalizedDecimalScale))%Q in
  match Normalize s raw with
  | Available n =>
      ∃ m, decimal_text text m ∧ text_bounded text m ∧ number_ok n ∧
        nearest_even (scaled m) (number_value n) ∧ Z.abs (number_value n) < 2 ^ 127
  | Unavailable reason =>
      reason = ReasonRequiredValueMissing ∧ (text = "" ∨ text = "null")%string ∨
      reason = ReasonRequiredValueTypeMismatch ∧ text ≠ ""%string ∧ text ≠ "null"%string ∧ (∀ m, ¬ decimal_text text m) ∨
      reason = ReasonRequiredValueNormalizationFailed ∧
        ∃ m, decimal_text text m ∧ (¬ text_bounded text m ∨ ∃ z, nearest_even (scaled m) z ∧ 2 ^ 127 ≤ Z.abs z)
  end.
Proof.
  intros Hm text scaled. unfold Normalize. fold text. clearbody text.
  destruct text as [|c rest] eqn:Ht; [left; auto|]. rewrite <- Ht in *.
  destruct (String.eqb_spec text "null") as [|Hnull]; [left; auto|].
  assert (text ≠ ""%string) as Hne by (by subst).
  destruct (bool_decide _ || _ || _) eqn:Hlit.
  { right. left. split_and!; [done..|]. intros m (c' & r' & E & Hc)%decimal_text_first.
    rewrite Ht in E. injection E as <- <-. apply orb_true_iff in Hlit as [Hlit|Hlit]; [apply orb_true_iff in Hlit as [Hlit|Hlit]|].
    - breflect. destruct Hc as [->|Hc]; [set_solver|].
      by repeat (apply elem_of_cons in Hlit as [->|Hlit]); [..|inversion Hlit].
    - apply String.eqb_eq in Hlit. rewrite Ht in Hlit. injection Hlit as -> _. by destruct Hc.
    - apply String.eqb_eq in Hlit. rewrite Ht in Hlit. injection Hlit as -> _. by destruct Hc. }
  destruct (decimalPattern text) as [m|] eqn:Hp.
  2: { right. left. split_and!; [done..|]. intros m Hd%decimalPattern_spec. congruence. }
  apply decimalPattern_spec in Hp. pose proof (parse_spec text m Hne) as Hparse.
  destruct (parseDecimalRationalMatch text m true) as [q|].
  2: { right. right. split; [done|]. exists m. auto. }
  destruct Hparse as [Hb Hq]. destruct (nearest_exists (scaled m)) as [z Hz].
  destruct (normalizeRational q (sourceMultiplier s)) as [n|] eqn:Hn.
  - exists m. apply normalizeRational_spec in Hn as (? & ? & Hn); [|done]. rewrite Hq in Hn. done.
  - right. right. split; [done|]. exists m. split; [done|]. right. exists z. split; [done|].
    apply (normalizeRational_None q (sourceMultiplier s)); [done| |done]. by rewrite Hq.
Qed.

(** C28: a value is available exactly when its JSON, stripped of white space, is a
    decimal number of at most 128 bytes whose exponent is at most 128 either way
    and whose scaled value fits 127 bits; the number kept is then the multiple of
    a millionth nearest to the value in the target unit, the even one of two. Of
    the rest, an absent or null value is missing, one that is no number is of the
    wrong type, and a number past a bound is not normalizable. *)
Theorem normalize_decides s raw :
  0 < sourceMultiplier s →
  let text := TrimSpace raw in
  let scaled m := (text_value m * inject_Z (sourceMultiplier s * normalizedDecimalScale))%Q in
  match Normalize s raw with
  | Available n =>
      ∃ m, decimal_text text m ∧ text_bounded text m ∧ number_ok n ∧
        nearest_even (scaled m) (number_value n) ∧ Z.abs (number_value n) < 2 ^ 127
  | Unavailable reason =>
      reason = ReasonRequiredValueMissing ∧ (text = "" ∨ text = "null")%string ∨
      reason = ReasonRequiredValueTypeMismatch ∧ text ≠ ""%string ∧ text ≠ "null"%string ∧ (∀ m, ¬ decimal_text text m) ∨
      reason = ReasonRequiredValueNormalizationFailed ∧
        ∃ m, decimal_text text m ∧ (¬ text_bounded text m ∨ ∃ z, nearest_even (scaled m) z ∧ 2 ^ 127 ≤ Z.abs z)
  end.
Proof. apply Normalize_spec. Qed.

(** ** Printing *)

Lemma digit_char_spec d : 0 ≤ d < 10 → is_digit (digit_char d) = true ∧ digit_value (digit_char d) = d ∧ (digit_char d = "0"%char → d = 0).
Proof.
  intros H. assert (d ∈ seqZ 0 10) as Hin by (apply elem_of_seqZ; lia). cbn in Hin.
  by repeat (apply elem_of_cons in Hin as [->|Hin]); [..|inversion Hin].
Qed.

Lemma digits_value_app acc a b : digits_value acc (a +:+ b) = digits_value (digits_value acc a) b.
Proof. revert acc. induction a as [|c a IH]; intros acc; [done|]. rewrite <- cons_app_str. apply IH. Qed.

Lemma integer_digits text : integer_text text → digits_only text = true ∧ nonempty text.
Proof. intros [->|(c & ds & -> & Hc & _ & Hds)]; [done|]. by rewrite digits_only_cons, Hc. Qed.

(** The digits printed are those of the number, without a leading zero, and as few
    as its size allows. *)
Lemma digits_loop_spec fuel : ∀ z text, (0 < fuel)%nat → 0 ≤ z < 2 ^ Z.of_nat fuel →
  ∃ ds, digits_loop fuel z text = ds +:+ text ∧ integer_text ds ∧ (ds = "0"%string → z = 0) ∧ digits_value 0 ds = z ∧
        ∀ k, (0 < k)%nat → z < 10 ^ Z.of_nat k → (String.length ds ≤ k)%nat.
Proof.
  induction fuel as [|fuel IH]; intros z text Hf Hz; [lia|]. cbn [digits_loop].
  pose proof (Z_div_mod_eq_full z 10) as Hdm. pose proof (Z.mod_pos_bound z 10 ltac:(lia)) as Hm.
  destruct (digit_char_spec (z mod 10) Hm) as (Hd & Hv & H0). set (c := digit_char (z mod 10)) in *. clearbody c.
  destruct (Z.eqb_spec (z / 10) 0) as [Hz0|Hz0].
  - exists (String c ""). split_and!; [done| | |cbn; lia|cbn; lia].
    + destruct (Ascii.ascii_dec c "0") as [->|Hc]; [by left|right]. by exists c, ""%string.
    + intros [= ->]. specialize (H0 eq_refl). lia.
  - rewrite Nat2Z.inj_succ, Z.pow_succ_r in Hz by lia.
    assert (0 < fuel)%nat as Hf' by (destruct fuel; [change (2 ^ Z.of_nat 0) with 1 in Hz; lia|lia]).
    assert (0 ≤ z / 10 < 2 ^ Z.of_nat fuel) as Hq by lia.
    destruct (IH (z / 10) (String c text) Hf' Hq) as (ds & -> & Hint & Hzero & Hval & Hlen).
    exists (ds +:+ String c ""). split_and!.
    + by rewrite app_assoc_str.
    + destruct Hint as [->|(c' & r & -> & Hc' & Hne & Hr)]; [by destruct Hz0; apply Hzero|].
      right. exists c', (r +:+ String c ""). split_and!; [done..|]. by rewrite digits_only_app, Hr, digits_only_cons, Hd.
    + intros E. destruct (integer_digits _ Hint) as [_ Hn]. by destruct ds as [|? []].
    + rewrite digits_value_app, Hval. cbn. lia.
    + intros [|k] Hk Hlt; [lia|]. rewrite length_app_str. cbn [String.length].
      destruct k as [|k]; [change (10 ^ Z.of_nat 1) with 10 in Hlt; lia|].
      rewrite Nat2Z.inj_succ, Z.pow_succ_r in Hlt by lia. specialize (Hlen (S k) ltac:(lia) ltac:(lia)). lia.
Qed.

Lemma print_digits_spec z : 0 ≤ z →
  integer_text (print_digits z) ∧ digits_value 0 (print_digits z) = z ∧
  ∀ k, (0 < k)%nat → z < 10 ^ Z.of_nat k → (String.length (print_digits z) ≤ k)%nat.
Proof.
  intros Hz. unfold print_digits. destruct (digits_loop_spec (S (Z.to_nat (Z.log2 z))) z "") as (ds & -> & ? & _ & ? & ?); [lia| |].
  - split; [done|]. rewrite Nat2Z.inj_succ, Z2Nat.id by apply Z.log2_nonneg.
    destruct (decide (z = 0)) as [->|]; [done|]. apply Z.log2_spec. lia.
  - by rewrite app_nil_str.
Qed.

Lemma zeros_spec n : String.length (zeros n) = n ∧ digits_only (zeros n) = true ∧ digits_value 0 (zeros n) = 0.
Proof. induction n as [|n (Hl & Hd & Hv)]; [done|]. cbn [zeros String.length digits_value]. rewrite digits_only_cons, Hl, Hd. done. Qed.

(** The text of a canonical decimal: a sign, the integer part, six decimals. *)
Lemma canonical_text n : number_ok n →
  ∃ sign integer fraction,
    CanonicalDecimal n = sign +:+ integer +:+ "." +:+ fraction ∧ sign = (if negative n then "-" else "")%string ∧
    integer_text integer ∧ digits_only fraction = true ∧ String.length fraction = 6%nat ∧
    digits_value 0 (integer +:+ fraction) = magnitude n ∧ (String.length integer ≤ 33)%nat.
Proof.
  intros [Hh Hl Hz]. assert (0 ≤ magnitude n < 10 ^ Z.of_nat 39) as [Hm0 Hm39].
  { unfold magnitude. split; [lia|]. change (10 ^ Z.of_nat 39) with 1000000000000000000000000000000000000000. lia. }
  destruct (print_digits_spec (magnitude n) Hm0) as (Hint & Hval & Hlen). specialize (Hlen 39%nat ltac:(lia) Hm39).
  set (digits := if (String.length (print_digits (magnitude n)) <=? 6)%nat
                 then zeros (7 - String.length (print_digits (magnitude n))) +:+ print_digits (magnitude n)
                 else print_digits (magnitude n)).
  assert (∃ integer fraction, digits = integer +:+ fraction ∧ integer_text integer ∧ digits_only fraction = true ∧
          String.length fraction = 6%nat ∧ digits_value 0 digits = magnitude n ∧ (String.length integer ≤ 33)%nat)
    as (integer & fraction & Hd & Hi & Hf & Hl6 & Hv & H33).
  { unfold digits. destruct (Nat.leb_spec (String.length (print_digits (magnitude n))) 6) as [H6|H6].
    - destruct (integer_digits _ Hint) as [Hds Hne]. set (ds := print_digits _) in *.
      assert (0 < String.length ds)%nat by (destruct ds; [done|simpl; lia]).
      destruct (7 - String.length ds)%nat as [|k] eqn:Hk; [lia|]. destruct (zeros_spec k) as (Hzl & Hzd & Hzv).
      exists "0"%string, (zeros k +:+ ds). cbn [zeros]. split_and!.
      + done.
      + by left.
      + by rewrite digits_only_app, Hzd.
      + rewrite length_app_str, Hzl. lia.
      + rewrite digits_value_app. cbn [digits_value]. change (10 * 0 + digit_value "0") with 0. by rewrite Hzv.
      + simpl. lia.
    - destruct (split_str (String.length (print_digits (magnitude n)) - 6) (print_digits (magnitude n)))
        as (integer & fraction & E & Hli); [lia|].
      rewrite E in *. rewrite length_app_str in *. exists integer, fraction.
      destruct (integer_digits _ Hint) as [Hds _]. rewrite digits_only_app in Hds. breflect.
      split_and!; [done| |done|lia|done|lia].
      destruct Hint as [Hzero|(c & r & Hc & ? & ? & Hr)].
      + assert (String.length (integer +:+ fraction) = 1%nat) as H1 by (by rewrite Hzero). rewrite length_app_str in H1. lia.
      + destruct integer as [|c' integer]; [simpl in *; lia|]. rewrite <- cons_app_str in Hc. injection Hc as <- <-.
        right. rewrite digits_only_app in Hr. breflect. by exists c', integer. }
  exists (if negative n then "-" else "")%string, integer, fraction. split_and!; [|done|done|done|done|by rewrite <- Hd|done].
  unfold CanonicalDecimal. fold digits. rewrite Hd, length_app_str, Hl6, Nat.add_sub, substring_prefix.
  replace (String.substring (String.length integer) 6 (integer +:+ fraction)) with fraction
    by (rewrite <- Hl6; by rewrite substring_suffix).
  destruct (negative n) eqn:Hneg; [|done]. specialize (Hz eq_refl). unfold magnitude in Hz.
  destruct (Z.eqb_spec (high n) 0), (Z.eqb_spec (low n) 0); [lia|done..].
Qed.

(** ** Reading a canonical decimal back *)

Definition visible (c : ascii) : Prop := c = "-"%char ∨ is_digit c = true.

Lemma visible_chars c : visible c → c ∈ ["-"; "0"; "1"; "2"; "3"; "4"; "5"; "6"; "7"; "8"; "9"]%char.
Proof.
  intros [->|H]; [constructor|]. destruct c as [[] [] [] [] [] [] [] []]; try discriminate H; repeat (constructor 1 || constructor 2).
Qed.

Lemma first_cut_prefix c text : visible c → first_cut cut_prefix_of (String c text) = None.
Proof. intros H%visible_chars. by repeat (apply elem_of_cons in H as [->|H]); [..|inversion H]. Qed.

Lemma snoc_inj (a b : string) c d : a +:+ String c "" = b +:+ String d "" → c = d.
Proof.
  revert b. induction a as [|x a IH]; intros b H.
  - destruct b as [|y [|z b]]; by injection H.
  - destruct b as [|y b]; [by destruct a|]. rewrite <- !cons_app_str in H. injection H as _ H. by eapply IH.
Qed.

Lemma cut_suffix_None s d text c : c ≠ d → cut_suffix_of (s +:+ String d "") (text +:+ String c "") = None.
Proof.
  intros Hne. unfold cut_suffix_of. set (t := text +:+ String c "") in *. set (suffix := s +:+ String d "").
  destruct (Nat.leb_spec (String.length suffix) (String.length t)) as [Hle|]; [cbn [andb]|done].
  destruct (split_str (String.length t - String.length suffix) t) as (p & q & E & Hp); [lia|].
  assert (String.length suffix = String.length q) as Hq.
  { pose proof (f_equal String.length E) as El. rewrite length_app_str in El. lia. }
  rewrite E at 2. rewrite <- Hp, Hq, substring_suffix. destruct (String.eqb_spec q suffix) as [->|]; [|done].
  destruct Hne. unfold t, suffix in E. rewrite <- app_assoc_str in E. by apply snoc_inj in E.
Qed.

Lemma white_space_ends : Forall (λ space, ∃ s d, space = s +:+ String d "" ∧ ¬ visible d) white_space.
Proof.
  assert (∀ d, visible d → d ∈ ["-"; "0"; "1"; "2"; "3"; "4"; "5"; "6"; "7"; "8"; "9"]%char) as Hv by exact visible_chars.
  unfold white_space. repeat constructor.
  all: lazymatch goal with |- ∃ s d, String ?a (String ?b (String ?c "")) = _ ∧ _ => exists (String a (String b "")), c
                          | |- ∃ s d, String ?a (String ?b "") = _ ∧ _ => exists (String a ""), b
                          | |- ∃ s d, String ?a "" = _ ∧ _ => exists ""%string, a end.
  all: split; [done|]; intros H%Hv; by repeat (apply elem_of_cons in H as [H|H]); [..|inversion H].
Qed.

Lemma first_cut_suffix text c : visible c → first_cut cut_suffix_of (text +:+ String c "") = None.
Proof.
  intros Hc. unfold first_cut. assert (omap (λ space, cut_suffix_of space (text +:+ String c "")) white_space = []) as ->; [|done].
  pose proof white_space_ends as Hw. induction Hw as [|space spaces (s & d & -> & Hd) _ IH]; [done|]. cbn.
  rewrite cut_suffix_None; [exact IH|]. by intros ->.
Qed.

Lemma trim_none cut fuel text : first_cut cut text = None → trim cut fuel text = text.
Proof. intros H. destruct fuel; [done|]. cbn [trim]. by rewrite H. Qed.

Lemma TrimSpace_none c d text rest : text = String c rest → visible c → ∀ front, text = front +:+ String d "" → visible d →
  TrimSpace text = text.
Proof.
  intros E Hc front E' Hd. unfold TrimSpace. rewrite (trim_none cut_prefix_of) by (rewrite E; by apply first_cut_prefix).
  apply trim_none. rewrite E'. by apply first_cut_suffix.
Qed.

Lemma digits_snoc text : digits_only text = true → nonempty text → ∃ front d, text = front +:+ String d "" ∧ is_digit d = true.
Proof.
  induction text as [|c text IH]; [by intros _ []|]. rewrite digits_only_cons. intros [Hc Ht]%andb_true_iff _.
  destruct text as [|c' text]; [by exists ""%string, c|]. destruct IH as (front & d & -> & Hd); [done..|].
  by exists (String c front), d.
Qed.

(** What the normalizer keeps is what it prints: the canonical decimal of a
    number is read back, in a unit without scale, as that same number; so no two
    numbers print alike. *)
Lemma canonical_reads_back s n :
  sourceMultiplier s = 1 → number_ok n →
  Normalize s (CanonicalDecimal n) = Available n ∧
  ∀ n', number_ok n' → CanonicalDecimal n' = CanonicalDecimal n → n' = n.
Proof.
  intros Hs. assert (∀ n, number_ok n → Normalize s (CanonicalDecimal n) = Available n) as Hread.
  2: { intros Hn. split; [by apply Hread|]. intros n' Hn' E. pose proof (Hread n Hn) as H. rewrite <- E, Hread in H by done. by injection H. }
  clear n. intros n Hok.
  destruct (canonical_text n Hok) as (sign & integer & fraction & Htext & Hsign & Hint & Hfrac & H6 & Hval & H33).
  set (m := mkMatches sign integer fraction "").
  assert (decimal_text (CanonicalDecimal n) m) as Hd.
  { rewrite Htext. replace ("." +:+ fraction)%string with (("." +:+ fraction) +:+ "")%string by (by rewrite app_nil_str).
    constructor; [subst sign; destruct (negative n); set_solver|done| |by left]. right. split_and!; [done| |done]. by destruct fraction. }
  assert (TrimSpace (CanonicalDecimal n) = CanonicalDecimal n) as Htrim.
  { destruct (decimal_text_first _ _ Hd) as (c & rest & E & Hc).
    destruct (digits_snoc fraction) as (front & d & Ef & Hdg); [done|by destruct fraction|].
    eapply (TrimSpace_none c d); [exact E|exact Hc| |by right]. rewrite Htext, Ef.
    by rewrite <- !app_assoc_str. }
  assert (text_bounded (CanonicalDecimal n) m) as Hb.
  { split; [|simpl; lia]. rewrite Htext, !length_app_str, H6. assert (String.length sign ≤ 1)%nat by (rewrite Hsign; destruct (negative n); simpl; lia).
    change (String.length ".") with 1%nat. lia. }
  assert ((text_value m * inject_Z (sourceMultiplier s * normalizedDecimalScale) == inject_Z (number_value n))%Q) as Hvalue.
  { rewrite Hs. unfold text_value, number_value. cbn [m_sign m_integer m_fraction m_exponent m exponent_value]. rewrite Hval, H6.
    replace (if (sign =? "-")%string then -1 else 1) with (if negative n then -1 else 1) by (rewrite Hsign; by destruct (negative n)).
    set (M := _ * magnitude n). change (inject_Z 10 ^ (0 - Z.of_nat 6))%Q with (1 # 1000000)%Q.
    change (1 * normalizedDecimalScale) with 1000000. unfold Qeq. cbn [Qnum Qden Qmult inject_Z Pos.mul]. lia. }
  pose proof (Normalize_spec s (CanonicalDecimal n) ltac:(lia)) as H. cbv zeta in H. rewrite Htrim in H.
  destruct (Normalize s (CanonicalDecimal n)) as [n'|reason].
  - destruct H as (m' & Hd' & _ & Hok' & Hn' & _). apply decimalPattern_spec in Hd', Hd. assert (m' = m) as -> by congruence.
    rewrite Hvalue in Hn'. f_equal. apply number_value_inj; [done..|].
    exact (nearest_even_unique _ _ _ Hn' (nearest_even_integer _)).
  - exfalso. destruct (decimal_text_first _ _ Hd) as (c & rest & E & Hc).
    destruct H as [(_ & [H|H])|[(_ & _ & _ & H)|(_ & m' & Hd' & H)]].
    + rewrite H in E. done.
    + rewrite H in E. injection E as <- _. by destruct Hc.
    + by apply (H m).
    + apply decimalPattern_spec in Hd', Hd. assert (m' = m) as -> by congruence. destruct H as [H|(z & Hz & Hbig)]; [done|].
      rewrite Hvalue in Hz. pose proof (nearest_even_unique _ _ _ Hz (nearest_even_integer _)) as ->.
      destruct Hok. unfold number_value, magnitude in Hbig. destruct (negative n); lia.
Qed.
