(* ===== verification/EffectiveTime.v ===== *)
(** A Level's uptime (strategy/effective_time.go): the configured ranges and calendars
    read into a requirement, and a requirement's schedule. *)
From Stdlib Require Import Ascii.
From S2P Require Import Prelude Decimal.

Open Scope Z_scope.

Definition EffectiveTimeAlways : string := "ALWAYS".
Definition EffectiveTimeStaticSchedule : string := "STATIC_SCHEDULE".
Definition EffectiveTimeCalendar : string := "CALENDAR".
Definition businessLocalTimezoneRef : string := "BUSINESS_LOCAL".

(** ** The configuration (strategy/types.go): a slice that may be nil is an option *)

Record uptimeTimeRangeV1 : Type := mkUptimeRange {
  Start : string;
  End_ : string;
}.

Record uptimeConfigV1 : Type := mkUptime {
  TimeRanges : option (list uptimeTimeRangeV1);
  ActiveCalendars : option (list Z);
  Calendars : option (list Z);
}.

(** ** The requirement *)

Record TimeRange : Type := mkTimeRange {
  startMinute : Z;
  endMinute : Z;
}.

#[export] Instance TimeRange_eq_dec : EqDecision TimeRange.
Proof. solve_decision. Defined.

Record EffectiveTimeRequirement : Type := mkRequirementTime {
  etr_kind : string;
  etr_version : Z;
  etr_digest : string;
  etr_timeRanges : list TimeRange;
  etr_timezoneRef : string;
  activeCalendarIDs : list Z;
  inactiveCalendarIDs : list Z;
}.

(** [strings.Split] at a colon. *)
Fixpoint split_colons (current text : string) : list string :=
  match text with
  | EmptyString => [current]
  | String c rest =>
      if (c =? ":")%char then current :: split_colons "" rest else split_colons (current +:+ String c "") rest
  end.

Fixpoint clock_text (text : string) : bool :=
  match text with
  | EmptyString => true
  | String c rest => ((c =? ":")%char || is_digit c) && clock_text rest
  end.

(** Two digits of at most [most]. *)
Definition clock_part (part : string) (most : Z) : option Z :=
  n ← Atoi part; if (n <? 0) || (most <? n) then None else Some n.

Definition parseClockMinute (value : string) : option Z :=
  if negb (clock_text value) then None
  else
    let parts := split_colons "" value in
    parts ←
      match parts with
      | [hour; minute; second] =>
          if negb (String.length second =? 2)%nat then None else _ ← clock_part second 59; Some [hour; minute]
      | _ => Some parts
      end;
    match parts with
    | [hour; minute] =>
        if negb (String.length hour =? 2)%nat || negb (String.length minute =? 2)%nat then None
        else h ← clock_part hour 23; m ← clock_part minute 59; Some (h * 60 + m)
    | _ => None
    end.

Definition timeRangeOf (raw : uptimeTimeRangeV1) : TimeRange :=
  mkTimeRange (default 0 (parseClockMinute (Start raw))) (default (24 * 60 - 1) (parseClockMinute (End_ raw))).

(** The ranges of the loop, the first of equal ones kept. *)
Fixpoint distinct_ranges (seenRanges : list TimeRange) (raw : list uptimeTimeRangeV1) : list TimeRange :=
  match raw with
  | [] => []
  | r :: raw =>
      let timeRange := timeRangeOf r in
      if bool_decide (timeRange ∈ seenRanges) then distinct_ranges seenRanges raw
      else timeRange :: distinct_ranges (timeRange :: seenRanges) raw
  end.

Definition range_le (l r : TimeRange) : Prop :=
  startMinute l < startMinute r ∨ (startMinute l = startMinute r ∧ endMinute l ≤ endMinute r).
#[export] Instance range_le_dec l r : Decision (range_le l r).
Proof. unfold range_le. apply _. Defined.

(** The ids sorted, each once. *)
Fixpoint unique_ids (unique ids : list Z) : option (list Z) :=
  match ids with
  | [] => Some unique
  | id :: ids =>
      if id <=? 0 then None
      else unique_ids (if bool_decide (last unique = Some id) then unique else unique ++ [id]) ids
  end.

Definition normalizeCalendarIDs (ids : option (list Z)) : option (list Z) :=
  unique_ids [] (merge_sort Z.le (default [] ids)).

(** An uptime that names nothing is no uptime. *)
Definition stated_uptime (uptime : option uptimeConfigV1) (timezoneRef : string) : option uptimeConfigV1 * string :=
  match uptime with
  | Some (mkUptime (Some []) _ _) => (None, "")
  | Some (mkUptime None None None) => (None, "")
  | _ => (uptime, timezoneRef)
  end%string.

Section requirement.
(** The canonical digest of a requirement's wire form. *)
Variable requirement_digest : EffectiveTimeRequirement → option string.

Definition with_digest (requirement : EffectiveTimeRequirement) : result string EffectiveTimeRequirement :=
  match requirement_digest requirement with
  | None => Err "effective-time-requirement-v1"%string
  | Some digest =>
      Ok (mkRequirementTime (etr_kind requirement) (etr_version requirement) digest (etr_timeRanges requirement)
            (etr_timezoneRef requirement) (activeCalendarIDs requirement) (inactiveCalendarIDs requirement))
  end.

Definition always_requirement : EffectiveTimeRequirement := mkRequirementTime EffectiveTimeAlways 1 "" [] "" [] [].

Definition compileEffectiveTimeRequirement (uptime : option uptimeConfigV1) (timezoneRef : string)
    : result string EffectiveTimeRequirement :=
  let '(uptime, timezoneRef) := stated_uptime uptime timezoneRef in
  match uptime with
  | None =>
      _ ← fail_if (negb (timezoneRef =? "")%string) "effective time: timezone_ref requires uptime"%string;
      with_digest always_requirement
  | Some uptime =>
      match TimeRanges uptime with
      | None => Err "effective time: time_ranges is required"%string
      | Some raw =>
          let ranges := merge_sort range_le (distinct_ranges [] raw) in
          match normalizeCalendarIDs (ActiveCalendars uptime), normalizeCalendarIDs (Calendars uptime) with
          | Some active, Some inactive =>
              let ranges :=
                if bool_decide (active = []) && bool_decide (inactive = []) && bool_decide (ranges = [mkTimeRange 0 (24 * 60 - 1)])
                then [] else ranges in
              if bool_decide (ranges = []) && bool_decide (active = []) && bool_decide (inactive = []) then with_digest always_requirement
              else
                _ ← fail_if (negb (timezoneRef =? businessLocalTimezoneRef)%string)
                      "effective time: timezone_ref must be BUSINESS_LOCAL"%string;
                with_digest
                  (mkRequirementTime
                     (if bool_decide (active = []) && bool_decide (inactive = []) then EffectiveTimeStaticSchedule else EffectiveTimeCalendar)
                     1 "" ranges timezoneRef active inactive)
          | _, _ => Err "effective time: invalid calendar ID"%string
          end
      end
  end.
End requirement.
