(* ===== verification/CalendarRules.v ===== *)
(** Go's time and the calendars of a Plan.

    Go's [time] package, as the schedules use it: instants as Unix seconds, a location as
    the offset it has at every instant, civil dates of the proleptic Gregorian calendar,
    and [time.Date] in a location. *)
From S2P Require Import Prelude Reason.

Open Scope Z_scope.

Definition day_seconds : Z := 86400.

(** ** Locations *)

Notation Location := (Z → Z).

Definition UTC : Location := λ _, 0.

(** The wall clock at an instant, in seconds of the calendar; its day and its second of the day. *)
Definition local (location : Location) (second : Z) : Z := second + location second.
Definition local_day (location : Location) (second : Z) : Z := local location second / day_seconds.
Definition local_clock (location : Location) (second : Z) : Z := local location second mod day_seconds.

(** [time.Date] of a wall clock: the offset at the wall clock read as UTC first, then the
    one at the instant that gives. *)
Definition go_Date (location : Location) (wall : Z) : Z :=
  let offset := location wall in
  if offset =? 0 then wall else wall - location (wall - offset).

(** ** The calendar *)

(** A day's year, month and day of the month, days counted from 1970-01-01: eras of four
    hundred years, years that start in March. *)
Record civil : Type := mkCivil {
  Year : Z;
  Month : Z;
  Day : Z;
}.

Definition civil_of_day (day : Z) : civil :=
  let z := day + 719468 in
  let era := z / 146097 in
  let doe := z mod 146097 in
  let yoe := (doe - doe / 1460 + doe / 36524 - doe / 146096) / 365 in
  let doy := doe - (365 * yoe + yoe / 4 - yoe / 100) in
  let mp := (5 * doy + 2) / 153 in
  let month := if mp <? 10 then mp + 3 else mp - 9 in
  mkCivil (yoe + era * 400 + (if month <=? 2 then 1 else 0)) month (doy - (153 * mp + 2) / 5 + 1).

(** Sunday is 0; 1970-01-01 was a Thursday. *)
Definition Weekday (day : Z) : Z := (day + 4) mod 7.

Example ex_calendar :
  (civil_of_day <$> [0; -1; 11016; 19782; 20512; -719468; 364 + 365], Weekday 0, Weekday 20512)
  = ([mkCivil 1970 1 1; mkCivil 1969 12 31; mkCivil 2000 2 29; mkCivil 2024 2 29; mkCivil 2026 2 28; mkCivil 0 3 1;
      mkCivil 1971 12 31], 4, 6).
Proof. vm_compute. reflexivity. Qed.

(** An era moves the year by four hundred and nothing else. *)
Lemma civil_of_day_era day k :
  civil_of_day (day + k * 146097) =
  mkCivil (Year (civil_of_day day) + k * 400) (Month (civil_of_day day)) (Day (civil_of_day day)).
Proof.
  unfold civil_of_day. cbn [Year Month Day].
  replace (day + k * 146097 + 719468) with (day + 719468 + k * 146097) by lia.
  rewrite Z.div_add, Z.mod_add by lia. f_equal. lia.
Qed.

(** * Calendar rules

    The calendars frozen with a Plan (strategy/effective_rules.go): a snapshot compiled
    into rules, and whether an item of a calendar is on at a second. *)

Definition effectiveRuleCandidateBudget : Z := 4096.

(** ** Data *)

Record effectiveRepeat : Type := mkRepeat {
  Freq : string;
  Interval : Z;
  Until : option Z;
  Every : list Z;
  Exclude : list Z;
  EncodingTimezone : string;
}.

Definition no_repeat : effectiveRepeat := mkRepeat "" 0 None [] [] "".

(** What [json.Unmarshal] makes of an item's repeat rule: the number of its keys, none when
    it is not an object; the rule, none when a field has the wrong type; and whether the
    lists it states hold numbers only. *)
Record rawRepeat : Type := mkRawRepeat {
  rr_fields : option nat;
  rr_repeat : option effectiveRepeat;
  rr_lists_numeric : bool;
}.

Record effectiveItem : Type := mkItem {
  item_ID : Z;
  TimeKind : string;
  Start_ : option Z;
  item_End : option Z;
  Timezone : string;
  Repeat : rawRepeat;
}.

Record effectiveCalendar : Type := mkCalendar {
  cal_ID : Z;
  cal_TenantID : string;
  cal_Status : string;
  Items : option (list effectiveItem);
}.

Record effectiveSnapshot : Type := mkSnapshot {
  SchemaVersion : Z;
  snap_Status : string;
  BusinessTimezone : string;
  snap_Calendars : option (list effectiveCalendar);
}.

Record compiledCalendarItem : Type := mkCalendarItem {
  ci_start : Z;
  ci_end : Z;
  ci_daily : bool;
  ci_location : Location;
  ci_encodingLocation : option Location;
  ci_repeat : effectiveRepeat;
  ci_excluded : gset Z;
}.

Record compiledEffectiveRules : Type := mkRules {
  rules_location : Location;
  rules_calendars : gmap Z (list compiledCalendarItem);
  rules_digest : string;
  rules_bytes : Z;
  rules_deleted : gset Z;
}.

(** ** Compilation *)

Section compile.
(** [time.LoadLocation], and the canonical digest of a snapshot. *)
Variable LoadLocation : string → option Location.
Variable snapshot_digest : effectiveSnapshot → option string.

Definition ruleLocation (name : string) : result string Location :=
  if (name =? "")%string || (name =? "Local")%string then Err ReasonEffectiveTimeTimezoneInvalid
  else match LoadLocation name with Some location => Ok location | None => Err ReasonEffectiveTimeTimezoneInvalid end.

(** The bounds of [every] for a frequency, none for one that is not known. *)
Definition every_bounds (freq : string) : option (Z * Z) :=
  if (freq =? "day")%string then Some (0, 0)
  else if (freq =? "week")%string then Some (0, 6)
  else if (freq =? "month")%string then Some (1, 31)
  else if (freq =? "year")%string then Some (1, 12)
  else None.

Definition compile_repeat (repeat : effectiveRepeat) : result string (option Location * gset Z) :=
  match every_bounds (Freq repeat) with
  | None => Err ReasonEffectiveTimeRepeatInvalid
  | Some (low, high) =>
      _ ← fail_if ((Freq repeat =? "day")%string && negb (bool_decide (Every repeat = []))) ReasonEffectiveTimeRepeatEveryInvalid;
      _ ← fail_if (existsb (λ n, (n <? low) || (high <? n)) (Every repeat)) ReasonEffectiveTimeRepeatEveryInvalid;
      _ ← fail_if (match Until repeat with Some until => until <? 0 | None => false end) ReasonEffectiveTimeRepeatUntilInvalid;
      if bool_decide (Exclude repeat = []) then Ok (None, ∅)
      else location ← ruleLocation (EncodingTimezone repeat); Ok (Some location, list_to_set (Exclude repeat))
  end.

Definition compileCalendarItem (item : effectiveItem) : result string compiledCalendarItem :=
  match Start_ item, item_End item with
  | Some start, Some stop =>
      _ ← fail_if (item_ID item <=? 0) ReasonEffectiveTimeItemInvalid;
      let daily := (TimeKind item =? "DAILY_SECONDS")%string in
      _ ← fail_if (negb daily && negb (TimeKind item =? "UNIX_SECONDS")%string) ReasonEffectiveTimeTimeKindInvalid;
      _ ← fail_if (if daily then (start <? 0) || (86400 <=? start) || (stop <? 0) || (86400 <=? stop)
                   else (stop <? start) || (start <? -62135596800) || (253402300799 <? stop))
            ReasonEffectiveTimeItemTimeInvalid;
      location ← ruleLocation (Timezone item);
      match rr_fields (Repeat item) with
      | None => Err ReasonEffectiveTimeRepeatInvalid
      | Some O => Ok (mkCalendarItem start stop daily location None no_repeat ∅)
      | Some _ =>
          match rr_repeat (Repeat item) with
          | None => Err ReasonEffectiveTimeRepeatInvalid
          | Some repeat =>
              _ ← fail_if (Interval repeat <=? 0) ReasonEffectiveTimeRepeatInvalid;
              _ ← fail_if (negb (rr_lists_numeric (Repeat item))) ReasonEffectiveTimeRepeatListInvalid;
              '(encoding, excluded) ← compile_repeat repeat;
              Ok (mkCalendarItem start stop daily location encoding repeat excluded)
          end
      end
  | _, _ => Err ReasonEffectiveTimeItemInvalid
  end.

Fixpoint compile_items (ids : gset Z) (items : list effectiveItem) : result string (list compiledCalendarItem) :=
  match items with
  | [] => Ok []
  | item :: items =>
      _ ← fail_if (bool_decide (item_ID item ∈ ids)) ReasonEffectiveTimeItemDuplicate;
      compiled ← compileCalendarItem item;
      rest ← compile_items ({[item_ID item]} ∪ ids) items;
      Ok (compiled :: rest)
  end.

(** The loop over the calendars: those compiled so far, and the deleted ones. *)
Fixpoint compile_calendars (tenant : string) (calendars : list effectiveCalendar)
    (compiled : gmap Z (list compiledCalendarItem)) (deleted : gset Z) : result string (gmap Z (list compiledCalendarItem) * gset Z) :=
  match calendars with
  | [] => Ok (compiled, deleted)
  | calendar :: calendars =>
      _ ← fail_if ((cal_ID calendar <=? 0) || negb (cal_TenantID calendar =? tenant)%string) ReasonEffectiveTimeCalendarIdentity;
      _ ← fail_if (bool_decide (is_Some (compiled !! cal_ID calendar))) ReasonEffectiveTimeCalendarDuplicate;
      if (cal_Status calendar =? "DELETED")%string then
        compile_calendars tenant calendars (<[cal_ID calendar := []]> compiled) ({[cal_ID calendar]} ∪ deleted)
      else if negb (cal_Status calendar =? "PRESENT")%string then Err ReasonEffectiveTimeCalendarNotPresent
      else
        match Items calendar with
        | None => Err ReasonEffectiveTimeCalendarItemsMissing
        | Some items =>
            items ← compile_items ∅ items;
            compile_calendars tenant calendars (<[cal_ID calendar := items]> compiled) deleted
        end
  end.

(** [raw] is the snapshot's length and what [json.Unmarshal] reads of it; no bytes is no
    snapshot. *)
Definition compileEffectiveRules (size : Z) (raw : option effectiveSnapshot) (tenant : string)
    : result string (option compiledEffectiveRules) :=
  if size =? 0 then Ok None
  else
    match raw with
    | None => Err ReasonEffectiveTimeSnapshotInvalid
    | Some snapshot =>
        _ ← fail_if (negb (SchemaVersion snapshot =? 1)) ReasonEffectiveTimeSchemaUnsupported;
        _ ← (if (snap_Status snapshot =? "READY")%string then Ok tt
             else if (snap_Status snapshot =? "INVALID")%string || (snap_Status snapshot =? "UNAVAILABLE")%string then
               Err ReasonEffectiveTimeSnapshotUnavailable
             else Err ReasonEffectiveTimeSnapshotStatusInvalid);
        match snap_Calendars snapshot with
        | None => Err ReasonEffectiveTimeCalendarsMissing
        | Some calendars =>
            location ← ruleLocation (BusinessTimezone snapshot);
            match snapshot_digest snapshot with
            | None => Err "effective-time-snapshot-v1"%string
            | Some digest =>
                '(compiled, deleted) ← compile_calendars tenant calendars ∅ ∅;
                Ok (Some (mkRules location compiled digest (size * 2) deleted))
            end
        end
    end.
End compile.

(** ** Matching *)

(** [civilSecond]: the latest instant at which the location's wall clock shows the day and
    second, none in a gap. *)
Definition civilSecond (location : Location) (day clock : Z) : option Z :=
  let wall := day * day_seconds + clock in
  let guess := go_Date location wall in
  let candidates :=
    filter (λ candidate, local location candidate = wall)
      ((λ probe, wall - location probe) <$> [guess - 48 * 3600; guess; guess + 48 * 3600]) in
  foldl (λ best candidate, match best with Some b => Some (Z.max b candidate) | None => Some candidate end) None candidates.

Definition encodedDate (location : option Location) (day : Z) : Z :=
  match location with None => 0 | Some location => go_Date location (day * day_seconds) end.

Definition date_member (item : compiledCalendarItem) (n defaultValue : Z) : bool :=
  if bool_decide (Every (ci_repeat item) = []) then negb (ci_daily item) && (n =? defaultValue)
  else bool_decide (n ∈ Every (ci_repeat item)).

(** [matchesDate] of a day, anchored at a day: whether the repeat rule names it. *)
Definition matchesDate (item : compiledCalendarItem) (day anchor : Z) : bool :=
  let r := ci_repeat item in
  let date := civil_of_day day in
  let from_ := civil_of_day anchor in
  let interval := if ci_daily item then 1 else Interval r in
  let days := day - anchor in
  if (Freq r =? "")%string then true
  else
    let '(cycles, named) :=
      if (Freq r =? "day")%string then (days, true)
      else if (Freq r =? "week")%string then
        (Z.quot (days + Weekday anchor - Weekday day) 7, date_member item (Weekday day) (Weekday anchor))
      else if (Freq r =? "month")%string then
        ((Year date - Year from_) * 12 + (Month date - Month from_), date_member item (Day date) (Day from_))
      else if (Freq r =? "year")%string then
        (Year date - Year from_,
         date_member item (Month date) (Month from_) && (ci_daily item || (Day date =? Day from_)))
      else (0, true) in
    named && (ci_daily item || ((0 <=? cycles) && (Z.rem cycles interval =? 0))).

Definition until_passed (until : option Z) (second : Z) : bool :=
  match until with None => false | Some until => negb (until =? 0) && (until <? second) end.

Definition matchesDaily (item : compiledCalendarItem) (second : Z) : bool :=
  let day := local_day (ci_location item) second in
  let clock := local_clock (ci_location item) second in
  if (if ci_start item <=? ci_end item then (clock <? ci_start item) || (ci_end item <? clock)
      else (clock <? ci_start item) && (ci_end item <? clock)) then false
  else if negb (matchesDate item day day) then false
  else if bool_decide (encodedDate (ci_encodingLocation item) day ∈ ci_excluded item) then false
  else
    let startDate := if (ci_end item <? ci_start item) && (clock <=? ci_end item) then day - 1 else day in
    match civilSecond (ci_location item) startDate (ci_start item) with
    | None => false
    | Some start => negb (second <? start) && negb (until_passed (Until (ci_repeat item)) second)
    end.

(** One day of the scan: whether the item has an instance that starts on it and covers the
    second. *)
Definition covers_from (item : compiledCalendarItem) (second day : Z) : bool :=
  let anchor := ci_start item in
  let location := ci_location item in
  matchesDate item day (local_day location anchor)
  && match civilSecond location day (local_clock location anchor) with
     | None => false
     | Some start =>
         (ci_start item <=? start) && negb (until_passed (Until (ci_repeat item)) start)
         && negb (bool_decide (encodedDate (ci_encodingLocation item) day ∈ ci_excluded item))
         && (start <=? second) && (second <=? start + (ci_end item - ci_start item))
     end.

(** The scan of [days] days from [day]: matched, known, and the budget left. *)
Fixpoint scan_days (item : compiledCalendarItem) (second : Z) (days : nat) (day budget : Z) : bool * bool * Z :=
  match days with
  | O => (false, true, budget)
  | S days =>
      if budget <=? 0 then (false, false, budget)
      else if covers_from item second day then (true, true, budget - 1)
      else scan_days item second days (day + 1) (budget - 1)
  end.

Definition item_matches (item : compiledCalendarItem) (second budget : Z) : bool * bool * Z :=
  if budget <=? 0 then (false, false, budget)
  else
    let budget := budget - 1 in
    if ci_daily item then (matchesDaily item second, true, budget)
    else if (Freq (ci_repeat item) =? "")%string then ((ci_start item <=? second) && (second <=? ci_end item), true, budget)
    else
      let first := local_day (ci_location item) (second - (ci_end item - ci_start item)) - 1 in
      let stop := local_day (ci_location item) second + 1 in
      scan_days item second (Z.to_nat (stop + 1 - first)) first budget.

(** ** The facts of calendars *)

Record CalendarFactRequest : Type := mkFactRequest {
  fr_TenantID : string;
  fr_CalendarID : Z;
  fr_EvaluationTime : Z;
}.

#[export] Instance CalendarFactRequest_eq_dec : EqDecision CalendarFactRequest.
Proof. solve_decision. Defined.

Record CalendarFact : Type := mkFact {
  fact_Request : CalendarFactRequest;
  Known : bool;
  fact_Matched : bool;
  fact_Revision : string;
  fact_ValidFrom : Z;
  fact_ValidUntil : Z;
}.

(** The items in order, to the first that matches or is not known. *)
Fixpoint scan_items (items : list compiledCalendarItem) (second budget : Z) : bool * bool * Z :=
  match items with
  | [] => (false, true, budget)
  | item :: items =>
      match item_matches item second budget with
      | (_, false, budget) => (false, false, budget)
      | (true, true, budget) => (true, true, budget)
      | (false, true, budget) => scan_items items second budget
      end
  end.

(** One budget for all the requests. *)
Fixpoint calendar_facts (rules : compiledEffectiveRules) (requests : list CalendarFactRequest) (budget : Z) : list CalendarFact :=
  match requests with
  | [] => []
  | request :: requests =>
      let time := fr_EvaluationTime request in
      let '(matched, known, budget) := scan_items (default [] (rules_calendars rules !! fr_CalendarID request)) time budget in
      mkFact request (known && bool_decide (is_Some (rules_calendars rules !! fr_CalendarID request))) matched (rules_digest rules)
        time (time + 1) :: calendar_facts rules requests budget
  end.

Definition ResolveCalendarFacts (rules : compiledEffectiveRules) (requests : list CalendarFactRequest) : list CalendarFact :=
  calendar_facts rules requests effectiveRuleCandidateBudget.
