(* ===== verification/CalendarSpec.v ===== *)
(** What a calendar's item answers at a second: the bounded scan of days against every day
    there is, and what the budget is enough for. *)
From S2P Require Import Prelude Reason CalendarRules.

Open Scope Z_scope.

(** ** The reference *)

(** An instance of a repeating item: it starts on a day the rule names, at the anchor's
    wall-clock second. *)
Definition instance_at (item : compiledCalendarItem) (day start : Z) : Prop :=
  matchesDate item day (local_day (ci_location item) (ci_start item)) = true ∧
  civilSecond (ci_location item) day (local_clock (ci_location item) (ci_start item)) = Some start ∧
  ci_start item ≤ start ∧ until_passed (Until (ci_repeat item)) start = false ∧
  encodedDate (ci_encodingLocation item) day ∉ ci_excluded item.

Definition item_on (item : compiledCalendarItem) (second : Z) : Prop :=
  if ci_daily item then matchesDaily item second = true
  else if (Freq (ci_repeat item) =? "")%string then ci_start item ≤ second ≤ ci_end item
  else ∃ day start, instance_at item day start ∧ start ≤ second ≤ start + (ci_end item - ci_start item).

(** Between the second and one length of the item before it, the wall clock never went back
    by more than a day. *)
Definition zone_steady (location : Location) (from_ until : Z) : Prop :=
  ∀ a b, from_ ≤ a → a ≤ b → b ≤ until → location a - location b ≤ day_seconds.

Definition item_steady (item : compiledCalendarItem) (second : Z) : Prop :=
  zone_steady (ci_location item) (second - (ci_end item - ci_start item)) second.

(** ** Wall clocks *)

Lemma foldl_max_in (l : list Z) best r :
  foldl (λ best candidate, match best with Some b => Some (Z.max b candidate) | None => Some candidate end) best l = Some r →
  best = Some r ∨ r ∈ l.
Proof.
  revert best. induction l as [|x l IH]; intros best; cbn [foldl]; [by left|].
  intros [Hb|Hin]%IH; [|right; by right].
  destruct best as [b|]; injection Hb as <-; [|right; left].
  destruct (Z.max_spec b x) as [[_ ->]|[_ ->]]; [right; left|by left].
Qed.

(** What [civilSecond] answers shows the wall clock asked for. *)
Lemma civilSecond_local location day clock s :
  civilSecond location day clock = Some s → local location s = day * day_seconds + clock.
Proof. unfold civilSecond. intros [[=]|Hin]%foldl_max_in. by apply list_elem_of_filter in Hin as [? _]. Qed.

Lemma civilSecond_day location day clock s :
  0 ≤ clock < day_seconds → civilSecond location day clock = Some s → local_day location s = day.
Proof.
  intros Hc Hs%civilSecond_local. unfold local_day. rewrite Hs, Z.div_add_l by done. rewrite Z.div_small by done. lia.
Qed.

Lemma local_clock_bounds location s : 0 ≤ local_clock location s < day_seconds.
Proof. apply Z.mod_pos_bound. done. Qed.

(** A later instant is at most one day earlier on the wall. *)
Lemma local_day_mono location from_ until a b :
  zone_steady location from_ until → from_ ≤ a ≤ b → b ≤ until → local_day location a ≤ local_day location b + 1.
Proof.
  intros Hz [Hfrom Hab] Huntil. unfold local_day, local. pose proof (Hz a b Hfrom Hab Huntil) as Hd.
  rewrite <- (Z.div_add (b + location b) 1 day_seconds) by done. apply Z.div_le_mono; [done|]. lia.
Qed.

(** ** The scan *)

Lemma covers_from_spec item second day :
  covers_from item second day = true ↔
  ∃ start, instance_at item day start ∧ start ≤ second ≤ start + (ci_end item - ci_start item).
Proof.
  unfold covers_from, instance_at. destruct (matchesDate item day _); [|naive_solver].
  destruct (civilSecond _ day _) as [start|]; [|naive_solver]. cbn [andb]. split.
  - intros H. breflect. exists start. by split_and!.
  - intros (s & (_ & [= <-] & Hs & Hu & He) & Hl & Hr).
    rewrite Hu, (proj2 (Z.leb_le _ _) Hs), (proj2 (Z.leb_le _ _) Hl), (proj2 (Z.leb_le _ _) Hr).
    by rewrite bool_decide_eq_false_2.
Qed.

Lemma scan_days_spec item second days : ∀ day budget matched budget',
  scan_days item second days day budget = (matched, true, budget') →
  matched = true ↔ ∃ d, day ≤ d < day + Z.of_nat days ∧ covers_from item second d = true.
Proof.
  induction days as [|days IH]; intros day budget matched budget'; cbn [scan_days].
  { intros [= <- _]. split; [done|]. intros (d & ? & _). lia. }
  destruct (budget <=? 0); [done|]. destruct (covers_from item second day) eqn:Hcov.
  - intros [= <- _]. split; [|done]. intros _. exists day. split; [lia|done].
  - intros ->%IH. split; intros (d & Hd & Hc); exists d; (split; [|done]); [lia|].
    destruct (decide (d = day)) as [->|]; [congruence|lia].
Qed.

Lemma scan_days_known item second days : ∀ day budget,
  Z.of_nat days ≤ budget →
  ∃ matched budget', scan_days item second days day budget = (matched, true, budget') ∧ budget - Z.of_nat days ≤ budget'.
Proof.
  induction days as [|days IH]; intros day budget Hb; cbn [scan_days]; [exists false, budget; split; [done|lia]|].
  rewrite (proj2 (Z.leb_gt budget 0)) by lia. destruct (covers_from item second day); [exists true, (budget - 1); split; [done|lia]|].
  destruct (IH (day + 1) (budget - 1) ltac:(lia)) as (m & b & -> & Hle). exists m, b. split; [done|lia].
Qed.

(** The days of the scan hold every instance that covers the second. *)
Lemma scan_covers item second day start :
  item_steady item second → instance_at item day start → start ≤ second ≤ start + (ci_end item - ci_start item) →
  local_day (ci_location item) (second - (ci_end item - ci_start item)) - 1 ≤ day ≤ local_day (ci_location item) second + 1.
Proof.
  intros Hz (_ & Hs & _) Hcover. apply civilSecond_day in Hs; [|apply local_clock_bounds]. subst day.
  pose proof (local_day_mono _ _ _ start second Hz ltac:(lia) ltac:(lia)).
  pose proof (local_day_mono _ _ _ (second - (ci_end item - ci_start item)) start Hz ltac:(lia) ltac:(lia)). lia.
Qed.

(** ** One item *)

(** The candidates an item may cost. *)
Definition item_cost (item : compiledCalendarItem) (second : Z) : Z :=
  if ci_daily item || (Freq (ci_repeat item) =? "")%string then 1
  else 4 + local_day (ci_location item) second - local_day (ci_location item) (second - (ci_end item - ci_start item)).

Lemma item_matches_on item second budget matched budget' :
  item_steady item second → item_matches item second budget = (matched, true, budget') →
  matched = true ↔ item_on item second.
Proof.
  intros Hz. unfold item_matches, item_on. destruct (budget <=? 0); [done|].
  destruct (ci_daily item); [by intros [= <- _]|]. destruct (Freq (ci_repeat item) =? "")%string.
  - intros [= <- _]. rewrite andb_true_iff, !Z.leb_le. done.
  - intros ->%scan_days_spec. split.
    + intros (d & _ & (s & Hs & Hcov)%covers_from_spec). by exists d, s.
    + intros (d & s & Hs & Hcov). exists d. pose proof (scan_covers _ _ _ _ Hz Hs Hcov).
      split; [lia|]. apply covers_from_spec. by exists s.
Qed.

Lemma item_matches_known item second budget :
  item_steady item second → (ci_daily item = false → ci_start item ≤ ci_end item) →
  1 ≤ item_cost item second ∧
  (item_cost item second ≤ budget →
   ∃ matched budget', item_matches item second budget = (matched, true, budget') ∧ budget - item_cost item second ≤ budget').
Proof.
  intros Hz Horder. unfold item_cost, item_matches. destruct (ci_daily item) eqn:Hd; cbn [orb].
  { split; [lia|]. intros Hb. rewrite (proj2 (Z.leb_gt budget 0)) by lia. eexists _, _. split; [done|lia]. }
  destruct (Freq (ci_repeat item) =? "")%string.
  { split; [lia|]. intros Hb. rewrite (proj2 (Z.leb_gt budget 0)) by lia. eexists _, _. split; [done|lia]. }
  specialize (Horder eq_refl).
  pose proof (local_day_mono _ _ _ (second - (ci_end item - ci_start item)) second Hz ltac:(lia) ltac:(lia)) as Hmono.
  set (first := local_day _ (second - _)) in *. set (last := local_day _ second) in *. split; [lia|]. intros Hb.
  rewrite (proj2 (Z.leb_gt budget 0)) by lia.
  destruct (scan_days_known item second (Z.to_nat (last + 1 + 1 - (first - 1))) (first - 1) (budget - 1) ltac:(lia))
    as (m & b & -> & Hle). exists m, b. split; [done|lia].
Qed.

(** C31: an item of a calendar that the scan answers is on exactly when an instance of it, of
    whatever day, covers the second; the scan answers whenever the budget holds a day's
    candidate for every day of the instance's length and four more. *)
Theorem calendar_item_decides item second budget :
  item_steady item second → (ci_daily item = false → ci_start item ≤ ci_end item) →
  match item_matches item second budget with
  | (matched, known, _) =>
      (known = true → (matched = true ↔ item_on item second)) ∧ (known = false → budget < item_cost item second)
  end.
Proof.
  intros Hz Horder. destruct (item_matches item second budget) as [[matched known] budget'] eqn:E. split.
  - intros ->. by apply (item_matches_on _ _ _ _ _ Hz E).
  - intros ->. destruct (Z.lt_ge_cases budget (item_cost item second)) as [|Hb]; [done|exfalso].
    destruct (proj2 (item_matches_known item second budget Hz Horder) Hb) as (m & b & E' & _). congruence.
Qed.
