(* ===== verification/AlgorithmInput.v ===== *)
(** What an algorithm declares it reads (strategy/g4_contract.go, g4_compiler.go): the
    projection of a Plan's fields, and the inputs it requires, each validated. *)
From S2P Require Import Prelude.

Open Scope Z_scope.

(** ** Lists of fields (strategy/compiler.go) *)

Fixpoint equalStrings (lefts rights : list string) : bool :=
  match lefts, rights with
  | [], [] => true
  | l :: lefts, r :: rights => (l =? r)%string && equalStrings lefts rights
  | _, _ => false
  end.

Fixpoint sortedUnique_loop (previous : option string) (values : list string) (allowEmpty : bool) : bool :=
  match values with
  | [] => true
  | value :: values =>
      if (negb allowEmpty && (value =? "")%string)
         || match previous with Some previous => negb (str_ltb previous value) | None => false end
      then false
      else sortedUnique_loop (Some value) values allowEmpty
  end.

Definition sortedUnique (values : list string) (allowEmpty : bool) : bool := sortedUnique_loop None values allowEmpty.

Fixpoint contains (values : list string) (target : string) : bool :=
  match values with
  | [] => false
  | value :: values => (value =? target)%string || contains values target
  end.

(** ** The contracts *)

(** contract/v2_model.go. *)
Record InputProjectionV2 : Type := mkInputProjection {
  ip_DynamicDimensions : bool;
  ip_ValueFields : list string;
  ip_DimensionFields : list string;
  ip_BusinessIdentityField : string;
  ip_MultiValueAlignment : string;
  ip_DataUnit : string;
  ip_MissingValuePolicy : string;
}.

Definition AlgorithmInputPrimary : string := "PRIMARY".
Definition AlgorithmInputDependency : string := "ALGORITHM_DEPENDENCY".
Definition AlgorithmReadinessEager : string := "EAGER".
Definition AlgorithmReadinessFinalizedRequired : string := "FINALIZED_REQUIRED".

Record AlgorithmInputProjection : Type := mkProjectionFields {
  ai_ValueFields : list string;
  ai_DimensionFields : list string;
  ai_IdentityFields : list string;
}.

Definition projection_validate (projection : AlgorithmInputProjection) : result string unit :=
  fail_if (bool_decide (length (ai_ValueFields projection) = 0%nat) || negb (sortedUnique (ai_ValueFields projection) false)
           || negb (sortedUnique (ai_DimensionFields projection) true) || negb (sortedUnique (ai_IdentityFields projection) true))
    "strategy: invalid algorithm input projection"%string.

Record AlgorithmRelativeWindow : Type := mkRelativeWindow {
  StartOffsetSeconds : Z;
  EndOffsetSeconds : Z;
  HalfOpen : bool;
}.

Record AlgorithmNamedInputPoint : Type := mkNamedPoint {
  np_Name : string;
  np_OffsetSeconds : Z;
}.

Record AlgorithmInputRequirement : Type := mkRequirement {
  RequirementID : string;
  DatasetName : string;
  Role : string;
  ConsumerLevelID : Z;
  LogicalQueryRef : string;
  RelativeWindow : AlgorithmRelativeWindow;
  StepMillis : Z;
  AlignmentMillis : Z;
  ReadinessClass : string;
  req_InputProjection : AlgorithmInputProjection;
  PointOffsetsSeconds : list Z;
  NamedPoints : list AlgorithmNamedInputPoint;
}.

Fixpoint offsets_validate (previous : option Z) (offsets : list Z) : result string unit :=
  match offsets with
  | [] => Ok tt
  | offset :: offsets =>
      _ ← fail_if ((offset <=? 0) || match previous with Some previous => offset <=? previous | None => false end)
            "strategy: invalid algorithm input point offsets"%string;
      offsets_validate (Some offset) offsets
  end.

(** The points beside their offsets, the lists of one length. *)
Fixpoint points_validate (pointNames : gset string) (points : list AlgorithmNamedInputPoint) (offsets : list Z) : result string unit :=
  match points, offsets with
  | point :: points, offset :: offsets =>
      _ ← fail_if ((np_Name point =? "")%string || negb (np_OffsetSeconds point =? offset)) "strategy: invalid named input point"%string;
      _ ← fail_if (bool_decide (np_Name point ∈ pointNames)) "strategy: duplicate named input point"%string;
      points_validate ({[np_Name point]} ∪ pointNames) points offsets
  | _, _ => Ok tt
  end.

Definition requirement_validate (requirement : AlgorithmInputRequirement) : result string unit :=
  let window := RelativeWindow requirement in
  _ ← fail_if (negb (String.length (RequirementID requirement) =? 64)%nat || (DatasetName requirement =? "")%string
               || (ConsumerLevelID requirement =? 0) || (LogicalQueryRef requirement =? "")%string
               || (negb (Role requirement =? AlgorithmInputPrimary)%string && negb (Role requirement =? AlgorithmInputDependency)%string)
               || negb (HalfOpen window) || (EndOffsetSeconds window <=? StartOffsetSeconds window)
               || (StepMillis requirement <=? 0) || (AlignmentMillis requirement <=? 0)
               || (negb (ReadinessClass requirement =? AlgorithmReadinessEager)%string
                   && negb (ReadinessClass requirement =? AlgorithmReadinessFinalizedRequired)%string))
        "strategy: invalid algorithm input requirement"%string;
  _ ← projection_validate (req_InputProjection requirement);
  _ ← offsets_validate None (PointOffsetsSeconds requirement);
  _ ← fail_if (negb (length (NamedPoints requirement) =? length (PointOffsetsSeconds requirement))%nat)
        "strategy: named input points differ from offsets"%string;
  points_validate ∅ (NamedPoints requirement) (PointOffsetsSeconds requirement).

(** ** The inputs of one algorithm *)

Fixpoint requirements_loop (seen : gset string) (primary : Z) (requirements : list AlgorithmInputRequirement) : result string Z :=
  match requirements with
  | [] => Ok primary
  | requirement :: requirements =>
      _ ← requirement_validate requirement;
      _ ← fail_if (bool_decide (RequirementID requirement ∈ seen)) "strategy: duplicate algorithm input requirement"%string;
      requirements_loop ({[RequirementID requirement]} ∪ seen)
        (if (Role requirement =? AlgorithmInputPrimary)%string then primary + 1 else primary) requirements
  end.

Definition canonicalAlgorithmRequirements (requirements : list AlgorithmInputRequirement)
    : result string (list AlgorithmInputRequirement) :=
  primary ← requirements_loop ∅ 0 requirements;
  _ ← fail_if (negb (primary =? 1)) "strategy: one primary algorithm input is required"%string;
  Ok requirements.

Definition equalAlgorithmProjection (l r : AlgorithmInputProjection) : bool :=
  equalStrings (ai_ValueFields l) (ai_ValueFields r)
  && equalStrings (ai_DimensionFields l) (ai_DimensionFields r)
  && equalStrings (ai_IdentityFields l) (ai_IdentityFields r).

Fixpoint g4_loop (first : bool) (projection : AlgorithmInputProjection) (dependencyName : string)
    (requirements : list AlgorithmInputRequirement) : result string unit :=
  match requirements with
  | [] => Ok tt
  | requirement :: requirements =>
      _ ← fail_if (negb (equalAlgorithmProjection (req_InputProjection requirement) projection))
            "input requirement projection mismatch"%string;
      _ ← fail_if (negb first && (negb (Role requirement =? AlgorithmInputDependency)%string
                                  || negb (DatasetName requirement =? dependencyName)%string))
            "unexpected algorithm dependency"%string;
      g4_loop false projection dependencyName requirements
  end.

(** [projection] and [identityFields] of the compile context first. *)
Definition validateG4Inputs (plan : InputProjectionV2) (identityFields : list string) (projection : AlgorithmInputProjection)
    (requirements : list AlgorithmInputRequirement) (dependencyName : string) : result string (list AlgorithmInputRequirement) :=
  _ ← projection_validate projection;
  let want := mkProjectionFields (ip_ValueFields plan) (ip_DimensionFields plan) identityFields in
  _ ← fail_if (negb (equalAlgorithmProjection projection want)) "input projection does not match plan and identity contracts"%string;
  canonical ← canonicalAlgorithmRequirements requirements;
  match canonical with
  | [] => Err "primary input must be first and named primary"%string
  | first :: _ =>
      _ ← fail_if (negb (Role first =? AlgorithmInputPrimary)%string || negb (DatasetName first =? "primary")%string)
            "primary input must be first and named primary"%string;
      _ ← g4_loop true projection dependencyName canonical;
      _ ← fail_if ((dependencyName =? "")%string && negb (length canonical =? 1)%nat) "primary-only algorithm has dependency"%string;
      Ok canonical
  end.
