(* ===== verification/Predicate.v ===== *)
(** The threshold predicate (strategy/types.go, [Predicate] and [predicateNode]): its
    evaluation on a normalized value, the check a compiled one passes first, and the
    wire form its digest is taken of. *)
From Stdlib Require Import Ascii QArith.
From S2P Require Import Prelude Reason Decimal.

Open Scope Z_scope.

Definition PredicateAny : string := "ANY".
Definition PredicateAll : string := "ALL".
Definition PredicateCompare : string := "COMPARE".

Inductive predicateNode : Type :=
  mkNode (node_kind node_operator : string) (node_threshold : NormalizedNumber) (node_children : list predicateNode).

Definition node_kind (n : predicateNode) : string := let '(mkNode kind _ _ _) := n in kind.
Definition node_children (n : predicateNode) : list predicateNode := let '(mkNode _ _ _ children) := n in children.

Record Predicate : Type := mkPredicate {
  root : predicateNode;
  pred_digest : string;
  validated : bool;
}.

Record PredicateEvaluation : Type := mkEvaluation {
  matched : bool;
  matchedGroup : Z;
  predicateDigest : string;
}.

Definition validOperator (operator : string) : bool :=
  bool_decide (operator ∈ ["GT"; "GTE"; "EQ"; "NEQ"; "LT"; "LTE"]%string).

(** ** Evaluation *)

(** The loops over the children: the first that matches, the first that does not. *)
Fixpoint any_match {A} (f : A → result string bool) (l : list A) : result string bool :=
  match l with
  | [] => Ok false
  | x :: l => m ← f x; if (m : bool) then Ok true else any_match f l
  end.

Fixpoint all_match {A} (f : A → result string bool) (l : list A) : result string bool :=
  match l with
  | [] => Ok true
  | x :: l => m ← f x; if (m : bool) then all_match f l else Ok false
  end.

Definition invariant_violated : string := "strategy: predicate invariant violated".

Definition compare_matches (operator : string) (comparison : Z) : result string bool :=
  if (operator =? "GT")%string then Ok (0 <? comparison)
  else if (operator =? "GTE")%string then Ok (0 <=? comparison)
  else if (operator =? "EQ")%string then Ok (comparison =? 0)
  else if (operator =? "NEQ")%string then Ok (negb (comparison =? 0))
  else if (operator =? "LT")%string then Ok (comparison <? 0)
  else if (operator =? "LTE")%string then Ok (comparison <=? 0)
  else Err invariant_violated.

Fixpoint node_evaluate (value : NormalizedNumber) (n : predicateNode) : result string bool :=
  match n with
  | mkNode kind operator threshold children =>
      if (kind =? PredicateAny)%string then any_match (node_evaluate value) children
      else if (kind =? PredicateAll)%string then all_match (node_evaluate value) children
      else if (kind =? PredicateCompare)%string then compare_matches operator (compare value threshold)
      else Err invariant_violated
  end.

(** The index of the first group that matches, -1 when none does. *)
Fixpoint first_group (f : predicateNode → result string bool) (index : Z) (children : list predicateNode) : result string Z :=
  match children with
  | [] => Ok (-1)
  | child :: children => m ← f child; if (m : bool) then Ok index else first_group f (index + 1) children
  end.

Definition Evaluate (p : Predicate) (value : NormalizedNumber) : result string PredicateEvaluation :=
  if negb (validated p) || negb (String.length (pred_digest p) =? 64)%nat then
    Err "strategy: predicate is not a validated compiled value"%string
  else if (node_kind (root p) =? PredicateAny)%string then
    group ← first_group (node_evaluate value) 0 (node_children (root p));
    Ok (mkEvaluation (0 <=? group) group (pred_digest p))
  else
    m ← node_evaluate value (root p);
    Ok (mkEvaluation m (if (m : bool) then 0 else -1) (pred_digest p)).

Definition zero_number : NormalizedNumber := mkNumber false 0 0.

(** ** Validation *)

Fixpoint sum_nodes (f : predicateNode → result string Z) (nodes : Z) (children : list predicateNode) : result string Z :=
  match children with
  | [] => Ok nodes
  | child :: children => n ← f child; sum_nodes f (nodes + n) children
  end.

Fixpoint node_validate (n : predicateNode) : result string Z :=
  match n with
  | mkNode kind operator _ children =>
      if (kind =? PredicateAny)%string || (kind =? PredicateAll)%string then
        if bool_decide (length children = 0%nat) || negb (operator =? "")%string then Err "strategy: invalid predicate branch"%string
        else sum_nodes node_validate 1 children
      else if (kind =? PredicateCompare)%string then
        if negb (bool_decide (length children = 0%nat)) || negb (validOperator operator) then Err "strategy: invalid predicate comparison"%string
        else Ok 1
      else Err "strategy: unknown predicate node"%string
  end.

(** ** The wire form *)

Inductive predicateWire : Type :=
  mkWire (wire_kind wire_operator : string) (normalizedThreshold : option string) (wire_children : list predicateWire).

Fixpoint wire (n : predicateNode) : predicateWire :=
  match n with
  | mkNode kind operator threshold children =>
      mkWire kind operator (if (kind =? PredicateCompare)%string then Some (CanonicalDecimal threshold) else None) (wire <$> children)
  end.
