(* ===== verification/ThresholdCompiler.v ===== *)
(** The compilation of a threshold algorithm (strategy/registry.go,
    [thresholdAlgorithmCompiler]) and the check every compiler's output passes before
    it is used (strategy/compiler.go, [validateAlgorithmCompileResult]). *)
From S2P Require Import Prelude Reason Decimal AlgorithmInput Predicate.

Open Scope Z_scope.

Definition LevelConnectorAND : string := "AND".
Definition LevelConnectorOR : string := "OR".
Definition EvaluationScopeSeries : string := "SERIES".

Definition DetectorKindThreshold : string := "Threshold".
Definition DetectorKindSimpleRingRatio : string := "SimpleRingRatio".
Definition DetectorKindOsRestart : string := "OsRestart".
Definition DetectorKindProcPort : string := "ProcPort".
Definition SourceAlgorithmFamilyPingUnreachable : string := "ping_unreachable".
Definition SourceMappingPingUnreachableV1 : string := "ping-unreachable-to-threshold-v1".

(** The kinds of strategy/traditional_comparison.go. *)
Definition IsTraditionalComparison (kind : string) : bool :=
  bool_decide (kind ∈ ["SimpleYearRound"; "AdvancedRingRatio"; "AdvancedYearRound";
                       "RingRatioAmplitude"; "YearRoundAmplitude"; "YearRoundRange"]%string).

(** ** Data (strategy/types.go, g4_contract.go, contract/v2_model.go) *)

Record ExecutionSemanticsV2 : Type := mkSemantics {
  EvaluationScope : string;
  QueryWindow : Z;
  AggregationInterval : Z;
  EvaluationInterval : Z;
  LatenessTolerance : Z;
}.

Record Limits : Type := mkLimits {
  MaxLevelsPerPlan : Z;
  MaxAlgorithmsPerLevel : Z;
  MaxGroupsPerAlgorithm : Z;
  MaxConditionsPerAlgorithm : Z;
  MaxASTNodesPerLevel : Z;
  MaxTriggerWindowSize : Z;
  MaxRecoveryConsecutiveWindows : Z;
  MaxRequiredHistoryPoints : Z;
  MaxRetainedPointsByLevels : list Z;
  MaxTriggerComputeCost : Z;
  MaxPlanBytes : Z;
  MaxCompiledPlanBytes : Z;
}.

Record DetectorSpec : Type := mkSpec {
  spec_kind : string;
  spec_version : Z;
  spec_valueRef : string;
  spec_normalizerRef : string;
  spec_predicate : Predicate;
  declaredExecutorErrors : list string;
}.

Definition no_detector : DetectorSpec := mkSpec "" 0 "" "" (mkPredicate (mkNode "" "" zero_number []) "" false) [].

Record detectorSemantic : Type := mkSemantic {
  ds_Kind : string;
  ds_Version : Z;
  ds_ValueRef : string;
  ds_Normalizer : NumericNormalizerSpec;
  ds_Predicate : predicateWire;
  ds_DeclaredExecutorErrors : list string;
}.

Definition semantic (s : DetectorSpec) (normalizer : NumericNormalizerSpec) : detectorSemantic :=
  mkSemantic (spec_kind s) (spec_version s) (spec_valueRef s) normalizer (wire (root (spec_predicate s))) (declaredExecutorErrors s).

Record AlgorithmSourceProvenance : Type := mkProvenance {
  SourceAlgorithmFamily : string;
  SourceMappingVersion : string;
  CanonicalQueryDigest : string;
}.

(** The other algorithms' configurations by their JSON. *)
Record compiledAlgorithmConfig : Type := mkConfig {
  cfg_TraditionalComparison : option string;
  cfg_Threshold : option detectorSemantic;
  cfg_SimpleRingRatio : option string;
  cfg_OsRestart : option string;
  cfg_ProcPort : option string;
  cfg_SourceProvenance : option AlgorithmSourceProvenance;
}.

Record AlgorithmCompileContext : Type := mkContext {
  cc_Projection : InputProjectionV2;
  cc_IdentityFields : list string;
  cc_ExecutionSemantics : ExecutionSemanticsV2;
  cc_Limits : Limits;
}.

Record AlgorithmCompileResult : Type := mkCompiled {
  cr_Detector : DetectorSpec;
  cr_Normalizer : NumericNormalizerSpec;
  cr_Config : compiledAlgorithmConfig;
  cr_InputProjection : AlgorithmInputProjection;
  cr_InputRequirements : list AlgorithmInputRequirement;
  CompilerVersion : string;
  ProofVersion : string;
  ASTNodes : Z;
}.

Record AlgorithmCapability : Type := mkCapability {
  cap_Kind : string;
  cap_Version : Z;
  cap_EvaluationScope : string;
  InputShape : string;
  RequiredHistoryKind : string;
  cap_StateSchemaVersion : string;
  Deterministic : bool;
  ExternalCallBudget : Z;
  FixedComputeCost : Z;
  CostPerRecord : Z;
}.

Definition threshold_capability : AlgorithmCapability :=
  mkCapability DetectorKindThreshold 1 EvaluationScopeSeries "ROW" "NONE" "threshold-stateless-v1" true 0 1 1.

Record thresholdCondition : Type := mkThreshold {
  Operator : string;
  ThresholdDecimal : string;
}.

Record thresholdConfigV1 : Type := mkThresholdConfig {
  ValueField : string;
  DataUnit : string;
  ThresholdUnitPrefix : option string;
  DecimalPlaces : Z;
  Rounding : string;
  Groups : list (list thresholdCondition);
  tc_SourceAlgorithmFamily : string;
  tc_SourceMappingVersion : string;
  tc_CanonicalQueryDigest : string;
  tc_InputProjection : option AlgorithmInputProjection;
  Requirements : list AlgorithmInputRequirement;
}.

(** ** Compilation *)

(** [errAlgorithmBudget], [errAlgorithmConfig] with what it says, or another error. *)
Inductive CompileError : Type :=
  | AlgorithmBudget
  | AlgorithmConfig (detail : string)
  | CompileFailed (detail : string).

Definition compile_condition (thresholdMultiplier : Z) (condition : thresholdCondition) : result CompileError predicateNode :=
  _ ← fail_if (negb (validOperator (Operator condition))) (AlgorithmConfig "unsupported operator");
  match parseDecimalRational (ThresholdDecimal condition) false with
  | None => Err (AlgorithmConfig "invalid decimal")
  | Some value =>
      match normalizeRational value thresholdMultiplier with
      | None => Err (AlgorithmConfig "decimal normalization overflow")
      | Some normalized => Ok (mkNode PredicateCompare (Operator condition) normalized [])
      end
  end.

Fixpoint compile_conditions (thresholdMultiplier : Z) (conditions : list thresholdCondition)
    : result CompileError (list predicateNode) :=
  match conditions with
  | [] => Ok []
  | condition :: conditions =>
      node ← compile_condition thresholdMultiplier condition;
      nodes ← compile_conditions thresholdMultiplier conditions;
      Ok (node :: nodes)
  end.

(** [counted] is the number of conditions of the groups before. *)
Fixpoint compile_groups (maxConditions thresholdMultiplier counted : Z) (groups : list (list thresholdCondition))
    : result CompileError (list predicateNode) :=
  match groups with
  | [] => Ok []
  | conditions :: groups =>
      _ ← fail_if (bool_decide (length conditions = 0%nat)) (AlgorithmConfig "empty group");
      let counted := counted + Z.of_nat (length conditions) in
      _ ← fail_if (maxConditions <? counted) AlgorithmBudget;
      nodes ← compile_conditions thresholdMultiplier conditions;
      rest ← compile_groups maxConditions thresholdMultiplier counted groups;
      Ok (mkNode PredicateAll "" zero_number nodes :: rest)
  end.

(** The nodes counted as the tree is built: the root, each group, each condition. *)
Definition ast_nodes (groups : list (list thresholdCondition)) : Z :=
  1 + Z.of_nat (length groups) + Z.of_nat (length (concat groups)).

(** The inputs a threshold reads: the Plan's fields, or those of the mapped source. *)
Definition threshold_inputs (context : AlgorithmCompileContext) (config : thresholdConfigV1)
    : result CompileError (AlgorithmInputProjection * list AlgorithmInputRequirement * option AlgorithmSourceProvenance) :=
  if (tc_SourceAlgorithmFamily config =? "")%string then
    _ ← fail_if (negb (tc_SourceMappingVersion config =? "")%string || negb (tc_CanonicalQueryDigest config =? "")%string
                 || bool_decide (is_Some (tc_InputProjection config)) || negb (bool_decide (length (Requirements config) = 0%nat)))
          (AlgorithmConfig "incomplete source mapping provenance");
    Ok (mkProjectionFields (ip_ValueFields (cc_Projection context)) (ip_DimensionFields (cc_Projection context)) (cc_IdentityFields context),
        [], None)
  else
    let unsupported := AlgorithmConfig "unsupported source mapping provenance" in
    match tc_InputProjection config with
    | None => Err unsupported
    | Some projection =>
        _ ← fail_if (negb (tc_SourceAlgorithmFamily config =? SourceAlgorithmFamilyPingUnreachable)%string
                     || negb (tc_SourceMappingVersion config =? SourceMappingPingUnreachableV1)%string
                     || negb (String.length (tc_CanonicalQueryDigest config) =? 64)%nat) unsupported;
        match validateG4Inputs (cc_Projection context) (cc_IdentityFields context) projection (Requirements config) "" with
        | Ok [requirement] =>
            _ ← fail_if (negb (LogicalQueryRef requirement =? tc_CanonicalQueryDigest config)%string)
                  (AlgorithmConfig "source mapping input contract is invalid");
            Ok (projection, [requirement],
                Some (mkProvenance (tc_SourceAlgorithmFamily config) (tc_SourceMappingVersion config) (tc_CanonicalQueryDigest config)))
        | _ => Err (AlgorithmConfig "source mapping input contract is invalid")
        end
    end.

Section compile.
(** The canonical digests. *)
Variable normalizer_digest : NumericNormalizerSpec → option string.
Variable predicate_digest : predicateWire → option string.

(** [Compile] of what [decodeStrict] reads of the configuration, none when it refuses. *)
Definition compileThreshold (context : AlgorithmCompileContext) (decoded : option thresholdConfigV1)
    : result CompileError AlgorithmCompileResult :=
  match decoded with
  | None => Err (AlgorithmConfig "threshold config")
  | Some config =>
      let plan := cc_Projection context in
      let invalid := AlgorithmConfig "invalid projection, precision, or groups" in
      _ ← fail_if ((ValueField config =? "")%string || negb (contains (ip_ValueFields plan) (ValueField config))
                   || negb (DataUnit config =? ip_DataUnit plan)%string || negb (DecimalPlaces config =? 6)
                   || negb (Rounding config =? "HALF_EVEN")%string) invalid;
      match ThresholdUnitPrefix config with
      | None => Err invalid
      | Some prefix =>
          _ ← fail_if (bool_decide (length (Groups config) = 0%nat)
                       || (MaxGroupsPerAlgorithm (cc_Limits context) <? Z.of_nat (length (Groups config)))) invalid;
          '(inputProjection, inputRequirements, provenance) ← threshold_inputs context config;
          match compileUnitNormalizer normalizer_digest (DataUnit config) prefix with
          | None => Err (AlgorithmConfig "unsupported unit")
          | Some (normalizer, thresholdMultiplier) =>
              groups ← compile_groups (MaxConditionsPerAlgorithm (cc_Limits context)) thresholdMultiplier 0 (Groups config);
              let root := mkNode PredicateAny "" zero_number groups in
              match predicate_digest (wire root) with
              | None => Err (CompileFailed "threshold predicate digest")
              | Some predicateDigest =>
                  let spec := mkSpec DetectorKindThreshold 1 (ValueField config) (ref normalizer)
                                (mkPredicate root predicateDigest false) [] in
                  Ok (mkCompiled spec normalizer
                        (mkConfig None (Some (semantic spec normalizer)) None None None provenance)
                        inputProjection inputRequirements "threshold-compiler-v1" "requires-full-v1" (ast_nodes (Groups config)))
              end
          end
      end
  end.
End compile.

(** ** The check of a compiler's output *)

Definition compiledConfigMatchesKind (config : compiledAlgorithmConfig) (kind : string) : bool :=
  let configured := [bool_decide (is_Some (cfg_Threshold config)); bool_decide (is_Some (cfg_SimpleRingRatio config));
                     bool_decide (is_Some (cfg_OsRestart config)); bool_decide (is_Some (cfg_ProcPort config));
                     bool_decide (is_Some (cfg_TraditionalComparison config))] in
  if negb (length (filter (λ b : bool, b = true) configured) =? 1)%nat then false
  else if IsTraditionalComparison kind then bool_decide (is_Some (cfg_TraditionalComparison config))
  else if (kind =? DetectorKindThreshold)%string then bool_decide (is_Some (cfg_Threshold config))
  else if (kind =? DetectorKindSimpleRingRatio)%string then bool_decide (is_Some (cfg_SimpleRingRatio config))
  else if (kind =? DetectorKindOsRestart)%string then bool_decide (is_Some (cfg_OsRestart config))
  else if (kind =? DetectorKindProcPort)%string then bool_decide (is_Some (cfg_ProcPort config))
  else false.

Fixpoint all_requirements_valid (requirements : list AlgorithmInputRequirement) : bool :=
  match requirements with
  | [] => true
  | requirement :: requirements => is_ok (requirement_validate requirement) && all_requirements_valid requirements
  end.

(** The loop over the sorted reasons: each once, none when one is not catalogued. *)
Fixpoint canonical_reasons (canonical reasons : list string) : option (list string) :=
  match reasons with
  | [] => Some canonical
  | reason :: reasons =>
      if negb (LevelUnavailableReasonV2 reason) then None
      else canonical_reasons (if bool_decide (last canonical = Some reason) then canonical else canonical ++ [reason]) reasons
  end.

Definition validateAlgorithmCompileResult (raw_type : string) (raw_version : Z) (capability : AlgorithmCapability)
    (projection : InputProjectionV2) (r : AlgorithmCompileResult) : result string AlgorithmCompileResult :=
  let refuse := "strategy: invalid compiler output"%string in
  let detector := cr_Detector r in
  _ ← fail_if (negb (cap_Kind capability =? raw_type)%string || negb (cap_Version capability =? raw_version)
               || (CompilerVersion r =? "")%string || (ProofVersion r =? "")%string || (ASTNodes r <=? 0)
               || negb (is_ok (projection_validate (cr_InputProjection r)))
               || negb (equalStrings (ai_ValueFields (cr_InputProjection r)) (ip_ValueFields projection))
               || negb (equalStrings (ai_DimensionFields (cr_InputProjection r)) (ip_DimensionFields projection))
               || ((spec_kind detector =? "")%string && negb (compiledConfigMatchesKind (cr_Config r) raw_type))) refuse;
  _ ← fail_if (negb (all_requirements_valid (cr_InputRequirements r))) refuse;
  if (spec_kind detector =? "")%string then Ok r
  else
    let normalizer := cr_Normalizer r in
    _ ← fail_if (negb (spec_kind detector =? raw_type)%string || negb (spec_version detector =? raw_version)
                 || (spec_valueRef detector =? "")%string || negb (contains (ip_ValueFields projection) (spec_valueRef detector))
                 || (spec_normalizerRef detector =? "")%string || negb (spec_normalizerRef detector =? ref normalizer)%string
                 || negb (String.length (ref normalizer) =? 64)%nat || (sourceMultiplier normalizer <=? 0)
                 || negb (decimalPlaces normalizer =? 6) || negb (rounding normalizer =? "HALF_EVEN")%string) refuse;
    let predicate := spec_predicate detector in
    match node_validate (root predicate) with
    | Err _ => Err refuse
    | Ok nodes =>
        _ ← fail_if (negb (nodes =? ASTNodes r) || negb (String.length (pred_digest predicate) =? 64)%nat) refuse;
        match canonical_reasons [] (merge_sort String.le (declaredExecutorErrors detector)) with
        | None => Err refuse
        | Some reasons =>
            Ok (mkCompiled (mkSpec (spec_kind detector) (spec_version detector) (spec_valueRef detector) (spec_normalizerRef detector)
                              (mkPredicate (root predicate) (pred_digest predicate) true) reasons)
                  normalizer (cr_Config r) (cr_InputProjection r) (cr_InputRequirements r) (CompilerVersion r) (ProofVersion r) (ASTNodes r))
        end
    end.
