(* ===== verification/ThresholdSpec.v ===== *)
(** What a compiled threshold decides: the compiler's own check accepts what it
    compiles, and a value matches exactly when every condition of one of the
    configured groups holds between the rounded value and the rounded threshold,
    each in its own unit; the group reported is the first such. *)
From Stdlib Require Import Ascii QArith.
From S2P Require Import Prelude Reason Decimal DecimalSpec AlgorithmInput Predicate ThresholdCompiler.

Open Scope Z_scope.

(** ** The operators *)

Definition op_holds (operator : string) (a b : Z) : Prop :=
  (operator = "GT"%string ∧ b < a) ∨ (operator = "GTE"%string ∧ b ≤ a) ∨ (operator = "EQ"%string ∧ a = b) ∨
  (operator = "NEQ"%string ∧ a ≠ b) ∨ (operator = "LT"%string ∧ a < b) ∨ (operator = "LTE"%string ∧ a ≤ b).

#[export] Instance op_holds_dec operator a b : Decision (op_holds operator a b).
Proof. unfold op_holds. apply _. Defined.

Lemma compare_matches_spec operator a b :
  number_ok a → number_ok b → validOperator operator = true →
  compare_matches operator (compare a b) = Ok (bool_decide (op_holds operator (number_value a) (number_value b))).
Proof.
  intros Ha Hb Hop. rewrite compare_spec by done. unfold validOperator in Hop. breflect.
  repeat (apply elem_of_cons in Hop as [->|Hop]); [..|inversion Hop];
    unfold compare_matches, op_holds; cbn [String.eqb Ascii.eqb Bool.eqb]; f_equal; symmetry;
    destruct (Z.compare_spec (number_value a) (number_value b)); simpl;
    (apply bool_decide_eq_true || apply bool_decide_eq_false); naive_solver lia.
Qed.

(** ** Loops over children *)

(** [f] decides [P] of what the child was compiled from. *)
Definition decides {A B} (f : B → result string bool) (P : A → Prop) (x : A) (child : B) : Prop :=
  ∃ b : bool, f child = Ok b ∧ (b = true ↔ P x).

Lemma all_match_spec {A B} (f : B → result string bool) (P : A → Prop) l children :
  Forall2 (decides f P) l children → ∃ b : bool, all_match f children = Ok b ∧ (b = true ↔ Forall P l).
Proof.
  induction 1 as [|x child l children (b & Hf & Hb) _ IH]; cbn [all_match]; [by exists true|].
  rewrite Hf. cbn [mbind result_bind]. destruct b; [destruct IH as (b' & -> & Hb'); exists b'|exists false];
    rewrite Forall_cons; naive_solver.
Qed.

Lemma first_group_spec {A} (f : predicateNode → result string bool) (P : A → Prop) groups children index :
  Forall2 (decides f P) groups children → 0 ≤ index →
  ∃ g, first_group f index children = Ok g ∧
    ((g = -1 ∧ Forall (λ x, ¬ P x) groups) ∨
     ∃ k x, g = index + Z.of_nat k ∧ groups !! k = Some x ∧ P x ∧ Forall (λ x, ¬ P x) (take k groups)).
Proof.
  intros Hall. revert index. induction Hall as [|x child groups children (b & Hf & Hb) _ IH]; intros index Hi; cbn [first_group].
  - exists (-1). split; [done|]. left. by split.
  - rewrite Hf. cbn [mbind result_bind]. destruct b.
    + exists index. split; [done|]. right. exists 0%nat, x. split_and!; [lia|done|by apply Hb|done].
    + assert (¬ P x) by (by intros H%Hb). destruct (IH (index + 1) ltac:(lia)) as (g & -> & [[-> Hn]|(k & y & -> & Hk & Hy & Hn)]).
      * exists (-1). split; [done|]. left. split; [done|]. by constructor.
      * eexists. split; [done|]. right. exists (S k), y. split_and!; [lia|done|done|]. by constructor.
Qed.

(** ** Compiled conditions *)

Definition scale_of (multiplier : Z) : Q := inject_Z (multiplier * normalizedDecimalScale).

(** A condition of a configuration, of the number [z] a value was normalized to. *)
Definition condition_holds (multiplier z : Z) (c : thresholdCondition) : Prop :=
  ∃ m w, decimal_text (ThresholdDecimal c) m ∧ nearest_even (text_value m * scale_of multiplier) w ∧ op_holds (Operator c) z w.

Definition group_holds (multiplier z : Z) (conditions : list thresholdCondition) : Prop :=
  Forall (condition_holds multiplier z) conditions.

(** What a condition compiles to: its threshold rounded in its unit. *)
Definition compiled_condition (multiplier : Z) (c : thresholdCondition) (n : predicateNode) : Prop :=
  ∃ m threshold, decimal_text (ThresholdDecimal c) m ∧ number_ok threshold ∧
    nearest_even (text_value m * scale_of multiplier) (number_value threshold) ∧ validOperator (Operator c) = true ∧
    n = mkNode PredicateCompare (Operator c) threshold [].

Lemma parseDecimalRational_spec text q :
  parseDecimalRational text false = Some q → ∃ m, decimal_text text m ∧ (q == text_value m)%Q.
Proof.
  unfold parseDecimalRational. destruct (Nat.eqb_spec (String.length text) 0) as [|Hl]; [done|].
  destruct (128 <? String.length text)%nat; [done|]. cbn [orb]. intros (m & Hm & H)%bind_Some.
  exists m. split; [by apply decimalPattern_spec|].
  assert (text ≠ ""%string) as Hne by (by intros ->). pose proof (parse_spec text m Hne) as Hp.
  assert (parseDecimalRationalMatch text m true = Some q) as E.
  { revert H. unfold parseDecimalRationalMatch. cbn [negb andb]. rewrite orb_false_r.
    destruct (_ || _ || _) eqn:H1; [done|]. by apply orb_false_iff in H1 as [-> _]. }
  rewrite E in Hp. tauto.
Qed.

Lemma compile_condition_spec multiplier c n :
  0 < multiplier → compile_condition multiplier c = Ok n → compiled_condition multiplier c n.
Proof.
  intros Hm. unfold compile_condition. intros (u & Hop%fail_if_Ok & H)%bind_Ok. apply negb_false_iff in Hop.
  destruct (parseDecimalRational _ _) as [q|] eqn:Hq; [|done]. apply parseDecimalRational_spec in Hq as (m & Hd & Hq).
  destruct (normalizeRational q multiplier) as [threshold|] eqn:Hn; [|done]. injection H as <-.
  apply normalizeRational_spec in Hn as (Hok & _ & Hn); [|done]. rewrite Hq in Hn. by exists m, threshold.
Qed.

Lemma compile_conditions_spec multiplier conditions nodes :
  0 < multiplier → compile_conditions multiplier conditions = Ok nodes → Forall2 (compiled_condition multiplier) conditions nodes.
Proof.
  intros Hm. revert nodes. induction conditions as [|c conditions IH]; intros nodes; cbn [compile_conditions].
  - by intros [= <-].
  - intros (n & Hn & H)%bind_Ok. apply bind_Ok in H as (ns & Hns & [= <-]).
    constructor; [by apply compile_condition_spec|by apply IH].
Qed.

Definition compiled_group (multiplier : Z) (conditions : list thresholdCondition) (n : predicateNode) : Prop :=
  ∃ nodes, conditions ≠ [] ∧ n = mkNode PredicateAll "" zero_number nodes ∧ Forall2 (compiled_condition multiplier) conditions nodes.

Lemma compile_groups_spec maxConditions multiplier counted groups nodes :
  0 < multiplier → compile_groups maxConditions multiplier counted groups = Ok nodes →
  Forall2 (compiled_group multiplier) groups nodes.
Proof.
  intros Hm. revert counted nodes. induction groups as [|conditions groups IH]; intros counted nodes; cbn [compile_groups].
  - by intros [= <-].
  - intros (u & Hne%fail_if_Ok & H)%bind_Ok. apply bind_Ok in H as (u' & _ & H).
    apply bind_Ok in H as (ns & Hns & H). apply bind_Ok in H as (rest & Hrest & [= <-]).
    constructor; [|by eapply IH]. exists ns. split_and!; [|done|by apply compile_conditions_spec].
    intros ->. by rewrite bool_decide_eq_true_2 in Hne.
Qed.

(** A rounded number is one number. *)
Lemma compiled_condition_decides multiplier v c n :
  number_ok v → compiled_condition multiplier c n →
  decides (node_evaluate v) (condition_holds multiplier (number_value v)) c n.
Proof.
  intros Hv (m & t & Hd & Ht & Hn & Hop & ->). unfold decides. cbn [node_evaluate].
  change (PredicateCompare =? PredicateAny)%string with false.
  change (PredicateCompare =? PredicateAll)%string with false. rewrite String.eqb_refl, compare_matches_spec by done.
  eexists. split; [done|]. rewrite bool_decide_eq_true. split; [intros H; by exists m, (number_value t)|].
  intros (m' & w & Hd' & Hw & H). apply decimalPattern_spec in Hd, Hd'. assert (m' = m) as -> by congruence.
  by rewrite (nearest_even_unique _ _ _ Hn Hw).
Qed.

Lemma compiled_group_decides multiplier v conditions n :
  number_ok v → compiled_group multiplier conditions n →
  decides (node_evaluate v) (group_holds multiplier (number_value v)) conditions n.
Proof.
  intros Hv (nodes & _ & -> & Hall). unfold decides. cbn [node_evaluate]. apply all_match_spec.
  eapply Forall2_impl; [exact Hall|]. intros. by apply compiled_condition_decides.
Qed.

(** ** The compiler's own check *)

Lemma compile_multipliers digest unit prefix normalizer multiplier :
  compileUnitNormalizer digest unit prefix = Some (normalizer, multiplier) →
  0 < sourceMultiplier normalizer ∧ 0 < multiplier ∧ decimalPlaces normalizer = 6 ∧ rounding normalizer = "HALF_EVEN"%string ∧
  digest (mkNormalizer "" unit (targetUnit normalizer) (sourceMultiplier normalizer) 6 "HALF_EVEN") = Some (ref normalizer).
Proof.
  assert (∀ u spec i z, unitSpecFor u = Some spec → factorsToBase spec !! i = Some z → 0 < z) as Hpos.
  { intros u spec i z Hspec Hi. assert (Forall (λ z, 0 < z) (factorsToBase spec)) as Hall.
    { revert Hspec. unfold unitSpecFor. repeat case_bool_decide; repeat (case_match; try done); intros [= <-]; simpl; repeat constructor. }
    by eapply Forall_lookup_1 in Hall. }
  unfold compileUnitNormalizer. intros (spec & Hspec & H)%bind_Some. apply bind_Some in H as (thr & Hthr & H).
  apply bind_Some in H as (mult & Hmult & H). apply bind_Some in H as (d & Hd & [= <- <-]). simpl.
  split_and!; [by eapply Hpos| |done..]. destruct (_ && _); [|by injection Hthr as <-].
  apply bind_Some in Hthr as (i & _ & Hthr). by eapply Hpos.
Qed.

Lemma sum_nodes_spec {A} f (size : A → Z) l children acc :
  Forall2 (λ x child, f child = Ok (size x)) l children → sum_nodes f acc children = Ok (acc + foldr (λ x s, size x + s) 0 l).
Proof.
  intros H. revert acc. induction H as [|x child l children Hf _ IH]; intros acc; cbn [sum_nodes foldr]; [by rewrite Z.add_0_r|].
  rewrite Hf. cbn [mbind result_bind]. rewrite IH. f_equal. lia.
Qed.

Lemma group_validates multiplier conditions n :
  compiled_group multiplier conditions n → node_validate n = Ok (1 + Z.of_nat (length conditions)).
Proof.
  intros (nodes & Hne & -> & Hall). cbn [node_validate]. change (PredicateAll =? PredicateAny)%string with false.
  change (PredicateAll =? PredicateAll)%string with true. cbn [orb negb String.eqb].
  rewrite bool_decide_eq_false_2 by (rewrite <- (Forall2_length _ _ _ Hall); by destruct conditions). cbn [orb].
  rewrite (sum_nodes_spec node_validate (λ _, 1) conditions).
  - f_equal. clear. induction conditions as [|c conditions IH]; [done|]. cbn [foldr length]. lia.
  - eapply Forall2_impl; [exact Hall|]. intros c n (m & t & _ & _ & _ & Hop & ->). cbn [node_validate].
    change (PredicateCompare =? PredicateAny)%string with false. change (PredicateCompare =? PredicateAll)%string with false.
    change (PredicateCompare =? PredicateCompare)%string with true. cbn [orb]. by rewrite Hop.
Qed.

Lemma root_validates multiplier groups nodes :
  groups ≠ [] → Forall2 (compiled_group multiplier) groups nodes →
  node_validate (mkNode PredicateAny "" zero_number nodes) = Ok (ast_nodes groups).
Proof.
  intros Hne Hall. cbn [node_validate]. change (PredicateAny =? PredicateAny)%string with true. cbn [orb negb String.eqb].
  rewrite bool_decide_eq_false_2 by (rewrite <- (Forall2_length _ _ _ Hall); by destruct groups). cbn [orb].
  rewrite (sum_nodes_spec node_validate (λ conditions, 1 + Z.of_nat (length conditions)) groups).
  - f_equal. unfold ast_nodes. clear. induction groups as [|g groups IH]; [done|]. cbn [foldr length concat]. rewrite length_app. lia.
  - eapply Forall2_impl; [exact Hall|]. intros. by eapply group_validates.
Qed.

(** ** What [Compile] returns *)

Lemma equalStrings_spec lefts rights : equalStrings lefts rights = true ↔ lefts = rights.
Proof.
  revert rights. induction lefts as [|l lefts IH]; intros [|r rights]; cbn [equalStrings]; [done..|].
  rewrite andb_true_iff, IH, String.eqb_eq. naive_solver.
Qed.

Lemma contains_spec values target : contains values target = true ↔ target ∈ values.
Proof.
  induction values as [|value values IH]; cbn [contains]; [split; [done|by intros ?%elem_of_nil]|].
  rewrite orb_true_iff, IH, String.eqb_eq, elem_of_cons. naive_solver.
Qed.

Definition fields_of (context : AlgorithmCompileContext) : AlgorithmInputProjection :=
  mkProjectionFields (ip_ValueFields (cc_Projection context)) (ip_DimensionFields (cc_Projection context)) (cc_IdentityFields context).

Lemma requirements_loop_valid seen primary requirements n :
  requirements_loop seen primary requirements = Ok n → all_requirements_valid requirements = true.
Proof.
  revert seen primary. induction requirements as [|r requirements IH]; intros seen primary; cbn [requirements_loop all_requirements_valid]; [done|].
  intros (u & Hr & H)%bind_Ok. apply bind_Ok in H as (u' & _ & H). rewrite Hr. by eapply IH.
Qed.

(** A mapped source reads the Plan's fields, and every input is valid. *)
Lemma validateG4Inputs_spec plan identityFields projection requirements dependencyName canonical :
  validateG4Inputs plan identityFields projection requirements dependencyName = Ok canonical →
  canonical = requirements ∧ projection_validate projection = Ok tt ∧
  projection = mkProjectionFields (ip_ValueFields plan) (ip_DimensionFields plan) identityFields ∧
  all_requirements_valid requirements = true.
Proof.
  unfold validateG4Inputs, canonicalAlgorithmRequirements. intros ([] & Hp & H)%bind_Ok.
  apply bind_Ok in H as (u & Heq%fail_if_Ok & H). apply bind_Ok in H as (c & Hc & H).
  apply bind_Ok in Hc as (n & Hn & Hc). apply bind_Ok in Hc as (u' & _ & [= <-]).
  apply requirements_loop_valid in Hn. destruct requirements as [|first requirements]; [done|].
  apply bind_Ok in H as (u2 & _ & H). apply bind_Ok in H as (u3 & _ & H). apply bind_Ok in H as (u4 & _ & [= <-]).
  split_and!; [done|done| |done]. apply negb_false_iff in Heq. unfold equalAlgorithmProjection in Heq. cbn in Heq.
  rewrite !andb_true_iff, !equalStrings_spec in Heq. destruct projection; cbn in *. by destruct Heq as [[-> ->] ->].
Qed.

Lemma threshold_inputs_spec context config projection requirements provenance :
  threshold_inputs context config = Ok (projection, requirements, provenance) →
  projection = fields_of context ∧ all_requirements_valid requirements = true.
Proof.
  unfold threshold_inputs. destruct (_ =? _)%string.
  - intros (u & _ & [= <- <- <-])%bind_Ok. done.
  - destruct (tc_InputProjection config) as [p|]; [|done]. intros (u & _ & H)%bind_Ok.
    destruct (validateG4Inputs _ _ _ _ _) as [[|r [|]]|] eqn:Hg; [done| |done..].
    apply bind_Ok in H as (u' & _ & [= <- <- <-]). apply validateG4Inputs_spec in Hg as (-> & _ & -> & Hv). done.
Qed.

Section compiled.
Context (normalizer_digest : NumericNormalizerSpec → option string) (predicate_digest : predicateWire → option string).

(** A configuration that compiled, with its unit, its groups and its digest. *)
Record compiles (context : AlgorithmCompileContext) (config : thresholdConfigV1) (r : AlgorithmCompileResult)
    (multiplier : Z) (nodes : list predicateNode) : Prop := mkCompiles {
  cs_groups : Groups config ≠ [];
  cs_nodes : Forall2 (compiled_group multiplier) (Groups config) nodes;
  cs_unit : compileUnitNormalizer normalizer_digest (DataUnit config) (default "" (ThresholdUnitPrefix config))%string
              = Some (cr_Normalizer r, multiplier);
  cs_detector : ∃ digest, predicate_digest (wire (mkNode PredicateAny "" zero_number nodes)) = Some digest ∧
    cr_Detector r = mkSpec DetectorKindThreshold 1 (ValueField config) (ref (cr_Normalizer r))
                      (mkPredicate (mkNode PredicateAny "" zero_number nodes) digest false) [];
  cs_field : ValueField config ≠ ""%string ∧ ValueField config ∈ ip_ValueFields (cc_Projection context);
  cs_inputs : cr_InputProjection r = fields_of context ∧ all_requirements_valid (cr_InputRequirements r) = true;
  cs_versions : CompilerVersion r = "threshold-compiler-v1"%string ∧ ProofVersion r = "requires-full-v1"%string;
  cs_ast : ASTNodes r = ast_nodes (Groups config);
}.

Lemma compileThreshold_compiles context config r :
  compileThreshold normalizer_digest predicate_digest context (Some config) = Ok r →
  ∃ multiplier nodes, compiles context config r multiplier nodes.
Proof.
  unfold compileThreshold. intros (u & Hg%fail_if_Ok & H)%bind_Ok.
  destruct (ThresholdUnitPrefix config) as [prefix|] eqn:Hprefix; [|done]. apply bind_Ok in H as (u' & Hg'%fail_if_Ok & H).
  apply bind_Ok in H as ([[projection requirements] provenance] & Hin%threshold_inputs_spec & H).
  destruct (compileUnitNormalizer _ _ _) as [[n multiplier]|] eqn:Hunit; [|done].
  apply bind_Ok in H as (nodes & Hgroups & H). destruct (predicate_digest _) as [digest|] eqn:Hdig; [|done]. injection H as <-.
  pose proof (compile_multipliers _ _ _ _ _ Hunit) as (_ & Hm & _). apply compile_groups_spec in Hgroups; [|done].
  exists multiplier, nodes. rewrite !orb_false_iff, !negb_false_iff in Hg. destruct Hg as [[[[Hf Hc] _] _] _].
  apply orb_false_iff in Hg' as [Hne _]. apply bool_decide_eq_false in Hne. apply contains_spec in Hc. apply String.eqb_neq in Hf.
  split; cbn; [by intros E; rewrite E in Hne|done|by rewrite Hprefix|by exists digest|done|done|done|done].
Qed.

Lemma compiled_validates context config r multiplier nodes :
  (∀ n x, normalizer_digest n = Some x → String.length x = 64%nat) →
  (∀ w x, predicate_digest w = Some x → String.length x = 64%nat) →
  projection_validate (fields_of context) = Ok tt →
  compiles context config r multiplier nodes →
  ∃ digest r', String.length digest = 64%nat ∧ predicate_digest (wire (mkNode PredicateAny "" zero_number nodes)) = Some digest ∧
    validateAlgorithmCompileResult DetectorKindThreshold 1 threshold_capability (cc_Projection context) r = Ok r' ∧
    cr_Normalizer r' = cr_Normalizer r ∧ cr_InputProjection r' = cr_InputProjection r ∧ ASTNodes r' = ASTNodes r ∧
    cr_InputRequirements r' = cr_InputRequirements r ∧
    cr_Detector r' = mkSpec DetectorKindThreshold 1 (ValueField config) (ref (cr_Normalizer r))
                       (mkPredicate (mkNode PredicateAny "" zero_number nodes) digest true) [].
Proof.
  intros Hnd Hpd Hfields [Hne Hnodes Hunit (digest & Hdigest & Hdet) [Hf Hin] [Hproj Hreq] [Hcv Hpv] Hast].
  pose proof (compile_multipliers _ _ _ _ _ Hunit) as (Hsm & _ & Hplaces & Hround & Href). apply Hnd in Href as Hrlen.
  apply Hpd in Hdigest as Hlen. exists digest. unfold validateAlgorithmCompileResult. rewrite Hdet, Hproj, Hreq, Hcv, Hpv, Hast, Hfields. cbn [cap_Kind cap_Version threshold_capability].
  cbn [spec_kind spec_version spec_valueRef spec_normalizerRef spec_predicate declaredExecutorErrors root pred_digest].
  rewrite (root_validates _ _ _ Hne Hnodes), Hplaces, Hround, Hrlen, Hlen, (proj2 (Z.leb_gt _ _) Hsm), Z.eqb_refl, !String.eqb_refl.
  rewrite (proj2 (contains_spec _ _) Hin), (proj2 (String.eqb_neq _ _) Hf).
  assert ((ref (cr_Normalizer r) =? "")%string = false) as -> by (apply String.eqb_neq; intros E; by rewrite E in Hrlen).
  assert ((ast_nodes (Groups config) <=? 0) = false) as -> by (apply Z.leb_gt; unfold ast_nodes; lia).
  assert (∀ l, equalStrings l l = true) as Heq by (intros; by apply equalStrings_spec). cbn [fields_of ai_ValueFields ai_DimensionFields]. rewrite !Heq.
  eexists. split_and!; try done; by rewrite Hproj.
Qed.

Lemma compiled_evaluates config nodes multiplier digest v :
  Forall2 (compiled_group multiplier) (Groups config) nodes → number_ok v → String.length digest = 64%nat →
  ∃ e, Evaluate (mkPredicate (mkNode PredicateAny "" zero_number nodes) digest true) v = Ok e ∧ predicateDigest e = digest ∧
    (matched e = true ↔ Exists (group_holds multiplier (number_value v)) (Groups config)) ∧
    if matched e then
      ∃ k conditions, matchedGroup e = Z.of_nat k ∧ Groups config !! k = Some conditions ∧
        group_holds multiplier (number_value v) conditions ∧
        Forall (λ earlier, ¬ group_holds multiplier (number_value v) earlier) (take k (Groups config))
    else matchedGroup e = -1.
Proof.
  intros Hgroups Hv Hlen.
  destruct (first_group_spec (node_evaluate v) (group_holds multiplier (number_value v)) (Groups config) nodes 0) as (g & Hfirst & Hspec).
  { eapply Forall2_impl; [exact Hgroups|]. intros. by apply compiled_group_decides. } { lia. }
  exists (mkEvaluation (0 <=? g) g digest). split_and!; [|done| |].
  - unfold Evaluate. cbn [validated pred_digest root node_kind node_children negb orb]. by rewrite Hlen, Hfirst.
  - cbn [matched]. rewrite Z.leb_le, Exists_exists. destruct Hspec as [[-> Hn]|(k & x & -> & Hk & Hx & _)].
    + rewrite Forall_forall in Hn. split; [lia|]. by intros (x & Hx & Hh); destruct (Hn x Hx).
    + split; [|lia]. intros _. exists x. split; [by eapply list_elem_of_lookup_2|done].
  - cbn [matched matchedGroup]. destruct Hspec as [[-> _]|(k & x & -> & Hk & Hx & Hn)]; [done|].
    rewrite (proj2 (Z.leb_le 0 (0 + Z.of_nat k))) by lia. by exists k, x.
Qed.

(** C27: whatever threshold configuration compiles - its own or a mapped source's,
    over a Plan whose fields are a projection - passes the check its output needs
    before its predicate may be evaluated, and is then evaluated without error on
    every normalized value: it matches exactly when all the conditions of some group
    hold between the rounded value and the rounded thresholds, and names the first
    such group, or -1 when there is none. *)
Theorem threshold_decides context config r v :
  (∀ n x, normalizer_digest n = Some x → String.length x = 64%nat) →
  (∀ w x, predicate_digest w = Some x → String.length x = 64%nat) →
  projection_validate (fields_of context) = Ok tt →
  compileThreshold normalizer_digest predicate_digest context (Some config) = Ok r → number_ok v →
  ∃ r' multiplier e,
    validateAlgorithmCompileResult DetectorKindThreshold 1 threshold_capability (cc_Projection context) r = Ok r' ∧
    spec_valueRef (cr_Detector r') = ValueField config ∧
    compileUnitNormalizer normalizer_digest (DataUnit config) (default "" (ThresholdUnitPrefix config))%string
      = Some (cr_Normalizer r', multiplier) ∧
    Evaluate (spec_predicate (cr_Detector r')) v = Ok e ∧
    predicate_digest (wire (root (spec_predicate (cr_Detector r')))) = Some (predicateDigest e) ∧
    (matched e = true ↔ Exists (group_holds multiplier (number_value v)) (Groups config)) ∧
    if matched e then
      ∃ k conditions, matchedGroup e = Z.of_nat k ∧ Groups config !! k = Some conditions ∧
        group_holds multiplier (number_value v) conditions ∧
        Forall (λ earlier, ¬ group_holds multiplier (number_value v) earlier) (take k (Groups config))
    else matchedGroup e = -1.
Proof.
  intros Hnd Hpd Hfields Hc Hv. apply compileThreshold_compiles in Hc as (multiplier & nodes & Hc).
  destruct (compiled_validates _ _ _ _ _ Hnd Hpd Hfields Hc) as (digest & r' & Hlen & Hdigest & Hval & Hn & _ & _ & _ & Hdet).
  destruct (compiled_evaluates config nodes multiplier digest v (cs_nodes _ _ _ _ _ Hc) Hv Hlen) as (e & He & Hed & Hm & Hg).
  exists r', multiplier, e. rewrite Hdet, Hn. split_and!; [done|done|apply (cs_unit _ _ _ _ _ Hc)|done|cbn; by rewrite Hed|done|done].
Qed.
End compiled.
