(* ===== verification/TriggerEvent.v ===== *)
(** The evidence a trigger event carries and the contract it is checked against
    (contract/v2_model.go, contract/v2_outputs.go): the Level results, their
    validation, the aggregation to an event kind, the wire formats that have a
    message for it, and the field names its reader accepts. *)
From S2P Require Import Prelude Reason GoHash.

Open Scope Z_scope.

(** ** Level results *)

Definition LevelResultAbnormal : string := "ABNORMAL".
Definition LevelResultNormal : string := "NORMAL".
Definition LevelResultRecovery : string := "RECOVERY".
Definition TriggerEventAbnormal : string := "ABNORMAL".
Definition TriggerEventRecovery : string := "RECOVERY".

Record LevelDefinitionV2 : Type := mkDefinition {
  def_LevelID : Z;
  def_LevelCode : string;
  def_Priority : Z;
}.

#[export] Instance LevelDefinitionV2_eq_dec : EqDecision LevelDefinitionV2.
Proof. solve_decision. Defined.

Record TriggerWindowEvidenceV1 : Type := mkTriggerEvidence {
  tw_WindowStart : Z;
  tw_WindowEnd : Z;
  tw_WindowSize : Z;
  tw_RequiredAnomalies : Z;
  tw_ObservedAnomalies : Z;
  tw_AnomalyBeginTime : Z;
}.

Record RecoveryWindowEvidenceV1 : Type := mkRecoveryEvidence {
  rw_Enabled : bool;
  rw_RequiredConsecutiveWindows : Z;
  rw_ObservedConsecutiveMisses : Z;
  rw_OldestWindowStart : Z;
  rw_SkippedWindows : Z;
}.

Record WindowEvidenceV1 : Type := mkWindowEvidence {
  we_AnomalyTimestampsDigest : string;
  we_LateAccepted : bool;
}.

Record DecisionWindowV1 : Type := mkDecisionWindow {
  dw_Type : string;
  dw_Version : Z;
  dw_SourceTime : Z;
  dw_Trigger : TriggerWindowEvidenceV1;
  dw_Recovery : RecoveryWindowEvidenceV1;
  dw_HistoryCompleteness : string;
  dw_WindowEvidence : WindowEvidenceV1;
}.

(** [NormalizedValue] is the raw JSON text. *)
Record DetectEvidenceV1 : Type := mkDetectEvidence {
  de_DetectionResult : string;
  de_PredicateDigest : string;
  de_NormalizedValue : string;
  de_MatchedAlgorithmOrdinal : option Z;
  de_MatchedGroupOrdinal : option Z;
  de_ResultReason : string;
  de_EffectiveTimeStatus : string;
}.

Record LevelResultV1 : Type := mkLevelResult {
  lr_LevelID : Z;
  lr_LevelCode : string;
  lr_Priority : Z;
  lr_Result : string;
  lr_DecisionWindow : DecisionWindowV1;
  lr_DetectEvidence : DetectEvidenceV1;
  lr_LevelTriggerFingerprint : string;
}.

(** [^[0-9a-f]{64}$]. *)
Definition lower_hex_byte (c : Z) : bool := ((48 <=? c) && (c <=? 57)) || ((97 <=? c) && (c <=? 102)).
Definition sha256Pattern (s : string) : bool :=
  (String.length s =? 64)%nat && forallb lower_hex_byte (bytes_of_string s).

Section contract.
(** Whether [CanonicalJSONV2] accepts a raw JSON value. *)
Variable CanonicalJSONV2_accepts : string → bool.

Definition window_evidence_valid (window : DecisionWindowV1) : bool :=
  let t := dw_Trigger window in
  let r := dw_Recovery window in
  negb (negb (dw_Type window =? "N_OF_M_WITH_CONTINUOUS_MISS")%string || negb (dw_Version window =? 1)
        || (dw_SourceTime window <? 0)
        || (tw_WindowStart t <? 0) || (tw_WindowEnd t <? tw_WindowStart t) || (tw_WindowSize t =? 0)
        || negb (tw_WindowEnd t =? dw_SourceTime window)
        || (tw_RequiredAnomalies t =? 0)
        || (tw_WindowSize t <? tw_ObservedAnomalies t)
        || (rw_OldestWindowStart r <? 0) || (dw_SourceTime window <? rw_OldestWindowStart r)
        || negb (sha256Pattern (we_AnomalyTimestampsDigest (dw_WindowEvidence window)))).

Definition triggerSatisfied (window : DecisionWindowV1) : bool :=
  tw_RequiredAnomalies (dw_Trigger window) <=? tw_ObservedAnomalies (dw_Trigger window).

Definition recoverySatisfied (window : DecisionWindowV1) : bool :=
  let r := dw_Recovery window in
  rw_Enabled r && (rw_RequiredConsecutiveWindows r <=? rw_ObservedConsecutiveMisses r).

Definition expectedResult (window : DecisionWindowV1) (detect : DetectEvidenceV1) : string :=
  if (de_DetectionResult detect =? "ANOMALOUS")%string && triggerSatisfied window then LevelResultAbnormal
  else if negb (triggerSatisfied window) && recoverySatisfied window then LevelResultRecovery
  else LevelResultNormal.

(** One Level result, after the one of ID [previous] unless it is the first. *)
Definition validate_level_result (first : bool) (previous : Z) (r : LevelResultV1) : result string unit :=
  let window := lr_DecisionWindow r in
  let detect := lr_DetectEvidence r in
  _ ← fail_if ((lr_LevelID r =? 0) || (lr_Priority r =? 0) || (negb first && (lr_LevelID r <=? previous)))
        "Level ids must be positive, sorted and unique";
  _ ← fail_if (negb (sha256Pattern (lr_LevelTriggerFingerprint r)))
        "must be 64 lowercase hexadecimal characters";
  _ ← fail_if (negb (bool_decide (lr_Result r ∈ [LevelResultAbnormal; LevelResultNormal; LevelResultRecovery])))
        "only successful active three-state results are allowed";
  _ ← fail_if (negb (window_evidence_valid window)) "contains invalid bounded window evidence";
  _ ← fail_if (negb (bool_decide (dw_HistoryCompleteness window ∈ ["FULL"; "WARMING"; "GAPPED"]%string)))
        "must be FULL, WARMING or GAPPED";
  _ ← fail_if (rw_Enabled (dw_Recovery window) && (rw_RequiredConsecutiveWindows (dw_Recovery window) =? 0))
        "enabled recovery requires a positive window count";
  _ ← fail_if (negb (bool_decide (de_DetectionResult detect ∈ ["ANOMALOUS"; "NORMAL"]%string))
               || negb (sha256Pattern (de_PredicateDigest detect))
               || (de_NormalizedValue detect =? "")%string
               || negb (de_EffectiveTimeStatus detect =? "ACTIVE")%string)
        "contains invalid successful active Detect evidence";
  _ ← fail_if (negb (CanonicalJSONV2_accepts (de_NormalizedValue detect))) "normalized value";
  _ ← fail_if (triggerSatisfied window && recoverySatisfied window) "trigger and recovery cannot both be satisfied";
  _ ← fail_if (negb (lr_Result r =? expectedResult window detect)%string)
        "does not match current Detect result and trigger/recovery window evidence";
  fail_if (negb (dw_HistoryCompleteness window =? "FULL")%string
           && negb (lr_Result r =? LevelResultAbnormal)%string
           && negb ((lr_Result r =? LevelResultRecovery)%string && recoverySatisfied window))
    "WARMING and GAPPED history permit only ABNORMAL and evidenced RECOVERY".

Fixpoint validate_level_results (first : bool) (previous : Z) (results : list LevelResultV1) : result string unit :=
  match results with
  | [] => Ok tt
  | r :: results =>
      _ ← validate_level_result first previous r;
      validate_level_results false (lr_LevelID r) results
  end.

Definition validateSuccessfulLevelResultsV1 (results : list LevelResultV1) : result string unit :=
  match results with
  | [] => Err "must contain at least one successful active Level result"%string
  | _ => validate_level_results true 0 results
  end.
End contract.

(** ** The event of a list of Level results *)

(** The first loop: the first ABNORMAL ends it. *)
Fixpoint event_kind (kind : string) (results : list LevelResultV1) : string :=
  match results with
  | [] => kind
  | r :: results =>
      if (lr_Result r =? LevelResultAbnormal)%string then TriggerEventAbnormal
      else event_kind (if (lr_Result r =? LevelResultRecovery)%string then TriggerEventRecovery else kind) results
  end.

(** The second: the least priority of that kind, the least Level ID among those. *)
Definition primary_step (kind : string) (st : Z * Z) (r : LevelResultV1) : Z * Z :=
  let '(primary, primaryPriority) := st in
  if negb (lr_Result r =? kind)%string then st
  else if (lr_Priority r <? primaryPriority)
          || ((lr_Priority r =? primaryPriority) && ((primary =? 0) || (lr_LevelID r <? primary)))
       then (lr_LevelID r, lr_Priority r) else st.

Definition aggregateTriggerEventV1 (results : list LevelResultV1) : result string (string * Z) :=
  let kind := event_kind "" results in
  if (kind =? "")%string then Err "all NORMAL results do not produce an event"%string
  else Ok (kind, (foldl (primary_step kind) (0, maxUint32) results).1).

(** ** Wire formats *)

Definition WireFormatPythonCompatible : string := "python_compatible".
Definition WireFormatTriggerEvent : string := "trigger_event_v1".
Definition WireFormatStandardRawEvent : string := "standard_raw_event".

Definition ResolveOutputWireFormat (format : string) (snapshotRevision : Z) : string :=
  if (format =? WireFormatTriggerEvent)%string then WireFormatStandardRawEvent
  else if (format =? "")%string then
    if 0 <? snapshotRevision then WireFormatStandardRawEvent else WireFormatPythonCompatible
  else format.

Definition EventHasMessage (format eventKind : string) : bool :=
  negb (format =? WireFormatPythonCompatible)%string || (eventKind =? TriggerEventAbnormal)%string.
Definition NoMessageFor (format eventKind : string) (compatibilityContext : bool) : bool :=
  negb (EventHasMessage format eventKind) && compatibilityContext.
Definition EventHasMessageAt (format eventKind : string) (offBoundary : bool) : bool :=
  EventHasMessage format eventKind && negb (offBoundary && (format =? WireFormatPythonCompatible)%string).
Definition NoMessageForAt (format eventKind : string) (compatibilityContext offBoundary : bool) : bool :=
  negb (EventHasMessageAt format eventKind offBoundary) && compatibilityContext.

(** [zone] gives the offset of the plan's location at an instant, 0 for UTC. *)
Definition CompatibleOffBoundary (evaluationInterval aggregationInterval : Z) (zone : Z → Z) (sourceTime : Z) : bool :=
  if (evaluationInterval <=? 0) || (aggregationInterval <=? 0) || (evaluationInterval =? aggregationInterval)
  then false
  else negb (Z.rem (i64 (sourceTime + zone sourceTime)) aggregationInterval =? 0).

(** ** The event *)

Record StrategySnapshotRef : Type := mkSnapshotRef {
  sr_TenantID : string;
  sr_BusinessID : Z;
  sr_StrategyID : Z;
  sr_Revision : Z;
}.

(** The compatibility context: its configuration is the Plan's, so only the
    timestamps are kept here. *)
Record LegacyEventContext : Type := mkLegacy {
  AnomalyTimestamps : list Z;
}.

(** The fields of [TriggerEventV1] this package reads or sets; [ev_Body] stands
    for the rest, which the builder fills in. *)
Record TriggerEventV1 (Body Subject : Type) : Type := mkEvent {
  ev_LegacyOutput : option LegacyEventContext;
  ev_Subject : option Subject;
  ev_WireFormat : string;
  ev_SignalType : string;
  ev_EventKind : string;
  ev_PrimaryLevelID : Z;
  ev_StrategyRef : option StrategySnapshotRef;
  ev_LevelResults : list LevelResultV1;
  ev_Body : Body;
}.
Arguments mkEvent {Body Subject}.
Arguments ev_LegacyOutput {Body Subject}.
Arguments ev_Subject {Body Subject}.
Arguments ev_WireFormat {Body Subject}.
Arguments ev_SignalType {Body Subject}.
Arguments ev_EventKind {Body Subject}.
Arguments ev_PrimaryLevelID {Body Subject}.
Arguments ev_StrategyRef {Body Subject}.
Arguments ev_LevelResults {Body Subject}.
Arguments ev_Body {Body Subject}.

(** [BuildTriggerEventV1]: the checks on the Level results and the kind, in their
    order. [evidence_bytes] is the length of [CanonicalJSONV2] of the results;
    [seal] derives the digests and the event ID, and makes the checks of
    [ValidateTriggerEventV1] on identity fields, from the fields fixed here. *)
Section build.
Context {Body Subject : Type}.
Variable CanonicalJSONV2_accepts : string → bool.
Variable evidence_bytes : list LevelResultV1 → result string Z.
Variable seal : string → option StrategySnapshotRef → list LevelResultV1 → Z → result string Body.

Definition BuildTriggerEventV1 (maxEvidenceBytes : Z) (eventKind : string) (strategyRef : option StrategySnapshotRef)
    (levelResults : list LevelResultV1) : result string (TriggerEventV1 Body Subject) :=
  _ ← fail_if (maxEvidenceBytes <=? 0) "must be positive";
  let results := stable_sort (ordered_by lr_LevelID) levelResults in
  _ ← validateSuccessfulLevelResultsV1 CanonicalJSONV2_accepts results;
  evidence ← evidence_bytes results;
  _ ← fail_if (maxEvidenceBytes <? evidence) "evidence exceeds admitted byte limit";
  '(computedKind, primary) ← aggregateTriggerEventV1 results;
  _ ← fail_if (negb (eventKind =? computedKind)%string) "does not match successful active Level results";
  body ← seal eventKind strategyRef results primary;
  Ok (mkEvent None None "" "" eventKind primary strategyRef results body).
End build.

Definition OutputWireFormatOf {B S} (event : TriggerEventV1 B S) : string :=
  ResolveOutputWireFormat (ev_WireFormat event)
    (match ev_StrategyRef event with Some ref => sr_Revision ref | None => 0 end).

(** The configuration inside the context is the Plan's and not nil where the
    context is attached. *)
Definition DroppedAtSink {B S} (event : TriggerEventV1 B S) : bool :=
  NoMessageFor (OutputWireFormatOf event) (ev_EventKind event)
    (match ev_LegacyOutput event with Some _ => true | None => false end).

(** ** The reader's field check

    An object is the list of its field names, each with whether its value is
    null; the checks over a map do not depend on its order beyond which of two
    messages refuses it, so one error stands for both. *)

Section reader.
Variable EqualFold : string → string → bool.

Definition validateJSONObjectFields (object : list (string * bool)) (required optional : list string)
    (allowUnknown : bool) : result string unit :=
  let known := required ++ optional in
  _ ← fail_if (negb (forallb (λ name, existsb (λ '(n, null), (n =? name)%string && negb null) object) required))
        "is required and must be non-null";
  fail_if (existsb (λ '(name, _),
             negb (bool_decide (name ∈ known)) && (existsb (EqualFold name) known || negb allowUnknown)) object)
    "unknown field for schema minor".
End reader.

(** The names [encoding/json] writes for [RecoveryWindowEvidenceV1], whose last
    field is [omitempty]. *)
Definition recovery_json_fields (r : RecoveryWindowEvidenceV1) : list (string * bool) :=
  [("enabled", false); ("required_consecutive_windows", false); ("observed_consecutive_misses", false);
   ("oldest_window_start", false)]%string
  ++ (if rw_SkippedWindows r =? 0 then [] else [("skipped_windows"%string, false)]).

(** The check [DecodeTriggerEventV1WithLimits] makes of that object. *)
Definition reader_accepts_recovery (EqualFold : string → string → bool) (r : RecoveryWindowEvidenceV1) : result string unit :=
  validateJSONObjectFields EqualFold (recovery_json_fields r)
    ["enabled"; "required_consecutive_windows"; "observed_consecutive_misses"; "oldest_window_start"]%string [] false.
