(* ===== verification/Detect.v ===== *)
(** Detection (detect/evaluator.go, record_core.go, threshold.go): a record's values
    normalized once per value and unit, each Level's detectors run on them, and the
    Level's fact combined from what they say, in three truth values. *)
From S2P Require Import Prelude Reason GapReason Decimal Predicate ThresholdCompiler TriggerEvent.

Open Scope Z_scope.


Definition FactResultAnomalous : string := "ANOMALOUS".
Definition FactResultNormal : string := "NORMAL".
Definition FactResultUnavailable : string := "UNAVAILABLE".
Definition FactResultError : string := "ERROR".

(** ** Detectors (detect/registry.go, strategy/types.go) *)

Record AlgorithmFact : Type := mkAlgorithmFact {
  Matched : bool;
  MatchedGroup : Z;
  af_PredicateDigest : string;
}.

Definition no_algorithm_fact : AlgorithmFact := mkAlgorithmFact false 0 "".

(** A detector's error: its context ended, a failure it names, or anything else, a
    recovered panic included. *)
Inductive DetectorError : Type :=
  | ContextEnded
  | Controlled (reasonCode : string)
  | OtherError.

(** The interface of a detector, as it is called: [callDetector]. *)
Class Detector : Type := callDetector : DetectorSpec → NormalizedNumber → result DetectorError AlgorithmFact.

(** [thresholdDetector.Evaluate], over a context that has ended or not. *)
Definition thresholdDetector (ended : bool) : Detector := λ spec value,
  if ended then Err ContextEnded
  else
    match Evaluate (spec_predicate spec) value with
    | Err _ => Err OtherError
    | Ok evaluation => Ok (mkAlgorithmFact (matched evaluation) (matchedGroup evaluation) (predicateDigest evaluation))
    end.

Record boundDetector : Type := mkBound {
  bd_spec : DetectorSpec;
  bd_detector : Detector;
  bd_normalizer : NumericNormalizerSpec;
}.

Record boundLevel : Type := mkBoundLevel {
  bl_definition : LevelDefinitionV2;
  bl_connector : string;
  bl_fingerprint : string;
  bl_detectors : list boundDetector;
}.

(** ** Facts (detect/model.go) *)

Record ThresholdEvidence : Type := mkThresholdEvidence {
  te_PredicateDigest : string;
  ProjectedValueOrdinal : Z;
  HasProjectedValue : bool;
  MatchedAlgorithmOrdinal : Z;
  HasMatchedAlgorithm : bool;
  MatchedGroupOrdinal : Z;
  HasMatchedGroup : bool;
  te_ResultReason : string;
}.

Definition no_evidence : ThresholdEvidence := mkThresholdEvidence "" 0 false 0 false 0 false "".

Record LevelFact : Type := mkLevelFact {
  lf_Definition : LevelDefinitionV2;
  lf_DetectFingerprint : string;
  lf_Result : string;
  lf_ReasonCode : string;
  lf_Evidence : ThresholdEvidence;
}.

Record ProjectedValue : Type := mkProjectedValue {
  pv_ValueRef : string;
  pv_NormalizerRef : string;
  pv_CanonicalDecimal : string;
  pv_Available : bool;
  pv_ReasonCode : string;
}.

(** ** Projections *)

Record projectionEntry : Type := mkProjection {
  pe_valueRef : string;
  pe_normalizerRef : string;
  pe_value : NormalizeResult;
}.

Definition projection_view (entry : projectionEntry) : ProjectedValue :=
  match pe_value entry with
  | Available value => mkProjectedValue (pe_valueRef entry) (pe_normalizerRef entry) (CanonicalDecimal value) true ""
  | Unavailable reason => mkProjectedValue (pe_valueRef entry) (pe_normalizerRef entry) "" false reason
  end.

Definition same_projection (spec : DetectorSpec) (entry : projectionEntry) : Prop :=
  pe_valueRef entry = spec_valueRef spec ∧ pe_normalizerRef entry = spec_normalizerRef spec.
#[export] Instance same_projection_dec spec entry : Decision (same_projection spec entry).
Proof. unfold same_projection. apply _. Defined.

(** [record.Value]: the JSON of a field, none when the record has no such field. *)
Notation RecordValueView := (string → option string).

Definition projectRecordValue (record : RecordValueView) (detector : boundDetector) (projections : list projectionEntry)
    : Z * projectionEntry * list projectionEntry :=
  let spec := bd_spec detector in
  match list_find (same_projection spec) projections with
  | Some (ordinal, entry) => (Z.of_nat ordinal, entry, projections)
  | None =>
      let entry := mkProjection (spec_valueRef spec) (spec_normalizerRef spec)
                     (Normalize (bd_normalizer detector) (default ""%string (record (spec_valueRef spec)))) in
      (Z.of_nat (length projections), entry, projections ++ [entry])
  end.

(** ** One Level *)

Inductive algorithmTruth : Type :=
  | algorithmTruthFalse
  | algorithmTruthTrue
  | algorithmTruthUnknown.

#[export] Instance algorithmTruth_eq_dec : EqDecision algorithmTruth.
Proof. solve_decision. Defined.

Fixpoint combine_and (unknown : bool) (truths : list algorithmTruth) : bool * bool :=
  match truths with
  | [] => (negb unknown, negb unknown)
  | algorithmTruthFalse :: _ => (false, true)
  | truth :: truths => combine_and (unknown || bool_decide (truth = algorithmTruthUnknown)) truths
  end.

Fixpoint combine_or (unknown : bool) (truths : list algorithmTruth) : bool * bool :=
  match truths with
  | [] => (false, negb unknown)
  | algorithmTruthTrue :: _ => (true, true)
  | truth :: truths => combine_or (unknown || bool_decide (truth = algorithmTruthUnknown)) truths
  end.

Definition combineAlgorithmTruth (connector : string) (truths : list algorithmTruth) : bool * bool :=
  if (connector =? LevelConnectorAND)%string then combine_and false truths else combine_or false truths.

Definition declaresReason (spec : DetectorSpec) (reason : string) : bool :=
  if (reason =? "")%string then false
  else
    let reasons := declaredExecutorErrors spec in
    let index := sort_Search (length reasons) (λ i, negb (str_ltb (default "" (reasons !! i))%string reason)) in
    bool_decide (reasons !! index = Some reason).

Inductive DetectError : Type :=
  | Canceled
  | InternalError (operation : string).

(** The variables of [evaluateLevel]'s loop. *)
Record level_state : Type := mkState {
  ls_matched : bool;
  ls_evidenceSet : bool;
  ls_unknown : bool;
  ls_terminal : bool;
  ls_unknownReason : string;
  ls_unknownEvidence : ThresholdEvidence;
  ls_evidenceFact : AlgorithmFact;
  ls_evidenceAlgorithm : Z;
  ls_evidenceProjection : Z;
  ls_evaluations : Z;
  ls_truths : list algorithmTruth;
}.

Definition level_start (connector : string) : level_state :=
  mkState (connector =? LevelConnectorAND)%string false false false "" no_evidence no_algorithm_fact 0 0 0 [].

(** An input without a truth: the reason replaces the Level's when it is stronger. *)
Definition note_unknown (ordinal : Z) (reason : string) (terminal : bool) (s : level_state) : level_state :=
  let stronger := strongerUnknownReason (ls_unknownReason s) reason in
  mkState (ls_matched s) (ls_evidenceSet s) true (ls_terminal s || terminal)
    (if stronger then reason else ls_unknownReason s)
    (if stronger then mkThresholdEvidence "" ordinal true 0 false 0 false reason else ls_unknownEvidence s)
    (ls_evidenceFact s) (ls_evidenceAlgorithm s) (ls_evidenceProjection s) (ls_evaluations s)
    (ls_truths s ++ [algorithmTruthUnknown]).

(** A truth: the first algorithm's fact is the evidence, until one decides. *)
Definition note_truth (connector : string) (index ordinal : Z) (fact : AlgorithmFact) (s : level_state) : level_state :=
  let truths := ls_truths s ++ [if Matched fact then algorithmTruthTrue else algorithmTruthFalse] in
  let evaluations := u64 (ls_evaluations s + 1) in
  let decides := if (connector =? LevelConnectorAND)%string then negb (Matched fact) else Matched fact in
  let chosen := decides && negb (ls_evidenceSet s) in
  mkState (if decides then negb (connector =? LevelConnectorAND)%string else ls_matched s)
    (ls_evidenceSet s || decides) (ls_unknown s) (ls_terminal s) (ls_unknownReason s) (ls_unknownEvidence s)
    (if chosen || (index =? 0) then fact else ls_evidenceFact s)
    (if chosen then u32 index else ls_evidenceAlgorithm s)
    (if chosen || (index =? 0) then ordinal else ls_evidenceProjection s)
    evaluations truths.

(** What a detector must not return. *)
Definition invalid_fact (spec : DetectorSpec) (fact : AlgorithmFact) : bool :=
  negb (String.length (af_PredicateDigest fact) =? 64)%nat || (MatchedGroup fact <? -1)
  || (negb (Matched fact) && negb (MatchedGroup fact =? -1))
  || ((spec_kind spec =? DetectorKindThreshold)%string && Matched fact && (MatchedGroup fact <? 0)).

Definition detector_step (record : RecordValueView) (connector : string) (index : Z) (bound : boundDetector)
    (s : level_state) (projections : list projectionEntry) : result DetectError (level_state * list projectionEntry) :=
  let '(ordinal, projection, projections) := projectRecordValue record bound projections in
  let ordinal := u32 ordinal in
  match pe_value projection with
  | Unavailable reason => Ok (note_unknown ordinal reason false s, projections)
  | Available value =>
      match bd_detector bound (bd_spec bound) value with
      | Err ContextEnded => Err Canceled
      | Err (Controlled reason) =>
          if declaresReason (bd_spec bound) reason then Ok (note_unknown ordinal reason true s, projections)
          else Err (InternalError "execute detector")
      | Err OtherError => Err (InternalError "execute detector")
      | Ok fact =>
          if invalid_fact (bd_spec bound) fact then Err (InternalError "execute detector")
          else Ok (note_truth connector index ordinal fact s, projections)
      end
  end.

Fixpoint detector_loop (record : RecordValueView) (connector : string) (index : Z) (detectors : list boundDetector)
    (s : level_state) (projections : list projectionEntry) : result DetectError (level_state * list projectionEntry) :=
  match detectors with
  | [] => Ok (s, projections)
  | bound :: detectors =>
      '(s, projections) ← detector_step record connector index bound s projections;
      detector_loop record connector (index + 1) detectors s projections
  end.

Definition decided_evidence (result : string) (detectors : list boundDetector) (s : level_state) : ThresholdEvidence :=
  if bool_decide (length detectors = 0%nat) then no_evidence
  else
    let anomalous := (result =? FactResultAnomalous)%string in
    let grouped := anomalous && (0 <=? MatchedGroup (ls_evidenceFact s)) in
    mkThresholdEvidence (af_PredicateDigest (ls_evidenceFact s)) (ls_evidenceProjection s) true
      (if anomalous then ls_evidenceAlgorithm s else 0) anomalous
      (if grouped then u32 (MatchedGroup (ls_evidenceFact s)) else 0) grouped "".

Definition level_fact (level : boundLevel) (s : level_state) : LevelFact :=
  let fact := mkLevelFact (bl_definition level) (bl_fingerprint level) in
  let decided result := fact result "" (decided_evidence result (bl_detectors level) s) in
  let '(combined, determined) := combineAlgorithmTruth (bl_connector level) (ls_truths s) in
  if determined then decided (if combined then FactResultAnomalous else FactResultNormal)
  else if ls_unknown s then
    fact (if ls_terminal s then FactResultError else FactResultUnavailable) (ls_unknownReason s) (ls_unknownEvidence s)
  else decided (if ls_matched s then FactResultAnomalous else FactResultNormal).

Definition evaluateLevel (record : RecordValueView) (level : boundLevel) (projections : list projectionEntry)
    : result DetectError (LevelFact * Z * list projectionEntry) :=
  '(s, projections) ← detector_loop record (bl_connector level) 0 (bl_detectors level) (level_start (bl_connector level)) projections;
  Ok (level_fact level s, ls_evaluations s, projections).

(** ** A Plan (detect/record_core.go) *)

Record CompiledAlgorithm : Type := mkAlgorithm {
  alg_kind : string;
  alg_version : Z;
}.

(** A compiled Level, by what detection reads of it. *)
Record DetectLevel : Type := mkDetectLevel {
  dl_definition : LevelDefinitionV2;
  dl_connector : string;
  dl_fingerprint : string;
  dl_detectors : list DetectorSpec;
  dl_algorithms : list CompiledAlgorithm;
}.

Record DetectPlan : Type := mkDetectPlan {
  dp_scope : string;
  dp_levels : list DetectLevel;
  dp_normalizers : gmap string NumericNormalizerSpec;
}.

Record PreparedPlan : Type := mkPrepared {
  pp_levels : list boundLevel;
  pp_detectorCount : Z;
  pp_namedInputCount : Z;
  pp_projectionCount : Z;
}.

Inductive PrepareError : Type :=
  | NotSeries
  | LevelsNotOrdered
  | DetectorUnavailable
  | NormalizerUnavailable
  | ThresholdUnavailable
  | NamedUnavailable
  | PlansDiffer.

(** The two registries: the standard detectors, and the kinds of named-input ones. *)
Record Registry : Type := mkRegistry {
  resolve : string → Z → option Detector;
  resolveNamedInput : string → Z → bool;
}.

(** [NewDefaultRegistry], for evaluations under a context that has ended or not. *)
Definition DefaultRegistry (ended : bool) : Registry :=
  mkRegistry
    (λ kind version, if (kind =? DetectorKindThreshold)%string && (version =? 1) then Some (thresholdDetector ended) else None)
    (λ kind version, ((kind =? DetectorKindSimpleRingRatio)%string || (kind =? DetectorKindOsRestart)%string
                      || (kind =? DetectorKindProcPort)%string || IsTraditionalComparison kind) && (version =? 1)).

Fixpoint levels_ordered (previous : option Z) (levels : list DetectLevel) : bool :=
  match levels with
  | [] => true
  | level :: levels =>
      let id := def_LevelID (dl_definition level) in
      match previous with Some previous => previous <? id | None => true end && levels_ordered (Some id) levels
  end.

Definition bind_detector (registry : Registry) (normalizers : gmap string NumericNormalizerSpec) (spec : DetectorSpec)
    : result PrepareError boundDetector :=
  match resolve registry (spec_kind spec) (spec_version spec) with
  | None => Err DetectorUnavailable
  | Some detector =>
      match normalizers !! spec_normalizerRef spec with
      | None => Err NormalizerUnavailable
      | Some normalizer => Ok (mkBound spec detector normalizer)
      end
  end.

Fixpoint bind_detectors (registry : Registry) (normalizers : gmap string NumericNormalizerSpec) (specs : list DetectorSpec)
    : result PrepareError (list boundDetector) :=
  match specs with
  | [] => Ok []
  | spec :: specs =>
      bound ← bind_detector registry normalizers spec;
      rest ← bind_detectors registry normalizers specs;
      Ok (bound :: rest)
  end.

(** The algorithms against the detectors: the standard ones met, and the named ones
    counted. *)
Fixpoint bind_algorithms (registry : Registry) (detectors standardIndex named : Z) (algorithms : list CompiledAlgorithm)
    : result PrepareError Z :=
  match algorithms with
  | [] => _ ← fail_if (negb (standardIndex =? detectors)) PlansDiffer; Ok named
  | algorithm :: algorithms =>
      if (alg_kind algorithm =? DetectorKindThreshold)%string then
        _ ← fail_if (detectors <=? standardIndex) ThresholdUnavailable;
        bind_algorithms registry detectors (standardIndex + 1) named algorithms
      else
        _ ← fail_if (negb (resolveNamedInput registry (alg_kind algorithm) (alg_version algorithm))) NamedUnavailable;
        bind_algorithms registry detectors standardIndex (u64 (named + 1)) algorithms
  end.

Fixpoint bind_levels (registry : Registry) (normalizers : gmap string NumericNormalizerSpec) (levels : list DetectLevel)
    (prepared : PreparedPlan) : result PrepareError PreparedPlan :=
  match levels with
  | [] => Ok prepared
  | level :: levels =>
      detectors ← bind_detectors registry normalizers (dl_detectors level);
      named ← bind_algorithms registry (Z.of_nat (length detectors)) 0 (pp_namedInputCount prepared) (dl_algorithms level);
      bind_levels registry normalizers levels
        (mkPrepared (pp_levels prepared ++ [mkBoundLevel (dl_definition level) (dl_connector level) (dl_fingerprint level) detectors])
           (u64 (pp_detectorCount prepared + Z.of_nat (length detectors))) named (pp_projectionCount prepared))
  end.

(** The distinct keys the Plan's detectors project. *)
Definition projection_keys (levels : list DetectLevel) : gset (string * string) :=
  list_to_set ((λ spec, (spec_valueRef spec, spec_normalizerRef spec)) <$> concat (dl_detectors <$> levels)).

Definition PreparePlan (registry : Registry) (plan : DetectPlan) : result PrepareError PreparedPlan :=
  _ ← fail_if (negb (dp_scope plan =? EvaluationScopeSeries)%string) NotSeries;
  _ ← fail_if (negb (levels_ordered None (dp_levels plan))) LevelsNotOrdered;
  prepared ← bind_levels registry (dp_normalizers plan) (dp_levels plan) (mkPrepared [] 0 0 0);
  Ok (mkPrepared (pp_levels prepared) (pp_detectorCount prepared) (pp_namedInputCount prepared)
        (u64 (Z.of_nat (size (projection_keys (dp_levels plan)))))).

Fixpoint level_loop (record : RecordValueView) (levels : list boundLevel) (facts : list LevelFact) (evaluations : Z)
    (projections : list projectionEntry) : result DetectError (list LevelFact * Z * list projectionEntry) :=
  match levels with
  | [] => Ok (facts, evaluations, projections)
  | level :: levels =>
      '(fact, count, projections) ← evaluateLevel record level projections;
      level_loop record levels (facts ++ [fact]) (u64 (evaluations + count)) projections
  end.

Definition EvaluatePreparedRecord (prepared : PreparedPlan) (record : RecordValueView)
    : result DetectError (list LevelFact * list ProjectedValue * Z) :=
  if negb (pp_namedInputCount prepared =? 0) then Err (InternalError "named inputs are required")
  else
    '(facts, evaluations, projections) ← level_loop record (pp_levels prepared) [] 0 [];
    Ok (facts, projection_view <$> (projections : list projectionEntry), evaluations).
