(* ===== verification/DetectSpec.v ===== *)
(** What a Level's fact says: with the detectors of the Level read one by one, without
    the projections shared between them, the result is their truths combined in three
    values, the reason of an undecided one is the fold of the reasons met, and the
    evidence names the detector that decided. *)
From S2P Require Import Prelude Reason GapReason Decimal DecimalSpec Predicate ThresholdCompiler TriggerEvent Detect.

Open Scope Z_scope.

(** ** What one detector says, read on its own *)

Inductive reading : Type :=
  | Decided (fact : AlgorithmFact)
  | Undecided (reason : string) (terminal : bool).

Definition reads (record : RecordValueView) (bound : boundDetector) : result DetectError reading :=
  match Normalize (bd_normalizer bound) (default "" (record (spec_valueRef (bd_spec bound))))%string with
  | Unavailable reason => Ok (Undecided reason false)
  | Available value =>
      match bd_detector bound (bd_spec bound) value with
      | Err ContextEnded => Err Canceled
      | Err (Controlled reason) =>
          if declaresReason (bd_spec bound) reason then Ok (Undecided reason true) else Err (InternalError "execute detector")
      | Err OtherError => Err (InternalError "execute detector")
      | Ok fact => if invalid_fact (bd_spec bound) fact then Err (InternalError "execute detector") else Ok (Decided fact)
      end
  end.

(** ** Shared projections *)

(** The projections of a record, made by a Plan whose normalizers [normalizer_of]
    names. *)
Definition faithful (normalizer_of : string → NumericNormalizerSpec) (record : RecordValueView)
    (projections : list projectionEntry) : Prop :=
  Forall (λ e, pe_value e = Normalize (normalizer_of (pe_normalizerRef e)) (default "" (record (pe_valueRef e)))%string) projections.

Definition bound_by (normalizer_of : string → NumericNormalizerSpec) (bound : boundDetector) : Prop :=
  bd_normalizer bound = normalizer_of (spec_normalizerRef (bd_spec bound)).

(** [k] is the place of the detector's projection. *)
Definition projected (projections : list projectionEntry) (bound : boundDetector) (k : nat) : Prop :=
  ∃ entry, projections !! k = Some entry ∧ same_projection (bd_spec bound) entry.

Lemma projected_prefix projections more bound k : projected projections bound k → projected (projections ++ more) bound k.
Proof. intros (e & He & Hs). exists e. split; [by apply lookup_app_l_Some|done]. Qed.

Lemma project_spec N record bound projections :
  faithful N record projections → bound_by N bound →
  ∃ k entry more,
    projectRecordValue record bound projections = (Z.of_nat k, entry, projections ++ more) ∧
    pe_value entry = Normalize (bd_normalizer bound) (default "" (record (spec_valueRef (bd_spec bound))))%string ∧
    projected (projections ++ more) bound k ∧ faithful N record (projections ++ more).
Proof.
  intros Hf Hb. unfold projectRecordValue.
  destruct (list_find _ projections) as [[k entry]|] eqn:Hfind.
  - apply list_find_Some in Hfind as (Hk & Hs & _). exists k, entry, []. rewrite app_nil_r.
    split_and!; [done| |by exists entry|done].
    apply (Forall_lookup_1 _ _ _ _ Hf) in Hk. destruct Hs as [H1 H2]. by rewrite Hb, Hk, H1, H2.
  - eexists _, _, [_]. split_and!; [done|done| |].
    + eexists. split; [by apply list_lookup_middle|by split].
    + apply Forall_app. split; [done|]. constructor; [|done]. cbn. by rewrite Hb.
Qed.

(** ** The loop, one reading at a time *)

Record step : Type := mkStep {
  st_bound : boundDetector;
  st_reading : reading;
  st_ordinal : nat;
}.

Definition says (b : bool) (x : step) : Prop := ∃ f, st_reading x = Decided f ∧ Matched f = b.
Definition silent (x : step) : Prop := ∃ r t, st_reading x = Undecided r t.
Definition fails (x : step) : Prop := ∃ r, st_reading x = Undecided r true.
Definition step_reason (x : step) : string := match st_reading x with Undecided r _ => r | Decided _ => "" end.
Definition step_truth (x : step) : algorithmTruth :=
  match st_reading x with
  | Undecided _ _ => algorithmTruthUnknown
  | Decided f => if Matched f then algorithmTruthTrue else algorithmTruthFalse
  end.

#[export] Instance says_dec b x : Decision (says b x).
Proof.
  refine (match st_reading x as r return st_reading x = r → _ with
          | Decided f => λ E, cast_if (decide (Matched f = b))
          | Undecided _ _ => λ E, right _ end eq_refl); unfold says; rewrite E; naive_solver.
Defined.

#[export] Instance fails_dec x : Decision (fails x).
Proof.
  refine (match st_reading x as r return st_reading x = r → _ with
          | Undecided _ true => λ E, left _ | _ => λ E, right _ end eq_refl); unfold fails; rewrite E; naive_solver.
Defined.

Definition absorb (connector : string) (index : nat) (x : step) (s : level_state) : level_state :=
  match st_reading x with
  | Undecided reason terminal => note_unknown (u32 (Z.of_nat (st_ordinal x))) reason terminal s
  | Decided fact => note_truth connector (Z.of_nat index) (u32 (Z.of_nat (st_ordinal x))) fact s
  end.

Lemma detector_step_reads N record connector index bound s projections :
  faithful N record projections → bound_by N bound →
  match reads record bound with
  | Err e => detector_step record connector (Z.of_nat index) bound s projections = Err e
  | Ok r => ∃ k more,
      detector_step record connector (Z.of_nat index) bound s projections =
        Ok (absorb connector index (mkStep bound r k) s, projections ++ more) ∧
      projected (projections ++ more) bound k ∧ faithful N record (projections ++ more)
  end.
Proof.
  intros Hf Hb. destruct (project_spec _ _ _ _ Hf Hb) as (k & entry & more & Hp & He & Hpr & Hf').
  unfold detector_step, reads. rewrite Hp, He. destruct (Normalize _ _) as [v|reason]; [|by exists k, more].
  destruct (bd_detector bound (bd_spec bound) v) as [f|[|reason|]]; [|done| |done].
  - destruct (invalid_fact _ f); [done|]. by exists k, more.
  - destruct (declaresReason _ _); [|done]. by exists k, more.
Qed.

Fixpoint absorb_all (connector : string) (index : nat) (trace : list step) (s : level_state) : level_state :=
  match trace with
  | [] => s
  | x :: trace => absorb_all connector (S index) trace (absorb connector index x s)
  end.

Fixpoint read_all (record : RecordValueView) (bounds : list boundDetector) : result DetectError (list reading) :=
  match bounds with
  | [] => Ok []
  | bound :: bounds => r ← reads record bound; rs ← read_all record bounds; Ok (r :: rs)
  end.

(** The detectors [bounds], what they said, and where their projections are. *)
Record traces (projections : list projectionEntry) (bounds : list boundDetector) (rs : list reading) (trace : list step) : Prop := mkTraces {
  traces_bounds : st_bound <$> trace = bounds;
  traces_readings : st_reading <$> trace = rs;
  traces_projected : Forall (λ x, projected projections (st_bound x) (st_ordinal x)) trace;
}.

Lemma detector_loop_reads N record connector bounds index s projections :
  faithful N record projections → Forall (bound_by N) bounds →
  match read_all record bounds with
  | Err e => detector_loop record connector (Z.of_nat index) bounds s projections = Err e
  | Ok rs => ∃ trace more,
      detector_loop record connector (Z.of_nat index) bounds s projections = Ok (absorb_all connector index trace s, projections ++ more) ∧
      traces (projections ++ more) bounds rs trace ∧ faithful N record (projections ++ more)
  end.
Proof.
  revert index s projections. induction bounds as [|bound bounds IH]; intros index s projections Hf Hb.
  { exists [], []. rewrite app_nil_r. split_and!; [done|by split|done]. }
  apply Forall_cons in Hb as [Hb Hbs]. pose proof (detector_step_reads N record connector index bound s projections Hf Hb) as Hstep.
  cbn [read_all detector_loop]. destruct (reads record bound) as [r|e]; cbn [mbind result_bind]; [|by rewrite Hstep].
  destruct Hstep as (k & more & -> & Hk & Hf'). cbn [mbind result_bind]. replace (Z.of_nat index + 1) with (Z.of_nat (S index)) by lia.
  specialize (IH (S index) (absorb connector index (mkStep bound r k) s) _ Hf' Hbs).
  destruct (read_all record bounds) as [rs|e]; cbn [mbind result_bind]; [|done].
  destruct IH as (trace & more' & -> & [H1 H2 H3] & Hf''). exists (mkStep bound r k :: trace), (more ++ more').
  rewrite app_assoc. split_and!; [done| |done]. split; [by rewrite fmap_cons, H1|by rewrite fmap_cons, H2|].
  constructor; [by apply projected_prefix|done].
Qed.

(** ** The invariant of the loop *)

(** The truth that decides a Level alone. *)
Definition deciding (connector : string) : bool := negb (connector =? LevelConnectorAND)%string.

Definition is_decided (x : step) : bool := match st_reading x with Decided _ => true | Undecided _ _ => false end.
Definition decided_count (trace : list step) : Z := Z.of_nat (length (filter (λ x, is_decided x = true) trace)).

Definition silent_evidence (trace : list step) (reason : string) (evidence : ThresholdEvidence) : Prop :=
  ∃ x, x ∈ trace ∧ silent x ∧ step_reason x = reason ∧
    evidence = mkThresholdEvidence "" (u32 (Z.of_nat (st_ordinal x))) true 0 false 0 false reason.

Record level_inv (connector : string) (trace : list step) (s : level_state) : Prop := mkInv {
  inv_truths : ls_truths s = step_truth <$> trace;
  inv_unknown : ls_unknown s = true ↔ Exists silent trace;
  inv_terminal : ls_terminal s = true ↔ Exists fails trace;
  inv_reason : ls_unknownReason s = FoldGapReason (step_reason <$> trace);
  inv_silent : ls_unknownReason s ≠ ""%string → silent_evidence trace (ls_unknownReason s) (ls_unknownEvidence s);
  inv_count : ls_evaluations s = u64 (decided_count trace);
  inv_evidence :
    match list_find (says (deciding connector)) trace with
    | Some (j, x) => ls_evidenceSet s = true ∧ st_reading x = Decided (ls_evidenceFact s) ∧
        ls_evidenceAlgorithm s = u32 (Z.of_nat j) ∧ ls_evidenceProjection s = u32 (Z.of_nat (st_ordinal x))
    | None => ls_evidenceSet s = false ∧ ls_evidenceAlgorithm s = 0 ∧
        ∀ x f, trace !! 0%nat = Some x → st_reading x = Decided f →
          ls_evidenceFact s = f ∧ ls_evidenceProjection s = u32 (Z.of_nat (st_ordinal x))
    end;
}.

Lemma list_find_snoc {A} (P : A → Prop) `{∀ x, Decision (P x)} l x :
  list_find P (l ++ [x]) =
    match list_find P l with Some found => Some found | None => if decide (P x) then Some (length l, x) else None end.
Proof.
  induction l as [|y l IH]; simpl; [by destruct (decide (P x))|].
  destruct (decide (P y)); [done|]. rewrite IH. destruct (list_find P l) as [[? ?]|]; [done|]. by destruct (decide (P x)).
Qed.

Lemma Exists_snoc {A} (P : A → Prop) l x : Exists P (l ++ [x]) ↔ Exists P l ∨ P x.
Proof. rewrite Exists_app, Exists_cons, Exists_nil. tauto. Qed.

Lemma fmap_snoc {A B} (f : A → B) l x : f <$> (l ++ [x]) = (f <$> l) ++ [f x].
Proof. by rewrite fmap_app. Qed.

Lemma fold_reason_snoc reasons r : FoldGapReason (reasons ++ [r]) = fold_step (FoldGapReason reasons) r.
Proof. unfold FoldGapReason. by rewrite foldl_app. Qed.

Lemma decided_count_snoc trace x : decided_count (trace ++ [x]) = decided_count trace + (if is_decided x then 1 else 0).
Proof.
  unfold decided_count. rewrite filter_app, length_app, filter_cons, filter_nil. destruct (is_decided x); simpl; lia.
Qed.

Lemma silent_evidence_snoc trace x reason evidence :
  silent_evidence trace reason evidence → silent_evidence (trace ++ [x]) reason evidence.
Proof. intros (y & Hy & ?). exists y. split; [|done]. apply elem_of_app. by left. Qed.

Lemma level_inv_start connector : level_inv connector [] (level_start connector).
Proof. split; cbn; rewrite ?Exists_nil; naive_solver. Qed.

Lemma absorb_unknown_inv connector trace x s reason terminal :
  st_reading x = Undecided reason terminal → reason ≠ ""%string → level_inv connector trace s →
  level_inv connector (trace ++ [x]) (absorb connector (length trace) x s).
Proof.
  intros Hx Hr [Ht Hu Hterm Hreason Hsil Hcount Hev]. unfold absorb. rewrite Hx.
  split; cbn [note_unknown ls_truths ls_unknown ls_terminal ls_unknownReason ls_unknownEvidence ls_evaluations ls_evidenceSet ls_evidenceFact ls_evidenceAlgorithm ls_evidenceProjection].
  - rewrite fmap_snoc, Ht. do 2 f_equal. unfold step_truth. by rewrite Hx.
  - rewrite Exists_snoc. split; [|done]. intros _. right. by exists reason, terminal.
  - rewrite Exists_snoc, orb_true_iff, Hterm. unfold fails. rewrite Hx. naive_solver.
  - rewrite strongerUnknownReason_step, fmap_snoc, fold_reason_snoc, Hreason. f_equal. unfold step_reason. by rewrite Hx.
  - intros Hne. destruct (strongerUnknownReason _ _).
    + exists x. split_and!; [apply elem_of_app; right; by left|by exists reason, terminal|unfold step_reason; by rewrite Hx|done].
    + apply silent_evidence_snoc. by apply Hsil.
  - rewrite decided_count_snoc. unfold is_decided. rewrite Hx. by rewrite Z.add_0_r.
  - rewrite list_find_snoc. destruct (list_find _ trace) as [[j y]|]; [done|].
    destruct (decide (says (deciding connector) x)) as [(f & Hf & _)|_]; [congruence|].
    destruct Hev as (? & ? & Hev). split_and!; [done..|]. intros y f Hy Hf. apply Hev; [|done].
    destruct trace; [|done]. injection Hy as <-. congruence.
Qed.

Lemma absorb_truth_inv connector trace x s fact :
  st_reading x = Decided fact → level_inv connector trace s →
  level_inv connector (trace ++ [x]) (absorb connector (length trace) x s).
Proof.
  intros Hx [Ht Hu Hterm Hreason Hsil Hcount Hev]. unfold absorb. rewrite Hx.
  assert (¬ silent x) as Hns by (intros (? & ? & ?); congruence).
  assert (¬ fails x) as Hnf by (intros (? & ?); congruence).
  split; cbn [note_truth ls_truths ls_unknown ls_terminal ls_unknownReason ls_unknownEvidence ls_evaluations ls_evidenceSet ls_evidenceFact ls_evidenceAlgorithm ls_evidenceProjection].
  - rewrite fmap_snoc, Ht. do 2 f_equal. unfold step_truth. by rewrite Hx.
  - rewrite Exists_snoc. tauto.
  - rewrite Exists_snoc. tauto.
  - rewrite fmap_snoc, fold_reason_snoc, Hreason. f_equal. unfold step_reason. by rewrite Hx.
  - intros Hne. by apply silent_evidence_snoc, Hsil.
  - rewrite decided_count_snoc, Hcount. unfold is_decided. rewrite Hx. unfold u64. by rewrite Z.add_mod_idemp_l.
  - rewrite list_find_snoc.
    replace (if (connector =? LevelConnectorAND)%string then negb (Matched fact) else Matched fact)
      with (bool_decide (says (deciding connector) x)).
    2:{ assert (says (deciding connector) x ↔ Matched fact = deciding connector) as Hs by (unfold says; rewrite Hx; naive_solver).
        rewrite (bool_decide_ext _ _ Hs). unfold deciding. by destruct (connector =? _)%string, (Matched fact). }
    destruct (list_find _ trace) as [[j y]|] eqn:Hfind.
    + destruct Hev as (-> & Hy & Ha & Hp). apply list_find_Some in Hfind as (Hj & _).
      assert (length trace ≠ 0%nat) by (intros E%nil_length_inv; by subst).
      rewrite (proj2 (Z.eqb_neq _ _)) by lia. rewrite andb_false_r. done.
    + destruct Hev as (-> & Ha & Hev). destruct (decide (says _ x)) as [Hs|Hs].
      * rewrite bool_decide_eq_true_2 by done. done.
      * rewrite bool_decide_eq_false_2 by done. cbn [andb orb negb]. split_and!; [done..|]. intros y f Hy Hf.
        destruct trace as [|z trace]; [injection Hy as <-; simpl; split; [congruence|done]|]. cbn [length].
        rewrite (proj2 (Z.eqb_neq _ _)) by lia. by apply Hev.
Qed.

Lemma absorb_all_inv connector trace processed s :
  Forall (λ x, silent x → step_reason x ≠ ""%string) trace → level_inv connector processed s →
  level_inv connector (processed ++ trace) (absorb_all connector (length processed) trace s).
Proof.
  revert processed s. induction trace as [|x trace IH]; intros processed s Hr Hinv; [by rewrite app_nil_r|].
  apply Forall_cons in Hr as [Hx Hr]. cbn [absorb_all]. rewrite cons_middle, app_assoc.
  replace (S (length processed)) with (length (processed ++ [x])) by (rewrite length_app; simpl; lia). apply IH; [done|].
  destruct (st_reading x) as [fact|reason terminal] eqn:E; [by eapply absorb_truth_inv|].
  eapply absorb_unknown_inv; [done| |done]. unfold step_reason, silent in Hx. rewrite E in Hx. naive_solver.
Qed.

(** ** What the Level's fact says *)

Definition result_of (anomalous : bool) : string := if anomalous then FactResultAnomalous else FactResultNormal.

(** The evidence of a decided Level: the algorithm at [j], its fact, its projection. *)
Definition evidence_of (anomalous : bool) (j : nat) (x : step) (fact : AlgorithmFact) : ThresholdEvidence :=
  let grouped := anomalous && (0 <=? MatchedGroup fact) in
  mkThresholdEvidence (af_PredicateDigest fact) (u32 (Z.of_nat (st_ordinal x))) true
    (if anomalous then u32 (Z.of_nat j) else 0) anomalous (if grouped then u32 (MatchedGroup fact) else 0) grouped "".

(** [level_says connector trace result reason evidence]: under AND one NORMAL detector
    decides, under OR one ANOMALOUS one, and the first that does is the evidence;
    otherwise a silent detector leaves the Level undecided; otherwise all agree. *)
Inductive level_says (connector : string) (trace : list step) : string → string → ThresholdEvidence → Prop :=
  | says_one j x fact :
      trace !! j = Some x → st_reading x = Decided fact → Matched fact = deciding connector →
      Forall (λ y, ¬ says (deciding connector) y) (take j trace) →
      level_says connector trace (result_of (deciding connector)) "" (evidence_of (deciding connector) j x fact)
  | says_all x fact :
      Forall (says (negb (deciding connector))) trace → trace !! 0%nat = Some x → st_reading x = Decided fact →
      level_says connector trace (result_of (negb (deciding connector))) "" (evidence_of (negb (deciding connector)) 0 x fact)
  | says_nothing :
      trace = [] → level_says connector trace (result_of (negb (deciding connector))) "" no_evidence
  | says_unknown evidence :
      ¬ Exists (says (deciding connector)) trace → Exists silent trace →
      silent_evidence trace (FoldGapReason (step_reason <$> trace)) evidence →
      level_says connector trace (if bool_decide (Exists fails trace) then FactResultError else FactResultUnavailable)
        (FoldGapReason (step_reason <$> trace)) evidence.

Lemma step_kinds x :
  (says true x ∧ ¬ says false x ∧ ¬ silent x ∧ step_truth x = algorithmTruthTrue) ∨
  (says false x ∧ ¬ says true x ∧ ¬ silent x ∧ step_truth x = algorithmTruthFalse) ∨
  (silent x ∧ ¬ says true x ∧ ¬ says false x ∧ step_truth x = algorithmTruthUnknown).
Proof.
  unfold says, silent, step_truth. destruct (st_reading x) as [f|r t]; [destruct (Matched f) eqn:E; [left|right; left]|right; right].
  all: split_and!; eauto; intros ?; naive_solver congruence.
Qed.

Lemma combine_and_spec unknown trace :
  (Exists (says false) trace → combine_and unknown (step_truth <$> trace) = (false, true)) ∧
  (Forall (says true) trace → combine_and unknown (step_truth <$> trace) = (negb unknown, negb unknown)) ∧
  (¬ Exists (says false) trace → Exists silent trace ∨ unknown = true → combine_and unknown (step_truth <$> trace) = (false, false)).
Proof.
  revert unknown. induction trace as [|x trace IH]; intros unknown; rewrite ?fmap_cons, ?Exists_nil, ?Exists_cons, ?Forall_cons.
  { split_and!; [done|done|by intros _ [?| ->]]. }
  destruct (IH unknown) as (H1 & H2 & H3), (IH true) as (H1' & _ & H3').
  destruct (step_kinds x) as [(Hx & Hn & Hs & ->)|[(Hx & Hn & Hs & ->)|(Hx & Hn & Hs & ->)]];
    cbn [combine_and combine_or]; rewrite ?orb_false_r, ?orb_true_r; split_and!; tauto.
Qed.

Lemma combine_or_spec unknown trace :
  (Exists (says true) trace → combine_or unknown (step_truth <$> trace) = (true, true)) ∧
  (Forall (says false) trace → combine_or unknown (step_truth <$> trace) = (false, negb unknown)) ∧
  (¬ Exists (says true) trace → Exists silent trace ∨ unknown = true → combine_or unknown (step_truth <$> trace) = (false, false)).
Proof.
  revert unknown. induction trace as [|x trace IH]; intros unknown; rewrite ?fmap_cons, ?Exists_nil, ?Exists_cons, ?Forall_cons.
  { split_and!; [done|done|by intros _ [?| ->]]. }
  destruct (IH unknown) as (H1 & H2 & H3), (IH true) as (H1' & _ & H3').
  destruct (step_kinds x) as [(Hx & Hn & Hs & ->)|[(Hx & Hn & Hs & ->)|(Hx & Hn & Hs & ->)]];
    cbn [combine_and combine_or]; rewrite ?orb_false_r, ?orb_true_r; split_and!; tauto.
Qed.

Lemma combine_spec connector trace :
  let d := deciding connector in
  (Exists (says d) trace → combineAlgorithmTruth connector (step_truth <$> trace) = (d, true)) ∧
  (Forall (says (negb d)) trace → combineAlgorithmTruth connector (step_truth <$> trace) = (negb d, true)) ∧
  (¬ Exists (says d) trace → Exists silent trace → combineAlgorithmTruth connector (step_truth <$> trace) = (false, false)).
Proof.
  unfold combineAlgorithmTruth, deciding. destruct (connector =? LevelConnectorAND)%string; cbn [negb].
  - destruct (combine_and_spec false trace) as (H1 & H2 & H3). split_and!; auto.
  - destruct (combine_or_spec false trace) as (H1 & H2 & H3). split_and!; auto.
Qed.

(** Undecided readings have a reason. *)
Lemma reads_reason record bound reason terminal : reads record bound = Ok (Undecided reason terminal) → reason ≠ ""%string.
Proof.
  unfold reads. intros H. destruct (Normalize _ _) as [v|why] eqn:Hn.
  - destruct (bd_detector _ _ _) as [f|[|why|]]; [by destruct (invalid_fact _ f)|done| |done].
    destruct (declaresReason _ why) eqn:Hd; [|done]. injection H as -> _. intros ->. done.
  - injection H as <- _. revert Hn. unfold Normalize. repeat case_match; intros [= <-]; done.
Qed.

Lemma read_all_silent record bounds rs : read_all record bounds = Ok rs → Forall (λ r, ∀ why t, r = Undecided why t → why ≠ ""%string) rs.
Proof.
  revert rs. induction bounds as [|bound bounds IH]; cbn [read_all]; [by intros rs [= <-]|].
  intros rs (r & Hr & H)%bind_Ok. apply bind_Ok in H as (rs' & Hrs & [= <-]).
  constructor; [|by apply IH]. intros why t ->. by eapply reads_reason.
Qed.

Lemma fold_reason_nonempty trace :
  Forall (λ x, silent x → step_reason x ≠ ""%string) trace → Exists silent trace → FoldGapReason (step_reason <$> trace) ≠ ""%string.
Proof.
  rewrite Forall_forall, Exists_exists. intros Hr (x & Hin & Hx) H0. destruct (Hr x Hin Hx).
  destruct (FoldGapReason_preferred (step_reason <$> trace)) as [[_ H]|(? & _)]; [|done].
  apply H. apply list_elem_of_fmap. by exists x.
Qed.

(** The loop's variables, when it ends, give the fact [level_says] describes. *)
Lemma level_fact_says level trace s :
  level_inv (bl_connector level) trace s → Forall (λ x, silent x → step_reason x ≠ ""%string) trace →
  length (bl_detectors level) = length trace →
  let fact := level_fact level s in
  lf_Definition fact = bl_definition level ∧ lf_DetectFingerprint fact = bl_fingerprint level ∧
  level_says (bl_connector level) trace (lf_Result fact) (lf_ReasonCode fact) (lf_Evidence fact).
Proof.
  intros [Ht Hu Hterm Hreason Hsil _ Hev] Hr Hlen. set (d := deciding (bl_connector level)) in *.
  destruct (combine_spec (bl_connector level) trace) as (Hone & Hall & Hnone).
  unfold level_fact. rewrite Ht. fold d in Hone, Hall, Hnone.
  assert (Hres : ∀ b : bool, (if b then FactResultAnomalous else FactResultNormal) = result_of b) by done.
  assert (Hanom : ∀ b, (result_of b =? FactResultAnomalous)%string = b) by by intros [].
  destruct (list_find (says d) trace) as [[j x]|] eqn:Hfind.
  - destruct Hev as (_ & Hx & Ha & Hp). apply list_find_Some in Hfind as (Hj & Hs & Hbefore).
    rewrite Hone by (apply Exists_exists; exists x; split; [by eapply list_elem_of_lookup_2|done]). rewrite Hres.
    split_and!; [done..|]. cbn [lf_Result lf_ReasonCode lf_Evidence]. unfold decided_evidence.
    rewrite bool_decide_eq_false_2 by (rewrite Hlen; by destruct trace). rewrite Hanom, Ha, Hp.
    apply (says_one _ _ j x (ls_evidenceFact s)); [done|done|unfold d in Hs; destruct Hs as (f & ? & ?); congruence|].
    apply Forall_forall. intros y (i & Hy)%list_elem_of_lookup_1. apply lookup_take_Some in Hy as [Hy Hi]. by eapply Hbefore.
  - destruct Hev as (_ & Ha & Hev). apply list_find_None in Hfind. destruct (ls_unknown s) eqn:Hun; [assert (Exists silent trace) as Hsilent by by apply Hu|assert (¬ Exists silent trace) as Hsilent by by intros ?%Hu].
    + rewrite Hnone by (try apply Forall_not_Exists; done). split_and!; [done..|].
      cbn [lf_Result lf_ReasonCode lf_Evidence]. rewrite Hreason.
      replace (ls_terminal s) with (bool_decide (Exists fails trace)) by (apply eq_true_iff_eq; by rewrite bool_decide_eq_true, Hterm).
      apply says_unknown; [by apply Forall_not_Exists|done|]. rewrite <- Hreason. apply Hsil. rewrite Hreason. by apply fold_reason_nonempty.
    + assert (Forall (says (negb d)) trace) as Hagree.
      { apply Forall_forall. intros y Hy. rewrite Forall_forall in Hfind. specialize (Hfind y Hy).
        assert (¬ silent y) by (intros ?; apply Hsilent, Exists_exists; eauto).
        destruct (step_kinds y) as [?|[?|?]], d; simpl; tauto. }
      rewrite Hall by done. rewrite Hres. split_and!; [done..|]. cbn [lf_Result lf_ReasonCode lf_Evidence]. unfold decided_evidence.
      destruct trace as [|x trace]; [rewrite bool_decide_eq_true_2 by done; by apply says_nothing|].
      rewrite bool_decide_eq_false_2 by (rewrite Hlen; done). rewrite Hanom, Ha.
      assert (says (negb d) x) as (f & Hf & _) by by inversion Hagree. destruct (Hev x f) as [-> ->]; [done..|].
      by apply (says_all _ _ x f).
Qed.

(** What one Level's evaluation returns; [level_fact_decides] states it of the code. *)
Lemma evaluateLevel_spec (normalizer_of : string → NumericNormalizerSpec) record level projections :
  faithful normalizer_of record projections → Forall (bound_by normalizer_of) (bl_detectors level) →
  match read_all record (bl_detectors level) with
  | Err e => evaluateLevel record level projections = Err e
  | Ok rs => ∃ trace more fact,
      evaluateLevel record level projections = Ok (fact, u64 (decided_count trace), projections ++ more) ∧
      traces (projections ++ more) (bl_detectors level) rs trace ∧ faithful normalizer_of record (projections ++ more) ∧
      lf_Definition fact = bl_definition level ∧ lf_DetectFingerprint fact = bl_fingerprint level ∧
      level_says (bl_connector level) trace (lf_Result fact) (lf_ReasonCode fact) (lf_Evidence fact)
  end.
Proof.
  intros Hf Hb. unfold evaluateLevel.
  pose proof (detector_loop_reads normalizer_of record (bl_connector level) (bl_detectors level) 0 (level_start (bl_connector level)) _ Hf Hb) as H. change (Z.of_nat 0) with 0 in H.
  destruct (read_all record _) as [rs|e] eqn:Hread; [|by rewrite H].
  destruct H as (trace & more & -> & [H1 H2 H3] & Hf'). apply read_all_silent in Hread.
  assert (Forall (λ x, silent x → step_reason x ≠ ""%string) trace) as Hr.
  { apply Forall_forall. intros x Hx (r & t & E). rewrite Forall_forall in Hread. unfold step_reason. rewrite E.
    eapply (Hread (st_reading x)); [|done]. rewrite <- H2. apply list_elem_of_fmap. by exists x. }
  pose proof (absorb_all_inv _ trace [] _ Hr (level_inv_start (bl_connector level))) as Hinv. cbn [length app] in Hinv.
  apply level_fact_says in Hinv as Hfact; [|done|by rewrite <- H1, length_fmap]. destruct Hfact as (Hd & Hfp & Hsays).
  exists trace, more, (level_fact level (absorb_all (bl_connector level) 0 trace (level_start (bl_connector level)))).
  split_and!; [|by split|done..]. cbn [mbind result_bind]. by rewrite (inv_count _ _ _ Hinv).
Qed.

(** C5: a Level of any detectors is evaluated as if each detector read its own value,
    though a value asked for twice is normalized once. When every detector answers,
    the fact is in three-valued logic: under AND one NORMAL answer makes the Level
    NORMAL, under OR one ANOMALOUS answer makes it ANOMALOUS, whatever the others
    lack, and the first such detector is the evidence; failing that one silent
    detector leaves the Level UNAVAILABLE, or ERROR when a detector declared a
    failure, for the reason [FoldGapReason] picks from all the silent ones' and with
    the evidence of one that gave it; failing that all agree. An answer that is not a
    fact ends the evaluation with the first detector's error, and nothing else does. *)
Theorem level_fact_decides (normalizer_of : string → NumericNormalizerSpec) record level projections :
  faithful normalizer_of record projections → Forall (bound_by normalizer_of) (bl_detectors level) →
  match read_all record (bl_detectors level) with
  | Err e => evaluateLevel record level projections = Err e
  | Ok rs => ∃ trace more fact,
      evaluateLevel record level projections = Ok (fact, u64 (decided_count trace), projections ++ more) ∧
      traces (projections ++ more) (bl_detectors level) rs trace ∧ faithful normalizer_of record (projections ++ more) ∧
      lf_Definition fact = bl_definition level ∧ lf_DetectFingerprint fact = bl_fingerprint level ∧
      level_says (bl_connector level) trace (lf_Result fact) (lf_ReasonCode fact) (lf_Evidence fact)
  end.
Proof. apply evaluateLevel_spec. Qed.
