(* ===== verification/DetectThreshold.v ===== *)
(** A Plan of compiled thresholds, end to end: it prepares, every record is then
    evaluated without error, and each Level's result is its configuration's own answer,
    from the decimal text of the record's values. *)
From Stdlib Require Import QArith.
From S2P Require Import Prelude Reason GapReason Decimal DecimalSpec AlgorithmInput Predicate ThresholdCompiler ThresholdSpec.
From S2P Require Import TriggerEvent Detect DetectSpec.

Open Scope Z_scope.

(** ** What a configuration answers of a record *)

(** The answer of one configuration, of source multiplier [source] and threshold
    multiplier [multiplier]: whether a group holds of the number nearest to the value,
    or the reason there is none. *)
Definition config_answers (record : RecordValueView) (source multiplier : Z) (config : thresholdConfigV1)
    (answer : result string bool) : Prop :=
  let text := TrimSpace (default "" (record (ValueField config)))%string in
  let scaled m := (text_value m * inject_Z (source * normalizedDecimalScale))%Q in
  match answer with
  | Ok b => ∃ m z, decimal_text text m ∧ text_bounded text m ∧ nearest_even (scaled m) z ∧ Z.abs z < 2 ^ 127 ∧
      (b = true ↔ Exists (group_holds multiplier z) (Groups config))
  | Err reason =>
      reason = ReasonRequiredValueMissing ∧ (text = "" ∨ text = "null")%string ∨
      reason = ReasonRequiredValueTypeMismatch ∧ text ≠ ""%string ∧ text ≠ "null"%string ∧ (∀ m, ¬ decimal_text text m) ∨
      reason = ReasonRequiredValueNormalizationFailed ∧
        ∃ m, decimal_text text m ∧ (¬ text_bounded text m ∨ ∃ z, nearest_even (scaled m) z ∧ 2 ^ 127 ≤ Z.abs z)
  end.

(** A Level of these answers, in three-valued logic. *)
Definition level_answer (connector : string) (answers : list (result string bool)) (result reason : string) : Prop :=
  let d := deciding connector in
  (Ok d ∈ answers ∧ result = result_of d ∧ reason = ""%string) ∨
  (Forall (λ a, a = Ok (negb d)) answers ∧ result = result_of (negb d) ∧ reason = ""%string) ∨
  (Ok d ∉ answers ∧ Exists (λ a, is_ok a = false) answers ∧ result = FactResultUnavailable ∧
   reason = FoldGapReason ((λ a, match a with Ok _ => "" | Err r => r end)%string <$> answers)).

(** ** A compiled detector, bound *)

Section thresholds.
Context (normalizer_digest : NumericNormalizerSpec → option string) (predicate_digest : predicateWire → option string).
Hypothesis normalizer_digest_length : ∀ n x, normalizer_digest n = Some x → String.length x = 64%nat.
Hypothesis predicate_digest_length : ∀ w x, predicate_digest w = Some x → String.length x = 64%nat.

(** [spec] is what the compiler makes of [config], and its normalizer is the Plan's. *)
Definition compiled_from (context : AlgorithmCompileContext) (normalizers : gmap string NumericNormalizerSpec)
    (config : thresholdConfigV1) (spec : DetectorSpec) : Prop :=
  ∃ r r', compileThreshold normalizer_digest predicate_digest context (Some config) = Ok r ∧
    validateAlgorithmCompileResult DetectorKindThreshold 1 threshold_capability (cc_Projection context) r = Ok r' ∧
    spec = cr_Detector r' ∧ normalizers !! spec_normalizerRef spec = Some (cr_Normalizer r').

(** The multipliers [config] compiles with. *)
Definition config_units (config : thresholdConfigV1) : option (Z * Z) :=
  '(n, multiplier) ← compileUnitNormalizer normalizer_digest (DataUnit config) (default "" (ThresholdUnitPrefix config))%string;
  Some (sourceMultiplier n, multiplier).

Definition answers (record : RecordValueView) (config : thresholdConfigV1) (answer : result string bool) : Prop :=
  ∃ source multiplier, config_units config = Some (source, multiplier) ∧ config_answers record source multiplier config answer.

Lemma compiled_reads context normalizers config spec record :
  projection_validate (fields_of context) = Ok tt → compiled_from context normalizers config spec →
  ∃ normalizer, normalizers !! spec_normalizerRef spec = Some normalizer ∧
    spec_kind spec = DetectorKindThreshold ∧ spec_version spec = 1 ∧
    ∃ r answer, reads record (mkBound spec (thresholdDetector false) normalizer) = Ok r ∧ answers record config answer ∧
      match r, answer with
      | Decided fact, Ok b => Matched fact = b
      | Undecided reason false, Err e => reason = e
      | _, _ => False
      end.
Proof.
  intros Hfields (r0 & r' & Hc & Hval & -> & Hn). apply compileThreshold_compiles in Hc as (multiplier & nodes & Hc).
  destruct (compiled_validates _ _ _ _ _ _ _ normalizer_digest_length predicate_digest_length Hfields Hc)
    as (digest & r'' & Hlen & Hdigest & Hval' & Hnorm & _ & _ & _ & Hdet).
  rewrite Hval in Hval'. injection Hval' as <-. pose proof (cs_unit _ _ _ _ _ _ _ Hc) as Hunit.
  pose proof (compile_multipliers _ _ _ _ _ Hunit) as (Hsm & _).
  exists (cr_Normalizer r'). split_and!; [done|by rewrite Hdet..|]. rewrite Hdet. unfold reads.
  cbn [bd_normalizer bd_spec bd_detector spec_valueRef].
  pose proof (Normalize_spec (cr_Normalizer r') (default "" (record (ValueField config)))%string) as Hnz.
  rewrite Hnorm in Hnz |- *. specialize (Hnz Hsm).
  assert (config_units config = Some (sourceMultiplier (cr_Normalizer r0), multiplier)) as Hunits.
  { unfold config_units. by rewrite Hunit. }
  destruct (Normalize _ _) as [v|reason].
  - destruct Hnz as (m & Hm & Hb & Hok & Hz & Hbound).
    destruct (compiled_evaluates config nodes multiplier digest v (cs_nodes _ _ _ _ _ _ _ Hc) Hok Hlen) as (e & He & Hed & Hmatch & Hgroup).
    unfold thresholdDetector. cbn [spec_predicate]. rewrite He.
    assert (invalid_fact (mkSpec DetectorKindThreshold 1 (ValueField config) (ref (cr_Normalizer r0))
      (mkPredicate (mkNode PredicateAny "" zero_number nodes) digest true) [])
      (mkAlgorithmFact (matched e) (matchedGroup e) (predicateDigest e)) = false) as Hvalid.
    { unfold invalid_fact. cbn [af_PredicateDigest Matched MatchedGroup spec_kind]. rewrite Hed, Hlen.
      destruct (matched e); [destruct Hgroup as (k & conditions & -> & _)|rewrite Hgroup; done].
      by rewrite (proj2 (Z.ltb_ge (Z.of_nat k) (-1))), (proj2 (Z.ltb_ge (Z.of_nat k) 0)) by lia. }
    rewrite Hvalid. exists (Decided (mkAlgorithmFact (matched e) (matchedGroup e) (predicateDigest e))), (Ok (matched e)).
    split_and!; [done| |done]. exists (sourceMultiplier (cr_Normalizer r0)), multiplier. split; [done|].
    exists m, (number_value v). by split_and!.
  - eexists (Undecided reason false), (Err reason). split_and!; [done| |done].
    exists (sourceMultiplier (cr_Normalizer r0)), multiplier. by split.
Qed.

(** ** A Level *)

Definition agrees (r : reading) (answer : result string bool) : Prop :=
  match r, answer with
  | Decided fact, Ok b => Matched fact = b
  | Undecided reason false, Err e => reason = e
  | _, _ => False
  end.

Lemma agrees_says b x answer : agrees (st_reading x) answer → says b x ↔ answer = Ok b.
Proof. unfold agrees, says. destruct (st_reading x) as [f|r []], answer as [b'|e]; naive_solver. Qed.

Lemma agrees_silent x answer :
  agrees (st_reading x) answer →
  (silent x ↔ is_ok answer = false) ∧ ¬ fails x ∧ step_reason x = match answer with Ok _ => "" | Err r => r end%string.
Proof. unfold agrees, silent, fails, step_reason. destruct (st_reading x) as [f|r []], answer as [b'|e]; naive_solver. Qed.

Lemma level_says_answer connector trace given result reason evidence :
  Forall2 (λ x, agrees (st_reading x)) trace given → level_says connector trace result reason evidence →
  level_answer connector given result reason.
Proof.
  intros Hall [j x fact Hj Hx Hm _|x fact Hagree _ _|Htrace|ev Hnone Hsilent _]; unfold level_answer.
  - left. split_and!; [|done..]. destruct (Forall2_lookup_l _ _ _ _ _ Hall Hj) as (a & Ha & Hag).
    eapply list_elem_of_lookup_2. rewrite Ha. f_equal. eapply agrees_says; [exact Hag|]. by exists fact.
  - right. left. split_and!; [|done..]. apply Forall_lookup. intros i a Ha.
    destruct (Forall2_lookup_r _ _ _ _ _ Hall Ha) as (y & Hy & Hag). eapply agrees_says; [exact Hag|].
    by eapply (Forall_lookup_1 _ _ _ _ Hagree).
  - right. left. subst. inversion Hall. done.
  - right. right. apply Exists_exists in Hsilent as (y & (i & Hi)%list_elem_of_lookup_1 & Hy).
    split_and!.
    + intros (k & Hk)%list_elem_of_lookup_1. destruct (Forall2_lookup_r _ _ _ _ _ Hall Hk) as (z & Hz & Hag).
      apply Hnone, Exists_exists. exists z. split; [by eapply list_elem_of_lookup_2|by eapply agrees_says].
    + destruct (Forall2_lookup_l _ _ _ _ _ Hall Hi) as (a & Ha & Hag). apply Exists_exists. exists a.
      split; [by eapply list_elem_of_lookup_2|]. by apply (agrees_silent _ _ Hag).
    + rewrite bool_decide_eq_false_2; [done|]. intros (z & (k & Hk)%list_elem_of_lookup_1 & Hz)%Exists_exists.
      destruct (Forall2_lookup_l _ _ _ _ _ Hall Hk) as (a & Ha & Hag). by apply (agrees_silent _ _ Hag) in Hz.
    + f_equal. clear -Hall. induction Hall as [|z a trace given Hag _ IH]; [done|].
      rewrite !fmap_cons, IH. by destruct (agrees_silent _ _ Hag) as (_ & _ & ->).
Qed.

(** The detectors of [configs], bound with the Plan's normalizers. *)
Definition bound_threshold (normalizers : gmap string NumericNormalizerSpec) (spec : DetectorSpec) (bound : boundDetector) : Prop :=
  ∃ normalizer, normalizers !! spec_normalizerRef spec = Some normalizer ∧ bound = mkBound spec (thresholdDetector false) normalizer.

Lemma read_all_answers context normalizers configs specs bounds record :
  projection_validate (fields_of context) = Ok tt → Forall2 (compiled_from context normalizers) configs specs →
  Forall2 (bound_threshold normalizers) specs bounds →
  ∃ rs given, read_all record bounds = Ok rs ∧ Forall2 (answers record) configs given ∧ Forall2 agrees rs given.
Proof.
  intros Hfields Hc. revert bounds. induction Hc as [|config spec configs specs Hc _ IH]; intros bounds Hb.
  { inversion Hb. by exists [], []. }
  inversion Hb as [|? ? ? bounds' (n & Hn & ->) Hb' E]; subst.
  destruct (IH _ Hb') as (rs & given & Hrs & Hgiven & Hag).
  destruct (compiled_reads context normalizers config spec record Hfields Hc) as (n' & Hn' & _ & _ & r & a & Hr & Ha & Hra).
  rewrite Hn in Hn'. injection Hn' as <-. exists (r :: rs), (a :: given). cbn [read_all]. rewrite Hr, Hrs.
  split_and!; [done|by constructor|]. constructor; [|done]. unfold agrees. by destruct r as [f|why []], a.
Qed.

(** ** A Plan *)

(** A Level whose algorithms are the thresholds [configs]. *)
Definition threshold_level (context : AlgorithmCompileContext) (normalizers : gmap string NumericNormalizerSpec)
    (configs : list thresholdConfigV1) (level : DetectLevel) : Prop :=
  Forall2 (compiled_from context normalizers) configs (dl_detectors level) ∧
  dl_algorithms level = replicate (length configs) (mkAlgorithm DetectorKindThreshold 1).

(** The prepared form of such a Level. *)
Definition prepares (normalizers : gmap string NumericNormalizerSpec) (level : DetectLevel) (bound : boundLevel) : Prop :=
  bl_definition bound = dl_definition level ∧ bl_connector bound = dl_connector level ∧ bl_fingerprint bound = dl_fingerprint level ∧
  Forall2 (bound_threshold normalizers) (dl_detectors level) (bl_detectors bound).

Lemma bind_detectors_spec context normalizers configs specs :
  projection_validate (fields_of context) = Ok tt → Forall2 (compiled_from context normalizers) configs specs →
  ∃ bounds, bind_detectors (DefaultRegistry false) normalizers specs = Ok bounds ∧ Forall2 (bound_threshold normalizers) specs bounds.
Proof.
  intros Hfields. induction 1 as [|config spec configs specs Hc _ (bounds & Hb & Hall)]; cbn [bind_detectors]; [by exists []|].
  destruct (compiled_reads context normalizers config spec (λ _, None) Hfields Hc) as (n & Hn & Hkind & Hversion & _).
  unfold bind_detector. rewrite Hkind, Hversion. cbn. rewrite Hn. cbn. rewrite Hb. cbn.
  eexists. split; [done|]. constructor; [by exists n|done].
Qed.

Lemma bind_algorithms_spec registry k i detectors named :
  i + Z.of_nat k = detectors →
  bind_algorithms registry detectors i named (replicate k (mkAlgorithm DetectorKindThreshold 1)) = Ok named.
Proof.
  revert i. induction k as [|k IH]; intros i Hi; cbn [replicate bind_algorithms].
  - by rewrite (proj2 (Z.eqb_eq i detectors)) by lia.
  - cbn [alg_kind]. rewrite String.eqb_refl, (proj2 (Z.leb_gt _ _)) by lia. cbn. apply IH. lia.
Qed.

Lemma bind_levels_spec context normalizers configss levels prepared :
  projection_validate (fields_of context) = Ok tt → Forall2 (threshold_level context normalizers) configss levels →
  ∃ bounds prepared', bind_levels (DefaultRegistry false) normalizers levels prepared = Ok prepared' ∧
    pp_levels prepared' = pp_levels prepared ++ bounds ∧ pp_namedInputCount prepared' = pp_namedInputCount prepared ∧
    Forall2 (prepares normalizers) levels bounds.
Proof.
  intros Hfields Hall. revert prepared. induction Hall as [|configs level configss levels [Hspecs Halgs] _ IH]; intros prepared; cbn [bind_levels].
  { exists [], prepared. by rewrite app_nil_r. }
  destruct (bind_detectors_spec _ _ _ _ Hfields Hspecs) as (detectors & -> & Hdetectors). cbn [mbind result_bind].
  rewrite Halgs, bind_algorithms_spec.
  2:{ apply Forall2_length in Hdetectors, Hspecs. lia. }
  cbn [mbind result_bind]. edestruct IH as (bounds & prepared' & -> & Hlevels & Hnamed & Hb).
  eexists (_ :: bounds), prepared'. split_and!; [done| |done|].
  - rewrite Hlevels. cbn [pp_levels]. by rewrite <- app_assoc.
  - by constructor.
Qed.

(** What a fact must say of a Level of these configurations. *)
Definition fact_answers (record : RecordValueView) (configs : list thresholdConfigV1) (level : DetectLevel) (fact : LevelFact) : Prop :=
  lf_Definition fact = dl_definition level ∧ lf_DetectFingerprint fact = dl_fingerprint level ∧
  ∃ given, Forall2 (answers record) configs given ∧
    level_answer (dl_connector level) given (lf_Result fact) (lf_ReasonCode fact).

Lemma level_loop_answers context normalizers record configss levels bounds facts evaluations projections :
  let normalizer_of r := default (mkNormalizer "" "" "" 1 6 "") (normalizers !! r) in
  projection_validate (fields_of context) = Ok tt → Forall2 (threshold_level context normalizers) configss levels →
  Forall2 (prepares normalizers) levels bounds → faithful normalizer_of record projections →
  ∃ new n projections', level_loop record bounds facts evaluations projections = Ok (facts ++ new, n, projections') ∧
    Forall3 (fact_answers record) configss levels new.
Proof.
  intros normalizer_of Hfields Hlevels. revert bounds facts evaluations projections.
  induction Hlevels as [|configs level configss levels [Hspecs _] _ IH]; intros bounds facts evaluations projections Hbounds Hf.
  { inversion Hbounds; subst. cbn [level_loop]. exists [], evaluations, projections. rewrite app_nil_r. split; [done|constructor]. }
  inversion Hbounds as [|? bound ? bounds' (Hdef & Hconn & Hfp & Hdet) Hbounds' E]; subst. cbn [level_loop].
  destruct (read_all_answers context normalizers _ _ _ record Hfields Hspecs Hdet) as (rs & given & Hread & Hgiven & Hag).
  pose proof (evaluateLevel_spec normalizer_of record bound projections Hf) as Hlevel. rewrite Hread in Hlevel.
  destruct Hlevel as (trace & more & fact & -> & [_ Hrs _] & Hf' & Hd & Hfp' & Hsays).
  { clear -Hdet. induction Hdet as [|spec b specs bs (n & Hn & ->) _ IH]; constructor; [|done].
    unfold bound_by, normalizer_of. cbn. by rewrite Hn. }
  cbn [mbind result_bind]. destruct (IH bounds' (facts ++ [fact]) (u64 (evaluations + u64 (decided_count trace))) _ Hbounds' Hf') as (new & n & ps & Hloop & Hnew).
  rewrite Hloop. exists (fact :: new), n, ps. split; [by rewrite <- app_assoc|]. constructor; [|done].
  split_and!; [by rewrite Hd|by rewrite Hfp'|]. exists given. split; [done|]. rewrite <- Hconn.
  eapply level_says_answer; [|exact Hsays]. rewrite <- Hrs in Hag. exact (proj1 (Forall2_fmap_l st_reading agrees trace given) Hag).
Qed.

(** A Plan of thresholds - its Levels' detectors compiled over one projection, its
    normalizers the compiled ones, its Levels in order - prepares with the default
    registry, and evaluates every record without error to one fact per Level, in the
    Levels' order and of their fingerprints. Each configuration answers from the decimal
    text of its own field: that a group holds of the nearest number, that none does, or
    the reason there is no number; and the Level's result is those answers' AND or OR in
    three-valued logic, its reason the fold of the reasons when they leave it open. *)
Lemma threshold_plan_decides context plan configss :
  projection_validate (fields_of context) = Ok tt →
  dp_scope plan = EvaluationScopeSeries → levels_ordered None (dp_levels plan) = true →
  Forall2 (threshold_level context (dp_normalizers plan)) configss (dp_levels plan) →
  ∃ prepared, PreparePlan (DefaultRegistry false) plan = Ok prepared ∧
    ∀ record, ∃ facts values n,
      EvaluatePreparedRecord prepared record = Ok (facts, values, n) ∧
      Forall3 (fact_answers record) configss (dp_levels plan) facts.
Proof.
  intros Hfields Hscope Hordered Hlevels. unfold PreparePlan. rewrite Hscope, String.eqb_refl, Hordered. cbn [negb fail_if mbind result_bind].
  destruct (bind_levels_spec context _ _ _ (mkPrepared [] 0 0 0) Hfields Hlevels) as (bounds & prepared & -> & Hpl & Hnamed & Hb).
  cbn [mbind result_bind]. eexists. split; [done|]. intros record. unfold EvaluatePreparedRecord.
  cbn [pp_namedInputCount pp_levels]. rewrite Hnamed, Hpl. cbn [pp_namedInputCount pp_levels Z.eqb negb app].
  destruct (level_loop_answers context (dp_normalizers plan) record configss (dp_levels plan) bounds [] 0 [] Hfields Hlevels Hb)
    as (new & n & ps & -> & Hnew); [by constructor|]. by eexists _, _, _.
Qed.
End thresholds.
