(* ===== verification/DetectExamples.v ===== *)
(** Concrete runs of the normalizer, the threshold compiler and the detector. *)
From Stdlib Require Import QArith.
From S2P Require Import Prelude Reason GapReason Decimal DecimalSpec AlgorithmInput Predicate ThresholdCompiler ThresholdSpec.
From S2P Require Import TriggerEvent Detect DetectSpec DetectThreshold.

Open Scope Z_scope.

Definition some_digest : string := Eval vm_compute in String.concat "" (replicate 8 "0123abcd"%string).

(** Kilobytes into bytes; a half of a millionth rounds to the even one. *)
Definition ex_kilobytes : NumericNormalizerSpec := mkNormalizer some_digest "KBs" "base" 1000 6 "HALF_EVEN".

Example ex_normalize :
  (match Normalize ex_kilobytes " 1.5e-9 " with Available n => CanonicalDecimal n | Unavailable r => r end,
   match Normalize ex_kilobytes "-2.5e-9" with Available n => CanonicalDecimal n | Unavailable r => r end,
   match Normalize ex_kilobytes "true" with Available n => CanonicalDecimal n | Unavailable r => r end,
   match Normalize ex_kilobytes "1e127" with Available n => CanonicalDecimal n | Unavailable r => r end)
  = ("0.000002", "-0.000002", ReasonRequiredValueTypeMismatch, ReasonRequiredValueNormalizationFailed)%string.
Proof. vm_compute. reflexivity. Qed.

Lemma normalize_decides_witness :
  0 < sourceMultiplier ex_kilobytes ∧
  match Normalize ex_kilobytes "1.5e-9" with
  | Available n => ∃ m, decimal_text "1.5e-9" m ∧ nearest_even (text_value m * inject_Z (1000 * normalizedDecimalScale)) (number_value n)
  | Unavailable _ => False
  end.
Proof.
  split; [reflexivity|]. pose proof (normalize_decides ex_kilobytes "1.5e-9"%string ltac:(reflexivity)) as H.
  destruct (Normalize ex_kilobytes "1.5e-9") as [n|r] eqn:E; [|vm_compute in E; discriminate E].
  destruct H as (m & Hm & _ & _ & Hz & _). exists m. by split.
Defined.

Lemma canonical_reads_back_witness :
  Normalize (mkNormalizer some_digest "none" "none" 1 6 "HALF_EVEN") (CanonicalDecimal (mkNumber true 0 1234567)) =
  Available (mkNumber true 0 1234567).
Proof.
  refine (proj1 (canonical_reads_back (mkNormalizer some_digest "none" "none" 1 6 "HALF_EVEN") (mkNumber true 0 1234567) _ _)); [reflexivity|].
  split; cbn; unfold is_u64; try done; lia.
Defined.

(** ** A Plan of two Levels *)

Definition ex_normalizer_digest (n : NumericNormalizerSpec) : option string := Some some_digest.
Definition ex_predicate_digest (w : predicateWire) : option string := Some some_digest.

Lemma ex_normalizer_digest_length n x : ex_normalizer_digest n = Some x → String.length x = 64%nat.
Proof. by intros [= <-]. Qed.
Lemma ex_predicate_digest_length w x : ex_predicate_digest w = Some x → String.length x = 64%nat.
Proof. by intros [= <-]. Qed.

Definition ex_context : AlgorithmCompileContext :=
  mkContext (mkInputProjection false ["in"; "out"]%string ["host"]%string "bk_biz_id" "SINGLE_VALUE" "KBs" "REQUIRED") ["host"]%string
    (mkSemantics EvaluationScopeSeries 60 60 60 0) (mkLimits 3 4 4 16 64 100 100 4096 [] 1000 100000 100000).

(** The field over 2 MB and under 5 MB, or exactly zero. *)
Definition ex_config (field : string) : thresholdConfigV1 :=
  mkThresholdConfig field "KBs" (Some "M"%string) 6 "HALF_EVEN"
    [[mkThreshold "GT" "2"; mkThreshold "LT" "5"]; [mkThreshold "EQ" "0"]]%string "" "" "" None [].

Definition ex_compile (field : string) : result CompileError AlgorithmCompileResult :=
  compileThreshold ex_normalizer_digest ex_predicate_digest ex_context (Some (ex_config field)).

Definition compiled_of (field : string) : AlgorithmCompileResult :=
  let none := mkCompiled no_detector ex_kilobytes (mkConfig None None None None None None) (mkProjectionFields [] [] []) [] "" "" 0 in
  match ex_compile field with
  | Ok r => match validateAlgorithmCompileResult DetectorKindThreshold 1 threshold_capability (cc_Projection ex_context) r with
            | Ok r' => r' | Err _ => none end
  | Err _ => none
  end.

Definition ex_level (id : Z) (connector : string) : DetectLevel :=
  mkDetectLevel (mkDefinition id "" id) connector some_digest [cr_Detector (compiled_of "in"); cr_Detector (compiled_of "out")]
    [mkAlgorithm DetectorKindThreshold 1; mkAlgorithm DetectorKindThreshold 1].

Definition ex_plan : DetectPlan :=
  mkDetectPlan EvaluationScopeSeries [ex_level 1 LevelConnectorAND; ex_level 2 LevelConnectorOR]
    {[some_digest := cr_Normalizer (compiled_of "in")]}.

Definition ex_record (inbound : option string) : RecordValueView := λ field,
  if (field =? "in")%string then inbound else if (field =? "out")%string then Some "3000"%string else None.

Definition ex_results (record : RecordValueView) : option (list (string * string) * nat) :=
  match PreparePlan (DefaultRegistry false) ex_plan with
  | Ok prepared =>
      match EvaluatePreparedRecord prepared record with
      | Ok (facts, values, _) => Some ((λ fact, (lf_Result fact, lf_ReasonCode fact)) <$> facts, length values)
      | Err _ => None
      end
  | Err _ => None
  end.

(** Two values are normalized for four detectors; a missing one leaves AND open. *)
Example ex_results_run :
  (ex_results (ex_record (Some "2000.5")), ex_results (ex_record (Some "2000")), ex_results (ex_record None))
  = (Some ([(FactResultAnomalous, ""); (FactResultAnomalous, "")], 2%nat),
     Some ([(FactResultNormal, ""); (FactResultAnomalous, "")], 2%nat),
     Some ([(FactResultUnavailable, ReasonRequiredValueMissing); (FactResultAnomalous, "")], 2%nat))%string.
Proof. vm_compute. reflexivity. Qed.

Lemma ex_number_ok : number_ok (mkNumber false 0 3000000000000).
Proof. split; cbn; try done; lia. Qed.

Lemma threshold_decides_witness :
  ∃ r, ex_compile "in" = Ok r ∧ ∃ r' multiplier e,
    validateAlgorithmCompileResult DetectorKindThreshold 1 threshold_capability (cc_Projection ex_context) r = Ok r' ∧
    spec_valueRef (cr_Detector r') = "in"%string ∧
    Evaluate (spec_predicate (cr_Detector r')) (mkNumber false 0 3000000000000) = Ok e ∧
    (matched e = true ↔ Exists (group_holds multiplier 3000000000000) (Groups (ex_config "in"))).
Proof.
  destruct (ex_compile "in") as [r|] eqn:E; [|vm_compute in E; discriminate E]. exists r. split; [reflexivity|].
  destruct (threshold_decides ex_normalizer_digest ex_predicate_digest ex_context (ex_config "in") r (mkNumber false 0 3000000000000)
    ex_normalizer_digest_length ex_predicate_digest_length) as (r' & multiplier & e & Hval & Hf & _ & He & _ & Hm & _).
  - reflexivity.
  - exact E.
  - exact ex_number_ok.
  - exists r', multiplier, e. split_and!; [exact Hval|exact Hf|exact He|exact Hm].
Defined.

Lemma ex_compiled field :
  field ∈ ["in"; "out"]%string →
  compiled_from ex_normalizer_digest ex_predicate_digest ex_context (dp_normalizers ex_plan) (ex_config field) (cr_Detector (compiled_of field)).
Proof.
  intros H. repeat (apply elem_of_cons in H as [->|H]); [..|inversion H].
  all: eexists _, _; split_and!; [vm_compute; reflexivity|vm_compute; reflexivity|vm_compute; reflexivity|vm_compute; reflexivity].
Qed.

Lemma ex_level_compiled id connector :
  threshold_level ex_normalizer_digest ex_predicate_digest ex_context (dp_normalizers ex_plan) [ex_config "in"; ex_config "out"]%string
    (ex_level id connector).
Proof.
  split; [|reflexivity]. unfold ex_level. cbn [dl_detectors].
  constructor; [apply ex_compiled; by left|]. constructor; [apply ex_compiled; right; by left|constructor].
Qed.

Lemma threshold_plan_decides_witness :
  ∃ prepared, PreparePlan (DefaultRegistry false) ex_plan = Ok prepared ∧ ∃ facts values n,
    EvaluatePreparedRecord prepared (ex_record None) = Ok (facts, values, n) ∧
    Forall3 (fact_answers ex_normalizer_digest (ex_record None)) [[ex_config "in"; ex_config "out"]; [ex_config "in"; ex_config "out"]]
      (dp_levels ex_plan) facts.
Proof.
  destruct (threshold_plan_decides ex_normalizer_digest ex_predicate_digest ex_normalizer_digest_length ex_predicate_digest_length
    ex_context ex_plan [[ex_config "in"; ex_config "out"]; [ex_config "in"; ex_config "out"]]) as (prepared & Hp & Hall);
    [reflexivity|reflexivity|reflexivity| |exists prepared; split; [exact Hp|exact (Hall (ex_record None))]].
  exact (List.Forall2_cons _ _ (ex_level_compiled 1 LevelConnectorAND)
    (List.Forall2_cons _ _ (ex_level_compiled 2 LevelConnectorOR) (List.Forall2_nil _))).
Defined.

(** A detector of its own: it fails by name below zero, and is silent of the rest. *)
Definition ex_failing : Detector := λ spec value,
  if negative value then Err (Controlled "EXECUTOR_OVERLOADED") else Ok (mkAlgorithmFact false (-1) some_digest).

Definition ex_bound (field : string) : boundDetector :=
  mkBound (mkSpec "Custom" 1 field some_digest (spec_predicate no_detector) ["EXECUTOR_OVERLOADED"]%string) ex_failing ex_kilobytes.

Definition ex_custom : boundLevel :=
  mkBoundLevel (mkDefinition 1 "" 1) LevelConnectorOR some_digest [ex_bound "in"; ex_bound "out"].

Lemma level_fact_decides_witness :
  ∃ trace more fact,
    evaluateLevel (ex_record (Some "-1")) ex_custom [] = Ok (fact, 1, more) ∧ length trace = 2%nat ∧
    level_says LevelConnectorOR trace (lf_Result fact) (lf_ReasonCode fact) (lf_Evidence fact) ∧
    lf_Result fact = FactResultError ∧ lf_ReasonCode fact = "EXECUTOR_OVERLOADED"%string.
Proof.
  pose proof (level_fact_decides (λ _, ex_kilobytes) (ex_record (Some "-1")) ex_custom [] ltac:(constructor)
    ltac:(repeat constructor)) as H.
  destruct (read_all _ _) as [rs|e] eqn:E; [|vm_compute in E; discriminate E].
  destruct H as (trace & more & fact & He & [Hb _ _] & _ & _ & _ & Hsays). exists trace, more, fact.
  assert (length trace = 2%nat) as Hlen by (rewrite <- (length_fmap st_bound), Hb; reflexivity).
  cbn [app] in He. destruct (evaluateLevel _ _ _) as [[[f n] ps]|] eqn:Hrun in He; [|discriminate He].
  injection He as -> Hcount ->. rewrite Hrun. vm_compute in Hrun. injection Hrun as Hfact Hn Hps.
  split_and!; [by rewrite <- Hn|exact Hlen|exact Hsays|rewrite <- Hfact; reflexivity|rewrite <- Hfact; reflexivity].
Defined.
