(* ===== verification/History.v ===== *)
(** The interface between the runtime window and the trigger: the answers a
    Level's history gives (trigger/model_v2.go, [HistoryView] and
    [HistorySummary]), and what it means for a history to represent a list of
    observed positions.

    The trigger is evaluated against the class [HistoryView]; its theorems are
    proved from [represents]. The runtime window (Window.v) is an instance of the
    class, and proves [represents] of every well-formed window. *)
From S2P Require Import Prelude.

Open Scope Z_scope.

Definition HistoryFull : string := "FULL".
Definition HistoryWarming : string := "WARMING".
Definition HistoryGapped : string := "GAPPED".

Record HistorySummary : Type := mkHistorySummary {
  Completeness : string;
  WindowStart : Z;
  WindowEnd : Z;
  ValidPositions : Z;
  RequiredPositions : Z;
  AnomalyCount : Z;
  AnomalyDigest : list Z;
}.

(** [ForEachAnomaly] is the optional method the compatibility context asserts;
    [None] is a view that does not have it. It is given as the list of the times
    a visitor that never stops is called with. *)
Class HistoryView (V : Type) : Type := {
  Summarize : V → Z → Z → HistorySummary;
  CountAnomalies : V → Z → Z → Z;
  FirstAnomaly : V → Z → Z → Z * bool;
  CountObserved : V → Z → Z → Z;
  ForEachAnomaly : V → option (Z → Z → list Z);
}.

(** ** What a history represents

    [obs] lists the observed positions of one Level, oldest first: a source time
    and whether the fact there was anomalous. *)

Definition in_range (from_ until : Z) (o : Z * bool) : Prop := from_ ≤ o.1 ≤ until.
#[export] Instance in_range_dec from_ until o : Decision (in_range from_ until o).
Proof. unfold in_range. apply _. Defined.

Definition observed_in (obs : list (Z * bool)) (from_ until : Z) : list (Z * bool) :=
  filter (in_range from_ until) obs.

Definition anomalies_in (obs : list (Z * bool)) (from_ until : Z) : list (Z * bool) :=
  filter (λ o, o.2 = true) (observed_in obs from_ until).

Definition obs_at (obs : list (Z * bool)) (t : Z) : option bool :=
  snd <$> head (filter (λ o, o.1 = t) obs).

Record represents `{HistoryView V} (v : V) (obs : list (Z * bool)) : Prop := {
  represents_sorted : StronglySorted Z.lt obs.*1;
  represents_bounded : Z.of_nat (length obs) ≤ maxUint32;
  represents_anomalies a b :
    CountAnomalies v a b = Z.of_nat (length (anomalies_in obs a b));
  represents_observed a b :
    CountObserved v a b = Z.of_nat (length (observed_in obs a b));
  represents_first a b :
    FirstAnomaly v a b =
      match anomalies_in obs a b with
      | [] => (0, false)
      | o :: _ => (o.1, true)
      end;
}.

Lemma anomalies_le_observed obs a b :
  (length (anomalies_in obs a b) ≤ length (observed_in obs a b))%nat.
Proof. apply length_filter. Qed.

Lemma observed_le obs a b : (length (observed_in obs a b) ≤ length obs)%nat.
Proof. apply length_filter. Qed.

Section represents.
Context `{HistoryView V} (v : V) (obs : list (Z * bool)) (Hrep : represents v obs).

Lemma represents_counts a b :
  0 ≤ CountAnomalies v a b ≤ CountObserved v a b ∧ CountObserved v a b ≤ maxUint32.
Proof.
  rewrite (represents_anomalies _ _ Hrep), (represents_observed _ _ Hrep).
  pose proof (anomalies_le_observed obs a b). pose proof (observed_le obs a b).
  pose proof (represents_bounded _ _ Hrep). lia.
Qed.
End represents.
