(* ===== verification/Trigger.v ===== *)
(** The trigger (trigger/model_v2.go, trigger/evaluator_v2.go): one record's Level
    facts and histories in, one outcome per Level and at most one event out. It
    is written against the interface [HistoryView], never against the window. *)
From Stdlib Require Import Ascii.
From S2P Require Import Prelude Reason GoHash TriggerEvent History.

Open Scope Z_scope.

(** ** Data *)

Definition CompletionEvaluated : string := "EVALUATED".
Definition CompletionSuppressed : string := "SUPPRESSED".
Definition CompletionUnavailable : string := "UNAVAILABLE".
Definition StateAdvance : string := "ADVANCE".
Definition StateFreeze : string := "FREEZE".
Definition DetectionAnomalous : string := "ANOMALOUS".
Definition DetectionNormal : string := "NORMAL".
Definition DetectionUnavailable : string := "UNAVAILABLE".
Definition DetectionError : string := "ERROR".
Definition EffectiveTimeActive : string := "ACTIVE".
Definition EffectiveTimeInactive : string := "INACTIVE".
Definition EffectiveTimeUnknown : string := "UNKNOWN".

Record InternalErrorV2 : Type := mkInvariant {
  ie_Operation : string;
  ie_LevelID : Z;
  ie_Err : string;
}.

Definition invariantV2 (operation : string) (levelID : Z) (err : string) : InternalErrorV2 :=
  mkInvariant operation levelID err.

Record EvaluationLimitsV2 : Type := mkLimits {
  MaxLevels : Z;
  MaxTriggerWindowSize : Z;
  MaxRecoveryConsecutiveWindows : Z;
  MaxRequiredHistoryPoints : Z;
  MaxLevelResultsPerEvent : Z;
  MaxEvidenceBytesPerEvent : Z;
  MaxComputeCost : Z;
}.

Definition limits_valid (limits : EvaluationLimitsV2) : bool :=
  (0 <? MaxLevels limits) && (0 <? MaxTriggerWindowSize limits)
  && (0 <? MaxRecoveryConsecutiveWindows limits) && (0 <? MaxRequiredHistoryPoints limits)
  && (0 <? MaxLevelResultsPerEvent limits) && (0 <? MaxEvidenceBytesPerEvent limits)
  && (0 <? MaxComputeCost limits).

Record ProjectedValue : Type := mkProjected {
  CanonicalDecimal : string;
  Available : bool;
  pv_ReasonCode : string;
}.

Record DetectionEvidence : Type := mkEvidence {
  PredicateDigest : string;
  ProjectedValueOrdinal : option Z;
  MatchedAlgorithmOrdinal : option Z;
  MatchedGroupOrdinal : option Z;
  ResultReason : string;
}.

Record DetectionFact : Type := mkDetection {
  df_Definition : LevelDefinitionV2;
  DetectFingerprint : string;
  df_Result : string;
  df_ReasonCode : string;
  Evidence : DetectionEvidence;
}.

Record DetectionRecord : Type := mkDetectionRecord {
  RecordID : string;
  SourceTime : Z;
  ProjectedValues : list ProjectedValue;
  LevelFacts : list DetectionFact;
}.

(** strategy/effective_time.go. *)
Record EffectiveTimeFact : Type := mkEffective {
  ef_status : string;
  ef_requirementDigest : string;
  ef_factRevision : string;
  ef_factDigest : string;
  ef_validFrom : Z;
  ef_validUntil : Z;
}.

(** strategy/types.go: what the trigger reads of a compiled Level and Plan. *)
Record TriggerPlan : Type := mkTrigger {
  WindowSize : Z;
  RequiredAnomalies : Z;
  StepSeconds : Z;
}.

Record RecoveryPlan : Type := mkRecovery {
  Enabled : bool;
  ConsecutiveWindows : Z;
}.

Record CompiledLevel : Type := mkCompiledLevel {
  Definition_ : LevelDefinitionV2;
  Trigger : TriggerPlan;
  Recovery : RecoveryPlan;
  EffectiveTimeRequirementDigest : string;
  RequiredDetectHistoryPoints : Z;
  StateRequirement_RetentionPoints : Z;
  Fingerprints_Detect : string;
  Fingerprints_Trigger : string;
}.

(** [cp_zone] is the offset of the Plan's boundary location, 0 for none;
    [cp_outputIdentity] and [cp_legacyOutput] are only tested for presence here. *)
Record CompiledPlan : Type := mkPlan {
  Levels : list CompiledLevel;
  ref_TenantID : string;
  ref_StrategyID : string;
  ref_SnapshotRevision : Z;
  cp_outputIdentity : bool;
  cp_wireFormat : string;
  cp_signalType : string;
  cp_legacyOutput : bool;
  cp_EvaluationInterval : Z;
  cp_AggregationInterval : Z;
  cp_zone : Z → Z;
}.

Definition PublishesCompatibleProtocol (p : CompiledPlan) : bool :=
  if negb (cp_wireFormat p =? "")%string then (cp_wireFormat p =? WireFormatPythonCompatible)%string
  else ref_SnapshotRevision p =? 0.

Definition WireFormat (p : CompiledPlan) : string :=
  ResolveOutputWireFormat (cp_wireFormat p) (ref_SnapshotRevision p).

Definition plan_CompatibleOffBoundary (p : CompiledPlan) (sourceTime : Z) : bool :=
  CompatibleOffBoundary (cp_EvaluationInterval p) (cp_AggregationInterval p) (cp_zone p) sourceTime.

(** [OneTimeClose] is [None] for a set that does not implement it. *)
Record OpenAlertSet : Type := mkOpenAlerts {
  Contains : string → string → string → bool;
  OneTimeClose : option bool;
}.

Record LevelOutcomeV2 : Type := mkOutcome {
  lo_LevelID : Z;
  lo_LevelCode : string;
  lo_Priority : Z;
  lo_RecoveryEnabled : bool;
  lo_Result : string;
  lo_SuppressedReason : string;
  lo_UnavailableReason : string;
  lo_StateDisposition : string;
  lo_HistoryCompleteness : string;
  lo_DecisionWindow : option DecisionWindowV1;
  lo_DetectEvidence : option DetectEvidenceV1;
  lo_TriggerFingerprint : string;
}.

Record EvaluationCountsV2 : Type := mkCounts {
  ec_Levels : Z;
  ec_Evaluated : Z;
  ec_Abnormal : Z;
  ec_Normal : Z;
  ec_Recovery : Z;
  ec_Suppressed : Z;
  ec_Unavailable : Z;
  ec_Events : Z;
}.

Definition RecoveryBesideLevelUnavailable : string := "level_unavailable".
Definition RecoveryBesideLevelRecovering : string := "level_recovering".
Definition RecoveryBesideLevelWithoutRecovery : string := "level_without_recovery".
Definition RecoveryHeldNoOpenAlert : string := "no_open_alert".
Definition RecoveryHeldFingerprintUnknown : string := "fingerprint_unknown".
Definition OpenAlertGatePassed : string := "passed".
Definition OpenAlertGatePassedOneTimeClose : string := "passed_one_time_close".
Definition OpenAlertGateHeldNoOpenAlert : string := "held_no_open_alert".
Definition OpenAlertGateHeldFingerprintUnknown : string := "held_fingerprint_unknown".
Definition OpenAlertGateNotConfigured : string := "not_configured".
Definition OpenAlertGateProtocolNotGated : string := "protocol_not_gated".

Record RecoveryGateV2 : Type := mkGate {
  Held : bool;
  Cause : string;
  Beside : string;
  BesideLevelID : Z;
  OpenAlertGate : string;
}.

Definition zero_gate : RecoveryGateV2 := mkGate false "" "" 0 "".

(** ** Checked arithmetic *)

Definition multiplyUint32ToInt64 (l r : Z) : option Z :=
  let value := u64 (l * r) in
  if maxInt64 <? value then None else Some value.

Definition windowStartV2 (endTime windowSize stepSeconds : Z) : option Z :=
  match multiplyUint32ToInt64 windowSize stepSeconds with
  | None => None
  | Some span =>
      if span =? 0 then None
      else
        let span := span - 1 in
        if endTime <? span then None else Some (endTime - span)
  end.

Definition requiredHistoryPointsV2 (trigger : TriggerPlan) (recovery : RecoveryPlan) : option Z :=
  if (WindowSize trigger =? 0) || (RequiredAnomalies trigger =? 0) || (StepSeconds trigger =? 0) then None
  else if negb (Enabled recovery) then
    if negb (ConsecutiveWindows recovery =? 0) then None else Some (WindowSize trigger)
  else if (ConsecutiveWindows recovery =? 0)
          || (maxUint32 - WindowSize trigger <? u32 (ConsecutiveWindows recovery - 1)) then None
  else Some (u32 (u32 (WindowSize trigger + ConsecutiveWindows recovery) - 1)).

(** ** Text checks *)

(** [hex.DecodeString] accepts either case; [ToLower] then refuses upper case. *)
Definition hex_byte (c : Z) : bool := lower_hex_byte c || ((65 <=? c) && (c <=? 70)).
Definition to_lower_byte (c : Z) : Z := if (65 <=? c) && (c <=? 90) then c + 32 else c.

Definition validDigestV2 (value : string) : bool :=
  (String.length value =? 64)%nat && forallb hex_byte (bytes_of_string value)
  && bool_decide (to_lower_byte <$> bytes_of_string value = bytes_of_string value).

(** The bytes of the value at an index, [0] past its end: every index the code
    reads is in range. *)
Definition byte_at (value : list Z) (index : nat) : Z := nth index value 0.

Definition validCanonicalDecimalV2 (value : string) : bool :=
  let bytes := bytes_of_string value in
  let n := length bytes in
  if (n =? 0)%nat then false
  else
    let start := if byte_at bytes 0 =? 45 then 1%nat else 0%nat in
    if (start =? n)%nat then false
    else
      let dot := Z.of_nat n - 7 in
      if (dot <=? Z.of_nat start) || negb (byte_at bytes (Z.to_nat dot) =? 46)
         || ((1 <? dot - Z.of_nat start) && (byte_at bytes start =? 48))
      then false
      else if negb (forallb (λ index, (Z.of_nat index =? dot)
                                      || ((48 <=? byte_at bytes index) && (byte_at bytes index <=? 57)))
                      (seq start (n - start)))
      then false
      else if (byte_at bytes 0 =? 45)
              && forallb (λ index, (byte_at bytes index =? 48) || (byte_at bytes index =? 46)) (seq start (n - start))
      then false
      else true.

Definition hex_digit (n : Z) : ascii := ascii_of_nat (Z.to_nat (if n <? 10 then n + 48 else n + 87)).
(** [hex.EncodeToString]. *)
Fixpoint hex_encode (bytes : list Z) : string :=
  match bytes with
  | [] => ""
  | b :: bytes => String (hex_digit (Z.shiftr b 4)) (String (hex_digit (Z.land b 15)) (hex_encode bytes))
  end.

(** ** The request *)

Section trigger.
Context {V : Type} `{!HistoryView V}.

Record EvaluationRequestV2 : Type := mkRequest {
  TenantID : string;
  BusinessID : string;
  Plan : option CompiledPlan;
  Record_ : DetectionRecord;
  ref_RecordID : string;
  ref_SourceTime : Z;
  ref_Dimensions : option (gmap string string);
  Observed_Values : option (gmap string string);
  Histories : list (Z * option V);
  EffectiveTimeFacts : list (Z * EffectiveTimeFact);
  EvaluationTime : Z;
  ExecutionID : string;
  LateAccepted : bool;
  Limits : EvaluationLimitsV2;
  OpenAlerts : option OpenAlertSet;
  HoldRecovery : option (Z → string * bool);
}.

Definition validateEffectiveTimeFactV2 (evaluationTime : Z) (requirementDigest : string) (fact : EffectiveTimeFact)
    : result string unit :=
  fail_if (negb (ef_requirementDigest fact =? requirementDigest)%string || negb (validDigestV2 (ef_factDigest fact))
           || negb (validDigestV2 (ef_factRevision fact)) || (evaluationTime <? ef_validFrom fact)
           || (ef_validUntil fact <=? evaluationTime) || (ef_validUntil fact <=? ef_validFrom fact))
    "fact requirement, digest, revision, or validity interval is invalid".

Definition wrap {A} (operation : string) (levelID : Z) (r : result string A) : result InternalErrorV2 A :=
  match r with Ok a => Ok a | Err e => Err (invariantV2 operation levelID e) end.

Definition EvaluateStateEligibilityV2 (evaluationTime : Z) (level : CompiledLevel) (fact : DetectionFact)
    (effective : EffectiveTimeFact) : result InternalErrorV2 string :=
  let id := def_LevelID (Definition_ level) in
  _ ← fail_if (negb (bool_decide (df_Definition fact = Definition_ level))
               || negb (DetectFingerprint fact =? Fingerprints_Detect level)%string)
        (invariantV2 "validate Detect fact" id "definition or fingerprint mismatch");
  _ ← wrap "validate EffectiveTime fact" id
        (validateEffectiveTimeFactV2 evaluationTime (EffectiveTimeRequirementDigest level) effective);
  effectiveDisposition ←
    (if bool_decide (ef_status effective ∈ [EffectiveTimeActive; EffectiveTimeInactive]) then Ok StateAdvance
     else if (ef_status effective =? EffectiveTimeUnknown)%string then Ok StateFreeze
     else Err (invariantV2 "validate EffectiveTime fact" id "unknown status"));
  if bool_decide (df_Result fact ∈ [DetectionUnavailable; DetectionError]) then
    if negb (LevelUnavailableReasonV2 (df_ReasonCode fact)) then
      Err (invariantV2 "validate unavailable Detect fact" id "invalid fact result or reason")
    else Ok StateFreeze
  else if bool_decide (df_Result fact ∈ [DetectionAnomalous; DetectionNormal]) then Ok effectiveDisposition
  else Err (invariantV2 "validate Detect fact" id "invalid fact result").

(** ** Admission *)

(** One Level of [validateRequestV2]: its place, its inputs and its cost. *)
Definition admit_level (request : EvaluationRequestV2) (previous : option Z) (level : CompiledLevel)
    (fact : DetectionFact) (history : Z * option V) (effective : Z * EffectiveTimeFact) (computeCost : Z)
    : result InternalErrorV2 Z :=
  let id := def_LevelID (Definition_ level) in
  let limits := Limits request in
  _ ← fail_if ((id =? 0) || match previous with Some p => id <=? p | None => false end
               || negb (def_LevelID (df_Definition fact) =? id) || negb (history.1 =? id)
               || negb (effective.1 =? id) || match history.2 with Some _ => false | None => true end)
        (invariantV2 "align Level inputs" id "Level inputs must be sorted, unique, and aligned");
  let required := requiredHistoryPointsV2 (Trigger level) (Recovery level) in
  let required_points := default 0 required in
  _ ← fail_if (match required with Some _ => false | None => true end
               || (MaxTriggerWindowSize limits <? WindowSize (Trigger level))
               || (MaxRecoveryConsecutiveWindows limits <? ConsecutiveWindows (Recovery level))
               || (MaxRequiredHistoryPoints limits <? required_points)
               || negb (required_points =? RequiredDetectHistoryPoints level))
        (invariantV2 "admit Level plan" id "compiled window exceeds admitted shape");
  let levelCost := u64 (1 + (if Enabled (Recovery level) then ConsecutiveWindows (Recovery level) else 0)) in
  _ ← fail_if (maxUint64 - computeCost <? levelCost) (invariantV2 "admit compute" id "compute cost overflow");
  Ok (u64 (computeCost + levelCost)).

Fixpoint admit_levels (request : EvaluationRequestV2) (previous : option Z) (levels : list CompiledLevel)
    (facts : list DetectionFact) (histories : list (Z * option V)) (effectives : list (Z * EffectiveTimeFact))
    (computeCost : Z) : result InternalErrorV2 Z :=
  match levels, facts, histories, effectives with
  | level :: levels, fact :: facts, history :: histories, effective :: effectives =>
      computeCost ← admit_level request previous level fact history effective computeCost;
      admit_levels request (Some (def_LevelID (Definition_ level))) levels facts histories effectives computeCost
  | _, _, _, _ => Ok computeCost
  end.

Definition validateRequestV2 (request : EvaluationRequestV2) : result InternalErrorV2 (list CompiledLevel) :=
  let record := Record_ request in
  match Plan request with
  | None => Err (invariantV2 "validate request" 0 "missing identity, value, time, or budget")
  | Some plan =>
      _ ← fail_if (negb (limits_valid (Limits request)) || (TenantID request =? "")%string
                   || (BusinessID request =? "")%string || (RecordID record =? "")%string
                   || (SourceTime record <? 0) || (EvaluationTime request <? 0) || (ExecutionID request =? "")%string
                   || negb (ref_RecordID request =? RecordID record)%string
                   || negb (ref_SourceTime request =? SourceTime record)
                   || match ref_Dimensions request with Some _ => false | None => true end
                   || match Observed_Values request with Some _ => false | None => true end)
            (invariantV2 "validate request" 0 "missing identity, value, time, or budget");
      let levels := Levels plan in
      let n := length levels in
      _ ← fail_if ((n =? 0)%nat || (MaxLevels (Limits request) <? u32 (Z.of_nat n))
                   || (MaxLevelResultsPerEvent (Limits request) <? u32 (Z.of_nat n))
                   || negb (length (LevelFacts record) =? n)%nat || negb (length (Histories request) =? n)%nat
                   || negb (length (EffectiveTimeFacts request) =? n)%nat)
            (invariantV2 "align Level inputs" 0 "Level input cardinality mismatch");
      computeCost ← admit_levels request None levels (LevelFacts record) (Histories request)
                      (EffectiveTimeFacts request) 0;
      _ ← fail_if (MaxComputeCost (Limits request) <? computeCost)
            (invariantV2 "admit compute" 0 "compute cost exceeds admitted limit");
      Ok levels
  end.

(** ** One Level *)

Definition buildDetectEvidenceV2 (record : DetectionRecord) (fact : DetectionFact) (effectiveStatus : string)
    : result string DetectEvidenceV1 :=
  let evidence := Evidence fact in
  match ProjectedValueOrdinal evidence with
  | None => Err "missing projection or predicate evidence"%string
  | Some ordinal =>
      if (Z.of_nat (length (ProjectedValues record)) <=? ordinal) || negb (validDigestV2 (PredicateDigest evidence))
      then Err "missing projection or predicate evidence"%string
      else
        match ProjectedValues record !! Z.to_nat ordinal with
        | None => Err "missing projection or predicate evidence"%string
        | Some projected =>
            if negb (Available projected) || negb (validCanonicalDecimalV2 (CanonicalDecimal projected))
               || negb (pv_ReasonCode projected =? "")%string
            then Err "successful fact references unavailable projection"%string
            else Ok (mkDetectEvidence (df_Result fact) (PredicateDigest evidence) (CanonicalDecimal projected)
                       (MatchedAlgorithmOrdinal evidence) (MatchedGroupOrdinal evidence) (ResultReason evidence)
                       effectiveStatus)
        end
  end.

Definition validateHistorySummaryV2 (sourceTime requiredPoints stepSeconds : Z) (summary : HistorySummary)
    : result string unit :=
  _ ← fail_if (negb (bool_decide (Completeness summary ∈ [HistoryFull; HistoryWarming; HistoryGapped])))
        "unknown history completeness";
  _ ← fail_if (negb (WindowEnd summary =? sourceTime) || (WindowStart summary <? 0)
               || (WindowEnd summary <? WindowStart summary) || (requiredPoints <? ValidPositions summary)
               || (ValidPositions summary <? AnomalyCount summary))
        "history summary shape is invalid";
  _ ← fail_if (match multiplyUint32ToInt64 (u32 (requiredPoints - 1)) stepSeconds with
               | None => true
               | Some expectedOffset =>
                   (sourceTime <? expectedOffset) || negb (WindowStart summary =? sourceTime - expectedOffset)
               end)
        "history summary window is not position aligned";
  fail_if ((Completeness summary =? HistoryFull)%string && negb (ValidPositions summary =? requiredPoints))
    "FULL history does not contain every position".

Definition historyReasonV2 (completeness : string) : string :=
  if (completeness =? HistoryGapped)%string then ReasonHistoryGapped else ReasonHistoryWarming.

(** The state of the recovery walk. *)
Record recovery_walk : Type := mkRecoveryWalk {
  observedMisses : Z;
  skippedWindows : Z;
  oldestWindowStart : Z;
}.

(** What one window says of recovery: it triggered, its holes leave it open, or
    it is a miss. *)
Inductive window_verdict : Type := WindowTriggered | WindowOpen | WindowMiss.

Definition judge_window (history : V) (plan : TriggerPlan) (windowStart windowEnd : Z) : window_verdict :=
  let anomalies := CountAnomalies history windowStart windowEnd in
  if RequiredAnomalies plan <=? anomalies then WindowTriggered
  else
    let observed := CountObserved history windowStart windowEnd in
    let holes := if observed <? WindowSize plan then WindowSize plan - observed else 0 in
    if RequiredAnomalies plan <=? u32 (anomalies + holes) then WindowOpen else WindowMiss.

(** [for offset := 0; observedMisses < ConsecutiveWindows && offset < retained;
    offset++]: [fuel] is the offsets left, at first [retained] of them. *)
Fixpoint recovery_loop (fuel : nat) (history : V) (plan : TriggerPlan) (consecutive retained sourceTime : Z)
    (offset : Z) (st : recovery_walk) : result string recovery_walk :=
  match fuel with
  | O => Ok st
  | S fuel =>
      if negb ((observedMisses st <? consecutive) && (offset <? retained)) then Ok st
      else
        match multiplyUint32ToInt64 offset (StepSeconds plan) with
        | None => Err "window time overflow"%string
        | Some shift =>
            if sourceTime <? shift then Ok st
            else
              let windowEnd := sourceTime - shift in
              match windowStartV2 windowEnd (WindowSize plan) (StepSeconds plan) with
              | None => Ok st
              | Some windowStart =>
                  match judge_window history plan windowStart windowEnd with
                  | WindowTriggered => Ok (mkRecoveryWalk (observedMisses st) (skippedWindows st) windowStart)
                  | WindowOpen =>
                      recovery_loop fuel history plan consecutive retained sourceTime (u32 (offset + 1))
                        (mkRecoveryWalk (observedMisses st) (u32 (skippedWindows st + 1)) windowStart)
                  | WindowMiss =>
                      recovery_loop fuel history plan consecutive retained sourceTime (u32 (offset + 1))
                        (mkRecoveryWalk (u32 (observedMisses st + 1)) (skippedWindows st) windowStart)
                  end
              end
        end
  end.

Definition zero_evidence : DetectEvidenceV1 := mkDetectEvidence "" "" "" None None "" "".
Definition zero_decision : DecisionWindowV1 :=
  mkDecisionWindow "" 0 0 (mkTriggerEvidence 0 0 0 0 0 0) (mkRecoveryEvidence false 0 0 0 0) ""
    (mkWindowEvidence "" false).
Definition zero_level_result : LevelResultV1 := mkLevelResult 0 "" 0 "" zero_decision zero_evidence "".

(** The outcome before any Level is decided. *)
Definition open_outcome (level : CompiledLevel) (disposition : string) : LevelOutcomeV2 :=
  let d := Definition_ level in
  mkOutcome (def_LevelID d) (def_LevelCode d) (def_Priority d) (Enabled (Recovery level)) "" "" "" disposition ""
    None None (Fingerprints_Trigger level).

Definition with_unavailable (o : LevelOutcomeV2) (reason completeness : string) : LevelOutcomeV2 :=
  mkOutcome (lo_LevelID o) (lo_LevelCode o) (lo_Priority o) (lo_RecoveryEnabled o) "" (lo_SuppressedReason o)
    reason (lo_StateDisposition o) completeness (lo_DecisionWindow o) (lo_DetectEvidence o) (lo_TriggerFingerprint o).

Definition with_suppressed (o : LevelOutcomeV2) (reason : string) : LevelOutcomeV2 :=
  mkOutcome (lo_LevelID o) (lo_LevelCode o) (lo_Priority o) (lo_RecoveryEnabled o) (lo_Result o) reason
    (lo_UnavailableReason o) (lo_StateDisposition o) (lo_HistoryCompleteness o) (lo_DecisionWindow o)
    (lo_DetectEvidence o) (lo_TriggerFingerprint o).

Definition with_result (o : LevelOutcomeV2) (res completeness : string) (w : DecisionWindowV1) (d : DetectEvidenceV1)
    : LevelOutcomeV2 :=
  mkOutcome (lo_LevelID o) (lo_LevelCode o) (lo_Priority o) (lo_RecoveryEnabled o) res (lo_SuppressedReason o)
    (lo_UnavailableReason o) (lo_StateDisposition o) completeness (Some w) (Some d) (lo_TriggerFingerprint o).

Definition evaluateLevelV2 (request : EvaluationRequestV2) (level : CompiledLevel) (fact : DetectionFact)
    (history : V) (effective : EffectiveTimeFact) (eligibility : string)
    : result InternalErrorV2 (LevelOutcomeV2 * LevelResultV1) :=
  let id := def_LevelID (Definition_ level) in
  let outcome := open_outcome level eligibility in
  let sourceTime := SourceTime (Record_ request) in
  let plan := Trigger level in
  let recoveryPlan := Recovery level in
  if negb ((df_Result fact =? DetectionAnomalous)%string || (df_Result fact =? DetectionNormal)%string) then
    Ok (with_unavailable outcome (df_ReasonCode fact) "", zero_level_result)
  else
    detectEvidence ← wrap "build Detect evidence" id
                       (buildDetectEvidenceV2 (Record_ request) fact EffectiveTimeActive);
    if (ef_status effective =? EffectiveTimeInactive)%string then
      Ok (with_suppressed outcome ReasonEffectiveTimeInactive, zero_level_result)
    else if (ef_status effective =? EffectiveTimeUnknown)%string then
      Ok (with_unavailable outcome ReasonEffectiveTimeUnknown "", zero_level_result)
    else if negb (ef_status effective =? EffectiveTimeActive)%string then
      Err (invariantV2 "validate EffectiveTime fact" id "unknown status")
    else
      let requiredPoints := default 0 (requiredHistoryPointsV2 plan recoveryPlan) in
      let summary := Summarize history sourceTime requiredPoints in
      _ ← wrap "validate History summary" id
            (validateHistorySummaryV2 sourceTime requiredPoints (StepSeconds plan) summary);
      match windowStartV2 sourceTime (WindowSize plan) (StepSeconds plan) with
      | None => Err (invariantV2 "calculate Trigger window" id "window time overflow")
      | Some triggerStart =>
          let observedAnomalies := CountAnomalies history triggerStart sourceTime in
          let anomalyBeginTime := (FirstAnomaly history triggerStart sourceTime).1 in
          if WindowSize plan <? observedAnomalies then
            Err (invariantV2 "count Trigger anomalies" id "anomaly count exceeds window positions")
          else
            let abnormal := (df_Result fact =? DetectionAnomalous)%string
                            && (RequiredAnomalies plan <=? observedAnomalies) in
            let start := mkRecoveryWalk 0 0 triggerStart in
            walked ←
              (if Enabled recoveryPlan && negb abnormal then
                 let retained := StateRequirement_RetentionPoints level in
                 if retained =? 0 then Err (invariantV2 "bound Recovery walk" id "Level retains no positions")
                 else wrap "calculate Recovery window" id
                        (recovery_loop (Z.to_nat retained) history plan (ConsecutiveWindows recoveryPlan) retained
                           sourceTime 0 start)
               else Ok start);
            let recovered := negb abnormal && Enabled recoveryPlan
                             && (ConsecutiveWindows recoveryPlan <=? observedMisses walked) in
            if negb abnormal && negb recovered && negb (Completeness summary =? HistoryFull)%string then
              Ok (with_unavailable outcome (historyReasonV2 (Completeness summary)) (Completeness summary),
                  zero_level_result)
            else
              let res := if abnormal then LevelResultAbnormal
                         else if recovered then LevelResultRecovery else LevelResultNormal in
              let decisionWindow :=
                mkDecisionWindow "N_OF_M_WITH_CONTINUOUS_MISS" 1 sourceTime
                  (mkTriggerEvidence triggerStart sourceTime (WindowSize plan) (RequiredAnomalies plan)
                     observedAnomalies anomalyBeginTime)
                  (mkRecoveryEvidence (Enabled recoveryPlan) (ConsecutiveWindows recoveryPlan)
                     (observedMisses walked) (oldestWindowStart walked) (skippedWindows walked))
                  (Completeness summary)
                  (mkWindowEvidence (hex_encode (AnomalyDigest summary)) (LateAccepted request)) in
              Ok (with_result outcome res (Completeness summary) decisionWindow detectEvidence,
                  mkLevelResult id (def_LevelCode (Definition_ level)) (def_Priority (Definition_ level)) res
                    decisionWindow detectEvidence (Fingerprints_Trigger level))
      end.

(** ** The record *)

Definition aggregate_step (result : string * bool) (level : LevelResultV1) : string * bool :=
  let '(res, stop) := result in
  if stop then result
  else if (lr_Result level =? LevelResultAbnormal)%string then (LevelResultAbnormal, true)
  else (if (lr_Result level =? LevelResultRecovery)%string then LevelResultRecovery else res, false).

Definition aggregateRecordResultV2 (results : list LevelResultV1) : string :=
  (foldl aggregate_step (LevelResultNormal, false) results).1.

(** The loop of [recoveryGateV2]: the gate and [withoutRecovery]. *)
Definition gate_step (st : RecoveryGateV2 * Z) (outcome : LevelOutcomeV2) : RecoveryGateV2 * Z :=
  let '(gate, withoutRecovery) := st in
  let beside (why : string) :=
    if (Beside gate =? "")%string
    then (mkGate (Held gate) (Cause gate) why (lo_LevelID outcome) (OpenAlertGate gate), withoutRecovery)
    else st in
  if negb (lo_UnavailableReason outcome =? "")%string then beside RecoveryBesideLevelUnavailable
  else if negb (lo_SuppressedReason outcome =? "")%string then st
  else if (lo_Result outcome =? LevelResultNormal)%string then
    if lo_RecoveryEnabled outcome then beside RecoveryBesideLevelRecovering
    else if withoutRecovery =? 0 then (gate, lo_LevelID outcome) else st
  else st.

Definition recoveryGateV2 (outcomes : list LevelOutcomeV2) : RecoveryGateV2 :=
  let '(gate, withoutRecovery) := foldl gate_step (zero_gate, 0) outcomes in
  if (Beside gate =? "")%string && negb (withoutRecovery =? 0)
  then mkGate (Held gate) (Cause gate) RecoveryBesideLevelWithoutRecovery withoutRecovery (OpenAlertGate gate)
  else gate.

Definition oneTimeClose (set : OpenAlertSet) : bool :=
  match OneTimeClose set with Some answer => answer | None => false end.

Definition openAlertGateV2 (gate : RecoveryGateV2) (request : EvaluationRequestV2) (plan : CompiledPlan)
    (strategyID dedupeMD5 : string) : RecoveryGateV2 :=
  let passed (outcome : string) := mkGate (Held gate) (Cause gate) (Beside gate) (BesideLevelID gate) outcome in
  let held (cause outcome : string) := mkGate true cause (Beside gate) (BesideLevelID gate) outcome in
  if negb (WireFormat plan =? WireFormatStandardRawEvent)%string then passed OpenAlertGateProtocolNotGated
  else
    match OpenAlerts request with
    | None => passed OpenAlertGateNotConfigured
    | Some set =>
        if (dedupeMD5 =? "")%string then held RecoveryHeldFingerprintUnknown OpenAlertGateHeldFingerprintUnknown
        else if negb (Contains set (TenantID request) strategyID dedupeMD5) then
          held RecoveryHeldNoOpenAlert OpenAlertGateHeldNoOpenAlert
        else if oneTimeClose set then passed OpenAlertGatePassedOneTimeClose
        else passed OpenAlertGatePassed
    end.

Section evaluate.
Context {Body Subject : Type}.
(** What the record's event is built from outside this package: the base-10
    [strconv.ParseInt], the canonical JSON the builder measures and digests
    ([evidence_bytes], [seal], [CanonicalJSONV2_accepts], as in TriggerEvent.v),
    [MonitorDedupeMD5] and [ProjectMonitorSubject] of the request. *)
Variable ParseInt : string → option Z.
Variable CanonicalJSONV2_accepts : string → bool.
Variable evidence_bytes : list LevelResultV1 → result string Z.
Variable seal : EvaluationRequestV2 → string → string → option StrategySnapshotRef → list LevelResultV1 → Z →
  result string Body.
Variable MonitorDedupeMD5 : EvaluationRequestV2 → result string string.
Variable ProjectMonitorSubject : EvaluationRequestV2 → result string Subject.

Record EvaluationResultV2 : Type := mkResult {
  Completion : string;
  RecordResult : string;
  LevelOutcomes : list LevelOutcomeV2;
  TriggerEvent : option (TriggerEventV1 Body Subject);
  Counts : EvaluationCountsV2;
  RecoveryGate : RecoveryGateV2;
  WithoutMessageFormat : string;
}.

(** A recovery the caller holds. *)
Definition hold_recovery (request : EvaluationRequestV2) (outcome : LevelOutcomeV2) : LevelOutcomeV2 :=
  match HoldRecovery request with
  | Some hold =>
      if (lo_Result outcome =? LevelResultRecovery)%string then
        let '(reason, held) := hold (lo_LevelID outcome) in
        if held : bool then with_unavailable outcome reason (lo_HistoryCompleteness outcome) else outcome
      else outcome
  | None => outcome
  end.

Definition count_outcome (c : EvaluationCountsV2) (outcome : LevelOutcomeV2)
    : result InternalErrorV2 (EvaluationCountsV2 * bool) :=
  let add (evaluated abnormal normal recovery suppressed unavailable : Z) :=
    mkCounts (ec_Levels c) (u64 (ec_Evaluated c + evaluated)) (u64 (ec_Abnormal c + abnormal))
      (u64 (ec_Normal c + normal)) (u64 (ec_Recovery c + recovery)) (u64 (ec_Suppressed c + suppressed))
      (u64 (ec_Unavailable c + unavailable)) (ec_Events c) in
  let one (b : bool) := if b then 1 else 0 in
  if negb (lo_Result outcome =? "")%string then
    Ok (add 1 (one (lo_Result outcome =? LevelResultAbnormal)%string)
          (one (lo_Result outcome =? LevelResultNormal)%string)
          (one (lo_Result outcome =? LevelResultRecovery)%string) 0 0, true)
  else if negb (lo_SuppressedReason outcome =? "")%string then Ok (add 0 0 0 0 1 0, false)
  else if negb (lo_UnavailableReason outcome =? "")%string then Ok (add 0 0 0 0 0 1, false)
  else Err (invariantV2 "classify Level outcome" (lo_LevelID outcome) "empty outcome").

(** The loop over the Levels: outcomes, counts and the successful results. *)
Fixpoint evaluate_levels (request : EvaluationRequestV2) (levels : list CompiledLevel) (facts : list DetectionFact)
    (histories : list (Z * option V)) (effectives : list (Z * EffectiveTimeFact)) (c : EvaluationCountsV2)
    : result InternalErrorV2 (list LevelOutcomeV2 * EvaluationCountsV2 * list LevelResultV1) :=
  match levels, facts, histories, effectives with
  | level :: levels, fact :: facts, (_, Some history) :: histories, (_, effective) :: effectives =>
      eligibility ← EvaluateStateEligibilityV2 (EvaluationTime request) level fact effective;
      '(outcome, successful) ← evaluateLevelV2 request level fact history effective eligibility;
      _ ← fail_if (negb (lo_StateDisposition outcome =? eligibility)%string)
            (invariantV2 "assert state eligibility" (lo_LevelID outcome) "Level outcome changed pre-history disposition");
      let outcome := hold_recovery request outcome in
      '(c, evaluated) ← count_outcome c outcome;
      '(outcomes, c, results) ← evaluate_levels request levels facts histories effectives c;
      Ok (outcome :: outcomes, c, if evaluated : bool then successful :: results else results)
  | _, _, _, _ => Ok ([], c, [])
  end.

(** The snapshot reference and the dedupe identity of a Plan with a frozen
    revision. *)
Definition event_identity (request : EvaluationRequestV2) (plan : CompiledPlan)
    : result InternalErrorV2 (option StrategySnapshotRef * string) :=
  if 0 <? ref_SnapshotRevision plan then
    match ParseInt (ref_StrategyID plan), ParseInt (BusinessID request) with
    | Some strategyID, Some businessID =>
        if negb (ref_TenantID plan =? TenantID request)%string then
          Err (invariantV2 "build strategy snapshot reference" 0 "invalid frozen strategy identity")
        else
          let ref := mkSnapshotRef (ref_TenantID plan) businessID strategyID (ref_SnapshotRevision plan) in
          if cp_outputIdentity plan then
            dedupe ← wrap "build monitor dedupe identity" 0 (MonitorDedupeMD5 request);
            Ok (Some ref, dedupe)
          else Ok (Some ref, ""%string)
    | _, _ => Err (invariantV2 "build strategy snapshot reference" 0 "invalid frozen strategy identity")
    end
  else Ok (None, ""%string).

(** The compatibility context: the actual anomaly times of the primary Level. *)
Fixpoint history_anomalies (request : EvaluationRequestV2) (primary windowStart : Z) (histories : list (Z * option V))
    : result InternalErrorV2 (list Z) :=
  match histories with
  | [] => Ok []
  | (id, view) :: histories =>
      if negb (id =? primary) then history_anomalies request primary windowStart histories
      else
        match view ≫= ForEachAnomaly with
        | None => Err (invariantV2 "legacy anomaly history" primary "history cannot expose actual anomaly timestamps")
        | Some iterate =>
            rest ← history_anomalies request primary windowStart histories;
            Ok (iterate windowStart (ref_SourceTime request) ++ rest)
        end
  end.

Fixpoint legacy_timestamps (request : EvaluationRequestV2) (primary : Z) (timestamps : list Z)
    (results : list LevelResultV1) : result InternalErrorV2 (list Z) :=
  match results with
  | [] => Ok timestamps
  | r :: results =>
      if negb (lr_LevelID r =? primary) then legacy_timestamps request primary timestamps results
      else
        let evidence := dw_Trigger (lr_DecisionWindow r) in
        times ← history_anomalies request primary (tw_WindowStart evidence) (Histories request);
        let timestamps := timestamps ++ times in
        _ ← fail_if (negb (Z.of_nat (length timestamps) =? tw_ObservedAnomalies evidence))
              (invariantV2 "legacy anomaly history" primary "actual anomaly timestamps disagree with trigger evidence");
        legacy_timestamps request primary timestamps results
  end.

Definition attach_legacy (request : EvaluationRequestV2) (plan : CompiledPlan) (event : TriggerEventV1 Body Subject)
    : result InternalErrorV2 (option LegacyEventContext) :=
  if cp_legacyOutput plan && PublishesCompatibleProtocol plan then
    timestamps ← legacy_timestamps request (ev_PrimaryLevelID event) [] (ev_LevelResults event);
    Ok (Some (mkLegacy (filter (λ ts, plan_CompatibleOffBoundary plan ts = false) timestamps)))
  else Ok None.

Definition with_event (r : EvaluationResultV2) (gate : RecoveryGateV2) (event : option (TriggerEventV1 Body Subject))
    (format : string) (events : Z) : EvaluationResultV2 :=
  let c := Counts r in
  mkResult (Completion r) (RecordResult r) (LevelOutcomes r) event
    (mkCounts (ec_Levels c) (ec_Evaluated c) (ec_Abnormal c) (ec_Normal c) (ec_Recovery c) (ec_Suppressed c)
       (ec_Unavailable c) events)
    gate format.

(** The event of a record that is ABNORMAL or RECOVERY. *)
Definition build_event (request : EvaluationRequestV2) (plan : CompiledPlan) (r : EvaluationResultV2)
    (levelResults : list LevelResultV1) : result InternalErrorV2 EvaluationResultV2 :=
  let kind := RecordResult r in
  _ ← fail_if (MaxLevelResultsPerEvent (Limits request) <? u32 (Z.of_nat (length levelResults)))
        (invariantV2 "admit event Level results" 0 "compiled result exceeds admitted limit");
  '(snapshotRef, dedupeMD5) ← event_identity request plan;
  let gate := if (kind =? LevelResultRecovery)%string
              then openAlertGateV2 (RecoveryGate r) request plan (ref_StrategyID plan) dedupeMD5
              else RecoveryGate r in
  if (kind =? LevelResultRecovery)%string && Held gate then Ok (with_event r gate None "" 0)
  else if NoMessageForAt (WireFormat plan) kind (cp_legacyOutput plan && PublishesCompatibleProtocol plan)
            (plan_CompatibleOffBoundary plan (ref_SourceTime request))
  then Ok (with_event r gate None (WireFormat plan) 0)
  else
    event ← wrap "build TriggerEvent" 0
              (BuildTriggerEventV1 CanonicalJSONV2_accepts evidence_bytes (seal request dedupeMD5)
                 (MaxEvidenceBytesPerEvent (Limits request)) kind snapshotRef levelResults);
    legacy ← attach_legacy request plan event;
    subject ← (if cp_outputIdentity plan then
                 subject ← wrap "project event subject" 0 (ProjectMonitorSubject request);
                 Ok (Some subject)
               else Ok None);
    Ok (with_event r gate
          (Some (mkEvent legacy subject (WireFormat plan) (cp_signalType plan) (ev_EventKind event)
                   (ev_PrimaryLevelID event) (ev_StrategyRef event) (ev_LevelResults event) (ev_Body event)))
          "" 1).

Definition EvaluateV2 (request : EvaluationRequestV2) : result InternalErrorV2 EvaluationResultV2 :=
  levels ← validateRequestV2 request;
  '(outcomes, c, levelResults) ←
    evaluate_levels request levels (LevelFacts (Record_ request)) (Histories request) (EffectiveTimeFacts request)
      (mkCounts (Z.of_nat (length levels)) 0 0 0 0 0 0 0);
  let '(completion, recordResult) :=
    match levelResults with
    | _ :: _ => (CompletionEvaluated, aggregateRecordResultV2 levelResults)
    | [] => (if 0 <? ec_Unavailable c then CompletionUnavailable else CompletionSuppressed, ""%string)
    end in
  let gate := if (recordResult =? LevelResultRecovery)%string then recoveryGateV2 outcomes else zero_gate in
  let r := mkResult completion recordResult outcomes None c gate "" in
  match Plan request with
  | Some plan =>
      if (recordResult =? LevelResultAbnormal)%string || (recordResult =? LevelResultRecovery)%string
      then build_event request plan r levelResults
      else Ok r
  | None => Ok r
  end.
End evaluate.
End trigger.
Arguments EvaluationRequestV2 V : clear implicits.
