(* ===== verification/RecoveryWalk.v ===== *)
(** The recovery walk of the trigger: what its bounds are, that it ends, and what
    the misses it counts say of the history. *)
From S2P Require Import Prelude Reason GoHash TriggerEvent History Trigger.

Open Scope Z_scope.

(** ** Checked arithmetic *)

Lemma multiply_spec l r :
  is_u32 l → is_u32 r →
  multiplyUint32ToInt64 l r = if l * r <=? maxInt64 then Some (l * r) else None.
Proof.
  intros Hl Hr. assert (0 ≤ l * r ≤ maxUint32 * maxUint32) as Hb by (go_lia || (unfold is_u32 in *; nia)).
  unfold multiplyUint32ToInt64. rewrite u64_id by (change (maxUint32 * maxUint32) with 18446744065119617025 in Hb; go_lia).
  destruct (Z.ltb_spec maxInt64 (l * r)), (Z.leb_spec (l * r) maxInt64); lia || done.
Qed.

(** A window of [size] positions [step] apart that ends at [e]: it starts one
    second after the position before its first. *)
Lemma windowStart_spec e size step s :
  is_u32 size → is_u32 step → windowStartV2 e size step = Some s →
  s = e - (size * step - 1) ∧ 0 < size * step ∧ s ≤ e ∧ (0 ≤ e → 0 ≤ s).
Proof.
  intros Hs Ht. unfold windowStartV2. rewrite multiply_spec by done.
  destruct (Z.leb_spec (size * step) maxInt64); [|done].
  destruct (Z.eqb_spec (size * step) 0); [done|].
  destruct (Z.ltb_spec e (size * step - 1)); [done|]. intros [= <-].
  assert (0 ≤ size * step) by (unfold is_u32 in *; nia). lia.
Qed.

Lemma requiredHistoryPoints_spec t r n :
  is_u32 (WindowSize t) → is_u32 (ConsecutiveWindows r) → requiredHistoryPointsV2 t r = Some n →
  0 < WindowSize t ∧ RequiredAnomalies t ≠ 0 ∧ StepSeconds t ≠ 0 ∧ WindowSize t ≤ n ≤ maxUint32 ∧
  if Enabled r then 0 < ConsecutiveWindows r ∧ n = WindowSize t + ConsecutiveWindows r - 1
  else ConsecutiveWindows r = 0 ∧ n = WindowSize t.
Proof.
  intros Hw Hc. unfold requiredHistoryPointsV2. destruct (_ || _) eqn:Hz; [done|]. breflect.
  destruct (Enabled r); simpl.
  - destruct (Z.eqb_spec (ConsecutiveWindows r) 0) as [|Hc0]; [done|]. simpl.
    rewrite (u32_id (ConsecutiveWindows r - 1)) by go_lia.
    destruct (Z.ltb_spec (maxUint32 - WindowSize t) (ConsecutiveWindows r - 1)); [done|]. intros [= <-].
    assert (u32 (u32 (WindowSize t + ConsecutiveWindows r) - 1) = WindowSize t + ConsecutiveWindows r - 1) as ->; [|go_lia].
    unfold u32. rewrite Zminus_mod_idemp_l. apply Z.mod_small. go_lia.
  - destruct (Z.eqb_spec (ConsecutiveWindows r) 0); [|done]. intros [= <-]. go_lia.
Qed.

(** ** The walk *)

(** The reference: the offsets of the misses among the [n] windows from [k] on, up
    to the first that triggered or that cannot be formed. *)
Fixpoint misses_from (verdict : Z → option window_verdict) (n : nat) (k : Z) : list Z :=
  match n with
  | O => []
  | S n =>
      match verdict k with
      | None | Some WindowTriggered => []
      | Some WindowOpen => misses_from verdict n (k + 1)
      | Some WindowMiss => k :: misses_from verdict n (k + 1)
      end
  end.

Lemma misses_from_ext verdict verdict' n k :
  (∀ j, k ≤ j → verdict j = verdict' j) → misses_from verdict n k = misses_from verdict' n k.
Proof.
  revert k. induction n as [|n IH]; intros k Heq; cbn [misses_from]; [done|].
  rewrite Heq by lia. rewrite IH by (intros; apply Heq; lia). done.
Qed.

(** The [k]-th window back from [sourceTime], when there is one. *)
Definition window_back (plan : TriggerPlan) (sourceTime k : Z) : option (Z * Z) :=
  let e := sourceTime - k * StepSeconds plan in
  if e <? 0 then None else (λ s, (s, e)) <$> windowStartV2 e (WindowSize plan) (StepSeconds plan).

Definition anomalies_count (obs : list (Z * bool)) (s e : Z) : Z := Z.of_nat (length (anomalies_in obs s e)).
(** The positions of a window nobody observed. *)
Definition holes_in (obs : list (Z * bool)) (size s e : Z) : Z :=
  Z.max 0 (size - Z.of_nat (length (observed_in obs s e))).

(** What the observations say of one window: it triggered; or its holes, were they
    all anomalous, could have made it; or it is a miss. *)
Definition obs_verdict (plan : TriggerPlan) (obs : list (Z * bool)) (s e : Z) : window_verdict :=
  if RequiredAnomalies plan <=? anomalies_count obs s e then WindowTriggered
  else if RequiredAnomalies plan <=? anomalies_count obs s e + holes_in obs (WindowSize plan) s e then WindowOpen
  else WindowMiss.

Definition obs_verdict_at (plan : TriggerPlan) (obs : list (Z * bool)) (sourceTime k : Z) : option window_verdict :=
  (λ w : Z * Z, obs_verdict plan obs w.1 w.2) <$> window_back plan sourceTime k.

Section walk.
Context {V : Type} `{!HistoryView V}.
Variables (history : V) (plan : TriggerPlan) (consecutive retained sourceTime : Z).
Hypothesis plan_size : is_u32 (WindowSize plan).
Hypothesis plan_step : is_u32 (StepSeconds plan).
Hypothesis consecutive_u32 : is_u32 consecutive.
Hypothesis retained_u32 : is_u32 retained.

Notation window_at := (window_back plan sourceTime).

Definition verdict_at (k : Z) : option window_verdict :=
  (λ w : Z * Z, judge_window history plan w.1 w.2) <$> window_at k.

(** What a walk from [offset] adds to its state: the offsets it counted as
    misses, in order; none it walked over triggered. *)
Definition walked_misses (offset : Z) (ks : list Z) : Prop :=
  StronglySorted Z.lt ks ∧
  ∀ k, k ∈ ks → offset ≤ k < retained ∧ verdict_at k = Some WindowMiss ∧
               ∀ j, offset ≤ j ≤ k → ∃ v, verdict_at j = Some v ∧ v ≠ WindowTriggered.

Record walk_bounds (offset : Z) (st : recovery_walk) : Prop := {
  wb_offset : 0 ≤ offset ≤ retained;
  wb_misses : 0 ≤ observedMisses st;
  wb_skipped : 0 ≤ skippedWindows st;
  wb_sum : observedMisses st + skippedWindows st ≤ offset;
  wb_oldest : 0 ≤ oldestWindowStart st ≤ sourceTime;
}.

(** One turn of the loop. *)
Lemma recovery_loop_step fuel offset st :
  is_u32 offset → observedMisses st < consecutive → offset < retained →
  recovery_loop (S fuel) history plan consecutive retained sourceTime offset st =
  if offset * StepSeconds plan <=? maxInt64 then
    match window_at offset with
    | None => Ok st
    | Some (s, e) =>
        match judge_window history plan s e with
        | WindowTriggered => Ok (mkRecoveryWalk (observedMisses st) (skippedWindows st) s)
        | WindowOpen =>
            recovery_loop fuel history plan consecutive retained sourceTime (u32 (offset + 1))
              (mkRecoveryWalk (observedMisses st) (u32 (skippedWindows st + 1)) s)
        | WindowMiss =>
            recovery_loop fuel history plan consecutive retained sourceTime (u32 (offset + 1))
              (mkRecoveryWalk (u32 (observedMisses st + 1)) (skippedWindows st) s)
        end
    end
  else Err "window time overflow"%string.
Proof.
  intros Ho Hm Hr. cbn [recovery_loop].
  rewrite (proj2 (Z.ltb_lt _ _) Hm), (proj2 (Z.ltb_lt _ _) Hr). cbn [andb negb].
  rewrite multiply_spec by done. destruct (_ <=? maxInt64); [|done]. unfold window_back.
  destruct (Z.ltb_spec sourceTime (offset * StepSeconds plan)), (Z.ltb_spec (sourceTime - offset * StepSeconds plan) 0);
    try lia; [done|]. by destruct (windowStartV2 _ _ _).
Qed.

Lemma recovery_loop_done fuel offset st :
  observedMisses st < consecutive ∧ offset < retained ∨
  recovery_loop fuel history plan consecutive retained sourceTime offset st = Ok st.
Proof.
  destruct (Z.lt_ge_cases (observedMisses st) consecutive) as [Hm|Hm].
  - destruct (Z.lt_ge_cases offset retained) as [Ho|Ho]; [by left|right].
    destruct fuel; [done|]. cbn [recovery_loop]. by rewrite (proj2 (Z.ltb_ge offset retained) Ho), andb_false_r.
  - right. destruct fuel; [done|]. cbn [recovery_loop]. by rewrite (proj2 (Z.ltb_ge _ consecutive) Hm).
Qed.

Lemma window_at_spec k s e :
  0 ≤ k → window_at k = Some (s, e) →
  e = sourceTime - k * StepSeconds plan ∧ 0 ≤ s ≤ e ∧ e ≤ sourceTime ∧ s = e - (WindowSize plan * StepSeconds plan - 1).
Proof.
  intros Hk. unfold window_back. destruct (Z.ltb_spec (sourceTime - k * StepSeconds plan) 0) as [|He]; [done|].
  intros (s' & Hs & Heq)%fmap_Some_1. injection Heq as Hs' He'. subst s e. apply windowStart_spec in Hs as (-> & ? & ? & H0); [|done..].
  specialize (H0 He). assert (0 ≤ k * StepSeconds plan) by (unfold is_u32 in *; nia). lia.
Qed.

Lemma recovery_loop_sound fuel : ∀ offset st st',
  walk_bounds offset st → offset + Z.of_nat fuel ≤ retained →
  recovery_loop fuel history plan consecutive retained sourceTime offset st = Ok st' →
  walk_bounds retained st' ∧
  ∃ ks, walked_misses offset ks ∧ observedMisses st' = observedMisses st + Z.of_nat (length ks).
Proof.
  induction fuel as [|fuel IH]; intros offset st st' Hb Hfuel.
  - intros [= <-]. split; [destruct Hb; split; lia|]. exists []. split; [split; [constructor|set_solver]|simpl; lia].
  - destruct (recovery_loop_done (S fuel) offset st) as [[Hm Ho]| ->].
    2: { intros [= <-]. split; [destruct Hb; split; lia|]. exists []. split; [split; [constructor|set_solver]|simpl; lia]. }
    destruct Hb as [Hof Hmis Hsk Hsum Hold].
    rewrite recovery_loop_step by (done || go_lia).
    destruct (_ <=? maxInt64); [|done]. destruct (window_at offset) as [[s e]|] eqn:Hwin.
    2: { intros [= <-]. split; [split; lia|]. exists []. split; [split; [constructor|set_solver]|simpl; lia]. }
    destruct (window_at_spec offset s e) as (_ & ? & ? & _); [lia|done|].
    assert (verdict_at offset = Some (judge_window history plan s e)) as Hv by (unfold verdict_at; by rewrite Hwin).
    destruct (judge_window history plan s e) eqn:Hj.
    + intros [= <-]. split; [split; simpl; lia|]. exists []. split; [split; [constructor|set_solver]|simpl; lia].
    + rewrite !u32_id by go_lia. intros Hloop. apply IH in Hloop as (Hb' & ks & [Hsorted Hks] & Hcount); [|split; simpl; lia|lia].
      split; [done|]. exists ks. split; [|done]. split; [done|]. intros k Hk.
      destruct (Hks k Hk) as (Hrange & Hmiss & Hbefore). split_and!; [lia..|done|]. intros j Hj'.
      destruct (decide (j = offset)) as [->|]; [by exists WindowOpen|apply Hbefore; lia].
    + rewrite !u32_id by go_lia. intros Hloop. apply IH in Hloop as (Hb' & ks & [Hsorted Hks] & Hcount); [|split; simpl; lia|lia].
      split; [done|]. exists (offset :: ks). split; [|cbn [length observedMisses] in *; lia]. split.
      * constructor; [done|]. apply Forall_forall. intros k Hk. destruct (Hks k Hk) as (? & _). lia.
      * intros k [->|Hk]%elem_of_cons.
        -- split_and!; [lia..|done|]. intros j Hj'. replace j with offset by lia. by exists WindowMiss.
        -- destruct (Hks k Hk) as (Hrange & Hmiss & Hbefore). split_and!; [lia..|done|]. intros j Hj'.
           destruct (decide (j = offset)) as [->|]; [by exists WindowMiss|apply Hbefore; lia].
Qed.

(** The loop counts the reference's misses until it has enough, never runs out of
    its fuel, and never overflows as long as one step past the record fits. *)
Lemma recovery_loop_exact fuel : ∀ offset st,
  0 ≤ sourceTime → sourceTime + StepSeconds plan ≤ maxInt64 →
  walk_bounds offset st → offset + Z.of_nat fuel = retained → observedMisses st ≤ consecutive →
  offset * StepSeconds plan ≤ sourceTime + StepSeconds plan →
  ∃ st', recovery_loop fuel history plan consecutive retained sourceTime offset st = Ok st' ∧
         observedMisses st' = Z.min consecutive (observedMisses st + Z.of_nat (length (misses_from verdict_at fuel offset))).
Proof.
  induction fuel as [|fuel IH]; intros offset st Ht Hfit Hb Hfuel Hle Hshift.
  { exists st. split; [done|]. simpl. lia. }
  destruct (Z.lt_ge_cases (observedMisses st) consecutive) as [Hm|Hm].
  2: { exists st. split; [|lia]. destruct (recovery_loop_done (S fuel) offset st) as [[? _]|]; [lia|done]. }
  destruct Hb as [Hof Hmis Hsk Hsum Hold].
  rewrite recovery_loop_step by (lia || go_lia).
  rewrite (proj2 (Z.leb_le _ _)) by lia. cbn [misses_from].
  assert (verdict_at offset = (λ w : Z * Z, judge_window history plan w.1 w.2) <$> window_at offset) as Hv by done.
  rewrite Hv. destruct (window_at offset) as [[s e]|] eqn:Hwin; simpl.
  2: { exists st. split; [done|]. lia. }
  destruct (window_at_spec offset s e) as (He & ? & ? & _); [lia|done|].
  assert (offset * StepSeconds plan ≤ sourceTime) as Hin by lia.
  destruct (judge_window history plan s e) eqn:Hj.
  - eexists. split; [done|]. simpl. lia.
  - rewrite !u32_id by go_lia. apply (IH (offset + 1) (mkRecoveryWalk (observedMisses st) (skippedWindows st + 1) s));
      [done|done|split; simpl; lia|lia|simpl; lia|lia].
  - rewrite !u32_id by go_lia.
    destruct (IH (offset + 1) (mkRecoveryWalk (observedMisses st + 1) (skippedWindows st) s)) as (st' & Hst & Hcount);
      [done|done|split; simpl; lia|lia|simpl; lia|lia|].
    exists st'. split; [done|]. rewrite Hcount. cbn [observedMisses length]. lia.
Qed.

(** ** What a window says of a represented history *)

Section represented.
Variable obs : list (Z * bool).
Hypothesis Hrep : represents history obs.

Lemma judge_window_spec s e : judge_window history plan s e = obs_verdict plan obs s e.
Proof.
  unfold judge_window, obs_verdict, anomalies_count, holes_in.
  pose proof (represents_counts history obs Hrep s e) as [Hle Hmax].
  rewrite <- (represents_anomalies _ _ Hrep), <- (represents_observed _ _ Hrep).
  destruct (Z.leb_spec (RequiredAnomalies plan) (CountAnomalies history s e)); [done|].
  destruct (Z.ltb_spec (CountObserved history s e) (WindowSize plan)).
  - rewrite u32_id by go_lia. by rewrite Z.max_r by lia.
  - rewrite u32_id by go_lia. by rewrite Z.max_l by lia.
Qed.

Lemma verdict_at_spec k : verdict_at k = obs_verdict_at plan obs sourceTime k.
Proof.
  unfold verdict_at, obs_verdict_at. destruct (window_at k) as [[s e]|]; simpl; [|done]. by rewrite judge_window_spec.
Qed.
End represented.
End walk.
