(* ===== verification/TriggerLevel.v ===== *)
(** One Level of the trigger ([Trigger.evaluateLevelV2]): the verdict as a function
    of the observed history, what a recovery rests on, and that the Level result
    is one the event contract admits. *)
From S2P Require Import Prelude Decimal DecimalSpec Reason GoHash TriggerEvent History Trigger RecoveryWalk.

Open Scope Z_scope.

(** The Go types of the fields the trigger reads. *)
Record level_in_range (level : CompiledLevel) : Prop := {
  lir_size : is_u32 (WindowSize (Trigger level));
  lir_step : is_u32 (StepSeconds (Trigger level));
  lir_required : is_u32 (RequiredAnomalies (Trigger level));
  lir_consecutive : is_u32 (ConsecutiveWindows (Recovery level));
  lir_retention : is_u32 (StateRequirement_RetentionPoints level);
}.

Section level.
Context {V : Type} `{!HistoryView V}.
Implicit Types (request : EvaluationRequestV2 V) (level : CompiledLevel) (fact : DetectionFact) (history : V).

Lemma wrap_Ok {A} op id (r : result string A) a : wrap op id r = Ok a ↔ r = Ok a.
Proof. destruct r; simpl; split; congruence. Qed.

(** The walk a Level's evaluation makes. *)
Definition level_walk level history (sourceTime triggerStart : Z) (abnormal : bool) : result string recovery_walk :=
  let start := mkRecoveryWalk 0 0 triggerStart in
  if Enabled (Recovery level) && negb abnormal then
    recovery_loop (Z.to_nat (StateRequirement_RetentionPoints level)) history (Trigger level)
      (ConsecutiveWindows (Recovery level)) (StateRequirement_RetentionPoints level) sourceTime 0 start
  else Ok start.

Definition is_abnormal level fact (observedAnomalies : Z) : bool :=
  (df_Result fact =? DetectionAnomalous)%string && (RequiredAnomalies (Trigger level) <=? observedAnomalies).
Definition is_recovered level (abnormal : bool) (w : recovery_walk) : bool :=
  negb abnormal && Enabled (Recovery level) && (ConsecutiveWindows (Recovery level) <=? observedMisses w).

Definition level_summary request level history : HistorySummary :=
  Summarize history (SourceTime (Record_ request)) (default 0 (requiredHistoryPointsV2 (Trigger level) (Recovery level))).

(** Everything a decided Level was decided from. *)
Record decided request level fact history (outcome : LevelOutcomeV2) (r : LevelResultV1)
    (d : DetectEvidenceV1) (triggerStart : Z) (w : recovery_walk) : Prop := {
  decided_evidence : buildDetectEvidenceV2 (Record_ request) fact EffectiveTimeActive = Ok d;
  decided_window : windowStartV2 (SourceTime (Record_ request)) (WindowSize (Trigger level)) (StepSeconds (Trigger level))
                   = Some triggerStart;
  decided_summary : is_ok (validateHistorySummaryV2 (SourceTime (Record_ request))
      (default 0 (requiredHistoryPointsV2 (Trigger level) (Recovery level))) (StepSeconds (Trigger level))
      (level_summary request level history)) = true;
  decided_count : CountAnomalies history triggerStart (SourceTime (Record_ request)) ≤ WindowSize (Trigger level);
  decided_walk : level_walk level history (SourceTime (Record_ request)) triggerStart
      (is_abnormal level fact (CountAnomalies history triggerStart (SourceTime (Record_ request)))) = Ok w;
  decided_outcome :
    let abnormal := is_abnormal level fact (CountAnomalies history triggerStart (SourceTime (Record_ request))) in
    let recovered := is_recovered level abnormal w in
    let completeness := Completeness (level_summary request level history) in
    if negb abnormal && negb recovered && negb (completeness =? HistoryFull)%string then
      outcome = with_unavailable (open_outcome level (lo_StateDisposition outcome)) (historyReasonV2 completeness) completeness
    else
      let res := if abnormal then LevelResultAbnormal else if recovered then LevelResultRecovery else LevelResultNormal in
      let window :=
        mkDecisionWindow "N_OF_M_WITH_CONTINUOUS_MISS" 1 (SourceTime (Record_ request))
          (mkTriggerEvidence triggerStart (SourceTime (Record_ request)) (WindowSize (Trigger level))
             (RequiredAnomalies (Trigger level)) (CountAnomalies history triggerStart (SourceTime (Record_ request)))
             (FirstAnomaly history triggerStart (SourceTime (Record_ request))).1)
          (mkRecoveryEvidence (Enabled (Recovery level)) (ConsecutiveWindows (Recovery level))
             (observedMisses w) (oldestWindowStart w) (skippedWindows w))
          completeness
          (mkWindowEvidence (hex_encode (AnomalyDigest (level_summary request level history))) (LateAccepted request)) in
      outcome = with_result (open_outcome level (lo_StateDisposition outcome)) res completeness window d ∧
      r = mkLevelResult (def_LevelID (Definition_ level)) (def_LevelCode (Definition_ level))
            (def_Priority (Definition_ level)) res window d (Fingerprints_Trigger level);
}.

Definition fact_usable fact : bool :=
  (df_Result fact =? DetectionAnomalous)%string || (df_Result fact =? DetectionNormal)%string.

(** An evaluation that returns has its Level unavailable, suppressed, or decided. *)
Lemma evaluateLevel_inv request level fact history effective eligibility outcome r :
  evaluateLevelV2 request level fact history effective eligibility = Ok (outcome, r) →
  lo_StateDisposition outcome = eligibility ∧
  if negb (fact_usable fact) then
    outcome = with_unavailable (open_outcome level eligibility) (df_ReasonCode fact) ""
  else if (ef_status effective =? EffectiveTimeInactive)%string then
    outcome = with_suppressed (open_outcome level eligibility) ReasonEffectiveTimeInactive
  else if (ef_status effective =? EffectiveTimeUnknown)%string then
    outcome = with_unavailable (open_outcome level eligibility) ReasonEffectiveTimeUnknown ""
  else ef_status effective = EffectiveTimeActive ∧
       ∃ d triggerStart w, decided request level fact history outcome r d triggerStart w.
Proof.
  unfold evaluateLevelV2. fold (fact_usable fact). fold (level_summary request level history).
  destruct (fact_usable fact); simpl.
  2: { intros [= <- <-]. done. }
  intros (d & Hd%wrap_Ok & H)%bind_Ok. revert H.
  destruct (ef_status effective =? EffectiveTimeInactive)%string; [by intros [= <- <-]|].
  destruct (ef_status effective =? EffectiveTimeUnknown)%string; [by intros [= <- <-]|].
  destruct (String.eqb_spec (ef_status effective) EffectiveTimeActive) as [Hact|]; [simpl|done].
  intros (u & Hs%wrap_Ok & H)%bind_Ok. revert H.
  destruct (windowStartV2 _ _ _) as [triggerStart|] eqn:Hwin; [|done].
  destruct (Z.ltb_spec (WindowSize (Trigger level))
              (CountAnomalies history triggerStart (SourceTime (Record_ request)))) as [|Hcount]; [done|].
  fold (is_abnormal level fact (CountAnomalies history triggerStart (SourceTime (Record_ request)))).
  set (abnormal := is_abnormal level fact _).
  intros (w & Hw & H)%bind_Ok. fold (is_recovered level abnormal w) in H.
  assert (level_walk level history (SourceTime (Record_ request)) triggerStart abnormal = Ok w) as Hwalk.
  { unfold level_walk. destruct (Enabled (Recovery level) && negb abnormal); [|by injection Hw as <-].
    destruct (_ =? 0); [done|]. by apply wrap_Ok in Hw. }
  assert (lo_StateDisposition outcome = eligibility) as Hdisp.
  { destruct (negb abnormal && _ && _); by injection H as <- <-. }
  split; [done|]. split; [done|]. exists d, triggerStart, w.
  split; [done|done|by rewrite Hs|done|done|]. fold abnormal. simpl. rewrite Hdisp.
  destruct (negb abnormal && _ && _); injection H as <- <-; done.
Qed.
End level.

(** ** The verdict *)

(** The verdict of an active Level with a usable fact, from the observations
    alone. *)
Definition reference_verdict (level : CompiledLevel) (fact : DetectionFact) (obs : list (Z * bool))
    (sourceTime : Z) (completeness : string) : string :=
  let plan := Trigger level in
  let start := sourceTime - (WindowSize plan * StepSeconds plan - 1) in
  if (df_Result fact =? DetectionAnomalous)%string && (RequiredAnomalies plan <=? anomalies_count obs start sourceTime)
  then LevelResultAbnormal
  else if Enabled (Recovery level)
          && (ConsecutiveWindows (Recovery level)
              <=? Z.of_nat (length (misses_from (obs_verdict_at plan obs sourceTime)
                                      (Z.to_nat (StateRequirement_RetentionPoints level)) 0)))
  then LevelResultRecovery
  else if (completeness =? HistoryFull)%string then LevelResultNormal else "".

Section verdict.
Context {V : Type} `{!HistoryView V}.
Implicit Types (request : EvaluationRequestV2 V) (level : CompiledLevel) (fact : DetectionFact) (history : V).

Lemma window_back_0 level sourceTime s :
  0 ≤ sourceTime → windowStartV2 sourceTime (WindowSize (Trigger level)) (StepSeconds (Trigger level)) = Some s →
  window_back (Trigger level) sourceTime 0 = Some (s, sourceTime).
Proof.
  intros Ht Hs. unfold window_back. rewrite Z.mul_0_l, Z.sub_0_r, Hs.
  by destruct (Z.ltb_spec sourceTime 0); [lia|].
Qed.

Lemma start_bounds level sourceTime s :
  level_in_range level → 0 ≤ sourceTime →
  windowStartV2 sourceTime (WindowSize (Trigger level)) (StepSeconds (Trigger level)) = Some s →
  walk_bounds (StateRequirement_RetentionPoints level) sourceTime 0 (mkRecoveryWalk 0 0 s).
Proof.
  intros [] Ht Hs. apply windowStart_spec in Hs as (-> & ? & ? & H0); [|done..]. specialize (H0 Ht).
  split; simpl; unfold is_u32 in *; lia.
Qed.

(** The walk is the reference's count, up to the number of windows needed. *)
Lemma level_walk_exact level history obs sourceTime s w :
  represents history obs → level_in_range level → 0 ≤ sourceTime →
  sourceTime + StepSeconds (Trigger level) ≤ maxInt64 →
  windowStartV2 sourceTime (WindowSize (Trigger level)) (StepSeconds (Trigger level)) = Some s →
  Enabled (Recovery level) = true → level_walk level history sourceTime s false = Ok w →
  observedMisses w = Z.min (ConsecutiveWindows (Recovery level))
    (Z.of_nat (length (misses_from (obs_verdict_at (Trigger level) obs sourceTime)
                         (Z.to_nat (StateRequirement_RetentionPoints level)) 0))).
Proof.
  intros Hrep Hin Ht Hfit Hs Hen. pose proof (start_bounds _ _ _ Hin Ht Hs) as Hb. destruct Hin as [? ? ? Hc Hret].
  unfold level_walk. rewrite Hen. simpl.
  destruct (recovery_loop_exact history (Trigger level) (ConsecutiveWindows (Recovery level))
              (StateRequirement_RetentionPoints level) sourceTime ltac:(done) ltac:(done) ltac:(done) ltac:(done)
              (Z.to_nat (StateRequirement_RetentionPoints level)) 0 (mkRecoveryWalk 0 0 s))
    as (w' & -> & Hcount); try done; try (unfold is_u32 in *; simpl in *; lia).
  intros [= <-]. rewrite Hcount.
  rewrite (misses_from_ext (verdict_at history (Trigger level) sourceTime) (obs_verdict_at (Trigger level) obs sourceTime));
    [done|]. intros j _. by apply verdict_at_spec.
Qed.

Lemma level_verdict_spec request level fact history obs effective eligibility outcome r :
  represents history obs → level_in_range level →
  0 ≤ SourceTime (Record_ request) → SourceTime (Record_ request) + StepSeconds (Trigger level) ≤ maxInt64 →
  fact_usable fact = true → ef_status effective = EffectiveTimeActive →
  evaluateLevelV2 request level fact history effective eligibility = Ok (outcome, r) →
  let completeness := Completeness (level_summary request level history) in
  lo_Result outcome = reference_verdict level fact obs (SourceTime (Record_ request)) completeness ∧
  lo_HistoryCompleteness outcome = completeness ∧
  lo_SuppressedReason outcome = "" ∧
  lo_UnavailableReason outcome = (if (lo_Result outcome =? "")%string then historyReasonV2 completeness else "").
Proof.
  intros Hrep Hin Ht Hfit Hu Hact [_ H]%evaluateLevel_inv completeness. rewrite Hu, Hact in H. simpl in H.
  destruct H as (_ & d & s & w & [_ Hwin _ Hcount Hwalk Hout]).
  assert (s = SourceTime (Record_ request) - (WindowSize (Trigger level) * StepSeconds (Trigger level) - 1)) as Hs
    by (destruct Hin; by apply windowStart_spec in Hwin as (-> & _)).
  set (abnormal := is_abnormal level fact _) in *.
  assert (abnormal = (df_Result fact =? DetectionAnomalous)%string
    && (RequiredAnomalies (Trigger level) <=? anomalies_count obs s (SourceTime (Record_ request)))) as Habn.
  { unfold abnormal, is_abnormal, anomalies_count. by rewrite (represents_anomalies _ _ Hrep). }
  assert (is_recovered level abnormal w = negb abnormal && (Enabled (Recovery level)
          && (ConsecutiveWindows (Recovery level)
              <=? Z.of_nat (length (misses_from (obs_verdict_at (Trigger level) obs (SourceTime (Record_ request)))
                                      (Z.to_nat (StateRequirement_RetentionPoints level)) 0))))) as Hrec.
  { unfold is_recovered. destruct abnormal; [done|]. simpl. destruct (Enabled (Recovery level)) eqn:Hen; [|done]. simpl.
    rewrite (level_walk_exact level history obs _ s w) by done.
    destruct (Z.leb_spec (ConsecutiveWindows (Recovery level)) (Z.min (ConsecutiveWindows (Recovery level))
      (Z.of_nat (length (misses_from (obs_verdict_at (Trigger level) obs (SourceTime (Record_ request)))
                           (Z.to_nat (StateRequirement_RetentionPoints level)) 0)))));
    symmetry; [apply Z.leb_le|apply Z.leb_gt]; lia. }
  unfold reference_verdict. rewrite <- Hs, <- Habn. fold completeness in Hout. simpl in Hout. rewrite Hrec in Hout.
  destruct abnormal; simpl in *; [by destruct Hout as [-> _]|].
  destruct (Enabled (Recovery level) && _); simpl in *; [by destruct Hout as [-> _]|].
  destruct (completeness =? HistoryFull)%string; simpl in *; [by destruct Hout as [-> _]|by rewrite Hout].
Qed.

(** C1: an active Level with a usable fact gets the verdict the observations call
    for: ABNORMAL when the record is anomalous and the trigger window holds enough
    anomalies; otherwise RECOVERY when recovery is enabled and enough windows are
    misses before one that triggered, counting every hole as a possible anomaly;
    otherwise NORMAL on a full history, and no verdict on any other, with the
    history's reason. *)
Theorem level_verdict request level fact history obs effective eligibility outcome r :
  represents history obs → level_in_range level →
  0 ≤ SourceTime (Record_ request) → SourceTime (Record_ request) + StepSeconds (Trigger level) ≤ maxInt64 →
  fact_usable fact = true → ef_status effective = EffectiveTimeActive →
  evaluateLevelV2 request level fact history effective eligibility = Ok (outcome, r) →
  let completeness := Completeness (level_summary request level history) in
  lo_Result outcome = reference_verdict level fact obs (SourceTime (Record_ request)) completeness ∧
  lo_HistoryCompleteness outcome = completeness ∧
  lo_SuppressedReason outcome = "" ∧
  lo_UnavailableReason outcome = (if (lo_Result outcome =? "")%string then historyReasonV2 completeness else "").
Proof. apply level_verdict_spec. Qed.

(** C2: a RECOVERY is observed, never assumed: there are at least as many windows
    back from the record, within the Level's retention, as the plan asks for, in
    each of which the anomalies and the holes together stay short of the trigger,
    and no window up to the oldest of them triggered. *)
Theorem recovery_sound request level fact history obs effective eligibility outcome r :
  represents history obs → level_in_range level → 0 ≤ SourceTime (Record_ request) →
  evaluateLevelV2 request level fact history effective eligibility = Ok (outcome, r) →
  lo_Result outcome = LevelResultRecovery →
  let plan := Trigger level in
  let window (k : Z) := (SourceTime (Record_ request) - k * StepSeconds plan - (WindowSize plan * StepSeconds plan - 1),
                         SourceTime (Record_ request) - k * StepSeconds plan) in
  Enabled (Recovery level) = true ∧
  ∃ ks, ConsecutiveWindows (Recovery level) ≤ Z.of_nat (length ks) ∧ StronglySorted Z.lt ks ∧
    ∀ k, k ∈ ks →
      0 ≤ k < StateRequirement_RetentionPoints level ∧ 0 ≤ (window k).1 ∧
      anomalies_count obs (window k).1 (window k).2 + holes_in obs (WindowSize plan) (window k).1 (window k).2
        < RequiredAnomalies plan ∧
      ∀ j, 0 ≤ j ≤ k → anomalies_count obs (window j).1 (window j).2 < RequiredAnomalies plan.
Proof.
  intros Hrep Hin Ht [_ H]%evaluateLevel_inv Hres plan window.
  destruct (fact_usable fact); simpl in H; [|by rewrite H in Hres].
  destruct (ef_status effective =? EffectiveTimeInactive)%string; [by rewrite H in Hres|].
  destruct (ef_status effective =? EffectiveTimeUnknown)%string; [by rewrite H in Hres|].
  destruct H as (_ & d & s & w & [_ Hwin _ _ Hwalk Hout]). simpl in Hout.
  set (abnormal := is_abnormal level fact _) in *.
  destruct abnormal; simpl in Hout; [destruct Hout as [Hout _]; by rewrite Hout in Hres|].
  destruct (is_recovered level false w) eqn:Hrec; simpl in Hout.
  2: { destruct (negb _); [by rewrite Hout in Hres|destruct Hout as [Hout _]; by rewrite Hout in Hres]. }
  unfold is_recovered in Hrec. simpl in Hrec. breflect. split; [done|].
  pose proof (start_bounds _ _ _ Hin Ht Hwin) as Hb. destruct Hin as [? ? ? Hc Hret].
  unfold level_walk in Hwalk. rewrite H in Hwalk. simpl in Hwalk.
  apply recovery_loop_sound in Hwalk as (_ & ks & [Hsorted Hks] & Hcount); [|done..|unfold is_u32 in *; lia].
  simpl in Hcount. exists ks. split; [lia|]. split; [done|]. intros k Hk.
  assert (∀ j v, 0 ≤ j → verdict_at history plan (SourceTime (Record_ request)) j = Some v →
            obs_verdict plan obs (window j).1 (window j).2 = v ∧ 0 ≤ (window j).1) as Hverdict.
  { intros j v Hj. unfold verdict_at. destruct (window_back plan (SourceTime (Record_ request)) j) as [[s' e']|] eqn:Hwb; [|done].
    apply window_at_spec in Hwb as (-> & [? ?] & _ & ->); [|done..]. intros [= <-]. split; [|done].
    symmetry. by apply judge_window_spec. }
  destruct (Hks k Hk) as (Hrange & Hmiss & Hbefore). destruct (Hverdict k _ ltac:(lia) Hmiss) as [Hv Hw0].
  split_and!; [lia..|done| |].
  - unfold obs_verdict in Hv. destruct (Z.leb_spec (RequiredAnomalies plan) (anomalies_count obs (window k).1 (window k).2)); [done|].
    destruct (Z.leb_spec (RequiredAnomalies plan) (anomalies_count obs (window k).1 (window k).2
                                                    + holes_in obs (WindowSize plan) (window k).1 (window k).2)); done.
  - intros j Hj. destruct (Hbefore j Hj) as (v & Hvj & Hne). destruct (Hverdict j v ltac:(lia) Hvj) as [Hj' _].
    unfold obs_verdict in Hj'.
    destruct (Z.leb_spec (RequiredAnomalies plan) (anomalies_count obs (window j).1 (window j).2)); [|done]. congruence.
Qed.
End verdict.

(** ** The Level result is one the contract admits *)

Lemma bytes_of_string_length s : length (bytes_of_string s) = String.length s.
Proof. induction s; simpl; congruence. Qed.

Lemma lower_hex_digit n : 0 ≤ n < 16 → lower_hex_byte (Z.of_N (Ascii.N_of_ascii (hex_digit n))) = true.
Proof.
  intros Hn. rewrite <- (Z2Nat.id n) by lia. assert (Z.to_nat n < 16)%nat as Hlt by lia. revert Hlt. clear Hn.
  generalize (Z.to_nat n) as k. intros k Hk. do 16 (destruct k as [|k]; [by vm_compute|]). lia.
Qed.

Definition is_byte (b : Z) : Prop := 0 ≤ b < 256.

Lemma hex_encode_pattern bytes :
  length bytes = 32%nat → Forall is_byte bytes → sha256Pattern (hex_encode bytes) = true.
Proof.
  intros Hlen Hbytes. unfold sha256Pattern. rewrite <- bytes_of_string_length.
  assert (length (bytes_of_string (hex_encode bytes)) = 2 * length bytes)%nat as ->.
  { clear. induction bytes as [|b bytes IH]; [done|]. cbn [hex_encode bytes_of_string length]. lia. }
  rewrite Hlen. simpl. apply forallb_forall. clear Hlen.
  induction Hbytes as [|b bytes [Hb0 Hb] _ IH]; cbn [hex_encode bytes_of_string]; [done|].
  intros x [<-|[<-|Hx]].
  - apply lower_hex_digit. rewrite Z.shiftr_div_pow2 by lia. change (2 ^ 4) with 16.
    split; [by apply Z.div_pos|]. apply Z.div_lt_upper_bound; lia.
  - apply lower_hex_digit. change 15 with (Z.ones 4). rewrite Z.land_ones by lia. apply Z.mod_pos_bound. lia.
  - by apply IH.
Qed.

(** A digest the trigger accepts is one the contract accepts. *)
Lemma validDigest_pattern s : validDigestV2 s = true → sha256Pattern s = true.
Proof.
  unfold validDigestV2, sha256Pattern. intros [[Hlen Hhex]%andb_true_iff Hlow%bool_decide_eq_true]%andb_true_iff.
  apply andb_true_iff. split; [done|]. apply forallb_forall. intros c Hc.
  assert (to_lower_byte c = c) as Hc'.
  { apply list_elem_of_In, list_elem_of_lookup in Hc as [i Hi].
    assert (to_lower_byte <$> bytes_of_string s !! i = Some c) as Hi'.
    { rewrite <- list_lookup_fmap. by rewrite Hlow. }
    rewrite Hi in Hi'. by injection Hi'. }
  rewrite forallb_forall in Hhex. specialize (Hhex c Hc). unfold hex_byte in Hhex.
  apply orb_true_iff in Hhex as [|Hup]; [done|]. exfalso. unfold to_lower_byte in Hc'. breflect.
  destruct (Z.leb_spec 65 c), (Z.leb_spec c 90); simpl in Hc'; lia.
Qed.

(** ** What the contract's JSON makes of a canonical decimal

    [CanonicalJSONV2] keeps a number as it is written, and refuses it when it has a
    decimal point and no finite float64 is nearest to it (contract/schema.go,
    [walkJSONValue]; contract/v2_canonical_stream.go, [number]). *)

(** The digits of a decimal with six decimals: its absolute value in millionths. *)
Definition millionths (value : string) : Z :=
  foldl (λ total c, if (48 <=? c) && (c <=? 57) then 10 * total + (c - 48) else total) 0 (bytes_of_string value).

(** [ParseFloat(value, 64)] overflows from halfway between the largest float64 and
    2^1024 on. *)
Definition float64_finite (value : string) : bool := millionths value <? (2 ^ 1024 - 2 ^ 970) * 10 ^ 6.

Lemma millionths_bound value : 0 ≤ millionths value < 10 ^ Z.of_nat (String.length value).
Proof.
  unfold millionths. assert (String.length value = length (bytes_of_string value)) as -> by (induction value; simpl; congruence).
  induction (bytes_of_string value) as [|c bytes IH] using rev_ind; [by simpl|].
  rewrite foldl_snoc, length_app. simpl length. rewrite Nat.add_1_r, Nat2Z.inj_succ, Z.pow_succ_r by lia.
  destruct (Z.leb_spec 48 c), (Z.leb_spec c 57); simpl; lia.
Qed.

(** What the normalizer prints is finite. *)
Lemma normalized_finite n : number_ok n → float64_finite (Decimal.CanonicalDecimal n) = true.
Proof.
  intros Hn. destruct (canonical_text n Hn) as (sign & integer & fraction & -> & -> & _ & _ & Hf & _ & Hi).
  unfold float64_finite. apply Z.ltb_lt. eapply Z.lt_le_trans; [apply millionths_bound|].
  transitivity (10 ^ 41); [|by vm_compute]. apply Z.pow_le_mono_r; [lia|]. rewrite !length_app_str, Hf.
  destruct (negative n); cbn [String.length]; lia.
Qed.

Section admissible.
Context {V : Type} `{!HistoryView V}.
Implicit Types (request : EvaluationRequestV2 V) (level : CompiledLevel) (fact : DetectionFact) (history : V).
Variable CanonicalJSONV2_accepts : string → bool.
Hypothesis canonical_decimals : ∀ s, validCanonicalDecimalV2 s = true → CanonicalJSONV2_accepts s = float64_finite s.

(** What the compiler gives every Level of an admitted Plan. *)
Record level_compiled (level : CompiledLevel) : Prop := {
  lc_range : level_in_range level;
  lc_id : def_LevelID (Definition_ level) ≠ 0;
  lc_priority : def_Priority (Definition_ level) ≠ 0;
  lc_fingerprint : sha256Pattern (Fingerprints_Trigger level) = true;
  lc_history : is_Some (requiredHistoryPointsV2 (Trigger level) (Recovery level));
}.

(** A summary's digest is a SHA-256 sum, by its Go type. *)
Definition digest_typed (s : HistorySummary) : Prop :=
  length (AnomalyDigest s) = 32%nat ∧ Forall is_byte (AnomalyDigest s).

Lemma built_evidence record fact d :
  buildDetectEvidenceV2 record fact EffectiveTimeActive = Ok d →
  de_DetectionResult d = df_Result fact ∧ sha256Pattern (de_PredicateDigest d) = true ∧
  (de_NormalizedValue d =? "")%string = false ∧ CanonicalJSONV2_accepts (de_NormalizedValue d) = float64_finite (de_NormalizedValue d) ∧
  de_EffectiveTimeStatus d = "ACTIVE".
Proof.
  unfold buildDetectEvidenceV2. destruct (ProjectedValueOrdinal _); [|done].
  case_cond; [done|]. destruct (_ !! _) as [p|]; [|done]. case_cond; [done|]. intros [= <-]. simpl. breflect.
  split_and!; [done|by apply validDigest_pattern| |by apply canonical_decimals|done].
  by destruct (Trigger.CanonicalDecimal p).
Qed.

Lemma validated_summary request level history :
  is_ok (validateHistorySummaryV2 (SourceTime (Record_ request))
    (default 0 (requiredHistoryPointsV2 (Trigger level) (Recovery level))) (StepSeconds (Trigger level))
    (level_summary request level history)) = true →
  Completeness (level_summary request level history) ∈ [HistoryFull; HistoryWarming; HistoryGapped].
Proof.
  unfold validateHistorySummaryV2. intros H.
  destruct (fail_if (negb (bool_decide (Completeness _ ∈ _))) _) as [u|] eqn:Hc; [|done].
  apply fail_if_Ok in Hc. by breflect.
Qed.

(** The window evidence of a decided Level is within its bounds. *)
Lemma decided_window_valid request level fact history outcome r d s w completeness :
  level_compiled level → 0 ≤ SourceTime (Record_ request) →
  is_u32 (CountAnomalies history s (SourceTime (Record_ request))) →
  decided request level fact history outcome r d s w → digest_typed (level_summary request level history) →
  window_evidence_valid
    (mkDecisionWindow "N_OF_M_WITH_CONTINUOUS_MISS" 1 (SourceTime (Record_ request))
       (mkTriggerEvidence s (SourceTime (Record_ request)) (WindowSize (Trigger level))
          (RequiredAnomalies (Trigger level)) (CountAnomalies history s (SourceTime (Record_ request)))
          (FirstAnomaly history s (SourceTime (Record_ request))).1)
       (mkRecoveryEvidence (Enabled (Recovery level)) (ConsecutiveWindows (Recovery level))
          (observedMisses w) (oldestWindowStart w) (skippedWindows w))
       completeness
       (mkWindowEvidence (hex_encode (AnomalyDigest (level_summary request level history))) (LateAccepted request))) = true.
Proof.
  intros [Hin _ _ _ [n Hn]] Ht Hcount [_ Hwin _ Hle Hwalk _] [Hlen Hbytes].
  pose proof (start_bounds _ _ _ Hin Ht Hwin) as Hb.
  assert (walk_bounds (StateRequirement_RetentionPoints level) (SourceTime (Record_ request))
            (StateRequirement_RetentionPoints level) w) as [_ _ _ _ Hold].
  { unfold level_walk in Hwalk. destruct (_ && _).
    - destruct Hin. eapply (recovery_loop_sound history) in Hwalk as [? _]; [done..|unfold is_u32 in *; lia].
    - injection Hwalk as <-. destruct Hb. split; simpl in *; lia. }
  pose proof Hin as [? ? ? ? ?].
  apply requiredHistoryPoints_spec in Hn as (Hsize & Hreq & _); [|done..].
  apply windowStart_spec in Hwin as (_ & _ & Hse & H0); [|done..]. specialize (H0 Ht).
  unfold window_evidence_valid. cbn -[sha256Pattern]. rewrite hex_encode_pattern by done.
  rewrite !Z.eqb_refl.
  rewrite (proj2 (Z.ltb_ge _ 0) Ht), (proj2 (Z.ltb_ge s 0) H0), (proj2 (Z.ltb_ge _ s) Hse), (proj2 (Z.eqb_neq (WindowSize _) 0)),
    (proj2 (Z.eqb_neq (RequiredAnomalies _) 0)), (proj2 (Z.ltb_ge (WindowSize _) _) Hle),
    (proj2 (Z.ltb_ge (oldestWindowStart w) 0)), (proj2 (Z.ltb_ge _ (oldestWindowStart w))); try done; lia.
Qed.

(** A record whose own window triggered counts no miss. *)
Lemma triggered_no_misses level history sourceTime s abnormal w :
  level_in_range level → 0 ≤ sourceTime →
  windowStartV2 sourceTime (WindowSize (Trigger level)) (StepSeconds (Trigger level)) = Some s →
  level_walk level history sourceTime s abnormal = Ok w →
  RequiredAnomalies (Trigger level) ≤ CountAnomalies history s sourceTime → observedMisses w = 0.
Proof.
  intros Hin Ht Hwin Hwalk Htrig. pose proof (start_bounds _ _ _ Hin Ht Hwin) as Hb.
  unfold level_walk in Hwalk. destruct (_ && _); [|by injection Hwalk as <-].
  pose proof Hin as [? ? ? ? ?].
  apply recovery_loop_sound in Hwalk as (_ & ks & [_ Hks] & Hcount); [|done..|unfold is_u32 in *; lia].
  destruct ks as [|k ks]; [simpl in Hcount; lia|].
  destruct (Hks k ltac:(left)) as (Hk & _ & Hbefore). destruct (Hbefore 0 ltac:(lia)) as (v & Hv & Hne).
  unfold verdict_at in Hv. rewrite (window_back_0 level sourceTime s) in Hv by done. simpl in Hv. injection Hv as <-.
  unfold judge_window in Hne. by rewrite (proj2 (Z.leb_le _ _) Htrig) in Hne.
Qed.

Definition decided_result level fact (observedAnomalies : Z) (w : recovery_walk) : string :=
  if is_abnormal level fact observedAnomalies then LevelResultAbnormal
  else if is_recovered level (is_abnormal level fact observedAnomalies) w then LevelResultRecovery
  else LevelResultNormal.

(** The contract's reading of the evidence is the trigger's verdict. *)
Lemma evidence_agrees level fact (count : Z) (w : recovery_walk) (window : DecisionWindowV1) (d : DetectEvidenceV1) :
  level_compiled level →
  (RequiredAnomalies (Trigger level) ≤ count → observedMisses w = 0) →
  (is_abnormal level fact count = true → observedMisses w = 0) →
  tw_RequiredAnomalies (dw_Trigger window) = RequiredAnomalies (Trigger level) →
  tw_ObservedAnomalies (dw_Trigger window) = count →
  rw_Enabled (dw_Recovery window) = Enabled (Recovery level) →
  rw_RequiredConsecutiveWindows (dw_Recovery window) = ConsecutiveWindows (Recovery level) →
  rw_ObservedConsecutiveMisses (dw_Recovery window) = observedMisses w →
  de_DetectionResult d = df_Result fact →
  triggerSatisfied window && recoverySatisfied window = false ∧
  expectedResult window d = decided_result level fact count w ∧
  recoverySatisfied window = (Enabled (Recovery level) && (ConsecutiveWindows (Recovery level) <=? observedMisses w)).
Proof.
  intros [Hin _ _ _ [n Hn]] Htrig Habn Hr Ho He Hc Hm Hd.
  pose proof Hin as [? ? ? ? ?]. apply requiredHistoryPoints_spec in Hn as (_ & _ & _ & _ & Hcons); [|done..].
  unfold expectedResult, triggerSatisfied, recoverySatisfied, decided_result, is_recovered, is_abnormal in *.
  rewrite Hr, Ho, He, Hc, Hm, Hd. change DetectionAnomalous with "ANOMALOUS"%string in *.
  destruct (Enabled (Recovery level)); simpl in *.
  - destruct (Z.leb_spec (RequiredAnomalies (Trigger level)) count); simpl in *.
    + rewrite (Htrig ltac:(done)) in *. rewrite (proj2 (Z.leb_gt _ 0)) by lia. rewrite andb_false_r.
      by destruct (df_Result fact =? "ANOMALOUS")%string.
    + by rewrite andb_false_r.
  - rewrite !andb_false_r. by destruct (_ && _).
Qed.

Lemma validate_level_result_eq first previous r :
  let window := lr_DecisionWindow r in
  let detect := lr_DetectEvidence r in
  lr_LevelID r ≠ 0 → lr_Priority r ≠ 0 → first = true ∨ previous < lr_LevelID r →
  sha256Pattern (lr_LevelTriggerFingerprint r) = true →
  lr_Result r ∈ [LevelResultAbnormal; LevelResultNormal; LevelResultRecovery] →
  window_evidence_valid window = true → dw_HistoryCompleteness window ∈ ["FULL"; "WARMING"; "GAPPED"]%string →
  (rw_Enabled (dw_Recovery window) = true → rw_RequiredConsecutiveWindows (dw_Recovery window) ≠ 0) →
  de_DetectionResult detect ∈ ["ANOMALOUS"; "NORMAL"]%string → sha256Pattern (de_PredicateDigest detect) = true →
  (de_NormalizedValue detect =? "")%string = false →
  de_EffectiveTimeStatus detect = "ACTIVE" → triggerSatisfied window && recoverySatisfied window = false →
  lr_Result r = expectedResult window detect →
  (dw_HistoryCompleteness window = "FULL" ∨ lr_Result r = LevelResultAbnormal ∨
   lr_Result r = LevelResultRecovery ∧ recoverySatisfied window = true) →
  validate_level_result CanonicalJSONV2_accepts first previous r
  = fail_if (negb (CanonicalJSONV2_accepts (de_NormalizedValue detect))) "normalized value".
Proof.
  intros window detect Hid Hpr Hord Hfp Hres Hwin Hcomp Hrec Hdet Hpd Hnv Heff Hboth Hexp Hinc.
  unfold validate_level_result. fold window detect.
  rewrite (proj2 (Z.eqb_neq _ _) Hid), (proj2 (Z.eqb_neq _ _) Hpr), Hfp, Hwin, Hpd, Hnv, Heff, Hboth.
  rewrite (bool_decide_eq_true_2 _ Hres), (bool_decide_eq_true_2 _ Hcomp), (bool_decide_eq_true_2 _ Hdet).
  replace (negb first && (lr_LevelID r <=? previous)) with false.
  2: { destruct Hord as [->|Hlt]; [done|]. rewrite (proj2 (Z.leb_gt _ _) Hlt). by rewrite andb_false_r. }
  replace (rw_Enabled (dw_Recovery window) && _) with false.
  2: { destruct (rw_Enabled (dw_Recovery window)); [|done]. by rewrite (proj2 (Z.eqb_neq _ _) (Hrec eq_refl)). }
  rewrite Hexp, String.eqb_refl, <- Hexp. cbn [mbind result_bind fail_if orb negb].
  destruct (CanonicalJSONV2_accepts (de_NormalizedValue detect)); [|done]. cbn [mbind result_bind fail_if negb].
  destruct Hinc as [->|[->|[-> ->]]]; [done|rewrite andb_false_r; done|].
  destruct (dw_HistoryCompleteness window =? "FULL")%string; done.
Qed.

Lemma fact_usable_in fact : fact_usable fact = true → df_Result fact ∈ ["ANOMALOUS"; "NORMAL"]%string.
Proof.
  unfold fact_usable. rewrite orb_true_iff, !String.eqb_eq. intros [H|H]; rewrite H; set_solver.
Qed.

(** What the contract says of a decided result. *)
Lemma decided_validates request level fact history obs effective eligibility outcome r first previous :
  represents history obs → level_compiled level → 0 ≤ SourceTime (Record_ request) →
  digest_typed (level_summary request level history) →
  first = true ∨ previous < def_LevelID (Definition_ level) →
  evaluateLevelV2 request level fact history effective eligibility = Ok (outcome, r) →
  lo_Result outcome ≠ ""%string →
  validate_level_result CanonicalJSONV2_accepts first previous r
  = fail_if (negb (float64_finite (de_NormalizedValue (lr_DetectEvidence r)))) "normalized value"%string ∧
  lr_LevelID r = def_LevelID (Definition_ level) ∧ lr_Result r = lo_Result outcome.
Proof.
  intros Hrep Hc Ht Hdig Hord [_ H]%evaluateLevel_inv Hne. pose proof Hc as [Hin Hid Hpr Hfp [n Hn]].
  destruct (fact_usable fact) eqn:Hu; simpl in H; [|by rewrite H in Hne].
  destruct (ef_status effective =? EffectiveTimeInactive)%string; [by rewrite H in Hne|].
  destruct (ef_status effective =? EffectiveTimeUnknown)%string; [by rewrite H in Hne|].
  destruct H as (_ & d & s & w & Hdec). pose proof Hdec as [Hev Hwin Hsum _ Hwalk Hout].
  set (count := CountAnomalies history s (SourceTime (Record_ request))) in *.
  assert (is_u32 count) as Hcount by (pose proof (represents_counts _ _ Hrep s (SourceTime (Record_ request))); go_lia).
  apply validated_summary in Hsum. destruct (built_evidence _ _ _ Hev) as (Hd & Hpd & Hnv & Hcj & Heff).
  pose proof (decided_window_valid _ _ _ _ _ _ _ _ _ (Completeness (level_summary request level history))
                Hc Ht Hcount Hdec Hdig) as Hvalid.
  assert (is_abnormal level fact count = true → observedMisses w = 0) as Habn0.
  { unfold level_walk in Hwalk. intros Ha. rewrite Ha, andb_false_r in Hwalk. by injection Hwalk as <-. }
  pose proof (triggered_no_misses _ _ _ _ _ _ Hin Ht Hwin Hwalk) as Htrig0.
  cbn zeta in Hout. fold count in Hout, Hvalid. set (window := mkDecisionWindow _ _ _ _ _ _ _) in Hout, Hvalid.
  destruct (evidence_agrees level fact count w window d Hc Htrig0 Habn0) as (Hboth & Hexp & Hsat); try done.
  destruct (negb (is_abnormal level fact count) && _ && _) eqn:Hheld; [by rewrite Hout in Hne|].
  fold (decided_result level fact count w) in Hout. destruct Hout as [Hout ->]. rewrite Hout.
  split; [|done]. pose proof Hin as [? ? ? ? ?].
  apply requiredHistoryPoints_spec in Hn as (_ & _ & _ & _ & Hcons); [|done..].
  change (lr_DetectEvidence _) with d. rewrite <- Hcj. apply validate_level_result_eq; cbn [lr_DecisionWindow lr_DetectEvidence lr_LevelID lr_Priority lr_Result
    lr_LevelTriggerFingerprint]; try done.
  - unfold decided_result. repeat case_match; set_solver.
  - intros Hen. change (Enabled (Recovery level) = true) in Hen. rewrite Hen in Hcons. change (ConsecutiveWindows (Recovery level) ≠ 0). lia.
  - rewrite Hd. by apply fact_usable_in.
  - rewrite Hsat. change (dw_HistoryCompleteness window) with (Completeness (level_summary request level history)).
    unfold decided_result, is_recovered in *. destruct (is_abnormal level fact count); [by right; left|]. simpl in *.
    destruct (Enabled (Recovery level) && _); [by right; right|]. left. simpl in Hheld.
    apply negb_false_iff, String.eqb_eq in Hheld. done.
Qed.

(** C25: every Level result the trigger decides passes the event contract, but for a
    value no finite float64 is nearest to: its identity, fingerprint, evidence and
    bounds are valid, the trigger and the recovery are never both satisfied, the result
    is the one the contract derives from the evidence, and a history that is not FULL
    carries only ABNORMAL or an evidenced RECOVERY. A number the normalizer printed is
    never such a value, so its result always passes. *)
Theorem level_result_admissible request level fact history obs effective eligibility outcome r first previous :
  represents history obs → level_compiled level → 0 ≤ SourceTime (Record_ request) →
  digest_typed (level_summary request level history) →
  first = true ∨ previous < def_LevelID (Definition_ level) →
  evaluateLevelV2 request level fact history effective eligibility = Ok (outcome, r) →
  lo_Result outcome ≠ ""%string →
  (validate_level_result CanonicalJSONV2_accepts first previous r = Ok tt ↔ float64_finite (de_NormalizedValue (lr_DetectEvidence r)) = true) ∧
  (∀ n, number_ok n → de_NormalizedValue (lr_DetectEvidence r) = Decimal.CanonicalDecimal n →
   validate_level_result CanonicalJSONV2_accepts first previous r = Ok tt) ∧
  lr_LevelID r = def_LevelID (Definition_ level) ∧ lr_Result r = lo_Result outcome.
Proof.
  intros Hrep Hc Ht Hdig Hord Heval Hne.
  assert (validate_level_result CanonicalJSONV2_accepts first previous r
          = fail_if (negb (float64_finite (de_NormalizedValue (lr_DetectEvidence r)))) "normalized value"%string ∧
          lr_LevelID r = def_LevelID (Definition_ level) ∧ lr_Result r = lo_Result outcome) as (Hvalid & Hrest)
    by by eapply decided_validates.
  rewrite Hvalid. split_and!; [by destruct (float64_finite _)| |apply Hrest..]. intros n Hn Hnv. by rewrite Hnv, normalized_finite.
Qed.
End admissible.
