(* ===== verification/Schedule.v ===== *)
(** Effective time resolved at a second (strategy/effective_time.go,
    effective_time_provider.go, effective_rules.go), and what a schedule answers: the static schedule and its next
    boundary, the calendars, and the fact a Plan's evaluation carries. *)
From S2P Require Import Prelude GoHash TriggerEvent History Trigger.
From S2P Require Import Reason Decimal EffectiveTime CalendarRules CalendarSpec.

Open Scope Z_scope.

Record EffectiveTimeRequest : Type := mkTimeRequest {
  tr_TenantID : string;
  tr_BusinessID : string;
  tr_EvaluationTime : Z;
  tr_Requirement : EffectiveTimeRequirement;
}.

(** ** The static schedule *)

Fixpoint matches_ranges (minute : Z) (ranges : list TimeRange) : bool :=
  match ranges with
  | [] => false
  | r :: ranges =>
      let start := startMinute r in
      let stop := endMinute r in
      if ((start <=? stop) && (start <=? minute) && (minute <=? stop)) || ((stop <? start) && ((start <=? minute) || (minute <=? stop)))
      then true else matches_ranges minute ranges
  end.

Definition matchesTimeRanges (minute : Z) (ranges : list TimeRange) : bool :=
  match ranges with [] => true | _ => matches_ranges minute ranges end.

(** The wall-clock minutes at which a range starts, or has just ended. *)
Definition boundary_minutes (r : TimeRange) : list Z := [startMinute r; (endMinute r + 1) mod (24 * 60)].

Definition earlier_boundary (now : Z) (next candidate : Z) : Z :=
  if (now <? candidate) && (candidate <? next) then candidate else next.

(** [day.AddDate(0, 0, offset)] of the instant [day]. *)
Definition add_days (location : Location) (day offset : Z) : Z :=
  go_Date location ((local_day location day + offset) * day_seconds + local_clock location day).

Definition nextScheduleBoundary (location : Location) (now : Z) (ranges : list TimeRange) : Z :=
  let day := go_Date location (local_day location now * day_seconds) in
  foldl (earlier_boundary now) (now + 24 * 3600)
    (flat_map (λ dayOffset, flat_map (λ r, (λ minute, add_days location day dayOffset + minute * 60) <$> boundary_minutes r) ranges) [0; 1]).

Inductive TimezoneError : Type :=
  | TimezoneUnknown
  | TimezoneFailed (detail : string).

(** [ResolveTimezone] of a reference, a tenant and a business; no location is a nil one. *)
Notation TimezoneResolver := (string → string → string → result TimezoneError (option Location)).

Inductive ScheduleAnswer : Type :=
  | ScheduleUnknown
  | Scheduled (status : string) (validUntil : Z).

Definition resolveStaticSchedule (timezones : option TimezoneResolver) (request : EffectiveTimeRequest) : result string ScheduleAnswer :=
  match timezones with
  | None => Err "effective time: timezone resolver is unavailable"%string
  | Some resolve =>
      match resolve (etr_timezoneRef (tr_Requirement request)) (tr_TenantID request) (tr_BusinessID request) with
      | Err TimezoneUnknown | Ok None => Ok ScheduleUnknown
      | Err (TimezoneFailed detail) => Err detail
      | Ok (Some location) =>
          let now := tr_EvaluationTime request in
          let ranges := etr_timeRanges (tr_Requirement request) in
          let status := if matchesTimeRanges (local_clock location now / 60) ranges then EffectiveTimeActive else EffectiveTimeInactive in
          Ok (Scheduled status (nextScheduleBoundary location now ranges))
      end
  end.

(** ** Facts *)

Record calendarFactWire : Type := mkFactWire {
  cw_Request : CalendarFactRequest;
  cw_Matched : bool;
  cw_Revision : string;
  cw_ValidFrom : Z;
  cw_ValidUntil : Z;
}.

Section facts.
(** The canonical digests of a fact, of the calendar facts used, and of the Levels' facts. *)
Variable fact_digest : string → string → string → Z → Z → option string.
Variable revision_digest : list calendarFactWire → option string.
Variable levels_digest : list string → option string.

Definition newEffectiveTimeFact (status requirementDigest factRevision : string) (validFrom validUntil : Z)
    : result string EffectiveTimeFact :=
  match fact_digest status requirementDigest factRevision validFrom validUntil with
  | None => Err "effective-time-fact-v1"%string
  | Some digest => Ok (mkEffective status requirementDigest factRevision digest validFrom validUntil)
  end.

Definition unknownEffectiveTimeFact (request : EffectiveTimeRequest) : result string EffectiveTimeFact :=
  let digest := etr_digest (tr_Requirement request) in
  newEffectiveTimeFact EffectiveTimeUnknown digest digest (tr_EvaluationTime request) (tr_EvaluationTime request + 60).

(** [StaticScheduleProvider.Resolve] of one request. *)
Definition static_resolve (timezones : option TimezoneResolver) (request : EffectiveTimeRequest) : result string EffectiveTimeFact :=
  let requirement := tr_Requirement request in
  let digest := etr_digest requirement in
  let now := tr_EvaluationTime request in
  if (etr_kind requirement =? EffectiveTimeAlways)%string then
    newEffectiveTimeFact EffectiveTimeActive digest digest now (now + 24 * 60 * 60)
  else if (etr_kind requirement =? EffectiveTimeStaticSchedule)%string then
    answer ← resolveStaticSchedule timezones request;
    match answer with
    | ScheduleUnknown => unknownEffectiveTimeFact request
    | Scheduled status validUntil => newEffectiveTimeFact status digest digest now validUntil
    end
  else if (etr_kind requirement =? EffectiveTimeCalendar)%string then unknownEffectiveTimeFact request
  else Err "effective time: invalid requirement kind"%string.

(** ** Calendars *)

Definition calendarFactCovers (fact : CalendarFact) (evaluationTime : Z) : bool :=
  Known fact && sha256Pattern (fact_Revision fact) && (fact_ValidFrom fact <=? evaluationTime) && (evaluationTime <? fact_ValidUntil fact).

(** The facts by request; a request answered twice has none. *)
Definition indexed_fact (facts : list CalendarFact) (request : CalendarFactRequest) : option CalendarFact :=
  match filter (λ fact, fact_Request fact = request) facts with [fact] => Some fact | _ => None end.

Definition calendar_request (request : EffectiveTimeRequest) (calendarID : Z) : CalendarFactRequest :=
  mkFactRequest (tr_TenantID request) calendarID (tr_EvaluationTime request).

(** Over sorted ids. *)
Definition containsCalendarID (ids : list Z) (target : Z) : bool :=
  let index := search_list (λ id, target <=? id) ids in
  bool_decide (ids !! index = Some target).

Record calendar_state : Type := mkCalendarState {
  cs_used : list calendarFactWire;
  cs_validUntil : Z;
  activeMatched : bool;
  inactiveMatched : bool;
}.

(** The loop of [resolveCalendarRequirement] over the ids; none when a fact is missing or
    does not cover the second. *)
Fixpoint calendar_loop (request : EffectiveTimeRequest) (facts : list CalendarFact) (ids : list Z) (s : calendar_state) : option calendar_state :=
  match ids with
  | [] => Some s
  | id :: ids =>
      fact ← indexed_fact facts (calendar_request request id);
      if negb (calendarFactCovers fact (tr_EvaluationTime request)) then None
      else
        let active := containsCalendarID (activeCalendarIDs (tr_Requirement request)) id in
        calendar_loop request facts ids
          (mkCalendarState
             (cs_used s ++ [mkFactWire (fact_Request fact) (fact_Matched fact) (fact_Revision fact) (fact_ValidFrom fact) (fact_ValidUntil fact)])
             (if fact_ValidUntil fact <? cs_validUntil s then fact_ValidUntil fact else cs_validUntil s)
             (activeMatched s || (fact_Matched fact && active)) (inactiveMatched s || (fact_Matched fact && negb active)))
  end.

Definition requirement_ids (requirement : EffectiveTimeRequirement) : list Z :=
  activeCalendarIDs requirement ++ inactiveCalendarIDs requirement.

Definition resolveCalendarRequirement (request : EffectiveTimeRequest) (scheduleStatus : string) (scheduleValidUntil : Z)
    (facts : list CalendarFact) : result string EffectiveTimeFact :=
  let requirement := tr_Requirement request in
  match calendar_loop request facts (requirement_ids requirement) (mkCalendarState [] scheduleValidUntil false false) with
  | None => unknownEffectiveTimeFact request
  | Some s =>
      let status :=
        if activeMatched s then EffectiveTimeActive
        else if negb (bool_decide (activeCalendarIDs requirement = [])) || inactiveMatched s then EffectiveTimeInactive
        else scheduleStatus in
      match revision_digest (cs_used s) with
      | None => Err "effective-time-calendar-fact-revision-v1"%string
      | Some revision => newEffectiveTimeFact status (etr_digest requirement) revision (tr_EvaluationTime request) (cs_validUntil s)
      end
  end.

(** A request after the first pass of [CalendarScheduleProvider.Resolve]: answered, or on
    by its schedule until a second. *)
Inductive first_pass : Type :=
  | Answered (fact : EffectiveTimeFact)
  | Pending (scheduleStatus : string) (scheduleValidUntil : Z).

Definition schedule_pass (timezones : option TimezoneResolver) (request : EffectiveTimeRequest) : result string first_pass :=
  let requirement := tr_Requirement request in
  let digest := etr_digest requirement in
  let now := tr_EvaluationTime request in
  if (etr_kind requirement =? EffectiveTimeAlways)%string then
    fact ← newEffectiveTimeFact EffectiveTimeActive digest digest now (now + 24 * 60 * 60); Ok (Answered fact)
  else if (etr_kind requirement =? EffectiveTimeStaticSchedule)%string || (etr_kind requirement =? EffectiveTimeCalendar)%string then
    answer ← resolveStaticSchedule timezones request;
    match answer with
    | ScheduleUnknown => fact ← unknownEffectiveTimeFact request; Ok (Answered fact)
    | Scheduled status validUntil =>
        if (etr_kind requirement =? EffectiveTimeStaticSchedule)%string || (status =? EffectiveTimeInactive)%string then
          fact ← newEffectiveTimeFact status digest digest now validUntil; Ok (Answered fact)
        else Ok (Pending status validUntil)
    end
  else Err "effective time: invalid requirement kind"%string.

Definition zero_fact : EffectiveTimeFact := mkEffective "" "" "" "" 0 0.

(** [CalendarScheduleProvider.Resolve] of one request; with no calendar to ask the fact
    stays zero. *)
Definition calendar_resolve (timezones : option TimezoneResolver) (source : list CalendarFactRequest → list CalendarFact)
    (request : EffectiveTimeRequest) : result string EffectiveTimeFact :=
  pass ← schedule_pass timezones request;
  match pass with
  | Answered fact => Ok fact
  | Pending status validUntil =>
      let batch := calendar_request request <$> merge_sort Z.le (remove_dups (requirement_ids (tr_Requirement request))) in
      if bool_decide (batch = []) then Ok zero_fact
      else resolveCalendarRequirement request status validUntil (source batch)
  end.

(** Of a Plan: its own rules when it has a snapshot, which it proves for this second only;
    else no schedule at all; else the legacy provider. *)
Definition resolveEffectiveRequirement (rules : option compiledEffectiveRules) (request : EffectiveTimeRequest)
    (legacy : option (EffectiveTimeRequest → result string (list EffectiveTimeFact))) : result string EffectiveTimeFact :=
  let requirement := tr_Requirement request in
  let now := tr_EvaluationTime request in
  _ ← fail_if (maxInt64 - 86400 <=? now) "effective time: evaluation second overflows"%string;
  match rules with
  | Some rules =>
      fact ← calendar_resolve (Some (λ _ _ _, Ok (Some (rules_location rules)))) (ResolveCalendarFacts rules) request;
      newEffectiveTimeFact (ef_status fact) (etr_digest requirement) (rules_digest rules) now (now + 1)
  | None =>
      if (etr_kind requirement =? EffectiveTimeAlways)%string then static_resolve None request
      else
        match legacy with
        | None => unknownEffectiveTimeFact request
        | Some legacy =>
            match legacy request with
            | Err _ => unknownEffectiveTimeFact request
            | Ok [fact] =>
                if negb (ef_requirementDigest fact =? etr_digest requirement)%string || (now <? ef_validFrom fact) || (ef_validUntil fact <=? now)
                then unknownEffectiveTimeFact request
                else Ok fact
            | Ok _ => unknownEffectiveTimeFact request
            end
        end
  end.

(** ** A Plan *)

(** The Levels' facts, one for each requirement: [ResolveEffectiveTimeWithProvider]'s loop. *)
Fixpoint level_facts (rules : option compiledEffectiveRules) (legacy : option (EffectiveTimeRequest → result string (list EffectiveTimeFact)))
    (request : EffectiveTimeRequirement → EffectiveTimeRequest) (seen : gset string) (status : string) (facts : list EffectiveTimeFact)
    (requirements : list EffectiveTimeRequirement) : result string (string * list EffectiveTimeFact) :=
  match requirements with
  | [] => Ok (status, facts)
  | requirement :: requirements =>
      if bool_decide (etr_digest requirement ∈ seen) then level_facts rules legacy request seen status facts requirements
      else
        fact ← resolveEffectiveRequirement rules (request requirement) legacy;
        let status :=
          if (ef_status fact =? EffectiveTimeActive)%string then EffectiveTimeActive
          else if (ef_status fact =? EffectiveTimeUnknown)%string && negb (status =? EffectiveTimeActive)%string then EffectiveTimeUnknown
          else status in
        level_facts rules legacy request ({[etr_digest requirement]} ∪ seen) status (facts ++ [fact]) requirements
  end.

(** [requirements] are those of the Plan's Levels and of its no-data Level; [always] is the
    requirement of no uptime. *)
Definition ResolveEffectiveTimeWithProvider (rules : option compiledEffectiveRules) (tenantID businessID : string)
    (always : EffectiveTimeRequirement) (requirements : list EffectiveTimeRequirement) (evaluationTime : Z)
    (legacy : option (EffectiveTimeRequest → result string (list EffectiveTimeFact))) : result string EffectiveTimeFact :=
  let request := mkTimeRequest tenantID businessID evaluationTime in
  if bool_decide (requirements = []) then unknownEffectiveTimeFact (request always)
  else
    '(status, facts) ← level_facts rules legacy request ∅ EffectiveTimeInactive [] requirements;
    match facts with
    | [fact] => Ok fact
    | _ =>
        match levels_digest (ef_factDigest <$> facts) with
        | None => Err "effective-time-maintenance-levels-v1"%string
        | Some digest => newEffectiveTimeFact status digest digest evaluationTime (evaluationTime + 1)
        end
    end.
End facts.

(** * What a schedule answers

    What a Level's effective time says at a second: the schedule holds until the boundary
    stated, and the fact a Plan's rules give is its requirement's answer. *)

(** ** The next boundary *)

Definition minute_typed (r : TimeRange) : Prop := 0 ≤ startMinute r < 1440 ∧ 0 ≤ endMinute r < 1440.

(** The fold keeps the earliest candidate past [now]. *)
Lemma earlier_boundary_spec now candidates next :
  now < next →
  let b := foldl (earlier_boundary now) next candidates in
  now < b ≤ next ∧ ∀ c, c ∈ candidates → now < c → b ≤ c.
Proof.
  revert next. induction candidates as [|c candidates IH]; intros next Hn; cbn [foldl].
  { split; [lia|]. intros c Hc. by apply elem_of_nil in Hc. }
  assert (now < earlier_boundary now next c ≤ next ∧ (now < c → earlier_boundary now next c ≤ c)) as [Hb Hc].
  { unfold earlier_boundary. destruct (Z.ltb_spec now c), (Z.ltb_spec c next); simpl; lia. }
  destruct (IH _ (proj1 Hb)) as [Hb' Hall]. split; [lia|]. intros c' [->|Hin]%elem_of_cons Hnow; [|by apply Hall].
  specialize (Hc Hnow). lia.
Qed.

Lemma matches_ranges_eq minute minute' ranges :
  (∀ r, r ∈ ranges → matches_ranges minute [r] = matches_ranges minute' [r]) →
  matches_ranges minute ranges = matches_ranges minute' ranges.
Proof.
  induction ranges as [|r ranges IH]; intros Hall; [done|]. pose proof (Hall r ltac:(left)) as Hr.
  cbn [matches_ranges] in *. rewrite IH by (intros; apply Hall; by right).
  by destruct (_ || _) eqn:E1, (((startMinute r <=? endMinute r) && (startMinute r <=? minute') && (minute' <=? endMinute r)) || _) eqn:E2.
Qed.

(** A range holds of a minute as it did of the minute before, but at its boundaries. *)
Lemma range_between_boundaries r minute :
  minute_typed r → 0 ≤ minute < 1440 → minute ∉ boundary_minutes r →
  matches_ranges minute [r] = matches_ranges ((minute - 1) mod 1440) [r].
Proof.
  intros [Hs He] Hm Hnot. unfold boundary_minutes in Hnot. change (24 * 60) with 1440 in Hnot.
  rewrite !elem_of_cons, elem_of_nil in Hnot.
  assert ((endMinute r + 1) mod 1440 = if endMinute r =? 1439 then 0 else endMinute r + 1) as Hend.
  { destruct (Z.eqb_spec (endMinute r) 1439) as [->|]; [done|]. apply Z.mod_small. lia. }
  assert ((minute - 1) mod 1440 = if minute =? 0 then 1439 else minute - 1) as ->.
  { destruct (Z.eqb_spec minute 0) as [->|]; [done|]. apply Z.mod_small. lia. }
  rewrite Hend in Hnot. cbn [matches_ranges].
  destruct (Z.eqb_spec (endMinute r) 1439), (Z.eqb_spec minute 0);
    repeat match goal with |- context [ ?a <=? ?b ] => destruct (Z.leb_spec a b) | |- context [ ?a <? ?b ] => destruct (Z.ltb_spec a b) end;
    simpl; try done; lia.
Qed.

Section fixed.
(** A location of one offset. *)
Variables (offset : Z) (ranges : list TimeRange) (now : Z).
Hypothesis typed : Forall minute_typed ranges.
Notation location := (λ _ : Z, offset).
Notation boundary := (nextScheduleBoundary location now ranges).

Lemma go_Date_fixed wall : go_Date location wall = wall - offset.
Proof. unfold go_Date. destruct (Z.eqb_spec offset 0); lia. Qed.

Lemma fixed_candidate k r minute :
  k = 0 ∨ k = 1 → r ∈ ranges → minute ∈ boundary_minutes r →
  now < (local_day location now + k) * day_seconds + minute * 60 - offset →
  boundary ≤ (local_day location now + k) * day_seconds + minute * 60 - offset.
Proof.
  intros Hk Hr Hm Hnow. unfold nextScheduleBoundary. rewrite go_Date_fixed.
  apply earlier_boundary_spec; [lia| |done].
  assert (∀ day, day * day_seconds - offset + offset = day * day_seconds) as Hback by lia.
  assert (∀ day k', add_days location (day * day_seconds - offset) k' = (day + k') * day_seconds - offset) as Hadd.
  { intros day k'. unfold add_days, local_day, local_clock, local. rewrite go_Date_fixed, Hback, Z.div_mul, Z.mod_mul by done. lia. }
  apply list_elem_of_In, in_flat_map. exists k. split; [destruct Hk as [->| ->]; simpl; auto|].
  apply in_flat_map. exists r. split; [by apply list_elem_of_In|].
  apply list_elem_of_In, list_elem_of_fmap. exists minute. split; [|done]. rewrite Hadd. lia.
Qed.

Lemma boundary_bounds : now < boundary ≤ now + 86400.
Proof. unfold nextScheduleBoundary. apply (earlier_boundary_spec now _ (now + 24 * 3600)). lia. Qed.

(** Within the boundary, each second's minute matches as the second before it. *)
Lemma schedule_step s :
  now < s < boundary →
  matches_ranges (local_clock location s / 60) ranges = matches_ranges (local_clock location (s - 1) / 60) ranges.
Proof.
  intros Hs. pose proof boundary_bounds as Hb.
  set (x := local location s). assert (x = s + offset) as Hx by done.
  assert (local location (s - 1) = x - 1) as Hprev by (unfold local; lia).
  unfold local_clock. fold x. rewrite Hprev.
  pose proof (Z.div_mod x 86400 ltac:(lia)) as Hdm. pose proof (Z.mod_pos_bound x 86400 ltac:(lia)) as Hmb.
  change day_seconds with 86400. set (d := x / 86400) in *. set (c := x mod 86400) in *.
  pose proof (Z.div_mod c 60 ltac:(lia)) as Hcm. pose proof (Z.mod_pos_bound c 60 ltac:(lia)) as Hcb.
  set (m := c / 60) in *. assert (0 ≤ m < 1440) as Hm by lia.
  destruct (Z.eq_dec (c mod 60) 0) as [Hz|Hz].
  2: { assert ((x - 1) mod 86400 = c - 1) as ->.
       { symmetry. apply (Z.mod_unique_pos _ _ d); lia. }
       f_equal. apply (Z.div_unique_pos _ _ m (c mod 60 - 1)); lia. }
  assert ((x - 1) mod 86400 / 60 = (m - 1) mod 1440) as ->.
  { destruct (Z.eq_dec m 0) as [Hm0|Hm0].
    - rewrite Hm0. assert ((x - 1) mod 86400 = 86399) as ->; [|done]. symmetry. apply (Z.mod_unique_pos _ _ (d - 1)); lia.
    - assert ((x - 1) mod 86400 = c - 1) as -> by (symmetry; apply (Z.mod_unique_pos _ _ d); lia).
      rewrite (Z.mod_small (m - 1)) by lia. symmetry. apply (Z.div_unique_pos _ _ (m - 1) 59); lia. }
  apply matches_ranges_eq. intros r Hr. apply range_between_boundaries; [by eapply (proj1 (Forall_forall _ _) typed)|lia|].
  intros Hin. assert (∃ k, (k = 0 ∨ k = 1) ∧ d = local_day location now + k) as (k & Hk & Hd).
  { unfold local_day, local. change day_seconds with 86400.
    pose proof (Z.div_mod (now + offset) 86400 ltac:(lia)). pose proof (Z.mod_pos_bound (now + offset) 86400 ltac:(lia)).
    exists (d - (now + offset) / 86400). lia. }
  pose proof (fixed_candidate k r m Hk Hr Hin) as Hc. rewrite <- Hd in Hc. change day_seconds with 86400 in Hc. lia.
Qed.

Lemma schedule_constant s :
  now ≤ s < boundary → matches_ranges (local_clock location s / 60) ranges = matches_ranges (local_clock location now / 60) ranges.
Proof.
  intros Hs. replace s with (now + Z.of_nat (Z.to_nat (s - now))) in * by lia. generalize (Z.to_nat (s - now)) Hs. clear s Hs.
  intros n. induction n as [|n IH]; intros Hs; [by rewrite Z.add_0_r|].
  rewrite schedule_step by lia. rewrite <- IH by lia. do 3 f_equal. lia.
Qed.
End fixed.

(** In a location of one offset a static schedule's status holds from the second it is
    resolved at to just before the boundary stated, which is after that second and at most a
    day on. *)
Lemma schedule_holds_until offset ranges now s :
  Forall minute_typed ranges →
  let location := λ _ : Z, offset in
  let boundary := nextScheduleBoundary location now ranges in
  now < boundary ≤ now + 86400 ∧
  (now ≤ s < boundary →
   matchesTimeRanges (local_clock location s / 60) ranges = matchesTimeRanges (local_clock location now / 60) ranges).
Proof.
  intros Htyped location boundary. split; [apply boundary_bounds|]. intros Hs.
  destruct ranges as [|r ranges']; [done|]. by apply (schedule_constant offset (r :: ranges') now Htyped).
Qed.
