(* ===== verification/TimeSpec.v ===== *)
(** The effective time of a Plan with frozen rules, end to end: the snapshot compiled, the
    requirement compiled, and the fact resolved at a second. *)
From S2P Require Import Prelude GoHash TriggerEvent History Trigger TriggerLevel.
From S2P Require Import Reason Decimal EffectiveTime CalendarRules CalendarSpec Schedule.

Open Scope Z_scope.

(** ** The reference *)

Definition calendar_on (rules : compiledEffectiveRules) (second id : Z) : Prop :=
  Exists (λ item, item_on item second) (default [] (rules_calendars rules !! id)).

(** A requirement is met always; or when its ranges hold and, of the calendars it names, one
    of the alert days is on, or it names none and no rest day is. *)
Definition time_on (rules : compiledEffectiveRules) (requirement : EffectiveTimeRequirement) (second : Z) : Prop :=
  etr_kind requirement = EffectiveTimeAlways ∨
  matchesTimeRanges (local_clock (rules_location rules) second / 60) (etr_timeRanges requirement) = true ∧
  ((∃ id, id ∈ activeCalendarIDs requirement ∧ calendar_on rules second id) ∨
   (activeCalendarIDs requirement = [] ∧ ∀ id, id ∈ inactiveCalendarIDs requirement → ¬ calendar_on rules second id)).

(** ** Compiled requirements *)

Lemma unique_ids_sorted ids : ∀ unique result,
  StronglySorted Z.le (unique ++ ids) → StronglySorted Z.lt unique → unique_ids unique ids = Some result →
  StronglySorted Z.lt result.
Proof.
  induction ids as [|id ids IH]; intros unique result Hle Hlt; cbn [unique_ids]; [by intros [= <-]|].
  destruct (id <=? 0); [done|]. destruct (bool_decide_reflect (last unique = Some id)) as [Hlast|Hlast].
  - apply IH; [|done]. apply last_Some in Hlast as [l ->]. rewrite <- !app_assoc in *.
    apply StronglySorted_app in Hle as (Hh & Hl & Ht). apply StronglySorted_app. split_and!; [|done|].
    + intros x y Hx Hy. apply Hh; [done|]. rewrite elem_of_app in *. destruct Hy as [Hy|Hy]; [by left|right; by right].
    + simpl in *. by apply StronglySorted_inv in Ht as [Ht _].
  - apply IH; [by rewrite <- app_assoc|].
    apply StronglySorted_app in Hle as (Hh & _ & _). apply StronglySorted_app. split_and!; [|done|by repeat constructor].
    intros x y Hx ->%list_elem_of_singleton. pose proof (Hh x id Hx ltac:(left)) as Hxy.
    destruct (decide (x = id)) as [->|]; [exfalso|lia]. apply Hlast.
    apply list_elem_of_lookup in Hx as [i Hi]. destruct (last unique) as [z|] eqn:Hz.
    2: { apply last_None in Hz as ->. done. }
    f_equal. apply last_Some in Hz as [l ->]. pose proof (Hh z id ltac:(apply elem_of_app; right; left) ltac:(left)) as Hzid.
    apply StronglySorted_app in Hlt as (Hll & _ & _).
    assert (id ∈ l ++ [z]) as Hin by (by eapply list_elem_of_lookup_2). apply elem_of_snoc in Hin as [Hin| ->]; [|done].
    pose proof (Hll id z Hin ltac:(left)). lia.
Qed.

Lemma normalizeCalendarIDs_sorted ids result : normalizeCalendarIDs ids = Some result → StronglySorted Z.lt result.
Proof.
  unfold normalizeCalendarIDs. apply unique_ids_sorted; [|constructor].
  apply (StronglySorted_merge_sort Z.le).
Qed.

Lemma containsCalendarID_spec ids target : StronglySorted Z.lt ids → containsCalendarID ids target = true ↔ target ∈ ids.
Proof.
  intros Hs. unfold containsCalendarID. rewrite bool_decide_eq_true. split; [apply list_elem_of_lookup_2|].
  intros Hin. destruct (search_list_split Z.lt (λ id, target <=? id) ids Hs) as [Hlo Hhi].
  { intros x y Hxy. rewrite !Z.leb_le. lia. }
  set (k := search_list _ ids) in *. rewrite <- (take_drop k ids) in Hin. apply elem_of_app in Hin as [Hin|Hin].
  { rewrite Forall_forall in Hlo. specialize (Hlo _ Hin). simpl in Hlo. lia. }
  destruct (drop k ids) as [|x rest] eqn:Hd; [by apply elem_of_nil in Hin|].
  assert (ids !! k = Some x) as Hk by (rewrite <- (Nat.add_0_r k), <- lookup_drop, Hd; done).
  rewrite Hk. f_equal. apply elem_of_cons in Hin as [->|Hin]; [done|exfalso].
  apply Forall_cons_1 in Hhi as [Hx _]. simpl in Hx.
  pose proof (sorted_drop Z.lt ids k Hs) as Hsd. rewrite Hd in Hsd. apply StronglySorted_inv in Hsd as [_ Hall].
  rewrite Forall_forall in Hall. specialize (Hall _ Hin). lia.
Qed.

(** ** The items of compiled rules *)

Definition items_ordered (items : list compiledCalendarItem) : Prop :=
  Forall (λ item, ci_daily item = false → ci_start item ≤ ci_end item) items.

Section compiled.
Variables (LoadLocation : string → option Location) (snapshot_digest : effectiveSnapshot → option string).

Lemma compileCalendarItem_ordered item compiled :
  compileCalendarItem LoadLocation item = Ok compiled → ci_daily compiled = false → ci_start compiled ≤ ci_end compiled.
Proof.
  unfold compileCalendarItem. destruct (Start_ item) as [start|], (item_End item) as [stop|]; try done.
  intros (_u & _ & H)%bind_Ok. revert H. intros (_u' & _ & H)%bind_Ok. revert H.
  intros (_u'' & Htime%fail_if_Ok & H)%bind_Ok. revert H. intros (location & _ & H)%bind_Ok.
  assert (ci_start compiled = start ∧ ci_end compiled = stop ∧ ci_daily compiled = (TimeKind item =? "DAILY_SECONDS")%string)
    as (-> & -> & ->).
  { destruct (rr_fields _) as [[|n]|]; [by injection H as <-| |done]. destruct (rr_repeat _) as [repeat|]; [|done]. revert H.
    intros (v & _ & H)%bind_Ok. revert H. intros (v' & _ & H)%bind_Ok. revert H.
    intros ([encoding excluded] & _ & [= <-])%bind_Ok. done. }
  intros Hd. rewrite Hd in Htime. breflect. lia.
Qed.

Lemma compile_items_ordered items : ∀ ids compiled, compile_items LoadLocation ids items = Ok compiled → items_ordered compiled.
Proof.
  induction items as [|item items IH]; intros ids compiled; cbn [compile_items]; [intros [= <-]; constructor|].
  intros (_u & _ & H)%bind_Ok. revert H. intros (c & Hc & H)%bind_Ok. revert H. intros (rest & Hrest & [= <-])%bind_Ok.
  constructor; [by apply (compileCalendarItem_ordered _ _ Hc)|by eapply IH].
Qed.

Lemma compile_calendars_ordered tenant calendars : ∀ compiled deleted compiled' deleted',
  map_Forall (λ _, items_ordered) compiled →
  compile_calendars LoadLocation tenant calendars compiled deleted = Ok (compiled', deleted') →
  map_Forall (λ _, items_ordered) compiled'.
Proof.
  induction calendars as [|calendar calendars IH]; intros compiled deleted compiled' deleted' Hall; cbn [compile_calendars].
  { by intros [= <- _]. }
  intros (_u & _ & H)%bind_Ok. revert H. intros (_u' & _ & H)%bind_Ok. revert H.
  destruct (cal_Status calendar =? "DELETED")%string.
  { intros H. eapply IH; [|exact H]. by apply map_Forall_insert_2; [constructor|]. }
  destruct (negb _); [done|]. destruct (Items calendar) as [items|]; [|done].
  intros (items' & Hitems & H)%bind_Ok. eapply IH; [|exact H]. apply map_Forall_insert_2; [|done]. by eapply compile_items_ordered.
Qed.

Lemma compileEffectiveRules_inv size raw tenant rules :
  compileEffectiveRules LoadLocation snapshot_digest size raw tenant = Ok (Some rules) →
  map_Forall (λ _, items_ordered) (rules_calendars rules) ∧ ∃ snapshot, snapshot_digest snapshot = Some (rules_digest rules).
Proof.
  unfold compileEffectiveRules. destruct (size =? 0); [done|]. destruct raw as [snapshot|]; [|done].
  intros (_u & _ & H)%bind_Ok. revert H. intros (_u' & _ & H)%bind_Ok. revert H.
  destruct (snap_Calendars snapshot) as [calendars|]; [|done]. intros (location & _ & H)%bind_Ok. revert H.
  destruct (snapshot_digest snapshot) as [digest|] eqn:Hd; [|done].
  intros ([compiled deleted] & Hc & [= <-])%bind_Ok. split; [|by exists snapshot].
  by apply (compile_calendars_ordered _ _ _ _ _ _ (map_Forall_empty _) Hc).
Qed.
End compiled.

(** ** The facts of a batch *)

Definition calendar_items (rules : compiledEffectiveRules) (id : Z) : list compiledCalendarItem := default [] (rules_calendars rules !! id).

Definition items_cost (items : list compiledCalendarItem) (second : Z) : Z := foldr (λ item cost, item_cost item second + cost) 0 items.

Definition calendars_cost (rules : compiledEffectiveRules) (ids : list Z) (second : Z) : Z :=
  foldr (λ id cost, items_cost (calendar_items rules id) second + cost) 0 ids.

(** No wall clock of the calendars went back by more than a day. *)
Definition calendars_steady (rules : compiledEffectiveRules) (second : Z) : Prop :=
  map_Forall (λ _, Forall (λ item, item_steady item second)) (rules_calendars rules).

Section facts.
Variables (rules : compiledEffectiveRules) (second : Z).
Hypothesis ordered : map_Forall (λ _, items_ordered) (rules_calendars rules).
Hypothesis steady : calendars_steady rules second.

Lemma scan_items_on items budget matched budget' :
  Forall (λ item, item_steady item second) items → scan_items items second budget = (matched, true, budget') →
  matched = true ↔ Exists (λ item, item_on item second) items.
Proof.
  intros Hall. revert budget. induction Hall as [|item items Hi _ IH]; intros budget; cbn [scan_items].
  { intros [= <- _]. split; [done|]. by intros ?%Exists_nil. }
  destruct (item_matches item second budget) as [[m known] b] eqn:E. destruct known; [|by destruct m].
  pose proof (item_matches_on item second budget m b Hi E) as Hon. destruct m.
  - intros [= <- _]. split; [|done]. intros _. left. by apply Hon.
  - intros ->%IH. rewrite Exists_cons. naive_solver.
Qed.

Lemma scan_items_known items : ∀ budget,
  Forall (λ item, item_steady item second) items → items_ordered items →
  0 ≤ items_cost items second ∧
  (items_cost items second ≤ budget →
   ∃ matched budget', scan_items items second budget = (matched, true, budget') ∧ budget - items_cost items second ≤ budget').
Proof.
  induction items as [|item items IH]; intros budget Hs Ho; cbn [scan_items items_cost foldr].
  { split; [done|]. intros _. exists false, budget. split; [done|lia]. }
  apply Forall_cons in Hs as [Hs Hs']. apply Forall_cons in Ho as [Ho Ho'].
  destruct (item_matches_known item second budget Hs Ho) as [Hpos Hknown].
  pose proof (proj1 (IH budget Hs' Ho')) as Hrest. fold (items_cost items second) in *. split; [lia|]. intros Hb.
  destruct (Hknown ltac:(lia)) as (m & b & -> & Hle). destruct m; [exists true, b; split; [done|lia]|].
  destruct (proj2 (IH b Hs' Ho') ltac:(lia)) as (m & b' & -> & Hle'). exists m, b'. split; [done|lia].
Qed.

(** What a fact says of its calendar. *)
Record fact_of (request : CalendarFactRequest) (fact : CalendarFact) : Prop := {
  fo_request : fact_Request fact = request;
  fo_revision : fact_Revision fact = rules_digest rules;
  fo_interval : fact_ValidFrom fact = second ∧ fact_ValidUntil fact = second + 1;
  fo_known : Known fact = true → is_Some (rules_calendars rules !! fr_CalendarID request) ∧
    (fact_Matched fact = true ↔ calendar_on rules second (fr_CalendarID request));
}.

Lemma calendar_steady id : Forall (λ item, item_steady item second) (calendar_items rules id).
Proof. unfold calendar_items. destruct (rules_calendars rules !! id) eqn:E; [by apply (steady id)|constructor]. Qed.
Lemma calendar_ordered id : items_ordered (calendar_items rules id).
Proof. unfold calendar_items. destruct (rules_calendars rules !! id) eqn:E; [by apply (ordered id)|constructor]. Qed.

Lemma calendar_facts_of requests : ∀ budget,
  Forall (λ request, fr_EvaluationTime request = second) requests →
  Forall2 fact_of requests (calendar_facts rules requests budget).
Proof.
  induction requests as [|request requests IH]; intros budget Ht; cbn [calendar_facts]; [constructor|].
  apply Forall_cons in Ht as [Ht Hts]. rewrite Ht. fold (calendar_items rules (fr_CalendarID request)).
  destruct (scan_items _ second budget) as [[m known] b] eqn:E. constructor; [|by apply IH].
  split; cbn [fact_Request fact_Revision fact_ValidFrom fact_ValidUntil Known fact_Matched]; try done.
  rewrite andb_true_iff, bool_decide_eq_true. intros [-> Hsome]. split; [done|].
  apply (scan_items_on _ _ _ _ (calendar_steady _) E).
Qed.

Lemma calendar_facts_known requests : ∀ budget,
  Forall (λ request, fr_EvaluationTime request = second) requests →
  Forall (λ request, is_Some (rules_calendars rules !! fr_CalendarID request)) requests →
  0 ≤ calendars_cost rules (fr_CalendarID <$> requests) second ∧
  (calendars_cost rules (fr_CalendarID <$> requests) second ≤ budget →
   Forall (λ fact, Known fact = true) (calendar_facts rules requests budget)).
Proof.
  induction requests as [|request requests IH]; intros budget Ht Hsome; cbn [calendar_facts fmap list_fmap calendars_cost foldr].
  { split; [done|constructor]. }
  apply Forall_cons in Ht as [Ht Hts]. apply Forall_cons in Hsome as [Hs Hss]. rewrite Ht.
  fold (calendar_items rules (fr_CalendarID request)). set (items := calendar_items rules _).
  pose proof (λ b, scan_items_known items b (calendar_steady _) (calendar_ordered _)) as Hscan.
  pose proof (proj1 (Hscan 0)). pose proof (proj1 (IH 0 Hts Hss)) as Hrest.
  fold (calendars_cost rules (fr_CalendarID <$> requests) second) in *. split; [lia|]. intros Hb.
  destruct (proj2 (Hscan budget) ltac:(lia)) as (m & b & -> & Hle). constructor.
  - cbn [Known andb]. by apply bool_decide_eq_true.
  - apply (proj2 (IH b Hts Hss)). lia.
Qed.

Lemma indexed_fact_of requests facts request :
  NoDup requests → Forall2 fact_of requests facts → request ∈ requests →
  ∃ fact, indexed_fact facts request = Some fact ∧ fact ∈ facts ∧ fact_of request fact.
Proof.
  intros Hnd Hall. revert Hnd. induction Hall as [|r fact requests facts Hf Hall IH]; intros Hnd.
  { by intros ?%elem_of_nil. }
  assert (∀ f, f ∈ facts → fact_Request f ∈ requests) as Hreq.
  { intros f (i & Hi)%list_elem_of_lookup_1. destruct (Forall2_lookup_r _ _ _ _ _ Hall Hi) as (r' & Hr' & Hfo).
    rewrite (fo_request _ _ Hfo). by eapply list_elem_of_lookup_2. }
  apply NoDup_cons in Hnd as [Hnew Hnd]. unfold indexed_fact in *. rewrite filter_cons. intros [->|Hin]%elem_of_cons.
  - rewrite decide_True by apply (fo_request _ _ Hf). rewrite (filter_none (λ f, fact_Request f = r)).
    2: { intros f Hf' Heq. apply Hnew. rewrite <- Heq. by apply Hreq. }
    exists fact. split_and!; [done|by left|done].
  - rewrite decide_False. 2: { rewrite (fo_request _ _ Hf). intros ->. done. }
    destruct (IH Hnd Hin) as (f & Hidx & Hin' & Hfo). exists f. split_and!; [done|by right|done].
Qed.
End facts.

(** ** The requirement's calendars *)

Lemma calendars_cost_perm rules second ids ids' : ids ≡ₚ ids' → calendars_cost rules ids second = calendars_cost rules ids' second.
Proof. induction 1; cbn [calendars_cost foldr] in *; unfold calendars_cost in *; lia. Qed.

(** What the loop over the ids ends with, when every fact is known. *)
Lemma calendar_loop_known rules request facts ids : ∀ s,
  sha256Pattern (rules_digest rules) = true → StronglySorted Z.lt (activeCalendarIDs (tr_Requirement request)) →
  (∀ id, id ∈ ids → ∃ fact, indexed_fact facts (calendar_request request id) = Some fact ∧ Known fact = true ∧
                            fact_of rules (tr_EvaluationTime request) (calendar_request request id) fact) →
  ∃ s', calendar_loop request facts ids s = Some s' ∧
    (activeMatched s' = true ↔ activeMatched s = true ∨
       ∃ id, id ∈ ids ∧ id ∈ activeCalendarIDs (tr_Requirement request) ∧ calendar_on rules (tr_EvaluationTime request) id) ∧
    (inactiveMatched s' = true ↔ inactiveMatched s = true ∨
       ∃ id, id ∈ ids ∧ id ∉ activeCalendarIDs (tr_Requirement request) ∧ calendar_on rules (tr_EvaluationTime request) id).
Proof.
  intros s Hd Hsorted. revert s. induction ids as [|id ids IH]; intros s Hids; cbn [calendar_loop].
  { exists s. split; [done|]. split; (split; [by left|]); intros [?|(id & Hin & _)]; try done; by apply elem_of_nil in Hin. }
  destruct (Hids id ltac:(left)) as (fact & -> & Hk & [Hr Hrev [Hf Hu] Hknown]). cbn [mbind option_bind].
  assert (calendarFactCovers fact (tr_EvaluationTime request) = true) as ->.
  { unfold calendarFactCovers. rewrite Hk, Hrev, Hd, Hf, Hu. cbn [andb]. apply andb_true_iff.
    split; [by apply Z.leb_le|apply Z.ltb_lt; lia]. }
  cbn [negb]. destruct (Hknown Hk) as [_ Hon]. cbn [fr_CalendarID calendar_request] in Hon.
  match goal with |- context [calendar_loop _ _ _ ?s1] => destruct (IH s1) as (s' & -> & Ha & Hi) end.
  { intros id' Hin. apply Hids. by right. }
  exists s'. split; [done|]. cbn [activeMatched inactiveMatched] in Ha, Hi. rewrite Ha, Hi, !orb_true_iff, !andb_true_iff, negb_true_iff, Hon.
  pose proof (containsCalendarID_spec _ id Hsorted) as Hcontains.
  assert (containsCalendarID (activeCalendarIDs (tr_Requirement request)) id = false ↔ id ∉ activeCalendarIDs (tr_Requirement request)) as ->.
  { rewrite <- Hcontains. by destruct (containsCalendarID _ id). }
  rewrite Hcontains. setoid_rewrite elem_of_cons. split; naive_solver.
Qed.

(** A fact that is not known leaves the requirement unknown. *)
Lemma calendar_loop_unknown request facts ids : ∀ s,
  (∃ id fact, id ∈ ids ∧ indexed_fact facts (calendar_request request id) = Some fact ∧ Known fact = false) →
  calendar_loop request facts ids s = None.
Proof.
  induction ids as [|id ids IH]; intros s (id' & fact & Hin & Hidx & Hk); [by apply elem_of_nil in Hin|]. cbn [calendar_loop].
  apply elem_of_cons in Hin as [->|Hin].
  - rewrite Hidx. cbn [mbind option_bind]. unfold calendarFactCovers. by rewrite Hk.
  - destruct (indexed_fact facts (calendar_request request id)) as [f|]; [|done]. cbn [mbind option_bind].
    destruct (calendarFactCovers f _); [|done]. apply IH. by exists id', fact.
Qed.

(** ** Compiled requirements *)

Lemma compileEffectiveTimeRequirement_inv requirement_digest uptime timezoneRef requirement :
  compileEffectiveTimeRequirement requirement_digest uptime timezoneRef = Ok requirement →
  StronglySorted Z.lt (activeCalendarIDs requirement) ∧
  (etr_kind requirement = EffectiveTimeAlways ∨
   etr_kind requirement = EffectiveTimeStaticSchedule ∧ requirement_ids requirement = [] ∨
   etr_kind requirement = EffectiveTimeCalendar ∧ requirement_ids requirement ≠ []).
Proof.
  assert (∀ r r', with_digest requirement_digest r = Ok r' →
            activeCalendarIDs r' = activeCalendarIDs r ∧ requirement_ids r' = requirement_ids r ∧ etr_kind r' = etr_kind r) as Hwith.
  { intros r r'. unfold with_digest. destruct (requirement_digest r); [|done]. by intros [= <-]. }
  unfold compileEffectiveTimeRequirement. destruct (stated_uptime uptime timezoneRef) as [[u|] tz].
  2: { intros (_u & _ & (-> & _ & ->)%Hwith)%bind_Ok. split; [constructor|by left]. }
  destruct (TimeRanges u) as [raw|]; [|done].
  destruct (normalizeCalendarIDs (ActiveCalendars u)) as [active|] eqn:Ha; [|done].
  destruct (normalizeCalendarIDs (Calendars u)) as [inactive|]; [|done].
  cbv zeta. case_cond.
  { intros (-> & _ & ->)%Hwith. split; [constructor|by left]. }
  intros (_u & _ & (-> & -> & ->)%Hwith)%bind_Ok. cbn [activeCalendarIDs etr_kind requirement_ids inactiveCalendarIDs].
  split; [by eapply normalizeCalendarIDs_sorted|right].
  destruct (bool_decide_reflect (active = [])) as [Hae|Hne].
  - destruct (bool_decide_reflect (inactive = [])) as [Hie|Hne']; cbn [andb].
    + left. split; [done|]. by rewrite Hae, Hie.
    + right. split; [done|]. by intros [_ ?]%app_eq_nil.
  - cbn [andb]. right. split; [done|]. by intros [? _]%app_eq_nil.
Qed.

(** ** End to end *)

Section resolved.
Variables (LoadLocation : string → option Location) (snapshot_digest : effectiveSnapshot → option string).
Variable requirement_digest : EffectiveTimeRequirement → option string.
Variable fact_digest : string → string → string → Z → Z → option string.
Variable revision_digest : list calendarFactWire → option string.
Hypothesis snapshot_digest_hex : ∀ s d, snapshot_digest s = Some d → validDigestV2 d = true.
Hypothesis fact_digest_hex : ∀ a b c d e, ∃ x, fact_digest a b c d e = Some x ∧ validDigestV2 x = true.
Hypothesis revision_digest_total : ∀ l, is_Some (revision_digest l).

Lemma newEffectiveTimeFact_ok status digest revision from_ until :
  ∃ x, newEffectiveTimeFact fact_digest status digest revision from_ until = Ok (mkEffective status digest revision x from_ until) ∧
       validDigestV2 x = true.
Proof. unfold newEffectiveTimeFact. destruct (fact_digest_hex status digest revision from_ until) as (x & -> & Hx). by exists x. Qed.

(** The candidates the budget must hold: the items of the calendars named, each once. *)
Definition within_budget (rules : compiledEffectiveRules) (requirement : EffectiveTimeRequirement) (second : Z) : Prop :=
  calendars_cost rules (remove_dups (requirement_ids requirement)) second ≤ effectiveRuleCandidateBudget.

Definition calendars_present (rules : compiledEffectiveRules) (requirement : EffectiveTimeRequirement) : Prop :=
  Forall (λ id, is_Some (rules_calendars rules !! id)) (requirement_ids requirement).

(** A pending requirement, resolved from the facts of its batch. *)
Lemma pending_resolves rules request validUntil :
  let requirement := tr_Requirement request in
  let t := tr_EvaluationTime request in
  map_Forall (λ _, items_ordered) (rules_calendars rules) → calendars_steady rules t →
  sha256Pattern (rules_digest rules) = true → StronglySorted Z.lt (activeCalendarIDs requirement) →
  matchesTimeRanges (local_clock (rules_location rules) t / 60) (etr_timeRanges requirement) = true →
  let batch := calendar_request request <$> merge_sort Z.le (remove_dups (requirement_ids requirement)) in
  ∃ fact, resolveCalendarRequirement fact_digest revision_digest request EffectiveTimeActive validUntil (ResolveCalendarFacts rules batch) = Ok fact ∧
    (ef_status fact = EffectiveTimeActive ∧ (etr_kind requirement = EffectiveTimeCalendar → time_on rules requirement t) ∨
     ef_status fact = EffectiveTimeInactive ∧ (etr_kind requirement = EffectiveTimeCalendar → ¬ time_on rules requirement t) ∨
     ef_status fact = EffectiveTimeUnknown ∧ ¬ (calendars_present rules requirement ∧ within_budget rules requirement t)).
Proof.
  intros requirement t Hord Hsteady Hd Hsorted Hsched batch. set (ids := merge_sort Z.le _) in batch.
  assert (ids ≡ₚ remove_dups (requirement_ids requirement)) as Hperm by apply merge_sort_Permutation.
  assert (∀ id, id ∈ ids ↔ id ∈ requirement_ids requirement) as Hids by (intros id; rewrite Hperm; apply elem_of_remove_dups).
  assert (NoDup ids) as Hnd by (rewrite Hperm; apply NoDup_remove_dups).
  assert (NoDup batch) as Hndb by (apply NoDup_fmap_2; [by intros ? ? [=]|done]).
  assert (Forall (λ r, fr_EvaluationTime r = t) batch) as Htimes by (by apply Forall_fmap, Forall_true).
  set (facts := ResolveCalendarFacts rules batch).
  pose proof (calendar_facts_of rules t Hsteady batch effectiveRuleCandidateBudget Htimes) as Hof.
  assert (∀ id, id ∈ requirement_ids requirement → ∃ fact, indexed_fact facts (calendar_request request id) = Some fact ∧
            fact ∈ facts ∧ fact_of rules t (calendar_request request id) fact) as Hidx.
  { intros id Hin. apply (indexed_fact_of rules t batch facts _ Hndb Hof). apply list_elem_of_fmap. exists id. by rewrite Hids. }
  unfold resolveCalendarRequirement. fold requirement.
  destruct (decide (Exists (λ fact, Known fact = false) facts)) as [Hsome|Hnone].
  - apply Exists_exists in Hsome as (fact & Hin & Hk). pose proof Hin as (i & Hi)%list_elem_of_lookup_1.
    destruct (Forall2_lookup_r _ _ _ _ _ Hof Hi) as (r & Hr & Hfo).
    apply list_elem_of_lookup_2, list_elem_of_fmap in Hr as (id & -> & Hid%Hids).
    destruct (Hidx id Hid) as (fact' & Hidx' & _ & _).
    assert (fact' = fact) as ->.
    { unfold indexed_fact in Hidx'. assert (fact ∈ filter (λ f, fact_Request f = calendar_request request id) facts) as Hf.
      { apply list_elem_of_filter. split; [apply (fo_request _ _ _ _ Hfo)|done]. }
      destruct (filter _ facts) as [|x [|]]; [done| |done]. injection Hidx' as <-. by apply list_elem_of_singleton in Hf. }
    rewrite (calendar_loop_unknown request facts) by (by exists id, fact).
    unfold unknownEffectiveTimeFact. destruct (newEffectiveTimeFact_ok EffectiveTimeUnknown (etr_digest (tr_Requirement request))
      (etr_digest (tr_Requirement request)) (tr_EvaluationTime request) (tr_EvaluationTime request + 60)) as (x & -> & _).
    eexists. split; [done|]. right. right. split; [done|]. intros [Hpresent Hbudget].
    assert (Forall (λ fact, Known fact = true) facts) as Hall.
    { apply (calendar_facts_known rules t Hord Hsteady batch effectiveRuleCandidateBudget Htimes).
      - apply Forall_fmap, Forall_forall. intros id' Hin'. cbn. by apply (proj1 (Forall_forall _ _) Hpresent), Hids.
      - unfold batch. rewrite <- list_fmap_compose. cbn. rewrite list_fmap_id. by rewrite (calendars_cost_perm _ _ _ _ Hperm). }
    rewrite Forall_forall in Hall. by rewrite (Hall _ Hin) in Hk.
  - apply not_Exists_Forall in Hnone; [|solve_decision].
    destruct (calendar_loop_known rules request facts (requirement_ids requirement) (mkCalendarState [] validUntil false false) Hd Hsorted)
      as (s & -> & Ha & Hi).
    { intros id Hin. destruct (Hidx id Hin) as (fact & Hfact & Hin' & Hfo). exists fact. split_and!; [done| |done].
      rewrite Forall_forall in Hnone. specialize (Hnone fact Hin'). destruct (Known fact) eqn:E; [done|]. by destruct (Hnone E). }
    destruct (revision_digest_total (cs_used s)) as [revision ->].
    match goal with |- context [newEffectiveTimeFact _ ?st ?a ?b ?c ?d] => destruct (newEffectiveTimeFact_ok st a b c d) as (x & -> & _) end.
    eexists. split; [done|]. cbn [ef_status]. fold requirement t in Ha, Hi. cbn [activeMatched inactiveMatched] in Ha, Hi.
    assert (∀ id, id ∈ requirement_ids requirement ↔ id ∈ activeCalendarIDs requirement ∨ id ∈ inactiveCalendarIDs requirement) as Hor
      by (intros id; apply elem_of_app).
    destruct (activeMatched s).
    { left. split; [done|]. intros _. right. split; [done|left]. destruct (proj1 Ha eq_refl) as [[=]|(id & _ & ? & ?)]. by exists id. }
    assert (¬ ∃ id, id ∈ activeCalendarIDs requirement ∧ calendar_on rules t id) as Hna.
    { intros (id & Hin & Hon). discriminate (proj2 Ha). right. exists id. split; [rewrite Hor; by left|done]. }
    destruct (bool_decide_reflect (activeCalendarIDs requirement = [])) as [Hnil|Hne]; cbn [negb orb].
    2: { right. left. split; [done|]. intros Hkind [Halways|(_ & [Hact|[? _]])]; [by rewrite Hkind in Halways|done|done]. }
    destruct (inactiveMatched s).
    + right. left. split; [done|]. intros Hkind [Halways|(_ & [Hact|[_ Hrest]])]; [by rewrite Hkind in Halways|done|].
      destruct (proj1 Hi eq_refl) as [[=]|(id & Hin & Hnot & Hon)]. apply (Hrest id); [|done]. apply Hor in Hin as [?|?]; done.
    + left. split; [done|]. intros _. right. split; [done|right]. split; [done|]. intros id Hin Hon.
      discriminate (proj2 Hi). right. exists id. split_and!; [rewrite Hor; by right| |done]. rewrite Hnil. apply not_elem_of_nil.
Qed.
(** The status the rules give a compiled requirement, on each of its kinds. *)
Definition status_decided (rules : compiledEffectiveRules) (requirement : EffectiveTimeRequirement) (t : Z) (status : string) : Prop :=
  status = EffectiveTimeActive ∧ time_on rules requirement t ∨
  status = EffectiveTimeInactive ∧ ¬ time_on rules requirement t ∨
  status = EffectiveTimeUnknown ∧ ¬ (calendars_present rules requirement ∧ within_budget rules requirement t).

Lemma calendar_resolve_decides rules requirement tenant business t :
  map_Forall (λ _, items_ordered) (rules_calendars rules) → calendars_steady rules t →
  validDigestV2 (rules_digest rules) = true → StronglySorted Z.lt (activeCalendarIDs requirement) →
  (etr_kind requirement = EffectiveTimeAlways ∨
   etr_kind requirement = EffectiveTimeStaticSchedule ∧ requirement_ids requirement = [] ∨
   etr_kind requirement = EffectiveTimeCalendar ∧ requirement_ids requirement ≠ []) →
  ∃ fact, calendar_resolve fact_digest revision_digest (Some (λ _ _ _, Ok (Some (rules_location rules)))) (ResolveCalendarFacts rules)
            (mkTimeRequest tenant business t requirement) = Ok fact ∧ status_decided rules requirement t (ef_status fact).
Proof.
  intros Hord Hsteady Hsd Hsorted Hkind. set (request := mkTimeRequest tenant business t requirement). unfold status_decided.
  unfold calendar_resolve, schedule_pass. cbn [tr_Requirement tr_EvaluationTime request].
  destruct Hkind as [Hk|[[Hk Hids]|[Hk Hids]]].
  - rewrite Hk. cbn [String.eqb]. simpl.
    destruct (newEffectiveTimeFact_ok EffectiveTimeActive (etr_digest requirement) (etr_digest requirement) t (t + 24 * 60 * 60))
      as (x & -> & _). eexists. split; [done|]. left. split; [done|by left].
  - rewrite Hk. simpl. unfold resolveStaticSchedule. simpl.
    destruct (newEffectiveTimeFact_ok (if matchesTimeRanges (local_clock (rules_location rules) t / 60) (etr_timeRanges requirement)
       then EffectiveTimeActive else EffectiveTimeInactive) (etr_digest requirement) (etr_digest requirement) t
       (nextScheduleBoundary (rules_location rules) t (etr_timeRanges requirement))) as (x & -> & _). simpl.
    eexists. split; [done|]. simpl. apply app_eq_nil in Hids as [Hactive Hinactive]. unfold time_on.
    rewrite Hactive, Hinactive, Hk. destruct (matchesTimeRanges _ _).
    + left. split; [done|right]. split; [done|right]. split; [done|]. intros id Hin. by apply elem_of_nil in Hin.
    + right. left. split; [done|]. by intros [?|[? _]].
  - rewrite Hk. simpl. unfold resolveStaticSchedule. simpl.
    destruct (matchesTimeRanges _ _) eqn:Hsched; simpl.
    + rewrite bool_decide_eq_false_2.
      2: { intros Hnil. apply fmap_nil_inv in Hnil. pose proof (merge_sort_Permutation Z.le (remove_dups (requirement_ids requirement))) as Hp.
           rewrite Hnil in Hp. destruct (requirement_ids requirement) as [|id ids] eqn:E; [done|].
           assert (id ∈ remove_dups (id :: ids)) as Hin by (apply elem_of_remove_dups; left). rewrite <- Hp in Hin. by apply elem_of_nil in Hin. }
      destruct (pending_resolves rules request (nextScheduleBoundary (rules_location rules) t (etr_timeRanges requirement))
        Hord Hsteady (validDigest_pattern _ Hsd) Hsorted Hsched) as (fact & Hfact & Hstatus).
      exists fact. split; [exact Hfact|]. cbn [tr_Requirement tr_EvaluationTime request] in Hstatus. naive_solver.
    + destruct (newEffectiveTimeFact_ok EffectiveTimeInactive (etr_digest requirement) (etr_digest requirement) t
        (nextScheduleBoundary (rules_location rules) t (etr_timeRanges requirement))) as (x & -> & _). simpl.
      eexists. split; [done|]. right. left. split; [done|]. intros [Ha|[Hm _]]; [by rewrite Hk in Ha|congruence].
Qed.

(** C8: under frozen rules a compiled requirement always resolves, to a fact the trigger
    accepts, for that second only: ACTIVE exactly when the requirement is met, INACTIVE exactly when
    it is not; or UNKNOWN, and then a calendar it names is not in the snapshot or the items of
    its calendars hold more candidates than the budget. *)
Theorem effective_time_decides size raw tenant rules uptime timezoneRef requirement business t legacy :
  compileEffectiveRules LoadLocation snapshot_digest size raw tenant = Ok (Some rules) →
  compileEffectiveTimeRequirement requirement_digest uptime timezoneRef = Ok requirement →
  t < maxInt64 - 86400 → calendars_steady rules t →
  ∃ fact,
    resolveEffectiveRequirement fact_digest revision_digest (Some rules) (mkTimeRequest tenant business t requirement) legacy = Ok fact ∧
    validateEffectiveTimeFactV2 t (etr_digest requirement) fact = Ok tt ∧
    status_decided rules requirement t (ef_status fact).
Proof.
  intros (Hord & snapshot & Hsd%snapshot_digest_hex)%compileEffectiveRules_inv Hreq Ht Hsteady.
  apply compileEffectiveTimeRequirement_inv in Hreq as [Hsorted Hkind].
  unfold resolveEffectiveRequirement. cbn [tr_EvaluationTime tr_Requirement].
  rewrite (proj2 (Z.leb_gt (maxInt64 - 86400) t)) by done. cbn [fail_if mbind result_bind].
  destruct (calendar_resolve_decides rules requirement tenant business t Hord Hsteady Hsd Hsorted Hkind) as (fact & -> & Hfact).
  cbn [mbind result_bind].
  destruct (newEffectiveTimeFact_ok (ef_status fact) (etr_digest requirement) (rules_digest rules) t (t + 1)) as (x & -> & Hx).
  eexists. split; [done|]. split; [|exact Hfact]. unfold validateEffectiveTimeFactV2.
  cbn [ef_requirementDigest ef_factDigest ef_factRevision ef_validFrom ef_validUntil].
  rewrite String.eqb_refl, Hx, Hsd, (proj2 (Z.ltb_ge t t)), (proj2 (Z.leb_gt (t + 1) t)) by lia. done.
Qed.
End resolved.

(** * Examples

    Concrete schedules and calendars, and the witnesses of the theorems about them. *)

Definition a_digest : string := Eval vm_compute in String.concat "" (replicate 8 "0123abcd"%string).

(** ** Locations: eight hours east, and a clock put on an hour at 2026-03-29 01:00 UTC *)

Definition east : Location := λ _, 8 * 3600.
Definition spring : Location := λ second, if second <? 1774746000 then 0 else 3600.

Definition ex_load (name : string) : option Location :=
  if (name =? "Asia/Shanghai")%string then Some east else if (name =? "Europe/London")%string then Some spring else None.

(** A wall clock inside the gap has no instant; past it, it is an hour earlier. *)
Example ex_gap :
  (civilSecond spring (1774746000 / 86400) 5400, civilSecond spring (1774746000 / 86400) 10800,
   civilSecond east 20000 0) = (None, Some 1774749600, Some (20000 * 86400 - 8 * 3600)).
Proof. vm_compute. reflexivity. Qed.

(** ** The next boundary *)

Definition nine_to_five : list TimeRange := [mkTimeRange 540 1019].

Lemma schedule_holds_until_witness :
  Forall minute_typed nine_to_five ∧
  nextScheduleBoundary (λ _, 28800) 1774746000 nine_to_five = 1774774800 ∧
  matchesTimeRanges (local_clock (λ _, 28800) 1774774799 / 60) nine_to_five = true.
Proof.
  assert (Forall minute_typed nine_to_five) as Htyped by (constructor; [split; cbn; lia|constructor]).
  split; [exact Htyped|]. assert (nextScheduleBoundary (λ _, 28800) 1774746000 nine_to_five = 1774774800) as Hb by (vm_compute; reflexivity).
  split; [exact Hb|].
  rewrite (proj2 (schedule_holds_until 28800 nine_to_five 1774746000 1774774799 Htyped) ltac:(rewrite Hb; lia)). reflexivity.
Defined.

(** Where the clock is put on, the boundary of 03:00 is laid an hour late: at midnight the
    schedule is said to stay off until 04:00 of the wall clock, but is on at 03:00. *)
Definition from_three : list TimeRange := [mkTimeRange 180 300].

Example ex_spring_boundary :
  (nextScheduleBoundary spring 1774742400 from_three, matchesTimeRanges (local_clock spring 1774742400 / 60) from_three,
   matchesTimeRanges (local_clock spring 1774749600 / 60) from_three) = (1774753200, false, true).
Proof. vm_compute. reflexivity. Qed.

(** ** Calendars

    Rest days: every Sunday for a day, in Shanghai, from 2026-03-01, but not on 2026-03-15;
    and a holiday that was, once, in April. *)
Definition sundays : effectiveItem :=
  mkItem 1 "UNIX_SECONDS" (Some 1772294400) (Some 1772380799) "Asia/Shanghai"
    (mkRawRepeat (Some 4%nat) (Some (mkRepeat "week" 1 None [] [1773504000] "Asia/Shanghai")) true).
Definition holiday : effectiveItem :=
  mkItem 2 "UNIX_SECONDS" (Some 1775404800) (Some 1775491199) "Asia/Shanghai" (mkRawRepeat (Some 0%nat) None true).

Definition ex_snapshot : effectiveSnapshot :=
  mkSnapshot 1 "READY" "Asia/Shanghai"
    (Some [mkCalendar 7 "tenant" "PRESENT" (Some [sundays; holiday]); mkCalendar 9 "tenant" "DELETED" None]).

Definition ex_snapshot_digest (_ : effectiveSnapshot) : option string := Some a_digest.

Definition ex_rules : compiledEffectiveRules :=
  match compileEffectiveRules ex_load ex_snapshot_digest 400 (Some ex_snapshot) "tenant" with
  | Ok (Some rules) => rules
  | _ => mkRules UTC ∅ "" 0 ∅
  end.

Lemma ex_rules_compiled : compileEffectiveRules ex_load ex_snapshot_digest 400 (Some ex_snapshot) "tenant" = Ok (Some ex_rules).
Proof. vm_compute. reflexivity. Qed.

(** Sunday the 8th at noon, the excluded 15th, and Monday the 9th. *)
Definition ex_noon (day : Z) : Z := 1772294400 + day * 86400 + 12 * 3600.

Definition sunday_item : compiledCalendarItem :=
  match compileCalendarItem ex_load sundays with Ok item => item | Err _ => mkCalendarItem 0 0 false UTC None no_repeat ∅ end.

Example ex_item :
  ((λ day, (item_matches sunday_item (ex_noon day) 100).1) <$> [7; 14; 8; 0])
  = [(true, true); (false, true); (false, true); (true, true)].
Proof. vm_compute. reflexivity. Qed.

Lemma calendar_item_decides_witness : item_on sunday_item (ex_noon 7) ∧ ¬ item_on sunday_item (ex_noon 8).
Proof.
  assert (∀ s, item_steady sunday_item s) as Hs.
  { intros s a b _ _ _. replace (ci_location sunday_item) with east by (vm_compute; reflexivity). unfold east, day_seconds. lia. }
  assert (ci_daily sunday_item = false → ci_start sunday_item ≤ ci_end sunday_item) as Ho by (intros _; vm_compute; discriminate).
  pose proof (calendar_item_decides sunday_item (ex_noon 7) 100 (Hs _) Ho) as H7.
  pose proof (calendar_item_decides sunday_item (ex_noon 8) 100 (Hs _) Ho) as H8.
  assert (item_matches sunday_item (ex_noon 7) 100 = (true, true, 96)) as E7 by (vm_compute; reflexivity).
  assert (item_matches sunday_item (ex_noon 8) 100 = (false, true, 95)) as E8 by (vm_compute; reflexivity).
  rewrite E7 in H7. rewrite E8 in H8. destruct H7 as [H7 _], H8 as [H8 _].
  split; [by apply H7|]. intros Hon. discriminate (proj2 (H8 eq_refl) Hon).
Defined.

(** ** A requirement: nine to five, but not on rest days *)

Definition ex_uptime : uptimeConfigV1 := mkUptime (Some [mkUptimeRange "09:00" "16:59"]) None (Some [9; 7; 7]).

Definition ex_requirement_digest (_ : EffectiveTimeRequirement) : option string := Some a_digest.
Definition ex_requirement : EffectiveTimeRequirement :=
  match compileEffectiveTimeRequirement ex_requirement_digest (Some ex_uptime) "BUSINESS_LOCAL" with Ok r => r | Err _ => always_requirement end.

Lemma ex_requirement_compiled :
  compileEffectiveTimeRequirement ex_requirement_digest (Some ex_uptime) "BUSINESS_LOCAL" = Ok ex_requirement.
Proof. vm_compute. reflexivity. Qed.

Definition ex_fact_digest (_ _ _ : string) (_ _ : Z) : option string := Some a_digest.
Definition ex_revision_digest (_ : list calendarFactWire) : option string := Some a_digest.

Definition ex_resolve (t : Z) : result string EffectiveTimeFact :=
  resolveEffectiveRequirement ex_fact_digest ex_revision_digest (Some ex_rules) (mkTimeRequest "tenant" "2" t ex_requirement) None.

Example ex_statuses :
  ((λ day, match ex_resolve (ex_noon day) with Ok fact => ef_status fact | Err e => e end) <$> [7; 8; 14])
  = [EffectiveTimeInactive; EffectiveTimeActive; EffectiveTimeActive].
Proof. vm_compute. reflexivity. Qed.

Lemma ex_steady t : calendars_steady ex_rules t.
Proof.
  assert (ci_location <$> calendar_items ex_rules 7 = [east; east]) as Hl by (vm_compute; reflexivity).
  intros id items Hid. apply Forall_forall. intros item Hin a b _ _ _.
  assert (id = 7 ∨ id = 9) as Hcase.
  { apply elem_of_dom_2 in Hid. replace (dom (rules_calendars ex_rules)) with ({[7; 9]} : gset Z) in Hid by (vm_compute; reflexivity).
    set_solver. }
  assert (items = calendar_items ex_rules id) as -> by (unfold calendar_items; by rewrite Hid).
  destruct Hcase as [->| ->].
  - assert (ci_location item ∈ ci_location <$> calendar_items ex_rules 7) as Hloc by (apply list_elem_of_fmap; by exists item).
    rewrite Hl in Hloc. assert (ci_location item = east) as -> by set_solver. unfold east, day_seconds. lia.
  - vm_compute in Hin. by apply elem_of_nil in Hin.
Qed.

Lemma effective_time_decides_witness :
  ¬ time_on ex_rules ex_requirement (ex_noon 7) ∧ time_on ex_rules ex_requirement (ex_noon 8).
Proof.
  assert (∀ s d, ex_snapshot_digest s = Some d → validDigestV2 d = true) as Hs by (intros s d [= <-]; vm_compute; reflexivity).
  assert (∀ a b c d e, ∃ x, ex_fact_digest a b c d e = Some x ∧ validDigestV2 x = true) as Hf
    by (intros; exists a_digest; split; vm_compute; reflexivity).
  assert (∀ l, is_Some (ex_revision_digest l)) as Hr by (intros l; by exists a_digest).
  pose proof (λ t Ht, effective_time_decides ex_load ex_snapshot_digest ex_requirement_digest ex_fact_digest ex_revision_digest Hs Hf Hr
    400 (Some ex_snapshot) "tenant" ex_rules (Some ex_uptime) "BUSINESS_LOCAL" ex_requirement "2" t None ex_rules_compiled
    ex_requirement_compiled Ht (ex_steady t)) as H.
  destruct (H (ex_noon 7) ltac:(vm_compute; reflexivity)) as (f7 & E7 & _ & H7).
  destruct (H (ex_noon 8) ltac:(vm_compute; reflexivity)) as (f8 & E8 & _ & H8).
  vm_compute in E7. injection E7 as <-. vm_compute in E8. injection E8 as <-.
  split.
  - destruct H7 as [[E _]|[[_ ?]|[E _]]]; [discriminate E|done|discriminate E].
  - destruct H8 as [[_ ?]|[[E _]|[E _]]]; [done|discriminate E..].
Defined.
