(* ===== verification/TriggerRecord.v ===== *)
(** One record of the trigger ([Trigger.EvaluateV2]): the counts, the record's
    result, the gates on a recovery, and when an event is built. *)
From S2P Require Import Prelude Reason GoHash TriggerEvent History Trigger RecoveryWalk TriggerLevel.

Open Scope Z_scope.

(** ** The aggregate of Level results *)

(** ABNORMAL when a Level is, else RECOVERY when one is, else NORMAL when one was
    decided. *)
Definition record_verdict (results : list string) : string :=
  if bool_decide (LevelResultAbnormal ∈ results) then LevelResultAbnormal
  else if bool_decide (LevelResultRecovery ∈ results) then LevelResultRecovery
  else match results with [] => "" | _ => LevelResultNormal end.

Lemma aggregate_stopped res results : foldl aggregate_step (res, true) results = (res, true).
Proof. by induction results. Qed.

Lemma aggregate_fold results acc :
  (foldl aggregate_step (acc, false) results).1 =
  if bool_decide (LevelResultAbnormal ∈ (lr_Result <$> results)) then LevelResultAbnormal
  else if bool_decide (LevelResultRecovery ∈ (lr_Result <$> results)) then LevelResultRecovery else acc.
Proof.
  revert acc. induction results as [|r results IH]; intros acc; cbn [foldl]; [done|]. unfold aggregate_step at 2.
  rewrite fmap_cons. destruct (String.eqb_spec (lr_Result r) LevelResultAbnormal) as [Ha|Ha].
  - rewrite aggregate_stopped. rewrite bool_decide_eq_true_2; [done|]. rewrite Ha. left.
  - rewrite IH.
    assert (bool_decide (LevelResultAbnormal ∈ lr_Result r :: (lr_Result <$> results))
            = bool_decide (LevelResultAbnormal ∈ (lr_Result <$> results))) as ->.
    { apply bool_decide_ext. rewrite elem_of_cons. naive_solver. }
    destruct (bool_decide (LevelResultAbnormal ∈ _)); [done|].
    destruct (String.eqb_spec (lr_Result r) LevelResultRecovery) as [Hr|Hr].
    + rewrite (bool_decide_eq_true_2 (LevelResultRecovery ∈ _ :: _)) by (rewrite Hr; left).
      by destruct (bool_decide _).
    + assert (bool_decide (LevelResultRecovery ∈ lr_Result r :: (lr_Result <$> results))
              = bool_decide (LevelResultRecovery ∈ (lr_Result <$> results))) as ->; [|done].
      apply bool_decide_ext. rewrite elem_of_cons. naive_solver.
Qed.

Lemma aggregateRecordResult_spec results :
  results ≠ [] → aggregateRecordResultV2 results = record_verdict (lr_Result <$> results).
Proof.
  intros Hne. unfold aggregateRecordResultV2, record_verdict. rewrite aggregate_fold.
  destruct (bool_decide _); [done|]. destruct (bool_decide _); [done|]. by destruct results.
Qed.

(** The event builder's first loop is the same aggregate, with no event for all
    NORMAL. *)
Lemma event_kind_spec results kind :
  event_kind kind results =
  if bool_decide (LevelResultAbnormal ∈ (lr_Result <$> results)) then TriggerEventAbnormal
  else if bool_decide (LevelResultRecovery ∈ (lr_Result <$> results)) then TriggerEventRecovery else kind.
Proof.
  revert kind. induction results as [|r results IH]; intros kind; cbn [event_kind]; [done|]. rewrite fmap_cons.
  destruct (String.eqb_spec (lr_Result r) LevelResultAbnormal) as [Ha|Ha].
  { rewrite bool_decide_eq_true_2; [done|]. rewrite Ha. left. }
  rewrite IH.
  assert (bool_decide (LevelResultAbnormal ∈ lr_Result r :: (lr_Result <$> results))
          = bool_decide (LevelResultAbnormal ∈ (lr_Result <$> results))) as ->.
  { apply bool_decide_ext. rewrite elem_of_cons. naive_solver. }
  destruct (bool_decide (LevelResultAbnormal ∈ _)); [done|].
  destruct (String.eqb_spec (lr_Result r) LevelResultRecovery) as [Hr|Hr].
  - rewrite (bool_decide_eq_true_2 (LevelResultRecovery ∈ _ :: _)) by (rewrite Hr; left). by destruct (bool_decide _).
  - assert (bool_decide (LevelResultRecovery ∈ lr_Result r :: (lr_Result <$> results))
            = bool_decide (LevelResultRecovery ∈ (lr_Result <$> results))) as ->; [|done].
    apply bool_decide_ext. rewrite elem_of_cons. naive_solver.
Qed.

(** ** The primary Level *)

(** The order the primary is least in. *)
Definition ranks_before (a b : LevelResultV1) : Prop :=
  lr_Priority a < lr_Priority b ∨ lr_Priority a = lr_Priority b ∧ lr_LevelID a ≤ lr_LevelID b.

Record primary_state (kind : string) (seen : list LevelResultV1) (st : Z * Z) : Prop := {
  ps_none : (∀ r, r ∈ seen → lr_Result r ≠ kind) → st = (0, maxUint32);
  ps_some : (∃ r, r ∈ seen ∧ lr_Result r = kind) →
    ∃ p, p ∈ seen ∧ lr_Result p = kind ∧ st = (lr_LevelID p, lr_Priority p) ∧
         ∀ r, r ∈ seen → lr_Result r = kind → ranks_before p r;
}.

Lemma primary_fold kind results :
  Forall (λ r, 0 < lr_LevelID r ∧ lr_Priority r ≤ maxUint32) results →
  primary_state kind results (foldl (primary_step kind) (0, maxUint32) results).
Proof.
  induction results as [|r results IH] using rev_ind; intros Hall.
  { split; [done|set_solver]. }
  apply Forall_app in Hall as [Hall Hr]. apply Forall_cons in Hr as [[Hid Hpr] _]. specialize (IH Hall).
  rewrite foldl_app. cbn [foldl]. destruct (foldl _ _ _) as [primary priority] eqn:Hst. unfold primary_step.
  destruct (String.eqb_spec (lr_Result r) kind) as [Hk|Hk]; simpl.
  2: { destruct IH as [Hnone Hsome]. split.
       - intros Hno. apply Hnone. set_solver.
       - intros (r' & [Hr'| ->]%elem_of_snoc & Hk'); [|done].
         destruct Hsome as (p & Hp & Hpk & Heq & Hleast); [eauto|]. exists p. split_and!; [set_solver|done..|].
         intros r'' [?| ->]%elem_of_snoc ?; [auto|done]. }
  split; [intros Hno; destruct (Hno r); [set_solver|done]|]. intros _.
  destruct (decide (Exists (λ r, lr_Result r = kind) results)) as [Hex|Hnex].
  - destruct IH as [_ Hsome]. destruct Hsome as (p & Hp & Hpk & [= -> ->] & Hleast); [by apply Exists_exists|].
    pose proof (proj1 (Forall_forall _ _) Hall p Hp) as [Hpid _]. simpl in Hpid.
    assert (ranks_before p r ∨ ranks_before r p ∧ ¬ ranks_before p r) as Hcmp by (unfold ranks_before; lia).
    destruct Hcmp as [Hpr'|[Hrp Hnpr]].
    + exists p. split_and!; [set_solver|done| |intros r' [?| ->]%elem_of_snoc ?; auto].
      unfold ranks_before in Hpr'.
      destruct (Z.ltb_spec (lr_Priority r) (lr_Priority p)), (Z.eqb_spec (lr_Priority r) (lr_Priority p)),
        (Z.eqb_spec (lr_LevelID p) 0), (Z.ltb_spec (lr_LevelID r) (lr_LevelID p)); simpl; lia || done.
    + exists r. split_and!; [set_solver|done| |].
      * unfold ranks_before in Hnpr.
        destruct (Z.ltb_spec (lr_Priority r) (lr_Priority p)), (Z.eqb_spec (lr_Priority r) (lr_Priority p)),
          (Z.eqb_spec (lr_LevelID p) 0), (Z.ltb_spec (lr_LevelID r) (lr_LevelID p)); simpl; lia || done.
      * intros r' [Hr'| ->]%elem_of_snoc Hk'; [|unfold ranks_before; lia].
        specialize (Hleast r' Hr' Hk'). unfold ranks_before in *. lia.
  - exists r. split_and!; [set_solver|done| |].
    + destruct IH as [Hnone _].
      assert ((primary, priority) = (0, maxUint32)) as [= -> ->].
      { apply Hnone. intros r' Hr' Hk'. apply Hnex, Exists_exists. eauto. }
      destruct (Z.ltb_spec (lr_Priority r) maxUint32); [done|].
      destruct (Z.eqb_spec (lr_Priority r) maxUint32); [done|lia].
    + intros r' [Hr'| ->]%elem_of_snoc Hk'; [|unfold ranks_before; lia].
      destruct Hnex. apply Exists_exists. eauto.
Qed.

(** The event builder's kind is the record's result, and its primary Level is
    of that kind and comes before every other one of it by priority, then ID. *)
Lemma event_aggregate results :
  results ≠ [] → Forall (λ r, 0 < lr_LevelID r ∧ lr_Priority r ≤ maxUint32) results →
  match aggregateTriggerEventV1 results with
  | Ok (kind, primary) =>
      kind = aggregateRecordResultV2 results ∧
      ∃ p, p ∈ results ∧ lr_Result p = kind ∧ lr_LevelID p = primary ∧
           ∀ r, r ∈ results → lr_Result r = kind → ranks_before p r
  | Err _ => aggregateRecordResultV2 results = LevelResultNormal
  end.
Proof.
  intros Hne Hall. unfold aggregateTriggerEventV1. rewrite aggregateRecordResult_spec by done.
  unfold record_verdict. rewrite event_kind_spec.
  assert (∀ kind, kind ∈ (lr_Result <$> results) → ∃ r, r ∈ results ∧ lr_Result r = kind) as Hex.
  { intros kind (r & -> & Hr)%list_elem_of_fmap. eauto. }
  destruct (bool_decide_reflect (LevelResultAbnormal ∈ (lr_Result <$> results))) as [Ha|_]; simpl.
  { split; [done|]. destruct (primary_fold TriggerEventAbnormal results Hall) as [_ Hsome].
    destruct Hsome as (p & ? & ? & -> & ?); [by apply Hex|]. by exists p. }
  destruct (bool_decide_reflect (LevelResultRecovery ∈ (lr_Result <$> results))) as [Hr|_]; simpl.
  { split; [done|]. destruct (primary_fold TriggerEventRecovery results Hall) as [_ Hsome].
    destruct Hsome as (p & ? & ? & -> & ?); [by apply Hex|]. by exists p. }
  by destruct results.
Qed.

(** ** The whole record *)

Section record.
Context {V : Type} `{!HistoryView V} {Body Subject : Type}.
Variable ParseInt : string → option Z.
Variable CanonicalJSONV2_accepts : string → bool.
Variable evidence_bytes : list LevelResultV1 → result string Z.
Variable seal : EvaluationRequestV2 V → string → string → option StrategySnapshotRef → list LevelResultV1 → Z →
  result string Body.
Variable MonitorDedupeMD5 : EvaluationRequestV2 V → result string string.
Variable ProjectMonitorSubject : EvaluationRequestV2 V → result string Subject.
Notation Evaluate := (EvaluateV2 ParseInt CanonicalJSONV2_accepts evidence_bytes seal MonitorDedupeMD5 ProjectMonitorSubject).
Implicit Types (request : EvaluationRequestV2 V).

Definition decided_outcome_ (o : LevelOutcomeV2) : bool := negb (lo_Result o =? "")%string.
Definition suppressed_outcome (o : LevelOutcomeV2) : bool :=
  negb (decided_outcome_ o) && negb (lo_SuppressedReason o =? "")%string.
Definition unavailable_outcome (o : LevelOutcomeV2) : bool :=
  negb (decided_outcome_ o) && (lo_SuppressedReason o =? "")%string && negb (lo_UnavailableReason o =? "")%string.

Definition count_of (p : LevelOutcomeV2 → bool) (outcomes : list LevelOutcomeV2) : Z :=
  Z.of_nat (length (filter (λ o, p o = true) outcomes)).
Definition has_result (res : string) (o : LevelOutcomeV2) : bool := (lo_Result o =? res)%string.

(** The counts [c'] are [c] and those of the outcomes. *)
Record counted (c : EvaluationCountsV2) (outcomes : list LevelOutcomeV2) (c' : EvaluationCountsV2) : Prop := {
  counted_levels : ec_Levels c' = ec_Levels c;
  counted_evaluated : ec_Evaluated c' = ec_Evaluated c + count_of decided_outcome_ outcomes;
  counted_abnormal : ec_Abnormal c' = ec_Abnormal c + count_of (has_result LevelResultAbnormal) outcomes;
  counted_normal : ec_Normal c' = ec_Normal c + count_of (has_result LevelResultNormal) outcomes;
  counted_recovery : ec_Recovery c' = ec_Recovery c + count_of (has_result LevelResultRecovery) outcomes;
  counted_suppressed : ec_Suppressed c' = ec_Suppressed c + count_of suppressed_outcome outcomes;
  counted_unavailable : ec_Unavailable c' = ec_Unavailable c + count_of unavailable_outcome outcomes;
  counted_events : ec_Events c' = ec_Events c;
}.

Record counts_bounded (c : EvaluationCountsV2) (n : Z) : Prop := {
  cb_evaluated : 0 ≤ ec_Evaluated c ≤ n;
  cb_abnormal : 0 ≤ ec_Abnormal c ≤ n;
  cb_normal : 0 ≤ ec_Normal c ≤ n;
  cb_recovery : 0 ≤ ec_Recovery c ≤ n;
  cb_suppressed : 0 ≤ ec_Suppressed c ≤ n;
  cb_unavailable : 0 ≤ ec_Unavailable c ≤ n;
}.

Lemma count_of_cons p o os : count_of p (o :: os) = (if p o then 1 else 0) + count_of p os.
Proof. unfold count_of. rewrite filter_cons. destruct (p o); case_decide; simpl; try done; lia. Qed.

Lemma count_outcome_spec c n o c1 evaluated :
  counts_bounded c n → 0 ≤ n < maxUint64 → count_outcome c o = Ok (c1, evaluated) →
  counted c [o] c1 ∧ counts_bounded c1 (n + 1) ∧ evaluated = decided_outcome_ o.
Proof.
  intros [] Hn H.
  assert (∀ x d, 0 ≤ x ≤ n → d = 0 ∨ d = 1 → u64 (x + d) = x + d) as Hadd by (intros; apply u64_id; go_lia).
  unfold count_outcome in H. fold (decided_outcome_ o) in H.
  fold (has_result LevelResultAbnormal o) (has_result LevelResultNormal o) (has_result LevelResultRecovery o) in H.
  assert (count_of suppressed_outcome [o] = (if suppressed_outcome o then 1 else 0)) as Hs by (rewrite count_of_cons; unfold count_of; simpl; lia).
  assert (count_of unavailable_outcome [o] = (if unavailable_outcome o then 1 else 0)) as Hu by (rewrite count_of_cons; unfold count_of; simpl; lia).
  assert (count_of decided_outcome_ [o] = (if decided_outcome_ o then 1 else 0)) as Hd by (rewrite count_of_cons; unfold count_of; simpl; lia).
  assert (∀ res, count_of (has_result res) [o] = (if has_result res o then 1 else 0)) as Hr by (intros; rewrite count_of_cons; unfold count_of; simpl; lia).
  assert (decided_outcome_ o = false → ∀ res, res ≠ ""%string → has_result res o = false) as Hempty.
  { unfold decided_outcome_, has_result. rewrite negb_false_iff, String.eqb_eq. intros -> res Hne.
    by apply String.eqb_neq. }
  assert (∀ b : bool, (if b then 1 else 0) = 0 ∨ (if b then 1 else 0) = 1) as Hb by (intros []; auto).
  assert (suppressed_outcome o = negb (decided_outcome_ o) && negb (lo_SuppressedReason o =? "")%string) as Es by done.
  assert (unavailable_outcome o = negb (decided_outcome_ o) && (lo_SuppressedReason o =? "")%string
          && negb (lo_UnavailableReason o =? "")%string) as Eu by done.
  rewrite Es in Hs. rewrite Eu in Hu. clear Es Eu.
  destruct (decided_outcome_ o) eqn:Hdec; simpl in H, Hs, Hu.
  - injection H as <- <-. split_and!; [split; simpl|split; simpl|done]; rewrite ?Hadd, ?Hs, ?Hu, ?Hd, ?Hr by (done || auto);
      destruct (has_result LevelResultAbnormal o), (has_result LevelResultNormal o), (has_result LevelResultRecovery o); lia.
  - specialize (Hempty eq_refl).
    destruct (negb (lo_SuppressedReason o =? "")%string) eqn:Hsup; simpl in H.
    + injection H as <- <-. apply negb_true_iff in Hsup. rewrite Hsup in Hu. simpl in Hu.
      split_and!; [split; simpl|split; simpl|done]; rewrite ?Hadd, ?Hs, ?Hu, ?Hd, ?Hr, ?Hempty by (done || auto); lia.
    + apply negb_false_iff in Hsup. rewrite Hsup in Hu. simpl in Hu.
      destruct (negb (lo_UnavailableReason o =? "")%string) eqn:Hun; simpl in H; [|done].
      injection H as <- <-.
      split_and!; [split; simpl|split; simpl|done]; rewrite ?Hadd, ?Hs, ?Hu, ?Hd, ?Hr, ?Hempty by (done || auto); lia.
Qed.

Lemma counted_trans c o c1 os c2 : counted c [o] c1 → counted c1 os c2 → counted c (o :: os) c2.
Proof.
  intros [] []. split; rewrite ?(count_of_cons _ o os); try congruence;
  match goal with |- context [count_of ?p os] => assert (count_of p [o] = if p o then 1 else 0) by (rewrite count_of_cons; unfold count_of; simpl; lia) end; lia.
Qed.

(** Every counted outcome is in one class. *)
Lemma count_outcome_class c o x :
  count_outcome c o = Ok x → lo_Result o ≠ ""%string ∨ suppressed_outcome o = true ∨ unavailable_outcome o = true.
Proof.
  unfold count_outcome, suppressed_outcome, unavailable_outcome, decided_outcome_.
  destruct (String.eqb_spec (lo_Result o) "") as [->|]; simpl; [|by left].
  destruct (lo_SuppressedReason o =? "")%string; simpl; [|auto].
  destruct (lo_UnavailableReason o =? "")%string; simpl; [done|auto].
Qed.

(** A Level result is appended exactly for a decided outcome, with its result. *)
Lemma evaluateLevel_result request level fact history effective eligibility outcome r :
  evaluateLevelV2 request level fact history effective eligibility = Ok (outcome, r) →
  lo_Result outcome ≠ ""%string →
  lr_Result r = lo_Result outcome ∧ lo_Result outcome ∈ [LevelResultAbnormal; LevelResultNormal; LevelResultRecovery].
Proof.
  intros [_ H]%evaluateLevel_inv Hne.
  destruct (fact_usable fact); simpl in H; [|by rewrite H in Hne].
  destruct (ef_status effective =? EffectiveTimeInactive)%string; [by rewrite H in Hne|].
  destruct (ef_status effective =? EffectiveTimeUnknown)%string; [by rewrite H in Hne|].
  destruct H as (_ & d & s & w & [_ _ _ _ _ Hout]). cbn zeta in Hout.
  destruct (negb _ && _ && _); [by rewrite Hout in Hne|]. destruct Hout as [Hout ->]. rewrite Hout. split; [done|]. simpl. repeat case_match; set_solver.
Qed.

Lemma hold_recovery_result request o :
  lo_Result (hold_recovery request o) = lo_Result o ∨ lo_Result (hold_recovery request o) = ""%string.
Proof.
  unfold hold_recovery. destruct (HoldRecovery request) as [hold|]; [|by left].
  destruct (_ =? _)%string; [|by left]. destruct (hold (lo_LevelID o)) as [reason []]; [by right|by left].
Qed.

(** What the loop over the Levels leaves. *)
Record evaluated (request : EvaluationRequestV2 V) (outcomes : list LevelOutcomeV2) (results : list LevelResultV1) : Prop := {
  ev_results : lr_Result <$> results = lo_Result <$> filter (λ o, decided_outcome_ o = true) outcomes;
  ev_held o hold : o ∈ outcomes → HoldRecovery request = Some hold → lo_Result o = LevelResultRecovery →
    (hold (lo_LevelID o)).2 = false;
  ev_kinds o : o ∈ outcomes →
    lo_Result o ∈ [LevelResultAbnormal; LevelResultNormal; LevelResultRecovery] ∧ decided_outcome_ o = true ∨
    lo_Result o = ""%string ∧ (suppressed_outcome o = true ∨ unavailable_outcome o = true);
}.

Lemma evaluate_levels_spec request levels : ∀ facts histories effectives c n outcomes c' results,
  counts_bounded c n → 0 ≤ n → n + Z.of_nat (length levels) ≤ maxUint32 →
  evaluate_levels request levels facts histories effectives c = Ok (outcomes, c', results) →
  counted c outcomes c' ∧ evaluated request outcomes results ∧ (length outcomes ≤ length levels)%nat.
Proof.
  induction levels as [|level levels IH]; intros facts histories effectives c n outcomes c' results Hb Hn Hlen; cbn [evaluate_levels].
  - intros [= <- <- <-]. split_and!; [split; unfold count_of; simpl; lia|split; [done|set_solver..]|done].
  - assert (@Ok InternalErrorV2 _ ([], c, []) = Ok (outcomes, c', results) →
      counted c outcomes c' ∧ evaluated request outcomes results ∧ (length outcomes ≤ S (length levels))%nat) as Hshort.
    { intros [= <- <- <-]. split_and!; [split; unfold count_of; simpl; lia|split; [done|set_solver..]|simpl; lia]. }
    destruct facts as [|fact facts]; [exact Hshort|]. destruct histories as [|[hid [history|]] histories]; [exact Hshort| |exact Hshort].
    destruct effectives as [|[eid effective] effectives]; [exact Hshort|]. clear Hshort.
    intros (elig & _ & ([o r] & Hlevel & H)%bind_Ok)%bind_Ok. apply bind_Ok in H as (u & _ & H).
    apply bind_Ok in H as ([c1 dec] & Hcount & H). apply bind_Ok in H as ([[os c2] rs] & Hrest & [= <- <- <-]).
    cbn [length] in Hlen.
    destruct (count_outcome_spec _ n _ _ _ Hb ltac:(go_lia) Hcount) as (Hc1 & Hb1 & ->).
    destruct (IH _ _ _ _ (n + 1) _ _ _ Hb1 ltac:(lia) ltac:(lia) Hrest) as (Hc2 & [Hres Hheld Hkinds] & Hos).
    split_and!; [by eapply counted_trans| |simpl; lia]. split.
    + rewrite filter_cons. destruct (decided_outcome_ (hold_recovery request o)) eqn:Hdec; case_decide; try done.
      rewrite !fmap_cons, Hres. f_equal. unfold decided_outcome_ in Hdec. apply negb_true_iff, String.eqb_neq in Hdec.
      destruct (hold_recovery_result request o) as [Heq|]; [|done]. rewrite Heq in Hdec |- *. by eapply evaluateLevel_result in Hlevel as [? _].
    + intros o' hold [->|Ho']%elem_of_cons Hhold Hrec; [|by eapply Hheld]. unfold hold_recovery in *. rewrite Hhold in *.
      destruct (String.eqb_spec (lo_Result o) LevelResultRecovery) as [|Hne]; [|done].
      destruct (hold (lo_LevelID o)) as [reason held] eqn:Hh. destruct held; [done|by rewrite Hh].
    + intros o' [->|Ho']%elem_of_cons; [|by apply Hkinds].
      destruct (decided_outcome_ (hold_recovery request o)) eqn:Hdec.
      * left. split; [|done]. unfold decided_outcome_ in Hdec. apply negb_true_iff, String.eqb_neq in Hdec.
        destruct (hold_recovery_result request o) as [Heq|]; [|done]. rewrite Heq in Hdec |- *.
        by eapply evaluateLevel_result in Hlevel as [_ ?].
      * right. unfold decided_outcome_ in Hdec. apply negb_false_iff, String.eqb_eq in Hdec. split; [done|].
        apply count_outcome_class in Hcount as [?|?]; [congruence|done].
Qed.

(** ** Admission and the number of outcomes *)

Definition level_id (level : CompiledLevel) : Z := def_LevelID (Definition_ level).

Lemma admit_levels_inputs request levels : ∀ previous facts histories effectives cost cost',
  length facts = length levels → length histories = length levels → length effectives = length levels →
  admit_levels request previous levels facts histories effectives cost = Ok cost' →
  Forall (λ h, is_Some h.2) histories ∧ Forall (λ level, level_id level ≠ 0) levels.
Proof.
  induction levels as [|level levels IH]; intros previous [|fact facts] [|[id v] histories] [|e effectives] cost cost' Hf Hh He;
    cbn [admit_levels length] in *; try done.
  intros (cost1 & H1 & H2)%bind_Ok. apply bind_Ok in H1 as (u & Hal & _). apply fail_if_Ok in Hal. breflect.
  destruct (IH _ facts histories effectives _ _ ltac:(lia) ltac:(lia) ltac:(lia) H2) as [Hv Hids].
  split; constructor; [by destruct v|done..].
Qed.

Lemma validateRequest_inv request levels :
  validateRequestV2 request = Ok levels →
  ∃ plan, Plan request = Some plan ∧ levels = Levels plan ∧ levels ≠ [] ∧
    length (LevelFacts (Record_ request)) = length levels ∧ length (Histories request) = length levels ∧
    length (EffectiveTimeFacts request) = length levels ∧ Forall (λ h, is_Some h.2) (Histories request) ∧
    Forall (λ level, level_id level ≠ 0) levels.
Proof.
  unfold validateRequestV2. destruct (Plan request) as [plan|]; [|done].
  intros (u1 & _ & H)%bind_Ok. apply bind_Ok in H as (u2 & Hn & H). apply fail_if_Ok in Hn.
  apply bind_Ok in H as (cost & Hadm & H). apply bind_Ok in H as (u3 & _ & [= <-]).
  rewrite !orb_false_iff, !negb_false_iff, !Nat.eqb_eq in Hn. destruct Hn as [[[[[Hn _] _] Hf] Hh] He].
  destruct (admit_levels_inputs _ _ _ _ _ _ _ _ Hf Hh He Hadm) as [Hviews Hids].
  exists plan. split_and!; try done. intros H0. by rewrite H0 in Hn.
Qed.

Lemma evaluateLevel_id request level fact history effective eligibility outcome r :
  evaluateLevelV2 request level fact history effective eligibility = Ok (outcome, r) →
  lo_LevelID outcome = level_id level.
Proof.
  intros [_ H]%evaluateLevel_inv.
  destruct (fact_usable fact); simpl in H; [|by rewrite H].
  destruct (ef_status effective =? EffectiveTimeInactive)%string; [by rewrite H|].
  destruct (ef_status effective =? EffectiveTimeUnknown)%string; [by rewrite H|].
  destruct H as (_ & d & s & w & [_ _ _ _ _ Hout]). cbn zeta in Hout.
  destruct (negb _ && _ && _); [by rewrite Hout|]. destruct Hout as [Hout _]. by rewrite Hout.
Qed.

Lemma hold_recovery_id request o : lo_LevelID (hold_recovery request o) = lo_LevelID o.
Proof.
  unfold hold_recovery. destruct (HoldRecovery request) as [hold|]; [|done].
  destruct (_ =? _)%string; [|done]. by destruct (hold (lo_LevelID o)) as [reason []].
Qed.

Lemma evaluate_levels_ids request levels : ∀ facts histories effectives c outcomes c' results,
  length facts = length levels → length histories = length levels → length effectives = length levels →
  Forall (λ h, is_Some h.2) histories →
  evaluate_levels request levels facts histories effectives c = Ok (outcomes, c', results) →
  lo_LevelID <$> outcomes = level_id <$> levels.
Proof.
  induction levels as [|level levels IH]; intros [|fact facts] [|[id v] histories] [|[eid e] effectives] c outcomes c' results Hf Hh He Hv;
    cbn [evaluate_levels length] in *; try done.
  { by intros [= <- <- <-]. }
  apply Forall_cons in Hv as [[v' Hv'] Hv]. simpl in Hv'. subst v.
  intros (elig & _ & ([o r] & Hlevel & H)%bind_Ok)%bind_Ok. apply bind_Ok in H as (u & _ & H).
  apply bind_Ok in H as ([c1 dec] & _ & H). apply bind_Ok in H as ([[os c2] rs] & Hrest & [= <- <- <-]).
  rewrite !fmap_cons, hold_recovery_id, (evaluateLevel_id _ _ _ _ _ _ _ _ Hlevel). f_equal.
  by eapply (IH facts histories effectives); [lia..| |].
Qed.

(** ** The record *)

Definition results_of (outcomes : list LevelOutcomeV2) : list string :=
  lo_Result <$> filter (λ o, decided_outcome_ o = true) outcomes.

(** The walk over the outcomes holds nothing by itself. *)
Lemma recoveryGate_not_held outcomes : Held (recoveryGateV2 outcomes) = false.
Proof.
  assert (∀ st, Held (foldl gate_step st outcomes).1 = Held st.1) as Hfold.
  { induction outcomes as [|o os IH]; intros st; cbn [foldl]; [done|]. rewrite IH. destruct st as [gate wr].
    unfold gate_step. by repeat case_match. }
  unfold recoveryGateV2. specialize (Hfold (zero_gate, 0)). destruct (foldl _ _ _) as [gate wr]. simpl in Hfold.
  by destruct (_ && _).
Qed.

(** What an outcome beside a recovery is reported as, and the one reported when
    there is no other: NORMAL with recovery disabled. *)
Definition beside_of (o : LevelOutcomeV2) : option (string * Z) :=
  if negb (lo_UnavailableReason o =? "")%string then Some (RecoveryBesideLevelUnavailable, lo_LevelID o)
  else if negb (lo_SuppressedReason o =? "")%string then None
  else if (lo_Result o =? LevelResultNormal)%string && lo_RecoveryEnabled o
       then Some (RecoveryBesideLevelRecovering, lo_LevelID o) else None.
Definition plain_normal (o : LevelOutcomeV2) : bool :=
  (lo_UnavailableReason o =? "")%string && (lo_SuppressedReason o =? "")%string
  && (lo_Result o =? LevelResultNormal)%string && negb (lo_RecoveryEnabled o).

Definition beside_reference (outcomes : list LevelOutcomeV2) : string * Z :=
  match omap beside_of outcomes with
  | beside :: _ => beside
  | [] => match filter (λ o, plain_normal o = true) outcomes with
          | o :: _ => (RecoveryBesideLevelWithoutRecovery, lo_LevelID o)
          | [] => (""%string, 0)
          end
  end.

Lemma beside_of_nonempty o why id : beside_of o = Some (why, id) → (why =? "")%string = false.
Proof. unfold beside_of. repeat case_match; by intros [= <- <-]. Qed.

Lemma gate_step_spec g w o :
  lo_LevelID o ≠ 0 →
  gate_step (g, w) o =
  (if (Beside g =? "")%string then
     match beside_of o with Some (why, id) => mkGate (Held g) (Cause g) why id (OpenAlertGate g) | None => g end
   else g,
   if (w =? 0) && plain_normal o then lo_LevelID o else w).
Proof.
  intros Hid. unfold gate_step, beside_of, plain_normal.
  destruct (lo_UnavailableReason o =? "")%string; simpl; [|rewrite andb_false_r; by destruct (Beside g =? "")%string].
  destruct (lo_SuppressedReason o =? "")%string; simpl; [|rewrite andb_false_r; by destruct (Beside g =? "")%string].
  destruct (lo_Result o =? LevelResultNormal)%string; simpl; [|rewrite andb_false_r; by destruct (Beside g =? "")%string].
  destruct (lo_RecoveryEnabled o); simpl; [rewrite andb_false_r|rewrite andb_true_r]; destruct (Beside g =? "")%string; try done;
    by destruct (w =? 0).
Qed.

Lemma gate_fold outcomes : ∀ g w,
  Forall (λ o, lo_LevelID o ≠ 0) outcomes →
  foldl gate_step (g, w) outcomes =
  (if (Beside g =? "")%string then
     match omap beside_of outcomes with
     | (why, id) :: _ => mkGate (Held g) (Cause g) why id (OpenAlertGate g)
     | [] => g
     end
   else g,
   if w =? 0 then
     match filter (λ o, plain_normal o = true) outcomes with o :: _ => lo_LevelID o | [] => 0 end
   else w).
Proof.
  induction outcomes as [|o os IH]; intros g w Hall; cbn [foldl omap list_omap].
  - cbn. destruct (Beside g =? "")%string, (Z.eqb_spec w 0); by subst.
  - apply Forall_cons in Hall as [Hid Hall]. rewrite gate_step_spec by done. rewrite IH by done. rewrite filter_cons.
    f_equal.
    + destruct (Beside g =? "")%string eqn:Hb; [|by rewrite Hb].
      destruct (beside_of o) as [[why id]|] eqn:Ho; [|by rewrite Hb]. simpl. by rewrite (beside_of_nonempty _ _ _ Ho).
    + destruct (Z.eqb_spec w 0) as [->|Hw]; simpl; [|by rewrite (proj2 (Z.eqb_neq _ _) Hw)].
      destruct (plain_normal o); case_decide; try done. by rewrite (proj2 (Z.eqb_neq _ _) Hid).
Qed.

Lemma recoveryGate_spec outcomes :
  Forall (λ o, lo_LevelID o ≠ 0) outcomes →
  recoveryGateV2 outcomes = mkGate false "" (beside_reference outcomes).1 (beside_reference outcomes).2 "".
Proof.
  intros Hall. unfold recoveryGateV2, beside_reference. rewrite gate_fold by done. simpl.
  destruct (omap beside_of outcomes) as [|[why id] l] eqn:Hb; simpl.
  - destruct (filter _ outcomes) as [|o l] eqn:Hf; [done|].
    assert (o ∈ filter (λ o, plain_normal o = true) outcomes) as [_ Ho]%list_elem_of_filter by (rewrite Hf; left).
    rewrite Forall_forall in Hall. specialize (Hall o Ho). simpl in Hall. by rewrite (proj2 (Z.eqb_neq _ _) Hall).
  - assert ((why, id) ∈ omap beside_of outcomes) as (o & _ & Ho)%list_elem_of_omap by (rewrite Hb; left).
    by rewrite (beside_of_nonempty _ _ _ Ho).
Qed.

(** How an event is built, held, or left without a message. *)
Definition gate_of request plan (kind : string) (gate : RecoveryGateV2) (dedupe : string) : RecoveryGateV2 :=
  if (kind =? LevelResultRecovery)%string
  then openAlertGateV2 gate request plan (ref_StrategyID plan) dedupe else gate.
Definition no_message request plan (kind : string) : bool :=
  NoMessageForAt (WireFormat plan) kind (cp_legacyOutput plan && PublishesCompatibleProtocol plan)
    (plan_CompatibleOffBoundary plan (ref_SourceTime request)).

Lemma build_event_inv request plan r rs res :
  build_event ParseInt CanonicalJSONV2_accepts evidence_bytes seal MonitorDedupeMD5 ProjectMonitorSubject request plan r rs
    = Ok res →
  ∃ ref dedupe event format events,
    event_identity ParseInt MonitorDedupeMD5 request plan = Ok (ref, dedupe) ∧
    res = with_event r (gate_of request plan (RecordResult r) (RecoveryGate r) dedupe) event format events ∧
    let held := (RecordResult r =? LevelResultRecovery)%string
                && Held (gate_of request plan (RecordResult r) (RecoveryGate r) dedupe) in
    match event with
    | None =>
        events = 0 ∧ (held = true ∧ format = ""%string ∨
                      held = false ∧ no_message request plan (RecordResult r) = true ∧ format = WireFormat plan)
    | Some e =>
        events = 1 ∧ held = false ∧ no_message request plan (RecordResult r) = false ∧ format = ""%string ∧
        ∃ built legacy subject,
          BuildTriggerEventV1 (Subject := Subject) CanonicalJSONV2_accepts evidence_bytes (seal request dedupe)
            (MaxEvidenceBytesPerEvent (Limits request)) (RecordResult r) ref rs = Ok built ∧
          attach_legacy request plan built = Ok legacy ∧
          e = mkEvent legacy subject (WireFormat plan) (cp_signalType plan) (ev_EventKind built)
                (ev_PrimaryLevelID built) (ev_StrategyRef built) (ev_LevelResults built) (ev_Body built)
    end.
Proof.
  unfold build_event. intros (u & _ & H)%bind_Ok. apply bind_Ok in H as ([ref dedupe] & Hid & H).
  fold (gate_of request plan (RecordResult r) (RecoveryGate r) dedupe) in H.
  fold (no_message request plan (RecordResult r)) in H. exists ref, dedupe.
  destruct ((RecordResult r =? LevelResultRecovery)%string && _) eqn:Hheld.
  { injection H as <-. exists None, ""%string, 0. split_and!; try done. by left. }
  destruct (no_message _ _ _) eqn:Hnm.
  { injection H as <-. exists None, (WireFormat plan), 0. split_and!; try done. by right. }
  apply bind_Ok in H as (built & Hb%wrap_Ok & H). apply bind_Ok in H as (legacy & Hl & H).
  apply bind_Ok in H as (subject & _ & [= <-]). eexists (Some _), ""%string, 1.
  split_and!; [done|done|done|done|done|done|]. by exists built, legacy, subject.
Qed.

(** The evaluation before an event is built. *)
Lemma Evaluate_inv request res :
  Evaluate request = Ok res → (∀ plan, Plan request = Some plan → Z.of_nat (length (Levels plan)) ≤ maxUint32) →
  ∃ plan c levelResults,
    Plan request = Some plan ∧
    lo_LevelID <$> LevelOutcomes res = level_id <$> Levels plan ∧ Forall (λ o, lo_LevelID o ≠ 0) (LevelOutcomes res) ∧
    counted (mkCounts (Z.of_nat (length (Levels plan))) 0 0 0 0 0 0 0) (LevelOutcomes res) c ∧
    evaluated request (LevelOutcomes res) levelResults ∧
    Completion res = (match levelResults with
                      | _ :: _ => CompletionEvaluated
                      | [] => if 0 <? ec_Unavailable c then CompletionUnavailable else CompletionSuppressed
                      end) ∧
    RecordResult res = record_verdict (results_of (LevelOutcomes res)) ∧
    let base := mkResult (Completion res) (RecordResult res) (LevelOutcomes res) None c
                  (if (RecordResult res =? LevelResultRecovery)%string then recoveryGateV2 (LevelOutcomes res) else zero_gate) "" in
    if (RecordResult res =? LevelResultAbnormal)%string || (RecordResult res =? LevelResultRecovery)%string
    then build_event ParseInt CanonicalJSONV2_accepts evidence_bytes seal MonitorDedupeMD5 ProjectMonitorSubject
           request plan base levelResults = Ok res
    else res = base.
Proof.
  intros H Hfit. unfold EvaluateV2 in H. apply bind_Ok in H as (levels & Hval & H).
  destruct (validateRequest_inv _ _ Hval) as (plan & Hplan & -> & Hne & Hf & Hh & He & Hviews & Hids).
  apply bind_Ok in H as ([[os c] rs] & Hloop & H).
  assert (counts_bounded (mkCounts (Z.of_nat (length (Levels plan))) 0 0 0 0 0 0 0) 0) as Hb0 by (split; simpl; lia).
  destruct (evaluate_levels_spec _ _ _ _ _ _ 0 _ _ _ Hb0 ltac:(lia) (Hfit _ Hplan) Hloop) as (Hc & Hev & _).
  pose proof (evaluate_levels_ids _ _ _ _ _ _ _ _ _ Hf Hh He Hviews Hloop) as Hlen.
  assert (Forall (λ o, lo_LevelID o ≠ 0) os) as Hoids.
  { apply Forall_forall. intros o Ho. apply (list_elem_of_fmap_2 lo_LevelID) in Ho. rewrite Hlen in Ho.
    apply list_elem_of_fmap in Ho as (level & -> & Hl). rewrite Forall_forall in Hids. exact (Hids level Hl). }
  assert ((match rs with [] => ""%string | _ :: _ => aggregateRecordResultV2 rs end) = record_verdict (results_of os)) as Hverd.
  { pose proof (ev_results _ _ _ Hev) as Hres. fold (results_of os) in Hres. rewrite <- Hres. destruct rs; [done|].
    by apply aggregateRecordResult_spec. }
  rewrite Hplan in H.
  set (completion := match rs with [] => if 0 <? ec_Unavailable c then CompletionUnavailable else CompletionSuppressed
                     | _ :: _ => CompletionEvaluated end).
  assert ((let (completion, recordResult) := match rs with
             | [] => (if 0 <? ec_Unavailable c then CompletionUnavailable else CompletionSuppressed, ""%string)
             | _ :: _ => (CompletionEvaluated, aggregateRecordResultV2 rs) end in (completion, recordResult))
          = (completion, record_verdict (results_of os))) as Hpair by (rewrite <- Hverd; by destruct rs).
  destruct (match rs with [] => _ | _ => _ end) as [comp rr] eqn:Hmatch in H, Hpair. injection Hpair as -> ->.
  assert (Completion res = completion ∧ RecordResult res = record_verdict (results_of os) ∧ LevelOutcomes res = os)
    as (Hcomp & Hrr & Hos).
  { destruct (_ || _); [|by injection H as <-].
    apply build_event_inv in H as (ref & dedupe & event & format & events & _ & -> & _). done. }
  exists plan, c, rs. rewrite Hcomp, Hrr, Hos. cbn zeta. split_and!; [done..|].
  destruct (_ || _); [done|by injection H as <-].
Qed.

(** The counts of a list of outcomes add up. *)
Lemma class_counts request outcomes results :
  evaluated request outcomes results →
  Z.of_nat (length outcomes)
    = count_of decided_outcome_ outcomes + count_of suppressed_outcome outcomes + count_of unavailable_outcome outcomes ∧
  count_of decided_outcome_ outcomes
    = count_of (has_result LevelResultAbnormal) outcomes + count_of (has_result LevelResultNormal) outcomes
      + count_of (has_result LevelResultRecovery) outcomes.
Proof.
  intros [_ _ Hk]. clear results. induction outcomes as [|o os IH]; [by unfold count_of|].
  destruct IH as [IH1 IH2]; [intros; apply Hk; by right|]. rewrite !count_of_cons. cbn [length].
  destruct (Hk o ltac:(left)) as [[Hres Hdec]|[Hres Hclass]].
  - unfold suppressed_outcome, unavailable_outcome, has_result. rewrite Hdec. simpl.
    split; [unfold suppressed_outcome, unavailable_outcome in *; lia|].
    rewrite !elem_of_cons, elem_of_nil in Hres. unfold has_result in IH2.
    destruct Hres as [-> |[-> |[-> |[]]]]; cbn -[count_of]; lia.
  - assert (decided_outcome_ o = false) as Hdec by (unfold decided_outcome_; by rewrite Hres).
    assert (∀ res, res ≠ ""%string → has_result res o = false) as Hno.
    { intros res Hne. unfold has_result. rewrite Hres. by apply String.eqb_neq. }
    rewrite !Hno, Hdec by done. split; [|lia].
    assert (suppressed_outcome o = true → unavailable_outcome o = false) as Hex.
    { unfold suppressed_outcome, unavailable_outcome. destruct (lo_SuppressedReason o =? "")%string; simpl; [by rewrite andb_false_r|].
      by rewrite andb_false_r. }
    destruct (suppressed_outcome o), (unavailable_outcome o); simpl in *; lia || naive_solver.
Qed.

(** A record that is evaluated has one outcome per Level of its Plan, in its order, each
    decided, suppressed or unavailable, and counts that are those of the outcomes
    and add up; its result is ABNORMAL when a Level is, else RECOVERY when one is,
    else NORMAL when one was decided, and its completion says whether one was; and
    no Level recovers that the caller holds. *)
Lemma record_counts request res :
  Evaluate request = Ok res → (∀ plan, Plan request = Some plan → Z.of_nat (length (Levels plan)) ≤ maxUint32) →
  let os := LevelOutcomes res in
  let c := Counts res in
  (∀ plan, Plan request = Some plan → lo_LevelID <$> os = level_id <$> Levels plan) ∧
  ec_Levels c = Z.of_nat (length os) ∧
  ec_Levels c = ec_Evaluated c + ec_Suppressed c + ec_Unavailable c ∧
  ec_Evaluated c = ec_Abnormal c + ec_Normal c + ec_Recovery c ∧
  ec_Abnormal c = count_of (has_result LevelResultAbnormal) os ∧
  ec_Recovery c = count_of (has_result LevelResultRecovery) os ∧
  ec_Suppressed c = count_of suppressed_outcome os ∧
  RecordResult res = record_verdict (results_of os) ∧
  Completion res = (if 0 <? ec_Evaluated c then CompletionEvaluated
                    else if 0 <? ec_Unavailable c then CompletionUnavailable else CompletionSuppressed) ∧
  ∀ o hold, o ∈ os → HoldRecovery request = Some hold → lo_Result o = LevelResultRecovery →
            (hold (lo_LevelID o)).2 = false.
Proof.
  intros H Hfit os c0. destruct (Evaluate_inv _ _ H Hfit) as (plan & c & rs & Hplan & Hlen & _ & Hc & Hev & Hcomp & Hrr & Hrest).
  assert (ec_Levels (Counts res) = ec_Levels c ∧ ec_Evaluated (Counts res) = ec_Evaluated c ∧
          ec_Abnormal (Counts res) = ec_Abnormal c ∧ ec_Normal (Counts res) = ec_Normal c ∧
          ec_Recovery (Counts res) = ec_Recovery c ∧ ec_Suppressed (Counts res) = ec_Suppressed c ∧
          ec_Unavailable (Counts res) = ec_Unavailable c) as (H1 & H2 & H3 & H4 & H5 & H6 & H7).
  { cbn zeta in Hrest. destruct (_ || _); [|by rewrite Hrest].
    apply build_event_inv in Hrest as (ref & dedupe & event & format & events & _ & -> & _). done. }
  destruct Hc as [C1 C2 C3 C4 C5 C6 C7 _]. simpl in *. subst c0 os. rewrite H1, H2, H3, H4, H5, H6, H7.
  destruct (class_counts _ _ _ Hev) as [Hsum Hdec].
  pose proof (f_equal length Hlen) as Hn0. rewrite !length_fmap in Hn0.
  split_and!; try lia; [intros p' Hp'; congruence|done| |intros; by eapply (ev_held _ _ _ Hev)].
  rewrite Hcomp, C2. pose proof (ev_results _ _ _ Hev) as Hres.
  assert (count_of decided_outcome_ (LevelOutcomes res) = Z.of_nat (length rs)) as Hn.
  { unfold count_of. by rewrite <- (length_fmap lr_Result rs), Hres, length_fmap. }
  rewrite Hn. destruct rs; [done|]. by rewrite (proj2 (Z.ltb_lt _ _)) by (simpl; lia).
Qed.

Lemma resolve_idempotent format revision revision' :
  ResolveOutputWireFormat (ResolveOutputWireFormat format revision) revision' = ResolveOutputWireFormat format revision.
Proof.
  unfold ResolveOutputWireFormat at 2 3.
  destruct (String.eqb_spec format WireFormatTriggerEvent); [done|].
  destruct (String.eqb_spec format ""); [by destruct (0 <? revision)|].
  unfold ResolveOutputWireFormat.
  by rewrite (proj2 (String.eqb_neq _ _) n), (proj2 (String.eqb_neq _ _) n0).
Qed.

Lemma built_kind max kind ref rs s built :
  BuildTriggerEventV1 (Body := Body) (Subject := Subject) CanonicalJSONV2_accepts evidence_bytes s max kind ref rs = Ok built →
  ev_EventKind built = kind ∧ ev_StrategyRef built = ref.
Proof.
  unfold BuildTriggerEventV1. intros (u1 & _ & H)%bind_Ok. apply bind_Ok in H as (u2 & _ & H).
  apply bind_Ok in H as (n & _ & H). apply bind_Ok in H as (u3 & _ & H). apply bind_Ok in H as ([k p] & _ & H).
  apply bind_Ok in H as (u4 & _ & H). apply bind_Ok in H as (b & _ & [= <-]). done.
Qed.

Lemma legacy_present request plan built legacy :
  attach_legacy (Body := Body) (Subject := Subject) request plan built = Ok legacy →
  match legacy with Some _ => true | None => false end = cp_legacyOutput plan && PublishesCompatibleProtocol plan.
Proof.
  unfold attach_legacy. destruct (_ && _); [|by intros [= <-]]. by intros (ts & _ & [= <-])%bind_Ok.
Qed.

Lemma no_message_false_here request plan kind :
  no_message request plan kind = false →
  NoMessageFor (WireFormat plan) kind (cp_legacyOutput plan && PublishesCompatibleProtocol plan) = false.
Proof.
  unfold no_message, NoMessageForAt, NoMessageFor, EventHasMessageAt.
  destruct (cp_legacyOutput plan && _); [|by rewrite !andb_false_r]. rewrite !andb_true_r, !negb_false_iff.
  by intros [-> _]%andb_true_iff.
Qed.

(** C7: an event is built exactly for a record that is ABNORMAL or RECOVERY, of
    that kind, unless the recovery is held by the open alert set or the Plan's
    protocol has no message for it; ABNORMAL is never held; and no event that is
    built is one the sink would drop without a word. *)
Theorem event_built request res plan :
  Evaluate request = Ok res → Plan request = Some plan → Z.of_nat (length (Levels plan)) ≤ maxUint32 →
  let kind := RecordResult res in
  match TriggerEvent res with
  | Some e =>
      ec_Events (Counts res) = 1 ∧ kind ∈ [LevelResultAbnormal; LevelResultRecovery] ∧ ev_EventKind e = kind ∧
      ev_WireFormat e = WireFormat plan ∧ WithoutMessageFormat res = ""%string ∧ DroppedAtSink e = false ∧
      Held (RecoveryGate res) = false
  | None =>
      ec_Events (Counts res) = 0 ∧
      (kind ∉ [LevelResultAbnormal; LevelResultRecovery] ∨
       kind = LevelResultRecovery ∧ Held (RecoveryGate res) = true ∨
       WithoutMessageFormat res = WireFormatPythonCompatible ∧
       (kind = LevelResultRecovery ∨ plan_CompatibleOffBoundary plan (ref_SourceTime request) = true))
  end.
Proof.
  intros H Hplan Hfit kind.
  destruct (Evaluate_inv _ _ H) as (plan' & c & rs & Hplan' & _ & _ & Hc & _ & _ & Hrr & Hrest); [intros; congruence|].
  rewrite Hplan in Hplan'. injection Hplan' as <-. fold kind in Hrest. cbn zeta in Hrest.
  assert (kind ∈ [LevelResultAbnormal; LevelResultRecovery] ↔
          (kind =? LevelResultAbnormal)%string || (kind =? LevelResultRecovery)%string = true) as Hkind.
  { rewrite orb_true_iff, !String.eqb_eq. set_solver. }
  assert (ec_Events c = 0) as Hzero by (by destruct Hc).
  destruct ((kind =? LevelResultAbnormal)%string || _) eqn:Hk.
  2: { rewrite Hrest. simpl. split; [done|]. left. by rewrite Hkind. }
  assert (Held zero_gate = false ∧ Held (recoveryGateV2 (LevelOutcomes res)) = false) as [Hz Hg0].
  { split; [done|]. apply recoveryGate_not_held. }
  apply build_event_inv in Hrest as (ref & dedupe & event & format & events & _ & Hres & Hcase). cbn zeta in Hcase.
  rewrite Hres. simpl. destruct event as [e|].
  - destruct Hcase as (-> & Hheld & Hnm & -> & built & legacy & subject & Hb & Hl & ->). simpl in *.
    apply built_kind in Hb as [Hbk Hbr]. split_and!; try done; [by apply Hkind| |].
    + unfold DroppedAtSink, OutputWireFormatOf. simpl. unfold WireFormat at 1. rewrite resolve_idempotent.
      fold (WireFormat plan). rewrite Hbk. rewrite (legacy_present _ _ _ _ Hl).
      by apply no_message_false_here in Hnm.
    + unfold gate_of in *. destruct (kind =? LevelResultRecovery)%string; [done|]. done.
  - destruct Hcase as (-> & Hwhy). split; [done|]. right. simpl in *.
    destruct Hwhy as [[Hheld ->]|(Hheld & Hnm & ->)].
    + left. apply andb_true_iff in Hheld as [He%String.eqb_eq Hh]. done.
    + right. unfold no_message, NoMessageForAt, EventHasMessageAt, EventHasMessage in Hnm.
      apply andb_true_iff in Hnm as [Hnm _]. apply negb_true_iff, andb_false_iff in Hnm as [Hnm|Hnm].
      * apply orb_false_iff in Hnm as [Hf Hab]. apply negb_false_iff, String.eqb_eq in Hf. split; [done|]. left.
        change ((kind =? LevelResultAbnormal)%string = false) in Hab.
        apply orb_true_iff in Hk as [Hk|Hk]; [congruence|by apply String.eqb_eq].
      * apply negb_false_iff, andb_true_iff in Hnm as [Hoff Hf%String.eqb_eq]. by split; [|right].
Qed.

(** The gate on a RECOVERY record reports the first other Level it was decided
    beside: one that is unavailable, or NORMAL with recovery enabled, and only when
    there is none, one NORMAL with recovery disabled; and it holds the event exactly
    when the Plan publishes the consumer's protocol, the caller gave an open alert
    set, and the series' identity is unknown or not in it. *)
Lemma recovery_gate request res plan :
  Evaluate request = Ok res → Plan request = Some plan → Z.of_nat (length (Levels plan)) ≤ maxUint32 →
  RecordResult res = LevelResultRecovery →
  let gate := RecoveryGate res in
  (Beside gate, BesideLevelID gate) = beside_reference (LevelOutcomes res) ∧
  (Held gate = true ↔
   WireFormat plan = WireFormatStandardRawEvent ∧
   ∃ set ref dedupe, OpenAlerts request = Some set ∧
     event_identity ParseInt MonitorDedupeMD5 request plan = Ok (ref, dedupe) ∧
     (dedupe = ""%string ∨ Contains set (TenantID request) (ref_StrategyID plan) dedupe = false)).
Proof.
  intros H Hplan Hfit Hkind gate.
  destruct (Evaluate_inv _ _ H) as (plan' & c & rs & Hplan' & _ & Hids & _ & _ & _ & _ & Hrest); [intros; congruence|].
  rewrite Hplan in Hplan'. injection Hplan' as <-. cbn zeta in Hrest. rewrite Hkind in Hrest. simpl in Hrest.
  apply build_event_inv in Hrest as (ref & dedupe & event & format & events & Hid & Hres & _). simpl in Hres.
  subst gate. rewrite Hres at 1 2 4. simpl. rewrite recoveryGate_spec by done. unfold gate_of. simpl.
  destruct (beside_reference (LevelOutcomes res)) as [why id]. unfold openAlertGateV2. simpl.
  destruct (String.eqb_spec (WireFormat plan) WireFormatStandardRawEvent) as [Hwf|Hwf]; simpl.
  2: { split; [done|]. split; [done|]. by intros [? _]. }
  destruct (OpenAlerts request) as [set|].
  2: { split; [done|]. split; [done|]. by intros (_ & set & ? & ? & ? & _). }
  destruct (String.eqb_spec dedupe "") as [Hd|Hd]; simpl.
  { split; [done|]. split; [intros _|done]. split; [done|]. exists set, ref, dedupe. auto. }
  destruct (Contains set (TenantID request) (ref_StrategyID plan) dedupe) eqn:Hin; simpl.
  - split; [by destruct (oneTimeClose set)|]. split; [by destruct (oneTimeClose set)|].
    intros (_ & set' & ref' & d' & [= <-] & Hid' & [Hd'|Hd']); rewrite Hid in Hid'; injection Hid' as <- <-; congruence.
  - split; [done|]. split; [intros _|done]. split; [done|]. exists set, ref, dedupe. auto.
Qed.
End record.

(** ** The reader of an event *)

(** C40: the reader of a trigger event takes the recovery evidence of a Level
    exactly when the walk that decided it stepped over no window: a count of
    skipped windows is written under a name the reader does not know. *)
Theorem reader_takes_unskipped EqualFold evidence :
  is_ok (reader_accepts_recovery EqualFold evidence) = (rw_SkippedWindows evidence =? 0).
Proof.
  unfold reader_accepts_recovery, recovery_json_fields.
  destruct (rw_SkippedWindows evidence =? 0); [by vm_compute|]. unfold validateJSONObjectFields. simpl.
  by rewrite !orb_true_r.
Qed.
