(* ===== verification/Window.v ===== *)
(** The runtime window of one series (state/window.go, state/codec.go): the
    retained points with one validity and one anomaly bit per Level, the batch
    that applies points to them, and the Level history read from them. *)
From S2P Require Import Prelude Reason GoHash History.

Open Scope Z_scope.

(** ** Data *)

Inductive StateError : Type :=
  | ErrStateInvariant (message : string)
  | ErrStateBudget (message : string)
  | ErrState (message : string).

(** [LevelFactResult] is a [uint8]; [LevelFactOther] stands for the values the
    constants do not name. *)
Inductive LevelFactResult : Type :=
  | LevelFactUnavailable
  | LevelFactNormal
  | LevelFactAnomalous
  | LevelFactError
  | LevelFactOther (value : Z).

Inductive PointStatus : Type := PointApplied | PointNoop | PointUnavailable | PointTerminal.

#[export] Instance PointStatus_eq_dec : EqDecision PointStatus.
Proof. solve_decision. Defined.

(** [EvaluationInterval] and [LatenessTolerance] are [time.Duration]s, in
    nanoseconds. *)
Definition Second : Z := 1000000000.

Record LevelRequirement : Type := mkRequirement {
  req_LevelID : Z;
  req_DetectFingerprint : string;
  RequiredPoints : Z;
  RetentionPoints : Z;
  EvaluationInterval : Z;
  LatenessTolerance : Z;
}.

Record PointLevelFact : Type := mkFact {
  fact_LevelID : Z;
  fact_DetectFingerprint : string;
  fact_Result : LevelFactResult;
}.

Record StatePoint : Type := mkPoint {
  sp_RecordID : string;
  sp_SourceTime : Z;
  sp_Levels : list PointLevelFact;
}.

Record PointResult : Type := mkPointResult {
  pr_RecordID : string;
  pr_SourceTime : Z;
  pr_Status : PointStatus;
  pr_ReasonCode : string;
  pr_Late : bool;
}.

Record WindowHoles : Type := mkHoles {
  Missing : list Z;
  MissingTotal : Z;
  Unusable : list Z;
  UnusableTotal : Z;
}.

Record levelState : Type := mkLevel {
  levelID : Z;
  detectFingerprint : list Z;
}.

#[export] Instance levelState_eq_dec : EqDecision levelState.
Proof. solve_decision. Defined.

Record pointState : Type := mkPointState {
  sourceTime : Z;
  recordDigest : list Z;
  valid : list Z;
  anomalous : list Z;
}.

Record Window : Type := mkWindow {
  levels : list levelState;
  points : list pointState;
  requirements : gmap Z LevelRequirement;
  changed : bool;
}.

Record pointCandidate : Type := mkCandidate {
  c_index : nat;
  c_recordID : string;
  c_sourceTime : Z;
  c_recordDigest : list Z;
  c_valid : list Z;
  c_anomalous : list Z;
  c_hasValid : bool;
}.

(** ** Digests (state/identity.go, state/codec.go) *)

Definition isSHA256HexByte (c : Z) : bool :=
  negb (((c <? 48) || (57 <? c)) && ((c <? 97) || (102 <? c))).

Definition isSHA256Hex (value : string) : bool :=
  (String.length value =? 64)%nat && forallb isSHA256HexByte (bytes_of_string value).

Definition lowerHexNibble (c : Z) : Z := if c <=? 57 then u8 (c - 48) else u8 (c - 97 + 10).

Fixpoint decode_pairs (bytes : list Z) : list Z :=
  match bytes with
  | a :: b :: bytes => Z.lor (u8 (Z.shiftl (lowerHexNibble a) 4)) (lowerHexNibble b) :: decode_pairs bytes
  | _ => []
  end.

Definition decodeDigest32 (value : string) : result StateError (list Z) :=
  if negb (isSHA256Hex value) then
    Err (ErrState "digest must be 64 lowercase hexadecimal characters")
  else Ok (decode_pairs (bytes_of_string value)).

(** ** Bitmaps

    A bitmap is a slice of bytes; [setBit] writes through the slice, which no
    other point shares. Its index is in range wherever the code calls it: the
    bitmaps are made for [len(levels)] bits. *)

Definition bitSet (bitmap : list Z) (position : Z) : bool :=
  (0 <=? position)
  && match bitmap !! Z.to_nat (position / 8) with
     | Some byte => negb (Z.land byte (Z.shiftl 1 (position mod 8)) =? 0)
     | None => false
     end.

Definition setBit (bitmap : list Z) (position : Z) (value : bool) : list Z :=
  let mask := u8 (Z.shiftl 1 (position mod 8)) in
  alter (λ byte, if value then Z.lor byte mask else Z.ldiff byte mask)
    (Z.to_nat (position / 8)) bitmap.

Definition anyBit (bitmap : list Z) : bool := existsb (λ value, negb (value =? 0)) bitmap.

Definition bitmapBytes (n : nat) : nat := ((n + 7) / 8)%nat.

(** The range loops over bit positions [0 .. n-1]. *)
Definition bits (n : nat) : list Z := Z.of_nat <$> seq 0 n.

(** ** Requirements and Levels *)

Definition check_requirement (previous : option LevelRequirement) (requirement : LevelRequirement)
    : result StateError unit :=
  if (req_LevelID requirement =? 0)
     || match previous with Some p => req_LevelID requirement =? req_LevelID p | None => false end
  then Err (ErrState "Level IDs must be positive and unique")
  else
    _ ← decodeDigest32 (req_DetectFingerprint requirement);
    if (RequiredPoints requirement =? 0)
       || (RetentionPoints requirement <? RequiredPoints requirement)
       || (EvaluationInterval requirement <=? 0)
       || negb (Z.rem (EvaluationInterval requirement) Second =? 0)
       || (LatenessTolerance requirement <? 0)
    then Err (ErrState "invalid Level window requirement")
    else
      let interval := Z.quot (EvaluationInterval requirement) Second in
      if (Z.quot maxInt64 interval <? u32 (RetentionPoints requirement - 1))
         || (maxInt64 - Z.quot (LatenessTolerance requirement) Second
             <? i64 (u32 (RetentionPoints requirement - 1) * interval))
      then Err (ErrStateBudget "Level retention horizon")
      else Ok tt.

Fixpoint check_requirements (previous : option LevelRequirement) (byLevel : gmap Z LevelRequirement)
    (requirements : list LevelRequirement) : result StateError (gmap Z LevelRequirement) :=
  match requirements with
  | [] => Ok byLevel
  | requirement :: rest =>
      _ ← check_requirement previous requirement;
      check_requirements (Some requirement) (<[req_LevelID requirement := requirement]> byLevel) rest
  end.

(** [sort.Slice] by Level ID: equal IDs are refused whatever order they are left
    in. *)
Definition normalizeRequirements (requirements : list LevelRequirement)
    : result StateError (list LevelRequirement * gmap Z LevelRequirement) :=
  let normalized := stable_sort (ordered_by req_LevelID) requirements in
  byLevel ← check_requirements None ∅ normalized;
  Ok (normalized, byLevel).

Fixpoint sameLevelLayout (ls rs : list levelState) : bool :=
  match ls, rs with
  | [], [] => true
  | l :: ls, r :: rs => bool_decide (l = r) && sameLevelLayout ls rs
  | _, _ => false
  end.

Fixpoint index_levels (index : nat) (oldIndex : gmap Z nat) (levels : list levelState) : gmap Z nat :=
  match levels with
  | [] => oldIndex
  | level :: levels => index_levels (S index) (<[levelID level := index]> oldIndex) levels
  end.

Fixpoint make_levels (requirements : list LevelRequirement) : result StateError (list levelState) :=
  match requirements with
  | [] => Ok []
  | requirement :: rest =>
      fingerprint ← decodeDigest32 (req_DetectFingerprint requirement);
      levels ← make_levels rest;
      Ok (mkLevel (req_LevelID requirement) fingerprint :: levels)
  end.

(** The inner loop of [Align]: the bit of a new Level is carried over from the
    old Level of the same ID and fingerprint where the point was valid for it. *)
Definition align_bit (oldLevels : list levelState) (oldIndex : gmap Z nat) (point : pointState)
    (bitmaps : list Z * list Z) (entry : Z * levelState) : list Z * list Z :=
  let '(newPosition, level) := entry in
  match oldIndex !! levelID level with
  | None => bitmaps
  | Some oldPosition =>
      match oldLevels !! oldPosition with
      | Some old =>
          if negb (bool_decide (detectFingerprint old = detectFingerprint level))
             || negb (bitSet (valid point) (Z.of_nat oldPosition))
          then bitmaps
          else (setBit bitmaps.1 newPosition true,
                setBit bitmaps.2 newPosition (bitSet (anomalous point) (Z.of_nat oldPosition)))
      | None => bitmaps
      end
  end.

Definition align_point (oldLevels newLevels : list levelState) (oldIndex : gmap Z nat) (point : pointState)
    : pointState :=
  let empty := replicate (bitmapBytes (length newLevels)) 0 in
  let bitmaps := foldl (align_bit oldLevels oldIndex point) (empty, empty)
                   (zip (bits (length newLevels)) newLevels) in
  mkPointState (sourceTime point) (recordDigest point) bitmaps.1 bitmaps.2.

Definition Align (window : Window) (requirements_ : list LevelRequirement) : result StateError Window :=
  '(normalized, requirementByLevel) ← normalizeRequirements requirements_;
  let oldIndex := index_levels 0 ∅ (levels window) in
  newLevels ← make_levels normalized;
  if sameLevelLayout (levels window) newLevels then
    Ok (mkWindow (levels window) (points window) requirementByLevel (changed window))
  else
    let newPoints := filter (λ point, anyBit (valid point) = true)
                       (align_point (levels window) newLevels oldIndex <$> points window) in
    Ok (mkWindow newLevels newPoints requirementByLevel true).

Definition NewWindow (requirements_ : list LevelRequirement) : result StateError Window :=
  window ← Align (mkWindow [] [] ∅ false) requirements_;
  Ok (mkWindow (levels window) (points window) (requirements window) false).

(** ** Applying points *)

Definition latestSourceTime (window : Window) : Z * bool :=
  match last (points window) with
  | Some point => (sourceTime point, true)
  | None => (0, false)
  end.

(** [sort.Search] over the Levels by ID and over the points by source time. *)
Definition search_level (levels : list levelState) (id : Z) : nat :=
  search_list (λ level, id <=? levelID level) levels.

Definition search_point (points : list pointState) (t : Z) : nat :=
  search_list (λ point, t <=? sourceTime point) points.

(** One Level fact of a point, checked and written into the candidate's
    bitmaps. *)
Definition prepare_fact (window : Window) (st : gset Z * (list Z * list Z * bool)) (fact : PointLevelFact)
    : result StateError (gset Z * (list Z * list Z * bool)) :=
  let '(seen, (valid_, anomalous_, hasValid)) := st in
  if bool_decide (fact_LevelID fact ∈ seen) then Err (ErrStateInvariant "duplicate Level fact")
  else
    let seen := {[ fact_LevelID fact ]} ∪ seen in
    let position := search_level (levels window) (fact_LevelID fact) in
    match levels window !! position with
    | Some level =>
        if negb (levelID level =? fact_LevelID fact) then Err (ErrStateInvariant "unknown Level fact")
        else
          let fingerprint := decodeDigest32 (fact_DetectFingerprint fact) in
          match fingerprint with
          | Ok fingerprint =>
              if negb (bool_decide (fingerprint = detectFingerprint level)) then
                Err (ErrStateInvariant "Level detect fingerprint mismatch")
              else
                match fact_Result fact with
                | LevelFactNormal =>
                    Ok (seen, (setBit valid_ (Z.of_nat position) true, anomalous_, true))
                | LevelFactAnomalous =>
                    Ok (seen, (setBit valid_ (Z.of_nat position) true,
                               setBit anomalous_ (Z.of_nat position) true, true))
                | LevelFactUnavailable | LevelFactError => Ok (seen, (valid_, anomalous_, hasValid))
                | LevelFactOther _ => Err (ErrStateInvariant "Level fact result")
                end
          | Err _ => Err (ErrStateInvariant "Level detect fingerprint mismatch")
          end
    | None => Err (ErrStateInvariant "unknown Level fact")
    end.

Fixpoint prepare_facts (window : Window) (st : gset Z * (list Z * list Z * bool)) (facts : list PointLevelFact)
    : result StateError (gset Z * (list Z * list Z * bool)) :=
  match facts with
  | [] => Ok st
  | fact :: facts => st ← prepare_fact window st fact; prepare_facts window st facts
  end.

Definition preparePoint (window : Window) (index : nat) (point : StatePoint) : result StateError pointCandidate :=
  match decodeDigest32 (sp_RecordID point) with
  | Err _ => Err (ErrStateInvariant "invalid StatePoint identity")
  | Ok digest =>
      if sp_SourceTime point <? 0 then Err (ErrStateInvariant "invalid StatePoint identity")
      else
        let empty := replicate (bitmapBytes (length (levels window))) 0 in
        '(_, (valid_, anomalous_, hasValid)) ← prepare_facts window (∅, (empty, empty, false)) (sp_Levels point);
        Ok (mkCandidate index (sp_RecordID point) (sp_SourceTime point) (take 16 digest)
              valid_ anomalous_ hasValid)
  end.

Definition with_points (window : Window) (points_ : list pointState) (changed_ : bool) : Window :=
  mkWindow (levels window) points_ (requirements window) changed_.

(** Whether the candidate and the retained point disagree on a bit both hold. *)
Definition bits_conflict (n : nat) (candidate : pointCandidate) (point : pointState) : bool :=
  existsb (λ bit,
    bitSet (c_valid candidate) bit && bitSet (valid point) bit
    && negb (Bool.eqb (bitSet (c_anomalous candidate) bit) (bitSet (anomalous point) bit))) (bits n).

(** The merge of the bits only the candidate holds, and whether there was one. *)
Definition merge_bit (candidate : pointCandidate) (st : pointState * bool) (bit : Z) : pointState * bool :=
  let '(point, changed_) := st in
  if negb (bitSet (c_valid candidate) bit) || bitSet (valid point) bit then (point, changed_)
  else (mkPointState (sourceTime point) (recordDigest point) (setBit (valid point) bit true)
          (setBit (anomalous point) bit (bitSet (c_anomalous candidate) bit)), true).

Definition applyCandidate (window : Window) (candidate : pointCandidate) : PointStatus * string * Window :=
  let position := search_point (points window) (c_sourceTime candidate) in
  let insert_new :=
    let point := mkPointState (c_sourceTime candidate) (c_recordDigest candidate)
                   (c_valid candidate) (c_anomalous candidate) in
    (PointApplied, ""%string,
     with_points window (take position (points window) ++ point :: drop position (points window)) true) in
  match points window !! position with
  | Some point =>
      if sourceTime point =? c_sourceTime candidate then
        if negb (bool_decide (recordDigest point = c_recordDigest candidate)) then
          (PointTerminal, ReasonRecordIdentityConflict, window)
        else if bits_conflict (length (levels window)) candidate point then
          (PointTerminal, ReasonRecordIdentityConflict, window)
        else
          let '(merged, changed_) :=
            foldl (merge_bit candidate) (point, false) (bits (length (levels window))) in
          if negb changed_ then (PointNoop, ""%string, window)
          else (PointApplied, ""%string, with_points window (<[position := merged]> (points window)) true)
      else insert_new
  | None => insert_new
  end.

(** [window.requirements[id]] yields the zero requirement for a missing key. *)
Definition zero_requirement : LevelRequirement := mkRequirement 0 "" 0 0 0 0.
Definition requirement_of (window : Window) (id : Z) : LevelRequirement :=
  default zero_requirement (requirements window !! id).

Definition retentionCutoff (latest : Z) (requirement : LevelRequirement) : Z :=
  let interval := Z.quot (EvaluationInterval requirement) Second in
  let horizon := i64 (i64 (u32 (RetentionPoints requirement - 1) * interval)
                      + Z.quot (LatenessTolerance requirement) Second) in
  if latest <=? horizon then 0 else latest - horizon.

Definition level_cutoff (window : Window) (latest : Z) (level : levelState) : Z :=
  retentionCutoff latest (requirement_of window (levelID level)).

Definition numbered (window : Window) : list (Z * levelState) :=
  zip (bits (length (levels window))) (levels window).

Definition outOfRetention (window : Window) (candidate : pointCandidate) (latest : Z) : bool :=
  if latest <=? c_sourceTime candidate then false
  else negb (existsb (λ '(bit, level),
         bitSet (c_valid candidate) bit && (level_cutoff window latest level <=? c_sourceTime candidate))
       (numbered window)).

(** One Level of one point in [prune]: the bits are cleared when the point is
    before that Level's cutoff. *)
Definition prune_bit (window : Window) (latest : Z) (st : pointState * bool) (entry : Z * levelState)
    : pointState * bool :=
  let '(point, changed_) := st in
  let '(bit, level) := entry in
  if negb (bitSet (valid point) bit) || (level_cutoff window latest level <=? sourceTime point)
  then (point, changed_)
  else (mkPointState (sourceTime point) (recordDigest point) (setBit (valid point) bit false)
          (setBit (anomalous point) bit false), true).

Fixpoint prune_points (window : Window) (latest : Z) (points_ : list pointState) : list pointState * bool :=
  match points_ with
  | [] => ([], false)
  | point :: rest =>
      let '(point, cleared) := foldl (prune_bit window latest) (point, false) (numbered window) in
      let '(kept, changed_) := prune_points window latest rest in
      if anyBit (valid point) then (point :: kept, cleared || changed_) else (kept, true)
  end.

Definition prune (window : Window) (latest : Z) : Window :=
  let '(kept, changed_) := prune_points window latest (points window) in
  with_points window kept (changed window || changed_).

(** The first loop of [ApplyContext]: every point is checked against the Levels
    before any is applied; its result starts UNAVAILABLE. *)
Fixpoint prepare_points (window : Window) (index : nat) (finalLatest : Z) (hasFinal : bool)
    (points_ : list StatePoint)
    : result StateError (list pointCandidate * list PointResult * (Z * bool)) :=
  match points_ with
  | [] => Ok ([], [], (finalLatest, hasFinal))
  | point :: rest =>
      candidate ← preparePoint window index point;
      let '(loadedLatest, hasLoaded) := latestSourceTime window in
      let r := mkPointResult (sp_RecordID point) (sp_SourceTime point) PointUnavailable ""
                 (hasLoaded && (sp_SourceTime point <? loadedLatest)) in
      let advance := c_hasValid candidate && (negb hasFinal || (finalLatest <? c_sourceTime candidate)) in
      '(candidates, results, final) ←
        prepare_points window (S index) (if advance then c_sourceTime candidate else finalLatest)
          (hasFinal || advance) rest;
      Ok (candidate :: candidates, r :: results, final)
  end.

Definition set_result (results : list PointResult) (index : nat) (status : PointStatus) (reason : string)
    : list PointResult :=
  alter (λ r, mkPointResult (pr_RecordID r) (pr_SourceTime r) status reason (pr_Late r)) index results.

(** One candidate of the second loop. *)
Definition apply_one (finalLatest : Z) (st : Window * list PointResult) (candidate : pointCandidate)
    : Window * list PointResult :=
  let '(window, results) := st in
  if outOfRetention window candidate finalLatest then
    (window, set_result results (c_index candidate) PointTerminal ReasonLateOutOfWindow)
  else
    let '(status, reason, window) := applyCandidate window candidate in
    (window, set_result results (c_index candidate) status reason).

Definition apply_order (candidates : list pointCandidate) : list pointCandidate :=
  stable_sort (ordered_by c_sourceTime) (filter (λ c, c_hasValid c = true) candidates).

(** [ApplyContext] on a window that is not nil: the results and the window it
    leaves. An error leaves the window as it was. *)
Definition ApplyContext (window : Window) (points_ : list StatePoint)
    : result StateError (list PointResult * Window) :=
  let '(loadedLatest, hasLoaded) := latestSourceTime window in
  '(candidates, results, (finalLatest, hasFinal)) ←
    prepare_points window 0 loadedLatest hasLoaded points_;
  let '(window, results) := foldl (apply_one finalLatest) (window, results) (apply_order candidates) in
  Ok (results, if hasFinal : bool then prune window finalLatest else window).

Definition Apply := ApplyContext.

Definition Changed (window : Window) : bool := changed window.

Definition MarkPersisted (window : Window) : Window :=
  mkWindow (levels window) (points window) (requirements window) false.

(** ** The history of one Level *)

Record view : Type := mkView {
  v_window : Window;
  v_levelIndex : Z;
  v_requirement : LevelRequirement;
}.

Definition History (window : Window) (id : Z) : option view :=
  let position := search_level (levels window) id in
  match levels window !! position with
  | Some level =>
      if negb (levelID level =? id) then None
      else
        requirement ← requirements window !! id;
        Some (mkView window (Z.of_nat position) requirement)
  | None => None
  end.

Definition pointAt (v : view) (t : Z) : option pointState :=
  match points (v_window v) !! search_point (points (v_window v)) t with
  | Some point => if sourceTime point =? t then Some point else None
  | None => None
  end.

(** The state of the walk of [SummarizeHolesContext]. *)
Record walk : Type := mkWalk {
  w_seenValid : bool;
  w_missingBeforeFirst : bool;
  w_gapAfterFirst : bool;
  w_valid : Z;
  w_anomalies : Z;
  w_hashed : list Z;
  w_holes : WindowHoles;
}.

Definition append_limited (limit : nat) (l : list Z) (t : Z) : list Z :=
  if (length l <? limit)%nat then l ++ [t] else l.

Definition walk_step (v : view) (limit : nat) (st : walk) (expected : Z) : walk :=
  let hole (holes : WindowHoles) :=
    mkWalk (w_seenValid st) (w_missingBeforeFirst st || negb (w_seenValid st))
      (w_gapAfterFirst st || w_seenValid st) (w_valid st) (w_anomalies st) (w_hashed st) holes in
  let h := w_holes st in
  match pointAt v expected with
  | None =>
      hole (mkHoles (append_limited limit (Missing h) expected) (u32 (MissingTotal h + 1))
              (Unusable h) (UnusableTotal h))
  | Some point =>
      if negb (bitSet (valid point) (v_levelIndex v)) then
        hole (mkHoles (Missing h) (MissingTotal h)
                (append_limited limit (Unusable h) expected) (u32 (UnusableTotal h + 1)))
      else if bitSet (anomalous point) (v_levelIndex v) then
        mkWalk true (w_missingBeforeFirst st) (w_gapAfterFirst st) (u32 (w_valid st + 1))
          (u32 (w_anomalies st + 1)) (w_hashed st ++ put_uint64 expected) h
      else
        mkWalk true (w_missingBeforeFirst st) (w_gapAfterFirst st) (u32 (w_valid st + 1))
          (w_anomalies st) (w_hashed st) h
  end.

(** [for expected := start; ; expected += interval { ...; if expected == endTime
    { break } }]. *)
Fixpoint walk_loop (fuel : nat) (v : view) (limit : nat) (interval endTime : Z) (st : walk) (expected : Z) : walk :=
  match fuel with
  | O => st
  | S fuel =>
      let st := walk_step v limit st expected in
      if expected =? endTime then st
      else walk_loop fuel v limit interval endTime st (i64 (expected + interval))
  end.

Definition no_holes : WindowHoles := mkHoles [] 0 [] 0.
Definition walk_start : walk := mkWalk false false false 0 0 [] no_holes.

Definition SummarizeHolesContext (v : view) (endTime requiredPositions : Z) (limit : nat)
    : HistorySummary * WindowHoles :=
  let requiredPositions :=
    if requiredPositions =? 0 then RequiredPoints (v_requirement v) else requiredPositions in
  let interval := Z.quot (EvaluationInterval (v_requirement v)) Second in
  let refused := mkHistorySummary HistoryWarming 0 endTime 0 requiredPositions 0 (replicate 32 0) in
  if (requiredPositions =? 0) || (RetentionPoints (v_requirement v) <? requiredPositions)
     || (interval <=? 0) || (endTime <? 0)
     || (Z.quot maxInt64 interval <? u32 (requiredPositions - 1))
  then (refused, no_holes)
  else
    let offset := i64 (u32 (requiredPositions - 1) * interval) in
    if endTime <? offset then (refused, no_holes)
    else
      let start := endTime - offset in
      let st := walk_loop (Z.to_nat requiredPositions) v limit interval endTime walk_start start in
      let completeness :=
        if w_gapAfterFirst st then HistoryGapped
        else if w_missingBeforeFirst st || (w_valid st <? requiredPositions) then HistoryWarming
        else HistoryFull in
      (mkHistorySummary completeness start endTime (w_valid st) requiredPositions (w_anomalies st)
         (sum256 (w_hashed st)), w_holes st).

Definition SummarizeHoles := SummarizeHolesContext.

Definition SummarizeContext (v : view) (endTime requiredPositions : Z) : HistorySummary :=
  (SummarizeHolesContext v endTime requiredPositions 0).1.

(** The points in [[fromTime, untilTime]]: the loop from the binary search to the
    first point past the range. *)
Fixpoint take_until (untilTime : Z) (points_ : list pointState) : list pointState :=
  match points_ with
  | [] => []
  | point :: rest => if untilTime <? sourceTime point then [] else point :: take_until untilTime rest
  end.

Definition points_between (v : view) (fromTime untilTime : Z) : list pointState :=
  if untilTime <? fromTime then []
  else take_until untilTime
         (drop (search_point (points (v_window v)) fromTime) (points (v_window v))).

(** The source times [ForEachAnomaly] visits when its visitor never stops. *)
Definition anomalies_between (v : view) (fromTime untilTime : Z) : list Z :=
  sourceTime <$> filter (λ point,
    bitSet (valid point) (v_levelIndex v) && bitSet (anomalous point) (v_levelIndex v) = true)
    (points_between v fromTime untilTime).

(** [ForEachAnomaly] with a visitor that threads a state and says whether to go
    on. *)
Fixpoint visit_until {S} (visit : S → Z → S * bool) (st : S) (times : list Z) : S :=
  match times with
  | [] => st
  | t :: times => let '(st, go) := visit st t in if go : bool then visit_until visit st times else st
  end.

Definition view_ForEachAnomaly {S} (v : view) (fromTime untilTime : Z) (visit : S → Z → S * bool) (st : S) : S :=
  visit_until visit st (anomalies_between v fromTime untilTime).

Definition view_CountAnomalies (v : view) (fromTime untilTime : Z) : Z :=
  view_ForEachAnomaly v fromTime untilTime (λ count _, (u32 (count + 1), true)) 0.

Definition view_FirstAnomaly (v : view) (fromTime untilTime : Z) : Z * bool :=
  view_ForEachAnomaly v fromTime untilTime (λ _ t, ((t, true), false)) (0, false).

Definition view_CountObserved (v : view) (fromTime untilTime : Z) : Z :=
  foldl (λ count point, if bitSet (valid point) (v_levelIndex v) then u32 (count + 1) else count) 0
    (points_between v fromTime untilTime).

(** The adapter the evaluation hands the trigger (evaluation/evaluator.go,
    [historyView]): the same reads, with the completeness forced when the caller
    set one. *)
Record historyView : Type := mkHistoryView {
  hv_view : view;
  hv_completeness : string;
}.

Definition summarizeHoles (h : historyView) (t n : Z) (limit : nat) : HistorySummary * WindowHoles :=
  let '(s, holes) := SummarizeHolesContext (hv_view h) t n limit in
  let c := if (hv_completeness h =? "")%string then Completeness s else hv_completeness h in
  (mkHistorySummary c (WindowStart s) (WindowEnd s) (ValidPositions s) (RequiredPositions s)
     (AnomalyCount s) (AnomalyDigest s), holes).

#[export] Instance historyView_HistoryView : HistoryView historyView := {
  Summarize h t n := (summarizeHoles h t n 0).1;
  CountAnomalies h := view_CountAnomalies (hv_view h);
  FirstAnomaly h := view_FirstAnomaly (hv_view h);
  CountObserved h := view_CountObserved (hv_view h);
  ForEachAnomaly h := Some (anomalies_between (hv_view h));
}.
