(* ===== verification/WindowInvariant.v ===== *)
(** The invariant of the runtime window and the abstraction it is specified by:
    bitmaps as sets of bits, points found by source time, and [fact_at], what the
    window says of one Level at one source time. *)
From S2P Require Import Prelude Reason GoHash History Window.

Open Scope Z_scope.

(** * Bitmaps *)

Definition byte_ok (b : Z) : Prop := 0 ≤ b ∧ ∀ j, 8 ≤ j → Z.testbit b j = false.

Lemma land_pow2 b k : 0 ≤ k → (Z.land b (Z.shiftl 1 k) =? 0) = negb (Z.testbit b k).
Proof.
  intros Hk. rewrite Z.shiftl_1_l.
  assert (∀ j, Z.testbit (Z.land b (2 ^ k)) j = Z.testbit b j && (k =? j)) as Hbits.
  { intros j. rewrite Z.land_spec. destruct (Z.lt_ge_cases j 0) as [Hj|Hj].
    - by rewrite !Z.testbit_neg_r by done.
    - by rewrite Z.pow2_bits_eqb. }
  destruct (Z.testbit b k) eqn:Hb; simpl.
  - apply Z.eqb_neq. intros H0. specialize (Hbits k).
    rewrite H0, Z.testbit_0_l, Hb, Z.eqb_refl in Hbits. done.
  - apply Z.eqb_eq. apply Z.bits_inj'. intros j _. rewrite Hbits, Z.testbit_0_l.
    destruct (Z.eqb_spec k j) as [<-|]; [by rewrite Hb|by rewrite andb_false_r].
Qed.

Lemma u8_mask k : 0 ≤ k < 8 → u8 (Z.shiftl 1 k) = 2 ^ k.
Proof.
  intros Hk. rewrite Z.shiftl_1_l. unfold u8. apply Z.mod_small.
  split; [lia|]. apply Z.pow_lt_mono_r; lia.
Qed.

Lemma bitSet_spec bm p :
  0 ≤ p →
  bitSet bm p = match bm !! Z.to_nat (p / 8) with Some b => Z.testbit b (p mod 8) | None => false end.
Proof.
  intros Hp. unfold bitSet. destruct (Z.leb_spec 0 p); [|lia]. simpl. case_match; [|done].
  rewrite land_pow2, negb_involutive by (apply Z.mod_pos_bound; lia). done.
Qed.

Lemma bitSet_neg bm p : p < 0 → bitSet bm p = false.
Proof. intros. unfold bitSet. by destruct (Z.leb_spec 0 p); [lia|]. Qed.

Lemma bitSet_setBit bm p q (b : bool) :
  0 ≤ p → (Z.to_nat (p / 8) < length bm)%nat →
  bitSet (setBit bm p b) q = if decide (p = q) then b else bitSet bm q.
Proof.
  intros Hp Hlen. destruct (Z.lt_ge_cases q 0) as [Hq|Hq].
  { rewrite !bitSet_neg by done. case_decide; [lia|done]. }
  pose proof (Z.mod_pos_bound p 8 ltac:(lia)) as Hpm.
  pose proof (Z.mod_pos_bound q 8 ltac:(lia)) as Hqm.
  rewrite !bitSet_spec by done. unfold setBit. rewrite u8_mask by done.
  rewrite list_lookup_alter.
  destruct (decide (Z.to_nat (p / 8) = Z.to_nat (q / 8))) as [Heq|Hne].
  - rewrite <- Heq. destruct (lookup_lt_is_Some_2 _ _ Hlen) as [byte ->]. simpl.
    assert (p / 8 = q / 8) as Hd.
    { pose proof (Z.div_pos p 8). pose proof (Z.div_pos q 8). lia. }
    assert (p = q ↔ p mod 8 = q mod 8) as Hpq.
    { pose proof (Z.div_mod p 8). pose proof (Z.div_mod q 8). lia. }
    destruct b; rewrite ?Z.lor_spec, ?Z.ldiff_spec, Z.pow2_bits_eqb by lia;
      case_decide as Hd2; destruct (Z.eqb_spec (p mod 8) (q mod 8)); simpl;
      rewrite ?orb_true_r, ?orb_false_r, ?andb_false_r, ?andb_true_r; tauto || done.
  - case_decide as Hd; [subst; done|done].
Qed.

Lemma setBit_length bm p b : length (setBit bm p b) = length bm.
Proof. apply length_alter. Qed.

Lemma setBit_bytes bm p b : Forall byte_ok bm → Forall byte_ok (setBit bm p b).
Proof.
  intros Hbm. unfold setBit. apply Forall_alter; [done|].
  intros byte _ [Hb0 Hb]. pose proof (Z.mod_pos_bound p 8 ltac:(lia)).
  rewrite u8_mask by lia. destruct b; split.
  - apply Z.lor_nonneg. split; [done|]. apply Z.pow_nonneg. lia.
  - intros j Hj. rewrite Z.lor_spec, Hb, Z.pow2_bits_false by lia. done.
  - apply Z.ldiff_nonneg. by left.
  - intros j Hj. rewrite Z.ldiff_spec, Hb by lia. done.
Qed.

Lemma anyBit_spec bm : Forall byte_ok bm → anyBit bm = true ↔ ∃ p, bitSet bm p = true.
Proof.
  intros Hbm. unfold anyBit. rewrite existsb_exists. split.
  - intros (b & Hin%list_elem_of_In & Hb).
    apply list_elem_of_lookup in Hin as [i Hi].
    destruct (proj1 (Forall_lookup _ _) Hbm _ _ Hi) as [Hb0 Hb8]. breflect.
    assert (0 <= Z.log2 b < 8) as Hlog.
    { split; [apply Z.log2_nonneg|]. destruct (Z.lt_ge_cases (Z.log2 b) 8) as [|Hge]; [done|].
      apply Hb8 in Hge. rewrite Z.bit_log2 in Hge by lia. done. }
    exists (8 * Z.of_nat i + Z.log2 b). rewrite bitSet_spec by lia.
    replace (Z.to_nat _) with i.
    2: { rewrite Z.mul_comm, Z.div_add_l by lia. rewrite Z.div_small by lia. lia. }
    rewrite Hi. rewrite Z.mul_comm, Z.add_comm, Z.mod_add, Z.mod_small by lia. apply Z.bit_log2. lia.
  - intros [p Hp]. destruct (Z.lt_ge_cases p 0); [by rewrite bitSet_neg in Hp|].
    rewrite bitSet_spec in Hp by done. destruct (bm !! _) as [b|] eqn:Hb; [|done].
    exists b. split; [by apply list_elem_of_lookup_2, list_elem_of_In in Hb|].
    apply negb_true_iff, Z.eqb_neq. intros ->. by rewrite Z.testbit_0_l in Hp.
Qed.

Lemma bitSet_replicate n p : bitSet (replicate n 0) p = false.
Proof.
  destruct (Z.lt_ge_cases p 0); [by apply bitSet_neg|]. rewrite bitSet_spec by done.
  destruct (replicate n 0 !! _) eqn:H0; [|done].
  apply lookup_replicate in H0 as [-> _]. apply Z.testbit_0_l.
Qed.

(** A bitmap of [n] bits: the right number of bytes, and nothing beyond the bits. *)
Record bitmap_ok (n : nat) (bm : list Z) : Prop := {
  bitmap_length : length bm = bitmapBytes n;
  bitmap_bytes : Forall byte_ok bm;
  bitmap_beyond p : Z.of_nat n ≤ p → bitSet bm p = false;
}.

Lemma bit_in_range n p : 0 ≤ p < Z.of_nat n → (Z.to_nat (p / 8) < bitmapBytes n)%nat.
Proof.
  intros Hp. unfold bitmapBytes.
  assert (Z.to_nat (p / 8) = Z.to_nat p / 8)%nat as ->.
  { rewrite Z2Nat.inj_div by lia. done. }
  apply Nat.div_lt_upper_bound; [done|].
  pose proof (Nat.div_mod_eq (n + 7) 8). pose proof (Nat.mod_upper_bound (n + 7) 8). lia.
Qed.

Lemma bitmap_ok_empty n : bitmap_ok n (replicate (bitmapBytes n) 0).
Proof.
  split; [apply length_replicate| |intros; apply bitSet_replicate].
  apply Forall_replicate. split; [done|intros; apply Z.testbit_0_l].
Qed.

Lemma bitmap_ok_setBit n bm p b : 0 ≤ p < Z.of_nat n → bitmap_ok n bm → bitmap_ok n (setBit bm p b).
Proof.
  intros Hp [Hl Hb Hz]. split.
  - by rewrite setBit_length.
  - by apply setBit_bytes.
  - intros q Hq. rewrite bitSet_setBit; [|lia|rewrite Hl; by apply bit_in_range].
    case_decide; [lia|by apply Hz].
Qed.

Lemma bitSet_setBit_ok n bm p q b :
  0 ≤ p < Z.of_nat n → bitmap_ok n bm →
  bitSet (setBit bm p b) q = if decide (p = q) then b else bitSet bm q.
Proof. intros Hp [Hl _ _]. apply bitSet_setBit; [lia|rewrite Hl; by apply bit_in_range]. Qed.

#[export] Hint Resolve bitmap_ok_empty bitmap_ok_setBit : go.

Lemma elem_of_bits n p : p ∈ bits n ↔ 0 ≤ p < Z.of_nat n.
Proof.
  unfold bits. rewrite list_elem_of_fmap. split.
  - intros (k & -> & Hk%elem_of_seq). lia.
  - intros Hp. exists (Z.to_nat p). rewrite elem_of_seq. lia.
Qed.

(** * The invariant *)

Definition before (p q : pointState) : Prop := sourceTime p < sourceTime q.

(** The two bitmaps of a point or a candidate: an anomaly bit only where the
    validity bit is. *)
Record bitmaps_ok (n : nat) (valid_ anomalous_ : list Z) : Prop := {
  bitmaps_valid : bitmap_ok n valid_;
  bitmaps_anomalous : bitmap_ok n anomalous_;
  bitmaps_subset q : bitSet anomalous_ q = true → bitSet valid_ q = true;
}.

Record point_ok (n : nat) (p : pointState) : Prop := {
  point_bitmaps : bitmaps_ok n (valid p) (anomalous p);
  point_some : anyBit (valid p) = true;
  point_time : 0 ≤ sourceTime p;
}.

Record candidate_ok (n : nat) (c : pointCandidate) : Prop := {
  candidate_bitmaps : bitmaps_ok n (c_valid c) (c_anomalous c);
  candidate_some : c_hasValid c = anyBit (c_valid c);
  candidate_time : 0 ≤ c_sourceTime c;
}.

(** What [normalizeRequirements] lets through. *)
Record requirement_ok (r : LevelRequirement) : Prop := {
  ro_points : 0 < RequiredPoints r ≤ RetentionPoints r;
  ro_retention : RetentionPoints r ≤ maxUint32;
  ro_interval : 0 < Z.quot (EvaluationInterval r) Second;
  ro_lateness : 0 ≤ Z.quot (LatenessTolerance r) Second;
  ro_horizon : (RetentionPoints r - 1) * Z.quot (EvaluationInterval r) Second
               + Z.quot (LatenessTolerance r) Second ≤ maxInt64;
}.

Record window_ok (w : Window) : Prop := {
  window_levels : StronglySorted (λ a b, levelID a < levelID b) (levels w);
  window_points : Forall (point_ok (length (levels w))) (points w);
  window_sorted : StronglySorted before (points w);
  window_requirements l :
    l ∈ levels w → ∃ r, requirements w !! levelID l = Some r ∧ requirement_ok r;
}.

(** ** Points by source time *)

Definition find_time (pts : list pointState) (t : Z) : option pointState :=
  head (filter (λ p, sourceTime p = t) pts).

(** The abstraction the window is specified by: what it says of the bit [q] at
    source time [t]. *)
Definition bit_fact (valid_ anomalous_ : list Z) (q : Z) : option bool :=
  if bitSet valid_ q then Some (bitSet anomalous_ q) else None.
Definition point_fact (p : pointState) (q : Z) : option bool := bit_fact (valid p) (anomalous p) q.
Definition cand_fact (c : pointCandidate) (q : Z) : option bool := bit_fact (c_valid c) (c_anomalous c) q.

Definition fact_at (pts : list pointState) (t q : Z) : option bool :=
  p ← find_time pts t; point_fact p q.

Lemma sorted_time_inj pts p1 p2 :
  StronglySorted before pts → p1 ∈ pts → p2 ∈ pts → sourceTime p1 = sourceTime p2 → p1 = p2.
Proof.
  induction 1 as [|p pts Hs IH Hp]; [set_solver|].
  rewrite !elem_of_cons. rewrite Forall_forall in Hp. unfold before in Hp.
  intros [->|H1] [->|H2] Heq; [done| | |by apply IH].
  - specialize (Hp p2 H2). lia.
  - specialize (Hp p1 H1). lia.
Qed.

Lemma find_time_Some pts t p :
  StronglySorted before pts → find_time pts t = Some p ↔ p ∈ pts ∧ sourceTime p = t.
Proof.
  intros Hs. unfold find_time. split.
  - intros H. destruct (filter _ pts) as [|p' l] eqn:Hf; simplify_eq/=.
    assert (p ∈ filter (λ p, sourceTime p = t) pts) as Hin by (rewrite Hf; by left).
    apply list_elem_of_filter in Hin. tauto.
  - intros [Hin Ht].
    assert (p ∈ filter (λ p, sourceTime p = t) pts) as Hf by by apply list_elem_of_filter.
    destruct (filter _ pts) as [|p' l] eqn:Heq; [by apply elem_of_nil in Hf|].
    assert (p' ∈ filter (λ p, sourceTime p = t) pts) as [Ht' Hin']%list_elem_of_filter
      by (rewrite Heq; by left).
    simpl. f_equal. apply (sorted_time_inj pts); congruence.
Qed.

Lemma find_time_None pts t :
  StronglySorted before pts → find_time pts t = None ↔ ∀ p, p ∈ pts → sourceTime p ≠ t.
Proof.
  intros Hs. rewrite eq_None_not_Some. split.
  - intros Hn p Hp Ht. apply Hn. exists p. by apply find_time_Some.
  - intros Hn [p Hp]. apply find_time_Some in Hp as [? ?]; [|done]. by eapply Hn.
Qed.

(** The binary search splits a sorted window at [t]. *)
Lemma search_point_split pts t :
  StronglySorted before pts →
  Forall (λ p, sourceTime p < t) (take (search_point pts t) pts) ∧
  Forall (λ p, t ≤ sourceTime p) (drop (search_point pts t) pts).
Proof.
  intros Hs. unfold search_point.
  destruct (search_list_split before (λ point, t <=? sourceTime point) pts Hs) as [Hlo Hhi].
  { unfold before. intros x y Hxy Hx. breflect. apply Z.leb_le. lia. }
  split; [eapply Forall_impl; [exact Hlo|]|eapply Forall_impl; [exact Hhi|]]; simpl; intros; by breflect.
Qed.

Lemma pointAt_find v t :
  StronglySorted before (points (v_window v)) → pointAt v t = find_time (points (v_window v)) t.
Proof.
  intros Hs. unfold pointAt. set (pts := points (v_window v)) in *.
  destruct (search_point_split pts t Hs) as [Hlo Hhi]. rewrite Forall_forall in Hlo, Hhi.
  destruct (pts !! search_point pts t) as [p|] eqn:Hp.
  - assert (p ∈ pts) as Hin by (by eapply list_elem_of_lookup_2).
    assert (p ∈ drop (search_point pts t) pts) as Hd.
    { apply list_elem_of_lookup. exists 0%nat. by rewrite lookup_drop, Nat.add_0_r. }
    destruct (Z.eqb_spec (sourceTime p) t) as [Ht|Ht].
    { symmetry. by apply find_time_Some. }
    symmetry. apply find_time_None; [done|]. intros p' Hp' Heq.
    rewrite <- (take_drop (search_point pts t) pts) in Hp'. apply elem_of_app in Hp' as [H|H].
    + specialize (Hlo _ H). simpl in Hlo. lia.
    + specialize (Hhi _ Hd). simpl in Hhi.
      rewrite (drop_S _ _ _ Hp) in H. apply elem_of_cons in H as [->|H]; [done|].
      assert (StronglySorted before (drop (search_point pts t) pts)) as Hsd
        by by apply sorted_drop.
      rewrite (drop_S _ _ _ Hp) in Hsd. inversion Hsd as [|? ? _ Hall]; subst.
      rewrite Forall_forall in Hall. specialize (Hall _ H). unfold before in Hall. lia.
  - symmetry. apply find_time_None; [done|]. intros p' Hp' Heq.
    rewrite (take_ge pts) in Hlo by (by apply lookup_ge_None).
    specialize (Hlo _ Hp'). simpl in Hlo. lia.
Qed.

(** ** Facts under the bitmap operations *)

Lemma bit_fact_set n v a q q' b :
  bitmaps_ok n v a → 0 ≤ q < Z.of_nat n →
  bitmaps_ok n (setBit v q true) (setBit a q b) ∧
  bit_fact (setBit v q true) (setBit a q b) q' = (if decide (q = q') then Some b else bit_fact v a q').
Proof.
  intros [Hv Ha Hs] Hq. split.
  - split; [by apply bitmap_ok_setBit..|]. intros r.
    rewrite !(bitSet_setBit_ok n) by done. case_decide; [done|apply Hs].
  - unfold bit_fact. rewrite !(bitSet_setBit_ok n) by done. by case_decide.
Qed.

Lemma bit_fact_clear n v a q q' :
  bitmaps_ok n v a → 0 ≤ q < Z.of_nat n →
  bitmaps_ok n (setBit v q false) (setBit a q false) ∧
  bit_fact (setBit v q false) (setBit a q false) q' = (if decide (q = q') then None else bit_fact v a q').
Proof.
  intros [Hv Ha Hs] Hq. split.
  - split; [by apply bitmap_ok_setBit..|]. intros r.
    rewrite !(bitSet_setBit_ok n) by done. case_decide; [done|apply Hs].
  - unfold bit_fact. rewrite !(bitSet_setBit_ok n) by done. by case_decide.
Qed.

Lemma bit_fact_in_range n v a q b : bitmaps_ok n v a → bit_fact v a q = Some b → 0 ≤ q < Z.of_nat n.
Proof.
  intros [[_ _ Hbeyond] _ _] H. unfold bit_fact in H. destruct (bitSet v q) eqn:Hb; [|done].
  destruct (Z.lt_ge_cases q 0); [by rewrite bitSet_neg in Hb|].
  destruct (Z.lt_ge_cases q (Z.of_nat n)); [lia|]. by rewrite Hbeyond in Hb.
Qed.

Lemma bit_fact_any n v a : bitmaps_ok n v a → anyBit v = true ↔ ∃ q b, bit_fact v a q = Some b.
Proof.
  intros [[_ Hb _] _ _]. rewrite anyBit_spec by done. unfold bit_fact. split.
  - intros [q Hq]. exists q. rewrite Hq. eauto.
  - intros (q & b & H). exists q. by destruct (bitSet v q).
Qed.

Lemma bitSet_bit_fact v a q : bitSet v q = bool_decide (is_Some (bit_fact v a q)).
Proof.
  unfold bit_fact. destruct (bitSet v q); symmetry; [by apply bool_decide_eq_true_2|].
  apply bool_decide_eq_false_2. by intros [? ?].
Qed.

(** [first old new]: a fact once known is kept. *)
Definition first_write (old new : option bool) : option bool :=
  match old with Some b => Some b | None => new end.

Lemma merge_bit_fact n c p ch q p' ch' :
  bitmaps_ok n (valid p) (anomalous p) → 0 ≤ q < Z.of_nat n →
  merge_bit c (p, ch) q = (p', ch') →
  sourceTime p' = sourceTime p ∧ recordDigest p' = recordDigest p ∧
  bitmaps_ok n (valid p') (anomalous p') ∧
  (∀ r, point_fact p' r = if decide (q = r) then first_write (point_fact p r) (cand_fact c r) else point_fact p r) ∧
  ch' = ch || (bool_decide (is_Some (cand_fact c q)) && negb (bool_decide (is_Some (point_fact p q)))) ∧
  (ch' = ch ∧ p' = p ∨ ch' = true).
Proof.
  intros Hok Hq. unfold merge_bit, point_fact, cand_fact.
  rewrite <- !bitSet_bit_fact.
  destruct (bitSet (c_valid c) q) eqn:Hc, (bitSet (valid p) q) eqn:Hp; simpl; intros [= <- <-];
    simpl; rewrite ?orb_false_r, ?orb_true_r.
  2: { destruct (bit_fact_set n _ _ q q (bitSet (c_anomalous c) q) Hok Hq) as [Hok' _].
       split_and!; try done; try (by right). intros r.
       rewrite (proj2 (bit_fact_set n _ _ q r (bitSet (c_anomalous c) q) Hok Hq)).
       case_decide; [subst|done]. unfold bit_fact. by rewrite Hp, Hc. }
  all: split_and!; try done; try (by left); intros r; case_decide; [subst|done];
    unfold bit_fact; by rewrite ?Hp, ?Hc.
Qed.

Lemma merge_fold n c bs p ch p' ch' :
  bitmaps_ok n (valid p) (anomalous p) → Forall (λ q, 0 ≤ q < Z.of_nat n) bs →
  foldl (merge_bit c) (p, ch) bs = (p', ch') →
  sourceTime p' = sourceTime p ∧ recordDigest p' = recordDigest p ∧
  bitmaps_ok n (valid p') (anomalous p') ∧
  (∀ r, point_fact p' r = if decide (r ∈ bs) then first_write (point_fact p r) (cand_fact c r) else point_fact p r) ∧
  (ch' = ch ∧ p' = p ∨ ch' = true).
Proof.
  intros Hok Hbs. revert p ch Hok. induction Hbs as [|q bs Hq _ IH]; intros p ch Hok; cbn [foldl].
  - intros [= <- <-]. split_and!; try done. by left.
  - destruct (merge_bit c (p, ch) q) as [p1 ch1] eqn:H1. intros H2.
    destruct (merge_bit_fact n c p ch q p1 ch1 Hok Hq H1) as (Ht & Hd & Hok1 & Hf & _ & Hch).
    destruct (IH p1 ch1 Hok1 H2) as (Ht' & Hd' & Hok' & Hf' & Hch').
    split_and!; [congruence..|done| |].
    + intros r. rewrite Hf', Hf. unfold first_write.
      assert (r ∈ q :: bs ↔ q = r ∨ r ∈ bs) as Hin by set_solver.
      destruct (decide (q = r)), (decide (r ∈ bs)), (decide (r ∈ q :: bs)); try tauto;
        by repeat case_match.
    + destruct Hch as [[-> ->]| ->], Hch' as [[-> ->]| ->]; auto.
Qed.
