(* ===== verification/WindowApply.v ===== *)
(** What a batch of points does to the runtime window ([Window.ApplyContext]):
    the candidates are prepared, recorded first write wins, and the window is
    pruned at its latest source time. *)
From S2P Require Import Prelude Reason GoHash History Window WindowInvariant.

Open Scope Z_scope.

(** ** Replacing and inserting a point *)

Lemma find_time_mid l1 p l2 t :
  StronglySorted before (l1 ++ p :: l2) →
  find_time (l1 ++ p :: l2) t = if decide (t = sourceTime p) then Some p else find_time (l1 ++ l2) t.
Proof.
  intros Hs. unfold find_time. rewrite !filter_app, filter_cons. case_decide as Ht; case_decide; try done.
  replace (filter (λ p0, sourceTime p0 = t) l1) with (@nil pointState); [done|].
  symmetry. apply filter_none. intros x Hx.
  apply StronglySorted_app in Hs as [Hlt _].
  specialize (Hlt x p Hx ltac:(left)). unfold before in Hlt. lia.
Qed.

Lemma sorted_replace l1 p p' l2 :
  sourceTime p' = sourceTime p →
  StronglySorted before (l1 ++ p :: l2) → StronglySorted before (l1 ++ p' :: l2).
Proof.
  intros Ht. rewrite !StronglySorted_app, !StronglySorted_cons. intros (H12 & H1 & Hp & H2).
  unfold before in *. split_and!; try done.
  - intros x y Hx [->|Hy]%elem_of_cons; [rewrite Ht; apply H12; [done|by left]|apply H12; [done|by right]].
  - eapply Forall_impl; [exact Hp|]. simpl. intros. lia.
Qed.

Lemma with_points_ok w pts ch :
  window_ok w → Forall (point_ok (length (levels w))) pts → StronglySorted before pts →
  window_ok (with_points w pts ch).
Proof. intros [Hl _ _ Hr] Hp Hs. by split. Qed.

Lemma in_split_points w i p :
  points w !! i = Some p → points w = take i (points w) ++ p :: drop (S i) (points w).
Proof. intros Hp. by rewrite <- (drop_S _ _ _ Hp), take_drop. Qed.

Definition digest_at (pts : list pointState) (t : Z) : option (list Z) := recordDigest <$> find_time pts t.

(** What the batch may leave at the candidate's time: every fact of the candidate
    recorded, every other fact as it was. *)
Definition recorded (pts pts' : list pointState) (c : pointCandidate) : Prop :=
  (∀ t q, fact_at pts' t q =
     if decide (t = c_sourceTime c) then first_write (fact_at pts t q) (cand_fact c q) else fact_at pts t q) ∧
  (∀ q b, cand_fact c q = Some b → fact_at pts' (c_sourceTime c) q = Some b) ∧
  (∀ t d, digest_at pts' t = Some d → digest_at pts t = Some d ∨ t = c_sourceTime c ∧ d = c_recordDigest c).

(** The candidate contradicts what the window holds. *)
Definition conflicts (pts : list pointState) (c : pointCandidate) : Prop :=
  ∃ p, find_time pts (c_sourceTime c) = Some p ∧
    (recordDigest p ≠ c_recordDigest c ∨
     ∃ q b, cand_fact c q = Some b ∧ point_fact p q = Some (negb b)).

Lemma bits_conflict_false n c p :
  bitmaps_ok n (c_valid c) (c_anomalous c) →
  bits_conflict n c p = false →
  ∀ q b b', cand_fact c q = Some b → point_fact p q = Some b' → b = b'.
Proof.
  intros Hc Hn q b b' Hb Hb'. pose proof (bit_fact_in_range _ _ _ _ _ Hc Hb) as Hq.
  apply not_true_iff_false in Hn. destruct (decide (b = b')) as [|Hne]; [done|]. destruct Hn.
  apply existsb_exists. exists q. split; [by apply list_elem_of_In, elem_of_bits|].
  unfold cand_fact, point_fact, bit_fact in *.
  destruct (bitSet (c_valid c) q), (bitSet (valid p) q); simplify_eq; simpl.
  apply negb_true_iff, eqb_false_iff. done.
Qed.

Lemma bits_conflict_true n c p :
  bits_conflict n c p = true → ∃ q b, cand_fact c q = Some b ∧ point_fact p q = Some (negb b).
Proof.
  intros (q & _ & H)%existsb_exists. rewrite !andb_true_iff, negb_true_iff, eqb_false_iff in H.
  destruct H as [[Hc Hv] Hne]. exists q, (bitSet (c_anomalous c) q).
  unfold cand_fact, point_fact, bit_fact. rewrite Hc, Hv. split; [done|]. f_equal.
  by destruct (bitSet (c_anomalous c) q), (bitSet (anomalous p) q).
Qed.

Lemma recorded_at l1 p p' l2 c :
  sourceTime p' = sourceTime p → recordDigest p' = recordDigest p → sourceTime p = c_sourceTime c →
  StronglySorted before (l1 ++ p :: l2) →
  (∀ q, point_fact p' q = first_write (point_fact p q) (cand_fact c q)) →
  (∀ q b b', cand_fact c q = Some b → point_fact p q = Some b' → b = b') →
  recorded (l1 ++ p :: l2) (l1 ++ p' :: l2) c.
Proof.
  intros Ht Hd Hc Hs Hf Hagree. pose proof (sorted_replace l1 p p' l2 Ht Hs) as Hs'.
  assert (∀ t q, fact_at (l1 ++ p' :: l2) t q =
     if decide (t = c_sourceTime c) then first_write (fact_at (l1 ++ p :: l2) t q) (cand_fact c q)
     else fact_at (l1 ++ p :: l2) t q) as Hall.
  { intros t q. unfold fact_at. rewrite !find_time_mid, Ht, Hc by done. case_decide; [|done]. apply Hf. }
  split_and!; [done| |].
  - intros q b Hb. rewrite Hall, decide_True by done.
    unfold fact_at. rewrite find_time_mid, Hc, decide_True by done. simpl.
    destruct (point_fact p q) as [b'|] eqn:Hp; simpl; [|done]. f_equal. symmetry. by eapply Hagree.
  - intros t d. unfold digest_at. rewrite !find_time_mid, Ht by done. case_decide; simpl; rewrite ?Hd; by left.
Qed.

Lemma recorded_new l1 l2 c :
  let p := mkPointState (c_sourceTime c) (c_recordDigest c) (c_valid c) (c_anomalous c) in
  StronglySorted before (l1 ++ p :: l2) → find_time (l1 ++ l2) (c_sourceTime c) = None →
  recorded (l1 ++ l2) (l1 ++ p :: l2) c.
Proof.
  intros p Hs Hn. split_and!.
  - intros t q. unfold fact_at. rewrite find_time_mid by done. simpl.
    case_decide; [subst|done]. by rewrite Hn.
  - intros q b Hb. unfold fact_at. rewrite find_time_mid, decide_True by done. exact Hb.
  - intros t d. unfold digest_at. rewrite !find_time_mid by done. simpl. case_decide; [|by left].
    intros [= <-]. by right.
Qed.

(** ** One candidate *)

Lemma find_time_search pts t :
  StronglySorted before pts →
  find_time pts t =
  match pts !! search_point pts t with
  | Some p => if sourceTime p =? t then Some p else None
  | None => None
  end.
Proof.
  intros Hs. pose (v := mkView (mkWindow [] pts ∅ false) 0 zero_requirement).
  exact (eq_sym (pointAt_find v t Hs)).
Qed.

(** Where no point is at [t], the search splits the window strictly around it. *)
Lemma insert_new_ok w c :
  window_ok w → candidate_ok (length (levels w)) c → c_hasValid c = true →
  find_time (points w) (c_sourceTime c) = None →
  let position := search_point (points w) (c_sourceTime c) in
  let p := mkPointState (c_sourceTime c) (c_recordDigest c) (c_valid c) (c_anomalous c) in
  let pts := take position (points w) ++ p :: drop position (points w) in
  window_ok (with_points w pts true) ∧ recorded (points w) pts c.
Proof.
  intros Hw [Hb Hany Ht] Hv Hnone position p pts.
  pose proof (window_sorted _ Hw) as Hs.
  destruct (search_point_split (points w) (c_sourceTime c) Hs) as [Hlo Hhi].
  assert (StronglySorted before pts) as Hs'.
  { rewrite Forall_forall in Hlo, Hhi.
    apply sorted_insert_at; [by rewrite take_drop| |]; intros y Hy; unfold before; simpl.
    - by apply Hlo.
    - specialize (Hhi y Hy). simpl in Hhi.
      assert (y ∈ points w) as Hyw by (rewrite <- (take_drop position); apply elem_of_app; by right).
      pose proof (proj1 (find_time_None _ _ Hs) Hnone y Hyw). lia. }
  split.
  - apply with_points_ok; [done| |done]. pose proof (window_points _ Hw) as Hp.
    rewrite <- (take_drop position (points w)) in Hp. apply Forall_app in Hp as [? ?].
    apply Forall_app. split; [done|]. constructor; [|done]. split; [done|by subst p; simpl; rewrite <- Hany|done].
  - pose proof (take_drop position (points w)) as Hsplit.
    unfold pts. rewrite <- Hsplit at 1. apply recorded_new; [exact Hs'|]. by rewrite Hsplit.
Qed.

Lemma applyCandidate_spec w c status reason w' :
  window_ok w → candidate_ok (length (levels w)) c → c_hasValid c = true →
  applyCandidate w c = (status, reason, w') →
  window_ok w' ∧ levels w' = levels w ∧ requirements w' = requirements w ∧
  (((status = PointApplied ∨ status = PointNoop ∧ w' = w) ∧ reason = ""%string ∧
    recorded (points w) (points w') c) ∨
   (status = PointTerminal ∧ reason = ReasonRecordIdentityConflict ∧ w' = w ∧ conflicts (points w) c)).
Proof.
  intros Hw Hc Hv. pose proof (window_sorted _ Hw) as Hs. unfold applyCandidate.
  pose proof (find_time_search (points w) (c_sourceTime c) Hs) as Hfind.
  pose proof (insert_new_ok w c Hw Hc Hv) as Hnew.
  destruct (points w !! _) as [p|] eqn:Hp.
  2: { intros [= <- <- <-]. destruct (Hnew Hfind). split_and!; eauto 6. }
  destruct (Z.eqb_spec (sourceTime p) (c_sourceTime c)) as [Ht|_].
  2: { intros [= <- <- <-]. destruct (Hnew Hfind). split_and!; eauto 6. }
  clear Hnew. case_bool_decide as Hd; simpl.
  2: { intros [= <- <- <-]. split_and!; try done. right. split_and!; [done..|]. exists p. eauto. }
  destruct (bits_conflict _ _ _) eqn:Hconf.
  { intros [= <- <- <-]. apply bits_conflict_true in Hconf.
    split_and!; try done. right. split_and!; [done..|]. exists p. eauto. }
  destruct (foldl _ _ _) as [merged ch] eqn:Hm.
  pose proof (proj1 (Forall_lookup _ _) (window_points _ Hw) _ _ Hp) as [Hb Hany Hpt].
  apply (merge_fold (length (levels w))) in Hm as (Hmt & Hmd & Hmb & Hmf & Hch); [|done|].
  2: { apply Forall_forall. intros q. by rewrite elem_of_bits. }
  assert (∀ q, point_fact merged q = first_write (point_fact p q) (cand_fact c q)) as Hmf'.
  { intros q. rewrite Hmf. case_decide as Hq; [done|].
    destruct (cand_fact c q) eqn:Hcf; [|by destruct (point_fact p q)].
    destruct Hq. apply elem_of_bits. exact (bit_fact_in_range _ _ _ _ _ (candidate_bitmaps _ _ Hc) Hcf). }
  pose proof (bits_conflict_false _ _ _ (candidate_bitmaps _ _ Hc) Hconf) as Hagree.
  pose proof (in_split_points _ _ _ Hp) as Hsplit. pose proof Hs as Hs'. rewrite Hsplit in Hs'.
  pose proof (recorded_at _ p merged _ c Hmt Hmd Ht Hs' Hmf' Hagree) as Hrec. rewrite <- Hsplit in Hrec.
  destruct ch; simpl; intros [= <- <- <-].
  - rewrite (insert_take_drop _ _ _ (lookup_lt_Some _ _ _ Hp)).
    split_and!; [|done|done|left; split_and!; [by left|done|exact Hrec]].
    apply with_points_ok; [done| |by eapply sorted_replace].
    pose proof (window_points _ Hw) as Hall. rewrite Hsplit in Hall.
    apply Forall_app in Hall as [? [? ?]%Forall_cons].
    apply Forall_app. split; [done|]. constructor; [|done]. split; [done| |lia].
    apply (bit_fact_any _ _ _ Hmb). apply (bit_fact_any _ _ _ Hb) in Hany as (q & b & Hq).
    exists q, b. unfold point_fact in Hmf'. by rewrite Hmf', Hq.
  - destruct Hch as [[_ ->]|?]; [|done]. rewrite <- Hsplit in Hrec.
    split_and!; [done..|left; split_and!; [by right|done|exact Hrec]].
Qed.

(** ** Preparing a point *)

(** What a point says of the Level at bit [q]: its fact of that Level's ID, when
    it is a usable one. *)
Definition result_bit (r : LevelFactResult) : option bool :=
  match r with LevelFactNormal => Some false | LevelFactAnomalous => Some true | _ => None end.

Definition facts_say (w : Window) (facts : list PointLevelFact) (q : Z) : option bool :=
  if decide (0 ≤ q) then
    level ← levels w !! Z.to_nat q;
    fact ← head (filter (λ f, fact_LevelID f = levelID level) facts);
    result_bit (fact_Result fact)
  else None.

Definition says (w : Window) (p : StatePoint) (q : Z) : option bool := facts_say w (sp_Levels p) q.

Lemma search_level_inj w i j l l' :
  window_ok w → levels w !! i = Some l → levels w !! j = Some l' → levelID l = levelID l' → i = j.
Proof.
  intros Hw Hi Hj Heq. pose proof (window_levels _ Hw) as Hs.
  destruct (Nat.lt_trichotomy i j) as [H|[H|H]]; [|done|].
  - pose proof (sorted_lookup _ _ _ _ _ _ Hs Hi Hj H) as Hlt. simpl in Hlt. lia.
  - pose proof (sorted_lookup _ _ _ _ _ _ Hs Hj Hi H) as Hlt. simpl in Hlt. lia.
Qed.

(** The state of the loop over a point's facts. *)
Record preparing (w : Window) (seen : gset Z) (v a : list Z) (has : bool) : Prop := {
  preparing_bitmaps : bitmaps_ok (length (levels w)) v a;
  preparing_some : has = anyBit v;
  preparing_seen q : bitSet v q = true → ∃ l, levels w !! Z.to_nat q = Some l ∧ levelID l ∈ seen;
}.

Lemma facts_say_cons w fact facts q :
  facts_say w (fact :: facts) q =
  if decide (0 ≤ q ∧ levelID <$> levels w !! Z.to_nat q = Some (fact_LevelID fact))
  then result_bit (fact_Result fact) else facts_say w facts q.
Proof.
  unfold facts_say. destruct (decide (0 ≤ q)) as [Hq|Hq].
  2: { by rewrite decide_False by tauto. }
  destruct (levels w !! Z.to_nat q) as [l|]; simpl.
  2: { by rewrite decide_False by (by intros [_ ?]). }
  rewrite filter_cons. case_decide as Hl; case_decide as Hr; simpl; try done.
  - destruct Hr. split; [done|]. by f_equal.
  - destruct Hr as [_ [= Hr]]. by destruct Hl.
Qed.

Lemma anyBit_setBit n v a q : bitmaps_ok n v a → 0 ≤ q < Z.of_nat n → anyBit (setBit v q true) = true.
Proof.
  intros [Hv _ _] Hq. apply anyBit_spec; [by apply setBit_bytes, (bitmap_bytes n)|].
  exists q. rewrite (bitSet_setBit_ok n) by done. by rewrite decide_True.
Qed.

(** Writing one bit: the anomaly bitmap is written only for an anomaly. *)
Definition write_anomalous (a : list Z) (q : Z) (b : bool) : list Z := if b then setBit a q true else a.

Lemma bit_fact_write n v a q b :
  bitmaps_ok n v a → 0 ≤ q < Z.of_nat n → bitSet v q = false →
  bitmaps_ok n (setBit v q true) (write_anomalous a q b) ∧
  ∀ r, bit_fact (setBit v q true) (write_anomalous a q b) r = if decide (q = r) then Some b else bit_fact v a r.
Proof.
  intros Hb Hq Hunset. unfold write_anomalous. destruct b.
  { split; [|intros r]; by apply (bit_fact_set n v a q). }
  assert (bitSet a q = false) as Ha.
  { apply not_true_iff_false. intros ?%(bitmaps_subset _ _ _ Hb). congruence. }
  split; [destruct Hb as [Hv Hba Hs]; split; [by apply bitmap_ok_setBit|done|]; intros r|intros r; unfold bit_fact];
    rewrite (bitSet_setBit_ok n) by (done || apply Hb); case_decide; subst; auto.
  by rewrite Ha.
Qed.

Lemma prepare_fact_inv w seen v a has fact seen' v' a' has' :
  prepare_fact w (seen, (v, a, has)) fact = Ok (seen', (v', a', has')) →
  fact_LevelID fact ∉ seen ∧ seen' = {[ fact_LevelID fact ]} ∪ seen ∧
  ∃ q l, levels w !! Z.to_nat q = Some l ∧ levelID l = fact_LevelID fact ∧ 0 ≤ q < Z.of_nat (length (levels w)) ∧
    (v', a', has') = match result_bit (fact_Result fact) with
                     | Some b => (setBit v q true, write_anomalous a q b, true)
                     | None => (v, a, has)
                     end.
Proof.
  unfold prepare_fact. case_bool_decide as Hin; [done|].
  set (pos := search_level (levels w) (fact_LevelID fact)). destruct (levels w !! pos) as [l|] eqn:Hl; [|done].
  destruct (Z.eqb_spec (levelID l) (fact_LevelID fact)) as [Hid|]; [|done]. simpl.
  destruct (decodeDigest32 _) as [fp|]; [|done]. case_bool_decide; [|done]. simpl. intros Hok.
  assert (∀ P : Prop, (seen' = {[fact_LevelID fact]} ∪ seen → P) → P) as Hseen.
  { intros P HP. apply HP. by destruct (fact_Result fact); simplify_eq. }
  apply Hseen. intros ->. split_and!; [done..|]. exists (Z.of_nat pos), l.
  rewrite Nat2Z.id. pose proof (lookup_lt_Some _ _ _ Hl).
  split_and!; [done..|lia|lia|]. by destruct (fact_Result fact); simplify_eq.
Qed.

Lemma prepare_fact_step w seen v a has fact seen' v' a' has' :
  window_ok w → preparing w seen v a has →
  prepare_fact w (seen, (v, a, has)) fact = Ok (seen', (v', a', has')) →
  fact_LevelID fact ∉ seen ∧ seen' = {[ fact_LevelID fact ]} ∪ seen ∧
  preparing w seen' v' a' has' ∧
  ∀ r, bit_fact v' a' r = if decide (0 ≤ r ∧ levelID <$> levels w !! Z.to_nat r = Some (fact_LevelID fact))
                          then result_bit (fact_Result fact) else bit_fact v a r.
Proof.
  intros Hw [Hb Hs Hseen] (Hnew & -> & q & l & Hl & Hid & Hq & Hout)%prepare_fact_inv.
  assert (∀ r, (0 ≤ r ∧ levelID <$> levels w !! Z.to_nat r = Some (fact_LevelID fact)) ↔ q = r) as Hqr.
  { intros r. split.
    - intros [Hr (l' & Hl' & Heq)%fmap_Some_1].
      assert (Z.to_nat q = Z.to_nat r); [|lia]. eapply search_level_inj; [done..|congruence].
    - intros <-. rewrite Hl. simpl. split; [lia|congruence]. }
  assert (bitSet v q = false) as Hunset.
  { apply not_true_iff_false. intros (l' & Hl' & Hin')%Hseen. simplify_eq. by rewrite <- Hid in Hnew. }
  split_and!; [done..| |]; destruct (result_bit (fact_Result fact)) as [b|]; simplify_eq.
  - destruct (bit_fact_write _ _ _ q b Hb Hq Hunset) as [Hb' _]. split; [done|symmetry; by eapply anyBit_setBit|].
    intros r. rewrite (bitSet_setBit_ok (length (levels w))) by (done || apply Hb). case_decide as Hd.
    + intros _. subst r. exists l. set_solver.
    + intros (l' & ? & ?)%Hseen. exists l'. set_solver.
  - split; [done..|]. intros r (l' & ? & ?)%Hseen. exists l'. set_solver.
  - intros r. rewrite (proj2 (bit_fact_write _ _ _ q b Hb Hq Hunset)). repeat case_decide; naive_solver.
  - intros r. case_decide as Hd; [|done]. apply Hqr in Hd as <-. unfold bit_fact. by rewrite Hunset.
Qed.

Lemma prepare_facts_spec w facts seen v a has seen' v' a' has' :
  window_ok w → preparing w seen v a has →
  prepare_facts w (seen, (v, a, has)) facts = Ok (seen', (v', a', has')) →
  preparing w seen' v' a' has' ∧ seen ⊆ seen' ∧ (∀ f, f ∈ facts → fact_LevelID f ∉ seen) ∧
  ∀ q, bit_fact v' a' q = first_write (bit_fact v a q) (facts_say w facts q).
Proof.
  intros Hw. revert seen v a has. induction facts as [|fact facts IH]; intros seen v a has Hp; simpl.
  - intros [= <- <- <- <-]. split_and!; [done..|set_solver|]. intros q. unfold facts_say, first_write.
    simpl. repeat case_match; try done; by destruct (levels w !! _).
  - intros ([seen1 [[v1 a1] has1]] & H1 & H2)%bind_Ok.
    destruct (prepare_fact_step _ _ _ _ _ _ _ _ _ _ Hw Hp H1) as (Hnew & -> & Hp1 & Hf1).
    destruct (IH _ _ _ _ Hp1 H2) as (Hp' & Hsub & Hdis & Hf'). split_and!; [done|set_solver|set_solver|].
    intros q. rewrite Hf', Hf1, facts_say_cons. 
    destruct (decide (0 ≤ q ∧ levelID <$> levels w !! Z.to_nat q = Some (fact_LevelID fact))) as [Hd|]; [|done].
    destruct Hd as [Hq (l & Hl & Hid)%fmap_Some_1].
    assert (bit_fact v a q = None) as ->.
    { unfold bit_fact. destruct (bitSet v q) eqn:Hv; [|done].
      destruct (preparing_seen _ _ _ _ _ Hp q Hv) as (l' & Hl' & Hin). simplify_eq. by rewrite Hid in Hnew. }
    destruct (result_bit (fact_Result fact)); [done|]. simpl.
    unfold facts_say. rewrite decide_True, Hl by done. simpl. rewrite filter_none; [done|].
    intros f Hf Heq. eapply Hdis; [exact Hf|]. rewrite <- Heq in Hid. set_solver.
Qed.

Lemma preparePoint_spec w i p c :
  window_ok w → preparePoint w i p = Ok c →
  candidate_ok (length (levels w)) c ∧ c_index c = i ∧ c_sourceTime c = sp_SourceTime p ∧
  ∀ q, cand_fact c q = says w p q.
Proof.
  intros Hw. unfold preparePoint. destruct (decodeDigest32 _); [|done].
  destruct (Z.ltb_spec (sp_SourceTime p) 0) as [|Ht]; [done|].
  set (empty := replicate _ 0).
  intros ([seen [[v a] has]] & H & [= <-])%bind_Ok.
  assert (anyBit empty = false) as Hany.
  { apply not_true_iff_false. intros [q Hq]%anyBit_spec; [by unfold empty in Hq; rewrite bitSet_replicate in Hq|].
    apply (bitmap_bytes (length (levels w))). apply bitmap_ok_empty. }
  apply prepare_facts_spec in H as ([Hb Hs _] & _ & _ & Hf); [|done|].
  2: { split; [split; [apply bitmap_ok_empty..|]|done|]; intros q; unfold empty; by rewrite bitSet_replicate. }
  split_and!; [by split|done..|]. intros q. unfold cand_fact, says. simpl. rewrite Hf. unfold bit_fact, empty.
  by rewrite bitSet_replicate.
Qed.

(** ** Retention *)

(** Whether the source time [t] is within the retention of the Level at bit [q]. *)
Definition retained (w : Window) (latest t q : Z) : bool :=
  match levels w !! Z.to_nat q with Some level => level_cutoff w latest level <=? t | None => false end.

Lemma elem_of_numbered w q l : (q, l) ∈ numbered w ↔ 0 ≤ q ∧ levels w !! Z.to_nat q = Some l.
Proof.
  unfold numbered, bits. rewrite list_elem_of_lookup. split.
  - intros [i Hi]. apply lookup_zip_Some in Hi as [Hi1 Hi2].
    apply list_lookup_fmap_Some in Hi1 as (k & -> & [-> _]%lookup_seq). simpl. rewrite Nat2Z.id. split; [lia|done].
  - intros [Hq Hl]. exists (Z.to_nat q). apply lookup_zip_Some. split; [|done].
    apply list_lookup_fmap_Some. exists (Z.to_nat q). split; [lia|].
    apply lookup_seq. apply lookup_lt_Some in Hl. lia.
Qed.

Definition expired_in (w : Window) (latest t : Z) (entries : list (Z * levelState)) (q : Z) : Prop :=
  Exists (λ e, e.1 = q ∧ t < level_cutoff w latest e.2) entries.

Lemma expired_numbered w latest t q :
  0 ≤ q < Z.of_nat (length (levels w)) → expired_in w latest t (numbered w) q ↔ retained w latest t q = false.
Proof.
  intros Hq. unfold expired_in, retained. rewrite Exists_exists. split.
  - intros ([q' l] & [Hq' Hl]%elem_of_numbered & Heq & Hlt). simpl in *. subst. rewrite Hl. by apply Z.leb_gt.
  - destruct (lookup_lt_is_Some_2 (levels w) (Z.to_nat q)) as [l Hl]; [lia|]. rewrite Hl. intros Hlt. breflect.
    exists (q, l). split; [apply elem_of_numbered; split; [lia|done]|done].
Qed.

Lemma prune_bit_fact w latest p ch q l p' ch' n :
  bitmaps_ok n (valid p) (anomalous p) → 0 ≤ q < Z.of_nat n →
  prune_bit w latest (p, ch) (q, l) = (p', ch') →
  sourceTime p' = sourceTime p ∧ bitmaps_ok n (valid p') (anomalous p') ∧
  ∀ r, (point_fact p' r = if decide (q = r ∧ sourceTime p < level_cutoff w latest l) then None else point_fact p r).
Proof.
  intros Hb Hq. unfold prune_bit, point_fact.
  destruct (bitSet (valid p) q) eqn:Hset; simpl.
  2: { intros [= <- <-]. split_and!; [done..|]. intros r. case_decide as Hd; [|done].
       destruct Hd as [<- _]. unfold bit_fact. by rewrite Hset. }
  destruct (Z.leb_spec (level_cutoff w latest l) (sourceTime p)) as [Hle|Hlt]; intros [= <- <-]; simpl.
  - split_and!; [done..|]. intros r. case_decide; [lia|done].
  - destruct (bit_fact_clear n _ _ q q Hb Hq) as [Hb' _]. split_and!; [done..|]. intros r.
    rewrite (proj2 (bit_fact_clear n _ _ q r Hb Hq)). repeat case_decide; tauto.
Qed.

Lemma prune_fold w latest n entries p ch p' ch' :
  bitmaps_ok n (valid p) (anomalous p) → Forall (λ e, 0 ≤ e.1 < Z.of_nat n) entries →
  foldl (prune_bit w latest) (p, ch) entries = (p', ch') →
  sourceTime p' = sourceTime p ∧ bitmaps_ok n (valid p') (anomalous p') ∧
  ∀ r, (expired_in w latest (sourceTime p) entries r → point_fact p' r = None) ∧
       (¬ expired_in w latest (sourceTime p) entries r → point_fact p' r = point_fact p r).
Proof.
  intros Hb Hen. revert p ch Hb. induction Hen as [|[q l] entries Hq _ IH]; intros p ch Hb; cbn [foldl].
  - intros [= <- <-]. split_and!; [done..|]. intros r. split; [by intros ?%Exists_nil|done].
  - destruct (prune_bit _ _ _ _) as [p1 ch1] eqn:H1. intros H2.
    destruct (prune_bit_fact _ _ _ _ _ _ _ _ n Hb Hq H1) as (Ht1 & Hb1 & Hf1).
    destruct (IH _ _ Hb1 H2) as (Ht2 & Hb2 & Hf2). rewrite Ht1 in *. split_and!; [done..|]. intros r.
    destruct (Hf2 r) as [He Hn]. specialize (Hf1 r). unfold expired_in in *. split.
    + intros [[Heq Hlt]|Hin]%Exists_cons; [|auto].
      destruct (decide (Exists (λ e, e.1 = r ∧ sourceTime p < level_cutoff w latest e.2) entries)); [auto|].
      rewrite Hn by done. rewrite Hf1. by rewrite decide_True.
    + intros Hno. rewrite Hn by (intros ?; apply Hno; by apply Exists_cons_tl).
      rewrite Hf1. rewrite decide_False; [done|]. intros Heq. by apply Hno, Exists_cons_hd.
Qed.

Lemma find_time_cons p pts t :
  find_time (p :: pts) t = if decide (sourceTime p = t) then Some p else find_time pts t.
Proof. unfold find_time. rewrite filter_cons. by case_decide. Qed.

Lemma prune_points_spec w latest pts kept ch :
  Forall (point_ok (length (levels w))) pts → StronglySorted before pts →
  prune_points w latest pts = (kept, ch) →
  Forall (point_ok (length (levels w))) kept ∧ StronglySorted before kept ∧
  (∀ p, p ∈ kept → ∃ p0, p0 ∈ pts ∧ sourceTime p = sourceTime p0) ∧
  ∀ t q, fact_at kept t q = if retained w latest t q then fact_at pts t q else None.
Proof.
  intros Hall. revert kept ch. induction Hall as [|p pts [Hb _ Ht] _ IH]; intros kept ch; cbn [prune_points].
  - intros _ [= <- <-]. split_and!; try constructor; [set_solver|]. intros t q. unfold fact_at. simpl. by case_match.
  - intros Hs. inversion Hs as [|? ? Hs' Hlt]; subst.
    destruct (foldl _ _ _) as [p1 ch1] eqn:H1. destruct (prune_points _ _ pts) as [kept1 ch2] eqn:H2.
    destruct (IH _ _ Hs' eq_refl) as (Hk & Hks & Hkt & Hkf).
    apply (prune_fold w latest (length (levels w))) in H1 as (Ht1 & Hb1 & Hf1); [|done|].
    2: { apply Forall_forall. intros [q l] [Hq Hl]%elem_of_numbered. simpl. apply lookup_lt_Some in Hl. lia. }
    assert (∀ q, point_fact p1 q = if retained w latest (sourceTime p) q then point_fact p q else None) as Hp1.
    { intros q. destruct (Hf1 q) as [He Hn].
      destruct (decide (0 ≤ q < Z.of_nat (length (levels w)))) as [Hq|Hq].
      - pose proof (expired_numbered w latest (sourceTime p) q Hq) as Hx.
        destruct (retained _ _ _ _); [apply Hn; rewrite Hx; done|apply He; by apply Hx].
      - assert (∀ v a, bitmaps_ok (length (levels w)) v a → bit_fact v a q = None) as Hout.
        { intros v a Hva. destruct (bit_fact v a q) eqn:Hf; [|done].
          by destruct (Hq (bit_fact_in_range _ _ _ _ _ Hva Hf)). }
        unfold point_fact. rewrite !Hout by done. by case_match. }
    assert (∀ t q, (if decide (sourceTime p = t) then point_fact p1 q else fact_at kept1 t q)
                   = if retained w latest t q then fact_at (p :: pts) t q else None) as Hfinal.
    { intros t q. unfold fact_at at 2. rewrite find_time_cons. case_decide; [subst; apply Hp1|apply Hkf]. }
    destruct (anyBit (valid p1)) eqn:Hany; intros [= <- <-].
    + assert (Forall (before p1) kept1) as Hbefore.
      { apply Forall_forall. intros x (p0 & Hp0 & Hx)%Hkt. rewrite Forall_forall in Hlt.
        specialize (Hlt p0 Hp0). unfold before in *. lia. }
      split_and!; [constructor; [split; [done|done|lia]|done]|by constructor|set_solver|].
      intros t q. rewrite <- Hfinal. unfold fact_at at 1. rewrite find_time_cons, Ht1. by case_decide.
    + split_and!; [done..|set_solver|]. intros t q. rewrite <- Hfinal. case_decide; [|done]. subst t.
      unfold fact_at. destruct (find_time kept1 (sourceTime p)) as [p2|] eqn:H3; simpl.
      * apply find_time_Some in H3 as [(p0 & Hp0 & Hx)%Hkt Hp2]; [|done]. rewrite Forall_forall in Hlt.
        specialize (Hlt p0 Hp0). unfold before in *. lia.
      * destruct (point_fact p1 q) eqn:Hp; [|done].
        apply not_true_iff_false in Hany. destruct Hany. apply (bit_fact_any _ _ _ Hb1). eauto.
Qed.

Lemma prune_spec w latest :
  window_ok w →
  window_ok (prune w latest) ∧ levels (prune w latest) = levels w ∧ requirements (prune w latest) = requirements w ∧
  ∀ t q, fact_at (points (prune w latest)) t q = if retained w latest t q then fact_at (points w) t q else None.
Proof.
  intros Hw. unfold prune. destruct (prune_points _ _ _) as [kept ch] eqn:Hp.
  destruct (prune_points_spec _ _ _ _ _ (window_points _ Hw) (window_sorted _ Hw) Hp) as (? & ? & _ & ?).
  split_and!; [by apply with_points_ok|done..].
Qed.

Lemma retained_levels w w' latest t q :
  levels w' = levels w → requirements w' = requirements w → retained w' latest t q = retained w latest t q.
Proof. intros Hl Hr. unfold retained, level_cutoff, requirement_of. by rewrite Hl, Hr. Qed.

(** A candidate is refused as late exactly when none of its facts is retained. *)
Lemma outOfRetention_spec w c latest :
  window_ok w → candidate_ok (length (levels w)) c →
  outOfRetention w c latest = true →
  c_sourceTime c < latest ∧ ∀ q b, cand_fact c q = Some b → retained w latest (c_sourceTime c) q = false.
Proof.
  intros Hw Hc. unfold outOfRetention. destruct (Z.leb_spec latest (c_sourceTime c)); [done|].
  intros Hno. breflect. split; [done|]. intros q b Hb. apply not_true_iff_false. intros Hr.
  unfold retained in Hr. destruct (levels w !! _) as [l|] eqn:Hl; [|done].
  apply not_true_iff_false in Hno. destruct Hno. apply existsb_exists. exists (q, l).
  pose proof (bit_fact_in_range _ _ _ _ _ (candidate_bitmaps _ _ Hc) Hb) as Hq.
  split; [apply list_elem_of_In, elem_of_numbered; split; [lia|done]|].
  rewrite Hr, andb_true_r. unfold cand_fact, bit_fact in Hb. by destruct (bitSet (c_valid c) q).
Qed.

Definition horizon (r : LevelRequirement) : Z :=
  (RetentionPoints r - 1) * Z.quot (EvaluationInterval r) Second + Z.quot (LatenessTolerance r) Second.

Lemma horizon_nonneg r : requirement_ok r → 0 ≤ horizon r.
Proof. intros []. unfold horizon. nia. Qed.

(** No wrap: the cutoff is the latest time less the horizon, and never negative. *)
Lemma retentionCutoff_spec latest r :
  requirement_ok r → 0 ≤ latest → retentionCutoff latest r = Z.max 0 (latest - horizon r).
Proof.
  intros Hr Hl. pose proof (horizon_nonneg r Hr) as Hh. destruct Hr as [? ? ? ? Hmax].
  unfold retentionCutoff. fold (horizon r) in Hmax. unfold horizon in *.
  assert (0 ≤ (RetentionPoints r - 1) * Z.quot (EvaluationInterval r) Second) by nia.
  rewrite u32_id by go_lia. rewrite (i64_id (_ * _)) by go_lia. rewrite i64_id by go_lia.
  destruct (Z.leb_spec latest ((RetentionPoints r - 1) * Z.quot (EvaluationInterval r) Second
                               + Z.quot (LatenessTolerance r) Second)); lia.
Qed.

Lemma retained_latest w latest t q l :
  window_ok w → levels w !! Z.to_nat q = Some l → 0 ≤ latest ≤ t → retained w latest t q = true.
Proof.
  intros Hw Hl Ht. unfold retained. rewrite Hl. apply Z.leb_le.
  destruct (window_requirements _ Hw l) as (r & Hr & Hok); [by eapply list_elem_of_lookup_2|].
  unfold level_cutoff, requirement_of. rewrite Hr. simpl. rewrite retentionCutoff_spec by (done || lia).
  pose proof (horizon_nonneg _ Hok). lia.
Qed.

(** ** The batch *)

Definition usable (w : Window) (p : StatePoint) : bool :=
  existsb (λ q, bool_decide (is_Some (says w p q))) (bits (length (levels w))).

(** The latest source time the batch leaves the window with: of a retained point,
    or of a point of the batch with a usable fact. *)
Definition later (latest : option Z) (t : Z) : option Z :=
  Some (match latest with Some l => Z.max l t | None => t end).

Definition batch_latest (w : Window) (latest : option Z) (pts : list StatePoint) : option Z :=
  foldl (λ latest p, if usable w p then later latest (sp_SourceTime p) else latest) latest pts.

Definition final_latest (w : Window) (pts : list StatePoint) : option Z :=
  batch_latest w (sourceTime <$> last (points w)) pts.

Lemma usable_spec w i p c :
  window_ok w → preparePoint w i p = Ok c → c_hasValid c = usable w p.
Proof.
  intros Hw Hc. destruct (preparePoint_spec _ _ _ _ Hw Hc) as ([Hb Hs _] & _ & _ & Hf).
  rewrite Hs. apply eq_true_iff_eq. rewrite (bit_fact_any _ _ _ Hb). unfold usable. rewrite existsb_exists. split.
  - intros (q & b & Hq). exists q. split.
    + apply list_elem_of_In, elem_of_bits. by eapply bit_fact_in_range.
    + apply bool_decide_eq_true_2. rewrite <- Hf. unfold cand_fact. rewrite Hq. eauto.
  - intros (q & _ & [b Hq]%bool_decide_eq_true). exists q, b. rewrite <- Hf in Hq. done.
Qed.

Definition latest_pair (latest : option Z) : Z * bool :=
  match latest with Some l => (l, true) | None => (0, false) end.

Lemma latestSourceTime_pair w : latestSourceTime w = latest_pair (sourceTime <$> last (points w)).
Proof. unfold latestSourceTime. by destruct (last (points w)). Qed.

Definition initial_result (w : Window) (p : StatePoint) : PointResult :=
  mkPointResult (sp_RecordID p) (sp_SourceTime p) PointUnavailable ""
    (match sourceTime <$> last (points w) with Some l => sp_SourceTime p <? l | None => false end).

Lemma prepare_points_spec w pts i latest candidates results final :
  window_ok w →
  prepare_points w i (latest_pair latest).1 (latest_pair latest).2 pts = Ok (candidates, results, final) →
  final = latest_pair (batch_latest w latest pts) ∧
  results = initial_result w <$> pts ∧
  length candidates = length pts ∧
  ∀ k c, candidates !! k = Some c → ∃ p, pts !! k = Some p ∧ preparePoint w (i + k) p = Ok c.
Proof.
  intros Hw. revert i latest candidates results final.
  induction pts as [|p pts IH]; intros i latest candidates results final; cbn [prepare_points].
  - intros [= <- <- <-]. split_and!; [by destruct latest|done..].
  - intros (c & Hc & H)%bind_Ok. rewrite latestSourceTime_pair in H.
    assert (∀ A B (f : Z → bool → A), (let '(a, b) := latest_pair B in f a b) = f (latest_pair B).1 (latest_pair B).2) as Hlet
      by by destruct B.
    rewrite Hlet in H. apply bind_Ok in H as ([[cs rs] fin] & H & [= <- <- <-]).
    assert (((if c_hasValid c && (negb (latest_pair latest).2 || ((latest_pair latest).1 <? c_sourceTime c))
              then c_sourceTime c else (latest_pair latest).1),
             (latest_pair latest).2 || (c_hasValid c && (negb (latest_pair latest).2 || ((latest_pair latest).1 <? c_sourceTime c))))
            = latest_pair (if usable w p then later latest (sp_SourceTime p) else latest)) as Hpair.
    { rewrite <- (usable_spec _ _ _ _ Hw Hc). destruct (preparePoint_spec _ _ _ _ Hw Hc) as (_ & _ & <- & _).
      destruct (c_hasValid c), latest as [l|]; simpl; try done.
      destruct (Z.ltb_spec l (c_sourceTime c)); simpl; do 2 f_equal; lia. }
    pose proof (f_equal fst Hpair) as Hp1. pose proof (f_equal snd Hpair) as Hp2. cbn [fst snd] in Hp1, Hp2.
    rewrite Hp1, Hp2 in H.
    destruct (IH _ _ _ _ _ H) as (-> & -> & Hlen & Hall). split_and!; [done| |simpl; lia|].
    + simpl. f_equal. unfold initial_result. f_equal. by destruct (last (points w)).
    + intros [|k] c'; simpl; [intros [= <-]|].
      * exists p. by rewrite Nat.add_0_r.
      * intros Hk. rewrite <- Nat.add_succ_comm. by apply Hall.
Qed.

(** The contradictions a candidate is refused for, among the facts and record
    digests the window held and the candidates applied before it. *)
Definition contradicted (w0 : Window) (cs : list pointCandidate) (c : pointCandidate) : Prop :=
  (∃ d, d ≠ c_recordDigest c ∧
     (digest_at (points w0) (c_sourceTime c) = Some d ∨
      ∃ c', c' ∈ cs ∧ c_sourceTime c' = c_sourceTime c ∧ c_recordDigest c' = d)) ∨
  (∃ q b, cand_fact c q = Some b ∧
     (fact_at (points w0) (c_sourceTime c) q = Some (negb b) ∨
      ∃ c', c' ∈ cs ∧ c_sourceTime c' = c_sourceTime c ∧ cand_fact c' q = Some (negb b))).

Definition verdict (w0 : Window) (latest : Z) (cs : list pointCandidate) (win : Window) (c : pointCandidate)
    (r : PointResult) : Prop :=
  match pr_Status r with
  | PointApplied | PointNoop =>
      pr_ReasonCode r = ""%string ∧
      ∀ q b, cand_fact c q = Some b → fact_at (points win) (c_sourceTime c) q = Some b
  | PointTerminal =>
      (pr_ReasonCode r = ReasonLateOutOfWindow ∧ c_sourceTime c < latest ∧
       ∀ q b, cand_fact c q = Some b → retained w0 latest (c_sourceTime c) q = false) ∨
      (pr_ReasonCode r = ReasonRecordIdentityConflict ∧ contradicted w0 cs c)
  | PointUnavailable => False
  end.

Definition identity (r : PointResult) : string * Z * bool := (pr_RecordID r, pr_SourceTime r, pr_Late r).

(** What holds of the second loop of [ApplyContext] once the candidates [cs] are
    through it. *)
Record applied (w0 : Window) (latest : Z) (results0 : list PointResult) (cs : list pointCandidate)
    (win : Window) (results : list PointResult) : Prop := {
  applied_ok : window_ok win;
  applied_levels : levels win = levels w0;
  applied_requirements : requirements win = requirements w0;
  applied_kept t q b : fact_at (points w0) t q = Some b → fact_at (points win) t q = Some b;
  applied_from t q b : fact_at (points win) t q = Some b →
    fact_at (points w0) t q = Some b ∨ ∃ c, c ∈ cs ∧ c_sourceTime c = t ∧ cand_fact c q = Some b;
  applied_digest t d : digest_at (points win) t = Some d →
    digest_at (points w0) t = Some d ∨ ∃ c, c ∈ cs ∧ c_sourceTime c = t ∧ c_recordDigest c = d;
  applied_verdicts c : c ∈ cs → ∃ r, results !! c_index c = Some r ∧ verdict w0 latest cs win c r;
  applied_others i : (∀ c, c ∈ cs → c_index c ≠ i) → results !! i = results0 !! i;
  applied_identity : identity <$> results = identity <$> results0;
}.

Lemma identity_set_result results i s reason : identity <$> set_result results i s reason = identity <$> results.
Proof.
  unfold set_result. apply list_eq. intros k. rewrite !list_lookup_fmap, list_lookup_alter.
  case_decide; [subst|done]. by destruct (results !! k).
Qed.

Lemma contradicted_mono w0 cs cs' c : cs ⊆ cs' → contradicted w0 cs c → contradicted w0 cs' c.
Proof. intros Hsub. unfold contradicted. naive_solver. Qed.

Lemma verdict_mono w0 latest cs cs' win win' c r :
  cs ⊆ cs' → (∀ t q b, fact_at (points win) t q = Some b → fact_at (points win') t q = Some b) →
  verdict w0 latest cs win c r → verdict w0 latest cs' win' c r.
Proof.
  intros Hsub Hk. unfold verdict. destruct (pr_Status r); [naive_solver..|].
  intros [?|[? ?]]; [by left|right; split; [done|by eapply contradicted_mono]].
Qed.

(** One candidate more: the window kept what it knew, gained at most the
    candidate's facts and digest, and the candidate has its verdict. *)
Lemma applied_snoc w0 latest results0 cs win results c win' s reason :
  applied w0 latest results0 cs win results →
  (∀ c', c' ∈ cs → c_index c' ≠ c_index c) → is_Some (results0 !! c_index c) →
  window_ok win' → levels win' = levels win → requirements win' = requirements win →
  (∀ t q b, fact_at (points win) t q = Some b → fact_at (points win') t q = Some b) →
  (∀ t q b, fact_at (points win') t q = Some b →
     fact_at (points win) t q = Some b ∨ c_sourceTime c = t ∧ cand_fact c q = Some b) →
  (∀ t d, digest_at (points win') t = Some d →
     digest_at (points win) t = Some d ∨ t = c_sourceTime c ∧ d = c_recordDigest c) →
  (∀ r, pr_Status r = s → pr_ReasonCode r = reason → verdict w0 latest (cs ++ [c]) win' c r) →
  applied w0 latest results0 (cs ++ [c]) win' (set_result results (c_index c) s reason).
Proof.
  intros [] Hnew Hsome Hok Hl Hr Hkeep Hfrom Hdig Hv. split.
  - done.
  - congruence.
  - congruence.
  - auto.
  - intros t q b [Hf|[? ?]]%Hfrom; [|right; exists c; set_solver].
    destruct (applied_from0 _ _ _ Hf) as [|(c' & ? & ?)]; [by left|right; exists c'; set_solver].
  - intros t d [Hf|[-> ->]]%Hdig; [|right; exists c; set_solver].
    destruct (applied_digest0 _ _ Hf) as [|(c' & ? & ?)]; [by left|right; exists c'; set_solver].
  - intros c' [Hc'|Hc']%elem_of_app.
    + destruct (applied_verdicts0 _ Hc') as (r & Hr' & Hver). exists r. unfold set_result.
      rewrite list_lookup_alter_ne by (intros ?; by eapply Hnew). split; [done|].
      eapply verdict_mono; [|done|done]. set_solver.
    + apply list_elem_of_singleton in Hc' as ->. unfold set_result. rewrite list_lookup_alter_eq.
      rewrite applied_others0 by done. destruct Hsome as [r ->]. simpl. eexists. split; [done|]. by apply Hv.
  - intros i Hi. unfold set_result. rewrite list_lookup_alter_ne by (apply Hi; set_solver).
    apply applied_others0. set_solver.
  - by rewrite identity_set_result.
Qed.

Lemma conflicts_contradicted w0 latest results0 cs win results c :
  applied w0 latest results0 cs win results → conflicts (points win) c → contradicted w0 (cs ++ [c]) c.
Proof.
  intros Ha (p & Hp & Hwhy). apply (contradicted_mono w0 cs); [set_solver|].
  destruct Hwhy as [Hd|(q & b & Hc & Hf)]; [left|right].
  - exists (recordDigest p). split; [done|]. apply (applied_digest _ _ _ _ _ _ Ha). unfold digest_at. by rewrite Hp.
  - exists q, b. split; [done|]. apply (applied_from _ _ _ _ _ _ Ha). unfold fact_at. by rewrite Hp.
Qed.

Lemma apply_one_step w0 latest results0 cs win results c :
  applied w0 latest results0 cs win results →
  candidate_ok (length (levels w0)) c → c_hasValid c = true →
  (∀ c', c' ∈ cs → c_index c' ≠ c_index c) → is_Some (results0 !! c_index c) →
  let st := apply_one latest (win, results) c in applied w0 latest results0 (cs ++ [c]) st.1 st.2.
Proof.
  intros Ha Hc Hv Hnew Hsome. pose proof (applied_ok _ _ _ _ _ _ Ha) as Hok.
  pose proof (applied_levels _ _ _ _ _ _ Ha) as Hl. pose proof (applied_requirements _ _ _ _ _ _ Ha) as Hr.
  pose proof Hc as Hcw. rewrite <- Hl in Hcw.
  unfold apply_one. destruct (outOfRetention win c latest) eqn:Hout; simpl.
  - apply outOfRetention_spec in Hout as [Hlt Hnone]; [|done..].
    eapply applied_snoc; try done; [by left..|]. unfold verdict. intros r -> ->. left. split_and!; [done..|].
    intros q b Hb. rewrite <- (retained_levels w0 win) by done. by eapply Hnone.
  - destruct (applyCandidate win c) as [[s reason] win'] eqn:Happ. simpl.
    destruct (applyCandidate_spec _ _ _ _ _ Hok Hcw Hv Happ) as (Hok' & Hl' & Hr' & Hcase).
    destruct Hcase as [(Hs & -> & Hrec & Hhave & Hdig)|(-> & -> & -> & Hconf)].
    + eapply applied_snoc; try done.
      * intros t q b Hf. rewrite Hrec, Hf. by case_decide.
      * intros t q b. rewrite Hrec. case_decide; [|by left]. unfold first_write.
        case_match; [by left|]. intros. by right.
      * intros r Hrs Hrr. unfold verdict. rewrite Hrs. by destruct Hs as [->|[-> _]].
    + eapply applied_snoc; try done; [by left..|]. intros r Hrs Hrr. unfold verdict. rewrite Hrs. right.
      split; [done|]. by eapply conflicts_contradicted.
Qed.

Lemma apply_loop w0 latest results0 todo cs win results :
  applied w0 latest results0 cs win results →
  NoDup (c_index <$> (cs ++ todo)) →
  Forall (λ c, candidate_ok (length (levels w0)) c ∧ c_hasValid c = true ∧ is_Some (results0 !! c_index c)) todo →
  let st := foldl (apply_one latest) (win, results) todo in applied w0 latest results0 (cs ++ todo) st.1 st.2.
Proof.
  revert cs win results. induction todo as [|c todo IH]; intros cs win results Ha Hnd Hall; cbn [foldl].
  - by rewrite app_nil_r.
  - apply Forall_cons in Hall as [(Hc & Hv & Hi) Hall].
    pose proof Hnd as Hnd'. rewrite fmap_app, fmap_cons in Hnd'. apply NoDup_app in Hnd' as (_ & Hdis & _).
    pose proof (apply_one_step _ _ _ _ _ _ _ Ha Hc Hv) as Hstep.
    destruct (apply_one latest (win, results) c) as [win1 results1]. simpl in Hstep.
    rewrite (cons_middle c cs todo), (assoc_L (++)) in Hnd |- *. apply IH; [|done|done].
    apply Hstep; [|done]. intros c' Hc' Heq. eapply (Hdis (c_index c')); [by apply list_elem_of_fmap_2|].
    rewrite Heq. left.
Qed.

(** ** What a batch does to the window *)

Definition known (w : Window) (t q : Z) : option bool := fact_at (points w) t q.

Definition in_retention (w : Window) (pts : list StatePoint) (t q : Z) : bool :=
  match final_latest w pts with Some latest => retained w latest t q | None => true end.

(** The first 16 bytes of the record's digest. *)
Definition point_digest (p : StatePoint) : option (list Z) :=
  match decodeDigest32 (sp_RecordID p) with Ok d => Some (take 16 d) | Err _ => None end.

Lemma preparePoint_digest w i p c : preparePoint w i p = Ok c → point_digest p = Some (c_recordDigest c).
Proof.
  unfold preparePoint, point_digest. destruct (decodeDigest32 _); [|done].
  destruct (_ <? _); [done|]. by intros ([? [[? ?] ?]] & _ & [= <-])%bind_Ok.
Qed.

(** [c] is the candidate of the [i]-th point. *)
Definition candidate_of (w : Window) (pts : list StatePoint) (c : pointCandidate) (p : StatePoint) : Prop :=
  pts !! c_index c = Some p ∧ preparePoint w (c_index c) p = Ok c.

Lemma candidate_of_facts w pts c p :
  window_ok w → candidate_of w pts c p →
  p ∈ pts ∧ c_sourceTime c = sp_SourceTime p ∧ point_digest p = Some (c_recordDigest c) ∧
  ∀ q, cand_fact c q = says w p q.
Proof.
  intros Hw [Hp Hc]. destruct (preparePoint_spec _ _ _ _ Hw Hc) as (_ & _ & ? & ?).
  split_and!; [by eapply list_elem_of_lookup_2|done|by eapply preparePoint_digest|done].
Qed.

Lemma initial_applied w latest results : window_ok w → applied w latest results [] w results.
Proof. intros Hw. split; try done; [by left|by left|set_solver]. Qed.

(** The second loop runs over the usable candidates, once each. *)
Lemma apply_order_NoDup (cs : list pointCandidate) :
  (∀ k c, cs !! k = Some c → c_index c = k) → NoDup (c_index <$> apply_order cs).
Proof.
  intros Hof. unfold apply_order. rewrite stable_sort_perm.
  assert (c_index <$> cs = seq 0 (length cs)) as Hseq.
  { apply list_eq. intros k. rewrite list_lookup_fmap. destruct (cs !! k) as [c|] eqn:Hk; simpl.
    - rewrite lookup_seq_lt by (by eapply lookup_lt_Some). f_equal. by apply Hof.
    - symmetry. apply lookup_seq_ge. by apply lookup_ge_None. }
  eapply sublist_NoDup; [apply (NoDup_seq 0 (length cs))|]. rewrite <- Hseq.
  apply fmap_sublist. apply sublist_filter.
Qed.

Lemma elem_of_apply_order cs c : c ∈ apply_order cs ↔ c ∈ cs ∧ c_hasValid c = true.
Proof. unfold apply_order. rewrite stable_sort_perm, list_elem_of_filter. tauto. Qed.

Lemma prepared_candidates w (pts : list StatePoint) (cs : list pointCandidate) :
  window_ok w →
  (∀ k c, cs !! k = Some c → ∃ p, pts !! k = Some p ∧ preparePoint w (0 + k) p = Ok c) →
  ∀ k c, cs !! k = Some c → c_index c = k ∧ ∃ p, candidate_of w pts c p ∧ c_hasValid c = usable w p.
Proof.
  intros Hw Hcs k c Hk. destruct (Hcs _ _ Hk) as (p & Hp & Hc).
  destruct (preparePoint_spec _ _ _ _ Hw Hc) as (_ & Hi & _). simpl in Hi. split; [done|].
  exists p. unfold candidate_of. rewrite Hi. split; [done|by eapply usable_spec].
Qed.

(** [ApplyContext]: the loops, and the window pruned at the latest source time. *)
Lemma ApplyContext_inv w pts results w' :
  window_ok w → ApplyContext w pts = Ok (results, w') →
  ∃ cs win,
    applied w (latest_pair (final_latest w pts)).1 (initial_result w <$> pts) cs win results ∧
    (∀ c, c ∈ cs → ∃ p, candidate_of w pts c p ∧ usable w p = true) ∧
    (∀ i p, pts !! i = Some p → usable w p = true → ∃ c, c ∈ cs ∧ c_index c = i ∧ candidate_of w pts c p) ∧
    w' = match final_latest w pts with Some latest => prune win latest | None => win end.
Proof.
  intros Hw. unfold ApplyContext. rewrite latestSourceTime_pair.
  destruct (latest_pair (sourceTime <$> last (points w))) as [l0 h0] eqn:Hpair.
  intros ([[cs rs] final] & Hprep & H)%bind_Ok.
  pose proof (f_equal fst Hpair) as Hl0. pose proof (f_equal snd Hpair) as Hh0. simpl in Hl0, Hh0.
  rewrite <- Hl0, <- Hh0 in Hprep.
  apply prepare_points_spec in Hprep as (-> & -> & Hlen & Hcs); [|done].
  pose proof (prepared_candidates _ _ _ Hw Hcs) as Hof. fold (final_latest w pts) in H.
  set (latest := (latest_pair (final_latest w pts)).1).
  pose proof (apply_loop w latest (initial_result w <$> pts) (apply_order cs) [] w _ (initial_applied w latest _ Hw)
                (apply_order_NoDup cs (λ k c Hk, proj1 (Hof k c Hk)))) as Hloop.
  destruct (foldl (apply_one latest) (w, initial_result w <$> pts) (apply_order cs)) as [win results1] eqn:Hfold.
  exists (apply_order cs), win. split_and!.
  - assert (results = results1) as ->.
    { unfold latest in Hfold. destruct (final_latest w pts); simpl in H, Hfold; rewrite Hfold in H; congruence. }
    apply Hloop. apply Forall_forall. intros c [Hc Hv]%elem_of_apply_order.
    apply list_elem_of_lookup in Hc as [k Hk]. destruct (Hof _ _ Hk) as (<- & p & [Hp Hprep] & _).
    destruct (preparePoint_spec _ _ _ _ Hw Hprep) as (? & _). split_and!; [done..|].
    rewrite list_lookup_fmap, Hp. eauto.
  - intros c [Hc Hv]%elem_of_apply_order. apply list_elem_of_lookup in Hc as [k Hk].
    destruct (Hof _ _ Hk) as (_ & p & Hp & Hu). exists p. split; [done|congruence].
  - intros i p Hp Hu. destruct (lookup_lt_is_Some_2 cs i) as [c Hc].
    { rewrite Hlen. by eapply lookup_lt_Some. }
    destruct (Hof _ _ Hc) as (<- & p' & [Hp' Hprep] & Hu'). simplify_eq. exists c.
    rewrite elem_of_apply_order. split_and!; [by eapply list_elem_of_lookup_2|congruence|done|by split].
  - unfold latest in Hfold. destruct (final_latest w pts); simpl in H, Hfold; rewrite Hfold in H; congruence.
Qed.

Lemma known_pruned w pts latest0 rs cs win results t q :
  applied w latest0 rs cs win results →
  known (match final_latest w pts with Some latest => prune win latest | None => win end) t q
  = if in_retention w pts t q then known win t q else None.
Proof.
  intros Ha. unfold in_retention. destruct (final_latest w pts) as [latest|]; [|done].
  destruct (prune_spec win latest (applied_ok _ _ _ _ _ _ Ha)) as (_ & _ & _ & Hf).
  unfold known. rewrite Hf. rewrite (retained_levels w win); [done|apply Ha..].
Qed.

Lemma ApplyContext_window_ok w pts results w' :
  window_ok w → ApplyContext w pts = Ok (results, w') →
  window_ok w' ∧ levels w' = levels w ∧ requirements w' = requirements w.
Proof.
  intros Hw (cs & win & Ha & _ & _ & ->)%ApplyContext_inv; [|done].
  rewrite <- (applied_levels _ _ _ _ _ _ Ha), <- (applied_requirements _ _ _ _ _ _ Ha).
  pose proof (applied_ok _ _ _ _ _ _ Ha) as Hwin.
  destruct (final_latest w pts) as [latest|]; [|done].
  by destruct (prune_spec win latest Hwin) as (? & ? & ? & _).
Qed.

(** C26: applying a batch keeps the window well formed and its Levels and
    requirements as they are; a fact the window knew is never changed, and is
    dropped exactly when it is past its Level's retention; a fact it knows
    afterwards is within retention, and was known before or is said by a point of
    the batch at that source time. *)
Theorem apply_window w pts results w' :
  window_ok w → ApplyContext w pts = Ok (results, w') →
  window_ok w' ∧ levels w' = levels w ∧ requirements w' = requirements w ∧
  ∀ t q b,
    (known w t q = Some b → known w' t q = if in_retention w pts t q then Some b else None) ∧
    (known w' t q = Some b →
       in_retention w pts t q = true ∧
       (known w t q = Some b ∨ ∃ p, p ∈ pts ∧ sp_SourceTime p = t ∧ says w p q = Some b)).
Proof.
  intros Hw Happ. destruct (ApplyContext_window_ok _ _ _ _ Hw Happ) as (? & ? & ?). split_and!; [done..|].
  apply ApplyContext_inv in Happ as (cs & win & Ha & Hcs & _ & ->); [|done]. intros t q b.
  rewrite (known_pruned _ _ _ _ _ _ _ t q Ha). split.
  - intros Hb%(applied_kept _ _ _ _ _ _ Ha). unfold known. by rewrite Hb.
  - destruct (in_retention w pts t q); [|done]. intros [Hf|(c & Hc & <- & Hf)]%(applied_from _ _ _ _ _ _ Ha).
    { by split; [|left]. }
    split; [done|right]. destruct (Hcs _ Hc) as (p & Hp & _).
    destruct (candidate_of_facts _ _ _ _ Hw Hp) as (? & Ht & _ & Hs). exists p. rewrite <- Hs. done.
Qed.

(** The contradictions a point is refused for. *)
Definition point_contradicted (w : Window) (pts : list StatePoint) (p : StatePoint) : Prop :=
  (∃ d d', point_digest p = Some d' ∧ d ≠ d' ∧
     (digest_at (points w) (sp_SourceTime p) = Some d ∨
      ∃ p', p' ∈ pts ∧ sp_SourceTime p' = sp_SourceTime p ∧ point_digest p' = Some d)) ∨
  (∃ q b, says w p q = Some b ∧
     (known w (sp_SourceTime p) q = Some (negb b) ∨
      ∃ p', p' ∈ pts ∧ sp_SourceTime p' = sp_SourceTime p ∧ says w p' q = Some (negb b))).

Lemma contradicted_point w pts cs c p :
  window_ok w → (∀ c, c ∈ cs → ∃ p, candidate_of w pts c p ∧ usable w p = true) →
  candidate_of w pts c p → contradicted w cs c → point_contradicted w pts p.
Proof.
  intros Hw Hcs Hp. destruct (candidate_of_facts _ _ _ _ Hw Hp) as (_ & Ht & Hd & Hs).
  intros [(d & Hne & Hwhy)|(q & b & Hc & Hwhy)]; [left; exists d, (c_recordDigest c)|right; exists q, b];
    rewrite <- ?Hs, <- ?Ht; split_and!; try done;
    (destruct Hwhy as [|(c' & Hc' & Ht' & Hx)]; [by left|right]);
    destruct (Hcs _ Hc') as (p' & Hp' & _);
    destruct (candidate_of_facts _ _ _ _ Hw Hp') as (? & Ht2 & Hd2 & Hs2);
    exists p'; rewrite <- ?Hs2, <- ?Ht2, ?Hd2, ?Hx; done.
Qed.

Lemma batch_latest_usable w latest pts : is_Some latest → is_Some (batch_latest w latest pts).
Proof.
  unfold batch_latest. revert latest. induction pts as [|p pts IH]; intros latest Hl; cbn [foldl]; [done|].
  apply IH. case_match; [|done]. by eexists.
Qed.

Lemma final_latest_usable w pts p : p ∈ pts → usable w p = true → is_Some (final_latest w pts).
Proof.
  intros Hp Hu. unfold final_latest. generalize (sourceTime <$> last (points w)) as latest.
  induction pts as [|p' pts IH]; intros latest; [by apply elem_of_nil in Hp|].
  unfold batch_latest. cbn [foldl]. apply elem_of_cons in Hp as [<-|Hp]; [|by apply IH].
  rewrite Hu. apply batch_latest_usable. by eexists.
Qed.

(** Each point of an applied batch gets one result, in the batch's order and
    under its own identity. [APPLIED] and [NOOP] mean that the window now knows
    every fact of the point still within retention; [TERMINAL] that the point was
    late with nothing of it within retention, or that its record or a fact
    contradicts what the window held or the batch said at that time;
    [UNAVAILABLE] that no Level fact of it was usable. *)
Lemma apply_results w pts results w' i p :
  window_ok w → ApplyContext w pts = Ok (results, w') → pts !! i = Some p →
  length results = length pts ∧
  ∃ r, results !! i = Some r ∧ pr_RecordID r = sp_RecordID p ∧ pr_SourceTime r = sp_SourceTime p ∧
  match pr_Status r with
  | PointApplied | PointNoop =>
      usable w p = true ∧ pr_ReasonCode r = ""%string ∧
      ∀ q b, says w p q = Some b → in_retention w pts (sp_SourceTime p) q = true →
             known w' (sp_SourceTime p) q = Some b
  | PointTerminal =>
      usable w p = true ∧
      ((pr_ReasonCode r = ReasonLateOutOfWindow ∧
        ∀ q b, says w p q = Some b → in_retention w pts (sp_SourceTime p) q = false) ∨
       (pr_ReasonCode r = ReasonRecordIdentityConflict ∧ point_contradicted w pts p))
  | PointUnavailable => pr_ReasonCode r = ""%string ∧ usable w p = false
  end.
Proof.
  intros Hw (cs & win & Ha & Hcs & Hall & ->)%ApplyContext_inv Hp; [|done].
  pose proof (applied_identity _ _ _ _ _ _ Ha) as Hid.
  split; [by rewrite <- (length_fmap identity), Hid, !length_fmap|].
  assert (identity <$> results !! i = Some (identity (initial_result w p))) as Hr.
  { rewrite <- list_lookup_fmap, Hid, !list_lookup_fmap, Hp. done. }
  apply fmap_Some_1 in Hr as (r & Hr & [= Hr1 Hr2 _]).
  exists r. split_and!; [done..|]. destruct (usable w p) eqn:Hu.
  - destruct (Hall _ _ Hp Hu) as (c & Hc & <- & Hcp).
    destruct (candidate_of_facts _ _ _ _ Hw Hcp) as (_ & Ht & _ & Hs).
    destruct (applied_verdicts _ _ _ _ _ _ Ha _ Hc) as (r' & Hr' & Hv). simplify_eq.
    unfold verdict in Hv. rewrite Ht in Hv.
    assert (∀ q b, says w p q = Some b → in_retention w pts (sp_SourceTime p) q
                                         = retained w (latest_pair (final_latest w pts)).1 (sp_SourceTime p) q) as Hret.
    { intros q b Hb. unfold in_retention. destruct (final_latest_usable w pts p) as [latest ->]; [by eapply list_elem_of_lookup_2|done..]. }
    destruct (pr_Status r).
    + split_and!; [done|apply Hv|]. intros q b Hb Hin. erewrite known_pruned by exact Ha. rewrite Hin. apply Hv. by rewrite Hs.
    + split_and!; [done|apply Hv|]. intros q b Hb Hin. erewrite known_pruned by exact Ha. rewrite Hin. apply Hv. by rewrite Hs.
    + done.
    + split; [done|]. destruct Hv as [(? & _ & Hv)|[? Hv]]; [left|right]; (split; [done|]).
      * intros q b Hb. erewrite Hret by done. apply (Hv q b). by rewrite Hs.
      * by eapply contradicted_point.
  - rewrite (applied_others _ _ _ _ _ _ Ha) in Hr.
    + rewrite list_lookup_fmap, Hp in Hr. by simplify_eq/=.
    + intros c (p' & [Hp' _] & Hu')%Hcs <-. congruence.
Qed.
