(* ===== verification/WindowAlign.v ===== *)
(** Building and re-aligning the runtime window ([Window.NewWindow],
    [Window.Align]): the requirements are checked, and the facts of a Level follow
    it to its new bit when its ID and fingerprint are unchanged. *)
From S2P Require Import Prelude Reason GoHash History Window WindowInvariant WindowApply.

Open Scope Z_scope.

(** The Go types of a requirement's fields. *)
Record requirement_in_range (r : LevelRequirement) : Prop := {
  rr_required : is_u32 (RequiredPoints r);
  rr_retention : is_u32 (RetentionPoints r);
  rr_interval : is_i64 (EvaluationInterval r);
  rr_lateness : is_i64 (LatenessTolerance r);
}.

(** ** Requirements *)

Lemma check_requirement_ok previous r u :
  requirement_in_range r → check_requirement previous r = Ok u →
  requirement_ok r ∧ req_LevelID r ≠ 0 ∧ (∀ p, previous = Some p → req_LevelID r ≠ req_LevelID p) ∧
  is_ok (decodeDigest32 (req_DetectFingerprint r)) = true.
Proof.
  intros [Hn Hm Hi Hl]. unfold check_requirement.
  case_cond; [done|]. intros (d & Hd & Hrest)%bind_Ok. revert Hrest.
  case_cond; [done|]. set (interval := Z.quot (EvaluationInterval r) Second).
  case_cond; [done|]. intros _. breflect.
  assert (Second = 1000000000) as HS by done.
  pose proof (Z.quot_rem' (EvaluationInterval r) Second) as Hqr. fold interval in Hqr.
  assert (Z.rem (EvaluationInterval r) Second = 0) as Hrem by done.
  assert (0 < interval) as Hpos by nia.
  assert (0 ≤ Z.quot (LatenessTolerance r) Second) as Hlate by (apply Z.quot_pos; lia).
  rewrite u32_id in * by go_lia.
  assert ((RetentionPoints r - 1) * interval ≤ maxInt64) as Hprod.
  { pose proof (Z.mul_quot_le maxInt64 interval ltac:(go_lia) ltac:(lia)). nia. }
  assert (0 ≤ (RetentionPoints r - 1) * interval) by (apply Z.mul_nonneg_nonneg; go_lia).
  rewrite i64_id in * by go_lia.
  split_and!; [|done| |by rewrite Hd].
  - split; unfold is_u32 in *; fold interval; lia.
  - intros p ->. simpl in *. by breflect.
Qed.

(** What the checks establish of a list of requirements after [previous]. *)
Lemma check_requirements_ok previous m rs m' :
  Forall requirement_in_range rs → StronglySorted (ordered_by req_LevelID) rs →
  (∀ p, previous = Some p → Forall (ordered_by req_LevelID p) rs) →
  check_requirements previous m rs = Ok m' →
  Forall requirement_ok rs ∧ StronglySorted (λ a b, req_LevelID a < req_LevelID b) rs ∧
  (∀ p, previous = Some p → Forall (λ r, req_LevelID p < req_LevelID r) rs) ∧
  (∀ r, r ∈ rs → m' !! req_LevelID r = Some r) ∧
  (∀ id, (∀ r, r ∈ rs → req_LevelID r ≠ id) → m' !! id = m !! id).
Proof.
  intros Hin Hs. revert previous m. induction Hs as [|r rs Hs IH Hle]; intros previous m Hprev; cbn [check_requirements].
  { intros [= <-]. split_and!; try constructor; set_solver. }
  apply Forall_cons in Hin as [Hr Hin]. intros (u & Hc & H)%bind_Ok.
  destruct (check_requirement_ok _ _ _ Hr Hc) as (Hok & _ & Hne & _).
  destruct (IH Hin (Some r) _ ltac:(by intros p [= <-]) H) as (Hoks & Hss & Hlt & Hm & Hout).
  specialize (Hlt r eq_refl). split_and!; [by constructor|by constructor| | |].
  - intros p ->. specialize (Hprev p eq_refl). specialize (Hne p eq_refl).
    apply Forall_cons in Hprev as [Hpr _]. unfold ordered_by in Hpr.
    constructor; [lia|]. eapply Forall_impl; [exact Hlt|]. simpl. lia.
  - intros r' [->|Hr']%elem_of_cons; [|auto]. rewrite Hout; [by rewrite lookup_insert_eq|].
    intros r' Hr' Heq. rewrite Forall_forall in Hlt. specialize (Hlt r' Hr'). simpl in Hlt. lia.
  - intros id Hid. rewrite Hout by set_solver. apply lookup_insert_ne. set_solver.
Qed.

Lemma normalizeRequirements_ok rs normalized byLevel :
  Forall requirement_in_range rs → normalizeRequirements rs = Ok (normalized, byLevel) →
  normalized ≡ₚ rs ∧ Forall requirement_ok normalized ∧
  StronglySorted (λ a b, req_LevelID a < req_LevelID b) normalized ∧
  ∀ r, r ∈ normalized → byLevel !! req_LevelID r = Some r.
Proof.
  intros Hin (m & Hm & [= <- <-])%bind_Ok.
  assert (Forall requirement_in_range (stable_sort (ordered_by req_LevelID) rs)) as Hin' by by rewrite stable_sort_perm.
  destruct (check_requirements_ok None ∅ _ _ Hin' (stable_sort_sorted _ _) ltac:(done) Hm) as (? & ? & _ & ? & _).
  split_and!; [apply stable_sort_perm|done..].
Qed.

Lemma make_levels_ok rs ls :
  make_levels rs = Ok ls →
  Forall2 (λ r l, levelID l = req_LevelID r ∧ decodeDigest32 (req_DetectFingerprint r) = Ok (detectFingerprint l)) rs ls.
Proof.
  revert ls. induction rs as [|r rs IH]; intros ls; cbn [make_levels].
  - intros [= <-]. constructor.
  - intros (d & Hd & (ls' & Hls & [= <-])%bind_Ok)%bind_Ok. constructor; [done|auto].
Qed.

Lemma levels_of_requirements rs ls (byLevel : gmap Z LevelRequirement) :
  make_levels rs = Ok ls → Forall requirement_ok rs →
  StronglySorted (λ a b, req_LevelID a < req_LevelID b) rs →
  (∀ r, r ∈ rs → byLevel !! req_LevelID r = Some r) →
  StronglySorted (λ a b, levelID a < levelID b) ls ∧
  ∀ l, l ∈ ls → ∃ r, byLevel !! levelID l = Some r ∧ requirement_ok r.
Proof.
  intros Hmk%make_levels_ok Hok Hs Hby. split.
  - clear Hby Hok. induction Hmk as [|r l rs ls [Hid _] Hmk IH]; [constructor|].
    apply StronglySorted_cons in Hs as [Hlt Hs]. constructor; [auto|].
    apply Forall_forall. intros l' (i & Hl')%list_elem_of_lookup.
    destruct (Forall2_lookup_r _ _ _ _ _ Hmk Hl') as (r' & Hr' & [Hid' _]).
    rewrite Hid, Hid'. exact (proj1 (Forall_lookup _ _) Hlt _ _ Hr').
  - intros l (i & Hl)%list_elem_of_lookup.
    destruct (Forall2_lookup_r _ _ _ _ _ Hmk Hl) as (r & Hr & [Hid _]). exists r.
    rewrite Hid. split; [apply Hby; by eapply list_elem_of_lookup_2|].
    exact (proj1 (Forall_lookup _ _) Hok _ _ Hr).
Qed.

(** ** Carrying the facts over *)

Lemma index_levels_other ls i m id :
  (∀ l, l ∈ ls → levelID l ≠ id) → index_levels i m ls !! id = m !! id.
Proof.
  revert i m. induction ls as [|l ls IH]; intros i m Hid; cbn [index_levels]; [done|].
  rewrite IH by set_solver. apply lookup_insert_ne. set_solver.
Qed.

Lemma index_levels_at ls i m k l :
  StronglySorted (λ a b, levelID a < levelID b) ls → ls !! k = Some l →
  index_levels i m ls !! levelID l = Some (i + k)%nat.
Proof.
  revert i m k. induction ls as [|l' ls IH]; intros i m k Hs Hk; [done|]. cbn [index_levels].
  apply StronglySorted_cons in Hs as [Hlt Hs]. destruct k as [|k]; simplify_eq/=.
  - rewrite index_levels_other.
    + rewrite lookup_insert_eq. f_equal. lia.
    + rewrite Forall_forall in Hlt. intros l' Hl'. specialize (Hlt _ Hl'). simpl in Hlt. lia.
  - rewrite (IH _ _ k) by done. f_equal. lia.
Qed.

(** The bit the old Level of the same ID and fingerprint has, and what the point
    says there. *)
Definition carry (oldLevels : list levelState) (oldIndex : gmap Z nat) (p : pointState) (l : levelState) : option bool :=
  old_position ← oldIndex !! levelID l;
  old ← oldLevels !! old_position;
  if decide (detectFingerprint old = detectFingerprint l) then point_fact p (Z.of_nat old_position) else None.

Lemma align_bit_carry oldLevels oldIndex p v a q l :
  align_bit oldLevels oldIndex p (v, a) (q, l) =
  match carry oldLevels oldIndex p l with Some b => (setBit v q true, setBit a q b) | None => (v, a) end.
Proof.
  unfold align_bit, carry. destruct (oldIndex !! _) as [i|]; simpl; [|done].
  destruct (oldLevels !! i) as [old|]; simpl; [|done]. unfold point_fact, bit_fact.
  case_decide; case_bool_decide; simpl; try done. by destruct (bitSet (valid p) (Z.of_nat i)).
Qed.

Lemma align_fold n oldLevels oldIndex p entries v a v' a' :
  bitmaps_ok n v a → Forall (λ e, 0 ≤ e.1 < Z.of_nat n) entries → NoDup entries.*1 →
  foldl (align_bit oldLevels oldIndex p) (v, a) entries = (v', a') →
  bitmaps_ok n v' a' ∧
  (∀ q l, (q, l) ∈ entries →
     bit_fact v' a' q = match carry oldLevels oldIndex p l with Some b => Some b | None => bit_fact v a q end) ∧
  (∀ q, q ∉ entries.*1 → bit_fact v' a' q = bit_fact v a q).
Proof.
  intros Hb Hen. revert v a Hb. induction Hen as [|[q l] entries Hq _ IH]; intros v a Hb Hnd; cbn [foldl].
  { intros [= <- <-]. split_and!; [done|set_solver|done]. }
  rewrite align_bit_carry. cbn [fmap list_fmap fst] in Hnd. apply NoDup_cons in Hnd as [Hnew Hnd].
  assert (∀ v1 a1, (v1, a1) = match carry oldLevels oldIndex p l with
                             | Some b => (setBit v q true, setBit a q b) | None => (v, a) end →
    bitmaps_ok n v1 a1 ∧
    ∀ r, bit_fact v1 a1 r = if decide (q = r) then match carry oldLevels oldIndex p l with
                                                   | Some b => Some b | None => bit_fact v a q end else bit_fact v a r) as Hstep.
  { intros v1 a1. destruct (carry _ _ _ _) as [b|]; intros [= -> ->].
    - split; [by apply (bit_fact_set n _ _ q 0)|]. intros r. by apply (bit_fact_set n).
    - split; [done|]. intros r. case_decide; by subst. }
  destruct (match carry _ _ _ _ with Some _ => _ | None => _ end) as [v1 a1].
  destruct (Hstep v1 a1 eq_refl) as [Hb1 Hf1]. intros Hfold.
  destruct (IH v1 a1 Hb1 Hnd Hfold) as (Hb' & Hin & Hout). split_and!; [done| |].
  - intros q' l' [[= -> ->]|Hin']%elem_of_cons.
    + rewrite Hout, Hf1, decide_True by done. done.
    + rewrite (Hin q' l') by done. rewrite Hf1. rewrite decide_False; [done|].
      intros ->. apply Hnew. apply list_elem_of_fmap. by exists (q', l').
  - intros q' Hq'. cbn [fmap list_fmap fst] in Hq'. rewrite Hout by set_solver. rewrite Hf1. rewrite decide_False; set_solver.
Qed.

(** A re-aligned point says at each new bit what it carried there. *)
Lemma align_point_spec oldLevels newLevels oldIndex p :
  let p' := align_point oldLevels newLevels oldIndex p in
  sourceTime p' = sourceTime p ∧ recordDigest p' = recordDigest p ∧
  bitmaps_ok (length newLevels) (valid p') (anomalous p') ∧
  ∀ k l, newLevels !! k = Some l → point_fact p' (Z.of_nat k) = carry oldLevels oldIndex p l.
Proof.
  unfold align_point. set (empty := replicate _ 0).
  destruct (foldl _ _ _) as [v a] eqn:Hfold. simpl.
  assert (bitmaps_ok (length newLevels) empty empty) as Hempty.
  { split; [apply bitmap_ok_empty..|]. intros q. unfold empty. by rewrite bitSet_replicate. }
  assert (∀ q l, (q, l) ∈ zip (bits (length newLevels)) newLevels ↔ 0 ≤ q ∧ newLevels !! Z.to_nat q = Some l) as Hzip.
  { intros q l. exact (elem_of_numbered (mkWindow newLevels [] ∅ false) q l). }
  apply (align_fold (length newLevels)) in Hfold as (Hb & Hin & _); [|done| |].
  - split_and!; [done..|]. intros k l Hk. unfold point_fact. simpl.
    rewrite (Hin (Z.of_nat k) l) by (apply Hzip; rewrite Nat2Z.id; split; [lia|done]).
    unfold bit_fact, empty. rewrite bitSet_replicate. by destruct (carry _ _ _ _).
  - apply Forall_forall. intros [q l] [Hq Hl]%Hzip. simpl. apply lookup_lt_Some in Hl. lia.
  - rewrite fst_zip by (unfold bits; by rewrite length_fmap, length_seq).
    unfold bits. apply NoDup_fmap; [intros ?? ?; lia|apply NoDup_seq].
Qed.

(** Dropping the points without a fact changes nothing the window says. *)
Lemma fact_at_any n pts t q :
  Forall (λ p, bitmaps_ok n (valid p) (anomalous p)) pts → StronglySorted before pts →
  fact_at (filter (λ p, anyBit (valid p) = true) pts) t q = fact_at pts t q.
Proof.
  intros Hall. induction Hall as [|p pts Hb _ IH]; intros Hs; [done|].
  apply StronglySorted_cons in Hs as [Hlt Hs]. specialize (IH Hs). unfold fact_at in *.
  rewrite filter_cons. case_decide as Hany; rewrite ?find_time_cons; case_decide as Ht; try done.
  rewrite IH. subst t. rewrite (proj2 (find_time_None pts _ Hs)).
  - simpl. destruct (point_fact p q) eqn:Hf; [|done]. destruct Hany. apply (bit_fact_any _ _ _ Hb). eauto.
  - intros p' Hp'. rewrite Forall_forall in Hlt. specialize (Hlt _ Hp'). unfold before in Hlt. lia.
Qed.

Lemma make_levels_elem rs ls l :
  make_levels rs = Ok ls →
  l ∈ ls ↔ ∃ r, r ∈ rs ∧ levelID l = req_LevelID r ∧ decodeDigest32 (req_DetectFingerprint r) = Ok (detectFingerprint l).
Proof.
  revert ls. induction rs as [|r rs IH]; intros ls; cbn [make_levels].
  - intros [= <-]. set_solver.
  - intros (d & Hd & (ls' & Hls & [= <-])%bind_Ok)%bind_Ok. rewrite elem_of_cons, (IH _ Hls). split.
    + intros [->|(r' & ? & ?)]; [exists r|exists r']; set_solver.
    + intros (r' & [->|Hr']%elem_of_cons & Hid & Hfp); [left|by right; exists r'].
      destruct l. simpl in *. congruence.
Qed.

Lemma sameLevelLayout_eq ls rs : sameLevelLayout ls rs = true → ls = rs.
Proof.
  revert rs. induction ls as [|l ls IH]; intros [|r rs]; cbn [sameLevelLayout]; try done.
  intros H. breflect. f_equal; auto.
Qed.

Lemma carry_spec w p l :
  window_ok w →
  (∀ i, levels w !! i = Some l → carry (levels w) (index_levels 0 ∅ (levels w)) p l = point_fact p (Z.of_nat i)) ∧
  (l ∉ levels w → carry (levels w) (index_levels 0 ∅ (levels w)) p l = None).
Proof.
  intros Hw. unfold carry. split.
  - intros i Hi. rewrite (index_levels_at _ 0 ∅ i l) by (done || apply Hw). simpl. rewrite Hi. simpl. by rewrite decide_True.
  - intros Hl. destruct (index_levels 0 ∅ (levels w) !! levelID l) as [k|] eqn:Hk; simpl; [|done].
    destruct (levels w !! k) as [old|] eqn:Hold; simpl; [|done]. case_decide as Hfp; [|done].
    destruct (decide (Exists (λ o, levelID o = levelID l) (levels w))) as [Hex|Hno].
    + apply Exists_exists in Hex as (o & Ho & Hid). apply list_elem_of_lookup in Ho as [j Hj].
      rewrite <- Hid in Hk. rewrite (index_levels_at _ 0 ∅ j o) in Hk by (done || apply Hw).
      injection Hk as <-. simpl in Hold. simplify_eq. destruct Hl.
      apply list_elem_of_lookup. exists j. rewrite Hold. f_equal. destruct old, l. simpl in *. congruence.
    + rewrite index_levels_other in Hk; [done|]. intros o Ho Hid. apply Hno. apply Exists_exists. eauto.
Qed.

(** The points of the re-aligned window, before the empty ones are dropped. *)
Lemma align_points_fact w newLevels t k l :
  window_ok w → newLevels !! k = Some l →
  let oldIndex := index_levels 0 ∅ (levels w) in
  fact_at (align_point (levels w) newLevels oldIndex <$> points w) t (Z.of_nat k)
  = p ← find_time (points w) t; carry (levels w) oldIndex p l.
Proof.
  intros Hw Hk oldIndex. unfold fact_at, find_time.
  induction (points w) as [|p pts IH]; cbn [fmap list_fmap]; [done|].
  destruct (align_point_spec (levels w) newLevels oldIndex p) as (Ht & _ & _ & Hf).
  rewrite !filter_cons, Ht. case_decide; [|done]. simpl. by apply Hf.
Qed.

Lemma align_points_ok w newLevels :
  window_ok w →
  let oldIndex := index_levels 0 ∅ (levels w) in
  let pts := align_point (levels w) newLevels oldIndex <$> points w in
  StronglySorted before pts ∧ Forall (λ p, bitmaps_ok (length newLevels) (valid p) (anomalous p)) pts ∧
  Forall (λ p, 0 ≤ sourceTime p) pts.
Proof.
  intros Hw oldIndex pts. subst pts. split_and!.
  - pose proof (window_sorted _ Hw) as Hs. induction Hs as [|p pts _ IH Hlt]; cbn [fmap list_fmap]; [constructor|].
    constructor; [done|]. apply Forall_fmap. eapply Forall_impl; [exact Hlt|]. intros p' Hp'. unfold before, compose in *.
    by destruct (align_point_spec (levels w) newLevels oldIndex p) as (-> & _), (align_point_spec (levels w) newLevels oldIndex p') as (-> & _).
  - apply Forall_fmap, Forall_true. intros p. apply align_point_spec.
  - apply Forall_fmap. eapply Forall_impl; [exact (window_points _ Hw)|]. intros p [_ _ Ht]. unfold compose.
    by destruct (align_point_spec (levels w) newLevels oldIndex p) as (-> & _).
Qed.

(** Re-aligning a window to new requirements leaves it well formed, with the
    Levels the requirements name, in ID order. A Level that keeps its ID and
    fingerprint keeps everything the window knew of it, wherever its bit moved; a
    Level that is new, or whose fingerprint changed, starts with nothing known. *)
Lemma align_carries w rs w' :
  window_ok w → Forall requirement_in_range rs → Align w rs = Ok w' →
  window_ok w' ∧
  (∀ l, l ∈ levels w' ↔ ∃ r, r ∈ rs ∧ levelID l = req_LevelID r ∧
                             decodeDigest32 (req_DetectFingerprint r) = Ok (detectFingerprint l)) ∧
  ∀ k l t, levels w' !! k = Some l →
    (∀ i, levels w !! i = Some l → known w' t (Z.of_nat k) = known w t (Z.of_nat i)) ∧
    (l ∉ levels w → known w' t (Z.of_nat k) = None).
Proof.
  intros Hw Hin ([normalized byLevel] & Hn & (newLevels & Hmk & H)%bind_Ok)%bind_Ok.
  destruct (normalizeRequirements_ok _ _ _ Hin Hn) as (Hperm & Hok & Hs & Hby).
  destruct (levels_of_requirements _ _ byLevel Hmk Hok Hs Hby) as [Hls Hreq].
  assert (∀ l, l ∈ newLevels ↔ ∃ r, r ∈ rs ∧ levelID l = req_LevelID r ∧
                    decodeDigest32 (req_DetectFingerprint r) = Ok (detectFingerprint l)) as Hnames.
  { intros l. setoid_rewrite <- Hperm. by apply make_levels_elem. }
  destruct (sameLevelLayout _ _) eqn:Hsame; injection H as <-; simpl.
  - apply sameLevelLayout_eq in Hsame. rewrite Hsame. split_and!; [|done|].
    + split; simpl; rewrite ?Hsame; try done; rewrite <- ?Hsame; apply Hw.
    + intros k l t Hk. rewrite <- Hsame in Hk |- *. split; [|intros []; by eapply list_elem_of_lookup_2].
      intros i Hi. assert (i = k) as ->; [|done]. by eapply search_level_inj.
  - destruct (align_points_ok w newLevels Hw) as (Hps & Hpb & Hpt). split_and!; [|done|].
    + split; simpl; [done| |by apply sorted_filter|done].
      apply Forall_forall. intros p [Hany Hp]%list_elem_of_filter. rewrite Forall_forall in Hpb, Hpt.
      split; [by apply Hpb|done|by apply (Hpt p)].
    + intros k l t Hk. unfold known. simpl.
      rewrite (fact_at_any (length newLevels)) by done. rewrite (align_points_fact w newLevels t k l) by done.
      unfold fact_at. split; intros; (destruct (find_time (points w) t) as [p|]; simpl; [|done]);
        by apply (carry_spec w p l Hw).
Qed.

(** A new window is well formed, empty and unchanged, with the Levels its
    requirements name. *)
Lemma NewWindow_ok rs w :
  Forall requirement_in_range rs → NewWindow rs = Ok w →
  window_ok w ∧ points w = [] ∧ changed w = false ∧
  ∀ l, l ∈ levels w ↔ ∃ r, r ∈ rs ∧ levelID l = req_LevelID r ∧
                           decodeDigest32 (req_DetectFingerprint r) = Ok (detectFingerprint l).
Proof.
  intros Hin (w0 & ([normalized byLevel] & Hn & (newLevels & Hmk & H)%bind_Ok)%bind_Ok & [= <-])%bind_Ok.
  destruct (normalizeRequirements_ok _ _ _ Hin Hn) as (Hperm & Hok & Hs & Hby).
  destruct (levels_of_requirements _ _ byLevel Hmk Hok Hs Hby) as [Hls Hreq].
  assert (levels w0 = newLevels ∧ points w0 = [] ∧ requirements w0 = byLevel) as (-> & -> & ->).
  { destruct newLevels; by injection H as <-. }
  split_and!; [|done..|].
  - split; simpl; [done|constructor|constructor|done].
  - intros l. setoid_rewrite <- Hperm. by apply make_levels_elem.
Qed.
