(* ===== verification/WindowHistory.v ===== *)
(** The Level history read from the runtime window ([Window.History]): what the
    walk of [SummarizeHolesContext] reports of the required positions, and that
    the view represents the facts the window knows, as the trigger needs them. *)
From S2P Require Import Prelude Reason GoHash History Window WindowInvariant WindowApply.

Open Scope Z_scope.

(** ** The view of one Level *)

Record view_ok (v : view) : Prop := {
  view_window : window_ok (v_window v);
  view_level : 0 ≤ v_levelIndex v < Z.of_nat (length (levels (v_window v)));
  view_requirement : requirement_ok (v_requirement v);
}.

(** What the view knows at a source time. *)
Definition view_fact (v : view) (t : Z) : option bool := known (v_window v) t (v_levelIndex v).

Lemma search_level_at w k l :
  window_ok w → levels w !! k = Some l → search_level (levels w) (levelID l) = k.
Proof.
  intros Hw Hk. pose proof (window_levels _ Hw) as Hs. unfold search_level.
  set (pos := search_list _ _).
  destruct (search_list_split _ (λ level, levelID l <=? levelID level) (levels w) Hs) as [Hlo Hhi].
  { simpl. intros x y Hxy Hx. breflect. apply Z.leb_le. lia. }
  fold pos in Hlo, Hhi. destruct (Nat.lt_trichotomy pos k) as [H|[H|H]]; [|done|].
  - destruct (lookup_lt_is_Some_2 (levels w) pos) as [l' Hl']; [apply lookup_lt_Some in Hk; lia|].
    pose proof (sorted_lookup _ _ _ _ _ _ Hs Hl' Hk H) as Hlt. simpl in Hlt.
    assert (levelID l <=? levelID l' = true) as Hge; [|breflect; lia].
    rewrite Forall_forall in Hhi. apply Hhi. apply list_elem_of_lookup. exists 0%nat.
    by rewrite lookup_drop, Nat.add_0_r.
  - assert (levelID l <=? levelID l = false) as Hlt; [|breflect; lia].
    rewrite Forall_forall in Hlo. apply Hlo. apply list_elem_of_lookup. exists k. by rewrite lookup_take_lt.
Qed.

(** [History] finds the view of every Level the window has, and of no other ID. *)
Lemma History_spec w id :
  window_ok w →
  match History w id with
  | Some v => view_ok v ∧ v_window v = w ∧
              ∃ l, levels w !! Z.to_nat (v_levelIndex v) = Some l ∧ levelID l = id
  | None => ∀ l, l ∈ levels w → levelID l ≠ id
  end.
Proof.
  intros Hw. unfold History. destruct (levels w !! search_level (levels w) id) as [l|] eqn:Hl.
  - destruct (Z.eqb_spec (levelID l) id) as [Hid|Hid]; simpl.
    + destruct (window_requirements _ Hw l) as (r & Hr & Hok); [by eapply list_elem_of_lookup_2|].
      rewrite Hid in Hr. rewrite Hr. simpl. split_and!; [split; simpl|done|].
      * done.
      * apply lookup_lt_Some in Hl. lia.
      * done.
      * exists l. by rewrite Nat2Z.id.
    + intros l' (k & Hk)%list_elem_of_lookup <-. rewrite (search_level_at w k l') in Hl by done. congruence.
  - intros l' (k & Hk)%list_elem_of_lookup <-. rewrite (search_level_at w k l') in Hl by done. congruence.
Qed.

(** ** The walk *)

(** The required positions: [n] source times, [interval] apart. *)
Definition positions (start interval : Z) (n : nat) : list Z :=
  (λ k : nat, start + Z.of_nat k * interval) <$> seq 0 n.

Lemma walk_loop_positions v limit interval n st start :
  (0 < n)%nat → 0 < interval → 0 ≤ start → start + Z.of_nat (n - 1) * interval ≤ maxInt64 →
  walk_loop n v limit interval (start + Z.of_nat (n - 1) * interval) st start
  = foldl (walk_step v limit) st (positions start interval n).
Proof.
  intros Hn Hi. revert st start. destruct n as [|n]; [lia|]. clear Hn.
  induction n as [|n IH]; intros st start H0 Hmax; cbn [walk_loop].
  - destruct (Z.eqb_spec start (start + Z.of_nat (1 - 1) * interval)) as [_|Hne]; [|simpl in Hne; lia].
    unfold positions. simpl. f_equal. lia.
  - destruct (Z.eqb_spec start (start + Z.of_nat (S (S n) - 1) * interval)) as [He|_]; [nia|].
    rewrite i64_id by (assert (interval ≤ Z.of_nat (S (S n) - 1) * interval) by nia; go_lia).
    replace (start + Z.of_nat (S (S n) - 1) * interval) with ((start + interval) + Z.of_nat (S n - 1) * interval) by lia.
    change (walk_loop (S n) v limit interval (start + interval + Z.of_nat (S n - 1) * interval)
              (walk_step v limit st start) (start + interval) =
            foldl (walk_step v limit) st (positions start interval (S (S n)))).
    rewrite IH by (try lia; nia). unfold positions.
    change (seq 0 (S (S n))) with (0%nat :: seq 1 (S n)). rewrite fmap_cons. cbn [foldl].
    f_equal; [f_equal; lia|]. rewrite <- fmap_S_seq, <- list_fmap_compose. apply list_fmap_ext.
    intros _ k _. unfold compose. lia.
Qed.

(** What the walk has found over the positions [ps]. *)
Definition observed (v : view) (t : Z) : bool := bool_decide (is_Some (view_fact v t)).
Definition absent (v : view) (t : Z) : bool := bool_decide (pointAt v t = None).

Definition observed_positions (v : view) (ps : list Z) : list Z := filter (λ t, observed v t = true) ps.
Definition anomalous_positions (v : view) (ps : list Z) : list Z := filter (λ t, view_fact v t = Some true) ps.
Definition missing_positions (v : view) (ps : list Z) : list Z := filter (λ t, absent v t = true) ps.
Definition unusable_positions (v : view) (ps : list Z) : list Z :=
  filter (λ t, absent v t = false ∧ observed v t = false) ps.

(** A hole after an observed position, and a hole before every observed one. *)
Definition gap (v : view) (ps : list Z) : Prop :=
  ∃ i j ti tj, (i < j)%nat ∧ ps !! i = Some ti ∧ ps !! j = Some tj ∧ observed v ti = true ∧ observed v tj = false.

Record walked (v : view) (limit : nat) (ps : list Z) (st : walk) : Prop := {
  walked_seen : w_seenValid st = true ↔ ∃ t, t ∈ ps ∧ observed v t = true;
  walked_gap : w_gapAfterFirst st = true ↔ gap v ps;
  walked_holes : w_gapAfterFirst st || w_missingBeforeFirst st = true ↔ ∃ t, t ∈ ps ∧ observed v t = false;
  walked_valid : w_valid st = Z.of_nat (length (observed_positions v ps));
  walked_anomalies : w_anomalies st = Z.of_nat (length (anomalous_positions v ps));
  walked_hashed : w_hashed st = concat (put_uint64 <$> anomalous_positions v ps);
  walked_missing : Missing (w_holes st) = take limit (missing_positions v ps);
  walked_missing_total : MissingTotal (w_holes st) = Z.of_nat (length (missing_positions v ps));
  walked_unusable : Unusable (w_holes st) = take limit (unusable_positions v ps);
  walked_unusable_total : UnusableTotal (w_holes st) = Z.of_nat (length (unusable_positions v ps));
}.

Lemma append_limited_take limit l t : append_limited limit (take limit l) t = take limit (l ++ [t]).
Proof.
  unfold append_limited. rewrite length_take. destruct (Nat.ltb_spec (Nat.min limit (length l)) limit) as [Hlt|Hge].
  - rewrite !take_ge; [done|rewrite length_app; simpl; lia|lia].
  - rewrite take_app_le by lia. done.
Qed.

Lemma gap_snoc v ps t :
  gap v (ps ++ [t]) ↔ gap v ps ∨ (observed v t = false ∧ ∃ t', t' ∈ ps ∧ observed v t' = true).
Proof.
  split.
  - intros (i & j & ti & tj & Hij & Hi & Hj & Ho & Hn).
    apply lookup_app_Some in Hj as [Hj|[Hlen Hj]].
    + left. exists i, j, ti, tj. rewrite lookup_app_l in Hi by (apply lookup_lt_Some in Hj; lia). done.
    + right. destruct (j - length ps)%nat eqn:Hd; simplify_eq/=. split; [done|]. exists ti. split; [|done].
      apply list_elem_of_lookup. exists i. rewrite lookup_app_l in Hi by lia. done.
  - intros [(i & j & ti & tj & Hij & Hi & Hj & Ho & Hn)|(Hn & t' & (i & Hi)%list_elem_of_lookup & Ho)].
    + exists i, j, ti, tj. by rewrite !lookup_app_l by (by eapply lookup_lt_Some).
    + exists i, (length ps), t', t. pose proof (lookup_lt_Some _ _ _ Hi).
      rewrite lookup_app_l by done. rewrite list_lookup_middle by done. done.
Qed.

Lemma view_fact_pointAt v t :
  view_ok v → view_fact v t = p ← pointAt v t; point_fact p (v_levelIndex v).
Proof. intros Hv. unfold view_fact, known, fact_at. by rewrite pointAt_find by apply Hv. Qed.

(** How one step of the walk sees a position. *)
Lemma walk_step_cases v limit st t :
  view_ok v →
  match view_fact v t with
  | Some b =>
      absent v t = false ∧
      walk_step v limit st t =
        mkWalk true (w_missingBeforeFirst st) (w_gapAfterFirst st) (u32 (w_valid st + 1))
          (if b then u32 (w_anomalies st + 1) else w_anomalies st)
          (if b then w_hashed st ++ put_uint64 t else w_hashed st) (w_holes st)
  | None =>
      let h := w_holes st in
      walk_step v limit st t =
        mkWalk (w_seenValid st) (w_missingBeforeFirst st || negb (w_seenValid st))
          (w_gapAfterFirst st || w_seenValid st) (w_valid st) (w_anomalies st) (w_hashed st)
          (if absent v t
           then mkHoles (append_limited limit (Missing h) t) (u32 (MissingTotal h + 1)) (Unusable h) (UnusableTotal h)
           else mkHoles (Missing h) (MissingTotal h) (append_limited limit (Unusable h) t) (u32 (UnusableTotal h + 1)))
  end.
Proof.
  intros Hv. rewrite view_fact_pointAt by done. unfold walk_step, absent.
  destruct (pointAt v t) as [p|]; simpl.
  - unfold point_fact, bit_fact. destruct (bitSet (valid p) _); simpl; [|done].
    by destruct (bitSet (anomalous p) _).
  - done.
Qed.

Lemma filter_snoc {A} (P : A → Prop) `{∀ x, Decision (P x)} (l : list A) x :
  filter P (l ++ [x]) = if decide (P x) then filter P l ++ [x] else filter P l.
Proof. rewrite filter_app, filter_cons. case_decide; [done|by rewrite app_nil_r]. Qed.

Lemma count_filter_le {A} (P : A → Prop) `{∀ x, Decision (P x)} (l : list A) x k :
  Z.of_nat (length (l ++ [x])) ≤ maxUint32 → k = Z.of_nat (length (filter P l)) →
  u32 (k + 1) = Z.of_nat (length (filter P l ++ [x])).
Proof.
  intros Hmax ->. pose proof (length_filter P l). rewrite length_app in Hmax |- *. simpl in *.
  rewrite u32_id by go_lia. lia.
Qed.

Lemma walked_step v limit ps st t :
  view_ok v → Z.of_nat (length (ps ++ [t])) ≤ maxUint32 →
  walked v limit ps st → walked v limit (ps ++ [t]) (walk_step v limit st t).
Proof.
  intros Hv Hmax []. pose proof (walk_step_cases v limit st t Hv) as Hstep.
  assert (∀ P : Z → Prop, (∃ t', t' ∈ ps ++ [t] ∧ P t') ↔ (∃ t', t' ∈ ps ∧ P t') ∨ P t) as Hex by set_solver.
  destruct (view_fact v t) as [b|] eqn:Hf.
  - destruct Hstep as [Habs ->].
    assert (observed v t = true) as Hobs by (unfold observed; rewrite Hf; by apply bool_decide_eq_true_2).
    split; simpl; unfold observed_positions, anomalous_positions, missing_positions, unusable_positions in *;
      rewrite ?filter_snoc, ?Hf, ?Habs, ?Hobs, ?gap_snoc, ?Hex, ?Hobs; simpl.
    + naive_solver.
    + rewrite walked_gap0. naive_solver.
    + rewrite walked_holes0. naive_solver.
    + by apply count_filter_le.
    + destruct b; simpl; [by apply count_filter_le|done].
    + destruct b; simpl; [|done]. rewrite fmap_app, concat_app, walked_hashed0. done.
    + done.
    + done.
    + done.
    + done.
  - simpl in Hstep. rewrite Hstep.
    assert (observed v t = false) as Hobs by (unfold observed; rewrite Hf; by apply bool_decide_eq_false_2; intros []).
    split; simpl; unfold observed_positions, anomalous_positions, missing_positions, unusable_positions in *;
      rewrite ?filter_snoc, ?Hf, ?Hobs, ?gap_snoc, ?Hex, ?Hobs; simpl.
    + naive_solver.
    + rewrite orb_true_iff, walked_gap0, walked_seen0. naive_solver.
    + split; [intros _; by right|intros _]. destruct (w_seenValid st); simpl; by rewrite ?orb_true_r.
    + done.
    + done.
    + done.
    + destruct (absent v t); simpl; [|done]. by rewrite walked_missing0, append_limited_take.
    + destruct (absent v t); simpl; [|done]. by apply count_filter_le.
    + destruct (absent v t); simpl; [done|].
      by rewrite walked_unusable0, append_limited_take.
    + destruct (absent v t); simpl; [done|].
      by apply count_filter_le.
Qed.

Lemma walked_fold v limit ps :
  view_ok v → Z.of_nat (length ps) ≤ maxUint32 →
  walked v limit ps (foldl (walk_step v limit) walk_start ps).
Proof.
  intros Hv. induction ps as [|t ps IH] using rev_ind; intros Hmax.
  - assert (∀ P : Z → Prop, false = true ↔ ∃ t, t ∈ [] ∧ P t) as Hnil by (split; set_solver).
    split; simpl; try done; [|by destruct limit..].
    split; [done|]. by intros (i & j & ti & tj & _ & Hi & _).
  - rewrite foldl_app. simpl. apply walked_step; [done|done|]. apply IH. rewrite length_app in Hmax. lia.
Qed.

(** ** The summary *)

Definition required (v : view) (n : Z) : Z := if n =? 0 then RequiredPoints (v_requirement v) else n.
Definition interval_of (v : view) : Z := Z.quot (EvaluationInterval (v_requirement v)) Second.
Definition start_of (v : view) (endTime n : Z) : Z := endTime - (required v n - 1) * interval_of v.

(** The summary is refused when more positions are asked for than are retained,
    or when they reach back before time zero. *)
Definition answerable (v : view) (endTime n : Z) : bool :=
  (0 <? required v n) && (required v n <=? RetentionPoints (v_requirement v)) && (0 <=? start_of v endTime n).

Definition required_positions (v : view) (endTime n : Z) : list Z :=
  positions (start_of v endTime n) (interval_of v) (Z.to_nat (required v n)).

Definition completeness_of (st : walk) (n : Z) : string :=
  if w_gapAfterFirst st then HistoryGapped
  else if w_missingBeforeFirst st || (w_valid st <? n) then HistoryWarming
  else HistoryFull.

Lemma required_range v n : view_ok v → is_u32 n → is_u32 (required v n).
Proof.
  intros Hv Hn. destruct (view_requirement _ Hv) as [? ? _ _ _]. unfold required.
  destruct (n =? 0); [|done]. go_lia.
Qed.

(** Nothing wraps: the code computes the positions the requirement means. *)
Lemma SummarizeHoles_eq v endTime n limit :
  view_ok v → is_u32 n → is_i64 endTime →
  SummarizeHolesContext v endTime n limit =
  if answerable v endTime n then
    let st := foldl (walk_step v limit) walk_start (required_positions v endTime n) in
    (mkHistorySummary (completeness_of st (required v n)) (start_of v endTime n) endTime (w_valid st)
       (required v n) (w_anomalies st) (sum256 (w_hashed st)), w_holes st)
  else (mkHistorySummary HistoryWarming 0 endTime 0 (required v n) 0 (replicate 32 0), no_holes).
Proof.
  intros Hv Hn He. pose proof (required_range v n Hv Hn) as Hr.
  destruct (view_requirement _ Hv) as [Hpts Hret Hint Hlate Hhor].
  unfold SummarizeHolesContext, answerable, start_of, required_positions, interval_of in *.
  fold (required v n). set (r := required v n) in *.
  set (i := Z.quot (EvaluationInterval (v_requirement v)) Second) in *.
  destruct (Z.eqb_spec r 0) as [Hz|Hz]; simpl.
  { rewrite Hz. done. }
  destruct (Z.ltb_spec (RetentionPoints (v_requirement v)) r) as [Hmore|Hmore]; simpl.
  { destruct (Z.leb_spec r (RetentionPoints (v_requirement v))); [lia|]. by rewrite andb_false_r. }
  destruct (Z.leb_spec i 0); [lia|]. simpl.
  assert (0 ≤ r) by go_lia. assert ((r - 1) * i ≤ maxInt64) by nia. assert (0 ≤ (r - 1) * i) by nia.
  rewrite u32_id by go_lia. rewrite i64_id by go_lia.
  assert (Z.quot maxInt64 i <? r - 1 = false) as ->.
  { apply Z.ltb_ge. apply Z.quot_le_lower_bound; [lia|]. lia. }
  destruct (Z.ltb_spec 0 r); [|lia]. destruct (Z.leb_spec r (RetentionPoints (v_requirement v))); [|lia]. simpl.
  rewrite orb_false_r. destruct (Z.ltb_spec endTime 0) as [Hneg|Hneg]; simpl.
  { destruct (Z.leb_spec 0 (endTime - (r - 1) * i)); [lia|done]. }
  destruct (Z.ltb_spec endTime ((r - 1) * i)) as [Hshort|Hshort]; destruct (Z.leb_spec 0 (endTime - (r - 1) * i)); try lia; [done|].
  replace (walk_loop _ _ _ _ endTime _ _) with
    (foldl (walk_step v limit) walk_start (positions (endTime - (r - 1) * i) i (Z.to_nat r))); [done|].
  rewrite <- walk_loop_positions by (try lia; rewrite ?Nat2Z.inj_sub, ?Z2Nat.id by lia; go_lia).
  f_equal. rewrite Nat2Z.inj_sub, Z2Nat.id by lia. lia.
Qed.

Lemma absent_not_observed v t : view_ok v → absent v t = true → observed v t = false.
Proof.
  intros Hv Ha. unfold absent, observed in *. breflect. rewrite view_fact_pointAt, Ha by done.
  apply bool_decide_eq_false_2. by intros [].
Qed.

Lemma positions_partition v ps :
  view_ok v →
  (length (observed_positions v ps) + length (missing_positions v ps) + length (unusable_positions v ps) = length ps)%nat.
Proof.
  intros Hv. unfold observed_positions, missing_positions, unusable_positions.
  induction ps as [|t ps IH]; [done|]. rewrite !filter_cons. cbn [length].
  pose proof (absent_not_observed v t Hv).
  destruct (observed v t), (absent v t); repeat case_decide; cbn [length]; naive_solver lia.
Qed.

(** The summary of a Level history is the truth about the required positions:
    the last one is the asked end, [FULL] says that every one is observed,
    [GAPPED] that a hole follows an observed one, [WARMING] the rest; the counts,
    the digest and the two hole lists are those of the positions the window knows,
    knows as anomalous, has no point for, and has no usable fact for, and these
    are all of them. A request past the retention, or before time zero, is
    [WARMING] with nothing counted. *)
Lemma summarize_spec v endTime n limit :
  view_ok v → is_u32 n → is_i64 endTime →
  let '(s, holes) := SummarizeHolesContext v endTime n limit in
  let ps := required_positions v endTime n in
  RequiredPositions s = required v n ∧ WindowEnd s = endTime ∧
  if answerable v endTime n then
    WindowStart s = start_of v endTime n ∧ last ps = Some endTime ∧
    (Completeness s = HistoryFull ↔ ∀ t, t ∈ ps → is_Some (view_fact v t)) ∧
    (Completeness s = HistoryGapped ↔ gap v ps) ∧
    Completeness s ∈ [HistoryFull; HistoryWarming; HistoryGapped] ∧
    ValidPositions s = Z.of_nat (length (observed_positions v ps)) ∧
    AnomalyCount s = Z.of_nat (length (anomalous_positions v ps)) ∧
    AnomalyDigest s = sum256 (concat (put_uint64 <$> anomalous_positions v ps)) ∧
    Missing holes = take limit (missing_positions v ps) ∧
    MissingTotal holes = Z.of_nat (length (missing_positions v ps)) ∧
    Unusable holes = take limit (unusable_positions v ps) ∧
    UnusableTotal holes = Z.of_nat (length (unusable_positions v ps)) ∧
    ValidPositions s + MissingTotal holes + UnusableTotal holes = RequiredPositions s
  else Completeness s = HistoryWarming ∧ ValidPositions s = 0 ∧ AnomalyCount s = 0 ∧ holes = no_holes.
Proof.
  intros Hv Hn He. rewrite SummarizeHoles_eq by done. pose proof (required_range v n Hv Hn) as Hr.
  destruct (answerable v endTime n) eqn:Hans; simpl; [|done].
  set (ps := required_positions v endTime n).
  assert (length ps = Z.to_nat (required v n)) as Hlen.
  { unfold ps, required_positions, positions. by rewrite length_fmap, length_seq. }
  unfold answerable in Hans. breflect.
  destruct (walked_fold v limit ps Hv) as [_ Hgap Hholes Hvalid Hanom Hhash Hm Hmt Hu Hut]; [rewrite Hlen; go_lia|].
  set (st := foldl _ _ _) in *. pose proof (positions_partition v ps Hv) as Hpart.
  rewrite Hvalid, Hanom, Hhash, Hm, Hmt, Hu, Hut.
  split_and!; try done; [| | | |lia].
  - unfold ps, required_positions, positions. destruct (Z.to_nat (required v n)) as [|k] eqn:Hk; [lia|].
    rewrite seq_S, fmap_app, fmap_cons, fmap_nil, last_snoc. f_equal. unfold start_of. nia.
  - unfold completeness_of. split.
    + intros Hfull t Ht. destruct (view_fact v t) eqn:Hf; [eauto|].
      assert (w_gapAfterFirst st || w_missingBeforeFirst st = true) as Hhole.
      { apply Hholes. exists t. split; [done|]. unfold observed. rewrite Hf. by apply bool_decide_eq_false_2; intros []. }
      destruct (w_gapAfterFirst st), (w_missingBeforeFirst st); done.
    + intros Hall. assert (¬ (w_gapAfterFirst st || w_missingBeforeFirst st = true)) as Hno.
      { rewrite Hholes. intros (t & Ht & Ho). unfold observed in Ho. breflect. auto. }
      destruct (w_gapAfterFirst st), (w_missingBeforeFirst st); try done. simpl. rewrite (proj2 (Z.ltb_ge _ _)); [done|].
      assert (observed_positions v ps = ps) as Hobs.
      { apply filter_every. intros t Ht. apply bool_decide_eq_true_2. auto. }
      rewrite Hvalid, Hobs. lia.
  - rewrite <- Hgap. unfold completeness_of. destruct (w_gapAfterFirst st); [done|]. by repeat case_match.
  - unfold completeness_of. repeat case_match; set_solver.
Qed.

(** ** The view represents what the window knows *)

(** The observed positions of the view's Level, oldest first. *)
Definition observations (v : view) : list (Z * bool) :=
  omap (λ p, (λ b, (sourceTime p, b)) <$> point_fact p (v_levelIndex v)) (points (v_window v)).

Lemma take_until_filter until pts :
  StronglySorted before pts → take_until until pts = filter (λ p, sourceTime p ≤ until) pts.
Proof.
  induction 1 as [|p pts _ IH Hlt]; cbn [take_until]; [done|]. rewrite filter_cons.
  destruct (Z.ltb_spec until (sourceTime p)); case_decide; try lia.
  - rewrite filter_none; [done|]. rewrite Forall_forall in Hlt. intros p' Hp'.
    specialize (Hlt _ Hp'). unfold before in Hlt. lia.
  - by f_equal.
Qed.

Lemma points_between_filter v a b :
  view_ok v → points_between v a b = filter (λ p, a ≤ sourceTime p ≤ b) (points (v_window v)).
Proof.
  intros Hv. pose proof (window_sorted _ (view_window _ Hv)) as Hs. unfold points_between.
  destruct (Z.ltb_spec b a); [rewrite filter_none; [done|]; intros; lia|].
  rewrite take_until_filter by by apply sorted_drop.
  set (pts := points (v_window v)) in *. set (k := search_point pts a).
  destruct (search_point_split pts a Hs) as [Hlo Hhi]. rewrite Forall_forall in Hlo, Hhi.
  transitivity (filter (λ p, a ≤ sourceTime p ≤ b) (take k pts ++ drop k pts)); [|by rewrite take_drop].
  rewrite filter_app, (filter_none _ (take k pts)).
  - apply filter_ext_in. intros p Hp. specialize (Hhi p Hp). simpl in Hhi. lia.
  - intros p Hp. specialize (Hlo p Hp). simpl in Hlo. lia.
Qed.

(** Folding a counter of machine width over a short list counts it. *)
Lemma count_foldl {A} (f : A → bool) (l : list A) k :
  0 ≤ k → k + Z.of_nat (length l) ≤ maxUint32 →
  foldl (λ count x, if f x then u32 (count + 1) else count) k l
  = k + Z.of_nat (length (filter (λ x, f x = true) l)).
Proof.
  revert k. induction l as [|x l IH]; intros k Hk Hmax; cbn [foldl]; [simpl; lia|].
  rewrite filter_cons. cbn [length] in Hmax. destruct (f x).
  - rewrite u32_id by go_lia. rewrite IH by lia. rewrite decide_True by done. cbn [length]. lia.
  - rewrite IH by lia. rewrite decide_False by done. lia.
Qed.

Lemma visit_count times : ∀ k,
  visit_until (λ count (_ : Z), (u32 (count + 1), true)) k times = foldl (λ count (_ : Z), u32 (count + 1)) k times.
Proof. induction times as [|t times IH]; intros k; simpl; [done|]. apply IH. Qed.

(** The observations in a range are the points in it the Level has a fact at. *)
Lemma observed_in_points v a b :
  view_ok v →
  observed_in (observations v) a b =
  omap (λ p, (λ x, (sourceTime p, x)) <$> point_fact p (v_levelIndex v)) (points_between v a b).
Proof.
  intros Hv. rewrite points_between_filter by done. unfold observed_in, observations.
  induction (points (v_window v)) as [|p pts IH]; [done|]. rewrite filter_cons. cbn [omap list_omap].
  destruct (decide (a ≤ sourceTime p ≤ b)) as [Hin|Hout]; cbn [omap list_omap];
    destruct (point_fact p _) as [x|]; cbn [fmap option_fmap option_map]; try done.
  - rewrite filter_cons_True by done. by rewrite IH.
  - rewrite filter_cons_False by done. by rewrite IH.
Qed.

Lemma anomalies_in_points v a b :
  view_ok v → (anomalies_in (observations v) a b).*1 = anomalies_between v a b.
Proof.
  intros Hv. unfold anomalies_in, anomalies_between. rewrite observed_in_points by done.
  induction (points_between v a b) as [|p pts IH]; [done|]. rewrite filter_cons. cbn [omap list_omap].
  unfold point_fact, bit_fact in *. destruct (bitSet (valid p) _); cbn [fmap option_fmap option_map andb]; [|done].
  rewrite filter_cons. cbn [snd]. case_decide; cbn [fmap list_fmap fst]; by rewrite IH.
Qed.

Lemma observations_sorted v : view_ok v → StronglySorted Z.lt (observations v).*1.
Proof.
  intros Hv. pose proof (window_sorted _ (view_window _ Hv)) as Hs. unfold observations.
  induction Hs as [|p pts _ IH Hlt]; cbn [omap list_omap]; [constructor|].
  destruct (point_fact p _) as [x|]; cbn [fmap option_fmap option_map]; [|done]. constructor; [done|].
  apply Forall_forall. intros t ([t' x'] & -> & Ht)%list_elem_of_fmap. simpl.
  apply list_elem_of_omap in Ht as (p' & Hp' & Heq). destruct (point_fact p' _); simplify_eq/=.
  rewrite Forall_forall in Hlt. by apply Hlt.
Qed.

Lemma points_between_length v a b : view_ok v → (length (points_between v a b) ≤ length (points (v_window v)))%nat.
Proof. intros Hv. rewrite points_between_filter by done. apply length_filter. Qed.

Lemma window_represents v completeness :
  view_ok v → Z.of_nat (length (points (v_window v))) ≤ maxUint32 →
  represents (mkHistoryView v completeness) (observations v).
Proof.
  intros Hv Hmax. split; simpl.
  - by apply observations_sorted.
  - unfold observations. set (f := λ p, _). pose proof (length_omap f (points (v_window v))). lia.
  - intros a b. unfold view_CountAnomalies, view_ForEachAnomaly. rewrite visit_count.
    rewrite <- (length_fmap fst (anomalies_in _ _ _)), anomalies_in_points by done.
    rewrite (count_foldl (λ _, true)); [|done|].
    + by rewrite filter_every.
    + unfold anomalies_between. rewrite length_fmap.
      pose proof (length_filter (λ point, bitSet (valid point) (v_levelIndex v) && bitSet (anomalous point) (v_levelIndex v) = true) (points_between v a b)).
      pose proof (points_between_length v a b Hv). lia.
  - intros a b. unfold view_CountObserved. pose proof (points_between_length v a b Hv).
    rewrite count_foldl by lia. rewrite observed_in_points, Z.add_0_l by done. f_equal.
    clear H. induction (points_between v a b) as [|p pts IH]; [done|]. rewrite filter_cons. cbn [omap list_omap].
    unfold point_fact, bit_fact in *. destruct (bitSet (valid p) _); cbn [fmap option_fmap option_map length decide decide_rel bool_eq_dec].
    + rewrite decide_True by done. cbn [length]. by rewrite IH.
    + rewrite decide_False by done. done.
  - intros a b. unfold view_FirstAnomaly, view_ForEachAnomaly. rewrite <- anomalies_in_points by done.
    by destruct (anomalies_in (observations v) a b).
Qed.

Lemma elem_of_observations v t b :
  view_ok v → (t, b) ∈ observations v ↔ view_fact v t = Some b.
Proof.
  intros Hv. unfold observations, view_fact, known, fact_at. rewrite list_elem_of_omap. split.
  - intros (p & Hp & Heq). destruct (point_fact p _) eqn:Hf; simplify_eq/=.
    rewrite (proj2 (find_time_Some _ _ p (window_sorted _ (view_window _ Hv)))) by done. done.
  - intros (p & Hp & Hf)%bind_Some. apply find_time_Some in Hp as [Hp <-]; [|apply Hv].
    exists p. split; [done|]. by rewrite Hf.
Qed.

(** The view the trigger reads is an implementation of its history interface:
    the counts and the first anomaly of any range are those of the facts the
    window knows there. *)
Lemma view_represents v completeness :
  view_ok v → Z.of_nat (length (points (v_window v))) ≤ maxUint32 →
  represents (mkHistoryView v completeness) (observations v) ∧
  ∀ t b, (t, b) ∈ observations v ↔ view_fact v t = Some b.
Proof. intros Hv Hmax. split; [by apply window_represents|]. intros t b. by apply elem_of_observations. Qed.
