(* ===== verification/TriggerWindow.v ===== *)
(** The trigger over the runtime window: the summary the window's view gives is
    one the trigger admits, and a Level whose window holds its plan's grid is
    always evaluated to an end. *)
From S2P Require Import Prelude Reason GoHash TriggerEvent History Trigger RecoveryWalk TriggerLevel.
From S2P Require Import Window WindowInvariant WindowApply WindowHistory.

Open Scope Z_scope.

(** ** The summary *)

(** A completeness the evaluator may force: none, or one that is not FULL. *)
Definition forceable (completeness : string) : Prop := completeness ∈ [""; HistoryWarming; HistoryGapped]%string.

Lemma sha_round_length state kw : length state = 8%nat → length (sha_round state kw) = 8%nat.
Proof. intros H. do 9 (destruct state as [|? state]; try done). Qed.

Lemma sha_block_length state words : length state = 8%nat → length (sha_block state words) = 8%nat.
Proof.
  intros H. unfold sha_block. rewrite length_zip_with, H.
  assert (∀ l s, length s = 8%nat → length (foldl sha_round s l) = 8%nat) as ->; [|done..].
  induction l as [|kw l IH]; intros s Hs; [done|]. by apply IH, sha_round_length.
Qed.

Lemma sha_blocks_length fuel : ∀ state words, length state = 8%nat → length (sha_blocks fuel state words) = 8%nat.
Proof.
  induction fuel as [|fuel IH]; intros state words H; [done|]. destruct words; [done|].
  by apply IH, sha_block_length.
Qed.

Lemma sum256_typed bytes : length (sum256 bytes) = 32%nat ∧ Forall is_byte (sum256 bytes).
Proof.
  unfold sum256. set (words := sha_words (sha_pad bytes)).
  pose proof (sha_blocks_length (length words) sha_init words eq_refl) as H.
  set (state := sha_blocks _ _ _) in *. split.
  - do 9 (destruct state as [|? state]; try done).
  - apply Forall_forall. intros b (x & Hb & _)%list_elem_of_bind. unfold u8 in Hb.
    assert (∀ z, is_byte (z mod 256)) as Hmod by (intros; by apply Z.mod_pos_bound).
    set_solver.
Qed.

Lemma anomalous_le_observed v ps : (length (anomalous_positions v ps) ≤ length (observed_positions v ps))%nat.
Proof.
  unfold anomalous_positions, observed_positions, observed. induction ps as [|t ps IH]; [done|].
  rewrite !filter_cons. destruct (view_fact v t) as [b|]; repeat case_decide; simplify_eq/=; lia || done.
Qed.

(** The summary of a well-formed view for an answerable request. *)
Lemma view_summary v endTime n completeness :
  view_ok v → is_u32 n → is_i64 endTime → answerable v endTime n = true → forceable completeness →
  let s := Summarize (mkHistoryView v completeness) endTime n in
  Completeness s ∈ [HistoryFull; HistoryWarming; HistoryGapped] ∧
  WindowStart s = start_of v endTime n ∧ WindowEnd s = endTime ∧
  0 ≤ AnomalyCount s ≤ ValidPositions s ∧ ValidPositions s ≤ required v n ∧
  (Completeness s = HistoryFull → ValidPositions s = required v n) ∧ digest_typed s.
Proof.
  intros Hv Hn He Hans Hc. simpl. unfold summarizeHoles. cbn [hv_view hv_completeness].
  rewrite SummarizeHoles_eq, Hans by done. cbn zeta iota beta. set (ps := required_positions v endTime n).
  pose proof (required_range v n Hv Hn) as Hr.
  assert (Z.of_nat (length ps) = required v n) as Hlen.
  { unfold ps, required_positions, positions. rewrite length_fmap, length_seq. go_lia. }
  destruct (walked_fold v 0 ps Hv) as [_ _ _ Hvalid Hanom _ _ _ _ _]; [go_lia|].
  set (st := foldl _ _ _) in *. simpl. rewrite Hvalid, Hanom.
  pose proof (length_filter (λ t, observed v t = true) ps) as Hle. fold (observed_positions v ps) in Hle.
  pose proof (anomalous_le_observed v ps) as Han.
  split_and!; try done; try lia; [| |split; apply sum256_typed].
  - destruct (String.eqb_spec completeness "") as [_|Hne]; [|unfold forceable in Hc; set_solver].
    unfold completeness_of. repeat case_match; set_solver.
  - destruct (String.eqb_spec completeness "") as [_|Hne]; [|unfold forceable in Hc; set_solver].
    unfold completeness_of. destruct (w_gapAfterFirst st); [done|]. destruct (w_missingBeforeFirst st); [done|]. simpl.
    rewrite Hvalid. destruct (Z.ltb_spec (Z.of_nat (length (observed_positions v ps))) (required v n)); [done|]. lia.
Qed.

(** The trigger's check admits it. *)
Lemma summary_admitted v t n step completeness :
  view_ok v → is_u32 n → is_u32 step → is_i64 t → n ≠ 0 → step = interval_of v → answerable v t n = true → forceable completeness →
  validateHistorySummaryV2 t n step (Summarize (mkHistoryView v completeness) t n) = Ok tt.
Proof.
  intros Hv Hn Hstep Ht Hn0 Hs Hans Hc.
  destruct (view_summary v t n completeness Hv Hn Ht Hans Hc) as (Hcomp & Hstart & Hend & [Ha0 Hav] & Hval & Hfull & _).
  assert (required v n = n) as Hreq by (unfold required; by rewrite (proj2 (Z.eqb_neq n 0) Hn0)).
  rewrite Hreq in *. unfold answerable in Hans. rewrite Hreq in Hans. breflect.
  unfold start_of in *. rewrite Hreq, <- Hs in *.
  set (s := Summarize _ t n) in *. unfold validateHistorySummaryV2.
  rewrite (bool_decide_eq_true_2 _ Hcomp), Hend, Z.eqb_refl. rewrite u32_id by go_lia. rewrite multiply_spec by go_lia.
  assert (0 ≤ (n - 1) * step) by (unfold is_u32 in *; nia).
  rewrite (proj2 (Z.leb_le ((n - 1) * step) maxInt64)) by go_lia.
  rewrite (proj2 (Z.ltb_ge (WindowStart s) 0)), (proj2 (Z.ltb_ge t (WindowStart s))), (proj2 (Z.ltb_ge n (ValidPositions s))),
    (proj2 (Z.ltb_ge (ValidPositions s) (AnomalyCount s))), (proj2 (Z.ltb_ge t ((n - 1) * step))) by lia.
  rewrite Hstart, Z.eqb_refl. simpl.
  destruct (String.eqb_spec (Completeness s) HistoryFull) as [Hf|]; [|done].
  by rewrite (Hfull Hf), Z.eqb_refl.
Qed.

(** ** The grid *)

Lemma sorted_NoDup (l : list Z) : StronglySorted Z.lt l → NoDup l.
Proof.
  induction 1 as [|x l _ IH Hx]; constructor; [|done]. intros Hin. rewrite Forall_forall in Hx.
  specialize (Hx x Hin). lia.
Qed.

Lemma sublist_fmap_intro {A B} (f : A → B) (l k : list A) : sublist l k → sublist (f <$> l) (f <$> k).
Proof. induction 1; rewrite ?fmap_cons; by constructor. Qed.

(** Times on a grid of [step] ending at [e] number at most the positions of a
    window. *)
Lemma grid_count (l : list Z) e size step :
  0 < step → 0 ≤ size → NoDup l → (∀ x, x ∈ l → e - (size * step - 1) ≤ x ≤ e ∧ (step | e - x)) →
  Z.of_nat (length l) ≤ size.
Proof.
  intros Hstep Hsize Hnd Hl.
  set (f := λ x : Z, (e - x) / step).
  assert (length (f <$> l) ≤ length (seqZ 0 size))%nat as Hle.
  { apply submseteq_length, NoDup_submseteq.
    - apply NoDup_fmap_2_strong; [|done]. intros x y Hx Hy. unfold f.
      destruct (Hl x Hx) as [_ [kx Hkx]], (Hl y Hy) as [_ [ky Hky]].
      rewrite Hkx, Hky, !Z.div_mul by lia. intros ->. lia.
    - intros k (x & -> & Hx)%list_elem_of_fmap. destruct (Hl x Hx) as [[? ?] [kx Hkx]].
      unfold f. apply elem_of_seqZ. rewrite Hkx, Z.div_mul by lia. nia. }
  rewrite length_fmap, length_seqZ in Hle. lia.
Qed.

(** The window's facts lie on the plan's grid. *)
Definition on_grid (v : view) (step t : Z) : Prop :=
  ∀ x b, view_fact v x = Some b → (step | t - x).

Lemma grid_anomalies v completeness step size t s :
  view_ok v → Z.of_nat (length (points (v_window v))) ≤ maxUint32 → is_u32 step → is_u32 size →
  on_grid v step t → windowStartV2 t size step = Some s →
  CountAnomalies (mkHistoryView v completeness) s t ≤ size.
Proof.
  intros Hv Hmax Hstep Hsize Hgrid (-> & Hz & _)%windowStart_spec; [|done..].
  pose proof (window_represents v completeness Hv Hmax) as Hrep. rewrite (represents_anomalies _ _ Hrep).
  rewrite <- (length_fmap fst). apply (grid_count _ t size step).
  - go_lia.
  - go_lia.
  - eapply sublist_NoDup; [eapply sorted_NoDup, (represents_sorted _ _ Hrep)|]. apply sublist_fmap_intro.
    unfold anomalies_in, observed_in. etrans; apply sublist_filter.
  - intros x ([x' b] & -> & [_ [Hin Hx]%list_elem_of_filter]%list_elem_of_filter)%list_elem_of_fmap. simpl.
    apply elem_of_observations in Hx; [|done]. split; [exact Hin|by eapply Hgrid].
Qed.

(** ** Evaluation ends *)

Lemma wrap_is_Ok {A} op id (r : result string A) a : r = Ok a → wrap op id r = Ok a.
Proof. by intros ->. Qed.

(** A window view given to a Level: its requirement keeps the positions the Level
    reads, at the Level's step, and its facts are on the record's grid. *)
Record view_serves (v : view) (level : CompiledLevel) (n t : Z) : Prop := {
  vs_view : view_ok v;
  vs_points : Z.of_nat (length (points (v_window v))) ≤ maxUint32;
  vs_interval : StepSeconds (Trigger level) = interval_of v;
  vs_retained : n ≤ RetentionPoints (v_requirement v);
  vs_walk : Enabled (Recovery level) = true → StateRequirement_RetentionPoints level ≠ 0;
  vs_grid : on_grid v (StepSeconds (Trigger level)) t;
  vs_epoch : n * StepSeconds (Trigger level) ≤ t + 1;
  vs_horizon : t + StepSeconds (Trigger level) ≤ maxInt64;
}.

Section ends.
Context (v : view) (level : CompiledLevel) (n t : Z).
Hypothesis level_ok : level_compiled level.
Hypothesis points_needed : requiredHistoryPointsV2 (Trigger level) (Recovery level) = Some n.
Hypothesis time_ok : 0 ≤ t.
Hypothesis serves : view_serves v level n t.

Lemma serves_answers : is_u32 n ∧ n ≠ 0 ∧ is_i64 t ∧ answerable v t n = true.
Proof.
  destruct serves, level_ok as [[] _ _ _ _].
  apply requiredHistoryPoints_spec in points_needed as (? & _ & ? & Hn & _); [|done..].
  assert (required v n = n) as Hreq by (unfold required; by rewrite (proj2 (Z.eqb_neq n 0)) by lia).
  split_and!; [go_lia|lia|go_lia|]. unfold answerable, start_of. rewrite Hreq, <- vs_interval0.
  rewrite (proj2 (Z.ltb_lt 0 n)), (proj2 (Z.leb_le n _)) by lia. simpl. apply Z.leb_le. unfold is_u32 in *. nia.
Qed.

Lemma serves_window : ∃ s, windowStartV2 t (WindowSize (Trigger level)) (StepSeconds (Trigger level)) = Some s.
Proof.
  destruct serves, level_ok as [[] _ _ _ _].
  apply requiredHistoryPoints_spec in points_needed as (? & _ & ? & Hn & _); [|done..].
  assert (WindowSize (Trigger level) * StepSeconds (Trigger level) ≤ n * StepSeconds (Trigger level)) by (unfold is_u32 in *; nia).
  assert (0 < WindowSize (Trigger level) * StepSeconds (Trigger level)) by (unfold is_u32 in *; nia).
  unfold windowStartV2. rewrite multiply_spec by done.
  rewrite (proj2 (Z.leb_le _ maxInt64)), (proj2 (Z.eqb_neq _ 0)), (proj2 (Z.ltb_ge t _)) by go_lia. eauto.
Qed.

Lemma serves_walk completeness s abnormal :
  windowStartV2 t (WindowSize (Trigger level)) (StepSeconds (Trigger level)) = Some s →
  ∃ w, level_walk level (mkHistoryView v completeness) t s abnormal = Ok w.
Proof.
  intros Hs. destruct serves, level_ok as [Hin _ _ _ _]. pose proof Hin as [].
  unfold level_walk. destruct (_ && _); [|eauto].
  edestruct (recovery_loop_exact (mkHistoryView v completeness) (Trigger level) (ConsecutiveWindows (Recovery level))
    (StateRequirement_RetentionPoints level) t) as (w & Hw & _); [done..|by eapply start_bounds| | | |by eexists];
    simpl; go_lia.
Qed.
End ends.

(** C16: a Level whose inputs are valid, over a window view that serves it, is
    always evaluated: no bound, count or walk of the trigger refuses what the
    runtime window holds. *)
Theorem level_evaluates (request : EvaluationRequestV2 historyView) v level fact completeness effective eligibility n d :
  let t := SourceTime (Record_ request) in
  level_compiled level → requiredHistoryPointsV2 (Trigger level) (Recovery level) = Some n →
  0 ≤ t → view_serves v level n t → forceable completeness →
  EvaluateStateEligibilityV2 (EvaluationTime request) level fact effective = Ok eligibility →
  (fact_usable fact = true → buildDetectEvidenceV2 (Record_ request) fact EffectiveTimeActive = Ok d) →
  ∃ outcome r, evaluateLevelV2 request level fact (mkHistoryView v completeness) effective eligibility = Ok (outcome, r).
Proof.
  intros t Hlevel Hn Ht Hserves Hforce Helig Hd.
  assert (ef_status effective ∈ [EffectiveTimeActive; EffectiveTimeInactive; EffectiveTimeUnknown]) as Hstatus.
  { revert Helig. unfold EvaluateStateEligibilityV2.
    intros (u1 & _ & H)%bind_Ok. apply bind_Ok in H as (u2 & _ & H). apply bind_Ok in H as (e & He & _).
    destruct (bool_decide_reflect (ef_status effective ∈ [EffectiveTimeActive; EffectiveTimeInactive])); [set_solver|].
    destruct (String.eqb_spec (ef_status effective) EffectiveTimeUnknown); [set_solver|done]. }
  unfold evaluateLevelV2. fold (fact_usable fact). destruct (fact_usable fact) eqn:Hu; cbn [negb]; [|eauto].
  rewrite (wrap_is_Ok _ _ _ d (Hd eq_refl)). cbn [mbind result_bind].
  destruct (String.eqb_spec (ef_status effective) EffectiveTimeInactive); [eauto|].
  destruct (String.eqb_spec (ef_status effective) EffectiveTimeUnknown); [eauto|].
  destruct (String.eqb_spec (ef_status effective) EffectiveTimeActive); [cbn [negb]|set_solver].
  destruct (serves_answers v level n t Hlevel Hn Ht Hserves) as (? & ? & ? & Hans).
  destruct (serves_window v level n t Hlevel Hn Hserves) as [s Hs].
  rewrite Hn. cbn [default from_option id]. fold t.
  rewrite (wrap_is_Ok _ _ _ tt); [|by apply summary_admitted; try done; destruct Hlevel as [[] _ _ _ _], Hserves].
  cbn [mbind result_bind]. rewrite Hs.
  assert (WindowSize (Trigger level) <? CountAnomalies (mkHistoryView v completeness) s t = false) as ->.
  { apply Z.ltb_ge. destruct Hlevel as [[] _ _ _ _], Hserves. by apply (grid_anomalies v completeness (StepSeconds (Trigger level))). }
  cbn zeta. set (abnormal := _ && _).
  destruct (serves_walk v level n t Hlevel Ht Hserves completeness s abnormal Hs) as [w Hw].
  assert ((if Enabled (Recovery level) && negb abnormal then
             if StateRequirement_RetentionPoints level =? 0
             then Err (invariantV2 "bound Recovery walk" (def_LevelID (Definition_ level)) "Level retains no positions")
             else wrap "calculate Recovery window" (def_LevelID (Definition_ level))
                    (recovery_loop (Z.to_nat (StateRequirement_RetentionPoints level)) (mkHistoryView v completeness)
                       (Trigger level) (ConsecutiveWindows (Recovery level)) (StateRequirement_RetentionPoints level)
                       t 0 (mkRecoveryWalk 0 0 s))
           else Ok (mkRecoveryWalk 0 0 s)) = Ok w) as ->.
  { unfold level_walk in Hw. destruct (Enabled (Recovery level)) eqn:Hen; [|by injection Hw as <-]. destruct abnormal; [by injection Hw as <-|].
    cbn [andb negb] in *. rewrite (proj2 (Z.eqb_neq (StateRequirement_RetentionPoints level) 0)) by (by apply (vs_walk _ _ _ _ Hserves)). by apply wrap_is_Ok. }
  cbn [mbind result_bind]. destruct (negb abnormal && _ && _); eauto.
Qed.
