(* ===== verification/WindowExamples.v ===== *)
(** The runtime window's theorems at concrete inputs: two Levels over a minute
    grid, a window built for them, and batches applied to it. *)
From Stdlib Require Import Ascii.
From S2P Require Import Prelude Reason GoHash History Window WindowInvariant WindowApply WindowAlign WindowHistory.

Open Scope Z_scope.

Definition hex64 (c : ascii) : string := Nat.iter 64 (String c) "".
Definition fingerprint_a : string := hex64 "a".
Definition fingerprint_b : string := hex64 "b".

Definition minutes (id : Z) (fingerprint : string) (needed kept : Z) : LevelRequirement :=
  mkRequirement id fingerprint needed kept (60 * Second) 0.

Definition two_levels : list LevelRequirement := [minutes 2 fingerprint_b 2 3; minutes 1 fingerprint_a 2 3].

Lemma minutes_in_range id fp needed kept :
  is_u32 needed → is_u32 kept → requirement_in_range (minutes id fp needed kept).
Proof. intros ? ?. split; simpl; [done..|by vm_compute|by vm_compute]. Qed.

Lemma two_levels_in_range : Forall requirement_in_range two_levels.
Proof. repeat constructor; simpl; by vm_compute. Qed.

Definition window_of (rs : list LevelRequirement) (batches : list (list StatePoint)) : Window :=
  foldl (λ w pts, match ApplyContext w pts with Ok (_, w') => w' | Err _ => w end)
    (match NewWindow rs with Ok w => w | Err _ => mkWindow [] [] ∅ false end) batches.

Definition new_window : Window := window_of two_levels [].

Lemma new_window_is : NewWindow two_levels = Ok new_window.
Proof. by vm_compute. Qed.

Lemma new_window_well_formed : window_ok new_window.
Proof. exact (proj1 (NewWindow_ok _ _ two_levels_in_range new_window_is)). Qed.

(** A record at [t] with what it says of Levels 1 and 2. *)
Definition record (digit : ascii) (t : Z) (one two : LevelFactResult) : StatePoint :=
  mkPoint (hex64 digit) t [mkFact 1 fingerprint_a one; mkFact 2 fingerprint_b two].

Definition first_batch : list StatePoint :=
  [record "1" 60 LevelFactNormal LevelFactUnavailable;
   record "3" 180 LevelFactAnomalous LevelFactNormal;
   record "4" 60 LevelFactAnomalous LevelFactUnavailable;
   record "5" 240 LevelFactUnavailable LevelFactError;
   record "6" 0 LevelFactNormal LevelFactNormal].

Definition first_window : Window := window_of two_levels [first_batch].

Definition statuses {E} (r : result E (list PointResult * Window)) : list PointStatus :=
  match r with Ok (rs, _) => pr_Status <$> rs | Err _ => [] end.

(** The second record at 60 contradicts the first; nothing is usable at 240; 0 is
    past the retention of three minutes ending at 180 only for what 180 leaves. *)
Example first_batch_statuses :
  statuses (ApplyContext new_window first_batch)
  = [PointApplied; PointApplied; PointTerminal; PointUnavailable; PointTerminal].
Proof. by vm_compute. Qed.

Definition first_results : list PointResult :=
  match ApplyContext new_window first_batch with Ok (rs, _) => rs | Err _ => [] end.

Lemma first_batch_is : ApplyContext new_window first_batch = Ok (first_results, first_window).
Proof. by vm_compute. Qed.

Lemma apply_window_witness : window_ok first_window ∧ known first_window 60 0 = Some false.
Proof.
  destruct (WindowApply.apply_window new_window first_batch first_results first_window
              new_window_well_formed ltac:(by vm_compute)) as (Hok & _).
  split; [exact Hok|by vm_compute].
Defined.

Lemma apply_results_witness :
  length first_results = 5%nat ∧
  ∃ r, first_results !! 1%nat = Some r ∧ pr_Status r = PointApplied ∧ known first_window 180 1 = Some false.
Proof.
  destruct (WindowApply.apply_results new_window first_batch first_results first_window 1
              (record "3" 180 LevelFactAnomalous LevelFactNormal)
              new_window_well_formed ltac:(by vm_compute) ltac:(by vm_compute)) as (Hlen & r & Hr & _ & _ & Hstatus).
  split; [exact Hlen|]. exists r. split; [exact Hr|].
  vm_compute in Hr. injection Hr as <-. split; [done|]. cbn [pr_Status] in Hstatus.
  destruct Hstatus as (_ & _ & Hknown). by apply Hknown; vm_compute.
Defined.

(** Level 2 moves to bit 0 when Level 1 goes; Level 3 is new. *)
Definition later_levels : list LevelRequirement := [minutes 3 fingerprint_a 1 3; minutes 2 fingerprint_b 2 3].
Definition aligned_window : Window :=
  match Align first_window later_levels with Ok w => w | Err _ => first_window end.

Lemma align_carries_witness : known aligned_window 180 0 = Some false ∧ known aligned_window 180 1 = None.
Proof.
  assert (window_ok first_window) as Hw.
  { exact (proj1 (ApplyContext_window_ok _ _ _ _ new_window_well_formed first_batch_is)). }
  assert (Forall requirement_in_range later_levels) as Hin by (repeat constructor; by vm_compute).
  destruct (WindowAlign.align_carries first_window later_levels aligned_window Hw Hin ltac:(by vm_compute))
    as (_ & _ & Hcarry).
  split.
  - destruct (Hcarry 0%nat (mkLevel 2 (replicate 32 187)) 180 ltac:(by vm_compute)) as [Hkeep _].
    etransitivity; [exact (Hkeep 1%nat ltac:(by vm_compute))|by vm_compute].
  - destruct (Hcarry 1%nat (mkLevel 3 (replicate 32 170)) 180 ltac:(by vm_compute)) as [_ Hfresh].
    assert (mkLevel 3 (replicate 32 170) ∉ levels first_window) as Hnew by (apply (bool_decide_unpack _); by vm_compute).
    exact (Hfresh Hnew).
Defined.

(** Level 1 of the window holds 60 and 180, and nothing at 120. *)
Definition level_one : view :=
  match History first_window 1 with Some v => v | None => mkView first_window 0 zero_requirement end.

Lemma level_one_ok : view_ok level_one.
Proof.
  pose proof (History_spec first_window 1
    (proj1 (ApplyContext_window_ok _ _ _ _ new_window_well_formed first_batch_is))) as H.
  change (History first_window 1) with (Some level_one) in H. apply H.
Qed.

Lemma summarize_spec_witness :
  let '(s, holes) := SummarizeHolesContext level_one 180 3 8 in
  Completeness s = HistoryGapped ∧ ValidPositions s = 2 ∧ Missing holes = [120].
Proof.
  assert (is_u32 3) as H3 by by vm_compute. assert (is_i64 180) as H180 by by vm_compute.
  pose proof (WindowHistory.summarize_spec level_one 180 3 8 level_one_ok H3 H180) as H.
  destruct (SummarizeHolesContext level_one 180 3 8) as [s holes]. cbn beta iota zeta in H.
  change (answerable level_one 180 3) with true in H. cbn iota in H.
  destruct H as (_ & _ & _ & _ & _ & Hgap & _ & Hvalid & _ & _ & Hmissing & _).
  split; [|split; [rewrite Hvalid|rewrite Hmissing]; vm_compute; reflexivity].
  apply Hgap. exists 0%nat, 1%nat, 60, 120.
  split; [apply le_n|]. split; [|split; [|split]]; vm_compute; reflexivity.
Defined.

Lemma view_represents_witness :
  represents (mkHistoryView level_one "") [(60, false); (180, true)].
Proof.
  assert (Z.of_nat (length (points (v_window level_one))) ≤ maxUint32) as Hlen by by vm_compute.
  pose proof (WindowHistory.view_represents level_one "" level_one_ok Hlen) as [H _]. exact H.
Defined.
