(* ===== verification/TriggerExamples.v ===== *)
(** The trigger's theorems at concrete inputs, over the view of a runtime window:
    a minute grid with a hole, a Level that recovers and one that stays NORMAL. *)
From Stdlib Require Import Ascii.
From S2P Require Import Prelude Decimal Reason GoHash TriggerEvent History Trigger RecoveryWalk TriggerLevel TriggerRecord.
From S2P Require Import Window WindowInvariant WindowApply WindowAlign WindowHistory TriggerWindow WindowExamples.

Open Scope Z_scope.

(** ** The history: nothing observed at 180 *)

Definition quiet_levels : list LevelRequirement := [minutes 1 fingerprint_a 3 5; minutes 2 fingerprint_b 2 5].

Lemma quiet_levels_in_range : Forall requirement_in_range quiet_levels.
Proof. repeat constructor; simpl; by vm_compute. Qed.

Definition quiet_start : Window := window_of quiet_levels [].
Definition quiet_batch : list StatePoint :=
  (λ t, record "7" t LevelFactNormal LevelFactNormal) <$> [60; 120; 240; 300].
Definition quiet_window : Window := window_of quiet_levels [quiet_batch].

Definition quiet_results : list PointResult :=
  match ApplyContext quiet_start quiet_batch with Ok (rs, _) => rs | Err _ => [] end.

Lemma quiet_batch_is : ApplyContext quiet_start quiet_batch = Ok (quiet_results, quiet_window).
Proof. by vm_compute. Qed.

Lemma quiet_window_ok : window_ok quiet_window.
Proof.
  assert (window_ok quiet_start) as Hstart.
  { apply (NewWindow_ok quiet_levels quiet_start quiet_levels_in_range). by vm_compute. }
  exact (proj1 (ApplyContext_window_ok _ _ _ _ Hstart quiet_batch_is)).
Qed.

Definition quiet_view (id : Z) : view :=
  match History quiet_window id with Some v => v | None => mkView quiet_window 0 zero_requirement end.

Lemma quiet_view_ok id : id = 1 ∨ id = 2 → view_ok (quiet_view id).
Proof.
  intros Hid. pose proof (History_spec quiet_window id quiet_window_ok) as H. unfold quiet_view.
  destruct (History quiet_window id) eqn:E; [by apply H|]. exfalso. destruct Hid as [->| ->]; by vm_compute in E.
Qed.

Definition quiet_history (id : Z) : historyView := mkHistoryView (quiet_view id) "".
Definition quiet_observations : list (Z * bool) := [(60, false); (120, false); (240, false); (300, false)].

Lemma quiet_observations_of id : id = 1 ∨ id = 2 → observations (quiet_view id) = quiet_observations.
Proof. intros [->| ->]; by vm_compute. Qed.

Lemma quiet_represents id : id = 1 ∨ id = 2 → represents (quiet_history id) quiet_observations.
Proof.
  intros Hid. rewrite <- (quiet_observations_of id Hid).
  apply window_represents; [by apply quiet_view_ok|]. destruct Hid as [->| ->]; by vm_compute.
Qed.

(** ** The Plan: two of the last two positions trigger, two quiet windows recover *)

Definition digest_c : string := hex64 "c".

Definition quiet_level (id : Z) (recovers : bool) : CompiledLevel :=
  mkCompiledLevel (mkDefinition id "critical" id) (mkTrigger 2 1 60)
    (if recovers then mkRecovery true 2 else mkRecovery false 0) digest_c (if recovers then 3 else 2) 5
    fingerprint_a fingerprint_b.

Lemma quiet_level_in_range id recovers : level_in_range (quiet_level id recovers).
Proof. destruct recovers; split; simpl; by vm_compute. Qed.

Definition quiet_plan : CompiledPlan :=
  mkPlan [quiet_level 1 true; quiet_level 2 false] "tenant" "42" 7 true "" "time_series" true 60 60 (λ _, 0).

Definition quiet_fact (id : Z) (recovers : bool) : DetectionFact :=
  mkDetection (Definition_ (quiet_level id recovers)) fingerprint_a DetectionNormal ""
    (mkEvidence digest_c (Some 0) None None "").

Definition quiet_record : DetectionRecord :=
  mkDetectionRecord "record-300" 300 [mkProjected "12.000000" true ""] [quiet_fact 1 true; quiet_fact 2 false].

Definition active : EffectiveTimeFact := mkEffective EffectiveTimeActive digest_c digest_c digest_c 0 1000.

Definition generous : EvaluationLimitsV2 := mkLimits 10 100 100 100 10 100000 1000.

(** The open alert set contains the series when [open]. *)
Definition quiet_request (open : bool) : EvaluationRequestV2 historyView :=
  mkRequest "tenant" "2" (Some quiet_plan) quiet_record "record-300" 300 (Some ∅) (Some ∅)
    [(1, Some (quiet_history 1)); (2, Some (quiet_history 2))] [(1, active); (2, active)] 330 "execution" false
    generous (Some (mkOpenAlerts (λ _ _ _, open) (Some false))) None.

(** ** The environment of the examples *)

(** Decimal digits, without sign or overflow. *)
Fixpoint decimal (acc : Z) (bytes : list Z) : option Z :=
  match bytes with
  | [] => Some acc
  | c :: bytes => if (48 <=? c) && (c <=? 57) then decimal (acc * 10 + (c - 48)) bytes else None
  end.
Definition parse (s : string) : option Z := match bytes_of_string s with [] => None | bytes => decimal 0 bytes end.

Definition measure (results : list LevelResultV1) : result string Z := Ok (1000 * Z.of_nat (length results)).
Definition sealed (_ : EvaluationRequestV2 historyView) (dedupe _ : string) (_ : option StrategySnapshotRef)
    (_ : list LevelResultV1) (_ : Z) : result string string := Ok dedupe.
Definition dedupe_of (_ : EvaluationRequestV2 historyView) : result string string := Ok "dedupe"%string.
Definition subject_of (_ : EvaluationRequestV2 historyView) : result string string := Ok "subject"%string.

Notation evaluate := (EvaluateV2 parse validCanonicalDecimalV2 measure sealed dedupe_of subject_of).

Definition evaluated (open : bool) : EvaluationResultV2 (Body := string) (Subject := string) :=
  match evaluate (quiet_request open) with
  | Ok r => r
  | Err _ => mkResult "" "" [] None (mkCounts 0 0 0 0 0 0 0 0) zero_gate ""
  end.

Lemma evaluated_is open : evaluate (quiet_request open) = Ok (evaluated open).
Proof. destruct open; by vm_compute. Qed.

Lemma plan_fits : Z.of_nat (length (Levels quiet_plan)) ≤ maxUint32.
Proof. by vm_compute. Qed.

(** ** Level 1 on its own *)

Definition level_one_evaluated : LevelOutcomeV2 * LevelResultV1 :=
  match evaluateLevelV2 (quiet_request true) (quiet_level 1 true) (quiet_fact 1 true) (quiet_history 1) active StateAdvance with
  | Ok x => x
  | Err _ => (open_outcome (quiet_level 1 true) "", zero_level_result)
  end.

Lemma level_one_is :
  evaluateLevelV2 (quiet_request true) (quiet_level 1 true) (quiet_fact 1 true) (quiet_history 1) active StateAdvance
  = Ok (level_one_evaluated.1, level_one_evaluated.2).
Proof. by vm_compute. Qed.

(** The hole at 180 leaves two windows open: they are stepped over. *)
Example level_one_evidence :
  dw_Recovery (lr_DecisionWindow level_one_evaluated.2) = mkRecoveryEvidence true 2 2 1 2.
Proof. by vm_compute. Qed.

Lemma level_verdict_witness :
  lo_Result level_one_evaluated.1
  = reference_verdict (quiet_level 1 true) (quiet_fact 1 true) quiet_observations 300 HistoryWarming.
Proof.
  exact (proj1 (TriggerLevel.level_verdict (quiet_request true) (quiet_level 1 true) (quiet_fact 1 true) (quiet_history 1)
    quiet_observations active StateAdvance level_one_evaluated.1 level_one_evaluated.2
    (quiet_represents 1 (or_introl eq_refl)) (quiet_level_in_range 1 true) ltac:(by vm_compute) ltac:(by vm_compute)
    ltac:(by vm_compute) ltac:(by vm_compute) level_one_is)).
Defined.

Lemma recovery_sound_witness :
  ∃ ks, 2 ≤ Z.of_nat (length ks) ∧ ∀ k, k ∈ ks → 0 ≤ k < 5.
Proof.
  destruct (TriggerLevel.recovery_sound (quiet_request true) (quiet_level 1 true) (quiet_fact 1 true) (quiet_history 1)
    quiet_observations active StateAdvance level_one_evaluated.1 level_one_evaluated.2
    (quiet_represents 1 (or_introl eq_refl)) (quiet_level_in_range 1 true) ltac:(by vm_compute)
    level_one_is ltac:(by vm_compute)) as (_ & ks & Hlen & _ & Hks).
  exists ks. split; [exact Hlen|]. intros k Hk. exact (proj1 (Hks k Hk)).
Defined.

Lemma quiet_digest : digest_typed (level_summary (quiet_request true) (quiet_level 1 true) (quiet_history 1)).
Proof.
  split; [by vm_compute|]. apply Forall_forall. intros b Hb. revert b Hb.
  apply Forall_forall. apply (bool_decide_unpack _). by vm_compute.
Qed.

(** A decimal as the contract's JSON takes it. *)
Definition decimal_accepted (value : string) : bool := validCanonicalDecimalV2 value && float64_finite value.

(** The largest float64 is taken, a number half a step past it is not. *)
Example overflow_refused :
  let digits := Decimal.print_digits (2 ^ 1024 - 2 ^ 970) in
  let below := Decimal.print_digits (2 ^ 1024 - 2 ^ 970 - 1) in
  validCanonicalDecimalV2 (digits +:+ ".000000") = true ∧ decimal_accepted (digits +:+ ".000000") = false ∧
  decimal_accepted (below +:+ ".999999") = true.
Proof. by vm_compute. Qed.

Lemma level_result_admissible_witness :
  validate_level_result decimal_accepted true 0 level_one_evaluated.2 = Ok tt.
Proof.
  apply (TriggerLevel.level_result_admissible decimal_accepted
    (λ s (H : validCanonicalDecimalV2 s = true), eq_trans (f_equal (λ b, b && float64_finite s) H) eq_refl)
    (quiet_request true) (quiet_level 1 true) (quiet_fact 1 true) (quiet_history 1)
    quiet_observations active StateAdvance level_one_evaluated.1 level_one_evaluated.2 true 0
    (quiet_represents 1 (or_introl eq_refl))).
  - split; [apply quiet_level_in_range|by vm_compute|by vm_compute|by vm_compute|exists 3; by vm_compute].
  - by vm_compute.
  - exact quiet_digest.
  - by left.
  - exact level_one_is.
  - by vm_compute.
  - by vm_compute.
Defined.

(** ** The record *)

Lemma record_counts_witness :
  ec_Levels (Counts (evaluated true)) = 2 ∧ RecordResult (evaluated true) = LevelResultRecovery.
Proof.
  destruct (TriggerRecord.record_counts parse validCanonicalDecimalV2 measure sealed dedupe_of subject_of (quiet_request true) (evaluated true) (evaluated_is true))
    as (_ & Hlevels & _ & _ & _ & _ & _ & Hresult & _).
  { intros plan [= <-]. exact plan_fits. }
  split; [rewrite Hlevels|rewrite Hresult]; vm_compute; reflexivity.
Defined.

Lemma event_built_witness :
  ec_Events (Counts (evaluated true)) = 1 ∧ ec_Events (Counts (evaluated false)) = 0.
Proof.
  split.
  - assert (bool_decide (is_Some (TriggerEvent (evaluated true))) = true) as Hsome by by vm_compute.
    pose proof (TriggerRecord.event_built parse validCanonicalDecimalV2 measure sealed dedupe_of subject_of
      (quiet_request true) (evaluated true) quiet_plan (evaluated_is true) eq_refl plan_fits) as H.
    revert Hsome H. generalize (evaluated true) as r. intros r Hsome H. cbn zeta in H.
    destruct (TriggerEvent r); [exact (proj1 H)|done].
  - assert (bool_decide (is_Some (TriggerEvent (evaluated false))) = false) as Hnone by by vm_compute.
    pose proof (TriggerRecord.event_built parse validCanonicalDecimalV2 measure sealed dedupe_of subject_of
      (quiet_request false) (evaluated false) quiet_plan (evaluated_is false) eq_refl plan_fits) as H.
    revert Hnone H. generalize (evaluated false) as r. intros r Hnone H. cbn zeta in H.
    destruct (TriggerEvent r); [done|exact (proj1 H)].
Defined.

Lemma recovery_gate_witness :
  (Beside (RecoveryGate (evaluated false)), BesideLevelID (RecoveryGate (evaluated false)))
  = (RecoveryBesideLevelWithoutRecovery, 2) ∧ Held (RecoveryGate (evaluated false)) = true.
Proof.
  destruct (TriggerRecord.recovery_gate parse validCanonicalDecimalV2 measure sealed dedupe_of subject_of (quiet_request false) (evaluated false) quiet_plan
    (evaluated_is false) eq_refl plan_fits) as [Hbeside Hheld]; [by vm_compute|].
  split; [rewrite Hbeside; by vm_compute|]. apply Hheld. split; [by vm_compute|].
  exists (mkOpenAlerts (λ _ _ _, false) (Some false)), (Some (mkSnapshotRef "tenant" 2 42 7)), "dedupe"%string.
  split; [reflexivity|]. split; [by vm_compute|by right].
Defined.

Lemma quiet_serves : view_serves (quiet_view 1) (quiet_level 1 true) 3 300.
Proof.
  split; [by apply quiet_view_ok; left|by vm_compute|by vm_compute|by vm_compute|by vm_compute| |by vm_compute|by vm_compute].
  intros x b Hx%elem_of_observations; [|by apply quiet_view_ok; left].
  rewrite quiet_observations_of in Hx by (by left).
  assert (Forall (λ o : Z * bool, (60 | 300 - o.1)) quiet_observations) as Hall.
  { repeat constructor; [by exists 4|by exists 3|by exists 1|by exists 0]. }
  rewrite Forall_forall in Hall. exact (Hall _ Hx).
Qed.

Lemma level_evaluates_witness :
  ∃ outcome r, evaluateLevelV2 (quiet_request true) (quiet_level 1 true) (quiet_fact 1 true) (quiet_history 1) active
                 StateAdvance = Ok (outcome, r).
Proof.
  refine (TriggerWindow.level_evaluates (quiet_request true) (quiet_view 1) (quiet_level 1 true) (quiet_fact 1 true) ""
    active StateAdvance 3 (mkDetectEvidence "NORMAL" digest_c "12.000000" None None "" "ACTIVE") _ _ _ quiet_serves _ _ _).
  - split; [apply quiet_level_in_range|by vm_compute|by vm_compute|by vm_compute|exists 3; by vm_compute].
  - by vm_compute.
  - by vm_compute.
  - by left.
  - by vm_compute.
  - intros _. by vm_compute.
Defined.
