(* ===== verification/LevelCompiler.v ===== *)
(** The compilation of a Level (strategy/compiler.go, [compileLevel]; strategy/registry.go;
    strategy/g4_contract.go): its algorithms through the registry, its trigger and recovery
    plans, the history it requires and retains, and its fingerprints. *)
From S2P Require Import Prelude GoHash TriggerEvent History Trigger.
From S2P Require Import Reason Decimal AlgorithmInput Predicate ThresholdCompiler EffectiveTime.

Open Scope Z_scope.

(** ** Data (contract/v2_model.go, strategy/types.go) *)

Definition TriggerPlanTypeNOfM : string := "N_OF_M".
Definition RecoveryPlanTypeContinuousTriggerMiss : string := "CONTINUOUS_TRIGGER_MISS".

(** The configuration by its JSON. *)
Record TypedPlanV1 : Type := mkTypedPlan {
  tp_Type : string;
  tp_Version : Z;
  tp_Config : string;
}.

Record AlgorithmIRV2 : Type := mkAlgorithmIR {
  air_Type : string;
  air_Version : Z;
  air_Config : string;
}.

Record LevelIRV2 : Type := mkLevelIR {
  lir_Definition : LevelDefinitionV2;
  lir_Connector : string;
  lir_Algorithms : list AlgorithmIRV2;
  lir_TriggerPlan : TypedPlanV1;
  lir_RecoveryPlan : TypedPlanV1;
}.

Record triggerPlanConfigV1 : Type := mkTriggerConfig {
  tpc_WindowSize : Z;
  tpc_RequiredAnomalies : Z;
  tpc_StepSeconds : Z;
  TimezoneRef : string;
  Uptime : option uptimeConfigV1;
}.

Record recoveryPlanConfigV1 : Type := mkRecoveryConfig {
  rpc_Enabled : option bool;
  rpc_ConsecutiveWindows : Z;
}.

Record Terminal : Type := mkTerminal {
  term_LevelID : Z;
  term_ReasonCode : string;
  term_FieldPath : string;
  term_Detail : string;
}.

Record StateRequirement : Type := mkStateRequirement {
  sr_RequiredDetectHistoryPoints : Z;
  sr_RetentionPoints : Z;
}.

Definition StateIdentityView (requirement : StateRequirement) : StateRequirement :=
  mkStateRequirement (sr_RequiredDetectHistoryPoints requirement) (sr_RequiredDetectHistoryPoints requirement).

Record ResourceEstimate : Type := mkEstimate {
  re_FixedComputeCost : Z;
  re_CostPerRecord : Z;
  StatePointsPerSeries : Z;
  CompiledBytes : Z;
  re_Algorithms : Z;
  re_ASTNodes : Z;
}.

Record LevelFingerprints : Type := mkFingerprints {
  fp_Detect : string;
  fp_Trigger : string;
}.

Record CompiledAlgorithmPlan : Type := mkAlgorithmPlan {
  algorithmPlanID : string;
  cap_kind : string;
  cap_version : Z;
  cap_capability : AlgorithmCapability;
  cap_capabilityDigest : string;
  cap_compilerVersion : string;
  cap_proofVersion : string;
  normalizedConfigDigest : string;
  cap_config : compiledAlgorithmConfig;
  cap_inputProjection : AlgorithmInputProjection;
  cap_inputRequirements : list AlgorithmInputRequirement;
  stateCompatibilityFingerprint : string;
}.

Record compiledAlgorithmSemantic : Type := mkAlgorithmSemantic {
  cas_AlgorithmPlanID : string;
  cas_Kind : string;
  cas_Version : Z;
  cas_CapabilityDigest : string;
  cas_CompilerVersion : string;
  cas_ProofVersion : string;
  cas_NormalizedConfigDigest : string;
  cas_InputProjection : AlgorithmInputProjection;
  cas_InputRequirements : list AlgorithmInputRequirement;
  cas_StateCompatibilityFingerprint : string;
}.

(** [CompiledAlgorithmPlan.semantic]. *)
Definition algorithm_semantic (plan : CompiledAlgorithmPlan) : compiledAlgorithmSemantic :=
  mkAlgorithmSemantic (algorithmPlanID plan) (cap_kind plan) (cap_version plan) (cap_capabilityDigest plan)
    (cap_compilerVersion plan) (cap_proofVersion plan) (normalizedConfigDigest plan) (cap_inputProjection plan)
    (cap_inputRequirements plan) (stateCompatibilityFingerprint plan).

Record CompiledLevel : Type := mkLevel {
  level_definition : LevelDefinitionV2;
  level_connector : string;
  level_algorithms : list CompiledAlgorithmPlan;
  level_detectors : list DetectorSpec;
  level_trigger : TriggerPlan;
  level_recovery : RecoveryPlan;
  level_effectiveTime : EffectiveTimeRequirement;
  level_stateRequirement : StateRequirement;
  level_fingerprints : LevelFingerprints;
  level_resourceEstimate : ResourceEstimate;
}.

(** A compiled Level as the trigger reads it (the accessors of strategy/types.go). *)
Definition trigger_view (level : CompiledLevel) : Trigger.CompiledLevel :=
  mkCompiledLevel (level_definition level) (level_trigger level) (level_recovery level)
    (etr_digest (level_effectiveTime level))
    (sr_RequiredDetectHistoryPoints (level_stateRequirement level)) (sr_RetentionPoints (level_stateRequirement level))
    (fp_Detect (level_fingerprints level)) (fp_Trigger (level_fingerprints level)).

(** ** What is encoded outside

    The canonical digests of what is compiled, none when it does not encode, and the JSON
    of the configurations, read strictly. *)
Class CompilerDigests : Type := {
  normalizer_digest : NumericNormalizerSpec → option string;
  predicate_digest : predicateWire → option string;
  requirement_digest : EffectiveTimeRequirement → option string;
  capability_digest : AlgorithmCapability → option string;
  config_digest : compiledAlgorithmConfig → option string;
  state_compatibility_digest : string → Z → string → string → string → string →
    AlgorithmInputProjection → list AlgorithmInputRequirement → option string;
  plan_identity_digest : Z → Z → string → option string;
  projection_digest : InputProjectionV2 → option string;
  level_semantics_digest : string → list compiledAlgorithmSemantic → option string;
  level_detect_digest : Z → string → string → option string;
  level_trigger_digest : string → TypedPlanV1 → TypedPlanV1 → option string;
}.

Class ConfigCodec : Type := {
  decode_threshold : string → option thresholdConfigV1;
  decode_trigger : string → result string triggerPlanConfigV1;
  decode_recovery : string → result string recoveryPlanConfigV1;
  canonical_trigger : TriggerPlan → option string;
  canonical_recovery : RecoveryPlan → option string;
}.

(** ** The registry (strategy/registry.go) *)

Record AlgorithmCompiler : Type := mkAlgorithmCompiler {
  ac_Capability : AlgorithmCapability;
  ac_Compile : AlgorithmCompileContext → AlgorithmIRV2 → result CompileError AlgorithmCompileResult;
}.

Record registeredAlgorithm : Type := mkRegistered {
  ra_compiler : AlgorithmCompiler;
  ra_capability : AlgorithmCapability;
  ra_capabilityDigest : string;
}.

Notation AlgorithmCompilerRegistry := (gmap (string * Z) registeredAlgorithm).

Definition lookup_algorithm (registry : AlgorithmCompilerRegistry) (kind : string) (version : Z) : option registeredAlgorithm :=
  registry !! (kind, version).

Definition capability_complete (capability : AlgorithmCapability) : bool :=
  negb (cap_Kind capability =? "")%string && negb (cap_Version capability =? 0) && negb (cap_EvaluationScope capability =? "")%string
  && negb (InputShape capability =? "")%string && negb (RequiredHistoryKind capability =? "")%string
  && negb (cap_StateSchemaVersion capability =? "")%string && Deterministic capability
  && negb (FixedComputeCost capability =? 0) && negb (CostPerRecord capability =? 0).

Section compile.
Context `{Digests : !CompilerDigests, Codec : !ConfigCodec}.

Fixpoint register_compilers (registry : AlgorithmCompilerRegistry) (compilers : list AlgorithmCompiler)
    : result string AlgorithmCompilerRegistry :=
  match compilers with
  | [] => Ok registry
  | compiler :: compilers =>
      let capability := ac_Capability compiler in
      _ ← fail_if (negb (capability_complete capability)) "strategy: invalid algorithm capability"%string;
      let key := (cap_Kind capability, cap_Version capability) in
      _ ← fail_if (bool_decide (is_Some (registry !! key))) "strategy: duplicate algorithm compiler"%string;
      match capability_digest capability with
      | None => Err "strategy: derive algorithm capability digest"%string
      | Some digest => register_compilers (<[key := mkRegistered compiler capability digest]> registry) compilers
      end
  end.

Definition NewAlgorithmCompilerRegistry (compilers : list AlgorithmCompiler) : result string AlgorithmCompilerRegistry :=
  register_compilers ∅ compilers.

Definition thresholdAlgorithmCompiler : AlgorithmCompiler :=
  mkAlgorithmCompiler threshold_capability
    (λ context raw, compileThreshold normalizer_digest predicate_digest context (decode_threshold (air_Config raw))).

(** ** One algorithm *)

(** A refusal of the Level, or an error of the compiler. *)
Inductive LevelRefusal : Type :=
  | Refused (terminal : Terminal)
  | Failed (detail : string).

Definition buildCompiledAlgorithmPlan (levelID position : Z) (raw : AlgorithmIRV2) (capability : AlgorithmCapability)
    (capabilityDigest : string) (r : AlgorithmCompileResult) : option CompiledAlgorithmPlan :=
  configDigest ← config_digest (cr_Config r);
  stateFingerprint ← state_compatibility_digest (air_Type raw) (air_Version raw) capabilityDigest (CompilerVersion r)
    (ProofVersion r) configDigest (cr_InputProjection r) (cr_InputRequirements r);
  planID ← plan_identity_digest levelID position stateFingerprint;
  Some (mkAlgorithmPlan planID (air_Type raw) (air_Version raw) capability capabilityDigest (CompilerVersion r)
    (ProofVersion r) configDigest (cr_Config r) (cr_InputProjection r) (cr_InputRequirements r) stateFingerprint).

Variable registry : AlgorithmCompilerRegistry.
Variable limits : Limits.

(** What the loop over the algorithms has collected. *)
Record collected : Type := mkCollected {
  co_plans : list CompiledAlgorithmPlan;
  co_detectors : list DetectorSpec;
  co_normalizers : list NumericNormalizerSpec;
  co_nodes : Z;
}.

Section level.
Variables (projection : InputProjectionV2) (identityFields : list string) (execution : ExecutionSemanticsV2) (levelID : Z).

Definition refuse {A} (reason field : string) : result LevelRefusal A := Err (Refused (mkTerminal levelID reason field "")).
Definition refused {A} (reason field detail : string) : result LevelRefusal A := Err (Refused (mkTerminal levelID reason field detail)).

Definition compile_context : AlgorithmCompileContext := mkContext projection identityFields execution limits.

Definition algorithm_step (position : Z) (algorithm : AlgorithmIRV2) (c : collected) : result LevelRefusal collected :=
  match lookup_algorithm registry (air_Type algorithm) (air_Version algorithm) with
  | None => refuse ReasonAlgorithmUnsupported "level.detect_plan.algorithms"
  | Some registration =>
      if negb (cap_EvaluationScope (ra_capability registration) =? EvaluationScope execution)%string then
        refuse ReasonAlgorithmUnsupported "level.detect_plan.algorithms"
      else
        match ac_Compile (ra_compiler registration) compile_context algorithm with
        | Err AlgorithmBudget => refuse ReasonLevelBudgetExceeded "level.detect_plan.algorithms"
        | Err (AlgorithmConfig detail) => refused ReasonLevelInvalid "level.detect_plan.algorithms" detail
        | Err (CompileFailed detail) => Err (Failed detail)
        | Ok compiled =>
            match validateAlgorithmCompileResult (air_Type algorithm) (air_Version algorithm) (ra_capability registration) projection compiled with
            | Err detail => Err (Failed detail)
            | Ok compiled =>
                if existsb (λ requirement, negb (ConsumerLevelID requirement =? levelID)) (cr_InputRequirements compiled) then
                  refuse ReasonLevelInvalid "level.detect_plan.algorithms.requirements"
                else
                  let astNodes := co_nodes c + ASTNodes compiled in
                  if MaxASTNodesPerLevel limits <? astNodes then refuse ReasonLevelBudgetExceeded "level.detect_plan"
                  else
                    match buildCompiledAlgorithmPlan levelID position algorithm (ra_capability registration)
                            (ra_capabilityDigest registration) compiled with
                    | None => Err (Failed "strategy: freeze algorithm")
                    | Some algorithmPlan =>
                        let standard := negb (spec_kind (cr_Detector compiled) =? "")%string in
                        Ok (mkCollected (co_plans c ++ [algorithmPlan])
                              (co_detectors c ++ (if standard then [cr_Detector compiled] else []))
                              (co_normalizers c ++ (if standard then [cr_Normalizer compiled] else [])) astNodes)
                    end
            end
        end
  end.

Fixpoint algorithm_loop (position : Z) (algorithms : list AlgorithmIRV2) (c : collected) : result LevelRefusal collected :=
  match algorithms with
  | [] => Ok c
  | algorithm :: algorithms => c ← algorithm_step position algorithm c; algorithm_loop (position + 1) algorithms c
  end.
End level.

(** ** The trigger and recovery plans *)

Definition canonicalTypedPlan (kind : string) (version : Z) (config : option string) : result string TypedPlanV1 :=
  match config with
  | None => Err "canonical plan"%string
  | Some config => Ok (mkTypedPlan kind version config)
  end.

Definition compileTriggerPlan (raw : TypedPlanV1) (execution : ExecutionSemanticsV2)
    : result string (TriggerPlan * EffectiveTimeRequirement * TypedPlanV1) :=
  _ ← fail_if (negb (tp_Type raw =? TriggerPlanTypeNOfM)%string || negb (tp_Version raw =? 1)) "unsupported trigger plan"%string;
  config ← decode_trigger (tp_Config raw);
  _ ← fail_if ((tpc_WindowSize config =? 0) || (tpc_RequiredAnomalies config =? 0) || (tpc_StepSeconds config =? 0)
               || negb (tpc_StepSeconds config =? EvaluationInterval execution)) "invalid trigger plan"%string;
  requirement ← compileEffectiveTimeRequirement requirement_digest (Uptime config) (TimezoneRef config);
  let trigger := mkTrigger (tpc_WindowSize config) (tpc_RequiredAnomalies config) (tpc_StepSeconds config) in
  canonical ← canonicalTypedPlan (tp_Type raw) (tp_Version raw) (canonical_trigger trigger);
  Ok (trigger, requirement, canonical).

Definition compileRecoveryPlan (raw : TypedPlanV1) : result string (RecoveryPlan * TypedPlanV1) :=
  _ ← fail_if (negb (tp_Type raw =? RecoveryPlanTypeContinuousTriggerMiss)%string || negb (tp_Version raw =? 1))
        "unsupported recovery plan"%string;
  config ← decode_recovery (tp_Config raw);
  match rpc_Enabled config with
  | None => Err "invalid recovery plan"%string
  | Some enabled =>
      _ ← fail_if (enabled && (rpc_ConsecutiveWindows config =? 0)) "invalid recovery plan"%string;
      let normalized := mkRecovery enabled (if enabled then rpc_ConsecutiveWindows config else 0) in
      canonical ← canonicalTypedPlan (tp_Type raw) (tp_Version raw) (canonical_recovery normalized);
      Ok (normalized, canonical)
  end.

Definition triggerComputeCostForLevel (trigger : TriggerPlan) (recovery : RecoveryPlan) : Z :=
  if Enabled recovery then u64 (1 + ConsecutiveWindows recovery) else 1.

(** ** History *)

Definition RecoveryHoleToleranceSeconds : Z := 600.

Definition tolerance_points (intervalSeconds : Z) : Z :=
  u64 (RecoveryHoleToleranceSeconds + intervalSeconds - 1) / intervalSeconds.

Definition retentionSlack (requiredPoints : Z) (trigger : TriggerPlan) (recovery : RecoveryPlan) (intervalSeconds : Z) : Z :=
  if negb (Enabled recovery) || (intervalSeconds =? 0) || (RequiredAnomalies trigger =? 0) then 0
  else if u64 (requiredPoints * intervalSeconds) <=? RecoveryHoleToleranceSeconds then 0
  else
    let slack := i64 (WindowSize trigger + tolerance_points intervalSeconds + 2 - 3 * RequiredAnomalies trigger) in
    let slack := if slack <? 1 then 1 else slack in
    if requiredPoints <=? slack then 0 else u32 slack.

(** The positions a Level requires, none past the type. *)
Definition required_points (trigger : TriggerPlan) (recovery : RecoveryPlan) : option Z :=
  if Enabled recovery then
    let addition := u32 (ConsecutiveWindows recovery - 1) in
    if maxUint32 - WindowSize trigger <? addition then None else Some (u32 (WindowSize trigger + addition))
  else Some (WindowSize trigger).

(** ** The Level *)

(** The costs of the capabilities: fixed, and for each record. *)
Fixpoint capability_costs (algorithms : list AlgorithmIRV2) (fixed perRecord : Z) : Z * Z :=
  match algorithms with
  | [] => (fixed, perRecord)
  | algorithm :: algorithms =>
      match lookup_algorithm registry (air_Type algorithm) (air_Version algorithm) with
      | None => capability_costs algorithms fixed perRecord
      | Some registration =>
          capability_costs algorithms (u64 (fixed + FixedComputeCost (ra_capability registration)))
            (u64 (perRecord + CostPerRecord (ra_capability registration)))
      end
  end.

(** [DeriveLevelDetectFingerprintV1] and [DeriveLevelTriggerFingerprintV1]. *)
Definition DeriveLevelDetectFingerprintV1 (levelID : Z) (projectionDigest detectorDigest : string) : option string :=
  if (levelID =? 0) || negb (sha256Pattern projectionDigest) || negb (sha256Pattern detectorDigest) then None
  else level_detect_digest levelID projectionDigest detectorDigest.

Definition DeriveLevelTriggerFingerprintV1 (detect : string) (trigger recovery : TypedPlanV1) : option string :=
  if negb (sha256Pattern detect) then None else level_trigger_digest detect trigger recovery.

Definition level_fingerprints_of (levelID : Z) (projection : InputProjectionV2) (connector : string)
    (algorithms : list CompiledAlgorithmPlan) (trigger recovery : TypedPlanV1) : option LevelFingerprints :=
  projectionDigest ← projection_digest projection;
  detectorDigest ← level_semantics_digest connector (algorithm_semantic <$> algorithms);
  detect ← DeriveLevelDetectFingerprintV1 levelID projectionDigest detectorDigest;
  triggered ← DeriveLevelTriggerFingerprintV1 detect trigger recovery;
  Some (mkFingerprints detect triggered).

Definition compileLevel (projection : InputProjectionV2) (identityFields : list string) (execution : ExecutionSemanticsV2)
    (raw : LevelIRV2) : result LevelRefusal (CompiledLevel * list NumericNormalizerSpec) :=
  let levelID := def_LevelID (lir_Definition raw) in
  let refuse {A} := @refuse levelID A in
  let refused {A} := @refused levelID A in
  if (levelID =? 0) || (def_Priority (lir_Definition raw) =? 0)
     || (negb (lir_Connector raw =? LevelConnectorAND)%string && negb (lir_Connector raw =? LevelConnectorOR)%string)
     || bool_decide (length (lir_Algorithms raw) = 0%nat) then
    refuse ReasonLevelInvalid "level"
  else if MaxAlgorithmsPerLevel limits <? Z.of_nat (length (lir_Algorithms raw)) then
    refuse ReasonLevelBudgetExceeded "level.detect_plan.algorithms"
  else
    c ← algorithm_loop projection identityFields execution levelID 0 (lir_Algorithms raw) (mkCollected [] [] [] 1);
    match compileTriggerPlan (lir_TriggerPlan raw) execution with
    | Err detail => refused ReasonLevelInvalid "level.trigger_plan" detail
    | Ok (trigger, effectiveTime, canonicalTrigger) =>
    match compileRecoveryPlan (lir_RecoveryPlan raw) with
    | Err detail => refused ReasonLevelInvalid "level.recovery_plan" detail
    | Ok (recovery, canonicalRecovery) =>
    if MaxTriggerWindowSize limits <? WindowSize trigger then refuse ReasonLevelBudgetExceeded "level.trigger_plan"
    else if Enabled recovery && (MaxRecoveryConsecutiveWindows limits <? ConsecutiveWindows recovery) then
      refuse ReasonLevelBudgetExceeded "level.recovery_plan"
    else if MaxTriggerComputeCost limits <? triggerComputeCostForLevel trigger recovery then
      refuse ReasonLevelBudgetExceeded "level.recovery_plan"
    else
      match required_points trigger recovery with
      | None => refuse ReasonLevelBudgetExceeded "level.recovery_plan"
      | Some requiredPoints =>
          if MaxRequiredHistoryPoints limits <? requiredPoints then refuse ReasonLevelBudgetExceeded "level.state_requirement"
          else
            let retentionPoints := u32 (requiredPoints + retentionSlack requiredPoints trigger recovery (EvaluationInterval execution)) in
            if retentionPoints <? requiredPoints then refuse ReasonLevelBudgetExceeded "level.state_requirement"
            else
              let '(fixed, perRecord) := capability_costs (lir_Algorithms raw) 1 0 in
              let estimate := mkEstimate fixed perRecord retentionPoints 0 (Z.of_nat (length (co_plans c))) (co_nodes c) in
              match level_fingerprints_of levelID projection (lir_Connector raw) (co_plans c) canonicalTrigger canonicalRecovery with
              | None => Err (Failed "strategy: derive Level fingerprint")
              | Some fingerprints =>
                  Ok (mkLevel (lir_Definition raw) (lir_Connector raw) (co_plans c) (co_detectors c) trigger recovery
                        effectiveTime (mkStateRequirement requiredPoints retentionPoints) fingerprints estimate,
                      co_normalizers c)
              end
      end
    end end.
End compile.
