(* ===== verification/LevelSpec.v ===== *)
(** What a compiled Level promises: the history it requires is the trigger's own, it
    retains at least that and less than twice as much, and it stays in its budgets. *)
From S2P Require Import Prelude GoHash TriggerEvent History Trigger RecoveryWalk TriggerLevel.
From S2P Require Import Reason Decimal AlgorithmInput Predicate ThresholdCompiler EffectiveTime LevelCompiler.

Open Scope Z_scope.

Section spec.
Context `{Digests : !CompilerDigests, Codec : !ConfigCodec}.
Variable registry : AlgorithmCompilerRegistry.
Variable limits : Limits.

(** The Go types of what the decoder fills. *)
Definition codec_typed : Prop :=
  (∀ s c, decode_trigger s = Ok c → is_u32 (tpc_WindowSize c) ∧ is_u32 (tpc_RequiredAnomalies c) ∧ is_u32 (tpc_StepSeconds c)) ∧
  (∀ s c, decode_recovery s = Ok c → is_u32 (rpc_ConsecutiveWindows c)).

(** A digest is sixty-four hexadecimal characters. *)
Definition digests_typed : Prop := ∀ detect trigger recovery digest,
  level_trigger_digest detect trigger recovery = Some digest → sha256Pattern digest = true.

(** ** The plans *)

Lemma compileTriggerPlan_inv raw execution trigger requirement canonical :
  compileTriggerPlan raw execution = Ok (trigger, requirement, canonical) →
  tp_Type raw = TriggerPlanTypeNOfM ∧ tp_Version raw = 1 ∧
  ∃ config, decode_trigger (tp_Config raw) = Ok config ∧
    trigger = mkTrigger (tpc_WindowSize config) (tpc_RequiredAnomalies config) (tpc_StepSeconds config) ∧
    tpc_WindowSize config ≠ 0 ∧ tpc_RequiredAnomalies config ≠ 0 ∧ tpc_StepSeconds config ≠ 0 ∧
    tpc_StepSeconds config = EvaluationInterval execution ∧
    compileEffectiveTimeRequirement requirement_digest (Uptime config) (TimezoneRef config) = Ok requirement ∧
    canonicalTypedPlan (tp_Type raw) (tp_Version raw) (canonical_trigger trigger) = Ok canonical.
Proof.
  unfold compileTriggerPlan. intros (u & Hkind%fail_if_Ok & H)%bind_Ok. revert H.
  intros (config & Hc & H)%bind_Ok. revert H. intros (u' & Hz%fail_if_Ok & H)%bind_Ok. revert H.
  intros (r & Hr & H)%bind_Ok. revert H. intros (c & Hcan & [= <- <- <-])%bind_Ok.
  breflect. split_and!; [by apply String.eqb_eq|done|]. exists config. by split_and!.
Qed.

Lemma compileRecoveryPlan_inv raw recovery canonical :
  compileRecoveryPlan raw = Ok (recovery, canonical) →
  ∃ config, decode_recovery (tp_Config raw) = Ok config ∧ rpc_Enabled config = Some (Enabled recovery) ∧
    ConsecutiveWindows recovery = (if Enabled recovery then rpc_ConsecutiveWindows config else 0) ∧
    (Enabled recovery = true → ConsecutiveWindows recovery ≠ 0) ∧
    canonicalTypedPlan (tp_Type raw) (tp_Version raw) (canonical_recovery recovery) = Ok canonical.
Proof.
  unfold compileRecoveryPlan. intros (u & _ & H)%bind_Ok. revert H. intros (config & Hc & H)%bind_Ok. revert H.
  destruct (rpc_Enabled config) as [enabled|] eqn:He; [|done]. intros (u' & Hz%fail_if_Ok & H)%bind_Ok. revert H.
  intros (c & Hcan & [= <- <-])%bind_Ok. exists config. simpl. split_and!; [done..| |done].
  intros ->. simpl in Hz |- *. lia.
Qed.

(** ** The Level *)

(** Everything a compiled Level was compiled from. *)
Record compiled_as (projection : InputProjectionV2) (identityFields : list string) (execution : ExecutionSemanticsV2)
    (raw : LevelIRV2) (level : CompiledLevel) (normalizers : list NumericNormalizerSpec) : Prop := {
  ca_id : def_LevelID (lir_Definition raw) ≠ 0;
  ca_priority : def_Priority (lir_Definition raw) ≠ 0;
  ca_connector : lir_Connector raw = LevelConnectorAND ∨ lir_Connector raw = LevelConnectorOR;
  ca_some : lir_Algorithms raw ≠ [];
  ca_count : Z.of_nat (length (lir_Algorithms raw)) ≤ MaxAlgorithmsPerLevel limits;
  ca_definition : level_definition level = lir_Definition raw;
  ca_level_connector : level_connector level = lir_Connector raw;
  ca_algorithms : ∃ c, algorithm_loop registry limits projection identityFields execution (def_LevelID (lir_Definition raw)) 0
      (lir_Algorithms raw) (mkCollected [] [] [] 1) = Ok c ∧
    level_algorithms level = co_plans c ∧ level_detectors level = co_detectors c ∧ normalizers = co_normalizers c ∧
    re_ASTNodes (level_resourceEstimate level) = co_nodes c;
  ca_trigger : ∃ canonical, compileTriggerPlan (lir_TriggerPlan raw) execution = Ok (level_trigger level, level_effectiveTime level, canonical);
  ca_recovery : ∃ canonical, compileRecoveryPlan (lir_RecoveryPlan raw) = Ok (level_recovery level, canonical);
  ca_window : WindowSize (level_trigger level) ≤ MaxTriggerWindowSize limits;
  ca_consecutive : Enabled (level_recovery level) = true → ConsecutiveWindows (level_recovery level) ≤ MaxRecoveryConsecutiveWindows limits;
  ca_cost : triggerComputeCostForLevel (level_trigger level) (level_recovery level) ≤ MaxTriggerComputeCost limits;
  ca_required : required_points (level_trigger level) (level_recovery level) = Some (sr_RequiredDetectHistoryPoints (level_stateRequirement level));
  ca_history : sr_RequiredDetectHistoryPoints (level_stateRequirement level) ≤ MaxRequiredHistoryPoints limits;
  ca_retention : sr_RetentionPoints (level_stateRequirement level) =
    u32 (sr_RequiredDetectHistoryPoints (level_stateRequirement level) +
         retentionSlack (sr_RequiredDetectHistoryPoints (level_stateRequirement level)) (level_trigger level) (level_recovery level)
           (EvaluationInterval execution));
  ca_no_wrap : sr_RequiredDetectHistoryPoints (level_stateRequirement level) ≤ sr_RetentionPoints (level_stateRequirement level);
  ca_fingerprint : ∃ detect trigger recovery,
    level_trigger_digest detect trigger recovery = Some (fp_Trigger (level_fingerprints level));
  ca_points : StatePointsPerSeries (level_resourceEstimate level) = sr_RetentionPoints (level_stateRequirement level);
}.

Lemma level_fingerprints_inv levelID projection connector algorithms trigger recovery fingerprints :
  level_fingerprints_of levelID projection connector algorithms trigger recovery = Some fingerprints →
  ∃ detect trigger' recovery', level_trigger_digest detect trigger' recovery' = Some (fp_Trigger fingerprints).
Proof.
  unfold level_fingerprints_of, DeriveLevelTriggerFingerprintV1.
  intros (p & _ & (q & _ & (detect & _ & (triggered & Ht & [= <-])%bind_Some)%bind_Some)%bind_Some)%bind_Some.
  destruct (sha256Pattern detect); [|done]. simpl in *. eauto.
Qed.

Lemma compileLevel_inv projection identityFields execution raw level normalizers :
  compileLevel registry limits projection identityFields execution raw = Ok (level, normalizers) →
  compiled_as projection identityFields execution raw level normalizers.
Proof.
  unfold compileLevel. destruct (_ || bool_decide _) eqn:Hshape; [done|].
  destruct (Z.ltb_spec (MaxAlgorithmsPerLevel limits) (Z.of_nat (length (lir_Algorithms raw)))) as [|Hcount]; [done|].
  intros (c & Hloop & H)%bind_Ok. revert H.
  destruct (compileTriggerPlan _ _) as [[[trigger effective] ct]|] eqn:Htrigger; [|done].
  destruct (compileRecoveryPlan _) as [[recovery cr]|] eqn:Hrecovery; [|done].
  destruct (Z.ltb_spec (MaxTriggerWindowSize limits) (WindowSize trigger)); [done|].
  destruct (Enabled recovery && _) eqn:Hcw; [done|].
  destruct (Z.ltb_spec (MaxTriggerComputeCost limits) (triggerComputeCostForLevel trigger recovery)); [done|].
  destruct (required_points trigger recovery) as [required|] eqn:Hreq; [|done].
  destruct (Z.ltb_spec (MaxRequiredHistoryPoints limits) required); [done|].
  destruct (Z.ltb_spec (u32 (required + retentionSlack required trigger recovery (EvaluationInterval execution))) required); [done|].
  destruct (capability_costs _ _ _ _) as [fixed perRecord].
  destruct (level_fingerprints_of _ _ _ _ _ _) as [fingerprints|] eqn:Hfp; [|done].
  intros [= <- <-]. breflect.
  split; cbn [level_definition level_connector level_algorithms level_detectors level_trigger level_recovery level_effectiveTime
    level_stateRequirement level_resourceEstimate sr_RequiredDetectHistoryPoints sr_RetentionPoints re_ASTNodes StatePointsPerSeries level_fingerprints];
    try done; try lia.
  - destruct (String.eqb_spec (lir_Connector raw) LevelConnectorAND); [by left|].
    destruct (String.eqb_spec (lir_Connector raw) LevelConnectorOR); [by right|]. naive_solver.
  - by destruct (lir_Algorithms raw).
  - exists c. by split_and!.
  - by exists ct.
  - by exists cr.
  - intros He. rewrite He in Hcw. simpl in Hcw. lia.
  - by apply level_fingerprints_inv in Hfp.
Qed.

(** ** History *)

Lemma level_typed projection identityFields execution raw level normalizers :
  codec_typed → compiled_as projection identityFields execution raw level normalizers →
  is_u32 (WindowSize (level_trigger level)) ∧ is_u32 (RequiredAnomalies (level_trigger level)) ∧
  is_u32 (StepSeconds (level_trigger level)) ∧ is_u32 (ConsecutiveWindows (level_recovery level)).
Proof.
  intros [Ht Hr] Hc. destruct (ca_trigger _ _ _ _ _ _ Hc) as (ct & Htrigger).
  destruct (ca_recovery _ _ _ _ _ _ Hc) as (cr & Hrecovery).
  apply compileTriggerPlan_inv in Htrigger as (_ & _ & config & Hd & -> & _).
  apply compileRecoveryPlan_inv in Hrecovery as (rconfig & Hrd & _ & -> & _).
  destruct (Ht _ _ Hd) as (? & ? & ?). simpl. split_and!; [done..|].
  destruct (Enabled _); [by eapply Hr|go_lia].
Qed.

Lemma level_plans projection identityFields execution raw level normalizers :
  compiled_as projection identityFields execution raw level normalizers →
  WindowSize (level_trigger level) ≠ 0 ∧ RequiredAnomalies (level_trigger level) ≠ 0 ∧ StepSeconds (level_trigger level) ≠ 0 ∧
  StepSeconds (level_trigger level) = EvaluationInterval execution ∧
  if Enabled (level_recovery level) then ConsecutiveWindows (level_recovery level) ≠ 0
  else ConsecutiveWindows (level_recovery level) = 0.
Proof.
  intros Hc. destruct (ca_trigger _ _ _ _ _ _ Hc) as (ct & Htrigger). destruct (ca_recovery _ _ _ _ _ _ Hc) as (cr & Hrecovery).
  apply compileTriggerPlan_inv in Htrigger as (_ & _ & config & _ & -> & ? & ? & ? & ? & _).
  apply compileRecoveryPlan_inv in Hrecovery as (rconfig & _ & _ & Hcw & Hnz & _). split_and!; [done..|].
  destruct (Enabled _); [by apply Hnz|done].
Qed.

(** The slack is the positions a run of [tolerance_points] holes puts out of reach, at
    least one and less than the required history; or none. *)
Lemma retentionSlack_spec required trigger recovery interval :
  is_u32 required → is_u32 (WindowSize trigger) → is_u32 (RequiredAnomalies trigger) → is_u32 interval →
  retentionSlack required trigger recovery interval = 0 ∨
  (Enabled recovery = true ∧ interval ≠ 0 ∧ RecoveryHoleToleranceSeconds < required * interval ∧
   let needed := WindowSize trigger + (RecoveryHoleToleranceSeconds + interval - 1) / interval + 2 - 3 * RequiredAnomalies trigger in
   retentionSlack required trigger recovery interval = Z.max 1 needed ∧ Z.max 1 needed < required).
Proof.
  intros Hr Hw Ha Hi. unfold retentionSlack. destruct (_ || _) eqn:Hgate; [by left|]. breflect.
  rewrite u64_id by (unfold is_u32, is_u64, maxUint32, maxUint64 in *; nia).
  destruct (Z.leb_spec (required * interval) RecoveryHoleToleranceSeconds) as [|Hspan]; [by left|].
  unfold tolerance_points, RecoveryHoleToleranceSeconds in *. rewrite u64_id by go_lia.
  assert (0 ≤ (600 + interval - 1) / interval ≤ 600 + interval - 1) as Htol.
  { split; [apply Z.div_pos; go_lia|]. apply Z.div_le_upper_bound; [go_lia|unfold is_u32 in *; nia]. }
  rewrite i64_id by go_lia.
  set (needed := WindowSize trigger + _ + 2 - _) in *.
  assert ((if needed <? 1 then 1 else needed) = Z.max 1 needed) as -> by (destruct (Z.ltb_spec needed 1); lia).
  destruct (Z.leb_spec required (Z.max 1 needed)); [by left|]. right. split_and!; [done..| |done].
  apply u32_id. go_lia.
Qed.

Lemma required_points_spec trigger recovery required :
  is_u32 (WindowSize trigger) → is_u32 (ConsecutiveWindows recovery) →
  (if Enabled recovery then ConsecutiveWindows recovery ≠ 0 else ConsecutiveWindows recovery = 0) →
  required_points trigger recovery = Some required →
  required = WindowSize trigger + (if Enabled recovery then ConsecutiveWindows recovery - 1 else 0) ∧ is_u32 required.
Proof.
  intros Hw Hc Hnz. unfold required_points. destruct (Enabled recovery); [|intros [= <-]; split; [lia|done]].
  rewrite (u32_id (ConsecutiveWindows recovery - 1)) by go_lia.
  destruct (Z.ltb_spec (maxUint32 - WindowSize trigger) (ConsecutiveWindows recovery - 1)); [done|]. intros [= <-].
  rewrite u32_id by go_lia. split; [done|go_lia].
Qed.

(** The history of a compiled Level. *)
Lemma level_history_spec projection identityFields execution raw level normalizers :
  codec_typed → is_u32 (EvaluationInterval execution) →
  compiled_as projection identityFields execution raw level normalizers →
  let trigger := level_trigger level in
  let recovery := level_recovery level in
  let required := sr_RequiredDetectHistoryPoints (level_stateRequirement level) in
  let slack := retentionSlack required trigger recovery (EvaluationInterval execution) in
  is_u32 required ∧ is_u32 (required + slack) ∧ sr_RetentionPoints (level_stateRequirement level) = required + slack ∧
  required = WindowSize trigger + (if Enabled recovery then ConsecutiveWindows recovery - 1 else 0) ∧
  (slack = 0 ∨ Enabled recovery = true ∧ 1 ≤ slack < required ∧
     WindowSize trigger + (RecoveryHoleToleranceSeconds + StepSeconds trigger - 1) / StepSeconds trigger + 2
       - 3 * RequiredAnomalies trigger ≤ slack).
Proof.
  intros Htyped Hi Hc trigger recovery required slack.
  destruct (level_typed _ _ _ _ _ _ Htyped Hc) as (Hw & Ha & Hs & Hcw).
  destruct (level_plans _ _ _ _ _ _ Hc) as (Hw0 & Ha0 & Hs0 & Hstep & Hcw0).
  destruct (required_points_spec _ _ _ Hw Hcw Hcw0 (ca_required _ _ _ _ _ _ Hc)) as [Hreq Hru].
  pose proof (ca_retention _ _ _ _ _ _ Hc) as Hret. pose proof (ca_no_wrap _ _ _ _ _ _ Hc) as Hnw.
  fold required trigger recovery in Hret, Hnw, Hreq, Hru. fold slack in Hret.
  pose proof (retentionSlack_spec required trigger recovery (EvaluationInterval execution) Hru Hw Ha Hi) as Hslack.
  fold slack in Hslack. assert (0 ≤ slack ≤ required) as Hb by (destruct Hslack as [->|(_ & _ & _ & -> & ?)]; go_lia).
  assert (is_u32 (required + slack)) as Hsum.
  { rewrite Hret in Hnw. destruct (Z.leb_spec (required + slack) maxUint32); [go_lia|exfalso].
    assert (u32 (required + slack) = required + slack - 2 ^ 32); [|go_lia].
    unfold u32. rewrite <- (Z.mod_unique_pos (required + slack) (2 ^ 32) 1 (required + slack - 2 ^ 32)); go_lia. }
  rewrite u32_id in Hret by done. split_and!; [done..|]. destruct Hslack as [->|(He & _ & _ & Hs' & Hmax)]; [by left|right].
  fold trigger in Hstep. rewrite Hstep. split; [done|]. cbv zeta in Hs', Hmax. lia.
Qed.

(** It is what the trigger computes. *)
Lemma level_required projection identityFields execution raw level normalizers :
  codec_typed → is_u32 (EvaluationInterval execution) →
  compiled_as projection identityFields execution raw level normalizers →
  requiredHistoryPointsV2 (level_trigger level) (level_recovery level) =
    Some (sr_RequiredDetectHistoryPoints (level_stateRequirement level)).
Proof.
  intros Htyped Hi Hc. destruct (level_typed _ _ _ _ _ _ Htyped Hc) as (Hw & _ & _ & Hcw).
  destruct (level_plans _ _ _ _ _ _ Hc) as (Hw0 & Ha0 & Hs0 & _ & Hcw0).
  destruct (level_history_spec _ _ _ _ _ _ Htyped Hi Hc) as (Hru & _ & _ & Hreq & _).
  unfold requiredHistoryPointsV2.
  rewrite (proj2 (Z.eqb_neq _ 0) Hw0), (proj2 (Z.eqb_neq _ 0) Ha0), (proj2 (Z.eqb_neq _ 0) Hs0). simpl.
  destruct (Enabled (level_recovery level)).
  - rewrite (proj2 (Z.eqb_neq _ 0) Hcw0). rewrite (u32_id (_ - 1)) by go_lia. simpl.
    rewrite (proj2 (Z.ltb_ge _ _)) by go_lia. f_equal. rewrite Hreq. unfold u32.
    rewrite Zminus_mod_idemp_l, Z.mod_small by go_lia. lia.
  - rewrite Hcw0. simpl. f_equal. lia.
Qed.

(** It is a Level the trigger's own theorems are about. *)
Lemma level_admitted projection identityFields execution raw level normalizers :
  codec_typed → digests_typed → is_u32 (EvaluationInterval execution) →
  compiled_as projection identityFields execution raw level normalizers →
  level_compiled (trigger_view level).
Proof.
  intros Htyped Hdigest Hi Hc. destruct (level_typed _ _ _ _ _ _ Htyped Hc) as (Hw & Ha & Hs & Hcw).
  destruct (level_history_spec _ _ _ _ _ _ Htyped Hi Hc) as (_ & Hsum & Hret & _).
  split; simpl.
  - split; simpl; by rewrite ?Hret.
  - rewrite (ca_definition _ _ _ _ _ _ Hc). by apply (ca_id _ _ _ _ _ _ Hc).
  - rewrite (ca_definition _ _ _ _ _ _ Hc). by apply (ca_priority _ _ _ _ _ _ Hc).
  - destruct (ca_fingerprint _ _ _ _ _ _ Hc) as (d & t & r & Hfp). by eapply Hdigest.
  - rewrite (level_required _ _ _ _ _ _ Htyped Hi Hc). by eexists.
Qed.

(** C18: a Level that compiles is one the trigger can evaluate; it requires exactly the positions the trigger computes for it,
    its window and one position for each further consecutive window, without
    overflow; it retains them all, and less than twice as many; a Level with no
    recovery retains nothing more; and every size it states is within the limits. *)
Theorem level_history projection identityFields execution raw level normalizers :
  codec_typed → digests_typed → is_u32 (EvaluationInterval execution) →
  compileLevel registry limits projection identityFields execution raw = Ok (level, normalizers) →
  let view := trigger_view level in
  let required := RequiredDetectHistoryPoints view in
  let retained := StateRequirement_RetentionPoints view in
  level_compiled view ∧
  requiredHistoryPointsV2 (Trigger view) (Recovery view) = Some required ∧
  required = WindowSize (Trigger view) + (if Enabled (Recovery view) then ConsecutiveWindows (Recovery view) - 1 else 0) ∧
  StepSeconds (Trigger view) = EvaluationInterval execution ∧
  (retained = required ∨ Enabled (Recovery view) = true ∧ required < retained < 2 * required) ∧
  WindowSize (Trigger view) ≤ MaxTriggerWindowSize limits ∧
  (Enabled (Recovery view) = true → ConsecutiveWindows (Recovery view) ≤ MaxRecoveryConsecutiveWindows limits) ∧
  required ≤ MaxRequiredHistoryPoints limits ∧
  triggerComputeCostForLevel (Trigger view) (Recovery view) ≤ MaxTriggerComputeCost limits ∧
  StatePointsPerSeries (level_resourceEstimate level) = retained.
Proof.
  intros Htyped Hdigest Hi Hc%compileLevel_inv.
  destruct (level_typed _ _ _ _ _ _ Htyped Hc) as (Hw & Ha & Hs & Hcw).
  destruct (level_plans _ _ _ _ _ _ Hc) as (Hw0 & Ha0 & Hs0 & Hstep & Hcw0).
  destruct (level_history_spec _ _ _ _ _ _ Htyped Hi Hc) as (Hru & Hsum & Hret & Hreq & Hslack).
  intros view required retained.
  assert (requiredHistoryPointsV2 (Trigger view) (Recovery view) = Some required) as Hrequired
    by (by apply (level_required _ _ _ _ _ _ Htyped Hi Hc)).
  split_and!; try done.
  - by apply (level_admitted _ _ _ _ _ _ Htyped Hdigest Hi Hc).
  - subst retained required. simpl. rewrite Hret. destruct Hslack as [->|(? & ? & ?)]; [left; lia|right].
    split; [done|]. lia.
  - apply (ca_window _ _ _ _ _ _ Hc).
  - apply (ca_consecutive _ _ _ _ _ _ Hc).
  - apply (ca_history _ _ _ _ _ _ Hc).
  - apply (ca_cost _ _ _ _ _ _ Hc).
  - apply (ca_points _ _ _ _ _ _ Hc).
Qed.
End spec.
