(* ===== verification/RecoverySlack.v ===== *)
(** The positions a Level retains beyond the ones it requires (strategy/compiler.go,
    [retentionSlack]) let its recovery step over one outage. *)
From S2P Require Import Prelude GoHash TriggerEvent History Trigger RecoveryWalk TriggerLevel.
From S2P Require Import Reason Decimal AlgorithmInput Predicate ThresholdCompiler EffectiveTime LevelCompiler LevelSpec.

Open Scope Z_scope.

(** ** Counting misses *)

(** Every offset of [l] that is a miss is counted, when no window triggered and all
    can be formed. *)
Lemma misses_from_all verdict n k :
  (∀ j, k ≤ j < k + Z.of_nat n → verdict j = Some WindowMiss ∨ verdict j = Some WindowOpen) →
  ∀ j, k ≤ j < k + Z.of_nat n → verdict j = Some WindowMiss → j ∈ misses_from verdict n k.
Proof.
  revert k. induction n as [|n IH]; intros k Hall j Hj Hmiss; [lia|]. cbn [misses_from].
  assert (k ≠ j → j ∈ misses_from verdict n (k + 1)) as Hrest.
  { intros Hne. apply IH; [intros i Hi; apply Hall; lia|lia|done]. }
  destruct (decide (k = j)) as [->|Hne]; [rewrite Hmiss; by left|].
  destruct (Hall k ltac:(lia)) as [->| ->].
  - right. by apply Hrest.
  - by apply Hrest.
Qed.

Lemma NoDup_length_le (l k : list Z) : NoDup l → (∀ x, x ∈ l → x ∈ k) → (length l ≤ length k)%nat.
Proof. intros Hl Hin. by apply submseteq_length, NoDup_submseteq. Qed.

Lemma misses_count verdict n l :
  (∀ j, 0 ≤ j < Z.of_nat n → verdict j = Some WindowMiss ∨ verdict j = Some WindowOpen) →
  NoDup l → (∀ k, k ∈ l → 0 ≤ k < Z.of_nat n ∧ verdict k = Some WindowMiss) →
  Z.of_nat (length l) ≤ Z.of_nat (length (misses_from verdict n 0)).
Proof.
  intros Hall Hl Hk. apply Nat2Z.inj_le, NoDup_length_le; [done|]. intros k Hin. destruct (Hk k Hin) as [Hr Hm].
  apply misses_from_all; [by rewrite Z.add_0_l|lia|done].
Qed.

(** ** One outage *)

Section outage.
Variables (plan : TriggerPlan) (obs : list (Z * bool)) (t retained h H : Z).
Hypothesis plan_size : is_u32 (WindowSize plan).
Hypothesis plan_step : is_u32 (StepSeconds plan).
Hypothesis size_pos : 0 < WindowSize plan.
Hypothesis step_pos : 0 < StepSeconds plan.
Hypothesis required_pos : 0 < RequiredAnomalies plan.
Hypothesis run_start : 0 ≤ h.
Hypothesis run_length : 0 ≤ H.
Hypothesis run_inside : h + H ≤ retained.
Hypothesis window_fits : (retained + WindowSize plan) * StepSeconds plan ≤ t.
Hypothesis time_bound : t ≤ maxInt64.
(** Nothing observed was anomalous, and every retained position was observed but
    the [H] that start [h] positions back. *)
Hypothesis all_normal : ∀ o, o ∈ obs → o.2 = false.
Hypothesis answered : ∀ k, 0 ≤ k < retained → ¬ (h ≤ k < h + H) → (t - k * StepSeconds plan, false) ∈ obs.

Notation W := (WindowSize plan).
Notation R := (RequiredAnomalies plan).
Notation S := (StepSeconds plan).

Lemma no_anomalies s e : anomalies_count obs s e = 0.
Proof.
  unfold anomalies_count, anomalies_in. rewrite (filter_none (λ o : Z * bool, o.2 = true)); [done|].
  intros o Ho. apply list_elem_of_filter in Ho as [_ Ho]. by rewrite (all_normal _ Ho).
Qed.

(** A window holds an interval of answered positions. *)
Lemma answered_interval k a b :
  0 ≤ k ≤ a → b ≤ k + W → b ≤ retained → (∀ j, a ≤ j < b → ¬ (h ≤ j < h + H)) →
  b - a ≤ Z.of_nat (length (observed_in obs (t - k * S - (W * S - 1)) (t - k * S))).
Proof.
  intros Hk Hb Hr Hrun. set (positions := (λ j, t - j * S) <$> seqZ a (b - a)).
  assert (NoDup positions) as Hnd.
  { apply NoDup_fmap_2; [|apply NoDup_seqZ]. intros i j Hij. nia. }
  assert ((length positions ≤ length (observed_in obs (t - k * S - (W * S - 1)) (t - k * S)).*1)%nat) as Hlen.
  { apply NoDup_length_le; [done|]. intros x (j & -> & Hj)%list_elem_of_fmap. apply elem_of_seqZ in Hj.
    apply list_elem_of_fmap. exists (t - j * S, false). split; [done|]. apply list_elem_of_filter. split.
    - unfold in_range. cbn [fst]. nia.
    - apply answered; [lia|]. apply Hrun. lia. }
  unfold positions in Hlen. rewrite !length_fmap, length_seqZ in Hlen. lia.
Qed.

Lemma outage_window k : 0 ≤ k < retained → window_back plan t k = Some (t - k * S - (W * S - 1), t - k * S).
Proof.
  intros Hk. assert (0 ≤ k * S ∧ k * S + W * S ≤ t ∧ 0 < W * S) as (? & ? & ?) by nia.
  unfold window_back, windowStartV2. rewrite multiply_spec by done.
  rewrite (proj2 (Z.ltb_ge _ 0)) by lia. rewrite (proj2 (Z.leb_le (W * S) maxInt64)) by lia.
  rewrite (proj2 (Z.eqb_neq _ 0)) by lia. by rewrite (proj2 (Z.ltb_ge _ (W * S - 1))) by lia.
Qed.

Lemma outage_verdict k :
  0 ≤ k < retained → obs_verdict_at plan obs t k = Some WindowMiss ∨ obs_verdict_at plan obs t k = Some WindowOpen.
Proof.
  intros Hk. unfold obs_verdict_at. rewrite outage_window by done. simpl. unfold obs_verdict. rewrite no_anomalies.
  rewrite (proj2 (Z.leb_gt R 0)) by lia. destruct (_ <=? _); auto.
Qed.

Lemma outage_miss k a b :
  0 ≤ k < retained → k ≤ a → b ≤ k + W → b ≤ retained → W - R < b - a → (∀ j, a ≤ j < b → ¬ (h ≤ j < h + H)) →
  obs_verdict_at plan obs t k = Some WindowMiss.
Proof.
  intros Hk Ha Hb Hr Hlong Hrun. pose proof (answered_interval k a b ltac:(lia) Hb Hr Hrun) as Hobs.
  unfold obs_verdict_at. rewrite outage_window by done. simpl. unfold obs_verdict. rewrite no_anomalies.
  rewrite (proj2 (Z.leb_gt R 0)) by lia. rewrite (proj2 (Z.leb_gt R (0 + _))); [done|]. unfold holes_in. lia.
Qed.

(** The windows that are misses: those that end before the outage leaves [R] of their
    positions missing, and those past it, while no more than that run off the end. *)
Lemma miss_before k : 0 ≤ k < retained → k < h - W + R → obs_verdict_at plan obs t k = Some WindowMiss.
Proof. intros Hk Hb. apply (outage_miss k k (Z.min h (k + W))); [done|lia..|]. intros j Hj. lia. Qed.

Lemma miss_after k :
  0 ≤ k < retained → h + H + W < retained + R → h + H - R < k → k < retained - W + R → obs_verdict_at plan obs t k = Some WindowMiss.
Proof.
  intros Hk Hfar Ha Hb. apply (outage_miss k (Z.max k (h + H)) (Z.min retained (k + W))); [done|lia..|]. intros j Hj. lia.
Qed.

Lemma misses_of_ranges a b c d :
  0 ≤ a → 0 ≤ b → a + b ≤ c → 0 ≤ d → c + d ≤ retained →
  (∀ k, a ≤ k < a + b ∨ c ≤ k < c + d → obs_verdict_at plan obs t k = Some WindowMiss) →
  b + d ≤ Z.of_nat (length (misses_from (obs_verdict_at plan obs t) (Z.to_nat retained) 0)).
Proof.
  intros. transitivity (Z.of_nat (length (seqZ a b ++ seqZ c d))); [rewrite length_app, !length_seqZ; lia|].
  apply misses_count.
  - intros j Hj. apply outage_verdict. lia.
  - apply NoDup_app. split_and!; [apply NoDup_seqZ| |apply NoDup_seqZ]. intros x. rewrite !elem_of_seqZ. lia.
  - intros k. rewrite elem_of_app, !elem_of_seqZ. intros Hk. split; [lia|]. auto with lia.
Qed.

(** Enough windows are misses, when the slack covers the outage. *)
Lemma outage_misses consecutive slack :
  0 < consecutive → 1 ≤ slack → retained = W + consecutive - 1 + slack → W + H + 2 - 3 * R ≤ slack →
  (h + H + W < retained + R ∨ W + H + 1 - 2 * R ≤ slack) →
  consecutive ≤ Z.of_nat (length (misses_from (obs_verdict_at plan obs t) (Z.to_nat retained) 0)).
Proof.
  intros Hc Hs Hret Hslack Hfar.
  destruct (Z.le_gt_cases R W) as [HRW|HRW].
  2: { transitivity (consecutive + 0); [lia|]. apply (misses_of_ranges 0 consecutive consecutive 0); try lia.
       intros k Hk. apply (outage_miss k k k); lia. }
  destruct (Z.le_gt_cases consecutive (h - W + R)) as [Hn|Hn].
  { transitivity (consecutive + 0); [lia|]. apply (misses_of_ranges 0 consecutive consecutive 0); try lia.
    intros k Hk. apply miss_before; lia. }
  assert (h + H + W < retained + R) as Hnear by lia.
  assert (∀ k, h + H - R < k < retained - W + R → 0 ≤ k < retained → obs_verdict_at plan obs t k = Some WindowMiss) as Hafter.
  { intros k Hk Hr. apply miss_after; lia. }
  destruct (Z.le_gt_cases (h + H - R + 1) (Z.max 0 (h - W + R))) as [Hover|Hover].
  - transitivity (consecutive + 0); [lia|]. apply (misses_of_ranges 0 consecutive consecutive 0); try lia.
    intros k Hk. destruct (Z.lt_ge_cases k (h - W + R)); [apply miss_before; lia|apply Hafter; lia].
  - transitivity (Z.max 0 (h - W + R) + (retained - W + R - (h + H - R + 1))); [lia|].
    apply (misses_of_ranges 0 (Z.max 0 (h - W + R)) (h + H - R + 1) (retained - W + R - (h + H - R + 1))); try lia.
    intros k [Hk|Hk]; [apply miss_before; lia|apply Hafter; lia].
Qed.
End outage.

(** ** The compiled Level *)

Section compiled.
Context `{Digests : !CompilerDigests, Codec : !ConfigCodec}.

(** The positions a record at [t] can look back on, all observed and normal but the
    [H] that start [h] back. *)
Record one_outage (level : CompiledLevel) (obs : list (Z * bool)) (t h H : Z) : Prop := {
  oo_run : 0 ≤ h ∧ 0 ≤ H ∧ h + H ≤ sr_RetentionPoints (level_stateRequirement level);
  oo_epoch : (sr_RetentionPoints (level_stateRequirement level) + WindowSize (level_trigger level)) * StepSeconds (level_trigger level) ≤ t;
  oo_time : t + StepSeconds (level_trigger level) ≤ maxInt64;
  oo_normal : ∀ o, o ∈ obs → o.2 = false;
  oo_answered : ∀ k, 0 ≤ k < sr_RetentionPoints (level_stateRequirement level) → ¬ (h ≤ k < h + H) →
    (t - k * StepSeconds (level_trigger level), false) ∈ obs;
}.

(** The outage is within the tolerance; and it either leaves the far end of the window to
    spare, or is shorter by one position less than the threshold. *)
Definition within_tolerance (level : CompiledLevel) (h H : Z) : Prop :=
  H * StepSeconds (level_trigger level) ≤ RecoveryHoleToleranceSeconds ∧
  (h + H + WindowSize (level_trigger level) < sr_RetentionPoints (level_stateRequirement level) + RequiredAnomalies (level_trigger level) ∨
   (H + RequiredAnomalies (level_trigger level) - 1) * StepSeconds (level_trigger level) ≤ RecoveryHoleToleranceSeconds).

Lemma tolerance_covers m step : 0 < step → m * step ≤ RecoveryHoleToleranceSeconds →
  m ≤ (RecoveryHoleToleranceSeconds + step - 1) / step.
Proof. intros Hs Hm. apply Z.div_le_lower_bound; lia. Qed.

Lemma slack_covers registry limits projection identityFields execution raw level normalizers obs t h H :
  codec_typed → is_u32 (EvaluationInterval execution) →
  compileLevel registry limits projection identityFields execution raw = Ok (level, normalizers) →
  sr_RequiredDetectHistoryPoints (level_stateRequirement level) < sr_RetentionPoints (level_stateRequirement level) →
  one_outage level obs t h H → within_tolerance level h H →
  Enabled (level_recovery level) = true ∧
  ConsecutiveWindows (level_recovery level) ≤
    Z.of_nat (length (misses_from (obs_verdict_at (level_trigger level) obs t)
                        (Z.to_nat (sr_RetentionPoints (level_stateRequirement level))) 0)).
Proof.
  intros Htyped Hi Hc%compileLevel_inv Hmore [(Hh & HH & Hin) Hepoch Htime Hnormal Hanswered] [Htol Hfar].
  destruct (level_typed _ _ _ _ _ _ _ _ Htyped Hc) as (Hw & Ha & Hs & Hcw).
  destruct (level_plans _ _ _ _ _ _ _ _ Hc) as (Hw0 & Ha0 & Hs0 & Hstep & Hcw0).
  destruct (level_history_spec _ _ _ _ _ _ _ _ Htyped Hi Hc) as (Hru & Hsum & Hret & Hreq & Hslack).
  destruct Hslack as [Hslack|(He & Hpos & Hneed)]; [lia|]. rewrite He in *. split; [done|].
  set (slack := retentionSlack _ _ _ _) in *.
  assert (0 < StepSeconds (level_trigger level)) as Hs' by go_lia.
  pose proof (tolerance_covers _ _ Hs' Htol) as Hcover.
  apply (outage_misses _ _ _ _ h H) with (slack := slack); try done; try go_lia.
  destruct Hfar as [Hfar|Hfar]; [by left|right]. pose proof (tolerance_covers _ _ Hs' Hfar). lia.
Qed.
(** C3: a Level that retains more than it requires recovers through one outage: when every
    position its record can look back on was observed and normal but one run within the
    tolerance, and the run leaves the far end of what is retained to spare or is shorter
    than the tolerance by one position less than the trigger's threshold, the evaluation answers RECOVERY. *)
Theorem slack_reaches_recovery `{!HistoryView V} registry limits projection identityFields execution raw level normalizers
    (request : EvaluationRequestV2 V) fact history obs effective eligibility outcome r h H :
  let t := SourceTime (Record_ request) in
  codec_typed → is_u32 (EvaluationInterval execution) →
  compileLevel registry limits projection identityFields execution raw = Ok (level, normalizers) →
  sr_RequiredDetectHistoryPoints (level_stateRequirement level) < sr_RetentionPoints (level_stateRequirement level) →
  represents history obs → one_outage level obs t h H → within_tolerance level h H →
  fact_usable fact = true → ef_status effective = EffectiveTimeActive →
  evaluateLevelV2 request (trigger_view level) fact history effective eligibility = Ok (outcome, r) →
  lo_Result outcome = LevelResultRecovery.
Proof.
  intros t Htyped Hi Hc Hmore Hrep Hone Htol Hu Hact Heval.
  destruct (slack_covers _ _ _ _ _ _ _ _ _ _ _ _ Htyped Hi Hc Hmore Hone Htol) as [He Hmisses].
  pose proof Hone as [(Hh & HH & Hin) Hepoch Htime Hnormal _]. apply compileLevel_inv in Hc.
  destruct (level_typed _ _ _ _ _ _ _ _ Htyped Hc) as (Hw & Ha & Hs & Hcw).
  destruct (level_plans _ _ _ _ _ _ _ _ Hc) as (_ & Ha0 & _ & _ & _).
  destruct (level_history_spec _ _ _ _ _ _ _ _ Htyped Hi Hc) as (Hru & Hsum & Hret & _).
  assert (0 ≤ t) as Ht by (unfold is_u32 in *; nia).
  destruct (level_verdict_spec request (trigger_view level) fact history obs effective eligibility outcome r) as [-> _]; try done.
  { split; simpl; by rewrite ?Hret. }
  unfold reference_verdict. cbn [trigger_view Trigger Recovery StateRequirement_RetentionPoints].
  rewrite (no_anomalies obs Hnormal), (proj2 (Z.leb_gt _ 0)), andb_false_r by go_lia.
  rewrite He, (proj2 (Z.leb_le _ _)) by exact Hmisses. done.
Qed.
End compiled.
