(* ===== verification/LevelExamples.v ===== *)
(** Concrete compilations of Levels and Plans. *)
From S2P Require Import Prelude GoHash TriggerEvent History Trigger RecoveryWalk TriggerLevel.
From S2P Require Import Reason Decimal AlgorithmInput Predicate ThresholdCompiler EffectiveTime DetectExamples LevelCompiler LevelSpec RecoverySlack.

Open Scope Z_scope.

(** ** Digests and codecs

    Every digest is one word, and a configuration is read by its name. *)

#[local] Instance ex_digests : CompilerDigests := {|
  normalizer_digest := ex_normalizer_digest;
  predicate_digest := ex_predicate_digest;
  requirement_digest := λ _, Some some_digest;
  capability_digest := λ _, Some some_digest;
  config_digest := λ _, Some some_digest;
  state_compatibility_digest := λ _ _ _ _ _ _ _ _, Some some_digest;
  plan_identity_digest := λ _ _ _, Some some_digest;
  projection_digest := λ _, Some some_digest;
  level_semantics_digest := λ _ _, Some some_digest;
  level_detect_digest := λ _ _ _, Some some_digest;
  level_trigger_digest := λ _ _ _, Some some_digest;
|}.

(** A day's window at a minute, one anomaly, and two kinds of recovery. *)
#[local] Instance ex_codec : ConfigCodec := {|
  decode_threshold := λ s, if (s =? "in")%string then Some (ex_config "in") else None;
  decode_trigger := λ s,
    if (s =? "long")%string then Ok (mkTriggerConfig 100 1 60 "" None)
    else if (s =? "short")%string then Ok (mkTriggerConfig 5 3 60 "" None)
    else Err "json"%string;
  decode_recovery := λ s,
    if (s =? "on")%string then Ok (mkRecoveryConfig (Some true) 20)
    else if (s =? "off")%string then Ok (mkRecoveryConfig (Some false) 7)
    else Err "json"%string;
  canonical_trigger := λ _, Some "{}"%string;
  canonical_recovery := λ _, Some "{}"%string;
|}.

Lemma ex_typed : codec_typed.
Proof.
  split; intros s c; cbn [decode_trigger decode_recovery ex_codec];
    repeat case_match; intros [= <-]; cbn [tpc_WindowSize tpc_RequiredAnomalies tpc_StepSeconds rpc_ConsecutiveWindows]; go_lia.
Qed.

Lemma ex_hex : digests_typed.
Proof. by intros ? ? ? ? [= <-]. Qed.

Definition ex_registry : AlgorithmCompilerRegistry :=
  match NewAlgorithmCompilerRegistry [thresholdAlgorithmCompiler] with Ok r => r | Err _ => ∅ end.

Definition ex_projection : InputProjectionV2 := cc_Projection ex_context.
Definition ex_execution : ExecutionSemanticsV2 := cc_ExecutionSemantics ex_context.

(** Limits that hold two hundred positions. *)
Definition ex_limits : Limits := mkLimits 3 4 4 16 64 100 100 200 [] 1000 100000 100000.

Definition ex_ir (id : Z) (trigger recovery : string) : LevelIRV2 :=
  mkLevelIR (mkDefinition id "" id) LevelConnectorAND [mkAlgorithmIR DetectorKindThreshold 1 "in"]
    (mkTypedPlan TriggerPlanTypeNOfM 1 trigger) (mkTypedPlan RecoveryPlanTypeContinuousTriggerMiss 1 recovery).

Definition ex_compile_level (id : Z) (trigger recovery : string) :=
  compileLevel ex_registry ex_limits ex_projection ["host"]%string ex_execution (ex_ir id trigger recovery).

(** The positions a compiled Level requires and retains, or why it was refused. *)
Definition ex_history (r : result LevelRefusal (CompiledLevel * list NumericNormalizerSpec)) : Z * Z * string * string :=
  match r with
  | Ok (level, _) => (sr_RequiredDetectHistoryPoints (level_stateRequirement level), sr_RetentionPoints (level_stateRequirement level), "", "")
  | Err (Refused t) => (0, 0, term_ReasonCode t, term_FieldPath t)
  | Err (Failed detail) => (0, 0, detail, "")
  end%string.

(** A long window retains the slack of a ten minute hole; a short one nothing more; a Level
    without recovery its window; and a recovery that does not decode is refused. *)
Example ex_levels :
  (ex_history (ex_compile_level 1 "long" "on"), ex_history (ex_compile_level 1 "short" "on"),
   ex_history (ex_compile_level 1 "long" "off"), ex_history (ex_compile_level 1 "long" "bad"),
   ex_history (ex_compile_level 0 "long" "on"))
  = ((119, 228, "", ""), (24, 32, "", ""), (100, 100, "", ""), (0, 0, ReasonLevelInvalid, "level.recovery_plan"),
     (0, 0, ReasonLevelInvalid, "level"))%string.
Proof. vm_compute. reflexivity. Qed.

Lemma level_history_witness :
  ∃ level normalizers, ex_compile_level 1 "long" "on" = Ok (level, normalizers) ∧
    requiredHistoryPointsV2 (Trigger (trigger_view level)) (Recovery (trigger_view level)) = Some 119.
Proof.
  destruct (ex_compile_level 1 "long" "on") as [[level normalizers]|] eqn:E; [|vm_compute in E; discriminate E].
  exists level, normalizers. split; [reflexivity|].
  destruct (level_history ex_registry ex_limits ex_projection ["host"]%string ex_execution (ex_ir 1 "long" "on") level normalizers
    ex_typed ex_hex ltac:(split; vm_compute; intros [=]) E) as (_ & Hreq & _).
  rewrite Hreq. vm_compute in E. injection E as <- _. reflexivity.
Defined.

(** ** An outage of ten minutes *)

(** A Level's history as the list of what was observed, at a step. *)
Record listHistory : Type := mkListHistory {
  lh_observed : list (Z * bool);
  lh_step : Z;
}.

#[local] Instance listHistory_view : HistoryView listHistory := {|
  Summarize := λ v t n, mkHistorySummary HistoryGapped (t - (n - 1) * lh_step v) t 0 n 0 (replicate 32 0);
  CountAnomalies := λ v a b, Z.of_nat (length (anomalies_in (lh_observed v) a b));
  FirstAnomaly := λ v a b, match anomalies_in (lh_observed v) a b with [] => (0, false) | o :: _ => (o.1, true) end;
  CountObserved := λ v a b, Z.of_nat (length (observed_in (lh_observed v) a b));
  ForEachAnomaly := λ _, None;
|}.

Definition ex_step_execution : ExecutionSemanticsV2 := mkSemantics EvaluationScopeSeries 300 300 300 0.

(** Every five minutes: a window of three, one anomaly, recovering over six. *)
#[local] Instance ex_slow_codec : ConfigCodec := {|
  decode_threshold := @decode_threshold ex_codec;
  decode_trigger := λ _, Ok (mkTriggerConfig 3 1 300 "" None);
  decode_recovery := λ _, Ok (mkRecoveryConfig (Some true) 6);
  canonical_trigger := λ _, Some "{}"%string;
  canonical_recovery := λ _, Some "{}"%string;
|}.

Lemma ex_slow_typed : codec_typed (Codec := ex_slow_codec).
Proof. split; intros s c [= <-]; cbn [tpc_WindowSize tpc_RequiredAnomalies tpc_StepSeconds rpc_ConsecutiveWindows]; go_lia. Qed.

Definition ex_slow := compileLevel (Codec := ex_slow_codec) ex_registry ex_limits ex_projection ["host"]%string ex_step_execution (ex_ir 1 "" "").

(** Twelve positions are retained; the record is at 6000, and the second and third back
    were missed. *)
Definition ex_observed : list (Z * bool) :=
  (λ k, (6000 - k * 300, false)) <$> [11; 10; 9; 8; 7; 6; 5; 4; 3; 0].

Definition ex_slow_level : CompiledLevel :=
  match ex_slow with Ok (level, _) => level | Err _ =>
    mkLevel (mkDefinition 0 "" 0) "" [] [] (mkTrigger 0 0 0) (mkRecovery false 0) always_requirement
      (mkStateRequirement 0 0) (mkFingerprints "" "") (mkEstimate 0 0 0 0 0 0) end.

Definition ex_slow_fact : DetectionFact :=
  mkDetection (mkDefinition 1 "" 1) some_digest DetectionNormal "" (mkEvidence some_digest (Some 0) None None "").

Definition ex_slow_request : EvaluationRequestV2 listHistory :=
  mkRequest "tenant" "2" None (mkDetectionRecord "record" 6000 [mkProjected "12.000000" true ""] [ex_slow_fact])
    "record" 6000 (Some ∅) (Some ∅) [] [] 6000 "execution" false (Trigger.mkLimits 10 100 100 100 10 100000 1000) None None.

Definition ex_slow_active : EffectiveTimeFact := mkEffective EffectiveTimeActive some_digest some_digest some_digest 0 10000.

Definition ex_slow_evaluated :=
  evaluateLevelV2 ex_slow_request (trigger_view ex_slow_level) ex_slow_fact (mkListHistory ex_observed 300) ex_slow_active StateAdvance.

Example ex_slow_sizes :
  (sr_RequiredDetectHistoryPoints (level_stateRequirement ex_slow_level), sr_RetentionPoints (level_stateRequirement ex_slow_level)) = (8, 12).
Proof. vm_compute. reflexivity. Qed.

Lemma ex_slow_one_outage : one_outage ex_slow_level ex_observed 6000 1 2.
Proof.
  split.
  - vm_compute. split_and!; discriminate.
  - vm_compute. discriminate.
  - vm_compute. discriminate.
  - intros o Ho. unfold ex_observed in Ho. apply list_elem_of_fmap in Ho as (k & -> & _). reflexivity.
  - assert (sr_RetentionPoints (level_stateRequirement ex_slow_level) = 12) as -> by (vm_compute; reflexivity).
    assert (StepSeconds (level_trigger ex_slow_level) = 300) as -> by (vm_compute; reflexivity).
    intros k Hk Hrun. apply list_elem_of_fmap. exists k. split; [reflexivity|].
    assert (k = 0 ∨ 3 ≤ k ≤ 11) as Hcases by lia. clear -Hcases. rewrite !elem_of_cons. lia.
Qed.

Lemma slack_reaches_recovery_witness :
  ∃ outcome r, ex_slow_evaluated = Ok (outcome, r) ∧ lo_Result outcome = LevelResultRecovery.
Proof.
  destruct ex_slow_evaluated as [[outcome r]|] eqn:E; [|vm_compute in E; discriminate E].
  exists outcome, r. split; [reflexivity|].
  assert (ex_slow = Ok (ex_slow_level, [ex_kilobytes])) as Hc by (vm_compute; reflexivity).
  refine (slack_reaches_recovery (Codec := ex_slow_codec) _ _ _ _ _ _ _ _ ex_slow_request ex_slow_fact (mkListHistory ex_observed 300)
    ex_observed ex_slow_active StateAdvance outcome r 1 2 ex_slow_typed _ Hc _ _ ex_slow_one_outage _ eq_refl eq_refl E).
  - split; vm_compute; discriminate.
  - reflexivity.
  - split; [|vm_compute; discriminate|done..]. repeat constructor.
  - split; [vm_compute; discriminate|left; reflexivity].
Defined.

(** The tolerance is not reached at a threshold of two when the outage leaves nothing to
    spare: a run of ten missing minutes near the far end leaves 29 misses of the 30
    needed. *)
Definition ex_far_slack : Z := retentionSlack 39 (mkTrigger 10 2 60) (mkRecovery true 30) 60.
Definition ex_far_observed : list (Z * bool) :=
  (λ k, (6000 - k * 60, false)) <$> (rev (filter (λ k, ¬ 37 ≤ k < 47) (seqZ 0 (39 + ex_far_slack)))).

Example ex_far_outage :
  (ex_far_slack, length (misses_from (obs_verdict_at (mkTrigger 10 2 60) ex_far_observed 6000) (Z.to_nat (39 + ex_far_slack)) 0))
  = (16, 29%nat).
Proof. vm_compute. reflexivity. Qed.
