(* ===== verification/Group.v ===== *)
(** No-data groups (nodata/group.go): the projection of a series onto its
    dimension group, the group's key, and the reading of a key back into a
    group. A Go string is its bytes. *)
From Stdlib Require Import Ascii.
From S2P Require Import Prelude.

Open Scope Z_scope.

(** ** Data *)

Record Dimension : Type := mkDimension {
  Name : string;
  Value : string;
}.

#[export] Instance Dimension_eq_dec : EqDecision Dimension.
Proof. solve_decision. Defined.

Record Group : Type := mkGroup {
  dimensions : list Dimension;
}.

#[export] Instance Group_eq_dec : EqDecision Group.
Proof. solve_decision. Defined.

Definition NoDataDimensionTag : string := "__NO_DATA_DIMENSION__".

Definition WholeItemGroup : Group := mkGroup [].

(** ** The key *)

Definition backslash : ascii := "\".
Definition equals : ascii := "=".
Definition comma : ascii := ",".

Definition escaped_byte (c : ascii) : bool := bool_decide (c ∈ [backslash; equals; comma]).

(** [strings.NewReplacer] of single bytes: each byte on its own. *)
Fixpoint escapeGroupText (text : string) : string :=
  match text with
  | "" => ""
  | String c text => if escaped_byte c then String backslash (String c (escapeGroupText text))
                     else String c (escapeGroupText text)
  end%string.

(** [strings.NewReplacer] of the escapes: the first that matches at a position
    is replaced and stepped over. *)
Fixpoint unescapeGroupText (text : string) : string :=
  match text with
  | "" => ""
  | String c text =>
      if bool_decide (c = backslash) then
        match text with
        | String d rest => if escaped_byte d then String d (unescapeGroupText rest) else String c (unescapeGroupText text)
        | "" => String c ""
        end
      else String c (unescapeGroupText text)
  end%string.

Definition tag_text : string := NoDataDimensionTag +:+ "=true".

Definition key_part (d : Dimension) : string := escapeGroupText (Name d) +:+ "=" +:+ escapeGroupText (Value d).

(** [strings.Join]. *)
Fixpoint join (separator : string) (parts : list string) : string :=
  match parts with
  | [] => ""
  | [part] => part
  | part :: parts => part +:+ separator +:+ join separator parts
  end.

Definition Key (group : Group) : string :=
  match dimensions group with
  | [] => tag_text
  | ds => join "," ((key_part <$> ds) ++ [tag_text])
  end.

(** ** Projection *)

Definition name_le (l r : Dimension) : Prop := String.le (Name l) (Name r).
#[export] Instance name_le_dec : RelDecision name_le.
Proof. intros l r. unfold name_le. apply _. Defined.
#[export] Instance name_le_total : Total name_le.
Proof. intros x y. unfold name_le. apply (total String.le). Qed.
#[export] Instance name_le_trans : Transitive name_le.
Proof. intros x y z. unfold name_le. apply (transitivity (R := String.le)). Qed.

Definition reduce_dimensions (series : gmap string string) (aggDimension : list string) : option (list Dimension) :=
  mapM (λ name, mkDimension name <$> series !! name) aggDimension.

Definition Project (series : gmap string string) (aggDimension : list string) : option Group :=
  match aggDimension with
  | [] => Some WholeItemGroup
  | _ =>
      match reduce_dimensions series aggDimension with
      | None => None
      | Some reduced => Some (mkGroup (stable_sort name_le reduced))
      end
  end.

Record ProjectionTally : Type := mkTally {
  Groups : gmap string Group;
  Dropped : Z;
}.

Definition tally_series (aggDimension : list string) (tally : ProjectionTally) (series : gmap string string) : ProjectionTally :=
  match Project series aggDimension with
  | None => mkTally (Groups tally) (u64 (Dropped tally + 1))
  | Some group => mkTally (<[Key group := group]> (Groups tally)) (Dropped tally)
  end.

Definition ProjectSeries (series : list (gmap string string)) (aggDimension : list string) : ProjectionTally :=
  foldl (tally_series aggDimension) (mkTally ∅ 0) series.

(** ** Reading a key *)

(** The loop of [splitEscaped]: the finished parts and the current one. *)
Fixpoint split_loop (separator : ascii) (parts : list string) (current : string) (text : string) : option (list string) :=
  match text with
  | "" => Some (parts ++ [current])%list
  | String c text =>
      if bool_decide (c = backslash) then
        match text with
        | "" => None
        | String d rest => split_loop separator parts (current +:+ String c (String d "")) rest
        end
      else if bool_decide (c = separator) then split_loop separator (parts ++ [current])%list "" text
      else split_loop separator parts (current +:+ String c "") text
  end%string.

Definition splitEscaped (text : string) (separator : ascii) : option (list string) := split_loop separator [] "" text.

Definition parse_pair (part : string) : option Dimension :=
  match splitEscaped part equals with
  | Some [name; value] =>
      if (unescapeGroupText name =? "")%string then None
      else Some (mkDimension (unescapeGroupText name) (unescapeGroupText value))
  | _ => None
  end.

(** [sort.SliceIsSorted] by name. *)
Fixpoint names_sorted (ds : list Dimension) : bool :=
  match ds with
  | l :: (r :: _) as ds => negb (str_ltb (Name r) (Name l)) && names_sorted ds
  | _ => true
  end.

Definition ParseGroupKey (key : string) : option Group :=
  match splitEscaped key comma with
  | None => None
  | Some parts =>
      match last parts with
      | Some tag =>
          if negb (tag =? tag_text)%string then None
          else
            match mapM parse_pair (take (length parts - 1) parts) with
            | None => None
            | Some ds => if negb (names_sorted ds) then None else Some (mkGroup ds)
            end
      | None => None
      end
  end.

(** ** Reading what [Key] wrote *)

Definition splits_at (separator : ascii) : Prop := separator = equals ∨ separator = comma.

Lemma split_step separator parts current c text :
  c ≠ backslash → c ≠ separator →
  split_loop separator parts current (String c text) = split_loop separator parts (current +:+ String c "") text.
Proof. intros H1 H2. cbn [split_loop]. by rewrite !bool_decide_eq_false_2 by done. Qed.

Lemma split_at separator parts current text :
  splits_at separator →
  split_loop separator parts current (String separator text) = split_loop separator (parts ++ [current]) "" text.
Proof.
  intros Hs. cbn [split_loop]. rewrite (bool_decide_eq_true_2 (separator = separator)) by done.
  rewrite bool_decide_eq_false_2; [done|]. by destruct Hs as [-> | ->].
Qed.

(** Escaped text holds no separator the split sees. *)
Lemma split_escaped separator text : splits_at separator →
  ∀ parts current rest,
  split_loop separator parts current (escapeGroupText text +:+ rest)
  = split_loop separator parts (current +:+ escapeGroupText text) rest.
Proof.
  intros Hs. induction text as [|c text IH]; intros parts current rest; cbn [escapeGroupText].
  { by rewrite app_nil_str. }
  unfold escaped_byte. destruct (bool_decide_reflect (c ∈ [backslash; equals; comma])) as [Hc|Hc].
  - rewrite <- !cons_app_str. cbn [split_loop]. rewrite bool_decide_eq_true_2 by done.
    rewrite IH. rewrite app_assoc_str. done.
  - rewrite <- cons_app_str, split_step, IH, app_assoc_str; [done|..]; [set_solver|].
    destruct Hs as [-> | ->]; set_solver.
Qed.

Lemma unescape_escape text : unescapeGroupText (escapeGroupText text) = text.
Proof.
  induction text as [|c text IH]; [done|]. cbn [escapeGroupText]. destruct (escaped_byte c) eqn:Hc.
  - cbn [unescapeGroupText]. rewrite bool_decide_eq_true_2 by done. by rewrite Hc, IH.
  - cbn [unescapeGroupText]. unfold escaped_byte in Hc. apply bool_decide_eq_false in Hc.
    rewrite bool_decide_eq_false_2 by set_solver. by rewrite IH.
Qed.

Lemma split_part parts current d rest :
  split_loop comma parts current (key_part d +:+ rest) = split_loop comma parts (current +:+ key_part d) rest.
Proof.
  unfold key_part. rewrite !app_assoc_str. rewrite split_escaped by (by right).
  change ("=" +:+ escapeGroupText (Value d) +:+ rest) with (String equals (escapeGroupText (Value d) +:+ rest)).
  rewrite split_step by done. rewrite split_escaped by (by right). by rewrite !app_assoc_str.
Qed.

Definition clean (separator : ascii) (text : string) : bool :=
  forallb (λ c, negb (bool_decide (c = backslash)) && negb (bool_decide (c = separator))) (String.list_ascii_of_string text).

Lemma split_clean separator text : clean separator text = true →
  ∀ parts current, split_loop separator parts current text = Some (parts ++ [current +:+ text]).
Proof.
  unfold clean. induction text as [|c text IH]; intros Hc parts current.
  { cbn [split_loop]. by rewrite app_nil_str. }
  cbn [String.list_ascii_of_string forallb] in Hc. breflect. rewrite split_step by done. rewrite IH by done.
  by rewrite app_assoc_str.
Qed.

Lemma split_keys ds parts :
  split_loop comma parts "" (join "," ((key_part <$> ds) ++ [tag_text])) = Some (parts ++ (key_part <$> ds) ++ [tag_text]).
Proof.
  revert parts. induction ds as [|d ds IH]; intros parts; [by apply split_clean|].
  rewrite fmap_cons. cbn [app].
  assert (join "," (key_part d :: (key_part <$> ds) ++ [tag_text])
          = key_part d +:+ String comma (join "," ((key_part <$> ds) ++ [tag_text]))) as ->.
  { cbn [join]. by destruct ((key_part <$> ds) ++ [tag_text]) eqn:E; [destruct ds|]. }
  rewrite split_part, split_at by (by right). rewrite IH. by rewrite <- app_assoc.
Qed.

Lemma split_Key g : splitEscaped (Key g) comma = Some ((key_part <$> dimensions g) ++ [tag_text]).
Proof.
  unfold splitEscaped, Key. pose proof (split_keys (dimensions g) []) as H.
  by destruct (dimensions g).
Qed.

Lemma split_key_part d : splitEscaped (key_part d) equals = Some [escapeGroupText (Name d); escapeGroupText (Value d)].
Proof.
  unfold splitEscaped, key_part. rewrite split_escaped by (by left).
  change ("=" +:+ escapeGroupText (Value d)) with (String equals (escapeGroupText (Value d))).
  rewrite split_at by (by left). rewrite <- (app_nil_str (escapeGroupText (Value d))), split_escaped by (by left).
  cbn [split_loop]. by rewrite app_nil_str.
Qed.

Lemma parse_key_part d : Name d ≠ ""%string → parse_pair (key_part d) = Some d.
Proof.
  intros Hd. unfold parse_pair. rewrite split_key_part, !unescape_escape.
  rewrite (proj2 (String.eqb_neq _ _) Hd). by destruct d.
Qed.

#[export] Instance key_part_inj : Inj (=) (=) key_part.
Proof.
  intros d e H. pose proof (split_key_part d) as Hd. rewrite H, split_key_part in Hd. injection Hd as Hn Hv.
  apply (f_equal unescapeGroupText) in Hn, Hv. rewrite !unescape_escape in Hn, Hv. destruct d, e. simpl in *. congruence.
Qed.

(** Different groups never share a key. *)
#[export] Instance Key_inj : Inj (=) (=) Key.
Proof.
  intros g h H. pose proof (split_Key g) as Hg. rewrite H, split_Key in Hg. injection Hg as Hg.
  apply app_inj_2 in Hg as [Hg _]; [|done]. apply (inj (fmap (M := list) key_part)) in Hg. destruct g, h. simpl in *. congruence.
Qed.

Lemma parse_Key g :
  Forall (λ d, Name d ≠ ""%string) (dimensions g) → names_sorted (dimensions g) = true → ParseGroupKey (Key g) = Some g.
Proof.
  intros Hn Hs. unfold ParseGroupKey. rewrite split_Key, last_snoc. simpl.
  rewrite length_app, Nat.add_sub, take_app_length.
  assert (mapM parse_pair (key_part <$> dimensions g) = Some (dimensions g)) as ->.
  { apply mapM_Some. apply Forall2_fmap_l. apply Forall_Forall2_diag. eapply Forall_impl; [exact Hn|].
    intros d. apply parse_key_part. }
  rewrite Hs. simpl. by destruct g.
Qed.

(** ** The projection *)

Lemma reduce_Some series agg ds :
  reduce_dimensions series agg = Some ds ↔ Forall2 (λ name d, Name d = name ∧ series !! name = Some (Value d)) agg ds.
Proof.
  unfold reduce_dimensions. rewrite mapM_Some. split; intros H; (eapply Forall2_impl; [exact H|]); simpl.
  - by intros name d (v & Hv & ->)%fmap_Some.
  - intros name d [<- Hv]. rewrite Hv. by destruct d.
Qed.

Lemma reduce_fmap series agg ds :
  reduce_dimensions series agg = Some ds → ds = (λ name, mkDimension name (default "" (series !! name))) <$> agg.
Proof.
  intros H%reduce_Some. induction H as [|name d agg ds [<- Hv] _ IH]; [done|].
  rewrite fmap_cons, <- IH, Hv. by destruct d.
Qed.

Lemma reduce_None series agg :
  reduce_dimensions series agg = None ↔ ∃ name, name ∈ agg ∧ series !! name = None.
Proof.
  unfold reduce_dimensions. rewrite eq_None_not_Some, mapM_is_Some, Forall_forall.
  split.
  - intros H. destruct (decide (Exists (λ name, series !! name = None) agg)) as [He|He].
    { apply Exists_exists in He. naive_solver. }
    destruct H. intros name Hn. simpl. rewrite fmap_is_Some. destruct (series !! name) eqn:E; [eauto|].
    destruct He. apply Exists_exists. eauto.
  - intros (name & Hn & Hs) H. specialize (H name Hn). simpl in H. rewrite Hs in H. by destruct H.
Qed.

Lemma reduce_ext series series' agg :
  (∀ name, name ∈ agg → series !! name = series' !! name) → reduce_dimensions series agg = reduce_dimensions series' agg.
Proof.
  unfold reduce_dimensions. induction agg as [|name agg IH]; intros H; [done|]. simpl.
  rewrite H by left. rewrite IH; [done|]. intros; apply H; by right.
Qed.

Lemma reduce_elem series agg ds : reduce_dimensions series agg = Some ds →
  ∀ d, d ∈ ds ↔ Name d ∈ agg ∧ series !! Name d = Some (Value d).
Proof.
  intros H%reduce_Some d. induction H as [|name d' agg ds [<- Hv] _ IH]; [set_solver|].
  rewrite !elem_of_cons, IH. split.
  - intros [->|[? ?]]; auto.
  - intros [[Hn|?] Hd]; [|auto]. left. destruct d, d'. simpl in *. congruence.
Qed.

Lemma Project_Some series agg g : Project series agg = Some g →
  StronglySorted name_le (dimensions g) ∧ (∃ ds, reduce_dimensions series agg = Some ds ∧ dimensions g ≡ₚ ds) ∧
  ∀ d, d ∈ dimensions g ↔ Name d ∈ agg ∧ series !! Name d = Some (Value d).
Proof.
  unfold Project. intros H.
  assert (∃ ds, reduce_dimensions series agg = Some ds ∧ g = mkGroup (stable_sort name_le ds)) as (ds & Hds & ->).
  { destruct agg; [injection H as <-; by exists []|].
    destruct (reduce_dimensions _ _) as [ds|]; [|done]. injection H as <-. eauto. }
  split; [apply stable_sort_sorted; apply _|]. cbn [dimensions].
  split; [exists ds; by rewrite stable_sort_perm|].
  intros d. rewrite stable_sort_perm. by apply reduce_elem.
Qed.

Lemma Project_is_Some series agg : is_Some (Project series agg) ↔ ∀ name, name ∈ agg → is_Some (series !! name).
Proof.
  assert (is_Some (Project series agg) ↔ reduce_dimensions series agg ≠ None) as ->.
  { unfold Project. destruct agg; [by split; [intros _|eauto]|]. destruct (reduce_dimensions _ _); split; eauto; by intros []. }
  rewrite reduce_None. split.
  - intros H name Hn. destruct (series !! name) eqn:E; [eauto|]. destruct H. eauto.
  - intros H (name & Hn & E). specialize (H name Hn). rewrite E in H. by destruct H.
Qed.

Lemma name_le_names l r : name_le l r ↔ str_ltb (Name r) (Name l) = false.
Proof. by rewrite str_ltb_ge. Qed.

Lemma sorted_names ds : StronglySorted name_le ds → names_sorted ds = true.
Proof.
  induction 1 as [|d ds Hs IH Hd]; [done|]. destruct ds as [|e ds]; [done|].
  change (negb (str_ltb (Name e) (Name d)) && names_sorted (e :: ds) = true). rewrite IH, andb_true_r. apply Forall_cons in Hd as [Hd%name_le_names _]. by rewrite Hd.
Qed.

Lemma parse_projected series agg g :
  Project series agg = Some g → ""%string ∉ agg → ParseGroupKey (Key g) = Some g.
Proof.
  intros (Hs & _ & Hel)%Project_Some Hne. apply parse_Key; [|by apply sorted_names].
  apply Forall_forall. intros d [Hd _]%Hel. by intros Hd'; rewrite Hd' in Hd.
Qed.

(** The groups of two series over the same names are equal exactly when the
    series agree on every one. *)
Lemma Project_eq series series' agg g g' :
  Project series agg = Some g → Project series' agg = Some g' →
  g = g' ↔ ∀ name, name ∈ agg → series !! name = series' !! name.
Proof.
  intros H H'. split.
  - intros <- name Hn. destruct (proj1 (Project_is_Some series agg)) with name as [v Hv]; [eauto|done|].
    apply Project_Some in H as (_ & _ & Hel). apply Project_Some in H' as (_ & _ & Hel').
    rewrite Hv. symmetry. apply (Hel' (mkDimension name v)), Hel. done.
  - intros Heq. assert (reduce_dimensions series agg = reduce_dimensions series' agg) as Hr.
    { by apply reduce_ext. }
    unfold Project in *. rewrite <- Hr in H'. destruct agg; congruence.
Qed.

(** The order names are listed in does not matter. *)
Lemma Project_perm series agg agg' : agg ≡ₚ agg' → Project series agg = Project series agg'.
Proof.
  intros Hp. destruct (Project series agg) as [g|] eqn:H, (Project series agg') as [g'|] eqn:H'; [|exfalso..|done].
  - apply Project_Some in H as (Hs & (ds & Hds & Hpd) & Hel). apply Project_Some in H' as (Hs' & (ds' & Hds' & Hpd') & Hel').
    f_equal. destruct g as [l], g' as [l']. simpl in *. f_equal.
    apply (StronglySorted_unique_strong name_le); [|done..|].
    + intros d d' Hd Hd' H1 H2. assert (Name d = Name d') as Hn by (by apply (anti_symm String.le)).
      apply Hel in Hd as [_ Hd]. apply Hel' in Hd' as [_ Hd']. destruct d, d'. simpl in *. congruence.
    + rewrite Hpd, Hpd'. apply reduce_fmap in Hds, Hds'. subst ds ds'. by rewrite Hp.
  - destruct (proj2 (Project_is_Some series agg')) as [? ?]; [|congruence]. intros name. rewrite <- Hp. revert name.
    apply Project_is_Some. eauto.
  - destruct (proj2 (Project_is_Some series agg)) as [? ?]; [|congruence]. intros name. rewrite Hp. revert name.
    apply Project_is_Some. eauto.
Qed.

(** C33: the group of a series is its values under the named dimensions: it exists
    exactly when the series carries them all, it does not depend on the order
    they are named in, its key reads back as the group, and two series share a
    key exactly when they agree on every named dimension. *)
Theorem group_identity series agg :
  (is_Some (Project series agg) ↔ ∀ name, name ∈ agg → is_Some (series !! name)) ∧
  (∀ agg', agg ≡ₚ agg' → Project series agg = Project series agg') ∧
  ∀ g, Project series agg = Some g →
    (""%string ∉ agg → ParseGroupKey (Key g) = Some g) ∧
    ∀ series' g', Project series' agg = Some g' →
      Key g = Key g' ↔ ∀ name, name ∈ agg → series !! name = series' !! name.
Proof.
  split; [apply Project_is_Some|]. split; [intros agg' ?; by apply Project_perm|]. intros g Hg. split.
  - by eapply parse_projected.
  - intros series' g' Hg'. rewrite <- (Project_eq series series' agg g g') by done.
    split; [apply (inj Key)|by intros ->].
Qed.

(** The part of a Slot's series that was projected. *)
Record tallied (agg : list string) (seen : list (gmap string string)) (tally : ProjectionTally) : Prop := {
  tallied_groups key g : Groups tally !! key = Some g ↔ Key g = key ∧ ∃ series, series ∈ seen ∧ Project series agg = Some g;
  tallied_dropped : Dropped tally = Z.of_nat (length (filter (λ series, Project series agg = None) seen));
}.

Lemma tally_step agg seen tally series :
  Z.of_nat (length (seen ++ [series])) ≤ maxUint64 → tallied agg seen tally →
  tallied agg (seen ++ [series]) (tally_series agg tally series).
Proof.
  intros Hmax [Hg Hd]. pose proof (length_filter (λ series, Project series agg = None) seen) as Hle.
  rewrite length_app in Hmax. cbn [length] in Hmax. unfold tally_series.
  destruct (Project series agg) as [g|] eqn:Hp.
  - split; cbn [Groups Dropped].
    + intros key g'. destruct (decide (Key g = key)) as [<-|Hne].
      * rewrite lookup_insert_eq. split; [intros [= <-]; set_solver|]. intros [?%(inj Key) _]. congruence.
      * rewrite lookup_insert_ne, Hg by done. split; [set_solver|].
        intros [<- (s & [Hs| ->]%elem_of_snoc & Hs')]; [by eauto|]. congruence.
    + rewrite filter_app, length_app, Hd. rewrite (filter_cons_False _ series) by congruence. simpl. lia.
  - split; cbn [Groups Dropped].
    + intros key g. rewrite Hg. split; [set_solver|]. intros [<- (s & [Hs| ->]%elem_of_snoc & Hs')]; [by eauto|congruence].
    + rewrite filter_app, length_app, Hd. rewrite (filter_cons_True _ series) by done. simpl. rewrite u64_id; go_lia.
Qed.

(** The groups of a Slot are those of its series, each under its own key, and
    every series that lacks a named dimension is counted. *)
Lemma project_series series agg :
  Z.of_nat (length series) ≤ maxUint64 → tallied agg series (ProjectSeries series agg).
Proof.
  unfold ProjectSeries. induction series as [|s series IH] using rev_ind; intros Hmax.
  - split; [|done]. intros key g. simpl. rewrite lookup_empty. split; [done|]. intros [_ (s & Hs & _)]. set_solver.
  - rewrite foldl_app. simpl. apply tally_step; [done|]. apply IH. rewrite length_app in Hmax. lia.
Qed.

(** A key this package did not write is read as a group too, whose own key is
    another text: the escape of a byte that needs none is kept in the name. *)
Definition stray_escape : string := "a\b=1,__NO_DATA_DIMENSION__=true".

(** Reading a key is not the exact inverse of writing it: some text that no
    group's key is reads as a group. *)
Lemma parse_accepts_stray :
  ∃ g, ParseGroupKey stray_escape = Some g ∧ Key g ≠ stray_escape ∧ ∀ h, Key h ≠ stray_escape.
Proof.
  exists (mkGroup [mkDimension "a\b" "1"]). split; [by vm_compute|]. split; [by vm_compute|].
  intros h Hh. pose proof (split_Key h) as Hs. rewrite Hh in Hs.
  change (splitEscaped stray_escape comma) with (Some ["a\b=1"; tag_text]%string) in Hs. injection Hs as Hs.
  assert (length (dimensions h) = 1%nat) as Hlen.
  { apply (f_equal length) in Hs. rewrite length_app, (length_fmap key_part) in Hs. simpl in Hs. lia. }
  destruct h as [[|d [|]]]; try discriminate Hlen. cbn [dimensions fmap list_fmap app] in Hs. injection Hs as Hs.
  pose proof (split_key_part d) as Hd. rewrite <- Hs in Hd.
  change (splitEscaped "a\b=1" equals) with (Some ["a\b"; "1"]%string) in Hd. injection Hd as Hn _.
  symmetry in Hn. pose proof (unescape_escape (Name d)) as He. rewrite Hn in He. rewrite <- He in Hn. by vm_compute in Hn.
Qed.

(** ** At concrete series *)

Definition host_series (ip cloud : string) : gmap string string :=
  {["ip" := ip; "cloud" := cloud; "device" := "sda"]}%string.

Example host_key :
  Key <$> Project (host_series "10.0.0.1" "a=b,c") ["ip"; "cloud"]%string
  = Some "cloud=a\=b\,c,ip=10.0.0.1,__NO_DATA_DIMENSION__=true"%string.
Proof. by vm_compute. Qed.

Lemma group_identity_witness :
  ParseGroupKey "cloud=a\=b\,c,ip=10.0.0.1,__NO_DATA_DIMENSION__=true"
  = Project (host_series "10.0.0.1" "a=b,c") ["ip"; "cloud"]%string.
Proof.
  destruct (Group.group_identity (host_series "10.0.0.1" "a=b,c") ["ip"; "cloud"]%string) as (_ & _ & H).
  specialize (H (mkGroup [mkDimension "cloud" "a=b,c"; mkDimension "ip" "10.0.0.1"]) ltac:(by vm_compute)).
  destruct H as [H _]. etransitivity; [apply H|by vm_compute]. apply (bool_decide_unpack _). by vm_compute.
Defined.
