(* ===== verification/Absence.v ===== *)
(** The absence evaluation (nodata/absence.go): which expected groups are absent
    in one Slot, what the memory of every group becomes, and which open absences
    close. Go ranges over a map in no fixed order: every loop here runs over an
    explicit list of the map's keys, and AbsenceSpec.v proves the result does not
    depend on it. *)
From S2P Require Import Prelude Group.

Open Scope Z_scope.

(** ** Data *)

Definition CompletenessFull : string := "FULL".

Definition RosterTargetStatic : string := "TARGET_STATIC".
Definition RosterHistory : string := "HISTORY".
Definition RosterTargetPlan : string := "TARGET_PLAN".
Definition RosterWhole : string := "WHOLE".

Record Roster : Type := mkRoster {
  Version : string;
  Source : string;
  ro_Groups : gmap string Group;
}.

Record GroupMemory : Type := mkMemory {
  LastSeen : Z;
  FirstAbsent : Z;
  SuppressedAt : Z;
}.

#[export] Instance GroupMemory_eq_dec : EqDecision GroupMemory.
Proof. solve_decision. Defined.

(** The zero value a missing key reads as. *)
Definition no_memory : GroupMemory := mkMemory 0 0 0.
Definition memory_of (memory : gmap string GroupMemory) (key : string) : GroupMemory := default no_memory (memory !! key).

Record AbsenceInput : Type := mkAbsenceInput {
  EvaluationTime : Z;
  PeriodSeconds : Z;
  Completeness : string;
  Present : gmap string Group;
  in_Dropped : Z;
  in_Roster : Roster;
  in_Memory : gmap string GroupMemory;
  OutOfBusiness : gset string;
  TrackingHorizonSeconds : Z;
  in_TrackingExhaustedAt : Z;
}.

Inductive Verdict : Type := VerdictAnomaly | VerdictNormal | VerdictUnavailable.

#[export] Instance Verdict_eq_dec : EqDecision Verdict.
Proof. solve_decision. Defined.

Record AbsentAgeBuckets : Type := mkAges {
  ThisRound : Z;
  UnderHour : Z;
  UnderDay : Z;
  DayOrMore : Z;
}.

Record AbsenceFacts : Type := mkFacts {
  af_Present : Z;
  af_Expected : Z;
  af_Absent : Z;
  af_Unavailable : Z;
  af_Dropped : Z;
  af_RosterSource : string;
  af_RosterVersion : string;
  af_Expired : Z;
  af_Suppressed : Z;
  af_AbsentAges : AbsentAgeBuckets;
}.

Record AbsenceResult : Type := mkAbsence {
  Verdicts : gmap string Verdict;
  Memory : gmap string GroupMemory;
  Closing : gmap string bool;
  Facts : AbsenceFacts;
  res_Roster : Roster;
  TrackingExhaustedAt : Z;
  WholeItemPresent : bool;
}.

(** ** Assignments to the result *)

Definition set_verdict (key : string) (v : Verdict) (r : AbsenceResult) : AbsenceResult :=
  mkAbsence (<[key := v]> (Verdicts r)) (Memory r) (Closing r) (Facts r) (res_Roster r) (TrackingExhaustedAt r) (WholeItemPresent r).
Definition set_memory (key : string) (m : GroupMemory) (r : AbsenceResult) : AbsenceResult :=
  mkAbsence (Verdicts r) (<[key := m]> (Memory r)) (Closing r) (Facts r) (res_Roster r) (TrackingExhaustedAt r) (WholeItemPresent r).
Definition forget (key : string) (r : AbsenceResult) : AbsenceResult :=
  mkAbsence (Verdicts r) (delete key (Memory r)) (Closing r) (Facts r) (res_Roster r) (TrackingExhaustedAt r) (WholeItemPresent r).
Definition set_closing (key : string) (r : AbsenceResult) : AbsenceResult :=
  mkAbsence (Verdicts r) (Memory r) (<[key := true]> (Closing r)) (Facts r) (res_Roster r) (TrackingExhaustedAt r) (WholeItemPresent r).
Definition set_facts (f : AbsenceFacts → AbsenceFacts) (r : AbsenceResult) : AbsenceResult :=
  mkAbsence (Verdicts r) (Memory r) (Closing r) (f (Facts r)) (res_Roster r) (TrackingExhaustedAt r) (WholeItemPresent r).
Definition set_exhausted (at_ : Z) (r : AbsenceResult) : AbsenceResult :=
  mkAbsence (Verdicts r) (Memory r) (Closing r) (Facts r) (res_Roster r) at_ (WholeItemPresent r).
Definition set_whole_present (b : bool) (r : AbsenceResult) : AbsenceResult :=
  mkAbsence (Verdicts r) (Memory r) (Closing r) (Facts r) (res_Roster r) (TrackingExhaustedAt r) b.

Definition add_unavailable (f : AbsenceFacts) : AbsenceFacts :=
  mkFacts (af_Present f) (af_Expected f) (af_Absent f) (u64 (af_Unavailable f + 1)) (af_Dropped f) (af_RosterSource f)
    (af_RosterVersion f) (af_Expired f) (af_Suppressed f) (af_AbsentAges f).
Definition add_expired (f : AbsenceFacts) : AbsenceFacts :=
  mkFacts (af_Present f) (af_Expected f) (af_Absent f) (af_Unavailable f) (af_Dropped f) (af_RosterSource f)
    (af_RosterVersion f) (u64 (af_Expired f + 1)) (af_Suppressed f) (af_AbsentAges f).
Definition add_suppressed (f : AbsenceFacts) : AbsenceFacts :=
  mkFacts (af_Present f) (af_Expected f) (af_Absent f) (af_Unavailable f) (af_Dropped f) (af_RosterSource f)
    (af_RosterVersion f) (af_Expired f) (u64 (af_Suppressed f + 1)) (af_AbsentAges f).

(** [AbsentAgeBuckets.count]. *)
Definition count_age (b : AbsentAgeBuckets) (firstAbsent evaluationTime : Z) : AbsentAgeBuckets :=
  let age := i64 (evaluationTime - firstAbsent) in
  if (firstAbsent <=? 0) || (age <=? 0) then mkAges (u64 (ThisRound b + 1)) (UnderHour b) (UnderDay b) (DayOrMore b)
  else if age <? 3600 then mkAges (ThisRound b) (u64 (UnderHour b + 1)) (UnderDay b) (DayOrMore b)
  else if age <? 86400 then mkAges (ThisRound b) (UnderHour b) (u64 (UnderDay b + 1)) (DayOrMore b)
  else mkAges (ThisRound b) (UnderHour b) (UnderDay b) (u64 (DayOrMore b + 1)).

Definition add_absent (firstAbsent evaluationTime : Z) (f : AbsenceFacts) : AbsenceFacts :=
  mkFacts (af_Present f) (af_Expected f) (u64 (af_Absent f + 1)) (af_Unavailable f) (af_Dropped f) (af_RosterSource f)
    (af_RosterVersion f) (af_Expired f) (af_Suppressed f) (count_age (af_AbsentAges f) firstAbsent evaluationTime).

(** ** The evaluation *)

Definition trackingExpired (firstAbsent evaluationTime horizonSeconds : Z) : bool :=
  if (horizonSeconds <=? 0) || (firstAbsent <=? 0) then false
  else horizonSeconds <=? i64 (evaluationTime - firstAbsent).

Definition whole : string := Key WholeItemGroup.

(** The keys of the three maps the evaluation ranges over, in the order each
    range meets them. *)
Record iteration : Type := mkIteration {
  it_present : list string;
  it_roster : list string;
  it_memory : list string;
}.

Definition judge_one (input : AbsenceInput) (r : AbsenceResult) (key : string) : AbsenceResult :=
  if bool_decide (key ∈ OutOfBusiness input) then forget key r
  else if bool_decide (key = whole) then r
  else set_memory key (mkMemory (EvaluationTime input) 0 0) (set_verdict key VerdictNormal r).

Definition judgePresent (order : list string) (input : AbsenceInput) (r : AbsenceResult) : AbsenceResult :=
  let r := foldl (judge_one input) r order in
  if bool_decide (Present input = ∅) then r else forget whole (set_verdict whole VerdictNormal r).

Definition close_one (wholeItemDecided : bool) (input : AbsenceInput) (r : AbsenceResult) (key : string) : AbsenceResult :=
  let entry := memory_of (in_Memory input) key in
  if FirstAbsent entry =? 0 then r
  else if wholeItemDecided && bool_decide (key = whole) then r
  else if bool_decide (is_Some (ro_Groups (in_Roster input) !! key)) then r
  else if bool_decide (is_Some (Verdicts r !! key)) then r
  else if negb (SuppressedAt entry =? 0) then forget key r
  else forget key (set_closing key (set_verdict key VerdictNormal r)).

Definition closeDroppedAbsences (order : list string) (input : AbsenceInput) (wholeItemDecided : bool) (r : AbsenceResult)
    : AbsenceResult :=
  foldl (close_one wholeItemDecided input) r order.

(** One group of a roster that expects some. *)
Definition expect_one (input : AbsenceInput) (r : AbsenceResult) (key : string) : AbsenceResult :=
  let now := EvaluationTime input in
  if bool_decide (key ∈ OutOfBusiness input) then
    forget key (if SuppressedAt (memory_of (in_Memory input) key) =? 0 then set_verdict key VerdictNormal r else r)
  else if bool_decide (is_Some (Verdicts r !! key)) then r
  else
    let entry := memory_of (Memory r) key in
    if negb (SuppressedAt entry =? 0) then set_facts add_suppressed r
    else
      let first := if FirstAbsent entry =? 0 then now else FirstAbsent entry in
      if trackingExpired first now (TrackingHorizonSeconds input) then
        let r := set_facts add_expired r in
        if (Source (in_Roster input) =? RosterHistory)%string then forget key r
        else set_memory key (mkMemory (LastSeen entry) first now) r
      else
        set_memory key (mkMemory (LastSeen entry) first (SuppressedAt entry))
          (set_facts (add_absent first now) (set_verdict key VerdictAnomaly r)).

Definition unavailable_one (r : AbsenceResult) (key : string) : AbsenceResult :=
  set_facts add_unavailable (set_verdict key VerdictUnavailable r).

(** With nothing expected and nothing present, the item speaks about itself. *)
Definition whole_item (input : AbsenceInput) (r : AbsenceResult) : AbsenceResult :=
  let now := EvaluationTime input in
  if negb (in_TrackingExhaustedAt input =? 0) then r
  else
    let entry := memory_of (Memory r) whole in
    if negb (SuppressedAt entry =? 0) then set_facts add_suppressed r
    else
      let first := if FirstAbsent entry =? 0 then now else FirstAbsent entry in
      if trackingExpired first now (TrackingHorizonSeconds input) then
        set_memory whole (mkMemory 0 first now) (set_facts add_expired r)
      else
        set_memory whole (mkMemory 0 first (SuppressedAt entry))
          (set_facts (add_absent first now) (set_verdict whole VerdictAnomaly r)).

Definition start (input : AbsenceInput) : AbsenceResult :=
  mkAbsence ∅ (in_Memory input) ∅
    (mkFacts (Z.of_nat (size (Present input))) (Z.of_nat (size (ro_Groups (in_Roster input)))) 0 0 (in_Dropped input)
       (Source (in_Roster input)) (Version (in_Roster input)) 0 0 (mkAges 0 0 0 0))
    (in_Roster input) 0 false.

Definition evaluateAbsence (order : iteration) (input : AbsenceInput) : AbsenceResult :=
  let r := start input in
  if negb (Completeness input =? CompletenessFull)%string then foldl unavailable_one r (it_roster order)
  else if bool_decide (ro_Groups (in_Roster input) = ∅) && (Source (in_Roster input) =? RosterTargetPlan)%string then
    forget whole (closeDroppedAbsences (it_memory order) input false (judgePresent (it_present order) input r))
  else if bool_decide (ro_Groups (in_Roster input) = ∅) then
    if bool_decide (Present input = ∅) then
      closeDroppedAbsences (it_memory order) input true (whole_item input r)
    else closeDroppedAbsences (it_memory order) input true (judgePresent (it_present order) input r)
  else
    let r := judgePresent (it_present order) input r in
    let r := foldl (expect_one input) r (it_roster order) in
    let r := closeDroppedAbsences (it_memory order) input false r in
    if (Source (in_Roster input) =? RosterHistory)%string && (0 <? af_Expired (Facts r))
       && bool_decide (Memory r = ∅) && bool_decide (Present input = ∅)
    then set_exhausted (EvaluationTime input) r
    else r.

Definition Evaluate (order : iteration) (input : AbsenceInput) : AbsenceResult :=
  let r := evaluateAbsence order input in
  let r := set_whole_present (bool_decide (is_Some (Present input !! whole))) r in
  if negb (bool_decide (Memory r = ∅)) || WholeItemPresent r then set_exhausted 0 r
  else if TrackingExhaustedAt r =? 0 then set_exhausted (in_TrackingExhaustedAt input) r
  else r.
