(* ===== verification/AbsenceSpec.v ===== *)
(** The absence evaluation key by key: every loop touches one key at a time and
    reads nothing but that key's own entries, so the result is a function of the
    input at each key, whatever order the maps are ranged over in. *)
From S2P Require Import Prelude Group Absence.

Open Scope Z_scope.

(** ** Local loops *)

(** What a result says of one key. *)
Record cell : Type := mkCell {
  cell_verdict : option Verdict;
  cell_memory : option GroupMemory;
  cell_closing : option bool;
}.

Definition cell_of (r : AbsenceResult) (key : string) : cell :=
  mkCell (Verdicts r !! key) (Memory r !! key) (Closing r !! key).

(** A loop body that touches only its key, as a function of that key's entries,
    and counts by them. *)
Record local_step (step : AbsenceResult → string → AbsenceResult) (at_ : string → cell → cell)
    (count : string → cell → AbsenceFacts → AbsenceFacts) : Prop := {
  ls_here r key : cell_of (step r key) key = at_ key (cell_of r key);
  ls_else r key key' : key ≠ key' → cell_of (step r key) key' = cell_of r key';
  ls_facts r key : Facts (step r key) = count key (cell_of r key) (Facts r);
  ls_rest r key : res_Roster (step r key) = res_Roster r ∧ TrackingExhaustedAt (step r key) = TrackingExhaustedAt r
                  ∧ WholeItemPresent (step r key) = WholeItemPresent r;
}.

(** A loop over the keys of a map meets each once. *)
Definition ranges {A} (order : list string) (m : gmap string A) : Prop :=
  NoDup order ∧ ∀ key, key ∈ order ↔ is_Some (m !! key).

Section local.
Context {step : AbsenceResult → string → AbsenceResult} {at_ : string → cell → cell}
        {count : string → cell → AbsenceFacts → AbsenceFacts}.
Hypothesis Hlocal : local_step step at_ count.

Lemma local_fold order r key :
  NoDup order →
  cell_of (foldl step r order) key = if bool_decide (key ∈ order) then at_ key (cell_of r key) else cell_of r key.
Proof.
  intros Hnd. revert r. induction Hnd as [|k order Hk Hnd IH]; intros r; cbn [foldl].
  { by rewrite bool_decide_eq_false_2 by set_solver. }
  rewrite IH. destruct (decide (k = key)) as [->|Hne].
  - rewrite (bool_decide_eq_false_2 (key ∈ order)), bool_decide_eq_true_2 by set_solver. apply Hlocal.
  - rewrite (ls_else _ _ _ Hlocal) by done.
    rewrite (bool_decide_ext (key ∈ k :: order) (key ∈ order)) by set_solver. done.
Qed.

Lemma local_fold_facts order r :
  NoDup order → Facts (foldl step r order) = foldl (λ f key, count key (cell_of r key) f) (Facts r) order.
Proof.
  intros Hnd. revert r. induction Hnd as [|k order Hk Hnd IH]; intros r; cbn [foldl]; [done|].
  rewrite IH, (ls_facts _ _ _ Hlocal). generalize (count k (cell_of r k) (Facts r)) as f. clear IH.
  assert (∀ key, key ∈ order → cell_of (step r k) key = cell_of r key) as Hsame.
  { intros key Hkey. apply (ls_else _ _ _ Hlocal). set_solver. }
  revert Hsame. clear. induction order as [|k' order IH]; intros Hsame f; cbn [foldl]; [done|].
  rewrite Hsame by left. apply IH. intros; apply Hsame; by right.
Qed.

Lemma local_fold_rest order r :
  res_Roster (foldl step r order) = res_Roster r ∧ TrackingExhaustedAt (foldl step r order) = TrackingExhaustedAt r
  ∧ WholeItemPresent (foldl step r order) = WholeItemPresent r.
Proof.
  revert r. induction order as [|k order IH]; intros r; cbn [foldl]; [done|].
  destruct (IH (step r k)) as (-> & -> & ->). apply Hlocal.
Qed.
End local.

Section spec.
Variable input : AbsenceInput.
Notation now := (EvaluationTime input).
Notation present key := (bool_decide (is_Some (Present input !! key))).
Notation foreign key := (bool_decide (key ∈ OutOfBusiness input)).
Notation expected key := (bool_decide (is_Some (ro_Groups (in_Roster input) !! key))).
Notation history := ((Source (in_Roster input) =? RosterHistory)%string).

Definition seen_now : GroupMemory := mkMemory now 0 0.

(** ** The loops at a key *)

Definition judge_at (key : string) (c : cell) : cell :=
  if foreign key then mkCell (cell_verdict c) None (cell_closing c)
  else if bool_decide (key = whole) then c
  else mkCell (Some VerdictNormal) (Some seen_now) (cell_closing c).

Definition first_absent (entry : GroupMemory) : Z := if FirstAbsent entry =? 0 then now else FirstAbsent entry.
Definition expires (entry : GroupMemory) : bool := trackingExpired (first_absent entry) now (TrackingHorizonSeconds input).

Definition expect_at (key : string) (c : cell) : cell :=
  if foreign key then
    mkCell (if SuppressedAt (memory_of (in_Memory input) key) =? 0 then Some VerdictNormal else cell_verdict c) None (cell_closing c)
  else if bool_decide (is_Some (cell_verdict c)) then c
  else
    let entry := default no_memory (cell_memory c) in
    if negb (SuppressedAt entry =? 0) then c
    else if expires entry then
      mkCell (cell_verdict c) (if history then None else Some (mkMemory (LastSeen entry) (first_absent entry) now)) (cell_closing c)
    else mkCell (Some VerdictAnomaly) (Some (mkMemory (LastSeen entry) (first_absent entry) (SuppressedAt entry))) (cell_closing c).

Definition expect_count (key : string) (c : cell) (f : AbsenceFacts) : AbsenceFacts :=
  if foreign key || bool_decide (is_Some (cell_verdict c)) then f
  else
    let entry := default no_memory (cell_memory c) in
    if negb (SuppressedAt entry =? 0) then add_suppressed f
    else if expires entry then add_expired f
    else add_absent (first_absent entry) now f.

Definition closes (wholeItemDecided : bool) (key : string) (c : cell) : bool :=
  negb (FirstAbsent (memory_of (in_Memory input) key) =? 0) && negb (wholeItemDecided && bool_decide (key = whole))
  && negb (expected key) && negb (bool_decide (is_Some (cell_verdict c))).

Definition close_at (wholeItemDecided : bool) (key : string) (c : cell) : cell :=
  if closes wholeItemDecided key c then
    if SuppressedAt (memory_of (in_Memory input) key) =? 0 then mkCell (Some VerdictNormal) None (Some true)
    else mkCell (cell_verdict c) None (cell_closing c)
  else c.

Definition whole_at (key : string) (c : cell) : cell :=
  if negb (bool_decide (key = whole)) || negb (in_TrackingExhaustedAt input =? 0) then c
  else
    let entry := default no_memory (cell_memory c) in
    if negb (SuppressedAt entry =? 0) then c
    else if expires entry then mkCell (cell_verdict c) (Some (mkMemory 0 (first_absent entry) now)) (cell_closing c)
    else mkCell (Some VerdictAnomaly) (Some (mkMemory 0 (first_absent entry) (SuppressedAt entry))) (cell_closing c).

Ltac solve_local :=
  intros; unfold set_verdict, set_memory, forget, set_closing, set_facts, cell_of; simpl;
  repeat case_match; simpl; rewrite ?lookup_insert_eq, ?lookup_delete_eq, ?lookup_insert_ne, ?lookup_delete_ne by done; done.

Lemma judge_local : local_step (judge_one input) judge_at (λ _ _ f, f).
Proof. split; unfold judge_one, judge_at; solve_local. Qed.

Lemma expect_local : local_step (expect_one input) expect_at expect_count.
Proof. split; unfold expect_one, expect_at, expect_count, expires, first_absent, memory_of; solve_local. Qed.

Lemma close_local decided : local_step (close_one decided input) (close_at decided) (λ _ _ f, f).
Proof. split; unfold close_one, close_at, closes; solve_local. Qed.

Lemma unavailable_local :
  local_step unavailable_one (λ _ c, mkCell (Some VerdictUnavailable) (cell_memory c) (cell_closing c)) (λ _ _ f, add_unavailable f).
Proof. split; unfold unavailable_one; solve_local. Qed.

(** ** The evaluation at a key *)

Record iterates (order : iteration) : Prop := {
  iterates_present : ranges (it_present order) (Present input);
  iterates_roster : ranges (it_roster order) (ro_Groups (in_Roster input));
  iterates_memory : ranges (it_memory order) (in_Memory input);
}.

Definition looked : bool := (Completeness input =? CompletenessFull)%string.
Definition expects_nothing : bool := bool_decide (ro_Groups (in_Roster input) = ∅).
Definition nothing_present : bool := bool_decide (Present input = ∅).
Definition target_plan : bool := (Source (in_Roster input) =? RosterTargetPlan)%string.

Definition judged_at (key : string) (c : cell) : cell :=
  let c := if present key then judge_at key c else c in
  if nothing_present then c
  else if bool_decide (key = whole) then mkCell (Some VerdictNormal) None (cell_closing c) else c.

Definition start_at (key : string) : cell := mkCell None (in_Memory input !! key) None.

Definition absence_at (key : string) : cell :=
  let c := start_at key in
  if negb looked then
    if expected key then mkCell (Some VerdictUnavailable) (cell_memory c) (cell_closing c) else c
  else if expects_nothing && target_plan then
    let c := close_at false key (judged_at key c) in
    if bool_decide (key = whole) then mkCell (cell_verdict c) None (cell_closing c) else c
  else if expects_nothing then close_at true key (if nothing_present then whole_at key c else judged_at key c)
  else
    let c := judged_at key c in
    close_at false key (if expected key then expect_at key c else c).

Section order.
Variable order : iteration.
Hypothesis Horder : iterates order.

Lemma closeDropped_cell decided r key :
  cell_of (closeDroppedAbsences (it_memory order) input decided r) key = close_at decided key (cell_of r key).
Proof.
  destruct (iterates_memory _ Horder) as [Hnd Hin]. unfold closeDroppedAbsences.
  rewrite (local_fold (close_local decided)) by done. destruct (bool_decide_reflect (key ∈ it_memory order)) as [|Hno]; [done|].
  unfold close_at, closes, memory_of. rewrite Hin in Hno. destruct (in_Memory input !! key); [by destruct Hno|done].
Qed.

Lemma judgePresent_cell r key : cell_of (judgePresent (it_present order) input r) key = judged_at key (cell_of r key).
Proof.
  destruct (iterates_present _ Horder) as [Hnd Hin]. unfold judgePresent, judged_at, nothing_present.
  assert (cell_of (foldl (judge_one input) r (it_present order)) key = if present key then judge_at key (cell_of r key) else cell_of r key) as <-.
  { rewrite (local_fold judge_local) by done. by rewrite (bool_decide_ext _ _ (Hin key)). }
  destruct (bool_decide (Present input = ∅)); [done|].
  unfold forget, set_verdict, cell_of. simpl. destruct (bool_decide_reflect (key = whole)) as [->|Hne].
  - by rewrite lookup_insert_eq, lookup_delete_eq.
  - by rewrite lookup_insert_ne, lookup_delete_ne.
Qed.

Lemma expect_cell r key :
  cell_of (foldl (expect_one input) r (it_roster order)) key = if expected key then expect_at key (cell_of r key) else cell_of r key.
Proof.
  destruct (iterates_roster _ Horder) as [Hnd Hin]. rewrite (local_fold expect_local) by done.
  by rewrite (bool_decide_ext _ _ (Hin key)).
Qed.

Lemma whole_item_cell r key : cell_of (whole_item input r) key = whole_at key (cell_of r key).
Proof.
  unfold whole_item, whole_at, expires, first_absent, memory_of. destruct (bool_decide_reflect (key = whole)) as [->|Hne]; simpl.
  - repeat case_match; try done; unfold cell_of, set_memory, set_facts, set_verdict; simpl; by rewrite ?lookup_insert_eq.
  - repeat case_match; try done; unfold cell_of, set_memory, set_facts, set_verdict; simpl; by rewrite ?lookup_insert_ne.
Qed.

Lemma cell_of_exhausted at_ r key : cell_of (set_exhausted at_ r) key = cell_of r key.
Proof. done. Qed.

Lemma evaluateAbsence_cell key : cell_of (evaluateAbsence order input) key = absence_at key.
Proof.
  unfold evaluateAbsence, absence_at. fold looked expects_nothing target_plan nothing_present.
  assert (cell_of (start input) key = start_at key) as Hstart by done.
  destruct looked; cbn [negb].
  2: { destruct (iterates_roster _ Horder) as [Hnd Hin]. rewrite (local_fold unavailable_local) by done.
       by rewrite (bool_decide_ext _ _ (Hin key)), Hstart. }
  destruct expects_nothing; cbn [andb].
  - destruct target_plan.
    + unfold forget, cell_of at 1. cbn [Verdicts Memory Closing].
      pose proof (closeDropped_cell false (judgePresent (it_present order) input (start input)) key) as Hc.
      rewrite judgePresent_cell, Hstart in Hc. rewrite <- Hc. destruct (bool_decide_reflect (key = whole)) as [->|Hne].
      * by rewrite lookup_delete_eq.
      * by rewrite lookup_delete_ne.
    + destruct nothing_present; by rewrite closeDropped_cell, ?whole_item_cell, ?judgePresent_cell, Hstart.
  - assert (cell_of (closeDroppedAbsences (it_memory order) input false
              (foldl (expect_one input) (judgePresent (it_present order) input (start input)) (it_roster order))) key
            = close_at false key (if expected key then expect_at key (judged_at key (start_at key)) else judged_at key (start_at key))) as <-.
    { by rewrite closeDropped_cell, expect_cell, judgePresent_cell, Hstart. }
    by destruct (_ && _).
Qed.

Lemma Evaluate_cell key : cell_of (Evaluate order input) key = absence_at key.
Proof.
  rewrite <- evaluateAbsence_cell. unfold Evaluate. destruct (_ || _); [done|]. by destruct (_ =? 0).
Qed.
End order.
End spec.
