(* ===== verification/AbsenceVerdicts.v ===== *)
(** What the absence evaluation promises: which verdict every group gets and what
    becomes of its memory, that nothing stopped is recovered and nothing open is
    lost, and what the counts and the Plan-level fact say. *)
From S2P Require Import Prelude Group Absence AbsenceSpec.

Open Scope Z_scope.

Section verdicts.
Variables (order : iteration) (input : AbsenceInput).
Hypothesis Horder : iterates input order.
Notation now := (EvaluationTime input).
Notation result := (Evaluate order input).

Definition expects (key : string) : Prop := is_Some (ro_Groups (in_Roster input) !! key).
Definition remembered (key : string) : GroupMemory := memory_of (in_Memory input) key.

(** The group is one of this item's and sent data; the whole item did when
    anything did. *)
Definition reported (key : string) : Prop :=
  key = whole ∧ Present input ≠ ∅ ∨ key ≠ whole ∧ is_Some (Present input !! key) ∧ key ∉ OutOfBusiness input.

#[export] Instance reported_dec key : Decision (reported key).
Proof. unfold reported. apply _. Defined.

(** An alert may be standing on the group's absence. *)
Definition open (key : string) : Prop := FirstAbsent (remembered key) ≠ 0 ∧ SuppressedAt (remembered key) = 0.

Lemma verdict_cell key : Verdicts result !! key = cell_verdict (absence_at input key).
Proof. by rewrite <- (Evaluate_cell input order Horder). Qed.
Lemma memory_cell key : Memory result !! key = cell_memory (absence_at input key).
Proof. by rewrite <- (Evaluate_cell input order Horder). Qed.
Lemma closing_cell key : Closing result !! key = cell_closing (absence_at input key).
Proof. by rewrite <- (Evaluate_cell input order Horder). Qed.

Lemma judged_start key :
  judged_at input key (start_at input key) =
  if bool_decide (reported key) then
    mkCell (Some VerdictNormal) (if bool_decide (key = whole) then None else Some (seen_now input)) None
  else mkCell None (if bool_decide (is_Some (Present input !! key) ∧ key ∈ OutOfBusiness input) then None
                    else in_Memory input !! key) None.
Proof.
  unfold judged_at, judge_at, reported, nothing_present, start_at. simpl.
  assert (Present input = ∅ → ¬ is_Some (Present input !! key)) as Hempty.
  { intros ->. rewrite lookup_empty. by intros []. }
  repeat case_bool_decide; try done; subst; tauto.
Qed.

Lemma not_expected key : ro_Groups (in_Roster input) = ∅ → ¬ expects key.
Proof. unfold expects. intros ->. rewrite lookup_empty. by intros []. Qed.

(** The paths of the evaluation, at one key. *)
Lemma absence_cases key :
  (looked input = false ∧
   absence_at input key = mkCell (if bool_decide (expects key) then Some VerdictUnavailable else None) (in_Memory input !! key) None) ∨
  (looked input = true ∧ ro_Groups (in_Roster input) = ∅ ∧ ¬ expects key ∧ target_plan input = true ∧
   let c := close_at input false key (judged_at input key (start_at input key)) in
   absence_at input key = if bool_decide (key = whole) then mkCell (cell_verdict c) None (cell_closing c) else c) ∨
  (looked input = true ∧ ro_Groups (in_Roster input) = ∅ ∧ ¬ expects key ∧ target_plan input = false ∧
   absence_at input key = close_at input true key (if nothing_present input then whole_at input key (start_at input key)
                                                   else judged_at input key (start_at input key))) ∨
  (looked input = true ∧ ro_Groups (in_Roster input) ≠ ∅ ∧
   absence_at input key = close_at input false key (if bool_decide (expects key) then expect_at input key (judged_at input key (start_at input key))
                                                    else judged_at input key (start_at input key))).
Proof.
  unfold absence_at, expects_nothing, expects.
  destruct (looked input); simpl; [|left; split; [done|]; by case_bool_decide].
  right. destruct (bool_decide_reflect (ro_Groups (in_Roster input) = ∅)) as [Hr|Hr]; simpl; [|by right; right].
  pose proof (not_expected key Hr) as Hne. unfold expects in Hne. destruct (target_plan input); [by left|by right; left].
Qed.

(** ** Fates: the abstract specification

    The item is decided as a whole when no group is expected of it and its target
    is not a plan; a group's absence is tracked when it is expected and this
    business's, or is that whole item. *)

Definition speaks_whole (key : string) : Prop :=
  key = whole ∧ ro_Groups (in_Roster input) = ∅ ∧ target_plan input = false.
Definition tracked (key : string) : Prop :=
  expects key ∧ key ∉ OutOfBusiness input ∨ speaks_whole key ∧ in_TrackingExhaustedAt input = 0.
Definition last_seen (key : string) : Z :=
  if bool_decide (expects key) then LastSeen (remembered key) else 0.

(** Two groups with nothing open are forgotten too: one that reported for another
    business, and the whole item of a target that resolved to nothing. *)
Definition forgotten (key : string) : Prop :=
  is_Some (Present input !! key) ∧ key ∈ OutOfBusiness input ∨ key = whole ∧ ro_Groups (in_Roster input) = ∅.

Inductive fate (key : string) : cell → Prop :=
  | fate_unavailable :
      looked input = false → expects key → fate key (mkCell (Some VerdictUnavailable) (in_Memory input !! key) None)
  | fate_unlooked :
      looked input = false → ¬ expects key → fate key (mkCell None (in_Memory input !! key) None)
  | fate_reported :
      looked input = true → reported key → ¬ (expects key ∧ key ∈ OutOfBusiness input) →
      fate key (mkCell (Some VerdictNormal) (if bool_decide (key = whole) then None else Some (seen_now input)) None)
  | fate_foreign :
      looked input = true → expects key → key ∈ OutOfBusiness input →
      fate key (mkCell (if bool_decide (SuppressedAt (remembered key) = 0 ∨ reported key) then Some VerdictNormal else None) None None)
  | fate_absent :
      looked input = true → ¬ reported key → tracked key → SuppressedAt (remembered key) = 0 →
      expires input (remembered key) = false →
      fate key (mkCell (Some VerdictAnomaly) (Some (mkMemory (last_seen key) (first_absent input (remembered key)) 0)) None)
  | fate_expired :
      looked input = true → ¬ reported key → tracked key → SuppressedAt (remembered key) = 0 →
      expires input (remembered key) = true →
      fate key (mkCell None (if bool_decide (expects key ∧ Source (in_Roster input) = RosterHistory) then None
                             else Some (mkMemory (last_seen key) (first_absent input (remembered key)) now)) None)
  | fate_stopped :
      looked input = true → ¬ reported key → tracked key → SuppressedAt (remembered key) ≠ 0 →
      fate key (mkCell None (in_Memory input !! key) None)
  | fate_silent :
      looked input = true → ¬ reported key → speaks_whole key → in_TrackingExhaustedAt input ≠ 0 →
      fate key (mkCell None (in_Memory input !! key) None)
  | fate_closed :
      looked input = true → ¬ reported key → ¬ expects key → ¬ speaks_whole key → open key →
      fate key (mkCell (Some VerdictNormal) None (Some true))
  | fate_dropped :
      looked input = true → ¬ reported key → ¬ expects key → ¬ speaks_whole key →
      FirstAbsent (remembered key) ≠ 0 → SuppressedAt (remembered key) ≠ 0 → fate key (mkCell None None None)
  | fate_kept :
      looked input = true → ¬ reported key → ¬ expects key → ¬ speaks_whole key → FirstAbsent (remembered key) = 0 →
      fate key (mkCell None (if bool_decide (forgotten key) then None else in_Memory input !! key) None).

Lemma close_at_verdict d key c v : cell_verdict c = Some v → close_at input d key c = c.
Proof. intros H. unfold close_at, closes. rewrite H. simpl. by rewrite andb_false_r. Qed.

Lemma close_at_expected d key c : expects key → close_at input d key c = c.
Proof. intros H. unfold close_at, closes. rewrite (bool_decide_eq_true_2 _ H). simpl. by rewrite andb_false_r. Qed.

Lemma close_at_decided c : close_at input true whole c = c.
Proof. unfold close_at, closes. rewrite (bool_decide_eq_true_2 (whole = whole)) by done. simpl. by rewrite andb_false_r. Qed.

Lemma close_at_none d key c :
  cell_verdict c = None → ¬ expects key → d = false ∨ key ≠ whole →
  close_at input d key c =
  if decide (FirstAbsent (remembered key) = 0) then c
  else if decide (SuppressedAt (remembered key) = 0) then mkCell (Some VerdictNormal) None (Some true)
  else mkCell None None (cell_closing c).
Proof.
  intros Hv He Hd. unfold close_at, closes, remembered. rewrite Hv, (bool_decide_eq_false_2 (is_Some None)) by (by intros []).
  rewrite (bool_decide_eq_false_2 _ He).
  assert (negb (d && bool_decide (key = whole)) = true) as ->.
  { destruct Hd as [->|Hd]; [done|]. rewrite (bool_decide_eq_false_2 _ Hd). by rewrite andb_false_r. }
  destruct (Z.eqb_spec (FirstAbsent (memory_of (in_Memory input) key)) 0), (Z.eqb_spec (SuppressedAt (memory_of (in_Memory input) key)) 0);
    repeat case_decide; simpl; done || tauto.
Qed.

Lemma empty_unreported key : Present input = ∅ → ¬ reported key.
Proof. intros H. unfold reported. rewrite H, lookup_empty. intros [[_ ?]|(_ & [? ?] & _)]; done. Qed.

(** What the sweep makes of a group that is judged present, or is not expected. *)
Lemma sweep_fate key d :
  looked input = true → ¬ expects key → d = false ∨ key ≠ whole → ¬ speaks_whole key →
  ¬ (key = whole ∧ ro_Groups (in_Roster input) = ∅) →
  fate key (close_at input d key (judged_at input key (start_at input key))).
Proof.
  intros Hl He Hd Hs Hw. rewrite judged_start. destruct (bool_decide_reflect (reported key)) as [Hrep|Hrep].
  - erewrite close_at_verdict by done. apply fate_reported; tauto.
  - rewrite close_at_none by done. simpl. case_decide as Hf; [|case_decide as Hsup].
    + assert (bool_decide (is_Some (Present input !! key) ∧ key ∈ OutOfBusiness input) = bool_decide (forgotten key)) as ->
        by (apply bool_decide_ext; unfold forgotten; tauto).
      by apply fate_kept.
    + apply fate_closed; done.
    + by apply fate_dropped.
Qed.

Lemma expect_fate key :
  looked input = true → ro_Groups (in_Roster input) ≠ ∅ → expects key →
  fate key (expect_at input key (judged_at input key (start_at input key))).
Proof.
  intros Hl Hr He. rewrite judged_start. unfold expect_at.
  destruct (bool_decide_reflect (key ∈ OutOfBusiness input)) as [Hf|Hf].
  - assert (∀ m, mkCell (if SuppressedAt (remembered key) =? 0 then Some VerdictNormal
                         else cell_verdict (if bool_decide (reported key) then mkCell (Some VerdictNormal) m None
                                            else mkCell None None None)) None None
              = mkCell (if bool_decide (SuppressedAt (remembered key) = 0 ∨ reported key) then Some VerdictNormal else None) None None) as Heq.
    { intros m. f_equal. destruct (Z.eqb_spec (SuppressedAt (remembered key)) 0); repeat case_bool_decide; simpl; done || tauto. }
    pose proof (fate_foreign key Hl He Hf) as H. rewrite <- (Heq None) in H.
    destruct (bool_decide (reported key)); exact H.
  - destruct (bool_decide_reflect (reported key)) as [Hrep|Hrep]; simpl.
    { apply fate_reported; tauto. }
    rewrite bool_decide_eq_false_2 by tauto. change (default no_memory (in_Memory input !! key)) with (remembered key).
    assert (tracked key) as Ht by (left; done).
    assert (last_seen key = LastSeen (remembered key)) as Hls by (unfold last_seen; by rewrite bool_decide_eq_true_2).
    rewrite <- Hls. destruct (Z.eqb_spec (SuppressedAt (remembered key)) 0) as [Hsup|Hsup]; simpl; [|by apply fate_stopped].
    destruct (expires input (remembered key)) eqn:Hx.
    + pose proof (fate_expired key Hl Hrep Ht Hsup Hx) as H.
      destruct (String.eqb_spec (Source (in_Roster input)) RosterHistory); [rewrite bool_decide_eq_true_2 in H by done
        |rewrite bool_decide_eq_false_2 in H by tauto]; exact H.
    + rewrite Hsup. by apply fate_absent.
Qed.

Lemma whole_fate :
  looked input = true → ro_Groups (in_Roster input) = ∅ → target_plan input = false → Present input = ∅ →
  fate whole (whole_at input whole (start_at input whole)).
Proof.
  intros Hl Hr Ht Hp. pose proof (empty_unreported whole Hp) as Hrep. pose proof (not_expected whole Hr) as He.
  assert (speaks_whole whole) as Hs by done. unfold whole_at. rewrite bool_decide_eq_true_2 by done. simpl.
  destruct (Z.eqb_spec (in_TrackingExhaustedAt input) 0) as [Hex|Hex]; simpl; [|by apply fate_silent].
  change (default no_memory (in_Memory input !! whole)) with (remembered whole).
  assert (tracked whole) as Htr by (by right).
  assert (last_seen whole = 0) as Hls by (unfold last_seen; by rewrite bool_decide_eq_false_2).
  destruct (Z.eqb_spec (SuppressedAt (remembered whole)) 0) as [Hsup|Hsup]; simpl; [|by apply fate_stopped].
  rewrite <- Hls. destruct (expires input (remembered whole)) eqn:Hx.
  - pose proof (fate_expired whole Hl Hrep Htr Hsup Hx) as H. rewrite bool_decide_eq_false_2 in H by tauto. exact H.
  - rewrite Hsup. by apply fate_absent.
Qed.

Lemma absence_fate key : fate key (absence_at input key).
Proof.
  destruct (absence_cases key) as [(Hl & ->)|[(Hl & Hr & He & Ht & ->)|[(Hl & Hr & He & Ht & ->)|(Hl & Hr & ->)]]].
  - case_bool_decide; [by apply fate_unavailable|by apply fate_unlooked].
  - assert (¬ speaks_whole key) as Hs by (intros (_ & _ & H); congruence).
    destruct (bool_decide_reflect (key = whole)) as [->|Hw]; [|apply sweep_fate; tauto].
    rewrite judged_start. destruct (bool_decide_reflect (reported whole)) as [Hrep|Hrep].
    + rewrite (close_at_verdict _ _ _ VerdictNormal) by done. simpl.
      pose proof (fate_reported whole Hl Hrep ltac:(tauto)) as H. by rewrite bool_decide_eq_true_2 in H.
    + rewrite close_at_none by (auto; done). case_decide as Hf; [|case_decide as Hsup]; simpl.
      * pose proof (fate_kept whole Hl Hrep He Hs Hf) as H. by rewrite bool_decide_eq_true_2 in H by (right; done).
      * by apply fate_closed.
      * by apply fate_dropped.
  - destruct (decide (key = whole)) as [->|Hw].
    + rewrite close_at_decided. unfold nothing_present. destruct (bool_decide_reflect (Present input = ∅)) as [Hp|Hp].
      * by apply whole_fate.
      * rewrite judged_start. rewrite (bool_decide_eq_true_2 (reported whole)) by (by left). apply fate_reported; [done|by left|tauto].
    + assert (¬ speaks_whole key) as Hs by (intros (? & _); congruence).
      assert ((if nothing_present input then whole_at input key (start_at input key) else judged_at input key (start_at input key))
              = judged_at input key (start_at input key)) as ->.
      { unfold nothing_present. case_bool_decide as Hp; [|done]. rewrite judged_start.
        rewrite bool_decide_eq_false_2 by (by apply empty_unreported). rewrite bool_decide_eq_false_2; [|by rewrite Hp, lookup_empty; intros [[? ?] _]].
        unfold whole_at. by rewrite bool_decide_eq_false_2. }
      apply sweep_fate; auto. tauto.
  - case_bool_decide as He.
    + rewrite close_at_expected by done. by apply expect_fate.
    + apply sweep_fate; [done|done|by left| |]; [by intros (_ & ? & _)|tauto].
Qed.

Lemma fate_function key c c' : fate key c → fate key c' → c = c'.
Proof.
  pose proof (not_expected key) as Hnone.
  intros [] []; try done; try congruence; unfold tracked, open, speaks_whole in *; tauto.
Qed.

Lemma Evaluate_fate key : fate key (cell_of result key).
Proof. rewrite Evaluate_cell by done. apply absence_fate. Qed.

(** C21: one Slot's evaluation implements the fates: each group's verdict, memory
    and closing are the one fate its own presence, expectation and memory allow,
    whatever order the maps were ranged over in. *)
Theorem evaluate_implements_fates key c :
  fate key c ↔ c = mkCell (Verdicts result !! key) (Memory result !! key) (Closing result !! key).
Proof.
  split; [|intros ->; apply Evaluate_fate]. intros Hc. eapply fate_function; [exact Hc|]. apply Evaluate_fate.
Qed.

(** [by_fate key] turns a claim about the result at [key] into one case per
    fate. *)
Ltac by_fate key :=
  let H := fresh "Hfate" in
  pose proof (Evaluate_fate key) as H;
  change (Verdicts result !! key) with (cell_verdict (cell_of result key)) in *;
  change (Memory result !! key) with (cell_memory (cell_of result key)) in *;
  change (Closing result !! key) with (cell_closing (cell_of result key)) in *;
  pose proof (not_expected key);
  destruct H; simpl in *; simplify_eq/=.

Lemma anomaly_iff key :
  Verdicts result !! key = Some VerdictAnomaly ↔
  looked input = true ∧ ¬ reported key ∧ tracked key ∧ SuppressedAt (remembered key) = 0 ∧
  expires input (remembered key) = false.
Proof.
  by_fate key; unfold tracked, open, speaks_whole in *;
    (split; [intros Heq; try case_bool_decide; try discriminate Heq|intros (? & ? & ? & ? & ?)]); try tauto; congruence.
Qed.

Lemma unavailable_iff key :
  Verdicts result !! key = Some VerdictUnavailable ↔ looked input = false ∧ expects key.
Proof. by_fate key; (split; [try case_bool_decide; try done|intros []]); try tauto; congruence. Qed.

(** C23: an absence is reported exactly in a round that looked, for a group of this
    business that is expected and did not report, or for the item as a whole when
    nothing is expected of it and nothing arrived, while its tracking has neither
    stopped nor run past the horizon; and its memory then carries the round it
    began in, which is this one only if none was open. *)
Theorem absence_reported_iff key :
  (Verdicts result !! key = Some VerdictAnomaly ↔
   looked input = true ∧ ¬ reported key ∧ tracked key ∧ SuppressedAt (remembered key) = 0 ∧
   expires input (remembered key) = false) ∧
  (Verdicts result !! key = Some VerdictAnomaly →
   Memory result !! key = Some (mkMemory (last_seen key) (if FirstAbsent (remembered key) =? 0 then now
                                                          else FirstAbsent (remembered key)) 0)).
Proof. split; [apply anomaly_iff|]. by_fate key; try done. by case_bool_decide. Qed.

(** An absence whose tracking was stopped says nothing until its group reports:
    no anomaly and no recovery comes out of it, and its memory stays as it is, or
    is forgotten with a group that is no longer this item's to expect. *)
Lemma stopped_says_nothing key :
  SuppressedAt (remembered key) ≠ 0 → ¬ reported key →
  Verdicts result !! key ∈ [None; Some VerdictUnavailable] ∧
  (Verdicts result !! key = Some VerdictUnavailable → looked input = false) ∧ Closing result !! key = None ∧
  (Memory result !! key = in_Memory input !! key ∨
   Memory result !! key = None ∧ (¬ expects key ∨ key ∈ OutOfBusiness input)).
Proof.
  intros Hs Hrep. by_fate key; unfold open in *; try tauto; try congruence.
  all: try (split_and!; [set_solver|done|done|tauto]).
  - rewrite bool_decide_eq_false_2 by tauto. split_and!; [set_solver|done|done|tauto].
  - case_bool_decide; (split_and!; [set_solver|done|done|tauto]).
Qed.

(** C24: no open absence is lost: in a round that looked it goes on, from the same
    start; or it is recovered; or it has run past the horizon and is stopped or,
    under a history roster, forgotten. *)
Theorem open_absence_accounted key :
  looked input = true → open key → in_TrackingExhaustedAt input = 0 →
  Verdicts result !! key = Some VerdictAnomaly ∧
    Memory result !! key = Some (mkMemory (last_seen key) (FirstAbsent (remembered key)) 0) ∨
  Verdicts result !! key = Some VerdictNormal ∧
    (Memory result !! key = None ∨ Memory result !! key = Some (seen_now input)) ∨
  Verdicts result !! key = None ∧
    trackingExpired (FirstAbsent (remembered key)) now (TrackingHorizonSeconds input) = true ∧
    (Memory result !! key = None ∧ Source (in_Roster input) = RosterHistory ∨
     Memory result !! key = Some (mkMemory (last_seen key) (FirstAbsent (remembered key)) now)).
Proof.
  intros Hl [Hfirst Hsup] Hex. assert (first_absent input (remembered key) = FirstAbsent (remembered key)) as Hfa.
  { unfold first_absent. by rewrite (proj2 (Z.eqb_neq _ _) Hfirst). }
  by_fate key; try congruence.
  - right; left. split; [done|]. case_bool_decide; auto.
  - rewrite bool_decide_eq_true_2 by auto. auto.
  - left. by rewrite Hfa.
  - right; right. unfold expires in *. rewrite Hfa in *. split_and!; [done..|]. case_bool_decide; [left|right]; tauto.
  - auto.
Qed.

(** A closing is given exactly to an open absence nothing else decides. *)
Lemma closing_iff key :
  (Closing result !! key = Some true ↔
   looked input = true ∧ open key ∧ ¬ reported key ∧ ¬ expects key ∧ ¬ speaks_whole key) ∧
  (is_Some (Closing result !! key) →
   Closing result !! key = Some true ∧ Verdicts result !! key = Some VerdictNormal ∧ Memory result !! key = None).
Proof.
  by_fate key; (split; [split; [try done; intros _; auto|intros (? & ? & ? & ? & ?)]|try by intros [? ?]]); unfold open, tracked in *;
    try tauto; congruence.
Qed.

(** An absence that is still expected and did not report. *)
Lemma expected_absent key :
  looked input = true → expects key → key ∉ OutOfBusiness input → ¬ reported key →
  let entry := remembered key in
  if decide (SuppressedAt entry ≠ 0) then Verdicts result !! key = None ∧ Memory result !! key = in_Memory input !! key
  else if expires input entry then
    Verdicts result !! key = None ∧
    Memory result !! key = if bool_decide (Source (in_Roster input) = RosterHistory) then None
                           else Some (mkMemory (LastSeen entry) (first_absent input entry) now)
  else Verdicts result !! key = Some VerdictAnomaly ∧
       Memory result !! key = Some (mkMemory (LastSeen entry) (first_absent input entry) 0).
Proof.
  intros Hl He Hf Hrep. assert (last_seen key = LastSeen (remembered key)) as Hls.
  { unfold last_seen. by rewrite bool_decide_eq_true_2. }
  assert (bool_decide (expects key ∧ Source (in_Roster input) = RosterHistory)
          = bool_decide (Source (in_Roster input) = RosterHistory)) as Hh by (apply bool_decide_ext; tauto).
  by_fate key; unfold speaks_whole in *; try tauto; try congruence; rewrite ?Hls, ?Hh in *.
  - rewrite decide_False by tauto. by destruct (expires input (remembered key)).
  - rewrite decide_False by tauto. by destruct (expires input (remembered key)).
  - by rewrite decide_True.
Qed.
End verdicts.

(** The closing recovery is given exactly to an open absence the roster has
    stopped expecting and nothing else decides; it is a NORMAL that forgets the
    group, so the next round, on the memory this one left, closes nothing. *)
Lemma closed_once order input order' input' key :
  iterates input order → iterates input' order' → in_Memory input' = Memory (Evaluate order input) →
  let closing := Closing (Evaluate order input) !! key in
  (closing = Some true ↔
   looked input = true ∧ open input key ∧ ¬ reported input key ∧ ¬ expects input key ∧ ¬ speaks_whole input key) ∧
  (is_Some closing → Verdicts (Evaluate order input) !! key = Some VerdictNormal ∧ Memory (Evaluate order input) !! key = None ∧
                     Closing (Evaluate order' input') !! key = None).
Proof.
  intros Ho Ho' Hm closing. destruct (closing_iff order input Ho key) as [Hiff Hsome]. split; [exact Hiff|].
  intros Hc. destruct (Hsome Hc) as (_ & Hv & Hnone). split_and!; [done..|].
  destruct (closing_iff order' input' Ho' key) as [Hiff' Hsome'].
  destruct (Closing (Evaluate order' input') !! key) as [b|] eqn:E; [|done].
  destruct Hsome' as [Hb _]; [eauto|]. destruct (proj1 Hiff' Hb) as (_ & [Hopen _] & _).
  unfold remembered, memory_of in Hopen. by rewrite Hm, Hnone in Hopen.
Qed.
