(* ===== verification/AbsenceRounds.v ===== *)
(** The counts of one round, the Plan-level fact, and rounds one after another:
    the memory a round leaves is what the next one starts from. *)
From S2P Require Import Prelude Group Absence AbsenceSpec AbsenceVerdicts.

Open Scope Z_scope.

(** ** Order *)

(** The counting of a loop body does not depend on which key is met first. *)
Lemma fold_count_perm (count : string → AbsenceFacts → AbsenceFacts) l l' f :
  (∀ a b g, count a (count b g) = count b (count a g)) → l ≡ₚ l' →
  foldl (λ g key, count key g) f l = foldl (λ g key, count key g) f l'.
Proof.
  intros Hcomm Hp. revert f. induction Hp as [|x l l' _ IH|x y l|l l' l'' _ IH _ IH']; intros f; cbn [foldl]; [done|..].
  - apply IH.
  - by rewrite Hcomm.
  - by rewrite IH.
Qed.

Lemma count_age_comm b f1 f2 t :
  count_age (count_age b f1 t) f2 t = count_age (count_age b f2 t) f1 t.
Proof. unfold count_age. repeat case_match; done. Qed.

Lemma expect_count_comm input c a b f :
  expect_count input a (c a) (expect_count input b (c b) f) = expect_count input b (c b) (expect_count input a (c a) f).
Proof.
  unfold expect_count. destruct (_ || _); [done|]. destruct (_ || _); [done|].
  unfold add_suppressed, add_expired, add_absent.
  repeat case_match; simpl; try done. f_equal. apply count_age_comm.
Qed.

Section order.
Variables (input : AbsenceInput) (o o' : iteration).
Hypothesis Ho : iterates input o.
Hypothesis Ho' : iterates input o'.

Lemma ranges_perm {A} (m : gmap string A) l l' : ranges l m → ranges l' m → l ≡ₚ l'.
Proof. intros [Hn Hl] [Hn' Hl']. apply NoDup_Permutation; [done..|]. intros k. by rewrite Hl, Hl'. Qed.

Lemma result_eq r r' :
  (∀ key, cell_of r key = cell_of r' key) → Facts r = Facts r' → res_Roster r = res_Roster r' →
  TrackingExhaustedAt r = TrackingExhaustedAt r' → WholeItemPresent r = WholeItemPresent r' → r = r'.
Proof.
  intros Hc Hf Hr Ht Hw. destruct r, r'. simpl in *. f_equal; [..|done|done|done|done];
    apply map_eq; intros key; specialize (Hc key); unfold cell_of in Hc; simpl in Hc; congruence.
Qed.

Lemma judge_facts order r : Facts (judgePresent order input r) = Facts r.
Proof.
  unfold judgePresent. assert (Facts (foldl (judge_one input) r order) = Facts r) as Hf.
  { revert r. induction order as [|k order IH]; intros r; cbn [foldl]; [done|]. rewrite IH. apply (judge_local input). }
  by destruct (bool_decide _).
Qed.

Lemma close_facts order d r : Facts (closeDroppedAbsences order input d r) = Facts r.
Proof.
  unfold closeDroppedAbsences. revert r. induction order as [|k order IH]; intros r; cbn [foldl]; [done|].
  rewrite IH. apply (close_local input d).
Qed.

Lemma judge_rest order r :
  res_Roster (judgePresent order input r) = res_Roster r ∧ TrackingExhaustedAt (judgePresent order input r) = TrackingExhaustedAt r
  ∧ WholeItemPresent (judgePresent order input r) = WholeItemPresent r.
Proof.
  unfold judgePresent. destruct (local_fold_rest (judge_local input) order r) as (H1 & H2 & H3).
  by destruct (bool_decide _).
Qed.

(** The counts of the roster pass. *)
Definition roster_facts (order : list string) : AbsenceFacts :=
  foldl (λ f key, expect_count input key (judged_at input key (start_at input key)) f) (Facts (start input)) order.

Lemma roster_pass_facts order : NoDup (it_roster order) → ranges (it_present order) (Present input) →
  Facts (foldl (expect_one input) (judgePresent (it_present order) input (start input)) (it_roster order)) = roster_facts (it_roster order).
Proof.
  intros Hnd Hp. rewrite (local_fold_facts (expect_local input)) by done. rewrite judge_facts. unfold roster_facts.
  assert (∀ key, cell_of (judgePresent (it_present order) input (start input)) key = judged_at input key (start_at input key)) as Hcell.
  { intros key. assert (cell_of (start input) key = start_at input key) as <- by done.
    apply (judgePresent_cell input (mkIteration (it_present order) (it_roster o) (it_memory o))).
    destruct Ho. by split. }
  generalize (Facts (start input)) as f. induction (it_roster order) as [|k l IH]; intros f; cbn [foldl]; [done|].
  rewrite Hcell. apply IH. by apply NoDup_cons in Hnd as [_ ?].
Qed.
End order.

Section one_round.
Variables (input : AbsenceInput).

Lemma evaluateAbsence_facts order : iterates input order →
  Facts (evaluateAbsence order input) =
  if negb (looked input) then foldl (λ f _, add_unavailable f) (Facts (start input)) (it_roster order)
  else if expects_nothing input then
    if negb (target_plan input) && nothing_present input then Facts (whole_item input (start input)) else Facts (start input)
  else roster_facts input (it_roster order).
Proof.
  intros Ho. unfold evaluateAbsence. fold (looked input) (expects_nothing input) (target_plan input) (nothing_present input).
  destruct (looked input); simpl.
  2: { apply (local_fold_facts unavailable_local). apply Ho. }
  destruct (expects_nothing input); simpl.
  - destruct (target_plan input); simpl; [by rewrite close_facts, judge_facts|].
    destruct (nothing_present input); by rewrite close_facts, ?judge_facts.
  - rewrite <- (roster_pass_facts input order Ho order) by apply Ho.
    set (r := foldl _ _ (it_roster order)). rewrite <- (close_facts input (it_memory order) false r).
    by destruct (_ && _ && _ && _).
Qed.

Lemma evaluateAbsence_exhausted order : iterates input order →
  TrackingExhaustedAt (evaluateAbsence order input) =
  if looked input && negb (expects_nothing input) && (Source (in_Roster input) =? RosterHistory)%string
     && (0 <? af_Expired (Facts (evaluateAbsence order input)))
     && bool_decide (Memory (evaluateAbsence order input) = ∅) && nothing_present input
  then EvaluationTime input else 0.
Proof.
  intros Ho. unfold evaluateAbsence. fold (looked input) (expects_nothing input) (target_plan input) (nothing_present input).
  assert (∀ d r, TrackingExhaustedAt (closeDroppedAbsences (it_memory order) input d r) = TrackingExhaustedAt r) as Hclose.
  { intros d r. unfold closeDroppedAbsences. by destruct (local_fold_rest (close_local input d) (it_memory order) r) as (_ & -> & _). }
  assert (∀ r, TrackingExhaustedAt (judgePresent (it_present order) input r) = TrackingExhaustedAt r) as Hjudge.
  { intros r. by destruct (judge_rest input (it_present order) r) as (_ & -> & _). }
  assert (∀ r, TrackingExhaustedAt (whole_item input r) = TrackingExhaustedAt r) as Hwhole.
  { intros r. unfold whole_item. repeat case_match; done. }
  destruct (looked input); simpl.
  2: { by destruct (local_fold_rest unavailable_local (it_roster order) (start input)) as (_ & -> & _). }
  destruct (expects_nothing input); simpl.
  - destruct (target_plan input); simpl; [by rewrite Hclose, Hjudge|].
    destruct (nothing_present input); by rewrite Hclose, ?Hwhole, ?Hjudge.
  - set (r := closeDroppedAbsences _ _ _ _). 
    assert (TrackingExhaustedAt r = 0) as Hr.
    { unfold r. rewrite Hclose. destruct (local_fold_rest (expect_local input) (it_roster order) (judgePresent (it_present order) input (start input))) as (_ & -> & _).
      by rewrite Hjudge. }
    fold (nothing_present input). destruct (_ && _) eqn:Hc; simpl; [by rewrite Hc|by rewrite Hc, Hr].
Qed.

Lemma evaluateAbsence_roster order : iterates input order →
  res_Roster (evaluateAbsence order input) = in_Roster input ∧ WholeItemPresent (evaluateAbsence order input) = false.
Proof.
  intros Ho. unfold evaluateAbsence.
  assert (∀ d r, res_Roster (closeDroppedAbsences (it_memory order) input d r) = res_Roster r ∧
                 WholeItemPresent (closeDroppedAbsences (it_memory order) input d r) = WholeItemPresent r) as Hclose.
  { intros d r. unfold closeDroppedAbsences. by destruct (local_fold_rest (close_local input d) (it_memory order) r) as (-> & _ & ->). }
  assert (∀ r, res_Roster (whole_item input r) = res_Roster r ∧ WholeItemPresent (whole_item input r) = WholeItemPresent r) as Hwhole.
  { intros r. unfold whole_item. repeat case_match; done. }
  assert (∀ r, res_Roster (foldl (expect_one input) r (it_roster order)) = res_Roster r ∧
               WholeItemPresent (foldl (expect_one input) r (it_roster order)) = WholeItemPresent r) as Hexp.
  { intros r. by destruct (local_fold_rest (expect_local input) (it_roster order) r) as (-> & _ & ->). }
  pose proof (λ r, judge_rest input (it_present order) r) as Hjudge.
  destruct (negb _).
  { by destruct (local_fold_rest unavailable_local (it_roster order) (start input)) as (-> & _ & ->). }
  assert (∀ d r, res_Roster r = in_Roster input → WholeItemPresent r = false →
            res_Roster (closeDroppedAbsences (it_memory order) input d r) = in_Roster input ∧
            WholeItemPresent (closeDroppedAbsences (it_memory order) input d r) = false) as Hend.
  { intros d r H1 H2. by destruct (Hclose d r) as [-> ->]. }
  destruct (Hjudge (start input)) as (Hj1 & _ & Hj2). change (res_Roster (start input)) with (in_Roster input) in Hj1.
  change (WholeItemPresent (start input)) with false in Hj2.
  destruct (_ && _); [by apply Hend|]. destruct (bool_decide (ro_Groups _ = ∅)).
  - destruct (bool_decide (Present input = ∅)); apply Hend; try done; by destruct (Hwhole (start input)).
  - destruct (Hend false (foldl (expect_one input) (judgePresent (it_present order) input (start input)) (it_roster order))) as [H1 H2];
      [destruct (Hexp (judgePresent (it_present order) input (start input))); congruence..|].
    by destruct (_ && _ && _ && _).
Qed.

(** C39: the result of a round does not depend on the order its maps are ranged
    over in. *)
Theorem evaluate_order_independent o o' :
  iterates input o → iterates input o' → Evaluate o input = Evaluate o' input.
Proof.
  intros Ho Ho'. assert (evaluateAbsence o input = evaluateAbsence o' input) as Heq; [|unfold Evaluate; by rewrite Heq].
  destruct (evaluateAbsence_roster o Ho) as [Hr Hw], (evaluateAbsence_roster o' Ho') as [Hr' Hw'].
  assert (∀ key, cell_of (evaluateAbsence o input) key = cell_of (evaluateAbsence o' input) key) as Hcell.
  { intros key. by rewrite !evaluateAbsence_cell. }
  assert (it_roster o ≡ₚ it_roster o') as Hperm by (eapply ranges_perm; [apply Ho|apply Ho']).
  assert (Facts (evaluateAbsence o input) = Facts (evaluateAbsence o' input)) as Hfacts.
  { rewrite !evaluateAbsence_facts by done. destruct (negb (looked input)).
    - by apply fold_count_perm.
    - destruct (expects_nothing input); [done|]. apply fold_count_perm; [|done]. intros a b g.
      apply (expect_count_comm input (λ key, judged_at input key (start_at input key))). }
  assert (Memory (evaluateAbsence o input) = Memory (evaluateAbsence o' input)) as Hmem.
  { apply map_eq. intros key. specialize (Hcell key). unfold cell_of in Hcell. congruence. }
  apply result_eq; try congruence. by rewrite !evaluateAbsence_exhausted, Hfacts, Hmem.
Qed.

(** ** The counts *)

Definition age_total (b : AbsentAgeBuckets) : Z := ThisRound b + UnderHour b + UnderDay b + DayOrMore b.

(** What the roster pass does with a group. *)
Definition considered (key : string) : Prop := key ∉ OutOfBusiness input ∧ ¬ reported input key.
Definition class_suppressed (key : string) : Prop := considered key ∧ SuppressedAt (remembered input key) ≠ 0.
Definition class_expired (key : string) : Prop :=
  considered key ∧ SuppressedAt (remembered input key) = 0 ∧ expires input (remembered input key) = true.
Definition class_absent (key : string) : Prop :=
  considered key ∧ SuppressedAt (remembered input key) = 0 ∧ expires input (remembered input key) = false.
#[export] Instance class_suppressed_dec key : Decision (class_suppressed key).
Proof. unfold class_suppressed, considered. apply _. Defined.
#[export] Instance class_expired_dec key : Decision (class_expired key).
Proof. unfold class_expired, considered. apply _. Defined.
#[export] Instance class_absent_dec key : Decision (class_absent key).
Proof. unfold class_absent, considered. apply _. Defined.

Lemma expect_count_class key f :
  expect_count input key (judged_at input key (start_at input key)) f =
  if decide (class_suppressed key) then add_suppressed f
  else if decide (class_expired key) then add_expired f
  else if decide (class_absent key) then add_absent (first_absent input (remembered input key)) (EvaluationTime input) f
  else f.
Proof.
  unfold expect_count. rewrite judged_start.
  destruct (bool_decide_reflect (key ∈ OutOfBusiness input)) as [Hf|Hf]; simpl.
  { by rewrite !decide_False by (intros [[? ?] _]; done). }
  destruct (bool_decide_reflect (reported input key)) as [Hr|Hr]; simpl.
  { by rewrite !decide_False by (intros [[? ?] _]; done). }
  rewrite (bool_decide_eq_false_2 (is_Some (Present input !! key) ∧ key ∈ OutOfBusiness input)) by tauto.
  change (default no_memory (in_Memory input !! key)) with (remembered input key).
  assert (considered key) as Hcons by done.
  destruct (Z.eqb_spec (SuppressedAt (remembered input key)) 0) as [Hs|Hs]; simpl; [|by rewrite decide_True].
  rewrite decide_False by (by intros [_ ?]).
  destruct (expires input (remembered input key)) eqn:Hx; [by rewrite decide_True|].
  rewrite decide_False by (intros (_ & _ & ?); congruence). by rewrite decide_True.
Qed.

Definition count_keys (P : string → Prop) `{∀ k, Decision (P k)} (keys : list string) : Z := Z.of_nat (length (filter P keys)).

Lemma count_keys_cons (P : string → Prop) `{∀ k, Decision (P k)} key keys :
  count_keys P (key :: keys) = (if decide (P key) then 1 else 0) + count_keys P keys.
Proof. unfold count_keys. rewrite filter_cons. case_decide; simpl; lia. Qed.

Lemma count_keys_le (P : string → Prop) `{∀ k, Decision (P k)} keys : 0 ≤ count_keys P keys ≤ Z.of_nat (length keys).
Proof. unfold count_keys. pose proof (length_filter P keys). lia. Qed.

Lemma count_age_total b f1 t :
  0 ≤ ThisRound b → 0 ≤ UnderHour b → 0 ≤ UnderDay b → 0 ≤ DayOrMore b → age_total b < maxUint64 →
  age_total (count_age b f1 t) = age_total b + 1 ∧ 0 ≤ ThisRound (count_age b f1 t) ∧ 0 ≤ UnderHour (count_age b f1 t)
  ∧ 0 ≤ UnderDay (count_age b f1 t) ∧ 0 ≤ DayOrMore (count_age b f1 t).
Proof.
  unfold age_total, count_age. intros.
  repeat case_match; simpl; rewrite !u64_id by go_lia; lia.
Qed.

(** The counts so far, and that they are of distinct groups. *)
Record counts_are (f : AbsenceFacts) (absent expired suppressed : Z) : Prop := {
  ca_absent : af_Absent f = absent;
  ca_expired : af_Expired f = expired;
  ca_suppressed : af_Suppressed f = suppressed;
  ca_ages : age_total (af_AbsentAges f) = absent;
  ca_nonneg : 0 ≤ absent ∧ 0 ≤ expired ∧ 0 ≤ suppressed;
  ca_buckets : 0 ≤ ThisRound (af_AbsentAges f) ∧ 0 ≤ UnderHour (af_AbsentAges f) ∧ 0 ≤ UnderDay (af_AbsentAges f)
               ∧ 0 ≤ DayOrMore (af_AbsentAges f);
  ca_rest : af_Present f = af_Present (Facts (start input)) ∧ af_Expected f = af_Expected (Facts (start input)) ∧
            af_Dropped f = af_Dropped (Facts (start input)) ∧ af_Unavailable f = 0;
}.

Lemma counts_absent f a e s first : counts_are f a e s → a < maxUint64 →
  counts_are (add_absent first (EvaluationTime input) f) (a + 1) e s.
Proof.
  intros [Ha He Hs Hg (? & ? & ?) (Hb1 & Hb2 & Hb3 & Hb4) (? & ? & ? & ?)] Hlt.
  destruct (count_age_total (af_AbsentAges f) first (EvaluationTime input)) as (Ht & ? & ? & ? & ?); try done; [lia|].
  split; simpl; try done; [|lia|lia]. rewrite Ha, u64_id; go_lia.
Qed.

Lemma counts_expired f a e s : counts_are f a e s → e < maxUint64 → counts_are (add_expired f) a (e + 1) s.
Proof.
  intros [Ha He Hs Hg (? & ? & ?) Hb Hr] Hlt. split; simpl; try done; [|lia]. rewrite He, u64_id; go_lia.
Qed.

Lemma counts_suppressed f a e s : counts_are f a e s → s < maxUint64 → counts_are (add_suppressed f) a e (s + 1).
Proof.
  intros [Ha He Hs Hg (? & ? & ?) Hb Hr] Hlt. split; simpl; try done; [|lia]. rewrite Hs, u64_id; go_lia.
Qed.

Lemma roster_counts keys f a e s :
  counts_are f a e s → a + e + s + Z.of_nat (length keys) ≤ maxUint64 →
  counts_are (foldl (λ f key, expect_count input key (judged_at input key (start_at input key)) f) f keys)
    (a + count_keys class_absent keys) (e + count_keys class_expired keys) (s + count_keys class_suppressed keys).
Proof.
  revert f a e s. induction keys as [|key keys IH]; intros f a e s Hf Hmax; cbn [foldl].
  { by rewrite !Z.add_0_r. }
  cbn [length] in Hmax. pose proof Hf as [_ _ _ _ (? & ? & ?) _ _]. rewrite expect_count_class, !count_keys_cons, !Z.add_assoc.
  destruct (decide (class_suppressed key)) as [Hs|Hs].
  { rewrite (decide_False (P := class_absent key)), (decide_False (P := class_expired key)) by (unfold class_absent, class_expired, class_suppressed in *; tauto).
    rewrite !Z.add_0_r. apply IH; [apply counts_suppressed; [done|lia]|lia]. }
  destruct (decide (class_expired key)) as [He|He].
  { rewrite (decide_False (P := class_absent key)) by (unfold class_absent, class_expired in *; destruct He as (_ & _ & He); rewrite He; naive_solver).
    rewrite !Z.add_0_r. apply IH; [apply counts_expired; [done|lia]|lia]. }
  destruct (decide (class_absent key)); rewrite !Z.add_0_r; apply IH; try lia; [apply counts_absent; [done|lia]|done].
Qed.

(** [n] is how many groups [P] holds of. *)
Definition numbers (n : Z) (P : string → Prop) : Prop :=
  ∀ keys, NoDup keys → (∀ key, key ∈ keys ↔ P key) → n = Z.of_nat (length keys).

Lemma numbers_none (P : string → Prop) : (∀ key, ¬ P key) → numbers 0 P.
Proof. intros HP [|key keys] _ Hk; [done|]. destruct (HP key). apply Hk. left. Qed.

Lemma numbers_one (P : string → Prop) k : (∀ key, P key ↔ key = k) → numbers 1 P.
Proof.
  intros HP keys Hnd Hk. assert (keys ≡ₚ [k]) as ->; [|done].
  apply NoDup_Permutation; [done|repeat constructor; set_solver|]. intros key. rewrite Hk, HP. set_solver.
Qed.

Lemma numbers_filter (P Q : string → Prop) `{∀ k, Decision (Q k)} l :
  NoDup l → (∀ key, P key ↔ key ∈ l ∧ Q key) → numbers (count_keys Q l) P.
Proof.
  intros Hl HP keys Hnd Hk. unfold count_keys. assert (keys ≡ₚ filter Q l) as ->; [|done].
  apply NoDup_Permutation; [done|by apply NoDup_filter|]. intros key. rewrite Hk, HP, list_elem_of_filter. tauto.
Qed.

Lemma numbers_ext (P Q : string → Prop) n : (∀ key, P key ↔ Q key) → numbers n P → numbers n Q.
Proof. intros HPQ HP keys Hnd Hk. apply HP; [done|]. intros key. by rewrite Hk, HPQ. Qed.

Definition absences (key : string) : Prop :=
  looked input = true ∧ ¬ reported input key ∧ tracked input key ∧ SuppressedAt (remembered input key) = 0 ∧
  expires input (remembered input key) = false.
Definition expiries (key : string) : Prop :=
  looked input = true ∧ ¬ reported input key ∧ tracked input key ∧ SuppressedAt (remembered input key) = 0 ∧
  expires input (remembered input key) = true.
Definition suppressions (key : string) : Prop :=
  looked input = true ∧ ¬ reported input key ∧ tracked input key ∧ SuppressedAt (remembered input key) ≠ 0.

Record facts_numbered (f : AbsenceFacts) : Prop := {
  fn_absent : numbers (af_Absent f) absences;
  fn_expired : numbers (af_Expired f) expiries;
  fn_suppressed : numbers (af_Suppressed f) suppressions;
  fn_unavailable : numbers (af_Unavailable f) (λ key, looked input = false ∧ expects input key);
  fn_ages : age_total (af_AbsentAges f) = af_Absent f;
  fn_rest : af_Present f = Z.of_nat (size (Present input)) ∧ af_Expected f = Z.of_nat (size (ro_Groups (in_Roster input)))
            ∧ af_Dropped f = in_Dropped input;
}.

Lemma start_counts : counts_are (Facts (start input)) 0 0 0.
Proof. split; simpl; try done; lia. Qed.

(** A round in which no group is tracked and every expected one is available. *)
Lemma start_numbered : looked input = true → (∀ key, tracked input key → reported input key) → facts_numbered (Facts (start input)).
Proof.
  intros Hl Ht. split; simpl; try done; apply numbers_none; unfold absences, expiries, suppressions;
    intros key; [..|intros (? & _); congruence]; intros (_ & Hr & Hk & _); by apply Hr, Ht.
Qed.

Lemma unlooked_numbered l f n :
  Z.of_nat n + Z.of_nat (length l) ≤ maxUint64 → af_Unavailable f = Z.of_nat n →
  let g := foldl (λ f (_ : string), add_unavailable f) f l in
  af_Unavailable g = Z.of_nat (n + length l) ∧ af_Absent g = af_Absent f ∧ af_Expired g = af_Expired f ∧
  af_Suppressed g = af_Suppressed f ∧ af_AbsentAges g = af_AbsentAges f ∧
  af_Present g = af_Present f ∧ af_Expected g = af_Expected f ∧ af_Dropped g = af_Dropped f.
Proof.
  revert f n. induction l as [|k l IH]; intros f n Hmax Hf; cbn [foldl].
  { by rewrite Nat.add_0_r. }
  cbn [length] in Hmax. destruct (IH (add_unavailable f) (S n)) as (H1 & H2); [lia|simpl; rewrite Hf, u64_id; go_lia|].
  split; [|exact H2]. rewrite H1. cbn [length]. f_equal. lia.
Qed.

Lemma ranges_size {A} (m : gmap string A) l : ranges l m → length l = size m.
Proof.
  intros [Hnd Hl]. rewrite <- size_dom. unfold size, set_size. simpl. apply Permutation_length.
  apply NoDup_Permutation; [done|apply NoDup_elements|]. intros k. by rewrite Hl, elem_of_elements, elem_of_dom.
Qed.

Lemma whole_item_numbered :
  looked input = true → ro_Groups (in_Roster input) = ∅ → target_plan input = false → Present input = ∅ →
  facts_numbered (Facts (whole_item input (start input))).
Proof.
  intros Hl Hr Ht Hp. pose proof (λ key, empty_unreported input key Hp) as Hrep.
  assert (∀ key, tracked input key ↔ key = whole ∧ in_TrackingExhaustedAt input = 0) as Htr.
  { intros key. unfold tracked, speaks_whole. pose proof (not_expected input key Hr). naive_solver. }
  assert (∀ key, ¬ (looked input = false ∧ expects input key)) as Hun by (intros key [? _]; congruence).
  unfold whole_item. destruct (Z.eqb_spec (in_TrackingExhaustedAt input) 0) as [Hex|Hex]; simpl.
  2: { apply start_numbered; [done|]. intros key [_ ?]%Htr. done. }
  change (memory_of (in_Memory input) whole) with (remembered input whole).
  assert (tracked input whole) as Htw by (by apply Htr).
  pose proof (Hrep whole) as Hw.
  destruct (Z.eqb_spec (SuppressedAt (remembered input whole)) 0) as [Hs|Hs]; simpl.
  2: { split; simpl; try done; [apply numbers_none|apply numbers_none|apply (numbers_one _ whole)|by apply numbers_none];
       unfold absences, expiries, suppressions; [intros key (_ & _ & [-> _]%Htr & ? & _); done..|].
       intros key. split; [by intros (_ & _ & [-> _]%Htr & _)|by intros ->]. }
  fold (first_absent input (remembered input whole)). fold (expires input (remembered input whole)).
  destruct (expires input (remembered input whole)) eqn:Hx.
  - split; simpl; try done; [apply numbers_none|apply (numbers_one _ whole)|apply numbers_none|by apply numbers_none];
      unfold absences, expiries, suppressions; intros key.
    + intros (_ & _ & [-> _]%Htr & _ & ?). congruence.
    + split; [by intros (_ & _ & [-> _]%Htr & _)|by intros ->].
    + by intros (_ & _ & [-> _]%Htr & ?).
  - split; simpl; try done; [apply (numbers_one _ whole)|apply numbers_none|apply numbers_none|by apply numbers_none|];
      unfold absences, expiries, suppressions.
    + intros key. split; [by intros (_ & _ & [-> _]%Htr & _)|by intros ->].
    + intros key (_ & _ & [-> _]%Htr & _ & ?). congruence.
    + by intros key (_ & _ & [-> _]%Htr & ?).
    + by destruct (count_age_total (mkAges 0 0 0 0) (first_absent input (remembered input whole)) (EvaluationTime input)) as [-> _].
Qed.

Lemma roster_numbered order :
  iterates input order → Z.of_nat (size (ro_Groups (in_Roster input))) ≤ maxUint64 →
  looked input = true → ro_Groups (in_Roster input) ≠ ∅ → facts_numbered (roster_facts input (it_roster order)).
Proof.
  intros Ho Hmax Hl Hr. pose proof (iterates_roster _ _ Ho) as Hrange. pose proof Hrange as [Hnd Hin].
  assert (∀ key, ¬ (looked input = false ∧ expects input key)) as Hun by (intros key [? _]; congruence).
  assert (∀ key, tracked input key ∧ ¬ reported input key ↔ key ∈ it_roster order ∧ considered key) as Htr.
  { intros key. rewrite Hin. unfold tracked, speaks_whole, considered, expects. tauto. }
  destruct (roster_counts (it_roster order) (Facts (start input)) 0 0 0 start_counts) as [Ha He Hs Hg _ _ Hrest].
  { rewrite (ranges_size _ _ Hrange). lia. }
  fold (roster_facts input (it_roster order)) in *. destruct Hrest as (H1 & H2 & H3 & H4). split.
  - rewrite Ha. apply numbers_filter; [done|]. intros key. unfold absences, class_absent. specialize (Htr key). tauto.
  - rewrite He. apply numbers_filter; [done|]. intros key. unfold expiries, class_expired. specialize (Htr key). tauto.
  - rewrite Hs. apply numbers_filter; [done|]. intros key. unfold suppressions, class_suppressed. specialize (Htr key). tauto.
  - rewrite H4. by apply numbers_none.
  - congruence.
  - done.
Qed.

Lemma evaluate_numbered order :
  iterates input order → Z.of_nat (size (ro_Groups (in_Roster input))) ≤ maxUint64 →
  facts_numbered (Facts (Evaluate order input)).
Proof.
  intros Ho Hmax. assert (Facts (Evaluate order input) = Facts (evaluateAbsence order input)) as ->.
  { unfold Evaluate. destruct (_ || _); [done|]. by destruct (_ =? 0). }
  rewrite evaluateAbsence_facts by done. destruct (looked input) eqn:Hl; cbn [negb].
  2: { pose proof (iterates_roster _ _ Ho) as Hrange. pose proof Hrange as [Hnd Hin].
       destruct (unlooked_numbered (it_roster order) (Facts (start input)) 0) as (Hu & Ha & He & Hs & Hg & Hp & Hx & Hd);
         [rewrite (ranges_size _ _ Hrange); lia|done|].
       split; rewrite ?Ha, ?He, ?Hs, ?Hg, ?Hu; try done.
       1-3: apply numbers_none; unfold absences, expiries, suppressions; intros key (? & _); congruence.
       intros keys Hk Hkeys. f_equal. apply Permutation_length, NoDup_Permutation; [done..|]. intros key.
       rewrite Hin, Hkeys. unfold expects. tauto. }
  unfold expects_nothing. destruct (bool_decide_reflect (ro_Groups (in_Roster input) = ∅)) as [Hr|Hr].
  2: { by apply roster_numbered. }
  destruct (negb (target_plan input) && nothing_present input) eqn:Hc.
  - apply andb_true_iff in Hc as [Ht%negb_true_iff Hp%bool_decide_eq_true]. by apply whole_item_numbered.
  - apply start_numbered; [done|]. intros key [[He _]|[(-> & _ & Ht) _]]; [by destruct (not_expected input key Hr)|].
    left. split; [done|]. rewrite Ht in Hc. simpl in Hc. by apply bool_decide_eq_false in Hc.
Qed.

(** The counts of a round are those of its groups: as many absences as
    anomalies given, each in one age bucket; as many unavailable as were expected
    of a round that did not look; and the absences this round stopped, and met
    stopped, one by one. *)
Lemma round_counts order :
  iterates input order → Z.of_nat (size (ro_Groups (in_Roster input))) ≤ maxUint64 →
  let f := Facts (Evaluate order input) in
  numbers (af_Absent f) (λ key, Verdicts (Evaluate order input) !! key = Some VerdictAnomaly) ∧
  age_total (af_AbsentAges f) = af_Absent f ∧
  numbers (af_Unavailable f) (λ key, Verdicts (Evaluate order input) !! key = Some VerdictUnavailable) ∧
  numbers (af_Expired f) expiries ∧ numbers (af_Suppressed f) suppressions ∧
  af_Present f = Z.of_nat (size (Present input)) ∧ af_Expected f = Z.of_nat (size (ro_Groups (in_Roster input))) ∧
  af_Dropped f = in_Dropped input.
Proof.
  intros Ho Hmax f. destruct (evaluate_numbered order Ho Hmax) as [Ha He Hs Hu Hg (Hp & Hx & Hd)].
  split_and!; try done; (eapply numbers_ext; [|eassumption]); intros key; simpl.
  - by rewrite anomaly_iff by done.
  - by rewrite unavailable_iff by done.
Qed.

(** ** The Plan-level fact *)

Lemma count_keys_pos (P : string → Prop) `{∀ k, Decision (P k)} keys : 0 < count_keys P keys ↔ ∃ key, key ∈ keys ∧ P key.
Proof.
  unfold count_keys. split.
  - intros Hpos. destruct (filter P keys) as [|key l] eqn:Hf; [simpl in Hpos; lia|].
    assert (key ∈ filter P keys) as [? ?]%list_elem_of_filter by (rewrite Hf; left). eauto.
  - intros (key & Hk & HP). assert (key ∈ filter P keys) as Hin by (by apply list_elem_of_filter).
    destruct (filter P keys); [set_solver|simpl; lia].
Qed.

(** The horizon emptied this round's history roster. *)
Definition exhausts (r : AbsenceResult) : Prop :=
  looked input = true ∧ Source (in_Roster input) = RosterHistory ∧ Present input = ∅ ∧ Memory r = ∅ ∧
  ∃ key, expects input key ∧ expiries key.

Lemma expired_pos order :
  iterates input order → Z.of_nat (size (ro_Groups (in_Roster input))) ≤ maxUint64 →
  looked input = true → ro_Groups (in_Roster input) ≠ ∅ →
  0 < af_Expired (Facts (evaluateAbsence order input)) ↔ ∃ key, expects input key ∧ expiries key.
Proof.
  intros Ho Hmax Hl Hr. rewrite evaluateAbsence_facts, Hl by done. unfold expects_nothing. rewrite bool_decide_eq_false_2 by done. simpl.
  pose proof (iterates_roster _ _ Ho) as Hrange. pose proof Hrange as [Hnd Hin].
  destruct (roster_counts (it_roster order) (Facts (start input)) 0 0 0 start_counts) as [_ He _ _ _ _ _].
  { rewrite (ranges_size _ _ Hrange). lia. }
  unfold roster_facts. rewrite He, Z.add_0_l, count_keys_pos. split; intros (key & Hk & Hc); exists key.
  - rewrite Hin in Hk. destruct Hc as [[? ?] [? ?]]. split; [done|]. split_and!; try done. by left.
  - rewrite Hin. split; [done|]. destruct Hc as (_ & ? & [[_ ?]|[(_ & ? & _) _]] & ? & ?); [by split|done].
Qed.

(** The mark that the horizon emptied a history roster is stated only over an
    empty memory and while nothing arrived; it is this round's when this round's
    expiries emptied it, and otherwise carried from the record, so it is dropped
    only by a round that remembers a group or saw the item's own data. *)
Lemma exhausted_fact order :
  iterates input order → Z.of_nat (size (ro_Groups (in_Roster input))) ≤ maxUint64 → EvaluationTime input ≠ 0 →
  let r := Evaluate order input in
  (Memory r ≠ ∅ ∨ is_Some (Present input !! whole) → TrackingExhaustedAt r = 0) ∧
  (Memory r = ∅ → Present input !! whole = None →
   (exhausts r → TrackingExhaustedAt r = EvaluationTime input) ∧
   (¬ exhausts r → TrackingExhaustedAt r = in_TrackingExhaustedAt input)).
Proof.
  intros Ho Hmax Hnow r. pose proof (evaluateAbsence_exhausted order Ho) as Hx.
  assert (Memory r = Memory (evaluateAbsence order input)) as Hm.
  { unfold r, Evaluate. destruct (_ || _); [done|]. by destruct (_ =? 0). }
  set (x := TrackingExhaustedAt (evaluateAbsence order input)) in *.
  assert (TrackingExhaustedAt r = if negb (bool_decide (Memory r = ∅)) || bool_decide (is_Some (Present input !! whole)) then 0
                                  else if x =? 0 then in_TrackingExhaustedAt input else x) as ->.
  { rewrite Hm. unfold r, Evaluate. cbn [Memory WholeItemPresent set_whole_present TrackingExhaustedAt]. fold x.
    destruct (_ || _); [done|]. by destruct (x =? 0). }
  split.
  - intros Hkeep. replace (negb (bool_decide (Memory r = ∅)) || bool_decide (is_Some (Present input !! whole))) with true; [done|].
    destruct Hkeep as [Hne|Hp]; [by rewrite bool_decide_eq_false_2|].
    rewrite (bool_decide_eq_true_2 _ Hp). by rewrite orb_true_r.
  - intros Hempty Hwhole. rewrite (bool_decide_eq_true_2 (Memory r = ∅)), (bool_decide_eq_false_2 (is_Some (Present input !! whole))) by
      (done || (rewrite Hwhole; by intros [])). simpl.
    assert (exhausts r ↔ x = EvaluationTime input) as Hiff.
    { rewrite Hx, <- Hm. unfold exhausts, nothing_present, expects_nothing.
      destruct (looked input) eqn:Hl; simpl; [|naive_solver].
      destruct (bool_decide_reflect (ro_Groups (in_Roster input) = ∅)) as [Hr|Hr]; simpl.
      { split; [|done]. intros (_ & _ & _ & _ & key & He & _). by destruct (not_expected input key Hr). }
      rewrite <- (expired_pos order) by done. destruct (String.eqb_spec (Source (in_Roster input)) RosterHistory); simpl; [|naive_solver].
      destruct (Z.ltb_spec 0 (af_Expired (Facts (evaluateAbsence order input)))); simpl; [|naive_solver lia].
      repeat case_bool_decide; simpl; naive_solver. }
    assert (x = EvaluationTime input ∨ x = 0) as Hcase.
    { rewrite Hx. destruct (_ && _); auto. }
    rewrite Hiff. destruct Hcase as [Hc|Hc]; rewrite Hc.
    + rewrite (proj2 (Z.eqb_neq _ _) Hnow). tauto.
    + simpl. split; [intros H; congruence|done].
Qed.
End one_round.

(** ** Rounds one after another *)

Definition canonical (input : AbsenceInput) : iteration :=
  mkIteration (elements (dom (Present input) : gset string)) (elements (dom (ro_Groups (in_Roster input)) : gset string)) (elements (dom (in_Memory input) : gset string)).

Lemma canonical_iterates input : iterates input (canonical input).
Proof.
  split; unfold canonical, ranges; simpl; (split; [apply NoDup_elements|]); intros key; by rewrite elem_of_elements, elem_of_dom.
Qed.

(** A round's input with the memory and the mark the record holds. *)
Definition carry (memory : gmap string GroupMemory) (exhausted : Z) (input : AbsenceInput) : AbsenceInput :=
  mkAbsenceInput (EvaluationTime input) (PeriodSeconds input) (Completeness input) (Present input) (in_Dropped input)
    (in_Roster input) memory (OutOfBusiness input) (TrackingHorizonSeconds input) exhausted.

Fixpoint run (memory : gmap string GroupMemory) (exhausted : Z) (inputs : list AbsenceInput) : list AbsenceResult :=
  match inputs with
  | [] => []
  | input :: inputs =>
      let input := carry memory exhausted input in
      let r := Evaluate (canonical input) input in
      r :: run (Memory r) (TrackingExhaustedAt r) inputs
  end.

Section silence.
Variables (key : string) (horizon : Z).

(** A round that looked, expected the group from outside its memory, and did not
    hear from it. *)
Record silent (input : AbsenceInput) : Prop := {
  silent_looked : looked input = true;
  silent_expected : expects input key;
  silent_ours : key ∉ OutOfBusiness input;
  silent_unreported : ¬ reported input key;
  silent_horizon : TrackingHorizonSeconds input = horizon;
  silent_roster : Source (in_Roster input) ≠ RosterHistory;
  silent_time : 0 < EvaluationTime input ≤ maxInt64;
}.

Definition later (l r : AbsenceInput) : Prop := EvaluationTime l ≤ EvaluationTime r.

Lemma expired_later f t t' :
  0 < f → f ≤ t → t ≤ t' → t' ≤ maxInt64 → trackingExpired f t horizon = true → trackingExpired f t' horizon = true.
Proof.
  intros Hf Ht Htt Hmax. unfold trackingExpired. destruct (_ || _); [done|]. rewrite !i64_id by go_lia.
  rewrite !Z.leb_le. lia.
Qed.

Lemma expired_at_start f : trackingExpired f f horizon = false.
Proof.
  unfold trackingExpired. destruct (horizon <=? 0) eqn:Hh; [done|]. simpl. destruct (f <=? 0); [done|].
  rewrite Z.sub_diag. change (i64 0) with 0. apply Z.leb_gt. breflect. done.
Qed.

(** Stopped stays stopped. *)
Lemma stopped_run inputs : ∀ memory exhausted,
  Forall silent inputs → SuppressedAt (memory_of memory key) ≠ 0 →
  Forall (λ r, Verdicts r !! key = None) (run memory exhausted inputs).
Proof.
  induction inputs as [|input inputs IH]; intros memory exhausted Hs Hsup; cbn [run]; [constructor|].
  apply Forall_cons in Hs as [[Hl He Hf Hrep Hh Hro Ht] Hs]. set (i := carry memory exhausted input).
  pose proof (expected_absent (canonical i) i (canonical_iterates i) key Hl He Hf Hrep) as H. cbn zeta in H.
  rewrite decide_True in H by done. destruct H as [Hv Hm]. constructor; [done|].
  apply IH; [done|]. unfold memory_of. rewrite Hm. exact Hsup.
Qed.

Lemma silent_run inputs : ∀ memory exhausted f,
  Forall silent inputs → StronglySorted later inputs → 0 < f →
  SuppressedAt (memory_of memory key) = 0 →
  (FirstAbsent (memory_of memory key) = f ∨ FirstAbsent (memory_of memory key) = 0 ∧ (EvaluationTime <$> head inputs) = Some f) →
  Forall (λ input, f ≤ EvaluationTime input) inputs →
  Forall2 (λ input r, Verdicts r !! key = if trackingExpired f (EvaluationTime input) horizon then None else Some VerdictAnomaly)
    inputs (run memory exhausted inputs).
Proof.
  induction inputs as [|input inputs IH]; intros memory exhausted f Hs Hsorted Hf0 Hsup Hfirst Hfrom; cbn [run]; [constructor|].
  apply Forall_cons in Hs as [[Hl He Hf Hrep Hh Hro Ht] Hs]. apply Forall_cons in Hfrom as [Hfi Hfrom].
  apply StronglySorted_cons in Hsorted as [Hlater Hsorted]. set (i := carry memory exhausted input).
  pose proof (expected_absent (canonical i) i (canonical_iterates i) key Hl He Hf Hrep) as H. cbn zeta in H.
  change (remembered i key) with (memory_of memory key) in H. rewrite decide_False in H by (by intros []).
  assert (first_absent i (memory_of memory key) = f) as Hfa.
  { unfold first_absent. destruct Hfirst as [->|[-> [= <-]]]; [|done]. by rewrite (proj2 (Z.eqb_neq _ _)) by lia. }
  unfold expires in H. rewrite Hfa in H.
  change (EvaluationTime i) with (EvaluationTime input) in H. change (TrackingHorizonSeconds i) with (TrackingHorizonSeconds input) in H.
  rewrite Hh in H. change (Source (in_Roster i)) with (Source (in_Roster input)) in H. rewrite bool_decide_eq_false_2 in H by done.
  destruct (trackingExpired f (EvaluationTime input) horizon) eqn:Hx; destruct H as [Hv Hm].
  - constructor; [by rewrite Hx|]. 
    assert (Forall (λ r, Verdicts r !! key = None) (run (Memory (Evaluate (canonical i) i)) (TrackingExhaustedAt (Evaluate (canonical i) i)) inputs)) as Hstop.
    { apply stopped_run; [done|]. unfold memory_of. rewrite Hm. simpl. lia. }
    assert (length inputs = length (run (Memory (Evaluate (canonical i) i)) (TrackingExhaustedAt (Evaluate (canonical i) i)) inputs)) as Hlen.
    { generalize (Memory (Evaluate (canonical i) i)) as m, (TrackingExhaustedAt (Evaluate (canonical i) i)) as e.
      clear. induction inputs; intros; cbn [run length]; [done|]. by rewrite <- IHinputs. }
    apply Forall2_same_length_lookup_2; [done|]. intros k j r Hj Hr.
    rewrite Forall_lookup in Hstop. rewrite (Hstop k r Hr).
    rewrite (expired_later f (EvaluationTime input) (EvaluationTime j)); [done|done|done| |..|done].
    + rewrite Forall_forall in Hlater. apply Hlater. by eapply list_elem_of_lookup_2.
    + rewrite Forall_forall in Hs. by destruct (Hs j ltac:(by eapply list_elem_of_lookup_2)) as [_ _ _ _ _ _ [_ ?]].
  - constructor; [by rewrite Hx|]. apply IH; try done.
    + unfold memory_of. by rewrite Hm.
    + left. unfold memory_of. by rewrite Hm.
Qed.

(** C29: a group that falls silent is reported absent in every round from its first
    silent one until the horizon has passed since that round, and in none after:
    never recovered, never started again, however many rounds go by. A horizon
    that is not configured never passes. *)
Theorem silence_is_reported_until_horizon memory exhausted first inputs :
  Forall silent (first :: inputs) → StronglySorted later (first :: inputs) →
  SuppressedAt (memory_of memory key) = 0 → FirstAbsent (memory_of memory key) = 0 →
  Forall2 (λ input r,
      Verdicts r !! key = if bool_decide (horizon ≤ 0 ∨ EvaluationTime input - EvaluationTime first < horizon)
                          then Some VerdictAnomaly else None)
    (first :: inputs) (run memory exhausted (first :: inputs)).
Proof.
  intros Hs Hsorted Hsup Hfirst. pose proof Hs as Hs'. apply Forall_cons in Hs' as [[_ _ _ _ _ _ Ht] _].
  assert (Forall (λ input, EvaluationTime first ≤ EvaluationTime input) (first :: inputs)) as Hfrom.
  { apply StronglySorted_cons in Hsorted as [Hl _]. constructor; [lia|exact Hl]. }
  pose proof (silent_run (first :: inputs) memory exhausted (EvaluationTime first) Hs Hsorted ltac:(lia) Hsup ltac:(by right) Hfrom) as H.
  apply Forall2_same_length_lookup. apply Forall2_same_length_lookup in H as [Hlen H]. split; [done|].
  intros k i r Hi Hr. rewrite (H k i r Hi Hr). rewrite Forall_lookup in Hs, Hfrom.
  destruct (Hs k i Hi) as [_ _ _ _ _ _ [? ?]]. specialize (Hfrom k i Hi). unfold trackingExpired.
  rewrite i64_id by go_lia.
  destruct (Z.leb_spec horizon 0), (Z.leb_spec (EvaluationTime first) 0); try lia; simpl; [by rewrite bool_decide_eq_true_2 by auto|].
  destruct (Z.leb_spec horizon (EvaluationTime i - EvaluationTime first)); [rewrite bool_decide_eq_false_2 by lia|rewrite bool_decide_eq_true_2 by lia]; done.
Qed.
End silence.
