(* ===== verification/Roster.v ===== *)
(** The expected set of an item (nodata/roster.go, nodata/host_candidates.go, and
    the member keys of contract/target_plan.go): which roster a target and the
    no-data dimensions give, the groups it expects, and the hosts it asks the
    CMDB about. The digest that names an expected set is an argument. *)
From Stdlib Require Import Ascii.
From S2P Require Import Prelude Group Absence.

Open Scope Z_scope.

(** ** Targets *)

Definition HostIPDimension : string := "bk_target_ip".
Definition HostCloudDimension : string := "bk_target_cloud_id".

Record HostIdentity : Type := mkHost {
  IP : string;
  CloudID : string;
}.

#[export] Instance HostIdentity_eq_dec : EqDecision HostIdentity.
Proof. solve_decision. Defined.

Definition TargetScopeHost : string := "HOST".
Definition TargetScopeInclude : string := "EQ".

Record TargetScopeConditionV2 : Type := mkCondition {
  Field : string;
  Method : string;
  Keys : list string;
  IdentityFields : list (string * string);
}.

Record TargetScopeGroupV2 : Type := mkScopeGroup {
  Conditions : list TargetScopeConditionV2;
}.

Record TargetScopeV2 : Type := mkScope {
  scope_Groups : list TargetScopeGroupV2;
}.

Record TargetPlanIdentityV1 : Type := mkIdentity {
  Dimensions : list string;
  ModelDimension : string;
  ModelValue : string;
  HostIdentity_ : bool;
  Address : bool;
}.

(** A target plan, by the one field a roster reads of it. *)
Record TargetPlanV1 : Type := mkTargetPlan {
  Identity : TargetPlanIdentityV1;
}.

Definition separator : ascii := "|".

(** ** Member keys (contract/target_plan.go) *)

Definition str_le_sort (names : list string) : list string := stable_sort String.le names.

Definition RosterDimensions (identity : TargetPlanIdentityV1) : list string :=
  let dimensions := Dimensions identity in
  let dimensions := if negb (ModelDimension identity =? "")%string then (dimensions ++ [ModelDimension identity])%list
                    else dimensions in
  str_le_sort dimensions.

(** [strings.SplitN]: at most [cuts] cuts, the last part taking what remains. *)
Fixpoint split_n (cuts : nat) (current : string) (text : string) : list string :=
  match text with
  | "" => [current]
  | String c rest =>
      match cuts with
      | O => [current +:+ text]
      | S cuts => if bool_decide (c = separator) then current :: split_n cuts "" rest
                  else split_n (S cuts) (current +:+ String c "") rest
      end
  end%string.

Definition SplitN (text : string) (n : nat) : list string :=
  match n with O => [] | S cuts => split_n cuts "" text end.

Definition group_add (group : option (gmap string string)) (pair : string * string) : option (gmap string string) :=
  match group with
  | None => None
  | Some group => if (pair.2 =? "")%string then None else Some (<[pair.1 := pair.2]> group)
  end.

Definition identity_Group (identity : TargetPlanIdentityV1) (key : string) : option (gmap string string) :=
  let parts := SplitN key (length (Dimensions identity)) in
  if negb (length parts =? length (Dimensions identity))%nat then None
  else
    match foldl group_add (Some ∅) (zip (Dimensions identity) parts) with
    | None => None
    | Some group =>
        Some (if negb (ModelDimension identity =? "")%string then <[ModelDimension identity := ModelValue identity]> group
              else group)
    end.

Definition TargetPlanMemberKey (parts : list string) : string := join "|" parts.

(** The key of a record, whose missing dimensions read as the empty text. *)
Definition identity_Key (identity : TargetPlanIdentityV1) (dimension : string → string) : option string :=
  if negb (ModelDimension identity =? "")%string && negb (dimension (ModelDimension identity) =? ModelValue identity)%string
  then None
  else
    let parts := dimension <$> Dimensions identity in
    if existsb (λ value, (value =? "")%string) parts then None
    else if bool_decide (parts = []) then None
    else Some (TargetPlanMemberKey parts).

(** ** Classification *)

Inductive RosterError : Type :=
  | RosterUnsupported (Reason : string)
  | UnparseableGroupKey (key : string)
  | RosterVersionFailed.

Record RosterClass : Type := mkClass {
  class_Source : string;
  Hosts : list HostIdentity;
  class_Plan : option TargetPlanV1;
}.

Definition sameDimensionSet (expected actual : list string) : bool :=
  negb (existsb (λ name, (name =? "")%string) actual) &&
  bool_decide ((list_to_set expected : gset string) = list_to_set actual).

Definition namesTheHostDimension (aggDimension : list string) : bool :=
  existsb (λ dimension, (dimension =? HostIPDimension)%string) aggDimension.

Definition hostPairIsTheWholeDimensionSet (aggDimension : list string) : bool :=
  if negb (length aggDimension =? 2)%nat then false
  else bool_decide (HostIPDimension ∈ aggDimension) && bool_decide (HostCloudDimension ∈ aggDimension).

Definition soleHostCondition (scope : TargetScopeV2) : option TargetScopeConditionV2 :=
  match scope_Groups scope with
  | [group] =>
      match Conditions group with
      | [condition] =>
          if negb (Field condition =? TargetScopeHost)%string || negb (Method condition =? TargetScopeInclude)%string then None
          else Some condition
      | _ => None
      end
  | _ => None
  end.

(** [strings.LastIndex] and the two slices around it. *)
Fixpoint cut_last (text : string) : option (string * string) :=
  match text with
  | "" => None
  | String c rest =>
      match cut_last rest with
      | Some (before, after) => Some (String c before, after)
      | None => if bool_decide (c = separator) then Some ("", rest) else None
      end
  end%string.

Definition host_of_key (key : string) : option HostIdentity :=
  match cut_last key with
  | Some (before, after) => if (before =? "")%string || (after =? "")%string then None else Some (mkHost before after)
  | None => None
  end.

Definition hostIdentities (keys : list string) : option (list HostIdentity) :=
  match omap host_of_key keys with
  | [] => None
  | hosts => Some hosts
  end.

Definition unsupported_shape : string :=
  "the target is not one included host list, and the backend enumerates only the first condition of the first group".
Definition unsupported_dimensions : string :=
  "the no-data dimensions name the host without being the host pair, so the expected set is history filtered by the target, which is not in this build".
Definition unsupported_identifiers : string :=
  "the target names hosts by identifier only, and a no-data group is addressed by address and cloud".

Definition ClassifyRoster (scope : option TargetScopeV2) (aggDimension : list string) : result RosterError RosterClass :=
  match scope with
  | None => Ok (mkClass RosterHistory [] None)
  | Some scope =>
      if negb (namesTheHostDimension aggDimension) then Ok (mkClass RosterWhole [] None)
      else
        match soleHostCondition scope with
        | None => Err (RosterUnsupported unsupported_shape)
        | Some condition =>
            if negb (hostPairIsTheWholeDimensionSet aggDimension) then Err (RosterUnsupported unsupported_dimensions)
            else
              match hostIdentities (Keys condition) with
              | None => Err (RosterUnsupported unsupported_identifiers)
              | Some hosts => Ok (mkClass RosterTargetStatic hosts None)
              end
        end
  end.

Definition unsupported_plan (identity : TargetPlanIdentityV1) : string :=
  "the no-data dimensions are not the target plan's key dimensions " +:+ join "," (RosterDimensions identity)
  +:+ ", so the expected set cannot be enumerated from the target".

Definition ClassifyTarget (scope : option TargetScopeV2) (plan : option TargetPlanV1) (aggDimension : list string)
    : result RosterError RosterClass :=
  match plan with
  | None => ClassifyRoster scope aggDimension
  | Some plan =>
      if negb (sameDimensionSet (RosterDimensions (Identity plan)) aggDimension)
      then Err (RosterUnsupported (unsupported_plan (Identity plan)))
      else Ok (mkClass RosterTargetPlan [] (Some plan))
  end.

(** ** The expected groups *)

Definition dimensions_of (values : gmap string string) : list Dimension :=
  (λ pair, mkDimension pair.1 pair.2) <$> map_to_list values.

Definition targetPlanGroup (identity : TargetPlanIdentityV1) (key : string) : option Group :=
  match identity_Group identity key with
  | None => None
  | Some values => Some (mkGroup (stable_sort name_le (dimensions_of values)))
  end.

Definition hostTargetGroup (host : HostIdentity) : Group :=
  mkGroup (stable_sort name_le [mkDimension HostCloudDimension (CloudID host); mkDimension HostIPDimension (IP host)]).

(** The refusal quotes the key short; which key is refused when several do not
    parse is the first the iteration meets. *)
Definition history_step (groups : result RosterError (gmap string Group)) (entry : string * GroupMemory)
    : result RosterError (gmap string Group) :=
  groups ← groups;
  if (entry.1 =? whole)%string || (LastSeen entry.2 =? 0) then Ok groups
  else
    match ParseGroupKey entry.1 with
    | None => Err (UnparseableGroupKey entry.1)
    | Some group => Ok (<[entry.1 := group]> groups)
    end.

Definition historyGroups (memory : gmap string GroupMemory) : result RosterError (gmap string Group) :=
  foldl history_step (Ok ∅) (map_to_list memory).

Definition host_key (host : HostIdentity) : string := IP host +:+ "|" +:+ CloudID host.

Definition static_step (known : gset string) (groups : gmap string Group) (host : HostIdentity) : gmap string Group :=
  if bool_decide (host_key host ∉ known) then groups
  else let group := hostTargetGroup host in <[Group.Key group := group]> groups.

Definition plan_step (identity : TargetPlanIdentityV1) (groups : gmap string Group) (key : string) : gmap string Group :=
  match targetPlanGroup identity key with
  | None => groups
  | Some group => <[Group.Key group := group]> groups
  end.

Record RosterRequest : Type := mkRosterRequest {
  AggDimension : list string;
  Scope : option TargetScopeV2;
  req_Plan : option TargetPlanV1;
  TargetMembers : list string;
  KnownHosts : gset string;
  req_Memory : gmap string GroupMemory;
}.

Section roster.
(** The canonical digest of a roster's source and sorted keys. *)
Variable roster_digest : string → list string → option string.

Definition rosterVersion (source : string) (groups : gmap string Group) : result RosterError string :=
  match roster_digest source (str_le_sort (elements (dom groups : gset string))) with
  | None => Err RosterVersionFailed
  | Some digest => Ok digest
  end.

Definition class_groups (class : RosterClass) (request : RosterRequest) : result RosterError (gmap string Group) :=
  if (class_Source class =? RosterHistory)%string then historyGroups (req_Memory request)
  else if (class_Source class =? RosterTargetStatic)%string then
    Ok (foldl (static_step (KnownHosts request)) ∅ (Hosts class))
  else if (class_Source class =? RosterTargetPlan)%string then
    match class_Plan class with
    | None => Ok ∅
    | Some plan => Ok (foldl (plan_step (Identity plan)) ∅ (TargetMembers request))
    end
  else Ok ∅.

Definition BuildRoster (request : RosterRequest) : result RosterError Roster :=
  class ← ClassifyTarget (Scope request) (req_Plan request) (AggDimension request);
  groups ← class_groups class request;
  version ← rosterVersion (class_Source class) groups;
  Ok (mkRoster version (class_Source class) groups).
End roster.

(** ** The hosts a round asks the CMDB about *)

Record HostCandidate : Type := mkCandidate {
  GroupKey : string;
  Host : HostIdentity;
}.

Definition candidate_Key (candidate : HostCandidate) : string := host_key (Host candidate).

Definition read_host (host : HostIdentity) (dimension : Dimension) : HostIdentity :=
  if (Name dimension =? HostIPDimension)%string then mkHost (Value dimension) (CloudID host)
  else if (Name dimension =? HostCloudDimension)%string then mkHost (IP host) (Value dimension)
  else host.

Definition groupHostIdentity (group : Group) : option HostIdentity :=
  let host := foldl read_host (mkHost "" "") (dimensions group) in
  if negb (IP host =? "")%string && negb (CloudID host =? "")%string then Some host else None.

(** [add], with the candidates found so far; [seen] is their group keys. *)
Definition add_candidate (candidates : list HostCandidate) (groupKey : string) (host : HostIdentity) : list HostCandidate :=
  if (IP host =? "")%string || (CloudID host =? "")%string then candidates
  else if bool_decide (groupKey ∈ (GroupKey <$> candidates)) then candidates
  else (candidates ++ [mkCandidate groupKey host])%list.

Definition static_candidate (candidates : list HostCandidate) (host : HostIdentity) : list HostCandidate :=
  add_candidate candidates (Group.Key (hostTargetGroup host)) host.

Definition history_candidate (candidates : list HostCandidate) (entry : string * Group) : list HostCandidate :=
  match groupHostIdentity entry.2 with
  | None => candidates
  | Some host => add_candidate candidates entry.1 host
  end.

Definition candidate_le (l r : HostCandidate) : Prop := String.le (GroupKey l) (GroupKey r).
#[export] Instance candidate_le_dec : RelDecision candidate_le.
Proof. intros l r. unfold candidate_le. apply _. Defined.

Definition HostCandidates (request : RosterRequest) : result RosterError (list HostCandidate) :=
  class ← ClassifyTarget (Scope request) (req_Plan request) (AggDimension request);
  candidates ←
    (if (class_Source class =? RosterTargetStatic)%string then Ok (foldl static_candidate [] (Hosts class))
     else if (class_Source class =? RosterHistory)%string then
       groups ← historyGroups (req_Memory request);
       Ok (foldl history_candidate [] (map_to_list groups))
     else Ok []);
  Ok (stable_sort candidate_le candidates).
