(* ===== verification/RosterSpec.v ===== *)
(** What the expected set of an item is, that a record is placed under a member of
    a target plan exactly when its series projects onto that member's group, and
    that the hosts asked about are those the roster depends on. *)
From Stdlib Require Import Ascii.
From S2P Require Import Prelude Group Absence Roster.

Open Scope Z_scope.

(** ** History *)

(** What a memory makes a history roster expect. *)
Definition expected_by (key : string) (entry : GroupMemory) : Prop := key ≠ whole ∧ LastSeen entry ≠ 0.

#[export] Instance expected_by_dec key entry : Decision (expected_by key entry).
Proof. unfold expected_by. apply _. Defined.

Lemma history_skip key entry :
  (key =? whole)%string || (LastSeen entry =? 0) = negb (bool_decide (expected_by key entry)).
Proof.
  destruct (bool_decide_reflect (expected_by key entry)) as [H|H]; unfold expected_by in H;
    destruct (String.eqb_spec key whole), (Z.eqb_spec (LastSeen entry) 0); tauto.
Qed.

Lemma history_snoc groups l key entry :
  foldl history_step groups (l ++ [(key, entry)]) =
  (groups ← foldl history_step groups l;
   if bool_decide (expected_by key entry) then
     match ParseGroupKey key with None => Err (UnparseableGroupKey key) | Some g => Ok (<[key := g]> groups) end
   else Ok groups).
Proof.
  rewrite foldl_app. simpl. unfold history_step at 1. simpl. rewrite history_skip.
  destruct (foldl history_step groups l); simpl; [|done]. by destruct (bool_decide _).
Qed.

Lemma history_fold l groups :
  foldl history_step (Ok ∅) l = Ok groups → NoDup l.*1 →
  ∀ key g, groups !! key = Some g ↔ ∃ entry, (key, entry) ∈ l ∧ expected_by key entry ∧ ParseGroupKey key = Some g.
Proof.
  revert groups. induction l as [|[k e] l IH] using rev_ind; intros groups.
  { intros [= <-] _ key g. rewrite lookup_empty. split; [done|]. intros (? & ?%not_elem_of_nil & _). done. }
  rewrite history_snoc. intros (before & Hl & H)%bind_Ok. rewrite fmap_app. intros (Hnd & Hk & _)%NoDup_app key g.
  specialize (IH _ Hl Hnd). assert (∀ e', (k, e') ∉ l) as Hfresh.
  { intros e' He'. apply (Hk k); [apply list_elem_of_fmap; by exists (k, e')|by left]. }
  destruct (bool_decide_reflect (expected_by k e)) as [He|He].
  - destruct (ParseGroupKey k) as [gk|] eqn:Hp; [|done]. injection H as <-. destruct (decide (k = key)) as [<-|Hne].
    + rewrite lookup_insert_eq. split; [intros [= ->]; exists e; set_solver|]. intros (? & _ & _ & ?). congruence.
    + rewrite lookup_insert_ne, IH by done. setoid_rewrite elem_of_snoc. naive_solver.
  - injection H as <-. rewrite IH. setoid_rewrite elem_of_snoc. naive_solver.
Qed.

Lemma history_total l :
  is_ok (foldl history_step (Ok ∅) l) = true ↔ ∀ key entry, (key, entry) ∈ l → expected_by key entry → is_Some (ParseGroupKey key).
Proof.
  induction l as [|[k e] l IH] using rev_ind; [split; [by intros _ ? ? ?%not_elem_of_nil|done]|].
  rewrite history_snoc. setoid_rewrite elem_of_snoc. destruct (foldl history_step (Ok ∅) l) as [groups|]; simpl in *.
  - split.
    + intros H key entry [Hin|[= <- <-]] He; [by eapply IH|]. rewrite bool_decide_eq_true_2 in H by done.
      destruct (ParseGroupKey key); [eauto|done].
    + intros H. destruct (bool_decide_reflect (expected_by k e)) as [He|]; [|done].
      by destruct (H k e (or_intror eq_refl) He) as [g ->].
  - split; [done|]. intros H. apply IH. eauto.
Qed.

Lemma historyGroups_spec memory groups key g :
  historyGroups memory = Ok groups →
  groups !! key = Some g ↔ ∃ entry, memory !! key = Some entry ∧ expected_by key entry ∧ ParseGroupKey key = Some g.
Proof.
  intros H. rewrite (history_fold _ _ H (NoDup_fst_map_to_list _)). by setoid_rewrite elem_of_map_to_list.
Qed.

Lemma historyGroups_total memory :
  is_ok (historyGroups memory) = true ↔ ∀ key entry, memory !! key = Some entry → expected_by key entry → is_Some (ParseGroupKey key).
Proof. unfold historyGroups. rewrite history_total. by setoid_rewrite elem_of_map_to_list. Qed.

(** ** Declared groups *)

(** A fold that puts groups under their own keys. *)
Definition keyed (groups : gmap string Group) : Prop := ∀ key g, groups !! key = Some g → Group.Key g = key.

Lemma keyed_insert groups g : keyed groups → keyed (<[Group.Key g := g]> groups).
Proof.
  intros Hk key g'. destruct (decide (Group.Key g = key)) as [<-|Hne].
  - rewrite lookup_insert_eq. by intros [= <-].
  - rewrite lookup_insert_ne by done. apply Hk.
Qed.

Lemma declared_fold {A} (step : gmap string Group → A → gmap string Group) (named : A → option Group) l :
  (∀ groups a, step groups a = match named a with Some g => <[Group.Key g := g]> groups | None => groups end) →
  ∀ key g, foldl step ∅ l !! key = Some g ↔ Group.Key g = key ∧ ∃ a, a ∈ l ∧ named a = Some g.
Proof.
  intros Hstep. induction l as [|a l IH] using rev_ind; intros key g.
  { simpl. rewrite lookup_empty. split; [done|]. intros (_ & ? & ?%not_elem_of_nil & _). done. }
  rewrite foldl_app. simpl. rewrite Hstep. setoid_rewrite elem_of_snoc. destruct (named a) as [ga|] eqn:Ha.
  - destruct (decide (Group.Key ga = key)) as [<-|Hne].
    + rewrite lookup_insert_eq. split; [intros [= <-]; eauto|]. intros [?%(inj Group.Key) _]. congruence.
    + rewrite lookup_insert_ne, IH by done. split; [naive_solver|]. intros (<- & a' & [?| ->] & ?); [eauto|congruence].
  - rewrite IH. split; [naive_solver|]. intros (<- & a' & [?| ->] & ?); [eauto|congruence].
Qed.

Definition declared_host (known : gset string) (host : HostIdentity) : option Group :=
  if bool_decide (host_key host ∈ known) then Some (hostTargetGroup host) else None.

Lemma static_groups known hosts key g :
  foldl (static_step known) ∅ hosts !! key = Some g ↔
  Group.Key g = key ∧ ∃ host, host ∈ hosts ∧ host_key host ∈ known ∧ g = hostTargetGroup host.
Proof.
  rewrite (declared_fold _ (declared_host known)).
  - f_equiv. unfold declared_host. split; intros (h & Hin & H); exists h; (split; [done|]).
    + case_bool_decide; [|done]. split; [done|congruence].
    + destruct H as [? ->]. by rewrite bool_decide_eq_true_2.
  - intros groups host. unfold static_step, declared_host. by repeat case_bool_decide.
Qed.

Lemma plan_groups identity members key g :
  foldl (plan_step identity) ∅ members !! key = Some g ↔
  Group.Key g = key ∧ ∃ member, member ∈ members ∧ targetPlanGroup identity member = Some g.
Proof. by apply declared_fold. Qed.

(** ** Member keys *)

(** Text a member key can hold before its last part. *)
Definition free (text : string) : Prop := separator ∉ String.list_ascii_of_string text.

Lemma split_n_free n current part rest :
  free part → split_n (S n) current (part +:+ String separator rest) = (current +:+ part) :: split_n n "" rest.
Proof.
  unfold free. revert current. induction part as [|c part IH]; intros current Hf.
  - change ("" +:+ String separator rest) with (String separator rest). cbn [split_n].
    rewrite bool_decide_eq_true_2 by done. by rewrite app_nil_str.
  - change (String c part +:+ String separator rest) with (String c (part +:+ String separator rest)). cbn [split_n].
    cbn [String.list_ascii_of_string] in Hf. rewrite bool_decide_eq_false_2 by set_solver. rewrite IH by set_solver.
    by rewrite app_assoc_str.
Qed.

Lemma split_n_last current text : split_n 0 current text = [current +:+ text].
Proof. destruct text; cbn [split_n]; [by rewrite app_nil_str|done]. Qed.

Lemma join_cons part parts : parts ≠ [] → join "|" (part :: parts) = part +:+ String separator (join "|" parts).
Proof. by destruct parts. Qed.

Lemma split_n_join parts last current :
  Forall free parts →
  split_n (length parts) current (join "|" (parts ++ [last]))
  = match parts with [] => [current +:+ last] | part :: parts => (current +:+ part) :: parts ++ [last] end.
Proof.
  intros Hf. revert current. induction Hf as [|part parts Hp Hf IH]; intros current; [apply split_n_last|].
  cbn [length app]. rewrite join_cons by (by destruct parts). rewrite split_n_free, IH by done.
  by destruct parts.
Qed.

Lemma SplitN_join parts last : Forall free parts → SplitN (join "|" (parts ++ [last])) (length (parts ++ [last])) = parts ++ [last].
Proof.
  intros Hf. rewrite length_app, Nat.add_comm. cbn [length Nat.add SplitN]. rewrite split_n_join by done.
  by destruct parts.
Qed.

Lemma split_n_nonempty n current text : split_n n current text ≠ [].
Proof.
  revert n current. induction text as [|c text IH]; intros n current; cbn [split_n]; [done|].
  destruct n; [done|]. by case_bool_decide.
Qed.

Lemma join_split_n n current text : join "|" (split_n n current text) = current +:+ text.
Proof.
  revert n current. induction text as [|c text IH]; intros n current; cbn [split_n]; [by rewrite app_nil_str|].
  destruct n as [|n]; [done|]. case_bool_decide as Hc.
  - rewrite join_cons by apply split_n_nonempty. by rewrite IH, Hc.
  - rewrite IH, app_assoc_str. done.
Qed.

Lemma join_SplitN n text : n ≠ 0%nat → join "|" (SplitN text n) = text.
Proof. destruct n; [done|]. intros _. apply join_split_n. Qed.

Lemma group_fold l group :
  NoDup l.*1 → foldl group_add (Some ∅) l = Some group ↔ Forall (λ pair, pair.2 ≠ ""%string) l ∧ group = list_to_map l.
Proof.
  revert group. induction l as [|[name v] l IH] using rev_ind; intros group.
  { intros _. simpl. split; [intros [= <-]; done|by intros [_ ->]]. }
  rewrite fmap_app. intros (Hnd & Hfresh & _)%NoDup_app. rewrite foldl_app, Forall_app. simpl.
  assert (name ∉ l.*1) as Hn by (intros ?; apply (Hfresh name); [done|left]).
  rewrite list_to_map_snoc by done. destruct (foldl group_add (Some ∅) l) as [before|]; simpl.
  - destruct (IH before Hnd) as [H _]. destruct (H eq_refl) as [Hall ->].
    destruct (String.eqb_spec v "") as [->|Hv]; [split; [done|]|].
    + intros [[_ [Hv _]%Forall_cons] _]. by destruct Hv.
    + split; [intros [= <-]; repeat split; [done|by constructor]|by intros [_ ->]].
  - split; [done|]. intros [[Hall _] _]. destruct (IH (list_to_map l) Hnd) as [_ H]. by specialize (H (conj Hall eq_refl)).
Qed.

(** What [TargetPlanV1.Validate] requires of an identity. *)
Record identity_valid (identity : TargetPlanIdentityV1) : Prop := {
  iv_some : Dimensions identity ≠ [];
  iv_named : ""%string ∉ Dimensions identity;
  iv_once : NoDup (Dimensions identity);
  iv_gate : ModelDimension identity = ""%string ↔ ModelValue identity = ""%string;
  iv_apart : ModelDimension identity ∉ Dimensions identity;
}.

Section identity.
Variable identity : TargetPlanIdentityV1.
Hypothesis Hvalid : identity_valid identity.

Definition gated : Prop := ModelDimension identity ≠ ""%string.

(** The dimensions a member's values give its group. *)
Definition member_values (parts : list string) : gmap string string :=
  let values := list_to_map (zip (Dimensions identity) parts) in
  if negb (ModelDimension identity =? "")%string then <[ModelDimension identity := ModelValue identity]> values else values.

Lemma zip_dims parts : length parts = length (Dimensions identity) → (zip (Dimensions identity) parts : list (string * string)).*1 = Dimensions identity.
Proof. intros H. apply fst_zip. lia. Qed.

Lemma zip_nodup parts : length parts = length (Dimensions identity) → NoDup (zip (Dimensions identity) parts : list (string * string)).*1.
Proof. intros H. rewrite zip_dims by done. apply Hvalid. Qed.

Lemma identity_Group_Some key values :
  identity_Group identity key = Some values ↔
  let parts := SplitN key (length (Dimensions identity)) in
  length parts = length (Dimensions identity) ∧ Forall (λ part, part ≠ ""%string) parts ∧ values = member_values parts.
Proof.
  simpl. unfold identity_Group, member_values. set (parts := SplitN key (length (Dimensions identity))).
  destruct (Nat.eqb_spec (length parts) (length (Dimensions identity))) as [Hlen|Hlen]; simpl; [|naive_solver].
  assert (Forall (λ part, part ≠ ""%string) parts ↔ Forall (λ pair, pair.2 ≠ ""%string) (zip (Dimensions identity) parts)) as ->.
  { rewrite <- (Forall_fmap snd (λ part, part ≠ ""%string)), snd_zip by lia. done. }
  destruct (foldl group_add (Some ∅) (zip (Dimensions identity) parts)) as [group|] eqn:Hf.
  - apply group_fold in Hf as [Hall ->]; [|by apply zip_nodup]. naive_solver.
  - split; [done|]. intros (_ & Hall & _). assert (foldl group_add (Some ∅) (zip (Dimensions identity) parts) = Some (list_to_map (zip (Dimensions identity) parts))) as H
      by (apply group_fold; [by apply zip_nodup|done]). congruence.
Qed.

Lemma member_values_lookup parts name v :
  length parts = length (Dimensions identity) →
  member_values parts !! name = Some v ↔
  (name, v) ∈ zip (Dimensions identity) parts ∨ gated ∧ name = ModelDimension identity ∧ v = ModelValue identity.
Proof.
  intros Hlen. unfold member_values, gated. pose proof (iv_apart _ Hvalid) as Hapart.
  assert ((list_to_map (zip (Dimensions identity) parts) : gmap string string) !! name = Some v ↔ (name, v) ∈ zip (Dimensions identity) parts) as Hl
    by (symmetry; apply elem_of_list_to_map; by apply zip_nodup).
  destruct (String.eqb_spec (ModelDimension identity) "") as [Hm|Hm]; simpl; [rewrite Hl; tauto|].
  destruct (decide (ModelDimension identity = name)) as [<-|Hne].
  - rewrite lookup_insert_eq. split; [intros [= <-]; auto|]. intros [Hin|(_ & _ & ->)]; [|done].
    destruct Hapart. rewrite <- (zip_dims parts) by done. apply list_elem_of_fmap. by exists (ModelDimension identity, v).
  - rewrite lookup_insert_ne, Hl by done. naive_solver.
Qed.

Lemma RosterDimensions_elem name :
  name ∈ RosterDimensions identity ↔ name ∈ Dimensions identity ∨ gated ∧ name = ModelDimension identity.
Proof.
  unfold RosterDimensions, str_le_sort, gated. rewrite stable_sort_perm.
  destruct (String.eqb_spec (ModelDimension identity) ""); simpl; [naive_solver|]. rewrite elem_of_snoc. naive_solver.
Qed.

Lemma dimensions_of_elem values d : d ∈ dimensions_of values ↔ values !! Name d = Some (Value d).
Proof.
  unfold dimensions_of. rewrite list_elem_of_fmap. split.
  - intros ([n v] & -> & H%elem_of_map_to_list). done.
  - intros H. exists (Name d, Value d). split; [by destruct d|]. by apply elem_of_map_to_list.
Qed.

Lemma dimensions_of_nodup values : NoDup (dimensions_of values).
Proof.
  apply NoDup_fmap_2_strong; [|apply NoDup_map_to_list]. intros [n v] [n' v'] _ _ [= -> ->]. done.
Qed.

(** A group whose names are distinct is the values it carries. *)
Lemma group_ext ds ds' (g g' : Group) :
  dimensions g ≡ₚ ds → dimensions g' ≡ₚ ds' → NoDup ds → NoDup ds' →
  StronglySorted name_le (dimensions g) → StronglySorted name_le (dimensions g') →
  (∀ d d', d ∈ ds → d' ∈ ds → Name d = Name d' → d = d') →
  g = g' ↔ ∀ d, d ∈ ds ↔ d ∈ ds'.
Proof.
  intros Hg Hg' Hnd Hnd' Hs Hs' Hinj. split; [intros ->; intros d; by rewrite <- Hg, <- Hg'|].
  intros Hel. destruct g as [l], g' as [l']. simpl in *. f_equal. apply (StronglySorted_unique_strong name_le); [|done..|].
  - intros d d' Hd Hd' H1 H2. apply Hinj; [by rewrite <- Hg|apply Hel; by rewrite <- Hg'|]. by apply (anti_symm String.le).
  - rewrite Hg, Hg'. by apply NoDup_Permutation.
Qed.

Section series.
Variables (series : gmap string string) (agg : list string).
Hypotheses (Hagg : NoDup agg) (Hsame : sameDimensionSet (RosterDimensions identity) agg = true).

Notation dimension := (λ name, default ""%string (series !! name)).

Lemma agg_elem name : name ∈ agg ↔ name ∈ Dimensions identity ∨ gated ∧ name = ModelDimension identity.
Proof.
  unfold sameDimensionSet in Hsame. breflect. rewrite <- RosterDimensions_elem.
  rewrite <- !(elem_of_list_to_set (C:=gset string)). by match goal with H : _ = list_to_set agg |- _ => rewrite H end.
Qed.

(** The series names every part of the member and passes the gate. *)
Definition carries (parts : list string) : Prop :=
  Forall2 (λ name part, series !! name = Some part) (Dimensions identity) parts ∧
  (gated → series !! ModelDimension identity = Some (ModelValue identity)).

Lemma carries_member parts :
  length parts = length (Dimensions identity) →
  carries parts ↔ ∀ name v, member_values parts !! name = Some v → series !! name = Some v.
Proof.
  intros Hlen. unfold carries. setoid_rewrite member_values_lookup; [|done..]. split.
  - intros [Hall Hg] name v [Hin|(H & -> & ->)]; [|auto].
    apply list_elem_of_lookup in Hin as [i Hi]. apply lookup_zip_Some in Hi as [Hn Hp].
    by eapply Forall2_lookup_lr in Hall.
  - intros H. split; [|intros; apply H; auto]. apply Forall2_same_length_lookup. split; [done|].
    intros i name v Hn Hp. apply H. left. apply list_elem_of_lookup. exists i. by apply lookup_zip_Some.
Qed.

Lemma member_projects parts g :
  length parts = length (Dimensions identity) → Project series agg = Some g →
  g = mkGroup (stable_sort name_le (dimensions_of (member_values parts))) ↔ carries parts.
Proof.
  intros Hlen Hp. pose proof Hp as (Hs & (ds & Hds & Hperm) & Hel)%Project_Some. rewrite carries_member by done.
  assert (∀ name, is_Some (member_values parts !! name) ↔ name ∈ agg) as Hdom.
  { intros name. rewrite agg_elem. split.
    - intros [v Hv]. apply member_values_lookup in Hv as [Hin|(? & ? & ?)]; [|auto|done].
      left. rewrite <- (zip_dims parts) by done. apply list_elem_of_fmap. by exists (name, v).
    - intros [Hin|[Hg ->]].
      + rewrite <- (zip_dims parts) in Hin by done. apply list_elem_of_fmap in Hin as ([n v] & -> & Hin).
        exists v. apply member_values_lookup; auto.
      + exists (ModelValue identity). apply member_values_lookup; auto. }
  rewrite (group_ext (dimensions g) (dimensions_of (member_values parts))).
  - setoid_rewrite Hel. setoid_rewrite dimensions_of_elem. split.
    + intros H name v Hv. by apply (H (mkDimension name v)).
    + intros H d. split.
      * intros [[v Hv]%Hdom Hd]. rewrite Hv. apply H in Hv. congruence.
      * intros Hd. split; [apply Hdom; eauto|]. by apply H.
  - done.
  - apply stable_sort_perm.
  - rewrite Hperm. apply reduce_fmap in Hds as ->. apply NoDup_fmap_2_strong; [|done]. intros ? ? _ _ [= ?]; done.
  - apply dimensions_of_nodup.
  - done.
  - apply stable_sort_sorted; apply _.
  - intros d d' [_ Hd]%Hel [_ Hd']%Hel Hn. destruct d, d'. simpl in *. congruence.
Qed.

Lemma carries_values parts : carries parts → (dimension <$> Dimensions identity) = parts.
Proof.
  intros [H _]. induction H as [|name part names parts Hn _ IH]; [done|]. rewrite fmap_cons, IH. by rewrite Hn.
Qed.

Lemma identity_Key_Some key :
  identity_Key identity dimension = Some key ↔
  let parts := dimension <$> Dimensions identity in
  carries parts ∧ Forall (λ part, part ≠ ""%string) parts ∧ key = join "|" parts.
Proof.
  simpl. unfold identity_Key, TargetPlanMemberKey, carries, gated. pose proof (iv_gate _ Hvalid) as Hgate.
  set (parts := dimension <$> Dimensions identity).
  assert (existsb (λ value, (value =? "")%string) parts = false ↔ Forall (λ part, part ≠ ""%string) parts) as Hempty.
  { rewrite <- not_true_iff_false, existsb_exists, Forall_forall. setoid_rewrite list_elem_of_In. split.
    - intros H part Hin ->. apply H. exists ""%string. done.
    - intros H (part & Hin & Heq%String.eqb_eq). by eapply H. }
  assert (Forall (λ part, part ≠ ""%string) parts → Forall2 (λ name part, series !! name = Some part) (Dimensions identity) parts) as Hall.
  { unfold parts. rewrite Forall_fmap. intros H. apply Forall2_fmap_r, Forall_Forall2_diag. eapply Forall_impl; [exact H|].
    simpl. intros name. by destruct (series !! name). }
  assert (parts ≠ []) as Hne by (unfold parts; intros H%fmap_nil_inv; by apply (iv_some _ Hvalid)).
  rewrite (bool_decide_eq_false_2 (parts = [])) by done.
  destruct (String.eqb_spec (ModelDimension identity) "") as [Hm|Hm]; simpl.
  - destruct (existsb _ parts) eqn:He; [|naive_solver]. split; [done|]. intros (_ & H & _). apply Hempty in H. congruence.
  - assert (ModelValue identity ≠ ""%string) as Hv by tauto.
    destruct (String.eqb_spec (default ""%string (series !! ModelDimension identity)) (ModelValue identity)) as [Hd|Hd]; simpl.
    + assert (series !! ModelDimension identity = Some (ModelValue identity)) as Hs.
      { destruct (series !! ModelDimension identity); simpl in Hd; congruence. }
      destruct (existsb _ parts) eqn:He; [|naive_solver]. split; [done|]. intros (_ & H & _). apply Hempty in H. congruence.
    + split; [done|]. intros [[_ H] _]. rewrite H in Hd by done. done.
Qed.

Lemma carries_projects parts : carries parts → is_Some (Project series agg).
Proof.
  intros [Hall Hg]. apply Project_is_Some. intros name [Hin|[Hgate ->]]%agg_elem; [|rewrite Hg; eauto].
  apply list_elem_of_lookup in Hin as [i Hi]. eapply Forall2_lookup_l in Hall as (part & _ & H); eauto.
Qed.

(** A record is placed under a member of a target plan exactly when its series
    projects onto the group the roster expects for that member, as long as no
    part of its key but the last holds the separator. *)
Lemma member_key_agrees key :
  Forall free (removelast (dimension <$> Dimensions identity)) →
  identity_Key identity dimension = Some key ↔
  ∃ g, Project series agg = Some g ∧ targetPlanGroup identity key = Some g.
Proof.
  intros Hfree. rewrite identity_Key_Some. simpl. unfold targetPlanGroup. split.
  - intros (Hc & Hne & ->). set (parts := dimension <$> Dimensions identity) in *.
    assert (length parts = length (Dimensions identity)) as Hlen by apply length_fmap.
    assert (SplitN (join "|" parts) (length (Dimensions identity)) = parts) as Hsplit.
    { rewrite <- Hlen. rewrite (app_removelast_last "" (l := parts)); [by apply SplitN_join|].
      unfold parts. intros H%fmap_nil_inv. by apply (iv_some _ Hvalid). }
    rewrite (proj2 (identity_Group_Some _ (member_values parts))) by (by rewrite Hsplit).
    destruct (carries_projects parts Hc) as [g Hg]. exists g. split; [done|]. f_equal. symmetry. by apply member_projects.
  - intros (g & Hg & H). destruct (identity_Group identity key) as [values|] eqn:Hk; [|done]. injection H as H.
    apply identity_Group_Some in Hk as (Hlen & Hne & ->). set (parts := SplitN key _) in *.
    assert (carries parts) as Hc by (apply (member_projects parts g); done).
    rewrite (carries_values parts Hc). split_and!; [done..|]. symmetry. apply join_SplitN.
    intros H0%length_zero_iff_nil. by apply (iv_some _ Hvalid).
Qed.
End series.
End identity.

(** ** Declared hosts *)

Lemma cut_last_Some text before after : cut_last text = Some (before, after) → text = before +:+ "|" +:+ after.
Proof.
  revert before. induction text as [|c text IH]; intros before; cbn [cut_last]; [done|].
  destruct (cut_last text) as [[b a]|] eqn:Hc.
  - intros [= <- <-]. rewrite (IH b) by done. done.
  - case_bool_decide as Hs; [|done]. intros [= <- <-]. by rewrite Hs.
Qed.

Lemma host_of_key_Some key host :
  host_of_key key = Some host → host_key host = key ∧ IP host ≠ ""%string ∧ CloudID host ≠ ""%string.
Proof.
  unfold host_of_key. destruct (cut_last key) as [[before after]|] eqn:Hc; [|done].
  destruct (String.eqb_spec before ""), (String.eqb_spec after ""); simpl; try done. intros [= <-].
  split; [|done]. symmetry. by apply cut_last_Some.
Qed.

Lemma hostTargetGroup_eq host :
  hostTargetGroup host = mkGroup [mkDimension HostCloudDimension (CloudID host); mkDimension HostIPDimension (IP host)].
Proof. reflexivity. Qed.

#[export] Instance hostTargetGroup_inj : Inj (=) (=) hostTargetGroup.
Proof. intros [] [] H. rewrite !hostTargetGroup_eq in H. by injection H as -> ->. Qed.

Lemma hostIdentities_Some keys hosts :
  hostIdentities keys = Some hosts → hosts ≠ [] ∧ ∀ host, host ∈ hosts ↔ ∃ key, key ∈ keys ∧ host_of_key key = Some host.
Proof.
  unfold hostIdentities. intros H. assert (hosts = omap host_of_key keys ∧ hosts ≠ []) as [-> Hne].
  { destruct (omap host_of_key keys); [done|]. by injection H as <-. }
  split; [done|]. intros host. apply list_elem_of_omap.
Qed.

(** What a static target declares. *)
Definition declares (scope : TargetScopeV2) (condition : TargetScopeConditionV2) : Prop :=
  scope_Groups scope = [mkScopeGroup [condition]] ∧ Field condition = TargetScopeHost ∧ Method condition = TargetScopeInclude.

Lemma soleHostCondition_Some scope condition : soleHostCondition scope = Some condition ↔ declares scope condition.
Proof.
  unfold soleHostCondition, declares. destruct (scope_Groups scope) as [|[[|c []]] []]; simpl; try naive_solver.
  destruct (String.eqb_spec (Field c) TargetScopeHost), (String.eqb_spec (Method c) TargetScopeInclude); naive_solver.
Qed.

Lemma names_host agg : namesTheHostDimension agg = bool_decide (HostIPDimension ∈ agg).
Proof.
  unfold namesTheHostDimension. symmetry. apply eq_true_iff_eq. rewrite bool_decide_eq_true, existsb_exists.
  setoid_rewrite list_elem_of_In. setoid_rewrite String.eqb_eq. naive_solver.
Qed.

Section build.
Variable roster_digest : string → list string → option string.
Variable request : RosterRequest.
Notation agg := (AggDimension request).

(** The class of the request, and what the class expects. *)
Definition classified (class : RosterClass) : Prop :=
  match req_Plan request, Scope request with
  | Some plan, _ => class = mkClass RosterTargetPlan [] (Some plan) ∧ sameDimensionSet (RosterDimensions (Identity plan)) agg = true
  | None, None => class = mkClass RosterHistory [] None
  | None, Some scope =>
      if bool_decide (HostIPDimension ∈ agg) then
        ∃ condition hosts, declares scope condition ∧ hostPairIsTheWholeDimensionSet agg = true ∧
          hostIdentities (Keys condition) = Some hosts ∧ class = mkClass RosterTargetStatic hosts None
      else class = mkClass RosterWhole [] None
  end.

Lemma ClassifyTarget_Ok class : ClassifyTarget (Scope request) (req_Plan request) agg = Ok class ↔ classified class.
Proof.
  unfold ClassifyTarget, ClassifyRoster, classified. destruct (req_Plan request) as [plan|].
  - destruct (sameDimensionSet _ _); simpl; naive_solver.
  - destruct (Scope request) as [scope|]; [|naive_solver]. rewrite names_host. case_bool_decide; simpl; [|naive_solver].
    setoid_rewrite <- soleHostCondition_Some. destruct (soleHostCondition scope) as [condition|]; [|naive_solver].
    destruct (hostPairIsTheWholeDimensionSet agg); simpl; [|naive_solver].
    destruct (hostIdentities (Keys condition)) eqn:Hh; naive_solver.
Qed.

Lemma BuildRoster_Ok roster :
  BuildRoster roster_digest request = Ok roster ↔
  ∃ class, classified class ∧ Source roster = class_Source class ∧ class_groups class request = Ok (ro_Groups roster) ∧
    roster_digest (Source roster) (str_le_sort (elements (dom (ro_Groups roster) : gset string))) = Some (Version roster).
Proof.
  unfold BuildRoster. rewrite bind_Ok. setoid_rewrite bind_Ok. setoid_rewrite bind_Ok. unfold rosterVersion. split.
  - intros (class & Hc%ClassifyTarget_Ok & groups & Hg & version & Hv & [= <-]). exists class. simpl. split_and!; try done.
    by destruct (roster_digest _ _); simplify_eq.
  - intros (class & Hc & Hs & Hg & Hv). exists class. split; [by apply ClassifyTarget_Ok|].
    exists (ro_Groups roster). split; [done|]. exists (Version roster). rewrite <- Hs, Hv. split; [done|]. by destruct roster.
Qed.

(** The expected set is what the target says. A target plan expects the groups
    of its resolved members; no target expects the groups the memory has seen; a
    host target expects the hosts its one included list declares and the CMDB
    knows, or nothing when the dimensions do not name the host. Every other shape
    is refused, and a remembered key that is no group's refuses the round. *)
Lemma expected_set roster :
  BuildRoster roster_digest request = Ok roster →
  ∀ key g, ro_Groups roster !! key = Some g ↔
  match req_Plan request, Scope request with
  | Some plan, _ =>
      Source roster = RosterTargetPlan ∧ Group.Key g = key ∧
      ∃ member, member ∈ TargetMembers request ∧ targetPlanGroup (Identity plan) member = Some g
  | None, None =>
      Source roster = RosterHistory ∧ key ≠ whole ∧ ParseGroupKey key = Some g ∧
      ∃ entry, req_Memory request !! key = Some entry ∧ LastSeen entry ≠ 0
  | None, Some scope =>
      Source roster = RosterTargetStatic ∧ Group.Key g = key ∧ HostIPDimension ∈ agg ∧
      ∃ condition declared host, declares scope condition ∧ declared ∈ Keys condition ∧ declared ∈ KnownHosts request ∧
        host_of_key declared = Some host ∧ g = hostTargetGroup host
  end.
Proof.
  intros (class & Hc & Hs & Hg & _)%BuildRoster_Ok key g. unfold classified in Hc.
  destruct (req_Plan request) as [plan|].
  - destruct Hc as [-> _]. injection Hg as <-. rewrite plan_groups. naive_solver.
  - destruct (Scope request) as [scope|].
    + case_bool_decide as Hip.
      * destruct Hc as (condition & hosts & Hd & _ & Hh & ->). injection Hg as <-. rewrite static_groups.
        apply hostIdentities_Some in Hh as [_ Hh]. split.
        -- intros (Hk & host & (declared & Hin & Hhost)%Hh & Hknown & ->).
           pose proof (host_of_key_Some _ _ Hhost) as [Hkey _]. split_and!; [done..|].
           exists condition, declared, host. split_and!; try done. by rewrite <- Hkey.
        -- intros (_ & Hk & _ & condition' & declared & host & Hd' & Hin & Hknown & Hhost & ->). split; [done|].
           assert (condition' = condition) as -> by (destruct Hd as [Hd _], Hd' as [Hd' _]; congruence).
           pose proof (host_of_key_Some _ _ Hhost) as [Hkey _].
           exists host. split; [apply Hh; eauto|]. by rewrite Hkey.
      * subst class. injection Hg as <-. rewrite lookup_empty. split; [done|]. by intros (_ & _ & ? & _).
    + subst class. rewrite (historyGroups_spec _ _ _ _ Hg). unfold expected_by. naive_solver.
Qed.

(** ** The hosts asked about *)

Lemma candidates_fold {A} (named : A → option (string * HostIdentity)) step l :
  (∀ candidates a, step candidates a = match named a with Some (key, host) => add_candidate candidates key host | None => candidates end) →
  (∀ a a' key host host', a ∈ l → a' ∈ l → named a = Some (key, host) → named a' = Some (key, host') → host = host') →
  NoDup (GroupKey <$> foldl step [] l) ∧
  ∀ c, c ∈ foldl step [] l ↔ ∃ a, a ∈ l ∧ named a = Some (GroupKey c, Host c) ∧ IP (Host c) ≠ ""%string ∧ CloudID (Host c) ≠ ""%string.
Proof.
  intros Hstep. induction l as [|a l IH] using rev_ind; intros Hfun.
  { split; [constructor|]. intros c. split; [by intros ?%not_elem_of_nil|]. by intros (? & ?%not_elem_of_nil & _). }
  destruct IH as [Hnd IH]; [intros a1 a2 key h1 h2 H1 H2; apply Hfun; rewrite elem_of_app; by left|].
  rewrite foldl_app. simpl. rewrite Hstep. setoid_rewrite elem_of_snoc.
  set (before := foldl step [] l) in *. destruct (named a) as [[key host]|] eqn:Ha.
  2: { split; [done|]. intros c. rewrite IH. split; [intros (? & ? & ?); eauto|].
       intros (a' & [Hl| ->] & Hc & ?); [eauto|congruence]. }
  unfold add_candidate. destruct (String.eqb_spec (IP host) ""), (String.eqb_spec (CloudID host) ""); simpl;
    [split; [done|]; intros c; rewrite IH; (split; [intros (? & ? & ?); eauto|intros (a' & [Hl| ->] & Hc & ?); [eauto|]; rewrite Ha in Hc; injection Hc as ? ?; subst; tauto])..|].
  destruct (bool_decide_reflect (key ∈ (GroupKey <$> before))) as [Hin|Hin].
  - split; [done|]. intros c. rewrite IH. split; [intros (? & ? & ?); eauto|].
    intros (a' & [Hl| ->] & Hc & ?); [eauto|]. rewrite Ha in Hc. injection Hc as -> ->.
    apply list_elem_of_fmap in Hin as (c' & Hk & (a' & Hl & Hc' & ?)%IH). exists a'. split; [done|]. split; [|done].
    rewrite Hc', <- Hk. f_equal. f_equal. eapply Hfun; [| |exact Hc'|rewrite <- Hk; exact Ha]; rewrite elem_of_app, list_elem_of_singleton; auto.
  - split.
    + rewrite fmap_app. apply NoDup_app. split_and!; [done| |by apply NoDup_singleton]. intros x Hx. simpl.
      rewrite list_elem_of_singleton. by intros ->.
    + intros c. rewrite elem_of_snoc, IH. split.
      * intros [(a' & ? & ?)| ->]; [eauto|]. exists a. simpl. auto.
      * intros (a' & [Hl| ->] & Hc & ?); [eauto|]. right. rewrite Ha in Hc. destruct c. simpl in *. congruence.
Qed.

#[export] Instance candidate_le_total : Total candidate_le.
Proof. intros x y. unfold candidate_le. apply (total String.le). Qed.
#[export] Instance candidate_le_trans : Transitive candidate_le.
Proof. intros x y z. unfold candidate_le. apply (transitivity (R := String.le)). Qed.

(** The hosts a round asks about are the ones its roster depends on, each
    group once: under a host target, the expected groups are exactly those whose
    candidate the CMDB answers for; under a history roster, the candidates are
    exactly the expected groups that name a host; under no other roster does the
    round ask. *)
Lemma candidates_decide_roster roster candidates :
  BuildRoster roster_digest request = Ok roster → HostCandidates request = Ok candidates →
  StronglySorted candidate_le candidates ∧ NoDup (GroupKey <$> candidates) ∧
  (Source roster = RosterTargetStatic → ∀ key,
     is_Some (ro_Groups roster !! key) ↔ ∃ c, c ∈ candidates ∧ GroupKey c = key ∧ candidate_Key c ∈ KnownHosts request) ∧
  (Source roster = RosterHistory → ∀ c,
     c ∈ candidates ↔ ∃ g, ro_Groups roster !! GroupKey c = Some g ∧ groupHostIdentity g = Some (Host c)) ∧
  (Source roster ≠ RosterTargetStatic → Source roster ≠ RosterHistory → candidates = []).
Proof.
  intros (class & Hc & Hs & Hg & _)%BuildRoster_Ok. unfold HostCandidates. intros (class' & Hc'%ClassifyTarget_Ok & H)%bind_Ok.
  assert (class' = class) as ->.
  { apply ClassifyTarget_Ok in Hc, Hc'. congruence. }
  apply bind_Ok in H as (found & Hf & [= <-]). rewrite Hs. unfold classified in Hc.
  assert (∀ l, NoDup (GroupKey <$> l) → NoDup (GroupKey <$> stable_sort candidate_le l)) as Hnodup.
  { intros l Hl. by rewrite (stable_sort_perm candidate_le l). }
  assert (∀ l c, c ∈ stable_sort candidate_le l ↔ c ∈ l) as Hsort by (intros; by rewrite stable_sort_perm).
  split; [apply stable_sort_sorted; apply _|].
  destruct (req_Plan request) as [plan|].
  { destruct Hc as [-> _]. injection Hf as <-. split_and!; try done. constructor. }
  destruct (Scope request) as [scope|].
  - case_bool_decide as Hip.
    + destruct Hc as (condition & hosts & Hd & _ & Hh & ->). injection Hf as <-. injection Hg as Hg.
      destruct (candidates_fold (λ host, Some (Group.Key (hostTargetGroup host), host)) static_candidate hosts) as [Hnd Hel].
      * done.
      * intros a a' key h h' _ _ H H'. apply (inj Some) in H, H'.
        assert (a = h) as <- by exact (f_equal snd H). assert (a' = h') as <- by exact (f_equal snd H'). apply (inj hostTargetGroup), (inj Group.Key).
        exact (eq_trans (f_equal fst H) (eq_sym (f_equal fst H'))).
      * split_and!; [by apply Hnodup| |done|done]. intros _ key. rewrite <- Hg. split.
        -- intros [g (Hk & host & Hin & Hknown & ->)%static_groups]. exists (mkCandidate key host). simpl. split_and!; try done.
           apply Hsort, Hel. simpl. exists host. apply hostIdentities_Some in Hh as [_ Hh]. pose proof Hin as (d & _ & Hd')%Hh.
           apply host_of_key_Some in Hd' as (_ & ? & ?). split_and!; try done. by rewrite Hk.
        -- intros (c & (host & Hin & H & _)%Hsort%Hel & <- & Hknown). apply (inj Some) in H.
           pose proof (f_equal fst H) as Hk. pose proof (f_equal snd H) as Hhost. simpl fst in Hk. simpl snd in Hhost. exists (hostTargetGroup host).
           apply static_groups. split; [done|]. exists host. subst host. done.
    + subst class. injection Hf as <-. split_and!; try done. constructor.
  - subst class. change (historyGroups (req_Memory request) = Ok (ro_Groups roster)) in Hg.
    change ((groups ← historyGroups (req_Memory request); Ok (foldl history_candidate [] (map_to_list groups))) = Ok found) in Hf.
    rewrite Hg in Hf. injection Hf as <-.
    destruct (candidates_fold (λ entry : string * Group, (λ host, (entry.1, host)) <$> groupHostIdentity entry.2) history_candidate
                (map_to_list (ro_Groups roster))) as [Hnd Hel].
    + intros candidates [key g]. unfold history_candidate. simpl. by destruct (groupHostIdentity g).
    + intros [k g] [k' g'] key h h' Hin Hin'. simpl. intros (? & Hh & [= <- <-])%fmap_Some (? & Hh' & [= -> <-])%fmap_Some.
      apply elem_of_map_to_list in Hin, Hin'. congruence.
    + split_and!; [by apply Hnodup|done| |done]. intros _ c. rewrite Hsort, Hel. split.
      * intros ([k g] & Hin%elem_of_map_to_list & (h & Hh & [= -> ->])%fmap_Some & _). eauto.
      * intros (g & Hin & Hh). exists (GroupKey c, g). split; [by apply elem_of_map_to_list|]. simpl. rewrite Hh. split; [done|].
        unfold groupHostIdentity in Hh. destruct (String.eqb_spec (IP (foldl read_host (mkHost "" "") (dimensions g))) ""),
          (String.eqb_spec (CloudID (foldl read_host (mkHost "" "") (dimensions g))) ""); simpl in Hh; try done. by injection Hh as <-.
Qed.
End build.
