(* ===== verification/AbsenceExamples.v ===== *)
(** The absence and roster theorems at concrete inputs.

    Absence, at concrete rounds: three hosts, one silent, one
    reporting, one the roster has dropped while its absence was open. *)
From S2P Require Import Prelude Group Absence AbsenceSpec AbsenceVerdicts AbsenceRounds Roster RosterSpec.

Open Scope Z_scope.

Ltac by_compute := apply (bool_decide_unpack _); vm_compute; reflexivity.

Definition host (ip : string) : Group := mkGroup [mkDimension "bk_target_cloud_id" "0"; mkDimension "bk_target_ip" ip].
Definition host_key (ip : string) : string := Key (host ip).

Definition static_roster (ips : list string) : Roster :=
  mkRoster "v1" RosterTargetStatic (list_to_map ((λ ip, (host_key ip, host ip)) <$> ips)).
Definition reporting (ips : list string) : gmap string Group := list_to_map ((λ ip, (host_key ip, host ip)) <$> ips).

Definition round (now horizon : Z) (seen : list string) (memory : gmap string GroupMemory) : AbsenceInput :=
  mkAbsenceInput now 60 CompletenessFull (reporting seen) 0 (static_roster ["a"; "b"]%string) memory ∅ horizon 0.

(** [a] has been absent since 60, [c] too and is no longer expected; [d] was
    stopped. *)
Definition held : gmap string GroupMemory :=
  <[host_key "a" := mkMemory 30 60 0]> (<[host_key "c" := mkMemory 30 60 0]> {[host_key "d" := mkMemory 30 60 90]}).

Definition second : AbsenceInput := round 120 0 ["b"]%string held.
Definition second_result : AbsenceResult := Evaluate (canonical second) second.

Example second_verdicts :
  (λ k, Verdicts second_result !! host_key k) <$> ["a"; "b"; "c"; "d"]%string
  = [Some VerdictAnomaly; Some VerdictNormal; Some VerdictNormal; None].
Proof. vm_compute. reflexivity. Qed.

Lemma second_iterates : iterates second (canonical second).
Proof. apply canonical_iterates. Qed.


Lemma a_silent : ¬ reported second (host_key "a").
Proof. by_compute. Qed.
Lemma a_expected : expects second (host_key "a").
Proof. unfold expects. by_compute. Qed.
Lemma a_tracked : tracked second (host_key "a").
Proof. left. split; [apply a_expected|by_compute]. Qed.

Lemma evaluate_implements_fates_witness :
  mkCell (Verdicts second_result !! host_key "a") (Memory second_result !! host_key "a") (Closing second_result !! host_key "a")
  = mkCell (Some VerdictAnomaly) (Some (mkMemory 30 60 0)) None.
Proof.
  symmetry. apply (AbsenceVerdicts.evaluate_implements_fates (canonical second) second second_iterates).
  pose proof (fate_absent second (host_key "a") eq_refl a_silent a_tracked eq_refl eq_refl) as H.
  unfold last_seen in H. rewrite bool_decide_eq_true_2 in H by apply a_expected. exact H.
Defined.

Lemma absence_reported_iff_witness : Memory second_result !! host_key "a" = Some (mkMemory 30 60 0).
Proof.
  destruct (AbsenceVerdicts.absence_reported_iff (canonical second) second second_iterates (host_key "a")) as [Hiff Hm].
  etransitivity; [apply Hm, Hiff; split_and!; [reflexivity|apply a_silent|apply a_tracked|reflexivity|reflexivity]|].
  unfold last_seen. by rewrite bool_decide_eq_true_2 by apply a_expected.
Defined.

Lemma stopped_says_nothing_witness : Verdicts second_result !! host_key "d" ∈ [None; Some VerdictUnavailable].
Proof.
  refine (proj1 (AbsenceVerdicts.stopped_says_nothing (canonical second) second second_iterates (host_key "d") _ _)); [|by_compute].
  vm_compute. done.
Defined.

Lemma a_open : open second (host_key "a").
Proof. split; [vm_compute; done|reflexivity]. Qed.
Lemma c_open : open second (host_key "c").
Proof. split; [vm_compute; done|reflexivity]. Qed.

Lemma open_absence_accounted_witness :
  Verdicts second_result !! host_key "a" = Some VerdictAnomaly ∨ Verdicts second_result !! host_key "a" = Some VerdictNormal ∨
  Verdicts second_result !! host_key "a" = None.
Proof.
  destruct (AbsenceVerdicts.open_absence_accounted (canonical second) second second_iterates (host_key "a") eq_refl a_open eq_refl)
    as [[H _]|[[H _]|[H _]]]; [left|right; left|right; right]; exact H.
Defined.

(** The round after, on what [second] remembered. *)
Definition third : AbsenceInput := round 180 0 [] (Memory second_result).

Lemma closed_once_witness :
  Closing second_result !! host_key "c" = Some true ∧ Closing (Evaluate (canonical third) third) !! host_key "c" = None.
Proof.
  destruct (AbsenceVerdicts.closed_once (canonical second) second (canonical third) third (host_key "c")
    second_iterates (canonical_iterates third) eq_refl) as [Hiff Hsome].
  assert (Closing second_result !! host_key "c" = Some true) as Hc.
  { apply Hiff. split_and!; [reflexivity|apply c_open|by_compute| |].
    - intros [g Hg]. by vm_compute in Hg.
    - intros [Hw _]. by vm_compute in Hw. }
  split; [exact Hc|]. apply Hsome. exists true. exact Hc.
Defined.

Definition backwards (input : AbsenceInput) : iteration :=
  mkIteration (reverse (it_present (canonical input))) (reverse (it_roster (canonical input))) (reverse (it_memory (canonical input))).

Lemma backwards_iterates input : iterates input (backwards input).
Proof.
  destruct (canonical_iterates input) as [[? Hp] [? Hr] [? Hm]].
  split; unfold backwards; simpl; (split; [by rewrite reverse_Permutation|]); intros key; by rewrite elem_of_reverse.
Qed.

Lemma evaluate_order_independent_witness : Evaluate (backwards second) second = second_result.
Proof.
  exact (AbsenceRounds.evaluate_order_independent second (backwards second) (canonical second) (backwards_iterates second) second_iterates).
Defined.

Lemma round_counts_witness : af_Expected (Facts second_result) = 2 ∧ age_total (af_AbsentAges (Facts second_result)) = 1.
Proof.
  destruct (AbsenceRounds.round_counts second (canonical second) second_iterates ltac:(vm_compute; discriminate))
    as (_ & Hage & _ & _ & _ & _ & Hexp & _).
  split; [refine (eq_trans Hexp _)|refine (eq_trans Hage _)]; vm_compute; reflexivity.
Defined.

(** A history roster the horizon empties. *)
Definition last_group : AbsenceInput :=
  mkAbsenceInput 4000 60 CompletenessFull ∅ 0 (mkRoster "v1" RosterHistory {[host_key "a" := host "a"]})
    {[host_key "a" := mkMemory 30 60 0]} ∅ 3600 0.

Lemma exhausted_fact_witness : TrackingExhaustedAt (Evaluate (canonical last_group) last_group) = 4000.
Proof.
  destruct (AbsenceRounds.exhausted_fact last_group (canonical last_group) (canonical_iterates last_group)
    ltac:(vm_compute; discriminate) ltac:(vm_compute; discriminate)) as [_ H].
  assert (Memory (Evaluate (canonical last_group) last_group) = ∅) as Hm by (vm_compute; reflexivity).
  apply H; [exact Hm|reflexivity|]. split_and!; [reflexivity|reflexivity|reflexivity|exact Hm|].
  assert (expects last_group (host_key "a")) as He by (unfold expects; by_compute).
  exists (host_key "a"). split; [exact He|]. split_and!; [reflexivity|by_compute| |reflexivity|reflexivity].
  left. split; [exact He|by_compute].
Defined.

Definition silent_rounds : list AbsenceInput := (λ t, round t 120 ["b"]%string ∅) <$> [60; 120; 180; 240].

Lemma silent_round t : 0 < t ≤ 1000 → silent (host_key "a") 120 (round t 120 ["b"]%string ∅).
Proof.
  intros Ht. split; [reflexivity| | | |reflexivity|done|simpl; unfold maxInt64; lia].
  - unfold expects. simpl. by_compute.
  - simpl. by_compute.
  - unfold reported. simpl. by_compute.
Qed.

Lemma silence_is_reported_until_horizon_witness :
  (λ r, Verdicts r !! host_key "a") <$> run ∅ 0 silent_rounds
  = [Some VerdictAnomaly; Some VerdictAnomaly; None; None].
Proof.
  pose proof (AbsenceRounds.silence_is_reported_until_horizon (host_key "a") 120 ∅ 0 (round 60 120 ["b"]%string ∅) (tail silent_rounds)) as H.
  assert (Forall (silent (host_key "a") 120) silent_rounds) as Hs.
  { unfold silent_rounds. apply Forall_fmap. repeat constructor; apply silent_round; lia. }
  assert (StronglySorted later silent_rounds) as Hsorted.
  { unfold silent_rounds. simpl. repeat constructor; unfold later; simpl; lia. }
  specialize (H Hs Hsorted eq_refl eq_refl). change (round 60 120 ["b"]%string ∅ :: tail silent_rounds) with silent_rounds in H.
  revert H. generalize (run ∅ 0 silent_rounds) as rs. intros rs H. unfold silent_rounds in H. simpl in H.
  repeat (apply Forall2_cons_inv_l in H as (? & ? & ? & H & ->)). apply Forall2_nil_inv_l in H as ->.
  simpl. repeat match goal with H : Verdicts _ !! _ = _ |- _ => rewrite H; clear H end. reflexivity.
Defined.

(** * Examples

    The roster theorems at concrete items: a host target, a target plan of a
    business model, and the history of a memory. *)

Definition name_digest (source : string) (keys : list string) : option string := Some (source +:+ join "," keys).

(** ** A host target *)

Definition host_condition : TargetScopeConditionV2 := mkCondition TargetScopeHost TargetScopeInclude ["1.1.1.1|0"; "2.2.2.2|0"; "noise"] [].
Definition host_scope : TargetScopeV2 := mkScope [mkScopeGroup [host_condition]].
Definition host_request : RosterRequest :=
  mkRosterRequest [HostIPDimension; HostCloudDimension] (Some host_scope) None [] {["1.1.1.1|0"; "3.3.3.3|0"]} ∅.

Definition known_host : HostIdentity := mkHost "1.1.1.1" "0".
Definition host_groups : gmap string Group := {[Key (hostTargetGroup known_host) := hostTargetGroup known_host]}.
Definition host_roster : Roster :=
  mkRoster (RosterTargetStatic +:+ Key (hostTargetGroup known_host)) RosterTargetStatic host_groups.

Lemma host_builds : BuildRoster name_digest host_request = Ok host_roster.
Proof. vm_compute. reflexivity. Qed.

Lemma expected_set_witness : ro_Groups host_roster !! Key (hostTargetGroup known_host) = Some (hostTargetGroup known_host).
Proof.
  apply (expected_set name_digest host_request host_roster host_builds). split_and!; [done|done|by_compute|].
  exists host_condition, "1.1.1.1|0"%string, known_host. split_and!; [by split_and!|by_compute|by_compute|done|done].
Defined.

Definition host_candidates : list HostCandidate :=
  [mkCandidate (Key (hostTargetGroup known_host)) known_host;
   mkCandidate (Key (hostTargetGroup (mkHost "2.2.2.2" "0"))) (mkHost "2.2.2.2" "0")].

Lemma candidates_decide_roster_witness :
  is_Some (ro_Groups host_roster !! Key (hostTargetGroup known_host)).
Proof.
  assert (HostCandidates host_request = Ok host_candidates) as Hc by (vm_compute; reflexivity).
  apply (candidates_decide_roster name_digest host_request host_roster host_candidates host_builds Hc); [done|].
  exists (mkCandidate (Key (hostTargetGroup known_host)) known_host). split_and!; [left|done|by_compute].
Defined.

(** ** A target plan *)

Definition module_identity : TargetPlanIdentityV1 := mkIdentity ["bk_set_id"; "bk_module_id"] "bk_obj_id" "module" false false.
Definition module_series : gmap string string :=
  <["bk_set_id" := "5"]> (<["bk_module_id" := "7|x"]> (<["bk_obj_id" := "module"]> {["path" := "/var"]}))%string.
Definition module_agg : list string := ["bk_module_id"; "bk_obj_id"; "bk_set_id"].

Lemma module_valid : identity_valid module_identity.
Proof.
  split; simpl; [done|by_compute|by_compute|done|by_compute].
Qed.

Definition module_group : Group :=
  mkGroup [mkDimension "bk_module_id" "7|x"; mkDimension "bk_obj_id" "module"; mkDimension "bk_set_id" "5"].

Lemma member_key_agrees_witness :
  identity_Key module_identity (λ name, default ""%string (module_series !! name)) = Some "5|7|x"%string.
Proof.
  apply (member_key_agrees module_identity module_valid module_series module_agg); [by_compute|vm_compute; reflexivity|..].
  - vm_compute removelast. apply Forall_cons_2; [by_compute|by apply Forall_nil_2].
  - exists module_group. split; vm_compute; reflexivity.
Defined.
