(* ===== verification/NoDataMemory.v ===== *)
(** The no-data memory contract (execution/no_data_contract.go, no_data_load.go and
    the types of execution/model.go): what a stored memory is, which snapshots
    are loaded, and the delta one round writes. The canonical digests are
    arguments. *)
From S2P Require Import Prelude Reason.

Open Scope Z_scope.

(** ** Identities and versions *)

Record PlanIdentity : Type := mkPlanIdentity {
  TenantID : string;
  BusinessID : string;
  StrategyID : string;
}.

#[export] Instance PlanIdentity_eq_dec : EqDecision PlanIdentity.
Proof. solve_decision. Defined.

Definition plan_valid (identity : PlanIdentity) : bool :=
  negb ((TenantID identity =? "")%string || (BusinessID identity =? "")%string || (StrategyID identity =? "")%string).

Record ShardRef : Type := mkShard {
  shard_Dimension : string;
  shard_Index : Z;
  shard_Count : Z;
  MatcherDigest : string;
}.

#[export] Instance ShardRef_eq_dec : EqDecision ShardRef.
Proof. solve_decision. Defined.

Record PlanNoDataIdentity : Type := mkNoDataIdentity {
  id_Plan : PlanIdentity;
  StateGeneration : string;
  Shard : ShardRef;
}.

#[export] Instance PlanNoDataIdentity_eq_dec : EqDecision PlanNoDataIdentity.
Proof. solve_decision. Defined.

Record ApplyVersion : Type := mkVersion {
  StateApplyEpoch : Z;
  ver_EvaluationTime : Z;
  SlotDigest : string;
}.

#[export] Instance ApplyVersion_eq_dec : EqDecision ApplyVersion.
Proof. solve_decision. Defined.

Definition no_version : ApplyVersion := mkVersion 0 0 "".

Definition version_valid (version : ApplyVersion) : bool :=
  negb ((StateApplyEpoch version =? 0) || (ver_EvaluationTime version <=? 0) || (SlotDigest version =? "")%string).

Inductive ApplyVersionComparison : Type :=
  ApplyVersionPersistedOlder | ApplyVersionEqual | ApplyVersionPersistedNewer.

#[export] Instance ApplyVersionComparison_eq_dec : EqDecision ApplyVersionComparison.
Proof. solve_decision. Defined.

Definition CompareApplyVersion (persisted candidate : ApplyVersion) : ApplyVersionComparison :=
  if (StateApplyEpoch persisted <? StateApplyEpoch candidate)
     || ((StateApplyEpoch persisted =? StateApplyEpoch candidate) && (ver_EvaluationTime persisted <? ver_EvaluationTime candidate))
  then ApplyVersionPersistedOlder
  else if (StateApplyEpoch candidate <? StateApplyEpoch persisted)
     || ((StateApplyEpoch persisted =? StateApplyEpoch candidate) && (ver_EvaluationTime candidate <? ver_EvaluationTime persisted))
  then ApplyVersionPersistedNewer
  else if str_ltb (SlotDigest persisted) (SlotDigest candidate) then ApplyVersionPersistedOlder
  else if str_ltb (SlotDigest candidate) (SlotDigest persisted) then ApplyVersionPersistedNewer
  else ApplyVersionEqual.

(** ** Schemas and representations *)

Definition NoDataMemorySchemaV1 : Z := 1.
Definition NoDataMemorySchemaV2 : Z := 2.
Definition NoDataMemorySchemaV3 : Z := 3.
Definition MaxSupportedNoDataMemorySchema : Z := NoDataMemorySchemaV3.
Definition WrittenNoDataMemorySchema : Z := NoDataMemorySchemaV3.

Definition NoDataMemoryReadable (schema : Z) : bool := schema <=? MaxSupportedNoDataMemorySchema.

Definition NoDataRepresentationNone : string := "NONE".
Definition NoDataRepresentationPerGroup : string := "PER_GROUP".

Definition NoDataMemoryMissing : string := "MISSING".
Definition NoDataMemoryFound : string := "FOUND".
Definition NoDataMemoryUnreadable : string := "UNREADABLE".
Definition NoDataMemoryUnavailable : string := "UNAVAILABLE".
Definition NoDataMemoryTerminal : string := "TERMINAL".

(** ** The memory and its delta *)

Record NoDataGroupMemory : Type := mkGroupMemory {
  gm_GroupKey : string;
  gm_LastSeen : Z;
  gm_FirstAbsent : Z;
  gm_SuppressedAt : Z;
}.

#[export] Instance NoDataGroupMemory_eq_dec : EqDecision NoDataGroupMemory.
Proof. solve_decision. Defined.

Record NoDataGroupAbsence : Type := mkGroupAbsence {
  ga_LastSeen : Z;
  ga_FirstAbsent : Z;
  ga_SuppressedAt : Z;
}.

#[export] Instance NoDataGroupAbsence_eq_dec : EqDecision NoDataGroupAbsence.
Proof. solve_decision. Defined.

(** [gd_Absent] nil is the compressed form: present in the round PresentAsOf
    names. *)
Record NoDataGroupDelta : Type := mkGroupDelta {
  gd_GroupKey : string;
  gd_Absent : option NoDataGroupAbsence;
}.

#[export] Instance NoDataGroupDelta_eq_dec : EqDecision NoDataGroupDelta.
Proof. solve_decision. Defined.

Record PlanNoDataMutation : Type := mkMutation {
  mu_Identity : PlanNoDataIdentity;
  mu_SchemaVersion : Z;
  mu_DerivedFrom : string;
  mu_ExpectedMarkerRevision : Z;
  mu_LoadedApplyVersion : ApplyVersion;
  mu_ApplyVersion : ApplyVersion;
  mu_ScheduleRevision : string;
  mu_RosterVersion : string;
  mu_PresentAsOf : Z;
  mu_TrackingExhaustedAt : Z;
  mu_MemoryDigest : string;
  mu_MutationDigest : string;
  mu_GroupCount : Z;
  mu_Set : list NoDataGroupDelta;
  mu_Del : list string;
}.

Definition ReplacesWholeRecord (mutation : PlanNoDataMutation) : bool :=
  negb (mu_DerivedFrom mutation =? NoDataRepresentationPerGroup)%string.

Definition set_delta (set : list NoDataGroupDelta) (del : list string) (mu : PlanNoDataMutation) : PlanNoDataMutation :=
  mkMutation (mu_Identity mu) (mu_SchemaVersion mu) (mu_DerivedFrom mu) (mu_ExpectedMarkerRevision mu)
    (mu_LoadedApplyVersion mu) (mu_ApplyVersion mu) (mu_ScheduleRevision mu) (mu_RosterVersion mu) (mu_PresentAsOf mu)
    (mu_TrackingExhaustedAt mu) (mu_MemoryDigest mu) (mu_MutationDigest mu) (mu_GroupCount mu) set del.
Definition set_memory_digest (digest : string) (mu : PlanNoDataMutation) : PlanNoDataMutation :=
  mkMutation (mu_Identity mu) (mu_SchemaVersion mu) (mu_DerivedFrom mu) (mu_ExpectedMarkerRevision mu)
    (mu_LoadedApplyVersion mu) (mu_ApplyVersion mu) (mu_ScheduleRevision mu) (mu_RosterVersion mu) (mu_PresentAsOf mu)
    (mu_TrackingExhaustedAt mu) digest (mu_MutationDigest mu) (mu_GroupCount mu) (mu_Set mu) (mu_Del mu).
Definition set_mutation_digest (digest : string) (mu : PlanNoDataMutation) : PlanNoDataMutation :=
  mkMutation (mu_Identity mu) (mu_SchemaVersion mu) (mu_DerivedFrom mu) (mu_ExpectedMarkerRevision mu)
    (mu_LoadedApplyVersion mu) (mu_ApplyVersion mu) (mu_ScheduleRevision mu) (mu_RosterVersion mu) (mu_PresentAsOf mu)
    (mu_TrackingExhaustedAt mu) (mu_MemoryDigest mu) digest (mu_GroupCount mu) (mu_Set mu) (mu_Del mu).

Record PlanNoDataMemoryUpdate : Type := mkUpdate {
  up_Identity : PlanNoDataIdentity;
  up_DerivedFrom : string;
  up_ExpectedMarkerRevision : Z;
  up_LoadedApplyVersion : ApplyVersion;
  up_ApplyVersion : ApplyVersion;
  up_ScheduleRevision : string;
  up_RosterVersion : string;
  up_PresentAsOf : Z;
  up_TrackingExhaustedAt : Z;
  up_LoadedTrackingExhaustedAt : Z;
  up_Memory : list NoDataGroupMemory;
  up_Loaded : list NoDataGroupMemory;
  up_LoadedPresentAsOf : Z;
}.

Inductive ContractError : Type :=
  | GroupRequiresKey
  | DuplicateGroup
  | NegativeTimestamps
  | RemembersNothing
  | LoadedNotStorable (cause : ContractError)
  | NegativePresentAsOf
  | NegativeExhausted
  | ExhaustedHoldsGroups (at_ : Z) (groups : Z)
  | ExhaustedCleared (at_ presentAsOf : Z)
  | PresentMovedBack (presentAsOf loaded : Z)
  | SeenAfterPresent (key : string) (lastSeen presentAsOf : Z)
  | TooManyGroups
  | IncompleteMutation
  | SchemaNotWritable (schema : Z)
  | NoRepresentation (derivedFrom : string)
  | ReplacingDeletes
  | UnreadNamesVersion
  | UnreadExpectsRevision
  | ReadNamesNoVersion
  | ReadExpectsNoRevision
  | RequiresRosterVersion
  | RequiresApplyVersion
  | NotCanonicalOrder
  | PresentWithoutData
  | PresentStoredInFull
  | WritesAndDeletes (key : string)
  | FewerGroupsThanWritten
  | StatesNoMemory
  | DigestFailed
  | NotCanonical
  | DigestMismatch.

(** ** The statement's own checks *)

(** [key <= previous] past the first. *)
Definition out_of_order (previous : option string) (key : string) : bool :=
  match previous with None => false | Some previous => negb (str_ltb previous key) end.

Definition check_set_value (presentAsOf : Z) (absent : option NoDataGroupAbsence) : result ContractError unit :=
  match absent with
  | None => fail_if (presentAsOf =? 0) PresentWithoutData
  | Some absent =>
      _ ← fail_if ((ga_LastSeen absent <? 0) || (ga_FirstAbsent absent <? 0)) NegativeTimestamps;
      _ ← fail_if ((ga_LastSeen absent =? 0) && (ga_FirstAbsent absent =? 0)) RemembersNothing;
      fail_if ((ga_FirstAbsent absent =? 0) && (ga_LastSeen absent =? presentAsOf)) PresentStoredInFull
  end.

Fixpoint check_set (presentAsOf : Z) (previous : option string) (set : list NoDataGroupDelta) : result ContractError unit :=
  match set with
  | [] => Ok tt
  | group :: set =>
      _ ← fail_if (gd_GroupKey group =? "")%string GroupRequiresKey;
      _ ← fail_if (out_of_order previous (gd_GroupKey group)) NotCanonicalOrder;
      _ ← check_set_value presentAsOf (gd_Absent group);
      check_set presentAsOf (Some (gd_GroupKey group)) set
  end.

Fixpoint check_del (touched : gset string) (previous : option string) (del : list string) : result ContractError unit :=
  match del with
  | [] => Ok tt
  | key :: del =>
      _ ← fail_if (key =? "")%string GroupRequiresKey;
      _ ← fail_if (out_of_order previous key) NotCanonicalOrder;
      _ ← fail_if (bool_decide (key ∈ touched)) (WritesAndDeletes key);
      check_del touched (Some key) del
  end.

Definition check_loaded_version (mu : PlanNoDataMutation) : result ContractError unit :=
  if (mu_DerivedFrom mu =? NoDataRepresentationNone)%string then
    _ ← fail_if (negb (bool_decide (mu_LoadedApplyVersion mu = no_version))) UnreadNamesVersion;
    fail_if (negb (mu_ExpectedMarkerRevision mu =? 0)) UnreadExpectsRevision
  else
    _ ← fail_if (negb (version_valid (mu_LoadedApplyVersion mu))) ReadNamesNoVersion;
    fail_if (mu_ExpectedMarkerRevision mu =? 0) ReadExpectsNoRevision.

Definition validateStatement (mu : PlanNoDataMutation) : result ContractError unit :=
  _ ← fail_if (negb (plan_valid (id_Plan (mu_Identity mu))) || (StateGeneration (mu_Identity mu) =? "")%string
               || (mu_ScheduleRevision mu =? "")%string) IncompleteMutation;
  _ ← fail_if (negb (mu_SchemaVersion mu =? WrittenNoDataMemorySchema)) (SchemaNotWritable (mu_SchemaVersion mu));
  _ ← fail_if (negb (bool_decide (mu_DerivedFrom mu ∈ [NoDataRepresentationNone; NoDataRepresentationPerGroup])))
        (NoRepresentation (mu_DerivedFrom mu));
  _ ← fail_if (ReplacesWholeRecord mu && negb (bool_decide (mu_Del mu = []))) ReplacingDeletes;
  _ ← check_loaded_version mu;
  _ ← fail_if (mu_RosterVersion mu =? "")%string RequiresRosterVersion;
  _ ← fail_if (negb (version_valid (mu_ApplyVersion mu))) RequiresApplyVersion;
  _ ← fail_if (mu_PresentAsOf mu <? 0) NegativePresentAsOf;
  _ ← check_set (mu_PresentAsOf mu) None (mu_Set mu);
  _ ← check_del (list_to_set (gd_GroupKey <$> mu_Set mu)) None (mu_Del mu);
  fail_if (mu_GroupCount mu <? Z.of_nat (length (mu_Set mu))) FewerGroupsThanWritten.

(** ** The delta *)

Definition noDataGroupValue (group : NoDataGroupMemory) (presentAsOf : Z) : NoDataGroupDelta :=
  if (gm_FirstAbsent group =? 0) && (gm_SuppressedAt group =? 0) && (0 <? presentAsOf) && (gm_LastSeen group =? presentAsOf)
  then mkGroupDelta (gm_GroupKey group) None
  else mkGroupDelta (gm_GroupKey group) (Some (mkGroupAbsence (gm_LastSeen group) (gm_FirstAbsent group) (gm_SuppressedAt group))).

Definition sameNoDataGroupValue (left right : NoDataGroupDelta) : bool :=
  if negb (gd_GroupKey left =? gd_GroupKey right)%string then false
  else
    match gd_Absent left, gd_Absent right with
    | Some l, Some r => bool_decide (l = r)
    | None, None => true
    | _, _ => false
    end.

Definition stored_values (loaded : list NoDataGroupMemory) (loadedPresentAsOf : Z) : gmap string NoDataGroupDelta :=
  foldl (λ previous group, <[gm_GroupKey group := noDataGroupValue group loadedPresentAsOf]> previous) ∅ loaded.

Definition noDataMemoryDelta (memory : list NoDataGroupMemory) (presentAsOf : Z) (loaded : list NoDataGroupMemory)
    (loadedPresentAsOf : Z) : list NoDataGroupDelta * list string :=
  let previous := stored_values loaded loadedPresentAsOf in
  let set := omap (λ group,
    let value := noDataGroupValue group presentAsOf in
    match previous !! gm_GroupKey group with
    | Some before => if sameNoDataGroupValue before value then None else Some value
    | None => Some value
    end) memory in
  let kept : gset string := list_to_set (gm_GroupKey <$> memory) in
  let deleted := filter (λ key, key ∉ kept) (gm_GroupKey <$> loaded) in
  (set, deleted).

(** ** The canonical memory *)

Definition group_le (l r : NoDataGroupMemory) : Prop := String.le (gm_GroupKey l) (gm_GroupKey r).
#[export] Instance group_le_dec : RelDecision group_le.
Proof. intros l r. unfold group_le. apply _. Defined.

(** Only groups of one key are ordered by the sort that was used, and those are
    refused. *)
Fixpoint check_groups (previous : option string) (groups : list NoDataGroupMemory) : result ContractError unit :=
  match groups with
  | [] => Ok tt
  | group :: groups =>
      _ ← fail_if (gm_GroupKey group =? "")%string GroupRequiresKey;
      _ ← fail_if (bool_decide (previous = Some (gm_GroupKey group))) DuplicateGroup;
      _ ← fail_if ((gm_LastSeen group <? 0) || (gm_FirstAbsent group <? 0)) NegativeTimestamps;
      _ ← fail_if ((gm_LastSeen group =? 0) && (gm_FirstAbsent group =? 0)) RemembersNothing;
      check_groups (Some (gm_GroupKey group)) groups
  end.

Definition canonicalNoDataMemory (groups : list NoDataGroupMemory) : result ContractError (list NoDataGroupMemory) :=
  let canonical := stable_sort group_le groups in
  _ ← check_groups None canonical;
  Ok canonical.

Fixpoint check_seen (presentAsOf : Z) (memory : list NoDataGroupMemory) : result ContractError unit :=
  match memory with
  | [] => Ok tt
  | group :: memory =>
      _ ← fail_if (presentAsOf <? gm_LastSeen group) (SeenAfterPresent (gm_GroupKey group) (gm_LastSeen group) presentAsOf);
      check_seen presentAsOf memory
  end.

(** ** The builder *)

(** What the memory digest covers, and what the statement digest does. *)
Record MemoryPayload : Type := mkMemoryPayload {
  mp_Identity : PlanNoDataIdentity;
  mp_SchemaVersion : Z;
  mp_ScheduleRevision : string;
  mp_RosterVersion : string;
  mp_PresentAsOf : Z;
  mp_TrackingExhaustedAt : Z;
  mp_Groups : list NoDataGroupMemory;
}.

Section digest.
(** [contract.DeriveCanonicalDigestV2] over the memory's payload, and over the
    whole statement with the digest field it leaves out blank. *)
Variable memory_digest : MemoryPayload → option string.
Variable statement_digest : PlanNoDataMutation → option string.

Definition derivePlanNoDataMemoryDigest (mu : PlanNoDataMutation) (memory : list NoDataGroupMemory) : result ContractError string :=
  _ ← validateStatement mu;
  match memory_digest (mkMemoryPayload (mu_Identity mu) (mu_SchemaVersion mu) (mu_ScheduleRevision mu) (mu_RosterVersion mu)
                         (mu_PresentAsOf mu) (mu_TrackingExhaustedAt mu) memory) with
  | Some digest => Ok digest
  | None => Err DigestFailed
  end.

Definition derivePlanNoDataStatementDigest (mu : PlanNoDataMutation) : result ContractError string :=
  _ ← validateStatement mu;
  _ ← fail_if (mu_MemoryDigest mu =? "")%string StatesNoMemory;
  match statement_digest (set_mutation_digest "" mu) with
  | Some digest => Ok digest
  | None => Err DigestFailed
  end.

Definition ValidateDigest (mu : PlanNoDataMutation) : result ContractError unit :=
  _ ← fail_if ((mu_MutationDigest mu =? "")%string || (mu_MemoryDigest mu =? "")%string) NotCanonical;
  _ ← validateStatement mu;
  expected ← derivePlanNoDataStatementDigest mu;
  fail_if (negb (mu_MutationDigest mu =? expected)%string) DigestMismatch.

Definition wrap_loaded {A} (r : result ContractError A) : result ContractError A :=
  match r with Ok a => Ok a | Err e => Err (LoadedNotStorable e) end.

Definition check_update (update : PlanNoDataMemoryUpdate) (memory : list NoDataGroupMemory) : result ContractError unit :=
  _ ← fail_if ((up_PresentAsOf update <? 0) || (up_LoadedPresentAsOf update <? 0)) NegativePresentAsOf;
  _ ← fail_if ((up_TrackingExhaustedAt update <? 0) || (up_LoadedTrackingExhaustedAt update <? 0)) NegativeExhausted;
  _ ← fail_if (negb (up_TrackingExhaustedAt update =? 0) && negb (bool_decide (memory = [])))
        (ExhaustedHoldsGroups (up_TrackingExhaustedAt update) (Z.of_nat (length memory)));
  _ ← fail_if (negb (up_LoadedTrackingExhaustedAt update =? 0) && (up_TrackingExhaustedAt update =? 0)
               && (up_PresentAsOf update <=? up_LoadedPresentAsOf update) && bool_decide (memory = []))
        (ExhaustedCleared (up_LoadedTrackingExhaustedAt update) (up_PresentAsOf update));
  _ ← fail_if (up_PresentAsOf update <? up_LoadedPresentAsOf update)
        (PresentMovedBack (up_PresentAsOf update) (up_LoadedPresentAsOf update));
  _ ← check_seen (up_PresentAsOf update) memory;
  fail_if (maxUint32 <? Z.of_nat (length memory)) TooManyGroups.

Definition mutation_of (update : PlanNoDataMemoryUpdate) (memory loaded : list NoDataGroupMemory) : PlanNoDataMutation :=
  let mutation := mkMutation (up_Identity update) WrittenNoDataMemorySchema (up_DerivedFrom update)
    (up_ExpectedMarkerRevision update) (up_LoadedApplyVersion update) (up_ApplyVersion update) (up_ScheduleRevision update)
    (up_RosterVersion update) (up_PresentAsOf update) (up_TrackingExhaustedAt update) "" ""
    (u32 (Z.of_nat (length memory))) [] [] in
  let loaded := if ReplacesWholeRecord mutation then [] else loaded in
  let '(set, del) := noDataMemoryDelta memory (up_PresentAsOf update) loaded (up_LoadedPresentAsOf update) in
  set_delta set del mutation.

Definition BuildPlanNoDataMutation (update : PlanNoDataMemoryUpdate) : result ContractError PlanNoDataMutation :=
  memory ← canonicalNoDataMemory (up_Memory update);
  loaded ← wrap_loaded (canonicalNoDataMemory (up_Loaded update));
  _ ← check_update update memory;
  let mutation := mutation_of update memory loaded in
  memoryDigest ← derivePlanNoDataMemoryDigest mutation memory;
  let mutation := set_memory_digest memoryDigest mutation in
  statement ← derivePlanNoDataStatementDigest mutation;
  Ok (set_mutation_digest statement mutation).
End digest.

(** ** Snapshots *)

Record NoDataMemorySnapshot : Type := mkSnapshot {
  sn_Identity : PlanNoDataIdentity;
  MarkerRevision : Z;
  PersistedApplyVersion : ApplyVersion;
  PersistedMutationDigest : string;
  Status : string;
  SchemaVersion : Z;
  LastScheduleRevision : string;
  sn_RosterVersion : string;
  Representation : string;
  PresentAsOf : Z;
  sn_TrackingExhaustedAt : Z;
  sn_Groups : list NoDataGroupMemory;
  sn_ReasonCode : string;
}.

(** A snapshot with nothing but its status. *)
Definition bare_snapshot (identity : PlanNoDataIdentity) (status : string) (schema : Z) (reason : string) : NoDataMemorySnapshot :=
  mkSnapshot identity 0 no_version "" status schema "" "" "" 0 0 [] reason.

Definition noDataSnapshotHasPayload (snapshot : NoDataMemorySnapshot) : bool :=
  let namesARecord := negb (Representation snapshot =? "")%string
                      && negb (Representation snapshot =? NoDataRepresentationNone)%string in
  negb (MarkerRevision snapshot =? 0) || negb (PersistedMutationDigest snapshot =? "")%string
  || negb (bool_decide (PersistedApplyVersion snapshot = no_version)) || negb (LastScheduleRevision snapshot =? "")%string
  || negb (sn_RosterVersion snapshot =? "")%string || negb (PresentAsOf snapshot =? 0)
  || negb (sn_TrackingExhaustedAt snapshot =? 0) || namesARecord
  || negb (bool_decide (sn_Groups snapshot = [])).

Inductive LoadError : Type :=
  | MissingCarriesRecord
  | FoundRequiresRevision
  | FoundUnreadableSchema (schema : Z)
  | FoundApplyVersion
  | FoundScheduleRevision
  | FoundRosterVersion
  | FoundNegativePresent
  | FoundNoRepresentation
  | StoredRequiresKey
  | StoredDuplicate
  | StoredOrder
  | StoredNegative
  | StoredNothing
  | StoredSeenAfterPresent (key : string)
  | UnreadableCarriesPayload
  | UnreadableIsReadable (schema : Z)
  | UnavailableCarriesPayload
  | TerminalCarriesPayload
  | WrongReasonClass
  | UnknownLoadStatus.

Fixpoint validate_groups (seen : gset string) (previous : option string) (groups : list NoDataGroupMemory) : result LoadError unit :=
  match groups with
  | [] => Ok tt
  | group :: groups =>
      let key := gm_GroupKey group in
      _ ← fail_if (key =? "")%string StoredRequiresKey;
      _ ← fail_if (bool_decide (key ∈ seen)) StoredDuplicate;
      _ ← fail_if (match previous with None => false | Some previous => str_ltb key previous end) StoredOrder;
      _ ← fail_if ((gm_LastSeen group <? 0) || (gm_FirstAbsent group <? 0)) StoredNegative;
      _ ← fail_if ((gm_LastSeen group =? 0) && (gm_FirstAbsent group =? 0)) StoredNothing;
      validate_groups ({[key]} ∪ seen) (Some key) groups
  end.

Definition validateNoDataGroups (groups : list NoDataGroupMemory) : result LoadError unit := validate_groups ∅ None groups.

Fixpoint check_present (presentAsOf : Z) (groups : list NoDataGroupMemory) : result LoadError unit :=
  match groups with
  | [] => Ok tt
  | group :: groups =>
      _ ← fail_if (presentAsOf <? gm_LastSeen group) (StoredSeenAfterPresent (gm_GroupKey group));
      check_present presentAsOf groups
  end.

Definition ReasonNone : string := "none".
Definition ReasonInternalUnknown : string := "internal_unknown".

(** [ValidateResultReason] of a failed result. *)
Definition failed_reason (reason : string) : bool :=
  if (reason =? "")%string || (reason =? ReasonNone)%string then false
  else (reason =? ReasonInternalUnknown)%string || ReasonAllowedForV2 reason ReasonDomainObservation.

Definition requireReasonClass (reason : string) (expected : ReasonClassV2) : result LoadError unit :=
  _ ← fail_if (negb (failed_reason reason)) WrongReasonClass;
  match LookupReasonV2 reason with
  | None => Err WrongReasonClass
  | Some definition => fail_if (negb (bool_decide (Class definition = expected))) WrongReasonClass
  end.

Definition validateNoDataSnapshot (item : NoDataMemorySnapshot) : result LoadError unit :=
  let reasonIsNone := (sn_ReasonCode item =? "")%string || (sn_ReasonCode item =? ReasonNone)%string in
  if (Status item =? NoDataMemoryMissing)%string then
    fail_if (noDataSnapshotHasPayload item || negb (SchemaVersion item =? 0) || negb reasonIsNone) MissingCarriesRecord
  else if (Status item =? NoDataMemoryFound)%string then
    _ ← fail_if ((MarkerRevision item =? 0) || (PersistedMutationDigest item =? "")%string || negb reasonIsNone)
          FoundRequiresRevision;
    _ ← fail_if ((SchemaVersion item =? 0) || negb (NoDataMemoryReadable (SchemaVersion item)))
          (FoundUnreadableSchema (SchemaVersion item));
    _ ← fail_if (negb (version_valid (PersistedApplyVersion item))) FoundApplyVersion;
    _ ← fail_if (LastScheduleRevision item =? "")%string FoundScheduleRevision;
    _ ← fail_if (sn_RosterVersion item =? "")%string FoundRosterVersion;
    _ ← fail_if (PresentAsOf item <? 0) FoundNegativePresent;
    _ ← fail_if ((Representation item =? NoDataRepresentationNone)%string || (Representation item =? "")%string)
          FoundNoRepresentation;
    _ ← validateNoDataGroups (sn_Groups item);
    if negb (SchemaVersion item =? NoDataMemorySchemaV2) then Ok tt
    else check_present (PresentAsOf item) (sn_Groups item)
  else if (Status item =? NoDataMemoryUnreadable)%string then
    _ ← fail_if (noDataSnapshotHasPayload item) UnreadableCarriesPayload;
    _ ← fail_if (negb (SchemaVersion item =? 0) && NoDataMemoryReadable (SchemaVersion item))
          (UnreadableIsReadable (SchemaVersion item));
    requireReasonClass (sn_ReasonCode item) ReasonClassDeterministic
  else if (Status item =? NoDataMemoryUnavailable)%string then
    _ ← fail_if (noDataSnapshotHasPayload item) UnavailableCarriesPayload;
    requireReasonClass (sn_ReasonCode item) ReasonClassRetryable
  else if (Status item =? NoDataMemoryTerminal)%string then
    _ ← fail_if (noDataSnapshotHasPayload item) TerminalCarriesPayload;
    requireReasonClass (sn_ReasonCode item) ReasonClassDeterministic
  else Err UnknownLoadStatus.
