(* ===== verification/NoDataMemorySpec.v ===== *)
(** What the no-data memory contract promises: a canonical memory is the one order
    of its groups, a delta turns the stored values it was derived from into the
    ones of the new memory, and the builder accepts exactly the statements that
    describe a memory a later round can read. *)
From S2P Require Import Prelude NoDataMemory.

Open Scope Z_scope.

(** ** Checks *)

(** [by_guards] opens a chain of refusals into the conditions that pass. *)
Ltac by_guards :=
  repeat match goal with
  | H : (_ ≫= _) = Ok _ |- _ => apply bind_Ok in H as (? & ? & ?)
  | H : fail_if _ _ = Ok _ |- _ => apply fail_if_Ok in H
  end.

Lemma guard_Ok {E A} c (e : E) (m : result E A) a : (_ ← fail_if c e; m) = Ok a ↔ c = false ∧ m = Ok a.
Proof. destruct c; simpl; naive_solver. Qed.

Lemma seq_Ok {E A} (u : result E unit) (m : result E A) a : (_ ← u; m) = Ok a ↔ u = Ok tt ∧ m = Ok a.
Proof. destruct u as [[]|]; simpl; naive_solver. Qed.

Lemma fail_if_tt {E} c (e : E) : fail_if c e = Ok tt ↔ c = false.
Proof. apply fail_if_Ok. Qed.

(** ** Canonical memories *)

Definition storable (g : NoDataGroupMemory) : Prop :=
  gm_GroupKey g ≠ ""%string ∧ 0 ≤ gm_LastSeen g ∧ 0 ≤ gm_FirstAbsent g ∧ (gm_LastSeen g ≠ 0 ∨ gm_FirstAbsent g ≠ 0).

Lemma storable_checks g :
  (gm_GroupKey g =? "")%string = false ∧ ((gm_LastSeen g <? 0) || (gm_FirstAbsent g <? 0)) = false ∧
  ((gm_LastSeen g =? 0) && (gm_FirstAbsent g =? 0)) = false ↔ storable g.
Proof.
  unfold storable. destruct (String.eqb_spec (gm_GroupKey g) ""), (Z.ltb_spec (gm_LastSeen g) 0),
    (Z.ltb_spec (gm_FirstAbsent g) 0), (Z.eqb_spec (gm_LastSeen g) 0), (Z.eqb_spec (gm_FirstAbsent g) 0); simpl; naive_solver lia.
Qed.

Definition key_lt {A} (key : A → string) (l r : A) : Prop := str_ltb (key l) (key r) = true.

#[export] Instance key_lt_trans {A} (key : A → string) : Transitive (key_lt key).
Proof. intros x y z. apply str_ltb_trans. Qed.

Lemma key_lt_irrefl {A} (key : A → string) x : ¬ key_lt key x x.
Proof. unfold key_lt. rewrite str_ltb_lt. tauto. Qed.

#[export] Instance group_le_total : Total group_le.
Proof. intros x y. unfold group_le. apply (total String.le). Qed.
#[export] Instance group_le_trans : Transitive group_le.
Proof. intros x y z. unfold group_le. apply (transitivity (R := String.le)). Qed.

Record canonical (groups : list NoDataGroupMemory) : Prop := {
  can_sorted : StronglySorted (key_lt gm_GroupKey) groups;
  can_storable : Forall storable groups;
}.

(** A list sorted strictly by a key is the one list of its elements that is. *)
Lemma sorted_by_key_unique {A} (key : A → string) (l l' : list A) :
  StronglySorted (key_lt key) l → StronglySorted (key_lt key) l' → (∀ x, x ∈ l ↔ x ∈ l') → l = l'.
Proof.
  assert (∀ l : list A, StronglySorted (key_lt key) l → NoDup l) as Hnd.
  { intros k Hk. induction Hk as [|x k Hk IH Hx]; [constructor|]. constructor; [|done]. rewrite Forall_forall in Hx.
    intros Hin. by apply (key_lt_irrefl key x), Hx. }
  intros Hl Hl' Hel. apply (StronglySorted_unique_strong (key_lt key)); [|done|done|by apply NoDup_Permutation; auto].
  intros x y _ _ Hxy Hyx. exfalso. apply (key_lt_irrefl key x). by transitivity y.
Qed.

Lemma sorted_key_nodup {A} (key : A → string) (l : list A) : StronglySorted (key_lt key) l → NoDup (key <$> l).
Proof.
  induction 1 as [|x l Hl IH Hx]; [constructor|]. rewrite fmap_cons. constructor; [|done].
  intros (y & Heq & Hy)%list_elem_of_fmap. rewrite Forall_forall in Hx. specialize (Hx y Hy). unfold key_lt in Hx.
  rewrite <- Heq in Hx. apply str_ltb_lt in Hx. tauto.
Qed.

Lemma fmap_nodup_inj {A B} (f : A → B) (l : list A) x y :
  NoDup (f <$> l) → x ∈ l → y ∈ l → f x = f y → x = y.
Proof.
  intros Hnd [i Hi]%list_elem_of_lookup [j Hj]%list_elem_of_lookup Heq.
  assert (i = j) as <-; [|congruence]. eapply NoDup_lookup; [exact Hnd|by rewrite list_lookup_fmap, Hi|by rewrite list_lookup_fmap, Hj, Heq].
Qed.

Lemma group_lt_le groups : StronglySorted (key_lt gm_GroupKey) groups → StronglySorted group_le groups.
Proof.
  induction 1 as [|x l Hs IH Hx]; constructor; [done|]. eapply Forall_impl; [exact Hx|]. intros y Hy%str_ltb_lt. apply Hy.
Qed.

Lemma check_groups_Ok previous groups :
  StronglySorted group_le groups → (∀ p, previous = Some p → Forall (λ g, String.le p (gm_GroupKey g)) groups) →
  check_groups previous groups = Ok tt ↔
  StronglySorted (key_lt gm_GroupKey) groups ∧ Forall storable groups ∧
  ∀ p, previous = Some p → Forall (λ g, str_ltb p (gm_GroupKey g) = true) groups.
Proof.
  intros Hs. revert previous. induction Hs as [|g groups Hs IH Hg]; intros previous Hp; cbn [check_groups].
  { split; [|done]. intros _. split_and!; constructor. }
  rewrite !guard_Ok, IH.
  2: { intros p [= <-]. exact Hg. }
  rewrite !StronglySorted_cons, !Forall_cons, bool_decide_eq_false, <- storable_checks.
  assert (previous ≠ Some (gm_GroupKey g) ↔ ∀ p, previous = Some p → str_ltb p (gm_GroupKey g) = true) as ->.
  { split.
    - intros Hne p ->. apply str_ltb_lt. specialize (Hp p eq_refl). apply Forall_cons in Hp as [Hp _]. split; [done|congruence].
    - intros H ->. specialize (H _ eq_refl). apply str_ltb_lt in H. tauto. }
  split.
  - intros (H1 & H2 & H3 & H4 & H5 & H6 & H7). specialize (H7 _ eq_refl). split_and!; try done.
    intros p ->. specialize (H2 p eq_refl). apply Forall_cons. split; [done|]. eapply Forall_impl; [exact H7|].
    intros h. by apply str_ltb_trans.
  - intros ((Hg' & Hs') & ((Hk & Hn & Hz) & Hst) & Hp'). split_and!; try done.
    + intros p Hpp. specialize (Hp' p Hpp). by apply Forall_cons in Hp' as [? _].
    + by intros p [= <-].
Qed.

Lemma canonicalNoDataMemory_Ok groups memory :
  canonicalNoDataMemory groups = Ok memory ↔ canonical memory ∧ memory ≡ₚ groups.
Proof.
  unfold canonicalNoDataMemory. rewrite seq_Ok, check_groups_Ok; [|apply stable_sort_sorted; apply _|done]. split.
  - intros [(Hs & Hst & _) [= <-]]. split; [by constructor|]. apply stable_sort_perm.
  - intros [[Hs Hst] Hp]. assert (stable_sort group_le groups = memory) as ->.
    { apply (StronglySorted_unique_strong group_le); [|apply stable_sort_sorted; apply _| |by rewrite Hp, stable_sort_perm].
      - intros x y Hx Hy Hxy Hyx. rewrite stable_sort_perm, <- Hp in Hx.
        apply (fmap_nodup_inj gm_GroupKey memory); [by apply sorted_key_nodup|done..|]. by apply (anti_symm String.le).
      - by apply group_lt_le. }
    split; [|done]. split_and!; done.
Qed.

(** ** The delta *)

Lemma value_key g p : gd_GroupKey (noDataGroupValue g p) = gm_GroupKey g.
Proof. unfold noDataGroupValue. by destruct (_ && _). Qed.

Lemma sameNoDataGroupValue_eq l r : sameNoDataGroupValue l r = bool_decide (l = r).
Proof.
  unfold sameNoDataGroupValue. destruct l as [k a], r as [k' a']. simpl.
  destruct (String.eqb_spec k k') as [->|]; simpl; [|symmetry; apply bool_decide_eq_false_2; congruence].
  destruct a, a'; try (symmetry; (apply bool_decide_eq_false_2 || apply bool_decide_eq_true_2); congruence).
  apply bool_decide_ext. naive_solver.
Qed.

Lemma stored_values_lookup loaded p key v :
  NoDup (gm_GroupKey <$> loaded) →
  stored_values loaded p !! key = Some v ↔ ∃ g, g ∈ loaded ∧ gm_GroupKey g = key ∧ v = noDataGroupValue g p.
Proof.
  unfold stored_values. induction loaded as [|g loaded IH] using rev_ind.
  { intros _. cbn [foldl]. rewrite lookup_empty. split; [done|]. by intros (? & ?%not_elem_of_nil & _). }
  rewrite fmap_app. intros (Hnd & Hfresh & _)%NoDup_app. rewrite foldl_app. simpl.
  setoid_rewrite elem_of_snoc. destruct (decide (gm_GroupKey g = key)) as [<-|Hne].
  - rewrite lookup_insert_eq. split; [intros [= <-]; eauto|]. intros (h & [Hh| ->] & Hk & ->); [|done].
    destruct (Hfresh (gm_GroupKey g)); [|left]. rewrite <- Hk. by apply list_elem_of_fmap_2.
  - rewrite lookup_insert_ne, IH by done. split; [naive_solver|]. intros (h & [Hh| ->] & Hk & ->); [eauto|congruence].
Qed.

Section delta.
Variables (memory loaded : list NoDataGroupMemory) (p q : Z).
Hypotheses (Hmemory : canonical memory) (Hloaded : canonical loaded).
Notation set := (noDataMemoryDelta memory p loaded q).1.
Notation del := (noDataMemoryDelta memory p loaded q).2.

Lemma memory_nodup : NoDup (gm_GroupKey <$> memory).
Proof. apply sorted_key_nodup, Hmemory. Qed.
Lemma loaded_nodup : NoDup (gm_GroupKey <$> loaded).
Proof. apply sorted_key_nodup, Hloaded. Qed.

Lemma delta_set v :
  v ∈ set ↔ ∃ g, g ∈ memory ∧ v = noDataGroupValue g p ∧ stored_values loaded q !! gm_GroupKey g ≠ Some v.
Proof.
  unfold noDataMemoryDelta. cbn [fst]. rewrite list_elem_of_omap. split.
  - intros (g & Hg & H). exists g. split; [done|]. destruct (stored_values loaded q !! gm_GroupKey g) as [before|]; [|naive_solver].
    rewrite sameNoDataGroupValue_eq in H. case_bool_decide; [done|]. injection H as <-. split; [done|congruence].
  - intros (g & Hg & -> & Hne). exists g. split; [done|]. destruct (stored_values loaded q !! gm_GroupKey g) as [before|]; [|done].
    rewrite sameNoDataGroupValue_eq. case_bool_decide; [congruence|done].
Qed.

Lemma delta_del key : key ∈ del ↔ key ∈ (gm_GroupKey <$> loaded) ∧ key ∉ (gm_GroupKey <$> memory).
Proof.
  unfold noDataMemoryDelta. cbn [snd]. rewrite list_elem_of_filter, elem_of_list_to_set. tauto.
Qed.

Lemma sorted_omap_keys (f : NoDataGroupMemory → option NoDataGroupDelta) l :
  (∀ g v, f g = Some v → gd_GroupKey v = gm_GroupKey g) →
  StronglySorted (key_lt gm_GroupKey) l → StronglySorted (key_lt gd_GroupKey) (omap f l).
Proof.
  intros Hf. induction 1 as [|g l Hl IH Hg]; cbn; [constructor|]. destruct (f g) as [v|] eqn:Hv; [|done].
  constructor; [done|]. rewrite Forall_forall in Hg. apply Forall_forall. intros w (h & Hh & Hw)%list_elem_of_omap.
  specialize (Hg h Hh). unfold key_lt in *. by rewrite (Hf _ _ Hv), (Hf _ _ Hw).
Qed.

Lemma delta_set_sorted : StronglySorted (key_lt gd_GroupKey) set.
Proof.
  apply sorted_omap_keys; [|apply Hmemory]. intros g v H. cbv zeta in H. repeat case_match; simplify_eq; apply value_key.
Qed.

Lemma keys_sorted l : StronglySorted (key_lt gm_GroupKey) l → StronglySorted (key_lt (λ k : string, k)) (gm_GroupKey <$> l).
Proof. induction 1 as [|g l Hl IH Hg]; cbn; constructor; [done|]. by apply Forall_fmap. Qed.

Lemma delta_del_sorted : StronglySorted (key_lt (λ k : string, k)) del.
Proof. apply sorted_filter, keys_sorted, Hloaded. Qed.

Lemma delta_set_length : (length set ≤ length memory)%nat.
Proof. apply length_omap. Qed.

(** The store writes the set and then removes the deleted. *)
Definition apply_delta (stored : gmap string NoDataGroupDelta) : gmap string NoDataGroupDelta :=
  foldl (λ m key, delete key m) (foldl (λ m v, <[gd_GroupKey v := v]> m) stored set) del.

Lemma insert_fold l (m : gmap string NoDataGroupDelta) key :
  StronglySorted (key_lt gd_GroupKey) l →
  foldl (λ m v, <[gd_GroupKey v := v]> m) m l !! key
  = match list_find (λ v, gd_GroupKey v = key) l with Some (_, v) => Some v | None => m !! key end.
Proof.
  intros Hs. revert m. induction Hs as [|v l Hs IH Hv]; intros m; [done|]. cbn [foldl]. rewrite IH. cbn [list_find].
  case_decide as Hk.
  - destruct (list_find (λ v0, gd_GroupKey v0 = key) l) as [[i w]|] eqn:Hf; simpl.
    + exfalso. apply list_find_Some in Hf as (Hi & Hw & _). rewrite Forall_forall in Hv.
      apply list_elem_of_lookup_2, Hv in Hi. unfold key_lt in Hi. rewrite Hk, Hw in Hi. apply str_ltb_lt in Hi. tauto.
    + by rewrite <- Hk, lookup_insert_eq.
  - destruct (list_find (λ v0, gd_GroupKey v0 = key) l) as [[i w]|]; simpl; [done|]. by rewrite lookup_insert_ne.
Qed.

(** The delta turns the values of the record it was derived from into those of
    the new memory. *)
Lemma delta_applies : apply_delta (stored_values loaded q) = stored_values memory p.
Proof.
  apply map_eq. intros key. unfold apply_delta. rewrite foldl_delete_lookup, insert_fold by apply delta_set_sorted.
  destruct (stored_values memory p !! key) as [v|] eqn:Hm.
  - apply stored_values_lookup in Hm as (g & Hg & <- & ->); [|apply memory_nodup].
    rewrite bool_decide_eq_false_2 by (rewrite delta_del; intros [_ []]; by apply list_elem_of_fmap_2).
    destruct (list_find _ _) as [[i w]|] eqn:Hf.
    + apply list_find_Some in Hf as (Hi & Hk & _). apply list_elem_of_lookup_2, delta_set in Hi as (h & Hh & -> & _).
      rewrite value_key in Hk. f_equal. f_equal. eapply (fmap_nodup_inj gm_GroupKey); [apply memory_nodup|done..].
    + apply list_find_None in Hf. rewrite Forall_forall in Hf.
      destruct (decide (stored_values loaded q !! gm_GroupKey g = Some (noDataGroupValue g p))) as [|Hne]; [done|].
      destruct (Hf (noDataGroupValue g p)); [|apply value_key]. apply delta_set. eauto.
  - assert (key ∉ (gm_GroupKey <$> memory)) as Hno.
    { intros (g & -> & Hg)%list_elem_of_fmap. assert (stored_values memory p !! gm_GroupKey g = Some (noDataGroupValue g p)) as H
        by (apply stored_values_lookup; [apply memory_nodup|eauto]). congruence. }
    case_bool_decide as Hd; [done|]. rewrite delta_del in Hd.
    destruct (list_find _ _) as [[i w]|] eqn:Hf.
    + apply list_find_Some in Hf as (Hi & <- & _). apply list_elem_of_lookup_2, delta_set in Hi as (h & Hh & -> & _).
      destruct Hno. rewrite value_key. by apply list_elem_of_fmap_2.
    + destruct (stored_values loaded q !! key) as [v|] eqn:Hl; [|done].
      apply stored_values_lookup in Hl as (g & Hg & <- & ->); [|apply loaded_nodup].
      destruct Hd. split; [by apply list_elem_of_fmap_2|done].
Qed.
End delta.

(** ** What the builder accepts *)

Definition storable_memory (groups : list NoDataGroupMemory) : Prop := NoDup (gm_GroupKey <$> groups) ∧ Forall storable groups.

Lemma sort_canonical groups : storable_memory groups → canonical (stable_sort group_le groups).
Proof.
  intros [Hnd Hst]. split; [|by rewrite stable_sort_perm]. pose proof (stable_sort_sorted group_le groups) as Hs.
  assert (NoDup (gm_GroupKey <$> stable_sort group_le groups)) as Hnd' by (by rewrite (stable_sort_perm group_le groups)).
  revert Hnd'. induction Hs as [|g l Hl IH Hg]; [constructor|]. rewrite fmap_cons. intros [Hno Hnd']%NoDup_cons.
  constructor; [by apply IH|]. rewrite Forall_forall in Hg. apply Forall_forall. intros h Hh. apply str_ltb_lt.
  split; [by apply Hg|]. intros Heq. apply Hno. rewrite Heq. by apply list_elem_of_fmap_2.
Qed.

Lemma canonical_exists groups : (∃ memory, canonicalNoDataMemory groups = Ok memory) ↔ storable_memory groups.
Proof.
  setoid_rewrite canonicalNoDataMemory_Ok. unfold storable_memory. split.
  - intros (memory & [Hs Hst] & Hp). rewrite <- Hp. split; [by apply sorted_key_nodup|done].
  - intros H. exists (stable_sort group_le groups). split; [by apply sort_canonical|apply stable_sort_perm].
Qed.

Record statable (u : PlanNoDataMemoryUpdate) : Prop := mkStatable {
  ad_memory : storable_memory (up_Memory u);
  ad_loaded : storable_memory (up_Loaded u);
  ad_present : 0 ≤ up_LoadedPresentAsOf u ≤ up_PresentAsOf u;
  ad_seen : Forall (λ g, gm_LastSeen g ≤ up_PresentAsOf u) (up_Memory u);
  ad_exhausted : 0 ≤ up_TrackingExhaustedAt u ∧ (up_TrackingExhaustedAt u ≠ 0 → up_Memory u = []);
  ad_cleared : 0 ≤ up_LoadedTrackingExhaustedAt u ∧
    (up_LoadedTrackingExhaustedAt u ≠ 0 → up_TrackingExhaustedAt u = 0 → up_Memory u = [] →
     up_LoadedPresentAsOf u < up_PresentAsOf u);
  ad_named : plan_valid (id_Plan (up_Identity u)) = true ∧ StateGeneration (up_Identity u) ≠ ""%string ∧
    up_ScheduleRevision u ≠ ""%string ∧ up_RosterVersion u ≠ ""%string ∧ version_valid (up_ApplyVersion u) = true;
  ad_source :
    up_DerivedFrom u = NoDataRepresentationNone ∧ up_LoadedApplyVersion u = no_version ∧ up_ExpectedMarkerRevision u = 0 ∨
    up_DerivedFrom u = NoDataRepresentationPerGroup ∧ version_valid (up_LoadedApplyVersion u) = true ∧
      up_ExpectedMarkerRevision u ≠ 0;
}.

Definition admissible (u : PlanNoDataMemoryUpdate) : Prop :=
  statable u ∧ Z.of_nat (length (up_Memory u)) ≤ maxUint32.

(** What a round states of the record it read. *)
Record derived (sn : NoDataMemorySnapshot) (u : PlanNoDataMemoryUpdate) : Prop := mkDerived {
  dv_identity : up_Identity u = sn_Identity sn;
  dv_from : up_DerivedFrom u = Representation sn;
  dv_revision : up_ExpectedMarkerRevision u = MarkerRevision sn;
  dv_version : up_LoadedApplyVersion u = PersistedApplyVersion sn;
  dv_groups : up_Loaded u = sn_Groups sn;
  dv_present : up_LoadedPresentAsOf u = PresentAsOf sn;
  dv_exhausted : up_LoadedTrackingExhaustedAt u = sn_TrackingExhaustedAt sn;
}.

(** A stopped absence is an absence. *)
Definition stopped_absent (g : NoDataGroupMemory) : Prop := gm_SuppressedAt g ≠ 0 → gm_FirstAbsent g ≠ 0.

Lemma check_seen_Ok p memory : check_seen p memory = Ok tt ↔ Forall (λ g, gm_LastSeen g ≤ p) memory.
Proof.
  induction memory as [|g memory IH]; cbn [check_seen]; [by split|].
  rewrite guard_Ok, IH, Forall_cons, Z.ltb_ge. done.
Qed.

Lemma check_update_Ok u memory :
  memory ≡ₚ up_Memory u →
  check_update u memory = Ok tt ↔
  (0 ≤ up_LoadedPresentAsOf u ≤ up_PresentAsOf u) ∧ Forall (λ g, gm_LastSeen g ≤ up_PresentAsOf u) (up_Memory u) ∧
  (0 ≤ up_TrackingExhaustedAt u ∧ (up_TrackingExhaustedAt u ≠ 0 → up_Memory u = [])) ∧
  (0 ≤ up_LoadedTrackingExhaustedAt u ∧
   (up_LoadedTrackingExhaustedAt u ≠ 0 → up_TrackingExhaustedAt u = 0 → up_Memory u = [] →
    up_LoadedPresentAsOf u < up_PresentAsOf u)) ∧
  Z.of_nat (length (up_Memory u)) ≤ maxUint32.
Proof.
  intros Hp. assert (length memory = length (up_Memory u)) as Hlen by (by rewrite Hp).
  assert (Forall (λ g, gm_LastSeen g ≤ up_PresentAsOf u) memory ↔ Forall (λ g, gm_LastSeen g ≤ up_PresentAsOf u) (up_Memory u)) as Hall
    by (by rewrite Hp).
  unfold check_update. rewrite !guard_Ok, seq_Ok, fail_if_tt, check_seen_Ok, Hall, Hlen.
  assert (memory = [] ↔ up_Memory u = []) as Hnil.
  { split; intros H; rewrite H in Hp; [by apply Permutation_nil_l in Hp|by apply Permutation_nil_r in Hp]. }
  rewrite (bool_decide_ext _ _ Hnil). rewrite <- Z.ltb_ge.
  destruct (Z.ltb_spec (up_PresentAsOf u) 0), (Z.ltb_spec (up_LoadedPresentAsOf u) 0),
    (Z.ltb_spec (up_TrackingExhaustedAt u) 0), (Z.ltb_spec (up_LoadedTrackingExhaustedAt u) 0),
    (Z.eqb_spec (up_TrackingExhaustedAt u) 0), (Z.eqb_spec (up_LoadedTrackingExhaustedAt u) 0),
    (Z.leb_spec (up_PresentAsOf u) (up_LoadedPresentAsOf u)), (Z.ltb_spec (up_PresentAsOf u) (up_LoadedPresentAsOf u)),
    (bool_decide_reflect (up_Memory u = [])); simpl; try lia; intuition (try congruence; try lia).
Qed.

Lemma check_update_full u memory :
  memory ≡ₚ up_Memory u → statable u → maxUint32 < Z.of_nat (length memory) → check_update u memory = Err TooManyGroups.
Proof.
  intros Hp [_ _ Hpr Hseen Hex Hcl _ _] Hlen. unfold check_update.
  assert (check_seen (up_PresentAsOf u) memory = Ok tt) as -> by (apply check_seen_Ok; by rewrite Hp).
  rewrite (proj2 (Z.ltb_lt _ _) Hlen). cbn [mbind result_bind].
  assert (memory ≠ []) as Hne by (intros ->; unfold maxUint32 in Hlen; simpl in Hlen; lia).
  rewrite bool_decide_eq_false_2 by done. assert (up_Memory u ≠ []) as Hne' by (intros H; rewrite H in Hp; by apply Permutation_nil_r in Hp).
  destruct (Z.eqb_spec (up_TrackingExhaustedAt u) 0) as [|Hx]; [|by destruct Hne'; apply Hex].
  rewrite andb_false_r. destruct (Z.ltb_spec (up_PresentAsOf u) 0), (Z.ltb_spec (up_LoadedPresentAsOf u) 0),
    (Z.ltb_spec (up_TrackingExhaustedAt u) 0), (Z.ltb_spec (up_LoadedTrackingExhaustedAt u) 0),
    (Z.ltb_spec (up_PresentAsOf u) (up_LoadedPresentAsOf u)); simpl; done || lia.
Qed.

Definition value_ok (p : Z) (v : NoDataGroupDelta) : Prop :=
  gd_GroupKey v ≠ ""%string ∧ check_set_value p (gd_Absent v) = Ok tt.

Lemma ordered_chain {A} (key : A → string) x l :
  StronglySorted (key_lt key) (x :: l) → ∀ y, head l = Some y → out_of_order (Some (key x)) (key y) = false.
Proof. intros [Hx _]%StronglySorted_cons y Hy. destruct l; [done|]. injection Hy as ->. apply Forall_cons in Hx as [Hx _]. simpl. by rewrite Hx. Qed.

Lemma check_set_intro p previous set :
  StronglySorted (key_lt gd_GroupKey) set → Forall (value_ok p) set →
  (∀ v, head set = Some v → out_of_order previous (gd_GroupKey v) = false) → check_set p previous set = Ok tt.
Proof.
  intros Hs. revert previous. induction Hs as [|v set Hs IH Hv]; intros previous Hok Hprev; [done|].
  apply Forall_cons in Hok as [[Hk Hval] Hok]. cbn [check_set]. rewrite !guard_Ok, seq_Ok.
  split_and!; [by destruct (String.eqb_spec (gd_GroupKey v) "")|by apply Hprev|done|].
  apply IH; [done|]. by apply ordered_chain; constructor.
Qed.

Lemma check_del_intro touched previous del :
  StronglySorted (key_lt (λ k : string, k)) del → Forall (λ k, k ≠ ""%string ∧ k ∉ touched) del →
  (∀ k, head del = Some k → out_of_order previous k = false) → check_del touched previous del = Ok tt.
Proof.
  intros Hs. revert previous. induction Hs as [|k del Hs IH Hv]; intros previous Hok Hprev; [done|].
  apply Forall_cons in Hok as [[Hk Htouched] Hok]. cbn [check_del]. rewrite !guard_Ok, bool_decide_eq_false.
  split_and!; [by destruct (String.eqb_spec k "")|by apply Hprev|done|].
  apply IH; [done|]. by apply (ordered_chain (λ k : string, k)); constructor.
Qed.

Lemma group_value_ok p g :
  storable g → stopped_absent g → value_ok p (noDataGroupValue g p).
Proof.
  intros (Hk & Hl & Hf & Hz) Hs. split; [by rewrite value_key|]. unfold noDataGroupValue, stopped_absent in *.
  destruct (Z.eqb_spec (gm_FirstAbsent g) 0), (Z.eqb_spec (gm_SuppressedAt g) 0), (Z.ltb_spec 0 p), (Z.eqb_spec (gm_LastSeen g) p);
    simpl; rewrite ?guard_Ok, ?fail_if_tt; simpl; repeat split;
    destruct (Z.eqb_spec p 0), (Z.ltb_spec (gm_LastSeen g) 0), (Z.ltb_spec (gm_FirstAbsent g) 0),
      (Z.eqb_spec (gm_LastSeen g) 0), (Z.eqb_spec (gm_FirstAbsent g) 0), (Z.eqb_spec (gm_LastSeen g) p); simpl; done || lia.
Qed.

Section builder.
Variables (u : PlanNoDataMemoryUpdate) (memory loaded : list NoDataGroupMemory).
Hypotheses (Hmemory : canonical memory) (Hloaded : canonical loaded).

(** The record the delta is taken against. *)
Definition base : list NoDataGroupMemory :=
  if negb (up_DerivedFrom u =? NoDataRepresentationPerGroup)%string then [] else loaded.

Lemma base_canonical : canonical base.
Proof. unfold base. destruct (negb _); [by repeat constructor|done]. Qed.

Lemma mutation_of_eq :
  mutation_of u memory loaded =
  mkMutation (up_Identity u) WrittenNoDataMemorySchema (up_DerivedFrom u) (up_ExpectedMarkerRevision u)
    (up_LoadedApplyVersion u) (up_ApplyVersion u) (up_ScheduleRevision u) (up_RosterVersion u) (up_PresentAsOf u)
    (up_TrackingExhaustedAt u) "" "" (u32 (Z.of_nat (length memory)))
    (noDataMemoryDelta memory (up_PresentAsOf u) base (up_LoadedPresentAsOf u)).1
    (noDataMemoryDelta memory (up_PresentAsOf u) base (up_LoadedPresentAsOf u)).2.
Proof. reflexivity. Qed.

Definition named : Prop :=
  plan_valid (id_Plan (up_Identity u)) = true ∧ StateGeneration (up_Identity u) ≠ ""%string ∧
  up_ScheduleRevision u ≠ ""%string ∧ up_RosterVersion u ≠ ""%string ∧ version_valid (up_ApplyVersion u) = true.
Definition sourced : Prop :=
  up_DerivedFrom u = NoDataRepresentationNone ∧ up_LoadedApplyVersion u = no_version ∧ up_ExpectedMarkerRevision u = 0 ∨
  up_DerivedFrom u = NoDataRepresentationPerGroup ∧ version_valid (up_LoadedApplyVersion u) = true ∧
    up_ExpectedMarkerRevision u ≠ 0.

Lemma statement_named mu :
  mu_Identity mu = up_Identity u → mu_ScheduleRevision mu = up_ScheduleRevision u → mu_RosterVersion mu = up_RosterVersion u →
  mu_ApplyVersion mu = up_ApplyVersion u → mu_DerivedFrom mu = up_DerivedFrom u →
  mu_LoadedApplyVersion mu = up_LoadedApplyVersion u → mu_ExpectedMarkerRevision mu = up_ExpectedMarkerRevision u →
  validateStatement mu = Ok tt → named ∧ sourced.
Proof.
  clear Hmemory Hloaded memory loaded. intros Hi Hs Hr Ha Hd Hl He. unfold validateStatement, check_loaded_version.
  rewrite !guard_Ok, seq_Ok, !guard_Ok, !seq_Ok, Hi, Hs, Hr, Ha, Hd, Hl, He.
  intros (Hid & _ & Hrep & _ & Hsrc & Hro & Hap & _). unfold named, sourced. breflect. split.
  - split_and!; try done; by apply String.eqb_neq.
  - destruct (String.eqb_spec (up_DerivedFrom u) NoDataRepresentationNone) as [->|Hne].
    + left. rewrite guard_Ok, fail_if_tt in Hsrc. destruct Hsrc as [Hs1 Hs2]. breflect. done.
    + right. rewrite guard_Ok, fail_if_tt in Hsrc. destruct Hsrc as [Hs1 Hs2]. breflect. split_and!; try done. set_solver.
Qed.

Lemma statement_valid :
  named → sourced → 0 ≤ up_PresentAsOf u → Forall stopped_absent memory → Z.of_nat (length memory) ≤ maxUint32 →
  validateStatement (mutation_of u memory loaded) = Ok tt.
Proof.
  intros (H1 & H2 & H3 & H4 & H5) Hsrc Hp Hstop Hmax. rewrite mutation_of_eq. unfold validateStatement, check_loaded_version, ReplacesWholeRecord.
  cbn [mu_Identity mu_SchemaVersion mu_DerivedFrom mu_Del mu_LoadedApplyVersion mu_ExpectedMarkerRevision mu_RosterVersion
       mu_ApplyVersion mu_PresentAsOf mu_Set mu_GroupCount mu_ScheduleRevision].
  rewrite !guard_Ok, seq_Ok, !guard_Ok, !seq_Ok, fail_if_tt, H1, H5, (proj2 (String.eqb_neq _ _) H2), (proj2 (String.eqb_neq _ _) H3),
    (proj2 (String.eqb_neq _ _) H4). split_and!; try done.
  - rewrite bool_decide_eq_true_2; [done|]. destruct Hsrc as [(-> & _)|(-> & _)]; set_solver.
  - unfold base. destruct (String.eqb_spec (up_DerivedFrom u) NoDataRepresentationPerGroup); done.
  - destruct Hsrc as [(-> & -> & ->)|(-> & Hv & He)]; [done|]. simpl. rewrite Hv. simpl.
    by rewrite (proj2 (Z.eqb_neq _ _) He).
  - by apply Z.ltb_ge.
  - apply check_set_intro; [by apply delta_set_sorted| |done]. apply Forall_forall. intros v (g & Hg & -> & _)%delta_set.
    rewrite Forall_forall in Hstop. apply group_value_ok; [|by apply Hstop].
    pose proof (can_storable _ Hmemory) as Hst. rewrite Forall_forall in Hst. by apply Hst.
  - apply check_del_intro; [by apply delta_del_sorted, base_canonical| |done]. apply Forall_forall. intros k Hk%delta_del.
    destruct Hk as [(g & -> & Hg)%list_elem_of_fmap Hno]. split.
    + pose proof (can_storable _ base_canonical) as Hst. rewrite Forall_forall in Hst. apply Hst in Hg. apply Hg.
    + rewrite elem_of_list_to_set. intros (v & Hv & (h & Hh & -> & _)%delta_set)%list_elem_of_fmap.
      rewrite value_key in Hv. apply Hno. rewrite Hv. by apply list_elem_of_fmap_2.
  - apply Z.ltb_ge. rewrite u32_id by (unfold is_u32; lia). pose proof (delta_set_length memory base (up_PresentAsOf u) (up_LoadedPresentAsOf u)). lia.
Qed.
End builder.

(** ** The builder *)

Section digest.
Variable memory_digest : MemoryPayload → option string.
Variable statement_digest : PlanNoDataMutation → option string.
Notation Build := (BuildPlanNoDataMutation memory_digest statement_digest).

Definition payload_of (mu : PlanNoDataMutation) (memory : list NoDataGroupMemory) : MemoryPayload :=
  mkMemoryPayload (mu_Identity mu) (mu_SchemaVersion mu) (mu_ScheduleRevision mu) (mu_RosterVersion mu)
    (mu_PresentAsOf mu) (mu_TrackingExhaustedAt mu) memory.

(** The mutation the builder made of an update, with the memory it results in
    and the record it was taken against. *)
Record built (u : PlanNoDataMemoryUpdate) (memory loaded : list NoDataGroupMemory) (mu : PlanNoDataMutation) : Prop := mkBuilt {
  bt_memory : canonical memory;
  bt_memory_perm : memory ≡ₚ up_Memory u;
  bt_loaded : canonical loaded;
  bt_loaded_perm : loaded ≡ₚ up_Loaded u;
  bt_update : check_update u memory = Ok tt;
  bt_statement : validateStatement (mutation_of u memory loaded) = Ok tt;
  bt_mutation : ∃ d s,
    mu = set_mutation_digest s (set_memory_digest d (mutation_of u memory loaded)) ∧ d ≠ ""%string ∧
    memory_digest (payload_of mu memory) = Some d ∧
    statement_digest (set_mutation_digest "" mu) = Some s;
}.

Lemma wrap_loaded_Ok {A} (r : result ContractError A) a : wrap_loaded r = Ok a ↔ r = Ok a.
Proof. destruct r; simpl; naive_solver. Qed.

(** The checks read no digest. *)
Lemma statement_ignores_digests d s mu :
  validateStatement (set_mutation_digest s (set_memory_digest d mu)) = validateStatement mu.
Proof. reflexivity. Qed.

Lemma statement_ignores_digest d mu : validateStatement (set_memory_digest d mu) = validateStatement mu.
Proof. reflexivity. Qed.

Lemma Build_built u mu : Build u = Ok mu ↔ ∃ memory loaded, built u memory loaded mu.
Proof.
  unfold BuildPlanNoDataMutation. split.
  - intros (memory & Hm & H)%bind_Ok. apply bind_Ok in H as (loaded & Hl & H). apply (proj1 (wrap_loaded_Ok _ _)) in Hl.
    apply canonicalNoDataMemory_Ok in Hm as [Hm Hmp]. apply canonicalNoDataMemory_Ok in Hl as [Hl Hlp].
    rewrite seq_Ok in H. destruct H as [Hu H].
    apply bind_Ok in H as (d & Hd & H). apply bind_Ok in H as (s & Hs & [= <-]).
    unfold derivePlanNoDataMemoryDigest in Hd. rewrite seq_Ok in Hd. destruct Hd as [Hv Hd].
    unfold derivePlanNoDataStatementDigest in Hs. rewrite seq_Ok, guard_Ok in Hs. destruct Hs as (_ & Hne & Hs).
    destruct (memory_digest _) as [d'|] eqn:Hmd; [|done]. injection Hd as ->.
    destruct (statement_digest _) as [s'|] eqn:Hsd; [|done]. injection Hs as ->.
    exists memory, loaded. refine (mkBuilt _ _ _ _ Hm Hmp Hl Hlp Hu Hv _). exists d, s. split_and!; try done. by apply String.eqb_neq in Hne.
  - intros (memory & loaded & [Hm Hmp Hl Hlp Hu Hv (d & s & -> & Hne & Hmd & Hsd)]).
    apply bind_Ok. exists memory. split; [by apply canonicalNoDataMemory_Ok|].
    apply bind_Ok. exists loaded. split; [by apply wrap_loaded_Ok, canonicalNoDataMemory_Ok|]. rewrite seq_Ok. split; [done|].
    apply bind_Ok. exists d. unfold derivePlanNoDataMemoryDigest. rewrite seq_Ok. split.
    { split; [done|]. change (match memory_digest (payload_of (set_mutation_digest s (set_memory_digest d (mutation_of u memory loaded))) memory) with
        Some digest => Ok digest | None => Err DigestFailed end = Ok d). by rewrite Hmd. }
    apply bind_Ok. exists s. split; [|done]. unfold derivePlanNoDataStatementDigest.
    rewrite seq_Ok, guard_Ok, statement_ignores_digest. split_and!; [done|by apply String.eqb_neq|].
    change (match statement_digest (set_mutation_digest "" (set_mutation_digest s (set_memory_digest d (mutation_of u memory loaded)))) with
        Some digest => Ok digest | None => Err DigestFailed end = Ok s). by rewrite Hsd.
Qed.

(** A built mutation passes the store's check of its digests. *)
Lemma built_validates u memory loaded mu :
  built u memory loaded mu → mu_MutationDigest mu ≠ ""%string → ValidateDigest statement_digest mu = Ok tt.
Proof.
  intros [_ _ _ _ _ Hv (d & s & Heq & Hne & Hmd & Hsd)] Hs. unfold ValidateDigest.
  assert (validateStatement mu = Ok tt) as Hst by (by rewrite Heq, statement_ignores_digests).
  assert (mu_MemoryDigest mu = d) as Hd by (by rewrite Heq).
  rewrite guard_Ok, seq_Ok, (proj2 (String.eqb_neq _ _) Hs), Hd, (proj2 (String.eqb_neq _ _) Hne).
  split_and!; [done..|]. apply bind_Ok. exists s. unfold derivePlanNoDataStatementDigest.
  rewrite seq_Ok, guard_Ok, Hd, (proj2 (String.eqb_neq _ _) Hne), Hsd. split; [done|].
  assert (mu_MutationDigest mu = s) as -> by (by rewrite Heq). by rewrite String.eqb_refl.
Qed.

Section total.
(** Both digests exist and are not empty. *)
Hypothesis memory_digests : ∀ payload, ∃ d, memory_digest payload = Some d ∧ d ≠ ""%string.
Hypothesis statement_digests : ∀ mu, ∃ s, statement_digest mu = Some s ∧ s ≠ ""%string.

Lemma admissible_built u :
  Forall stopped_absent (up_Memory u) → admissible u → ∃ memory loaded mu, built u memory loaded mu ∧ mu_MutationDigest mu ≠ ""%string.
Proof.
  intros Hstop [[] ad_count0]. apply canonical_exists in ad_memory0 as [memory Hm]. apply canonical_exists in ad_loaded0 as [loaded Hl].
  apply canonicalNoDataMemory_Ok in Hm as [Hm Hmp]. apply canonicalNoDataMemory_Ok in Hl as [Hl Hlp].
  assert (validateStatement (mutation_of u memory loaded) = Ok tt) as Hv.
  { apply statement_valid; try done; [lia|by rewrite Hmp|by rewrite Hmp]. }
  destruct (memory_digests (payload_of (mutation_of u memory loaded) memory)) as (d & Hd & Hne).
  destruct (statement_digests (set_memory_digest d (mutation_of u memory loaded))) as (s & Hs & Hsne).
  exists memory, loaded, (set_mutation_digest s (set_memory_digest d (mutation_of u memory loaded))). split; [|done].
  split; try done; [by apply check_update_Ok|]. exists d, s. done.
Qed.

(** A statable memory is refused only for its size. *)
Lemma build_or_full u :
  Forall stopped_absent (up_Memory u) → statable u →
  (∃ mu, Build u = Ok mu) ∧ Z.of_nat (length (up_Memory u)) ≤ maxUint32 ∨
  Build u = Err TooManyGroups ∧ maxUint32 < Z.of_nat (length (up_Memory u)).
Proof.
  intros Hstop Hs. destruct (decide (Z.of_nat (length (up_Memory u)) ≤ maxUint32)) as [Hle|Hgt].
  - left. split; [|done]. destruct (admissible_built u Hstop (conj Hs Hle)) as (memory & loaded & mu & Hb & _). exists mu. apply Build_built. eauto.
  - right. split; [|lia]. pose proof Hs as [Hm Hl _ _ _ _ _ _]. apply canonical_exists in Hm as [memory Hm], Hl as [loaded Hl].
    unfold BuildPlanNoDataMutation. rewrite Hm, Hl. cbn [wrap_loaded mbind result_bind].
    apply canonicalNoDataMemory_Ok in Hm as [_ Hmp]. rewrite check_update_full; [done..|]. rewrite Hmp. lia.
Qed.

(** The builder accepts a round's statement exactly when the memory it states
    is one a later round can read and the record it read is named: every group
    with its own key and something remembered, none seen after the Plan last had
    data, which never moves back; the exhausted mark only over an empty memory,
    and cleared over one only when data arrived; a record's revision and version
    given together or not at all. *)
Lemma build_accepts u :
  Forall stopped_absent (up_Memory u) → is_ok (Build u) = true ↔ admissible u.
Proof.
  intros Hstop. split.
  - intros H. destruct (Build u) as [mu|] eqn:Hb; [|done]. apply Build_built in Hb as (memory & loaded & [Hm Hmp Hl Hlp Hu Hv _]).
    apply check_update_Ok in Hu as (? & ? & ? & ? & ?); [|done].
    destruct (statement_named u (mutation_of u memory loaded)) as [? ?]; try done.
    split; [|done]. split; try done; apply canonical_exists; [exists memory|exists loaded]; by apply canonicalNoDataMemory_Ok.
  - intros (memory & loaded & mu & Hb & _)%admissible_built; [|done].
    assert (Build u = Ok mu) as -> by (apply Build_built; eauto). done.
Qed.
End total.
End digest.
