(* ===== verification/NoDataStore.v ===== *)
(** The no-data memory in the store (state/execution_v2_no_data.go,
    execution_v2_no_data_hash.go, redis_no_data_hash.go): one Plan's record as a
    hash of one header field and one field per group, its reading, and the write
    of a delta, which is a read of the header followed by one atomic script. The
    JSON texts and the SHA-1 of a header are an interface. *)
From Stdlib Require Import Ascii.
From S2P Require Import Prelude Reason NoDataMemory.

Open Scope Z_scope.

(** ** Texts *)

Definition executionNoDataSchema : string := "alarmd-plan-no-data".
Definition noDataHeaderField : string := "_meta".
Definition noDataGroupPrefix : string := "g:".
Definition noDataPresentValue : string := "p".

Record noDataHashHeader : Type := mkHeader {
  hd_Schema : string;
  hd_Version : Z;
  hd_Identity : PlanNoDataIdentity;
  hd_MarkerRevision : Z;
  hd_ApplyVersion : ApplyVersion;
  hd_MemoryDigest : string;
  hd_ScheduleRevision : string;
  hd_RosterVersion : string;
  hd_PresentAsOf : Z;
  hd_TrackingExhaustedAt : Z;
}.

#[export] Instance noDataHashHeader_eq_dec : EqDecision noDataHashHeader.
Proof. solve_decision. Defined.

Record noDataHashVersion : Type := mkHashVersion {
  hv_Schema : string;
  hv_Version : Z;
  hv_Identity : PlanNoDataIdentity;
}.

Record noDataGroupAbsenceValue : Type := mkAbsenceValue {
  av_LastSeen : Z;
  av_FirstAbsent : Z;
  av_SuppressedAt : Z;
}.

#[export] Instance noDataGroupAbsenceValue_eq_dec : EqDecision noDataGroupAbsenceValue.
Proof. solve_decision. Defined.

Definition version_of (h : noDataHashHeader) : noDataHashVersion := mkHashVersion (hd_Schema h) (hd_Version h) (hd_Identity h).

(** [encoding/json] on the record's three shapes, and [crypto/sha1]. *)
Class HashText : Type := {
  marshal_header : noDataHashHeader → option string;
  unmarshal_version : string → option noDataHashVersion;
  unmarshal_header : string → option noDataHashHeader;
  marshal_absence : noDataGroupAbsenceValue → option string;
  unmarshal_absence : string → option noDataGroupAbsenceValue;
  HeaderDigest : string → string;
}.

(** What the store relies on: a marshalled value reads back, as long as its
    strings are text JSON keeps ([printable]); an object is not the present mark;
    and no two headers the store compares share a digest. *)
Class HashTextLaws `{HashText} : Type := {
  printable : noDataHashHeader → Prop;
  header_text h : printable h →
    ∃ s, marshal_header h = Some s ∧ unmarshal_header s = Some h ∧ unmarshal_version s = Some (version_of h);
  absence_text a : ∃ s, marshal_absence a = Some s ∧ unmarshal_absence s = Some a ∧ s ≠ noDataPresentValue;
  digest_text h h' s s' : marshal_header h = Some s → marshal_header h' = Some s' → HeaderDigest s = HeaderDigest s' → s = s';
}.

(** ** The hash and its script *)

(** A key of Redis that holds a hash; a missing key holds no field. *)
Record HashKey : Type := mkHash {
  hash_fields : gmap string string;
  hash_lifetime : option Z;
}.

Definition missing_key : HashKey := mkHash ∅ None.

Record HashField : Type := mkField {
  field_Name : string;
  field_Value : string;
}.

Record HashDeltaWrite : Type := mkWrite {
  HeaderField : string;
  ExpectedMissing : bool;
  ExpectedDigest : string;
  Header : string;
  wr_Set : list HashField;
  wr_Del : list string;
  TTL : Z;
  Replace : bool;
}.

Inductive HashDeltaOutcome : Type :=
  | HashDeltaApplied
  | HashDeltaConflict (Current : option string).

(** [HSET key f v f v ...]: an odd number of arguments is an error. *)
Fixpoint hset (args : list string) (fields : gmap string string) : option (gmap string string) :=
  match args with
  | [] => Some fields
  | [_] => None
  | name :: value :: args => hset args (<[name := value]> fields)
  end.

Definition hdel (names : list string) (fields : gmap string string) : gmap string string :=
  foldl (λ fields name, delete name fields) fields names.

Definition chunk : nat := 256.

(** The script's two loops: the arguments taken [chunk] at a time, one call for
    each. *)
Fixpoint set_chunks (fuel : nat) (args : list string) (fields : gmap string string) : option (gmap string string) :=
  match args with
  | [] => Some fields
  | _ =>
      match fuel with
      | O => None
      | S fuel =>
          match hset (take chunk args) fields with
          | None => None
          | Some fields => set_chunks fuel (drop chunk args) fields
          end
      end
  end.

Fixpoint del_chunks (fuel : nat) (args : list string) (fields : gmap string string) : option (gmap string string) :=
  match args with
  | [] => Some fields
  | _ => match fuel with O => None | S fuel => del_chunks fuel (drop chunk args) (hdel (take chunk args) fields) end
  end.

Definition pairs (set : list HashField) : list string := set ≫= λ field, [field_Name field; field_Value field].

Section store.
Context `{HashText}.

Definition script_guard (write : HashDeltaWrite) (fields : gmap string string) : option HashDeltaOutcome :=
  let header := fields !! HeaderField write in
  if ExpectedMissing write then
    match header with Some header => Some (HashDeltaConflict (Some header)) | None => None end
  else
    match header with
    | None => Some (HashDeltaConflict None)
    | Some header =>
        if negb (HeaderDigest header =? ExpectedDigest write)%string then Some (HashDeltaConflict (Some header)) else None
    end.

(** [applyHashDeltaScript], which Redis runs atomically; a call inside it that
    fails stops it there, and is no outcome. *)
Definition apply_script (write : HashDeltaWrite) (key : HashKey) : option (HashDeltaOutcome * HashKey) :=
  match script_guard write (hash_fields key) with
  | Some conflict => Some (conflict, key)
  | None =>
      let key := if Replace write then missing_key else key in
      match set_chunks (length (pairs (wr_Set write))) (pairs (wr_Set write)) (hash_fields key) with
      | None => None
      | Some fields =>
          match del_chunks (length (wr_Del write)) (wr_Del write) fields with
          | None => None
          | Some fields =>
              let fields := <[HeaderField write := Header write]> fields in
              Some (HashDeltaApplied, mkHash fields (if 0 <? TTL write then Some (TTL write) else hash_lifetime key))
          end
      end
  end.

(** ** Reading *)

Definition corrupt (identity : PlanNoDataIdentity) : NoDataMemorySnapshot :=
  bare_snapshot identity NoDataMemoryTerminal 0 ReasonStateCorrupt.

Definition decodeNoDataHashHeader (raw : option string) (identity : PlanNoDataIdentity)
    : NoDataMemorySnapshot * option noDataHashHeader :=
  match raw with
  | None => (bare_snapshot identity NoDataMemoryUnreadable 0 ReasonStateSchemaUnsupported, None)
  | Some raw =>
      match unmarshal_version raw with
      | None => (corrupt identity, None)
      | Some version =>
          if negb (hv_Schema version =? executionNoDataSchema)%string || negb (bool_decide (hv_Identity version = identity))
             || (hv_Version version =? 0) then (corrupt identity, None)
          else if negb (NoDataMemoryReadable (hv_Version version)) then
            (bare_snapshot identity NoDataMemoryUnreadable (hv_Version version) ReasonStateSchemaUnsupported, None)
          else
            match unmarshal_header raw with
            | None => (corrupt identity, None)
            | Some header =>
                if hd_MarkerRevision header =? 0 then (corrupt identity, None)
                else
                  (mkSnapshot identity (hd_MarkerRevision header) (hd_ApplyVersion header) (hd_MemoryDigest header)
                     NoDataMemoryFound (hd_Version header) (hd_ScheduleRevision header) (hd_RosterVersion header) ""
                     (hd_PresentAsOf header) (hd_TrackingExhaustedAt header) [] "", Some header)
            end
      end
  end.

Definition decodeNoDataGroupValue (key value : string) (presentAsOf : Z) : option NoDataGroupMemory :=
  if (value =? noDataPresentValue)%string then
    if presentAsOf <=? 0 then None else Some (mkGroupMemory key presentAsOf 0 0)
  else
    match unmarshal_absence value with
    | None => None
    | Some absent =>
        if (av_LastSeen absent <? 0) || (av_FirstAbsent absent <? 0) || (av_SuppressedAt absent <? 0) then None
        else Some (mkGroupMemory key (av_LastSeen absent) (av_FirstAbsent absent) (av_SuppressedAt absent))
    end.

(** [strings.CutPrefix(name, "g:")]. *)
Definition cut_prefix (name : string) : option string :=
  match name with
  | String c (String d key) => if bool_decide (c = "g"%char) && bool_decide (d = ":"%char) then Some key else None
  | _ => None
  end.

Definition decode_field (presentAsOf : Z) (field : string * string) : option NoDataGroupMemory :=
  match cut_prefix field.1 with
  | None => None
  | Some key => if (key =? "")%string then None else decodeNoDataGroupValue key field.2 presentAsOf
  end.

Definition with_groups (groups : list NoDataGroupMemory) (sn : NoDataMemorySnapshot) : NoDataMemorySnapshot :=
  mkSnapshot (sn_Identity sn) (MarkerRevision sn) (PersistedApplyVersion sn) (PersistedMutationDigest sn) (Status sn)
    (SchemaVersion sn) (LastScheduleRevision sn) (sn_RosterVersion sn) (Representation sn) (PresentAsOf sn)
    (sn_TrackingExhaustedAt sn) groups (sn_ReasonCode sn).
Definition with_representation (representation : string) (sn : NoDataMemorySnapshot) : NoDataMemorySnapshot :=
  mkSnapshot (sn_Identity sn) (MarkerRevision sn) (PersistedApplyVersion sn) (PersistedMutationDigest sn) (Status sn)
    (SchemaVersion sn) (LastScheduleRevision sn) (sn_RosterVersion sn) representation (PresentAsOf sn)
    (sn_TrackingExhaustedAt sn) (sn_Groups sn) (sn_ReasonCode sn).

Definition decodeNoDataHash (fields : gmap string string) (identity : PlanNoDataIdentity) : NoDataMemorySnapshot :=
  match decodeNoDataHashHeader (fields !! noDataHeaderField) identity with
  | (snapshot, None) => snapshot
  | (snapshot, Some header) =>
      match mapM (decode_field (hd_PresentAsOf header)) (map_to_list (delete noDataHeaderField fields)) with
      | None => corrupt identity
      | Some groups => with_groups (stable_sort group_le groups) snapshot
      end
  end.

Definition named_from (snapshot : NoDataMemorySnapshot) (representation : string) : NoDataMemorySnapshot :=
  if (Status snapshot =? NoDataMemoryFound)%string then with_representation representation snapshot else snapshot.

Definition representationStamped (snapshot : NoDataMemorySnapshot) : NoDataMemorySnapshot :=
  if (Representation snapshot =? "")%string then with_representation NoDataRepresentationNone snapshot else snapshot.

(** [ValidateNoDataLoad] of the one item asked for and the one answered. *)
Definition validatedNoData (identity : PlanNoDataIdentity) (snapshot : NoDataMemorySnapshot) : NoDataMemorySnapshot :=
  if negb (bool_decide (sn_Identity snapshot = identity)) then corrupt identity
  else match validateNoDataSnapshot snapshot with Ok _ => snapshot | Err _ => corrupt identity end.

(** What a call meets outside the record: the route, the backend's capability, the
    key's own validity, and the two requests, the second of which can be carried
    out without its reply arriving. *)
Record Faults : Type := mkFaults {
  routeErr : bool;
  noHashBackend : bool;
  keyErr : bool;
  readErr : bool;
  replyLost : bool;
  requestLost : bool;
}.

Definition no_faults : Faults := mkFaults false false false false false false.

Definition loadOneNoDataHash (faults : Faults) (fields : gmap string string) (identity : PlanNoDataIdentity)
    : option NoDataMemorySnapshot :=
  if routeErr faults then Some (bare_snapshot identity NoDataMemoryUnavailable 0 ReasonRedisUnavailable)
  else if noHashBackend faults then None
  else if keyErr faults then Some (corrupt identity)
  else if readErr faults then Some (bare_snapshot identity NoDataMemoryUnavailable 0 ReasonRedisUnavailable)
  else if bool_decide (fields = ∅) then Some (bare_snapshot identity NoDataMemoryMissing 0 "")
  else Some (validatedNoData identity (named_from (decodeNoDataHash fields identity) NoDataRepresentationPerGroup)).

Definition loadOneNoData (faults : Faults) (fields : gmap string string) (identity : PlanNoDataIdentity) : NoDataMemorySnapshot :=
  match loadOneNoDataHash faults fields identity with
  | None => representationStamped (bare_snapshot identity NoDataMemoryMissing 0 "")
  | Some snapshot => representationStamped snapshot
  end.

(** ** Writing *)

Inductive StateVersionConflictKind : Type :=
  | StateVersionConflictMissing
  | StateVersionConflictRevisionMoved
  | StateVersionConflictRevisionReset
  | StateVersionConflictSameVersionOtherStatement
  | StateVersionConflictVersionIncomparable.

Record NoDataConflictFacts : Type := mkConflict {
  Kind : StateVersionConflictKind;
  Persisted : string;
  Proposed : string;
  ExpectedRevision : Z;
  StoredRevision : Z;
  cf_DerivedFrom : string;
}.

Inductive NoDataApplyItemResult : Type :=
  | NoDataApplied
  | NoDataAlreadyApplied
  | NoDataStale
  | NoDataConflict (facts : NoDataConflictFacts)
  | NoDataRetryable (reason : string)
  | NoDataRejected (reason : string) (size : option (Z * Z)).

Definition conflict (mu : PlanNoDataMutation) (kind : StateVersionConflictKind) (persisted : string) (storedRevision : Z)
    : NoDataApplyItemResult :=
  NoDataConflict (mkConflict kind persisted (mu_MemoryDigest mu) (mu_ExpectedMarkerRevision mu) storedRevision
                    (mu_DerivedFrom mu)).

Definition encode_value (v : NoDataGroupDelta) : option string :=
  match gd_Absent v with
  | None => Some noDataPresentValue
  | Some a => marshal_absence (mkAbsenceValue (ga_LastSeen a) (ga_FirstAbsent a) (ga_SuppressedAt a))
  end.

Definition group_field (key : string) : string := noDataGroupPrefix +:+ key.

Definition encode_field (v : NoDataGroupDelta) : option HashField :=
  match encode_value v with None => None | Some value => Some (mkField (group_field (gd_GroupKey v)) value) end.

Definition encodeNoDataDelta (mu : PlanNoDataMutation) : option (list HashField * list string) :=
  match mapM encode_field (mu_Set mu) with
  | None => None
  | Some set => Some (set, group_field <$> mu_Del mu)
  end.

(** What the header read before the write decides: an answer at once, or the
    revision the write leaves behind. *)
Definition classify (mu : PlanNoDataMutation) (expectedHeader : option string) : NoDataApplyItemResult + Z :=
  match expectedHeader with
  | Some raw =>
      let previous := (decodeNoDataHashHeader (Some raw) (mu_Identity mu)).1 in
      if (Status previous =? NoDataMemoryTerminal)%string then inl (NoDataRejected (sn_ReasonCode previous) None)
      else if (Status previous =? NoDataMemoryUnreadable)%string then inl (NoDataRejected ReasonStateSchemaUnsupported None)
      else
        match CompareApplyVersion (PersistedApplyVersion previous) (mu_ApplyVersion mu) with
        | ApplyVersionPersistedNewer => inl NoDataStale
        | ApplyVersionEqual =>
            if (PersistedMutationDigest previous =? mu_MemoryDigest mu)%string then inl NoDataAlreadyApplied
            else inl (conflict mu StateVersionConflictSameVersionOtherStatement (PersistedMutationDigest previous)
                        (MarkerRevision previous))
        | ApplyVersionPersistedOlder =>
            if negb (ReplacesWholeRecord mu) && negb (MarkerRevision previous =? mu_ExpectedMarkerRevision mu) then
              inl (conflict mu
                     (if MarkerRevision previous <? mu_ExpectedMarkerRevision mu then StateVersionConflictRevisionReset
                      else StateVersionConflictRevisionMoved)
                     (PersistedMutationDigest previous) (MarkerRevision previous))
            else if ReplacesWholeRecord mu then
              inl (conflict mu StateVersionConflictRevisionMoved (PersistedMutationDigest previous) (MarkerRevision previous))
            else inr (u64 (MarkerRevision previous + 1))
        end
  | None =>
      if negb (mu_ExpectedMarkerRevision mu =? 0) && negb (ReplacesWholeRecord mu) then
        inl (conflict mu StateVersionConflictMissing "" 0)
      else inr 1
  end.

Definition header_of (mu : PlanNoDataMutation) (revision : Z) : noDataHashHeader :=
  mkHeader executionNoDataSchema (mu_SchemaVersion mu) (mu_Identity mu) revision (mu_ApplyVersion mu) (mu_MemoryDigest mu)
    (mu_ScheduleRevision mu) (mu_RosterVersion mu) (mu_PresentAsOf mu) (mu_TrackingExhaustedAt mu).

(** The write the call sends, when it sends one. *)
Definition build_write (mu : PlanNoDataMutation) (lifetime : Z) (expectedHeader : option string) (revision : Z)
    : NoDataApplyItemResult + HashDeltaWrite :=
  match marshal_header (header_of mu revision) with
  | None => inl (NoDataRejected ReasonStateCorrupt None)
  | Some header =>
      match encodeNoDataDelta mu with
      | None => inl (NoDataRejected ReasonStateCorrupt None)
      | Some (set, deleted) =>
          inr (mkWrite noDataHeaderField (bool_decide (expectedHeader = None))
                 (match expectedHeader with Some raw => HeaderDigest raw | None => "" end)
                 header set deleted lifetime (ReplacesWholeRecord mu))
      end
  end.

Definition raceConflictKind (current : option string) (mu : PlanNoDataMutation) : StateVersionConflictKind :=
  if ReplacesWholeRecord mu then StateVersionConflictRevisionMoved
  else
    match current with
    | None | Some EmptyString => if mu_ExpectedMarkerRevision mu =? 0 then StateVersionConflictRevisionMoved else StateVersionConflictMissing
    | Some raw =>
        match unmarshal_header raw with
        | None => StateVersionConflictVersionIncomparable
        | Some header =>
            if mu_ExpectedMarkerRevision mu <? hd_MarkerRevision header then StateVersionConflictRevisionMoved
            else if hd_MarkerRevision header <? mu_ExpectedMarkerRevision mu then StateVersionConflictRevisionReset
            else StateVersionConflictSameVersionOtherStatement
        end
    end.

Definition currentMemoryDigest (current : option string) : string :=
  match current ≫= unmarshal_header with None => "" | Some header => hd_MemoryDigest header end.
Definition currentMarkerRevision (current : option string) : Z :=
  match current ≫= unmarshal_header with None => 0 | Some header => hd_MarkerRevision header end.

Variable statement_digest : PlanNoDataMutation → option string.
Variable MaxNoDataGroups : Z.

(** What the call decides before it touches the store. *)
Definition preflight (faults : Faults) (mu : PlanNoDataMutation) : option NoDataApplyItemResult :=
  if negb (is_ok (ValidateDigest statement_digest mu)) then Some (NoDataRejected ReasonStateCorrupt None)
  else if MaxNoDataGroups <? mu_GroupCount mu then
    Some (NoDataRejected ReasonStateBudgetExceeded (Some (mu_GroupCount mu, MaxNoDataGroups)))
  else if keyErr faults then Some (NoDataRejected ReasonStateCorrupt None)
  else if routeErr faults then Some (NoDataRetryable ReasonRedisUnavailable)
  else if noHashBackend faults then Some (NoDataRejected ReasonBackendCapabilityMissing None)
  else if readErr faults then Some (NoDataRetryable ReasonRedisUnavailable)
  else None.

(** The write prepared from the header that was read. *)
Definition prepare (faults : Faults) (mu : PlanNoDataMutation) (lifetime : Z) (expectedHeader : option string)
    : NoDataApplyItemResult + HashDeltaWrite :=
  match preflight faults mu with
  | Some item => inl item
  | None =>
      match classify mu expectedHeader with
      | inl item => inl item
      | inr revision => build_write mu lifetime expectedHeader revision
      end
  end.

(** The write sent: the record as the script leaves it, and the answer, which is
    retryable when no reply arrives. *)
Definition send (faults : Faults) (mu : PlanNoDataMutation) (write : HashDeltaWrite) (key : HashKey)
    : NoDataApplyItemResult * HashKey :=
  if requestLost faults then (NoDataRetryable ReasonRedisUnavailable, key)
  else
    match apply_script write key with
    | None => (NoDataRetryable ReasonRedisUnavailable, key)
    | Some (outcome, key) =>
        if replyLost faults then (NoDataRetryable ReasonRedisUnavailable, key)
        else
          match outcome with
          | HashDeltaConflict current =>
              (conflict mu (raceConflictKind current mu) (currentMemoryDigest current) (currentMarkerRevision current), key)
          | HashDeltaApplied => (NoDataApplied, key)
          end
    end.

(** [read] is the key when the header is read, [key] when the script runs:
    anything can be written between the two. *)
Definition applyOneNoData (faults : Faults) (mu : PlanNoDataMutation) (lifetime : Z) (read key : HashKey)
    : NoDataApplyItemResult * HashKey :=
  match prepare faults mu lifetime (hash_fields read !! noDataHeaderField) with
  | inl item => (item, key)
  | inr write => send faults mu write key
  end.
End store.
