(* ===== verification/NoDataStoreSpec.v ===== *)
(** The no-data memory's store: the script's chunked calls write what one call
    would, a record read back is the memory that was stated, and a write that was
    settled once stays settled. *)
From S2P Require Import Prelude Reason NoDataMemory NoDataMemorySpec NoDataStore.

Open Scope Z_scope.

(** ** The script *)

(** The record after the fields, whatever the number of calls. *)
Definition write_fields (set : list HashField) (fields : gmap string string) : gmap string string :=
  foldl (λ fields field, <[field_Name field := field_Value field]> fields) fields set.

Lemma hset_pairs set fields : hset (pairs set) fields = Some (write_fields set fields).
Proof. revert fields. induction set as [|field set IH]; intros fields; [done|]. apply IH. Qed.

Lemma pairs_length set : length (pairs set) = (2 * length set)%nat.
Proof. induction set as [|field set IH]; [done|]. change (pairs (field :: set)) with (field_Name field :: field_Value field :: pairs set). simpl. lia. Qed.

Lemma take_pairs n set : take (2 * n) (pairs set) = pairs (take n set).
Proof.
  revert set. induction n as [|n IH]; intros [|field set]; [done..|by rewrite take_nil|].
  replace (2 * S n)%nat with (S (S (2 * n))) by lia. cbn [take]. change (pairs (field :: set)) with (field_Name field :: field_Value field :: pairs set).
  cbn [take]. by rewrite IH.
Qed.

Lemma drop_pairs n set : drop (2 * n) (pairs set) = pairs (drop n set).
Proof.
  revert set. induction n as [|n IH]; intros [|field set]; [done..|by rewrite drop_nil|].
  replace (2 * S n)%nat with (S (S (2 * n))) by lia. change (pairs (field :: set)) with (field_Name field :: field_Value field :: pairs set).
  cbn [drop]. by rewrite IH.
Qed.

(** No pair is ever split between two calls: the chunk is even. *)
Lemma set_chunks_pairs fuel set fields :
  (length (pairs set) ≤ fuel)%nat → set_chunks fuel (pairs set) fields = Some (write_fields set fields).
Proof.
  revert set fields. induction fuel as [|fuel IH]; intros set fields Hfuel.
  { destruct set; [done|]. rewrite pairs_length in Hfuel. simpl in Hfuel. lia. }
  destruct set as [|field set]; [done|]. cbn [set_chunks].
  destruct (pairs (field :: set)) as [|a args] eqn:Hp; [done|]. rewrite <- Hp in *. clear Hp. change chunk with (2 * 128)%nat.
  rewrite take_pairs, hset_pairs, drop_pairs, IH.
  - f_equal. unfold write_fields. by rewrite <- foldl_app, take_drop.
  - rewrite pairs_length in *. rewrite length_drop. simpl length in *. lia.
Qed.

Lemma del_chunks_hdel fuel names fields :
  (length names ≤ fuel)%nat → del_chunks fuel names fields = Some (hdel names fields).
Proof.
  revert names fields. induction fuel as [|fuel IH]; intros names fields Hfuel.
  { destruct names; [done|]. simpl in Hfuel. lia. }
  destruct names as [|name names]; [done|]. cbn [del_chunks]. change chunk with (S 255). rewrite IH.
  - f_equal. unfold hdel. by rewrite <- foldl_app, take_drop.
  - rewrite length_drop. simpl in *. lia.
Qed.

Lemma write_fields_lookup set fields name :
  write_fields set fields !! name
  = match list_find (λ x, field_Name x = name) (reverse set) with Some (_, x) => Some (field_Value x) | None => fields !! name end.
Proof.
  unfold write_fields. induction set as [|x set IH] using rev_ind; [done|]. rewrite foldl_snoc, reverse_snoc. cbn [list_find].
  case_decide as Hx; [by rewrite <- Hx, lookup_insert_eq|]. rewrite lookup_insert_ne, IH by done.
  by destruct (list_find _ _) as [[]|].
Qed.

Lemma hdel_lookup names fields name :
  hdel names fields !! name = if bool_decide (name ∈ names) then None else fields !! name.
Proof. apply foldl_delete_lookup. Qed.

Section store.
Context `{HashText}.

Lemma script_guard_Some write fields o :
  script_guard write fields = Some o → o = HashDeltaConflict (fields !! HeaderField write).
Proof. unfold script_guard. repeat case_match; congruence. Qed.

Lemma script_guard_None write fields :
  script_guard write fields = None →
  (fields !! HeaderField write = None ↔ ExpectedMissing write = true) ∧
  (∀ header, fields !! HeaderField write = Some header → HeaderDigest header = ExpectedDigest write).
Proof.
  unfold script_guard. repeat case_match; intros; simplify_eq; split; intros; simplify_eq; try done.
  by apply String.eqb_eq, negb_false_iff.
Qed.

Definition written (write : HashDeltaWrite) (key : HashKey) : HashKey :=
  let key := if Replace write then missing_key else key in
  mkHash (<[HeaderField write := Header write]> (hdel (wr_Del write) (write_fields (wr_Set write) (hash_fields key))))
    (if 0 <? TTL write then Some (TTL write) else hash_lifetime key).

Lemma apply_script_eq write key :
  apply_script write key = Some (match script_guard write (hash_fields key) with
                                 | Some conflict => (conflict, key)
                                 | None => (HashDeltaApplied, written write key) end).
Proof.
  unfold apply_script. destruct (script_guard write (hash_fields key)); [done|]. by rewrite set_chunks_pairs, del_chunks_hdel.
Qed.

(** C38: the write script always ends with an answer, for a delta of any number of
    fields: its calls of 256 arguments cover every pair and every name, none is
    given half a pair, and either the header is the one expected and the record is
    what one unbounded call would leave, or nothing of it changed. *)
Theorem script_terminates write key :
  ∃ outcome key', apply_script write key = Some (outcome, key') ∧
    (outcome = HashDeltaApplied →
     (hash_fields key !! HeaderField write = None ↔ ExpectedMissing write = true) ∧
     (∀ header, hash_fields key !! HeaderField write = Some header → HeaderDigest header = ExpectedDigest write) ∧
     ∀ field, hash_fields key' !! field =
       if bool_decide (field = HeaderField write) then Some (Header write)
       else if bool_decide (field ∈ wr_Del write) then None
       else match list_find (λ x, field_Name x = field) (reverse (wr_Set write)) with
            | Some (_, x) => Some (field_Value x)
            | None => if Replace write then None else hash_fields key !! field
            end) ∧
    (outcome ≠ HashDeltaApplied → key' = key ∧ outcome = HashDeltaConflict (hash_fields key !! HeaderField write)).
Proof.
  rewrite apply_script_eq. destruct (script_guard write (hash_fields key)) as [o|] eqn:Hg; eexists _, _; (split; [done|]).
  - apply script_guard_Some in Hg as ->. done.
  - apply script_guard_None in Hg as [Hm Hd]. split; [|done]. intros _. split_and!; [done..|]. intros field.
    cbn [hash_fields written]. case_bool_decide as Hf; [by rewrite Hf, lookup_insert_eq|].
    rewrite lookup_insert_ne, hdel_lookup, write_fields_lookup by done. by destruct (Replace write).
Qed.

(** ** A record and what it reads as *)

Context `{!HashTextLaws}.

Definition header_ok (h : noDataHashHeader) : Prop :=
  hd_Schema h = executionNoDataSchema ∧ hd_Version h = WrittenNoDataMemorySchema ∧ hd_MarkerRevision h ≠ 0 ∧
  hd_MemoryDigest h ≠ ""%string ∧ version_valid (hd_ApplyVersion h) = true ∧ hd_ScheduleRevision h ≠ ""%string ∧
  hd_RosterVersion h ≠ ""%string ∧ 0 ≤ hd_PresentAsOf h.

Definition values_text (values : gmap string NoDataGroupDelta) : gmap string string :=
  kmap group_field (omap encode_value values).

Record record_of (h : noDataHashHeader) (memory : list NoDataGroupMemory) (fields : gmap string string) : Prop := mkRecord {
  rc_memory : canonical memory;
  rc_suppressed : Forall (λ g, 0 ≤ gm_SuppressedAt g) memory;
  rc_printable : printable h;
  rc_header : header_ok h;
  rc_text : ∃ raw, marshal_header h = Some raw ∧ fields !! noDataHeaderField = Some raw;
  rc_body : delete noDataHeaderField fields = values_text (stored_values memory (hd_PresentAsOf h));
}.

Definition snapshot_of (h : noDataHashHeader) (memory : list NoDataGroupMemory) : NoDataMemorySnapshot :=
  mkSnapshot (hd_Identity h) (hd_MarkerRevision h) (hd_ApplyVersion h) (hd_MemoryDigest h) NoDataMemoryFound
    (hd_Version h) (hd_ScheduleRevision h) (hd_RosterVersion h) NoDataRepresentationPerGroup (hd_PresentAsOf h)
    (hd_TrackingExhaustedAt h) memory "".

#[local] Instance group_field_inj : Inj (=) (=) group_field.
Proof. intros a b H'. by injection H'. Qed.

Lemma group_field_header key : noDataHeaderField ≠ group_field key.
Proof. discriminate. Qed.

Lemma encode_value_total v : ∃ s, encode_value v = Some s.
Proof. unfold encode_value. destruct (gd_Absent v); [|eauto]. destruct (absence_text (mkAbsenceValue (ga_LastSeen n) (ga_FirstAbsent n) (ga_SuppressedAt n))) as (s & Hs & _). eauto. Qed.

Lemma decode_encoded g p s :
  storable g → 0 ≤ gm_SuppressedAt g → encode_value (noDataGroupValue g p) = Some s →
  decode_field p (group_field (gm_GroupKey g), s) = Some g.
Proof.
  intros (Hk & Hl & Hf & _) Hs. unfold decode_field, noDataGroupValue. cbn [fst snd].
  change (cut_prefix (group_field (gm_GroupKey g))) with (Some (gm_GroupKey g)). cbn beta iota.
  rewrite (proj2 (String.eqb_neq _ _) Hk). unfold encode_value, decodeNoDataGroupValue. destruct (_ && _) eqn:Hp; cbn [gd_Absent ga_LastSeen ga_FirstAbsent ga_SuppressedAt].
  - intros [= <-]. change (noDataPresentValue =? noDataPresentValue)%string with true. cbn match. breflect.
    destruct (Z.leb_spec p 0); [lia|]. f_equal. destruct g. simpl in *. congruence.
  - intros He. destruct (absence_text (mkAbsenceValue (gm_LastSeen g) (gm_FirstAbsent g) (gm_SuppressedAt g))) as (s' & Hm & Hu & Hne).
    rewrite He in Hm. injection Hm as <-. rewrite (proj2 (String.eqb_neq _ _) Hne), Hu. cbn [av_LastSeen av_FirstAbsent av_SuppressedAt].
    destruct (Z.ltb_spec (gm_LastSeen g) 0), (Z.ltb_spec (gm_FirstAbsent g) 0), (Z.ltb_spec (gm_SuppressedAt g) 0); try lia. by destruct g.
Qed.

Lemma map_to_list_values memory p :
  canonical memory →
  ∃ fields, map_to_list (values_text (stored_values memory p)) ≡ₚ fields ∧
    Forall2 (λ field g, field.1 = group_field (gm_GroupKey g) ∧ encode_value (noDataGroupValue g p) = Some field.2) fields memory.
Proof.
  intros Hc. pose proof (sorted_key_nodup _ _ (can_sorted _ Hc)) as Hnd.
  set (text g := match encode_value (noDataGroupValue g p) with Some s => s | None => "" end).
  assert (∀ g, encode_value (noDataGroupValue g p) = Some (text g)) as Htext.
  { intros g. unfold text. by destruct (encode_value_total (noDataGroupValue g p)) as [s ->]. }
  exists ((λ g, (group_field (gm_GroupKey g), text g)) <$> memory). split.
  - apply NoDup_Permutation; [apply NoDup_map_to_list| |].
    + apply (NoDup_fmap_1 fst). rewrite <- list_fmap_compose. change (NoDup ((group_field ∘ gm_GroupKey) <$> memory)).
      rewrite list_fmap_compose. by apply NoDup_fmap_2; [apply _|].
    + intros [field s]. rewrite elem_of_map_to_list. unfold values_text. rewrite lookup_kmap_Some by apply _. split.
      * intros (key & -> & Hv). rewrite lookup_omap in Hv. destruct (stored_values memory p !! key) as [v|] eqn:Hk; [|done].
        apply stored_values_lookup in Hk as (g & Hg & <- & ->); [|done]. simpl in Hv. rewrite Htext in Hv. injection Hv as <-.
        by apply (list_elem_of_fmap_2 (λ g, (group_field (gm_GroupKey g), text g))).
      * intros (g & [= -> ->] & Hg)%list_elem_of_fmap. exists (gm_GroupKey g). split; [done|]. rewrite lookup_omap.
        assert (stored_values memory p !! gm_GroupKey g = Some (noDataGroupValue g p)) as -> by (apply stored_values_lookup; eauto).
        apply Htext.
  - apply Forall2_fmap_l, Forall_Forall2_diag, Forall_true. intros g. split; [done|apply Htext].
Qed.

Lemma mapM_permutation {A B} (f : A → option B) l l' k :
  l ≡ₚ l' → mapM f l' = Some k → ∃ k', mapM f l = Some k' ∧ k' ≡ₚ k.
Proof.
  intros Hp. setoid_rewrite mapM_Some. intros Hf. apply symmetry in Hp.
  destruct (Permutation_Forall2 Hp Hf) as (k' & Hk & Hf'). by exists k'.
Qed.

Lemma body_decodes memory p :
  canonical memory → Forall (λ g, 0 ≤ gm_SuppressedAt g) memory →
  ∃ groups, mapM (decode_field p) (map_to_list (values_text (stored_values memory p))) = Some groups ∧
    stable_sort group_le groups = memory.
Proof.
  intros Hc Hs. destruct (map_to_list_values memory p Hc) as (fields & Hp & Hf).
  destruct (mapM_permutation (decode_field p) _ fields memory Hp) as (groups & Hg & Hgp).
  { apply mapM_Some. pose proof (can_storable _ Hc) as Hst. rewrite Forall_forall in Hst, Hs.
    apply Forall2_same_length_lookup. split; [by apply Forall2_length in Hf|].
    intros i [name s] g Hfi Hgi. destruct (Forall2_lookup_lr _ _ _ _ _ _ Hf Hfi Hgi) as [Hk He]. simpl in Hk, He. subst name.
    apply list_elem_of_lookup_2 in Hgi. exact (decode_encoded g p s (Hst g Hgi) (Hs g Hgi) He). }
  exists groups. split; [done|]. symmetry in Hgp.
  pose proof (proj2 (canonicalNoDataMemory_Ok groups memory) (conj Hc Hgp)) as Hcan.
  unfold canonicalNoDataMemory in Hcan. rewrite seq_Ok in Hcan. destruct Hcan as [_ [= <-]]. done.
Qed.

Lemma validate_canonical seen previous memory :
  canonical memory → (∀ k, k ∈ seen → Forall (λ g, str_ltb k (gm_GroupKey g) = true) memory) →
  (∀ k, previous = Some k → k ∈ seen) → validate_groups seen previous memory = Ok tt.
Proof.
  intros [Hsorted Hst]. revert seen previous. induction Hsorted as [|g memory Hsorted IH Hg]; intros seen previous Hseen Hprev; [done|].
  apply Forall_cons in Hst as [Hg' Hst]. apply storable_checks in Hg' as (Hk & Hn & Hz). cbn [validate_groups].
  rewrite !guard_Ok, Hk, Hn, Hz. split_and!; try done.
  - apply bool_decide_eq_false. intros Hin. apply Hseen, Forall_cons in Hin as [Hin _]. apply str_ltb_lt in Hin. tauto.
  - destruct previous as [k|]; [|done]. specialize (Hseen k (Hprev k eq_refl)). apply Forall_cons in Hseen as [Hlt _].
    apply str_ltb_ge. by apply str_ltb_lt in Hlt as [].
  - apply IH; [done| |set_solver]. intros k [->%elem_of_singleton|Hk']%elem_of_union; [exact Hg|].
    specialize (Hseen k Hk'). by apply Forall_cons in Hseen as [_ ?].
Qed.

Lemma found_valid h memory :
  header_ok h → canonical memory → validateNoDataSnapshot (snapshot_of h memory) = Ok tt.
Proof.
  intros (_ & Hv & Hr & Hd & Ha & Hs & Hro & Hp) Hc. unfold validateNoDataSnapshot, snapshot_of.
  cbn -[validateNoDataGroups version_valid check_present]. rewrite Hv.
  rewrite !guard_Ok, seq_Ok, Ha, (proj2 (Z.eqb_neq _ _) Hr), (proj2 (String.eqb_neq _ _) Hd), (proj2 (String.eqb_neq _ _) Hs),
    (proj2 (String.eqb_neq _ _) Hro), (proj2 (Z.ltb_ge _ _) Hp).
  split_and!; try done. apply validate_canonical; [done|set_solver|done].
Qed.

(** A record reads back as the memory it holds. *)
Lemma record_loads h memory fields :
  record_of h memory fields → loadOneNoData no_faults fields (hd_Identity h) = snapshot_of h memory.
Proof.
  intros [Hc Hsup Hpr Hok (raw & Hm & Hraw) Hbody]. pose proof Hok as (Hs & Hv & Hr & _).
  destruct (header_text h Hpr) as (raw' & Hm' & Hu & Huv). rewrite Hm in Hm'. injection Hm' as <-.
  unfold loadOneNoData, loadOneNoDataHash. cbn [routeErr noHashBackend keyErr readErr no_faults].
  rewrite bool_decide_eq_false_2 by (intros ->; by rewrite lookup_empty in Hraw).
  assert (decodeNoDataHash fields (hd_Identity h) = with_representation "" (snapshot_of h memory)) as ->.
  { unfold decodeNoDataHash, decodeNoDataHashHeader. rewrite Hraw, Huv, Hu. unfold version_of. cbn [hv_Schema hv_Version hv_Identity].
    rewrite Hs, Hv, bool_decide_eq_true_2, (proj2 (Z.eqb_neq _ _) Hr) by done. cbn -[mapM stable_sort].
    destruct (body_decodes memory (hd_PresentAsOf h) Hc Hsup) as (groups & Hg & Hsort). rewrite Hbody, Hg, Hsort.
    unfold with_groups, snapshot_of, with_representation. cbn. by rewrite Hv. }
  unfold named_from. cbn [Status with_representation snapshot_of]. change ((NoDataMemoryFound =? NoDataMemoryFound)%string) with true. cbn match.
  change (with_representation NoDataRepresentationPerGroup (with_representation "" (snapshot_of h memory))) with (snapshot_of h memory).
  unfold validatedNoData. rewrite bool_decide_eq_true_2 by done. cbn [negb]. by rewrite found_valid.
Qed.

(** ** A write *)

Lemma encode_fields values set fields :
  mapM encode_field values = Some set →
  ∀ m, delete noDataHeaderField fields = values_text m →
  delete noDataHeaderField (write_fields set fields) = values_text (foldl (λ m v, <[gd_GroupKey v := v]> m) m values).
Proof.
  intros Hset%mapM_Some. revert fields. induction Hset as [|v x values set Hx Hset IH]; intros fields m Hm; [done|].
  cbn [foldl write_fields]. apply (IH (<[field_Name x := field_Value x]> fields)).
  unfold encode_field in Hx. destruct (encode_value v) as [value|] eqn:Hv; [|done]. injection Hx as <-. cbn [field_Name field_Value].
  rewrite delete_insert_ne by apply group_field_header. rewrite Hm. unfold values_text.
  rewrite (omap_insert_Some encode_value m _ _ value) by done. by rewrite (kmap_insert group_field).
Qed.

Lemma delete_fields keys fields m :
  delete noDataHeaderField fields = values_text m →
  delete noDataHeaderField (hdel (group_field <$> keys) fields) = values_text (foldl (λ m k, delete k m) m keys).
Proof.
  revert fields m. induction keys as [|key keys IH]; intros fields m Hm; [done|]. cbn [foldl hdel fmap list_fmap].
  apply (IH (delete (group_field key) fields)). rewrite delete_delete, Hm. unfold values_text. by rewrite omap_delete, (kmap_delete group_field).
Qed.

(** The delta of a built statement, on the record it was derived from, leaves the
    values of the memory it states. *)
Lemma delta_body memory_digest statement_digest u memory loaded mu set del fields :
  built memory_digest statement_digest u memory loaded mu → encodeNoDataDelta mu = Some (set, del) →
  delete noDataHeaderField fields = values_text (stored_values (base u loaded) (up_LoadedPresentAsOf u)) →
  delete noDataHeaderField (hdel del (write_fields set fields)) = values_text (stored_values memory (mu_PresentAsOf mu)).
Proof.
  intros [Hm _ Hl _ _ _ (d & s & -> & _)] He Hbody. unfold encodeNoDataDelta in He. rewrite mutation_of_eq in *.
  cbn [mu_Set mu_Del mu_PresentAsOf set_mutation_digest set_memory_digest] in *.
  destruct (mapM _ _) as [set'|] eqn:Hset; [|done]. injection He as <- <-.
  rewrite <- (delta_applies memory (base u loaded) (up_PresentAsOf u) (up_LoadedPresentAsOf u) Hm (base_canonical u loaded Hl)).
  apply delete_fields. by apply encode_fields.
Qed.

(** What the statement's header says. *)
Lemma built_header memory_digest statement_digest u memory loaded mu revision :
  built memory_digest statement_digest u memory loaded mu → revision ≠ 0 → header_ok (header_of mu revision).
Proof.
  intros Hb Hr. pose proof Hb as [_ Hmp _ _ Hu Hv (d & s & -> & Hne & _)].
  apply check_update_Ok in Hu as (Hp & _); [|done].
  destruct (statement_named u (mutation_of u memory loaded)) as [(? & ? & ? & ? & ?) _]; try done.
  rewrite mutation_of_eq in *. unfold header_ok. cbn. split_and!; done || lia.
Qed.

Lemma encode_total mu : ∃ set del, encodeNoDataDelta mu = Some (set, del).
Proof.
  unfold encodeNoDataDelta. assert (is_Some (mapM encode_field (mu_Set mu))) as [set ->].
  { apply mapM_is_Some. apply Forall_true. intros v. change (is_Some (encode_field v)). destruct (encode_value_total v) as [s Hs]. unfold encode_field. rewrite Hs. eauto. }
  eauto.
Qed.

(** The write the call builds, when the header is text. *)
Definition write_of (mu : PlanNoDataMutation) (lifetime : Z) (expected : option string) (revision : Z) (write : HashDeltaWrite) : Prop :=
  ∃ header set del, marshal_header (header_of mu revision) = Some header ∧ encodeNoDataDelta mu = Some (set, del) ∧
    write = mkWrite noDataHeaderField (bool_decide (expected = None))
              (match expected with Some raw => HeaderDigest raw | None => "" end) header set del lifetime (ReplacesWholeRecord mu).

Lemma build_write_of mu lifetime expected revision write :
  build_write mu lifetime expected revision = inr write ↔ write_of mu lifetime expected revision write.
Proof.
  unfold build_write, write_of. destruct (marshal_header _) as [header|]; [|naive_solver].
  destruct (encodeNoDataDelta mu) as [[set del]|]; naive_solver.
Qed.

Lemma build_write_total mu lifetime expected revision :
  printable (header_of mu revision) → ∃ write, build_write mu lifetime expected revision = inr write.
Proof.
  intros (raw & Hm & _)%header_text. destruct (encode_total mu) as (set & del & He). eexists. apply build_write_of.
  exists raw, set, del. done.
Qed.

(** Written over the record its delta was taken against, or over nothing when it
    states the whole memory, the write leaves the record of that memory. *)
Lemma write_records memory_digest statement_digest u memory loaded mu lifetime expected revision write key :
  built memory_digest statement_digest u memory loaded mu → Forall (λ g, 0 ≤ gm_SuppressedAt g) memory →
  printable (header_of mu revision) → revision ≠ 0 → write_of mu lifetime expected revision write →
  (ReplacesWholeRecord mu = false →
   delete noDataHeaderField (hash_fields key) = values_text (stored_values loaded (up_LoadedPresentAsOf u))) →
  record_of (header_of mu revision) memory (hash_fields (written write key)).
Proof.
  intros Hb Hs Hpr Hr (header & set & del & Hm & He & ->) Hbody. split; [apply Hb|done|done|by eapply built_header| |].
  - exists header. split; [done|]. unfold written. cbn [hash_fields HeaderField Header]. by rewrite lookup_insert_eq.
  - unfold written. cbn [hash_fields HeaderField Header wr_Set wr_Del Replace]. rewrite delete_insert_eq.
    assert (mu_DerivedFrom mu = up_DerivedFrom u) as Hd by (destruct Hb as [_ _ _ _ _ _ (d & s & -> & _)]; by rewrite mutation_of_eq).
    apply (delta_body _ _ _ _ _ _ _ _ _ Hb He). unfold base, ReplacesWholeRecord in *. rewrite Hd in *.
    destruct (negb _); [|by apply Hbody]. cbn [hash_fields missing_key]. unfold stored_values, values_text. cbn [foldl].
    by rewrite delete_empty, omap_empty, kmap_empty.
Qed.
End store.
