(* ===== verification/NoDataWriters.v ===== *)
(** Any number of workers over one Plan's record: each loads, builds a statement
    from what it loaded, reads the header and sends its script, at any time and as
    often as it is delivered, and Redis expires the record whenever its lifetime runs
    out. As long as no delta of a record that expired is applied to the one begun after
    it, the record is the memory of the last statement applied since it began, and
    those statements are one chain. *)
From S2P Require Import Prelude Reason NoDataMemory NoDataMemorySpec NoDataStore NoDataStoreSpec.

Open Scope Z_scope.

(** ** Versions *)

Definition older (a b : ApplyVersion) : Prop := CompareApplyVersion a b = ApplyVersionPersistedOlder.

Lemma older_iff a b :
  older a b ↔
  StateApplyEpoch a < StateApplyEpoch b ∨
  StateApplyEpoch a = StateApplyEpoch b ∧
    (ver_EvaluationTime a < ver_EvaluationTime b ∨
     ver_EvaluationTime a = ver_EvaluationTime b ∧ str_ltb (SlotDigest a) (SlotDigest b) = true).
Proof.
  unfold older, CompareApplyVersion.
  destruct (Z.ltb_spec (StateApplyEpoch a) (StateApplyEpoch b)), (Z.ltb_spec (StateApplyEpoch b) (StateApplyEpoch a)),
    (Z.eqb_spec (StateApplyEpoch a) (StateApplyEpoch b)), (Z.ltb_spec (ver_EvaluationTime a) (ver_EvaluationTime b)),
    (Z.ltb_spec (ver_EvaluationTime b) (ver_EvaluationTime a)), (str_ltb (SlotDigest a) (SlotDigest b)) eqn:Hl,
    (str_ltb (SlotDigest b) (SlotDigest a)); simpl; split; intros; try done; try lia; intuition (try lia; congruence).
Qed.

#[export] Instance older_trans : Transitive older.
Proof.
  intros a b c. rewrite !older_iff. intros Hab Hbc.
  destruct Hab as [|[? [|[? Hab]]]], Hbc as [|[? [|[? Hbc]]]]; try lia.
  right. split; [lia|]. right. split; [lia|]. by eapply str_ltb_trans.
Qed.

Lemma older_newer a b : older a b ↔ CompareApplyVersion b a = ApplyVersionPersistedNewer.
Proof.
  rewrite older_iff. unfold CompareApplyVersion.
  destruct (Z.ltb_spec (StateApplyEpoch a) (StateApplyEpoch b)), (Z.ltb_spec (StateApplyEpoch b) (StateApplyEpoch a)),
    (Z.eqb_spec (StateApplyEpoch b) (StateApplyEpoch a)), (Z.ltb_spec (ver_EvaluationTime a) (ver_EvaluationTime b)),
    (Z.ltb_spec (ver_EvaluationTime b) (ver_EvaluationTime a)), (str_ltb (SlotDigest a) (SlotDigest b)) eqn:Hl,
    (str_ltb (SlotDigest b) (SlotDigest a)) eqn:Hl'; simpl; split; intros; try done; try lia; try (intuition (try lia; congruence)).
  pose proof (str_ltb_trans _ _ _ Hl Hl') as Hirr%str_ltb_lt. tauto.
Qed.

Lemma same_version a : CompareApplyVersion a a = ApplyVersionEqual.
Proof.
  unfold CompareApplyVersion. rewrite !Z.ltb_irrefl, Z.eqb_refl. simpl.
  assert (str_ltb (SlotDigest a) (SlotDigest a) = false) as -> by (by apply str_ltb_ge). done.
Qed.

(** ** The system *)

Definition statement : Type := PlanNoDataMutation * list NoDataGroupMemory.

(** The record's key; and, of the history, what no worker reads: how many times the
    record has expired ([sy_life]), the statements applied since ([sy_applied]) and how
    many were before ([sy_past]), each load, statement and request with the life it was
    made in, and whether a delta of an earlier life was ever applied ([sy_strayed]). *)
Record System : Type := mkSystem {
  sy_key : HashKey;
  sy_life : nat;
  sy_loads : list (nat * NoDataMemorySnapshot);
  sy_statements : list (nat * statement);
  sy_requests : list (nat * (statement * HashDeltaWrite));
  sy_applied : list statement;
  sy_past : nat;
  sy_strayed : bool;
}.

Definition missing_snapshot (identity : PlanNoDataIdentity) : NoDataMemorySnapshot :=
  with_representation NoDataRepresentationNone (bare_snapshot identity NoDataMemoryMissing 0 "").

Section writers.
Context `{!HashText, !HashTextLaws}.
Variable memory_digest : MemoryPayload → option string.
Variable statement_digest : PlanNoDataMutation → option string.
Variable MaxNoDataGroups : Z.
Variable identity : PlanNoDataIdentity.
Notation Build := (BuildPlanNoDataMutation memory_digest statement_digest).
Notation built := (built memory_digest statement_digest).
Notation prepare := (prepare statement_digest MaxNoDataGroups).
Notation applyOneNoData := (applyOneNoData statement_digest MaxNoDataGroups).

Definition header_field (key : HashKey) : option string := hash_fields key !! noDataHeaderField.

(** A statement a round made of a snapshot it was given. *)
Record stated (sn : NoDataMemorySnapshot) (s : statement) : Prop := mkStated {
  stt_update : ∃ u, derived sn u ∧ canonicalNoDataMemory (up_Memory u) = Ok s.2 ∧ Build u = Ok s.1;
  stt_suppressed : Forall (λ g, 0 ≤ gm_SuppressedAt g) s.2;
  stt_printable : ∀ revision, printable (header_of s.1 revision);
  stt_digest : mu_MutationDigest s.1 ≠ ""%string;
}.

(** A delta stated of a record that has expired since. *)
Definition strays (life made : nat) (s : statement) : bool := negb (made =? life)%nat && negb (ReplacesWholeRecord s.1).

Inductive step : System → System → Prop :=
  | step_load key life loads sts rqs applied past strayed faults sn :
      sn = loadOneNoData faults (hash_fields key) identity →
      Status sn = NoDataMemoryFound ∨ Status sn = NoDataMemoryMissing →
      step (mkSystem key life loads sts rqs applied past strayed) (mkSystem key life ((life, sn) :: loads) sts rqs applied past strayed)
  | step_state key life loads sts rqs applied past strayed made sn s :
      (made, sn) ∈ loads → stated sn s →
      step (mkSystem key life loads sts rqs applied past strayed) (mkSystem key life loads ((made, s) :: sts) rqs applied past strayed)
  | step_read key life loads sts rqs applied past strayed faults made s lifetime write :
      (made, s) ∈ sts → prepare faults s.1 lifetime (header_field key) = inr write →
      step (mkSystem key life loads sts rqs applied past strayed) (mkSystem key life loads sts ((made, (s, write)) :: rqs) applied past strayed)
  | step_script key life loads sts rqs applied past strayed made s write outcome key' :
      (made, (s, write)) ∈ rqs → apply_script write key = Some (outcome, key') →
      step (mkSystem key life loads sts rqs applied past strayed)
        (match outcome with
         | HashDeltaApplied => mkSystem key' life loads sts rqs (applied ++ [s]) past (strayed || strays life made s)
         | HashDeltaConflict _ => mkSystem key' life loads sts rqs applied past strayed
         end)
  | step_expire key life loads sts rqs applied past strayed :
      is_Some (hash_lifetime key) →
      step (mkSystem key life loads sts rqs applied past strayed)
        (mkSystem missing_key (S life) loads sts rqs [] (past + length applied) strayed).

Definition started : System := mkSystem missing_key 0 [] [] [] [] 0 false.

Inductive reachable : System → Prop :=
  | reachable_start : reachable started
  | reachable_step sys sys' : reachable sys → step sys sys' → reachable sys'.

(** ** The invariant *)

Definition revision_of (index : nat) : Z := Z.of_nat index + 1.
Definition header_at (index : nat) (s : statement) : noDataHashHeader := header_of s.1 (revision_of index).

(** The record the applied statements leave. *)
Definition holds (applied : list statement) (fields : gmap string string) : Prop :=
  match last applied with
  | None => fields = ∅
  | Some s => record_of (header_at (pred (length applied)) s) s.2 fields
  end.

Definition snapshot_known (applied : list statement) (sn : NoDataMemorySnapshot) : Prop :=
  sn = missing_snapshot identity ∨
  ∃ index s, applied !! index = Some s ∧ sn = snapshot_of (header_at index s) s.2.

Definition statement_known (applied : list statement) (s : statement) : Prop :=
  mu_Identity s.1 = identity ∧ ∃ sn, snapshot_known applied sn ∧ stated sn s.

Definition request_known (applied : list statement) (s : statement) (write : HashDeltaWrite) : Prop :=
  statement_known applied s ∧ ∃ lifetime expected revision,
    write_of s.1 lifetime expected revision write ∧
    (expected = None ∧ revision = 1 ∧ ReplacesWholeRecord s.1 = true ∨
     ∃ index t, applied !! index = Some t ∧ expected = marshal_header (header_at index t) ∧
       ReplacesWholeRecord s.1 = false ∧ mu_ExpectedMarkerRevision s.1 = revision_of index ∧
       revision = u64 (revision_of index + 1) ∧ older (mu_ApplyVersion t.1) (mu_ApplyVersion s.1)).

(** One applied statement after another: newer, and a delta from the memory the
    one before it stated. *)
Definition follows (s t : statement) : Prop :=
  older (mu_ApplyVersion s.1) (mu_ApplyVersion t.1) ∧
  (mu_Set t.1, mu_Del t.1) = noDataMemoryDelta t.2 (mu_PresentAsOf t.1) s.2 (mu_PresentAsOf s.1).

(** What was made in this life knows the record; what was made before it either
    replaces the whole record, or is a delta of one that expired. *)
Definition load_seen (life : nat) (applied : list statement) (load : nat * NoDataMemorySnapshot) : Prop :=
  load.2 = missing_snapshot identity ∨ load.1 = life ∧ snapshot_known applied load.2 ∨
  (load.1 < life)%nat ∧ Representation load.2 = NoDataRepresentationPerGroup.

Definition current (life made : nat) (s : statement) : Prop := made = life ∨ ReplacesWholeRecord s.1 = true.
Definition outlived (life made : nat) (s : statement) : Prop := (made < life)%nat ∧ ReplacesWholeRecord s.1 = false.

Definition statement_seen (life : nat) (applied : list statement) (st : nat * statement) : Prop :=
  statement_known applied st.2 ∧ current life st.1 st.2 ∨ outlived life st.1 st.2.
Definition request_seen (life : nat) (applied : list statement) (rq : nat * (statement * HashDeltaWrite)) : Prop :=
  request_known applied rq.2.1 rq.2.2 ∧ current life rq.1 rq.2.1 ∨ outlived life rq.1 rq.2.1.

Record invariant (sys : System) : Prop := mkInvariant {
  inv_holds : holds (sy_applied sys) (hash_fields (sy_key sys));
  inv_loads : Forall (load_seen (sy_life sys) (sy_applied sys)) (sy_loads sys);
  inv_statements : Forall (statement_seen (sy_life sys) (sy_applied sys)) (sy_statements sys);
  inv_requests : Forall (request_seen (sy_life sys) (sy_applied sys)) (sy_requests sys);
  inv_applied : Forall (statement_known (sy_applied sys)) (sy_applied sys);
  inv_chain : ∀ index s t, sy_applied sys !! index = Some s → sy_applied sys !! S index = Some t → follows s t;
}.

(** ** What a statement knows *)

Lemma mutation_facts u memory loaded mu :
  built u memory loaded mu →
  mu_Identity mu = up_Identity u ∧ mu_DerivedFrom mu = up_DerivedFrom u ∧
  mu_ExpectedMarkerRevision mu = up_ExpectedMarkerRevision u ∧ mu_PresentAsOf mu = up_PresentAsOf u ∧
  (mu_Set mu, mu_Del mu) = noDataMemoryDelta memory (up_PresentAsOf u) (base u loaded) (up_LoadedPresentAsOf u).
Proof.
  intros [_ _ _ _ _ _ (d & s & -> & _)]. rewrite mutation_of_eq. cbn. split_and!; done || by destruct (noDataMemoryDelta _ _ _ _).
Qed.

Lemma stated_built sn s :
  stated sn s → canonical (sn_Groups sn) →
  ∃ u, derived sn u ∧ built u s.2 (sn_Groups sn) s.1.
Proof.
  intros [(u & Hd & Hm & Hb) _ _ _] Hc. apply Build_built in Hb as (memory & loaded & Hb). exists u. split; [done|].
  assert (memory = s.2) as <-.
  { pose proof (proj2 (canonicalNoDataMemory_Ok (up_Memory u) memory) (conj (bt_memory _ _ _ _ _ _ Hb) (bt_memory_perm _ _ _ _ _ _ Hb))). congruence. }
  assert (loaded = sn_Groups sn) as <-; [|done]. pose proof (bt_loaded_perm _ _ _ _ _ _ Hb) as Hp. rewrite (dv_groups _ _ Hd) in Hp.
  apply (sorted_by_key_unique gm_GroupKey); [apply (bt_loaded _ _ _ _ _ _ Hb)|apply Hc|]. intros x. by rewrite Hp.
Qed.

Lemma missing_groups : canonical (sn_Groups (missing_snapshot identity)).
Proof. repeat constructor. Qed.

Lemma entry_canonical applied index s :
  Forall (statement_known applied) applied → applied !! index = Some s → canonical s.2.
Proof.
  intros Hk Hs. rewrite Forall_forall in Hk. destruct (Hk s) as (_ & sn & _ & [(u & _ & Hm & _) _ _ _]); [by eapply list_elem_of_lookup_2|].
  by apply canonicalNoDataMemory_Ok in Hm as [].
Qed.

Lemma known_canonical applied sn :
  Forall (statement_known applied) applied → snapshot_known applied sn → canonical (sn_Groups sn).
Proof.
  intros Hk [->|(index & s & Hs & ->)]; [apply missing_groups|]. by eapply entry_canonical.
Qed.

Lemma known_built applied s :
  Forall (statement_known applied) applied → statement_known applied s →
  ∃ sn u, snapshot_known applied sn ∧ derived sn u ∧ built u s.2 (sn_Groups sn) s.1.
Proof.
  intros Hk (_ & sn & Hsn & Hst). destruct (stated_built sn s Hst) as (u & Hd & Hb); [by eapply known_canonical|]. eauto.
Qed.

Lemma load_known applied faults fields sn :
  holds applied fields → Forall (statement_known applied) applied →
  sn = loadOneNoData faults fields identity → Status sn = NoDataMemoryFound ∨ Status sn = NoDataMemoryMissing →
  snapshot_known applied sn.
Proof.
  intros Hh Hk -> Hst. unfold loadOneNoData, loadOneNoDataHash in *.
  destruct (routeErr faults); [by destruct Hst|]. destruct (noHashBackend faults); [by left|].
  destruct (keyErr faults); [by destruct Hst|]. destruct (readErr faults); [by destruct Hst|]. clear Hst.
  change (snapshot_known applied (loadOneNoData no_faults fields identity)). unfold holds in Hh.
  destruct (last applied) as [s|] eqn:Hl; [|by rewrite Hh; left]. right. rewrite last_lookup in Hl.
  exists (pred (length applied)), s. split; [done|]. rewrite Forall_forall in Hk.
  destruct (Hk s) as (<- & _); [by eapply list_elem_of_lookup_2|]. exact (record_loads _ _ _ Hh).
Qed.

Lemma record_identity applied sn :
  Forall (statement_known applied) applied → snapshot_known applied sn → sn_Identity sn = identity.
Proof.
  intros Hk [->|(index & s & Hs & ->)]; [done|]. rewrite Forall_forall in Hk.
  destruct (Hk s) as (<- & _); [by eapply list_elem_of_lookup_2|done].
Qed.

Lemma state_known applied sn s :
  Forall (statement_known applied) applied → snapshot_known applied sn → stated sn s → statement_known applied s.
Proof.
  intros Hk Hsn Hs. split; [|by exists sn]. destruct (stated_built sn s Hs) as (u & Hd & Hb); [by eapply known_canonical|].
  apply mutation_facts in Hb as (-> & _). rewrite (dv_identity _ _ Hd). by eapply record_identity.
Qed.

(** A statement that replaces was derived from nothing; one that does not, from the
    record it expects. *)
Lemma known_source applied s :
  Forall (statement_known applied) applied → statement_known applied s →
  ReplacesWholeRecord s.1 = false →
  ∃ index t u, applied !! index = Some t ∧ derived (snapshot_of (header_at index t) t.2) u ∧ built u s.2 t.2 s.1 ∧
    mu_ExpectedMarkerRevision s.1 = revision_of index.
Proof.
  intros Hk Hs Hr. destruct (known_built applied s Hk Hs) as (sn & u & [->|(index & t & Ht & ->)] & Hd & Hb).
  - exfalso. apply mutation_facts in Hb as (_ & Hf & _). unfold ReplacesWholeRecord in Hr.
    by rewrite Hf, (dv_from _ _ Hd) in Hr.
  - exists index, t, u. split_and!; try done. apply mutation_facts in Hb as (_ & _ & -> & _). apply (dv_revision _ _ Hd).
Qed.

Lemma known_replaces applied s :
  Forall (statement_known applied) applied → statement_known applied s →
  mu_ExpectedMarkerRevision s.1 = 0 → ReplacesWholeRecord s.1 = true.
Proof.
  intros Hk Hs Hz. destruct (ReplacesWholeRecord s.1) eqn:Hr; [done|].
  destruct (known_source applied s Hk Hs Hr) as (index & t & u & _ & _ & _ & He). unfold revision_of in He. lia.
Qed.

Lemma holds_header applied fields :
  holds applied fields →
  match last applied with
  | None => fields !! noDataHeaderField = None
  | Some s => marshal_header (header_at (pred (length applied)) s) = fields !! noDataHeaderField ∧
              printable (header_at (pred (length applied)) s)
  end.
Proof.
  unfold holds. destruct (last applied) as [s|]; [|by intros ->]. intros [_ _ Hp _ (raw & -> & ->) _]. done.
Qed.

Lemma header_found index s raw :
  printable (header_at index s) → marshal_header (header_at index s) = Some raw → mu_Identity s.1 = identity →
  mu_SchemaVersion s.1 = WrittenNoDataMemorySchema →
  decodeNoDataHashHeader (Some raw) identity
  = (with_groups [] (with_representation "" (snapshot_of (header_at index s) [])), Some (header_at index s)).
Proof.
  intros Hp Hm Hi Hv. destruct (header_text _ Hp) as (raw' & Hm' & Hu & Huv). rewrite Hm in Hm'. injection Hm' as <-.
  unfold decodeNoDataHashHeader. rewrite Huv, Hu. unfold version_of. cbn [hv_Schema hv_Version hv_Identity header_at header_of
    hd_Schema hd_Version hd_Identity hd_MarkerRevision]. rewrite Hv, Hi, bool_decide_eq_true_2 by done.
  assert ((revision_of index =? 0) = false) as -> by (apply Z.eqb_neq; unfold revision_of; lia). cbn.
  unfold with_groups, with_representation, snapshot_of. cbn. by rewrite Hi, Hv.
Qed.

Lemma known_schema applied s :
  Forall (statement_known applied) applied → statement_known applied s → mu_SchemaVersion s.1 = WrittenNoDataMemorySchema.
Proof. intros Hk Hs. destruct (known_built applied s Hk Hs) as (sn & u & _ & _ & [_ _ _ _ _ _ (d & st & -> & _)]). by rewrite mutation_of_eq. Qed.

(** What a call that reads the last applied statement's header decides. *)
Definition decision (applied : list statement) (s : statement) : NoDataApplyItemResult + Z :=
  match last applied with
  | None => if negb (mu_ExpectedMarkerRevision s.1 =? 0) && negb (ReplacesWholeRecord s.1)
            then inl (conflict s.1 StateVersionConflictMissing "" 0) else inr 1
  | Some t =>
      match CompareApplyVersion (mu_ApplyVersion t.1) (mu_ApplyVersion s.1) with
      | ApplyVersionPersistedNewer => inl NoDataStale
      | ApplyVersionEqual =>
          if (mu_MemoryDigest t.1 =? mu_MemoryDigest s.1)%string then inl NoDataAlreadyApplied
          else inl (conflict s.1 StateVersionConflictSameVersionOtherStatement (mu_MemoryDigest t.1)
                      (revision_of (pred (length applied))))
      | ApplyVersionPersistedOlder =>
          let revision := revision_of (pred (length applied)) in
          if negb (ReplacesWholeRecord s.1) && negb (revision =? mu_ExpectedMarkerRevision s.1) then
            inl (conflict s.1 (if revision <? mu_ExpectedMarkerRevision s.1 then StateVersionConflictRevisionReset
                               else StateVersionConflictRevisionMoved) (mu_MemoryDigest t.1) revision)
          else if ReplacesWholeRecord s.1 then
            inl (conflict s.1 StateVersionConflictRevisionMoved (mu_MemoryDigest t.1) revision)
          else inr (u64 (revision + 1))
      end
  end.

(** The header the write's decision reads is the last applied statement's. *)
Lemma classify_eq applied fields (s : statement) :
  holds applied fields → Forall (statement_known applied) applied → mu_Identity s.1 = identity →
  classify s.1 (fields !! noDataHeaderField) =
  decision applied s.
Proof.
  intros Hh Hk Hi. unfold decision. pose proof (holds_header applied fields Hh) as Hl. destruct (last applied) as [t|] eqn:Ht; [|by rewrite Hl].
  destruct Hl as [Hm Hp]. rewrite <- Hm. destruct (header_text _ Hp) as (raw & Hraw & _). rewrite Hraw. unfold classify. rewrite Hi.
  rewrite last_lookup in Ht. apply list_elem_of_lookup_2 in Ht. rewrite Forall_forall in Hk. pose proof (Hk t Ht) as Hkt.
  rewrite (header_found _ t raw Hp Hraw); [reflexivity|apply Hkt|]. rewrite <- Forall_forall in Hk. by eapply known_schema.
Qed.

Lemma read_known applied fields faults (s : statement) lifetime write :
  holds applied fields → Forall (statement_known applied) applied → statement_known applied s →
  prepare faults s.1 lifetime (fields !! noDataHeaderField) = inr write → request_known applied s write.
Proof.
  intros Hh Hk Hs Hw. split; [done|]. unfold NoDataStore.prepare in Hw. destruct (preflight _ _ _ _); [done|].
  pose proof (holds_header applied fields Hh) as Hl. rewrite (classify_eq applied fields s Hh Hk (proj1 Hs)) in Hw. unfold decision in Hw.
  destruct (last applied) as [t|] eqn:Ht.
  - destruct Hl as [Hm _]. destruct (CompareApplyVersion _ _) eqn:Hc; [|by destruct (_ =? _)%string|done]. cbv zeta in Hw.
    destruct (ReplacesWholeRecord s.1) eqn:Hr; cbn [negb andb] in Hw; [done|].
    destruct (Z.eqb_spec (revision_of (pred (length applied))) (mu_ExpectedMarkerRevision s.1)) as [He|]; [|done]. cbn [negb] in Hw.
    apply build_write_of in Hw. eexists lifetime, _, _. split; [exact Hw|]. right.
    exists (pred (length applied)), t. rewrite last_lookup in Ht. done.
  - rewrite Hl in Hw. destruct (negb _ && _) eqn:Hn; [done|]. apply build_write_of in Hw. eexists lifetime, _, _. split; [exact Hw|]. left.
    split_and!; [done..|]. destruct (ReplacesWholeRecord s.1) eqn:Hr; [done|]. rewrite andb_true_r in Hn. breflect.
    by rewrite (known_replaces applied s Hk Hs Hn) in Hr.
Qed.

Lemma known_printable applied s revision :
  statement_known applied s → printable (header_of s.1 revision).
Proof. intros (_ & sn & _ & [_ _ Hp _]). apply Hp. Qed.

Lemma known_suppressed applied s : statement_known applied s → Forall (λ g, 0 ≤ gm_SuppressedAt g) s.2.
Proof. intros (_ & sn & _ & [_ Hp _ _]). apply Hp. Qed.

Lemma holds_snoc applied s fields :
  record_of (header_at (length applied) s) s.2 fields → holds (applied ++ [s]) fields.
Proof. unfold holds. rewrite last_snoc, length_app, Nat.add_1_r. done. Qed.

(** The header a script's guard accepts is the last applied statement's, and the
    one the statement was derived from. *)
Lemma guard_current applied fields index t raw :
  holds applied fields → applied !! index = Some t → printable (header_at index t) →
  marshal_header (header_at index t) = Some raw → fields !! noDataHeaderField = Some raw →
  index = pred (length applied) ∧ last applied = Some t.
Proof.
  intros Hh Ht Hp Hm Hf. pose proof (holds_header applied fields Hh) as Hl.
  destruct (last applied) as [t'|] eqn:Hlast; [|congruence]. destruct Hl as [Hm' Hp'].
  destruct (header_text _ Hp) as (r & Hr & Hu & _). destruct (header_text _ Hp') as (r' & Hr' & Hu' & _).
  assert (header_at index t = header_at (pred (length applied)) t') as Heq by congruence.
  assert (index = pred (length applied)) as ->.
  { apply (f_equal hd_MarkerRevision) in Heq. cbn in Heq. unfold revision_of in Heq. lia. }
  split; [done|]. rewrite last_lookup in Hlast. congruence.
Qed.

Lemma script_applied applied key (s : statement) write key' :
  holds applied (hash_fields key) → Forall (statement_known applied) applied → request_known applied s write →
  Z.of_nat (length applied) < maxUint64 → apply_script write key = Some (HashDeltaApplied, key') →
  holds (applied ++ [s]) (hash_fields key') ∧ ∀ t, last applied = Some t → follows t s.
Proof.
  intros Hh Hk [Hs (lifetime & expected & revision & Hw & Hsrc)] Hmax Hrun. rewrite apply_script_eq in Hrun.
  destruct (script_guard write (hash_fields key)) as [o|] eqn:Hg; [apply script_guard_Some in Hg as ->; done|]. injection Hrun as <-.
  apply script_guard_None in Hg as [Hmiss Hdig]. pose proof Hw as (header & set & del & _ & _ & ->). cbn [HeaderField ExpectedMissing ExpectedDigest] in *.
  destruct Hsrc as [(-> & -> & Hr)|(index & t & Ht & -> & Hr & He & -> & Hold)].
  - assert (last applied = None) as Hl.
    { pose proof (holds_header applied _ Hh) as Hl. destruct (last applied) as [t|]; [|done]. destruct Hl as [Hm Hp].
      destruct (header_text _ Hp) as (raw & Hraw & _). rewrite Hraw in Hm. rewrite (proj2 Hmiss) in Hm; [done|].
      by apply bool_decide_eq_true_2. }
    split; [|congruence]. apply last_None in Hl as ->. apply holds_snoc.
    destruct (known_built _ s Hk Hs) as (sn & u & _ & _ & Hb).
    eapply write_records; [exact Hb|by eapply known_suppressed|by eapply known_printable|done|exact Hw|congruence].
  - pose proof Hk as Hk'. rewrite Forall_forall in Hk'. pose proof (Hk' t (list_elem_of_lookup_2 _ _ _ Ht)) as Hkt.
    assert (printable (header_at index t)) as Hp by by eapply known_printable.
    destruct (header_text _ Hp) as (raw & Hraw & _). rewrite Hraw in *. rewrite bool_decide_eq_false_2 in Hmiss by done.
    destruct (hash_fields key !! noDataHeaderField) as [now|] eqn:Hnow; [|by specialize (proj1 Hmiss eq_refl)].
    assert (now = raw) as ->.
    { pose proof (holds_header applied _ Hh) as Hl. rewrite Hnow in Hl. destruct (last applied) as [t'|]; [|done].
      destruct Hl as [Hm' _]. eapply digest_text; [exact Hm'|exact Hraw|by apply Hdig]. }
    destruct (guard_current applied _ index t raw Hh Ht Hp Hraw Hnow) as [-> Hl].
    destruct (known_source applied s Hk Hs Hr) as (index' & t' & u & Ht' & Hd & Hb & He').
    assert (index' = pred (length applied)) as -> by (unfold revision_of in *; lia). simplify_eq.
    assert (length applied = S (pred (length applied))) as Hlen by (apply lookup_lt_Some in Ht; lia).
    split.
    + apply holds_snoc. assert (u64 (revision_of (pred (length applied)) + 1) = revision_of (length applied)) as Hrev.
      { unfold revision_of. rewrite u64_id; go_lia. }
      rewrite Hrev in Hw. eapply write_records; [exact Hb|by eapply known_suppressed|by eapply known_printable| |exact Hw|].
      * unfold revision_of. lia.
      * intros _. unfold holds in Hh. rewrite Hl in Hh. rewrite (rc_body _ _ _ Hh), (dv_present _ _ Hd). done.
    + intros t0 Hl0. rewrite Hl in Hl0. injection Hl0 as <-. split; [done|]. destruct (mutation_facts _ _ _ _ Hb) as (_ & Hf & _ & -> & ->). f_equal.
      * unfold base. by rewrite (dv_from _ _ Hd).
      * apply (dv_present _ _ Hd).
Qed.

(** ** Every reachable state *)

Lemma snapshot_grows applied s sn : snapshot_known applied sn → snapshot_known (applied ++ [s]) sn.
Proof. intros [->|(index & t & Ht & ->)]; [by left|]. right. exists index, t. split; [by apply lookup_app_l_Some|done]. Qed.

Lemma statement_grows applied s t : statement_known applied t → statement_known (applied ++ [s]) t.
Proof. intros (Hi & sn & Hsn & Ht). split; [done|]. exists sn. split; [by apply snapshot_grows|done]. Qed.

Lemma request_grows applied s t write : request_known applied t write → request_known (applied ++ [s]) t write.
Proof.
  intros [Ht (lifetime & expected & revision & Hw & Hsrc)]. split; [by apply statement_grows|]. exists lifetime, expected, revision.
  split; [done|]. destruct Hsrc as [Hsrc|(index & t' & Ht' & Hsrc)]; [by left|]. right. exists index, t'.
  split; [by apply lookup_app_l_Some|done].
Qed.

Lemma chain_snoc applied s :
  (∀ index a b, applied !! index = Some a → applied !! S index = Some b → follows a b) →
  (∀ a, last applied = Some a → follows a s) →
  ∀ index a b, (applied ++ [s]) !! index = Some a → (applied ++ [s]) !! S index = Some b → follows a b.
Proof.
  intros Hc Hl index a b Ha Hb. destruct (decide (S index < length applied)%nat) as [Hlt|Hge].
  - rewrite lookup_app_l in Ha, Hb by lia. by eapply Hc.
  - rewrite lookup_app_r in Hb by lia. apply list_lookup_singleton_Some in Hb as [Hi <-]. rewrite lookup_app_l in Ha by lia.
    apply Hl. rewrite last_lookup. by replace (pred (length applied)) with index by lia.
Qed.

(** A statement is a delta exactly when it was made of a record. *)
Lemma stated_from sn s : stated sn s → mu_DerivedFrom s.1 = Representation sn.
Proof.
  intros [(u & Hd & _ & Hb) _ _ _]. apply Build_built in Hb as (memory & loaded & Hb).
  destruct (mutation_facts _ _ _ _ Hb) as (_ & -> & _). apply (dv_from _ _ Hd).
Qed.

Lemma replaces_missing s : stated (missing_snapshot identity) s → ReplacesWholeRecord s.1 = true.
Proof. intros Hs. unfold ReplacesWholeRecord. by rewrite (stated_from _ _ Hs). Qed.

Lemma replaces_found sn s : stated sn s → Representation sn = NoDataRepresentationPerGroup → ReplacesWholeRecord s.1 = false.
Proof. intros Hs Hr. unfold ReplacesWholeRecord. by rewrite (stated_from _ _ Hs), Hr. Qed.

Lemma known_from applied sn :
  snapshot_known applied sn → sn = missing_snapshot identity ∨ Representation sn = NoDataRepresentationPerGroup.
Proof. intros [->|(index & s & _ & ->)]; [by left|by right]. Qed.

(** A statement of the whole record is known whatever was applied. *)
Lemma replacing_known applied applied' s :
  statement_known applied s → ReplacesWholeRecord s.1 = true → statement_known applied' s.
Proof.
  intros (Hi & sn & Hsn & Hs) Hr. split; [done|]. exists sn. split; [|done].
  destruct (known_from _ _ Hsn) as [->|Hf]; [by left|]. by rewrite (replaces_found _ _ Hs Hf) in Hr.
Qed.

Lemma replacing_request applied applied' s write :
  request_known applied s write → ReplacesWholeRecord s.1 = true → request_known applied' s write.
Proof.
  intros [Hs (lifetime & expected & revision & Hw & Hsrc)] Hr. split; [by eapply replacing_known|].
  exists lifetime, expected, revision. split; [done|]. destruct Hsrc as [Hsrc|(? & ? & _ & _ & Hf & _)]; [by left|congruence].
Qed.

(** What each step leaves of what was made before it. *)
Lemma loads_grow life applied s loads :
  Forall (load_seen life applied) loads → Forall (load_seen life (applied ++ [s])) loads.
Proof.
  intros Hall. eapply Forall_impl; [exact Hall|]. intros [made sn] [?|[[? ?]|?]]; [by left| |by right; right].
  right; left. split; [done|by apply snapshot_grows].
Qed.

Lemma statements_grow life applied s sts :
  Forall (statement_seen life applied) sts → Forall (statement_seen life (applied ++ [s])) sts.
Proof. intros Hall. eapply Forall_impl; [exact Hall|]. intros [made t] [[? ?]|?]; [left; split; [by apply statement_grows|done]|by right]. Qed.

Lemma requests_grow life applied s rqs :
  Forall (request_seen life applied) rqs → Forall (request_seen life (applied ++ [s])) rqs.
Proof. intros Hall. eapply Forall_impl; [exact Hall|]. intros [made [t write]] [[? ?]|?]; [left; split; [by apply request_grows|done]|by right]. Qed.

Lemma loads_expire life applied loads : Forall (load_seen life applied) loads → Forall (load_seen (S life) []) loads.
Proof.
  intros Hall. eapply Forall_impl; [exact Hall|]. intros [made sn] [?|[[? Hk]|[? ?]]]; [by left| |right; right; cbn in *; split; [lia|done]].
  cbn in *. destruct (known_from _ _ Hk) as [->|Hf]; [by left|right; right; cbn; split; [lia|done]].
Qed.

(** What was current is of the whole record, or is outlived. *)
Lemma current_expire life made s : current life made s ∨ outlived life made s → current (S life) made s ∧ ReplacesWholeRecord s.1 = true ∨ outlived (S life) made s.
Proof.
  unfold current, outlived. destruct (ReplacesWholeRecord s.1); [intros _; left; split; [by right|done]|].
  intros [[->|?]|[? _]]; [right; split; [lia|done]|done|right; split; [lia|done]].
Qed.

Lemma statements_expire life applied sts : Forall (statement_seen life applied) sts → Forall (statement_seen (S life) []) sts.
Proof.
  intros Hall. eapply Forall_impl; [exact Hall|]. intros [made s] Hs.
  destruct (current_expire life made s) as [[Hc Hr]|Ho]; [destruct Hs as [[_ ?]|?]; auto| |by right].
  destruct Hs as [[Hk _]|[_ Hf]]; [left; split; [by eapply replacing_known|done]|cbn in *; congruence].
Qed.

Lemma requests_expire life applied rqs : Forall (request_seen life applied) rqs → Forall (request_seen (S life) []) rqs.
Proof.
  intros Hall. eapply Forall_impl; [exact Hall|]. intros [made [s write]] Hs.
  destruct (current_expire life made s) as [[Hc Hr]|Ho]; [destruct Hs as [[_ ?]|?]; auto| |by right].
  destruct Hs as [[Hk _]|[_ Hf]]; [left; split; [by eapply replacing_request|done]|cbn in *; congruence].
Qed.

(** As many revisions as a counter holds. *)
Definition bounded (sys : System) : Prop := Z.of_nat (sy_past sys + length (sy_applied sys)) ≤ maxUint64.

Lemma script_invariant key life loads sts rqs applied past strayed made s write outcome key' :
  invariant (mkSystem key life loads sts rqs applied past strayed) → (made, (s, write)) ∈ rqs →
  apply_script write key = Some (outcome, key') →
  match outcome with
  | HashDeltaApplied => Z.of_nat (length applied) < maxUint64 → strays life made s = false →
      ∀ past' strayed', invariant (mkSystem key' life loads sts rqs (applied ++ [s]) past' strayed')
  | HashDeltaConflict _ => key' = key
  end.
Proof.
  intros [Hh Hl Hs Hr Hk Hc] Hin Hrun. cbn in *. destruct outcome as [|found].
  - intros Hb Hstray past' strayed'. pose proof Hr as Hr'. rewrite Forall_forall in Hr'. destruct (Hr' _ Hin) as [[Hreq _]|[Hlt Hf]]; cbn in *.
    2: { unfold strays in Hstray. rewrite Hf, andb_true_r in Hstray. apply negb_false_iff, Nat.eqb_eq in Hstray. lia. }
    destruct (script_applied _ _ _ _ _ Hh Hk Hreq ltac:(lia) Hrun) as [Hh' Hfollow].
    split; cbn; [done|by apply loads_grow|by apply statements_grow|by apply requests_grow| |by apply chain_snoc].
    apply Forall_app. split; [eapply Forall_impl; [done|]; intros; by apply statement_grows|]. constructor; [|done]. apply statement_grows, Hreq.
  - rewrite apply_script_eq in Hrun. destruct (script_guard _ _); [|done]. by injection Hrun as _ <-.
Qed.

Lemma expire_invariant key life loads sts rqs applied past strayed :
  invariant (mkSystem key life loads sts rqs applied past strayed) →
  invariant (mkSystem missing_key (S life) loads sts rqs [] (past + length applied) strayed).
Proof.
  intros [Hh Hl Hs Hr Hk Hc]. cbn in *.
  split; cbn; [done|by eapply loads_expire|by eapply statements_expire|by eapply requests_expire|constructor|done].
Qed.

Lemma step_invariant sys sys' :
  invariant sys → step sys sys' → sy_strayed sys' = false → bounded sys' → invariant sys'.
Proof.
  intros Hinv Hstep. revert Hinv.
  destruct Hstep as [key life loads sts rqs applied past strayed faults sn Hsn Hst|key life loads sts rqs applied past strayed made sn s Hin Hst
    |key life loads sts rqs applied past strayed faults made s lifetime write Hin Hp|key life loads sts rqs applied past strayed made s write outcome key' Hin Hrun
    |key life loads sts rqs applied past strayed _]; unfold bounded; cbn; intros Hinv Hstray Hb.
  - destruct Hinv as [Hh Hl Hs Hr Hk Hc]; cbn in *. split; cbn; try done. constructor; [|done]. right; left. split; [done|]. by eapply load_known.
  - destruct Hinv as [Hh Hl Hs Hr Hk Hc]; cbn in *. split; cbn; try done. constructor; [|done]. cbn in *. rewrite Forall_forall in Hl. specialize (Hl _ Hin).
    destruct Hl as [Hm|[[Hlife Hkn]|[Hlt Hrep]]]; cbn in *.
    + subst sn. left. split; cbn; [by eapply (state_known _ (missing_snapshot identity)); [done|left|]|right; by apply replaces_missing].
    + left. split; cbn; [by eapply state_known|by left].
    + right. split; cbn; [done|by eapply replaces_found].
  - destruct Hinv as [Hh Hl Hs Hr Hk Hc]; cbn in *. split; cbn; try done. constructor; [|done]. cbn in *. rewrite Forall_forall in Hs.
    destruct (Hs _ Hin) as [[Hkn Hcur]|Hout]; [left; split; [by eapply read_known|done]|by right].
  - pose proof (script_invariant _ _ _ _ _ _ _ _ _ _ _ _ _ Hinv Hin Hrun) as Hnext. destruct outcome as [|found]; cbn in *.
    + apply orb_false_iff in Hstray as [-> Hstray]. rewrite length_app in Hb. simpl in Hb. apply Hnext; [lia|done].
    + by subst key'.
  - by apply expire_invariant in Hinv.
Qed.

Lemma step_counts sys sys' :
  step sys sys' → (sy_past sys + length (sy_applied sys) ≤ sy_past sys' + length (sy_applied sys'))%nat ∧
  (sy_strayed sys' = false → sy_strayed sys = false).
Proof.
  destruct 1; cbn; try (split; [lia|done]). destruct outcome; cbn; [|split; [lia|done]].
  rewrite length_app. split; [lia|]. by intros [-> _]%orb_false_iff.
Qed.

Lemma reachable_invariant sys : reachable sys → sy_strayed sys = false → bounded sys → invariant sys.
Proof.
  induction 1 as [|sys sys' Hr IH Hstep]; intros Hs Hb.
  - split; cbn; try constructor; done.
  - destruct (step_counts _ _ Hstep) as [Hlen Hstray]. eapply step_invariant; [|exact Hstep|done|done]. apply IH; [by apply Hstray|].
    unfold bounded in *. lia.
Qed.

(** Nothing strays before the record has expired once. *)
Lemma first_life sys :
  reachable sys → sy_life sys = 0%nat →
  sy_strayed sys = false ∧ Forall (λ st, st.1 = 0%nat) (sy_loads sys) ∧ Forall (λ st, st.1 = 0%nat) (sy_statements sys) ∧
  Forall (λ rq, rq.1 = 0%nat) (sy_requests sys).
Proof.
  induction 1 as [|sys sys' Hr IH Hstep]; [done|].
  destruct Hstep as [key life loads sts rqs applied past strayed faults sn Hsn Hst|key life loads sts rqs applied past strayed made sn s Hin Hst
    |key life loads sts rqs applied past strayed faults made s lifetime write Hin Hp|key life loads sts rqs applied past strayed made s write outcome key' Hin Hrun
    |key life loads sts rqs applied past strayed _]; cbn in *; intros Hlife; try done.
  - destruct (IH Hlife) as (? & ? & ? & ?). by split_and!; [|constructor| |].
  - destruct (IH Hlife) as (? & Hl & ? & ?). split_and!; [done|done| |done]. constructor; [|done]. rewrite Forall_forall in Hl. exact (Hl _ Hin).
  - destruct (IH Hlife) as (? & ? & Hs & ?). split_and!; [done|done|done|]. constructor; [|done]. rewrite Forall_forall in Hs. exact (Hs _ Hin).
  - destruct outcome; cbn in *; [|by apply IH]. destruct (IH Hlife) as (-> & ? & ? & Hq). split_and!; [|done..].
    rewrite Forall_forall in Hq. specialize (Hq _ Hin). cbn in Hq. by subst made life.
Qed.

Lemma chain_sorted applied :
  (∀ index a b, applied !! index = Some a → applied !! S index = Some b → follows a b) →
  StronglySorted (λ a b, older (mu_ApplyVersion a.1) (mu_ApplyVersion b.1)) applied.
Proof.
  intros Hc. apply Sorted_StronglySorted; [intros a b c; apply transitivity|].
  induction applied as [|a applied IH]; [constructor|]. constructor.
  - apply IH. intros index x y Hx Hy. by apply (Hc (S index)).
  - destruct applied as [|b applied]; constructor. by apply (Hc O).
Qed.

Definition reads (applied : list statement) : NoDataMemorySnapshot :=
  match last applied with
  | None => missing_snapshot identity
  | Some s => snapshot_of (header_of s.1 (Z.of_nat (length applied))) s.2
  end.

Lemma holds_reads applied fields :
  holds applied fields → Forall (statement_known applied) applied → loadOneNoData no_faults fields identity = reads applied.
Proof.
  intros Hh Hk. unfold holds, reads in *. destruct (last applied) as [s|] eqn:Hl; [|rewrite Hh; reflexivity].
  rewrite last_lookup in Hl. rewrite Forall_forall in Hk. destruct (Hk s) as [<- _]; [by eapply list_elem_of_lookup_2|].
  etrans; [exact (record_loads _ _ _ Hh)|]. apply lookup_lt_Some in Hl. unfold header_at, revision_of.
  by replace (Z.of_nat (pred (length applied)) + 1) with (Z.of_nat (length applied)) by lia.
Qed.

(** C19: however many workers load, build, read and send at any time, a script
    delivered late or twice included, and whenever the record expires, the Plan's
    record reads back as exactly the memory of the last statement applied since it
    last expired, at the revision that counts them; those statements are a chain,
    each derived from the memory the one before it stated and strictly newer than all
    of those, so that none is applied twice. What this takes is that no delta of a
    record that expired was applied to the one begun after it, which the guards do not
    exclude (they compare the revision, and it starts again at one). *)
Theorem memory_never_mixed sys :
  reachable sys → sy_life sys = 0%nat ∨ sy_strayed sys = false → Z.of_nat (sy_past sys + length (sy_applied sys)) ≤ maxUint64 →
  loadOneNoData no_faults (hash_fields (sy_key sys)) identity
  = match last (sy_applied sys) with
    | None => missing_snapshot identity
    | Some (mu, memory) => snapshot_of (header_of mu (Z.of_nat (length (sy_applied sys)))) memory
    end ∧
  StronglySorted (λ s t, older (mu_ApplyVersion s.1) (mu_ApplyVersion t.1)) (sy_applied sys) ∧
  (∀ index s t, sy_applied sys !! index = Some s → sy_applied sys !! S index = Some t →
   (mu_Set t.1, mu_Del t.1) = noDataMemoryDelta t.2 (mu_PresentAsOf t.1) s.2 (mu_PresentAsOf s.1)).
Proof.
  intros Hr Hlife Hb. assert (sy_strayed sys = false) as Hs by (destruct Hlife; [by apply first_life|done]).
  destruct (reachable_invariant sys Hr Hs Hb) as [Hh _ _ _ Hk Hc]. split_and!.
  - rewrite (holds_reads _ _ Hh Hk). unfold reads. destruct (last (sy_applied sys)) as [[mu memory]|]; [|done]. done.
  - by apply chain_sorted.
  - intros index s t Hst Ht. by apply (Hc index s t).
Qed.


(** ** One call *)

Lemma ready s memory :
  stated memory s → mu_GroupCount s.1 ≤ MaxNoDataGroups → preflight statement_digest MaxNoDataGroups no_faults s.1 = None.
Proof.
  intros [(u & Hd & Hm & Hb) _ _ Hne] Hcount. apply Build_built in Hb as (m & l & Hb). unfold preflight.
  rewrite (built_validates _ _ _ _ _ _ Hb Hne). cbn [is_ok negb]. by rewrite (proj2 (Z.ltb_ge _ _) Hcount).
Qed.

(** A statement whose answer was lost is settled by sending it again, however
    many were applied since: the last one applied is answered as already applied,
    an earlier one as stale, and the record does not change. *)
Lemma retry_is_settled sys index (s : statement) lifetime :
  reachable sys → sy_strayed sys = false → bounded sys →
  sy_applied sys !! index = Some s → mu_GroupCount s.1 ≤ MaxNoDataGroups →
  applyOneNoData no_faults s.1 lifetime (sy_key sys) (sy_key sys)
  = (if bool_decide (S index = length (sy_applied sys)) then NoDataAlreadyApplied else NoDataStale, sy_key sys).
Proof.
  intros Hr Hstray Hb Hs Hcount. destruct (reachable_invariant sys Hr Hstray Hb) as [Hh _ _ _ Hk Hc].
  pose proof Hk as Hk'. rewrite Forall_forall in Hk'. pose proof (Hk' s (list_elem_of_lookup_2 _ _ _ Hs)) as [Hi (sn & _ & Hst)].
  unfold NoDataStore.applyOneNoData, NoDataStore.prepare. rewrite (ready s sn Hst Hcount), (classify_eq _ _ s Hh Hk Hi). unfold decision.
  destruct (last (sy_applied sys)) as [t|] eqn:Hl; [|by apply last_None in Hl; rewrite Hl in Hs].
  rewrite last_lookup in Hl. case_bool_decide as Hlast.
  - assert (pred (length (sy_applied sys)) = index) as Hi0 by lia. rewrite Hi0, Hs in Hl. injection Hl as <-. by rewrite same_version, String.eqb_refl.
  - apply lookup_lt_Some in Hs as Hlt. pose proof (sorted_lookup _ _ _ _ _ _ (chain_sorted _ Hc) Hs Hl ltac:(lia)) as Ho.
    simpl in Ho. by apply older_newer in Ho as ->.
Qed.

Lemma reads_known applied : Forall (statement_known applied) applied → snapshot_known applied (reads applied).
Proof.
  intros Hk. unfold reads. destruct (last applied) as [s|] eqn:Hl; [|by left]. right. rewrite last_lookup in Hl.
  exists (pred (length applied)), s. split; [done|]. apply lookup_lt_Some in Hl. unfold header_at, revision_of.
  by replace (Z.of_nat (pred (length applied)) + 1) with (Z.of_nat (length applied)) by lia.
Qed.

(** A statement derived from what the record reads as expects what it holds. *)
Lemma classify_current applied (s : statement) :
  stated (reads applied) s → Forall (statement_known applied) applied → snapshot_known applied (reads applied) →
  (∀ t, last applied = Some t → older (mu_ApplyVersion t.1) (mu_ApplyVersion s.1)) →
  ∃ revision, decision applied s = inr revision.
Proof.
  intros Hst Hk Hsn Hnew. destruct (stated_built _ s Hst) as (u & Hd & Hb); [by eapply known_canonical|].
  destruct (mutation_facts _ _ _ _ Hb) as (_ & Hf & He & _). rewrite (dv_from _ _ Hd) in Hf. rewrite (dv_revision _ _ Hd) in He.
  unfold reads, decision, ReplacesWholeRecord in *. destruct (last applied) as [t|] eqn:Hl.
  - rewrite (Hnew t eq_refl), Hf, He. cbn. rewrite last_lookup in Hl. apply lookup_lt_Some in Hl. unfold revision_of.
    replace (Z.of_nat (pred (length applied)) + 1) with (Z.of_nat (length applied)) by lia. rewrite Z.eqb_refl. eauto.
  - rewrite He. eauto.
Qed.

Lemma write_guard mu lifetime fields revision write :
  write_of mu lifetime (fields !! noDataHeaderField) revision write → script_guard write fields = None.
Proof.
  intros (header & set & del & _ & _ & ->). unfold script_guard. cbn [HeaderField ExpectedMissing ExpectedDigest].
  destruct (fields !! noDataHeaderField); [|done]. rewrite bool_decide_eq_false_2 by done. by rewrite String.eqb_refl.
Qed.

Lemma reads_status applied : Status (reads applied) = NoDataMemoryFound ∨ Status (reads applied) = NoDataMemoryMissing.
Proof. unfold reads. destruct (last applied); auto. Qed.

(** The system after a worker's round. *)
Definition after_round (sys : System) (s : statement) (write : HashDeltaWrite) (key : HashKey) : System :=
  mkSystem key (sy_life sys) ((sy_life sys, loadOneNoData no_faults (hash_fields (sy_key sys)) identity) :: sy_loads sys)
    ((sy_life sys, s) :: sy_statements sys) ((sy_life sys, (s, write)) :: sy_requests sys) (sy_applied sys ++ [s]) (sy_past sys) (sy_strayed sys).

(** One worker's whole round as steps. *)
Lemma round_steps sys (s : statement) lifetime write key :
  reachable sys → sy_strayed sys = false → bounded sys →
  stated (loadOneNoData no_faults (hash_fields (sy_key sys)) identity) s →
  prepare no_faults s.1 lifetime (header_field (sy_key sys)) = inr write →
  apply_script write (sy_key sys) = Some (HashDeltaApplied, key) →
  reachable (after_round sys s write key).
Proof.
  intros Hr Hstray Hb Hs Hp Hrun. destruct (reachable_invariant sys Hr Hstray Hb) as [Hh _ _ _ Hk Hc].
  destruct sys as [key0 life loads sts rqs applied past strayed]. cbn in *. subst strayed.
  assert (strays life life s = false) as Hhere by (unfold strays; by rewrite Nat.eqb_refl).
  eapply reachable_step; [eapply reachable_step; [eapply reachable_step; [eapply reachable_step; [exact Hr|]|]|]|].
  - eapply (step_load _ _ _ _ _ _ _ _ no_faults); [done|]. rewrite (holds_reads _ _ Hh Hk). apply reads_status.
  - eapply step_state; [left|exact Hs].
  - eapply (step_read _ _ _ _ _ _ _ _ no_faults); [left|exact Hp].
  - pose proof (step_script key0 life ((life, loadOneNoData no_faults (hash_fields key0) identity) :: loads) ((life, s) :: sts)
      ((life, (s, write)) :: rqs) applied past false life s write HashDeltaApplied key ltac:(left) Hrun) as Hstep.
    cbn in Hstep. by rewrite Hhere in Hstep.
Qed.

(** A round that nothing else interrupts is stored and read back. *)
Lemma lone_round sys (s : statement) lifetime :
  reachable sys → sy_strayed sys = false → Z.of_nat (sy_past sys + length (sy_applied sys)) < maxUint64 →
  stated (loadOneNoData no_faults (hash_fields (sy_key sys)) identity) s → mu_GroupCount s.1 ≤ MaxNoDataGroups →
  (∀ t, last (sy_applied sys) = Some t → older (mu_ApplyVersion t.1) (mu_ApplyVersion s.1)) →
  ∃ write key,
    applyOneNoData no_faults s.1 lifetime (sy_key sys) (sy_key sys) = (NoDataApplied, key) ∧
    loadOneNoData no_faults (hash_fields key) identity
    = snapshot_of (header_of s.1 (Z.of_nat (length (sy_applied sys)) + 1)) s.2 ∧
    reachable (after_round sys s write key).
Proof.
  intros Hr Hstray Hb Hst Hcount Hnew. destruct (reachable_invariant sys Hr Hstray ltac:(unfold bounded; lia)) as [Hh _ _ _ Hk Hc].
  pose proof Hst as Hstated. rewrite (holds_reads _ _ Hh Hk) in Hst.
  assert (snapshot_known (sy_applied sys) (reads (sy_applied sys))) as Hsn by by apply reads_known.
  pose proof (state_known _ _ s Hk Hsn Hst) as Hs.
  assert (∃ write, prepare no_faults s.1 lifetime (header_field (sy_key sys)) = inr write ∧ script_guard write (hash_fields (sy_key sys)) = None)
    as (write & Hp & Hg).
  { unfold NoDataStore.prepare. rewrite (ready s _ Hst Hcount). unfold header_field. rewrite (classify_eq _ _ s Hh Hk (proj1 Hs)).
    destruct (classify_current _ s Hst Hk Hsn Hnew) as [revision ->].
    destruct (build_write_total s.1 lifetime (hash_fields (sy_key sys) !! noDataHeaderField) revision) as [write Hw]; [by eapply known_printable|].
    exists write. split; [done|]. apply build_write_of in Hw. by eapply write_guard. }
  exists write, (written write (sy_key sys)). unfold NoDataStore.applyOneNoData. pose proof Hp as Hread. unfold header_field in Hp. rewrite Hp. unfold send. cbn [requestLost replyLost no_faults].
  assert (apply_script write (sy_key sys) = Some (HashDeltaApplied, written write (sy_key sys))) as Hrun by (by rewrite apply_script_eq, Hg).
  rewrite Hrun. split_and!; [done| |by eapply round_steps; [| |unfold bounded; lia|..]].
  destruct (script_applied _ _ s _ _ Hh Hk (read_known _ _ _ s _ _ Hh Hk Hs Hp) ltac:(lia) Hrun) as [Hh' _].
  rewrite (holds_reads _ _ Hh').
  - unfold reads. rewrite last_snoc, length_app, Nat2Z.inj_add. done.
  - apply Forall_app. split; [eapply Forall_impl; [done|]; intros; by apply statement_grows|]. constructor; [|done]. by apply statement_grows.
Qed.
End writers.
