(* ===== verification/NoDataExamples.v ===== *)
(** Runs of the no-data memory's store on a concrete text: the witnesses of its
    theorems, and what its guards leave open. *)
From Stdlib Require Import Ascii DecimalString DecimalZ.
From S2P Require Import Prelude Reason NoDataMemory NoDataMemorySpec NoDataStore NoDataStoreSpec NoDataWriters.

Open Scope Z_scope.

(** ** A concrete text

    Every piece of a value written out character by character and closed; a text
    that reads back whatever it holds. *)

Module Text.
Fixpoint frame (s rest : string) : string :=
  match s with
  | EmptyString => String "."%char rest
  | String c s => String "+"%char (String c (frame s rest))
  end.

Fixpoint unframe (s : string) : option (string * string) :=
  match s with
  | String "."%char rest => Some (""%string, rest)
  | String "+"%char (String c s) => match unframe s with Some (piece, rest) => Some (String c piece, rest) | None => None end
  | _ => None
  end.

Lemma unframe_frame s rest : unframe (frame s rest) = Some (s, rest).
Proof. induction s as [|c s IH]; simpl; [done|]. by rewrite IH. Qed.

Definition frames (pieces : list string) : string := foldr frame "" pieces.

Fixpoint unframes (n : nat) (s : string) : option (list string) :=
  match n with
  | O => Some []
  | S n => match unframe s with
           | Some (piece, rest) => match unframes n rest with Some pieces => Some (piece :: pieces) | None => None end
           | None => None
           end
  end.

Lemma unframes_frames pieces : unframes (length pieces) (frames pieces) = Some pieces.
Proof. induction pieces as [|piece pieces IH]; simpl; [done|]. by rewrite unframe_frame, IH. Qed.

Definition of_Z (z : Z) : string := NilEmpty.string_of_int (Z.to_int z).
Definition to_Z (s : string) : option Z := match NilEmpty.int_of_string s with Some d => Some (Z.of_int d) | None => None end.

Lemma to_of_Z z : to_Z (of_Z z) = Some z.
Proof. unfold to_Z, of_Z. by rewrite NilEmpty.isi, DecimalZ.of_to. Qed.

Definition identity_pieces (i : PlanNoDataIdentity) : list string :=
  [TenantID (id_Plan i); BusinessID (id_Plan i); StrategyID (id_Plan i); StateGeneration i;
   shard_Dimension (Shard i); of_Z (shard_Index (Shard i)); of_Z (shard_Count (Shard i)); MatcherDigest (Shard i)].

Definition identity_of (pieces : list string) : option PlanNoDataIdentity :=
  match pieces with
  | [t; b; s; g; d; i; c; x] =>
      i ← to_Z i; c ← to_Z c; Some (mkNoDataIdentity (mkPlanIdentity t b s) g (mkShard d i c x))
  | _ => None
  end.

Definition header_pieces (h : noDataHashHeader) : list string :=
  identity_pieces (hd_Identity h) ++
  [hd_Schema h; of_Z (hd_Version h); of_Z (hd_MarkerRevision h); of_Z (StateApplyEpoch (hd_ApplyVersion h));
   of_Z (ver_EvaluationTime (hd_ApplyVersion h)); SlotDigest (hd_ApplyVersion h); hd_MemoryDigest h; hd_ScheduleRevision h;
   hd_RosterVersion h; of_Z (hd_PresentAsOf h); of_Z (hd_TrackingExhaustedAt h)].

Definition header_of_pieces (pieces : list string) : option noDataHashHeader :=
  i ← identity_of (take 8 pieces);
  match drop 8 pieces with
  | [s; v; r; e; t; d; m; sc; ro; p; x] =>
      v ← to_Z v; r ← to_Z r; e ← to_Z e; t ← to_Z t; p ← to_Z p; x ← to_Z x;
      Some (mkHeader s v i r (mkVersion e t d) m sc ro p x)
  | _ => None
  end.

Lemma header_pieces_read h : header_of_pieces (header_pieces h) = Some h.
Proof.
  unfold header_of_pieces, header_pieces, identity_of, identity_pieces. simpl. rewrite !to_of_Z. simpl.
  by destruct h as [? ? [[] ? []] ? [] ? ? ? ? ?].
Qed.

Definition absence_pieces (a : noDataGroupAbsenceValue) : list string :=
  [of_Z (av_LastSeen a); of_Z (av_FirstAbsent a); of_Z (av_SuppressedAt a)].

Definition absence_of_pieces (pieces : list string) : option noDataGroupAbsenceValue :=
  match pieces with
  | [l; f; s] => l ← to_Z l; f ← to_Z f; s ← to_Z s; Some (mkAbsenceValue l f s)
  | _ => None
  end.
End Text.

#[export] Instance framed_text : HashText := {|
  marshal_header h := Some (Text.frames (Text.header_pieces h));
  unmarshal_header s := Text.unframes 19 s ≫= Text.header_of_pieces;
  unmarshal_version s := h ← Text.unframes 19 s ≫= Text.header_of_pieces; Some (version_of h);
  marshal_absence a := Some (Text.frames (Text.absence_pieces a));
  unmarshal_absence s := Text.unframes 3 s ≫= Text.absence_of_pieces;
  HeaderDigest s := s;
|}.

#[export] Instance framed_text_laws : HashTextLaws.
Proof.
  refine {| printable _ := True |}.
  - intros h _. exists (Text.frames (Text.header_pieces h)). split; [done|].
    cbn [unmarshal_header unmarshal_version framed_text]. change 19%nat with (length (Text.header_pieces h)).
    rewrite Text.unframes_frames. cbn [mbind option_bind]. by rewrite Text.header_pieces_read.
  - intros a. exists (Text.frames (Text.absence_pieces a)). split; [done|].
    cbn [unmarshal_absence framed_text]. change 3%nat with (length (Text.absence_pieces a)). rewrite Text.unframes_frames. split.
    + cbn [mbind option_bind]. unfold Text.absence_of_pieces, Text.absence_pieces. rewrite !Text.to_of_Z. by destruct a.
    + unfold Text.absence_pieces. simpl. by destruct (Text.of_Z (av_LastSeen a)).
  - done.
Defined.

(** ** Two rounds of one Plan *)

Definition example_identity : PlanNoDataIdentity := mkNoDataIdentity (mkPlanIdentity "tenant" "2" "7") "generation" (mkShard "" 0 0 "").

Definition keys_digest (payload : MemoryPayload) : option string := Some (String "m"%char (Text.frames (gm_GroupKey <$> mp_Groups payload))).
Definition some_digest (mu : PlanNoDataMutation) : option string := Some "statement".

Notation build := (BuildPlanNoDataMutation keys_digest some_digest).
Notation stated := (stated keys_digest some_digest).
Notation reachable := (reachable keys_digest some_digest 100 example_identity).
Notation apply faults mu := (applyOneNoData some_digest 100 faults mu 3600).
Notation load fields := (loadOneNoData no_faults fields example_identity).

(** The round at [now] that remembers [memory], from the snapshot it was given. *)
Definition round (sn : NoDataMemorySnapshot) (now : Z) (memory : list NoDataGroupMemory) (presentAsOf : Z) : PlanNoDataMemoryUpdate :=
  mkUpdate (sn_Identity sn) (Representation sn) (MarkerRevision sn) (PersistedApplyVersion sn) (mkVersion 1 now "slot") "schedule"
    "roster" presentAsOf 0 (sn_TrackingExhaustedAt sn) memory (sn_Groups sn) (PresentAsOf sn).

Definition blank : PlanNoDataMutation := mkMutation example_identity 0 "" 0 no_version no_version "" "" 0 0 "" "" 0 [] [].
Definition built_or_blank (u : PlanNoDataMemoryUpdate) : PlanNoDataMutation := match build u with Ok mu => mu | Err _ => blank end.
Definition fields_after (mu : PlanNoDataMutation) (key : HashKey) : HashKey := (apply no_faults mu key key).2.

Definition seen (key : string) (at_ : Z) : NoDataGroupMemory := mkGroupMemory key at_ 0 0.
Definition gone (key : string) (last first : Z) : NoDataGroupMemory := mkGroupMemory key last first 0.

Definition missing : NoDataMemorySnapshot := missing_snapshot example_identity.
Definition first_memory : list NoDataGroupMemory := [seen "a" 60; seen "b" 60].
Definition first_round : PlanNoDataMemoryUpdate := round missing 60 first_memory 60.
Definition first_statement : PlanNoDataMutation := Eval vm_compute in built_or_blank first_round.
Definition first_key : HashKey := fields_after first_statement missing_key.

Definition second_memory : list NoDataGroupMemory := [seen "a" 120; gone "b" 60 120; seen "c" 120].
Definition second_round : PlanNoDataMemoryUpdate := round (load (hash_fields first_key)) 120 second_memory 120.
Definition second_statement : PlanNoDataMutation := Eval vm_compute in built_or_blank second_round.
Definition second_key : HashKey := fields_after second_statement first_key.

(** The second round rewrites what changed and names what it read. *)
Example second_delta :
  (mu_Set second_statement, mu_Del second_statement, mu_ExpectedMarkerRevision second_statement)
  = ([mkGroupDelta "b" (Some (mkGroupAbsence 60 120 0)); mkGroupDelta "c" None], [], 1).
Proof. reflexivity. Qed.

Example second_reads : sn_Groups (load (hash_fields second_key)) = second_memory.
Proof. by vm_compute. Qed.

Lemma stated_round sn now memory presentAsOf mu :
  canonicalNoDataMemory memory = Ok memory → build (round sn now memory presentAsOf) = Ok mu →
  bool_decide (Forall (λ g, 0 ≤ gm_SuppressedAt g) memory) = true → mu_MutationDigest mu ≠ ""%string →
  stated sn (mu, memory).
Proof.
  intros Hm Hb Hs Hd. split; [|by apply bool_decide_eq_true in Hs|done|done].
  by exists (round sn now memory presentAsOf).
Qed.

Lemma first_stated : stated missing (first_statement, first_memory).
Proof. apply (stated_round missing 60 first_memory 60); [by vm_compute..|done]. Qed.

Lemma second_stated : stated (load (hash_fields first_key)) (second_statement, second_memory).
Proof. apply (stated_round (load (hash_fields first_key)) 120 second_memory 120); [by vm_compute..|done]. Qed.

Definition write_or_none (mu : PlanNoDataMutation) (key : HashKey) : HashDeltaWrite :=
  match prepare some_digest 100 no_faults mu 3600 (header_field key) with
  | inr write => write
  | inl _ => mkWrite "" false "" "" [] [] 0 false
  end.

(** The record after the two rounds; and after it expired and another worker began it
    again, at revision one. *)
Definition after_first : System := after_round example_identity started (first_statement, first_memory) (write_or_none first_statement missing_key) first_key.
Definition after_second : System := after_round example_identity after_first (second_statement, second_memory) (write_or_none second_statement first_key) second_key.

Lemma first_reached : reachable after_first.
Proof.
  apply (round_steps keys_digest some_digest 100 example_identity started (first_statement, first_memory) 3600);
    [constructor|done|done|exact first_stated|by vm_compute|by vm_compute].
Qed.

Lemma second_reached : reachable after_second.
Proof.
  apply (round_steps keys_digest some_digest 100 example_identity after_first (second_statement, second_memory) 3600);
    [exact first_reached|done|done|exact second_stated|by vm_compute|by vm_compute].
Qed.

Definition restarted_memory : list NoDataGroupMemory := [seen "z" 90].
Definition restarted_statement : PlanNoDataMutation := Eval vm_compute in built_or_blank (round missing 90 restarted_memory 90).
Definition restarted_key : HashKey := fields_after restarted_statement missing_key.

Lemma restarted_stated : stated missing (restarted_statement, restarted_memory).
Proof. apply (stated_round missing 90 restarted_memory 90); [by vm_compute..|done]. Qed.

Definition expired (sys : System) : System :=
  mkSystem missing_key (S (sy_life sys)) (sy_loads sys) (sy_statements sys) (sy_requests sys) [] (sy_past sys + length (sy_applied sys)) (sy_strayed sys).
Definition restarted (sys : System) : System :=
  after_round example_identity (expired sys) (restarted_statement, restarted_memory) (write_or_none restarted_statement missing_key) restarted_key.

Lemma restarted_reached sys :
  reachable sys → is_Some (hash_lifetime (sy_key sys)) → sy_strayed sys = false → bounded (expired sys) → reachable (restarted sys).
Proof.
  intros Hr Hlife Hs Hb.
  apply (round_steps keys_digest some_digest 100 example_identity (expired sys) (restarted_statement, restarted_memory) 3600);
    [|exact Hs|exact Hb|exact restarted_stated|by vm_compute|by vm_compute].
  eapply reachable_step; [exact Hr|]. destruct sys. by apply step_expire.
Qed.

Example memory_never_mixed_witness :
  load (hash_fields second_key) = snapshot_of (header_of second_statement 2) second_memory ∧
  load (hash_fields restarted_key) = snapshot_of (header_of restarted_statement 1) restarted_memory.
Proof.
  split.
  - apply (memory_never_mixed keys_digest some_digest 100 example_identity after_second second_reached); [by left|done].
  - apply (memory_never_mixed keys_digest some_digest 100 example_identity (restarted after_second)); [|by right|done].
    apply restarted_reached; [exact second_reached| |done|done]. exists 3600. by vm_compute.
Defined.

Example retry_is_settled_witness :
  apply no_faults first_statement second_key second_key = (NoDataStale, second_key) ∧
  apply no_faults second_statement second_key second_key = (NoDataAlreadyApplied, second_key).
Proof.
  split.
  - apply (retry_is_settled _ _ _ _ _ 0%nat (first_statement, first_memory) 3600 second_reached); done.
  - apply (retry_is_settled _ _ _ _ _ 1%nat (second_statement, second_memory) 3600 second_reached); done.
Defined.

(** ** What the guards leave open *)

(** Two workers that made the same statement of the same record race: the one that
    comes second inside the write is told of a conflict, where a read before the
    write would have told it that its statement is already applied. *)
Example race_is_not_a_fresh_read :
  (apply no_faults second_statement second_key second_key).1 = NoDataAlreadyApplied ∧
  (apply no_faults second_statement first_key second_key).1
  = conflict second_statement StateVersionConflictRevisionMoved (mu_MemoryDigest second_statement) 2.
Proof. by vm_compute. Qed.

(** The record expires and another worker starts it again at revision one; a delta
    that was taken from the old record, and says so, is applied to the new one. The
    record then reads as a memory nobody stated. *)
Example expired_record_is_mixed :
  (apply no_faults second_statement restarted_key restarted_key).1 = NoDataApplied ∧
  mu_LoadedApplyVersion second_statement ≠ mu_ApplyVersion restarted_statement ∧
  sn_Groups (load (hash_fields (fields_after second_statement restarted_key)))
  = [gone "b" 60 120; seen "c" 120; seen "z" 120] ∧
  PersistedMutationDigest (load (hash_fields (fields_after second_statement restarted_key))) = mu_MemoryDigest second_statement.
Proof. by vm_compute. Qed.

(** It is reached: the delta is read and sent after the record began again. *)
Example stray_is_reached : ∃ sys, reachable sys ∧ sy_strayed sys = true ∧
  sn_Groups (load (hash_fields (sy_key sys))) = [gone "b" 60 120; seen "c" 120; seen "z" 120].
Proof.
  set (late := mkSystem first_key 0 ((0%nat, load (hash_fields first_key)) :: sy_loads after_first)
    ((0%nat, (second_statement, second_memory)) :: sy_statements after_first) (sy_requests after_first) (sy_applied after_first) 0 false).
  assert (reachable late) as Hlate.
  { eapply reachable_step; [eapply reachable_step; [exact first_reached|]|].
    - apply (step_load _ _ _ _ _ _ _ _ _ _ _ _ no_faults (load (hash_fields first_key))); [done|left; by vm_compute].
    - eapply step_state; [left|exact second_stated]. }
  assert (reachable (restarted late)) as Hr by (apply restarted_reached; [exact Hlate|exists 3600; by vm_compute|done|done]).
  set (key := fields_after second_statement restarted_key).
  assert (apply_script (write_or_none second_statement restarted_key) restarted_key = Some (HashDeltaApplied, key)) as Hrun by (by vm_compute).
  assert (sn_Groups (load (hash_fields key)) = [gone "b" 60 120; seen "c" 120; seen "z" 120]) as Hgroups by (by vm_compute).
  clearbody key.
  eexists (mkSystem key _ _ _ _ _ _ _). split; [|split; [|exact Hgroups]].
  - eapply reachable_step; [eapply reachable_step; [exact Hr|]|].
    + eapply (step_read _ _ _ _ _ _ _ _ _ _ _ _ no_faults 0%nat (second_statement, second_memory) 3600); [right; left|by vm_compute].
    + apply (step_script _ _ _ _ _ _ _ _ _ _ _ _ 0%nat (second_statement, second_memory) (write_or_none second_statement restarted_key) HashDeltaApplied key); [left|exact Hrun].
  - reflexivity.
Qed.

(** A record of the schema this build writes is not checked for a group seen after
    the Plan last had data; one of the schema before it is. *)
Definition late_snapshot (schema : Z) : NoDataMemorySnapshot :=
  mkSnapshot example_identity 1 (mkVersion 1 60 "slot") "digest" NoDataMemoryFound schema "schedule" "roster"
    NoDataRepresentationPerGroup 60 0 [gone "a" 90 120] "".

Example late_group_checked_for_v2_only :
  validateNoDataSnapshot (late_snapshot NoDataMemorySchemaV2) = Err (StoredSeenAfterPresent "a") ∧
  validateNoDataSnapshot (late_snapshot WrittenNoDataMemorySchema) = Ok tt.
Proof. by vm_compute. Qed.

(** ** The builder *)

Ltac each_group :=
  repeat (apply Forall_cons_2; [unfold storable, stopped_absent; simpl; split_and?; done || lia|]); apply Forall_nil_2.

Example build_accepts_witness : is_ok (build second_round) = true.
Proof.
  apply (build_accepts keys_digest some_digest); [intros payload; by eexists|intros mu; by eexists| |].
  - change (up_Memory second_round) with second_memory. each_group.
  - split; [split|by vm_compute].
    + change (up_Memory second_round) with second_memory. split; [apply (bool_decide_unpack _); by vm_compute|each_group].
    + assert (up_Loaded second_round = first_memory) as -> by (by vm_compute).
      split; [apply (bool_decide_unpack _); by vm_compute|each_group].
    + by vm_compute.
    + apply (bool_decide_unpack _); by vm_compute.
    + by vm_compute.
    + by vm_compute.
    + by vm_compute.
    + right. by vm_compute.
Defined.

Example script_terminates_witness :
  ∃ key, apply_script (write_or_none second_statement first_key) first_key = Some (HashDeltaApplied, key) ∧
    hash_fields key !! "g:a"%string = Some "p"%string.
Proof.
  destruct (script_terminates (write_or_none second_statement first_key) first_key) as (outcome & key & Hrun & Happlied & _).
  assert (outcome = HashDeltaApplied) as Ho.
  { assert (∃ k, apply_script (write_or_none second_statement first_key) first_key = Some (HashDeltaApplied, k)) as [k Hk] by (eexists; by vm_compute).
    rewrite Hk in Hrun. by injection Hrun as <- _. }
  exists key. rewrite Ho in Hrun. split; [exact Hrun|]. destruct (Happlied Ho) as (_ & _ & Hf). rewrite Hf. by vm_compute.
Defined.
