(* ===== verification/NoDataSlot.v ===== *)
(** One Plan's no-data round (contract/no_data.go, nodata/slot.go, synthetic.go,
    plan_slot.go): its setting, and the round itself, from
    what the Slot saw and what the store held to the series the ordinary evaluation
    reads and the memory to store. The orders Go ranges over maps in, the digests
    and the JSON text of a value are arguments. *)
From S2P Require Import Prelude Group Absence Roster NoDataMemory.

Open Scope Z_scope.

(** ** Synthetic series (nodata/synthetic.go) *)

Definition AbsentValue : Z := 1.
Definition PresentValue : Z := 0.

Record SyntheticSeries : Type := mkSeries {
  ss_Group : Group;
  ss_Value : Z;
  Periods : Z;
  SourceTime : Z;
  ss_Closing : bool;
}.

Record SyntheticInput : Type := mkSyntheticInput {
  si_EvaluationTime : Z;
  si_PeriodSeconds : Z;
  si_Result : AbsenceResult;
  si_Memory : gmap string GroupMemory;
  si_Roster : Roster;
}.

(** The fields an event carries; [quote] is [json.Marshal] of a string. *)
Definition SeriesIdentityFields (quote : string → string) (series : SyntheticSeries) : gmap string string :=
  <[NoDataDimensionTag := "true"]>
    (foldl (λ fields dimension, <[Name dimension := quote (Value dimension)]> fields) ∅ (dimensions (ss_Group series))).

(** An [int64] division rounds to zero. *)
Definition absentPeriods (memory : GroupMemory) (evaluationTime period : Z) : Z :=
  if period <=? 0 then 0
  else
    let since := Z.quot (i64 (evaluationTime - LastSeen memory)) period in
    if (0 <? LastSeen memory) && (0 <? since) then since
    else if 0 <? FirstAbsent memory then i64 (Z.quot (i64 (evaluationTime - FirstAbsent memory)) period + 1)
    else 1.

Definition verdict_keys (verdicts : gmap string Verdict) : list string :=
  str_le_sort (filter (λ entry, entry.2 ≠ VerdictUnavailable) (map_to_list verdicts)).*1.

Definition series_group (roster : Roster) (key : string) : option Group :=
  match ro_Groups roster !! key with
  | Some group => Some group
  | None => ParseGroupKey key
  end.

Definition series_of (input : SyntheticInput) (key : string) (group : Group) : SyntheticSeries :=
  let result := si_Result input in
  let sourceTime := i64 (si_EvaluationTime input - si_PeriodSeconds input) in
  let closing := default false (Closing result !! key) in
  if bool_decide (Verdicts result !! key = Some VerdictAnomaly) then
    mkSeries group AbsentValue (absentPeriods (memory_of (si_Memory input) key) (si_EvaluationTime input) (si_PeriodSeconds input))
      sourceTime closing
  else mkSeries group PresentValue 0 sourceTime closing.

Fixpoint series_loop (input : SyntheticInput) (keys : list string) : result RosterError (list SyntheticSeries) :=
  match keys with
  | [] => Ok []
  | key :: keys =>
      match series_group (si_Roster input) key with
      | None => Err (UnparseableGroupKey key)
      | Some group => series ← series_loop input keys; Ok (series_of input key group :: series)
      end
  end.

Definition SyntheticSeriesFor (input : SyntheticInput) : result RosterError (list SyntheticSeries) :=
  series_loop input (verdict_keys (Verdicts (si_Result input))).

(** ** The item's setting (contract/no_data.go) *)

Definition NoDataHorizonSourcePlatform : string := "PLATFORM".
Definition NoDataHorizonSourceStrategy : string := "STRATEGY".

(** [math.MaxInt64 / int64(time.Second)]. *)
Definition MaxNoDataTrackingHorizonSeconds : Z := Eval vm_compute in maxInt64 / 10 ^ 9.

Record NoDataConfigV1 : Type := mkConfig {
  Continuous : Z;
  cfg_AggDimension : list string;
  cfg_Level : Z;
  cfg_TrackingHorizonSeconds : Z;
  TrackingHorizonSource : string;
}.

Inductive ConfigError : Type :=
  | ContinuousNotPositive
  | LevelOutside (level : Z)
  | NegativeHorizon (seconds : Z)
  | HorizonTooLong (seconds : Z)
  | UnknownHorizonSource (source : string)
  | SourceBesideNoHorizon (source : string)
  | EmptyDimension
  | TagDimension.

(** The loop over the dimensions: [seen] holds the ones kept so far. *)
Fixpoint deduplicate (seen : gset string) (names : list string) : result ConfigError (list string) :=
  match names with
  | [] => Ok []
  | name :: names =>
      _ ← fail_if (name =? "")%string EmptyDimension;
      _ ← fail_if (name =? NoDataDimensionTag)%string TagDimension;
      if bool_decide (name ∈ seen) then deduplicate seen names
      else kept ← deduplicate ({[name]} ∪ seen) names; Ok (name :: kept)
  end.

(** [Validate], with the section as it leaves it. *)
Definition ValidateNoDataConfig (config : NoDataConfigV1) : result ConfigError NoDataConfigV1 :=
  let horizon := cfg_TrackingHorizonSeconds config in
  let source := TrackingHorizonSource config in
  _ ← fail_if (Continuous config =? 0) ContinuousNotPositive;
  _ ← fail_if ((cfg_Level config <? 1) || (3 <? cfg_Level config)) (LevelOutside (cfg_Level config));
  _ ← fail_if (horizon <? 0) (NegativeHorizon horizon);
  _ ← fail_if (MaxNoDataTrackingHorizonSeconds <? horizon) (HorizonTooLong horizon);
  _ ← fail_if (negb (bool_decide (source ∈ [""%string; NoDataHorizonSourcePlatform; NoDataHorizonSourceStrategy])))
        (UnknownHorizonSource source);
  _ ← fail_if (negb (source =? "")%string && (horizon =? 0)) (SourceBesideNoHorizon source);
  kept ← deduplicate ∅ (cfg_AggDimension config);
  Ok (mkConfig (Continuous config) kept (cfg_Level config) horizon source).

(** ** One Slot (nodata/slot.go) *)

(** The Plan, by the three fields the round reads. *)
Record EvaluationPlanV2 : Type := mkEvaluationPlan {
  NoData : option NoDataConfigV1;
  TargetScope : option TargetScopeV2;
  TargetPlan : option TargetPlanV1;
}.

Inductive SlotOutcome : Type :=
  | OutcomeNone
  | OutcomeEvaluated
  | OutcomeSkippedQueryNotFull
  | OutcomeSkippedSlotBudget
  | OutcomeSkippedMemoryUnreadable
  | OutcomeSkippedHostsUnresolved
  | OutcomeSkippedDerivationFailed
  | OutcomeSkippedTargetSelectorUnavailable
  | OutcomeSkippedTargetMembersDropped
  | OutcomeSkippedOutputFailed
  | OutcomeSkippedAnswerTruncated.

#[export] Instance SlotOutcome_eq_dec : EqDecision SlotOutcome.
Proof. solve_decision. Defined.

Definition TargetResolutionComplete : string := "COMPLETE".
Definition TargetResolutionIncomplete : string := "INCOMPLETE".
Definition TargetResolutionUnavailable : string := "UNAVAILABLE".

Record TargetResolution : Type := mkResolution {
  State : string;
  Members : list string;
}.

Record SlotInput : Type := mkSlotInput {
  sl_Plan : option EvaluationPlanV2;
  sl_EvaluationTime : Z;
  sl_PeriodSeconds : Z;
  sl_Completeness : string;
  Series : list (gmap string string);
  sl_KnownHosts : gset string;
  HostsResolved : bool;
  sl_OutOfBusiness : gset string;
  sl_TargetResolution : option TargetResolution;
  AnswerTruncated : bool;
  sl_Memory : gmap string GroupMemory;
  sl_TrackingHorizonSeconds : Z;
  sl_TrackingExhaustedAt : Z;
}.

Inductive SlotError : Type :=
  | SlotRoster (cause : RosterError)
  | UnknownResolution (state : string)
  | MemoryNotRead (status reason : string)
  | SlotContract (cause : ContractError).

Definition of_roster {A} (r : result RosterError A) : result SlotError A :=
  match r with Ok a => Ok a | Err e => Err (SlotRoster e) end.
Definition of_contract {A} (r : result ContractError A) : result SlotError A :=
  match r with Ok a => Ok a | Err e => Err (SlotContract e) end.

(** The zero value of a result. *)
Definition no_result : AbsenceResult :=
  mkAbsence ∅ ∅ ∅ (mkFacts 0 0 0 0 0 "" "" 0 0 (mkAges 0 0 0 0)) (mkRoster "" "" ∅) 0 false.

(** What the resolution of a target plan allows: the members, or the name of the
    skip. *)
Definition resolved_members (class : RosterClass) (resolution : option TargetResolution)
    : result SlotError (SlotOutcome + list string) :=
  if (class_Source class =? RosterTargetPlan)%string then
    match resolution with
    | None => Ok (inl OutcomeSkippedTargetSelectorUnavailable)
    | Some resolution =>
        if (State resolution =? TargetResolutionUnavailable)%string then Ok (inl OutcomeSkippedTargetSelectorUnavailable)
        else if (State resolution =? TargetResolutionIncomplete)%string then Ok (inl OutcomeSkippedTargetMembersDropped)
        else if (State resolution =? TargetResolutionComplete)%string then Ok (inr (Members resolution))
        else Err (UnknownResolution (State resolution))
    end
  else Ok (inr []).

Section slot.
Variable roster_digest : string → list string → option string.
(** The keys in the order each map is ranged over. *)
Variable order : AbsenceInput → iteration.

Definition absence_input (input : SlotInput) (config : NoDataConfigV1) (roster : Roster) : AbsenceInput :=
  let tally := ProjectSeries (Series input) (cfg_AggDimension config) in
  mkAbsenceInput (sl_EvaluationTime input) (sl_PeriodSeconds input) (sl_Completeness input) (Groups tally) (Dropped tally)
    roster (sl_Memory input) (sl_OutOfBusiness input) (sl_TrackingHorizonSeconds input) (sl_TrackingExhaustedAt input).

Definition roster_request (input : SlotInput) (plan : EvaluationPlanV2) (config : NoDataConfigV1) (members : list string)
    : RosterRequest :=
  mkRosterRequest (cfg_AggDimension config) (TargetScope plan) (TargetPlan plan) members (sl_KnownHosts input) (sl_Memory input).

(** The Slot once its members are known. *)
Definition members_known (input : SlotInput) (plan : EvaluationPlanV2) (config : NoDataConfigV1) (class : RosterClass)
    (members : list string) : result SlotError (AbsenceResult * SlotOutcome) :=
  if (class_Source class =? RosterTargetStatic)%string && negb (HostsResolved input) then
    Ok (no_result, OutcomeSkippedHostsUnresolved)
  else if AnswerTruncated input && (sl_Completeness input =? CompletenessFull)%string then
    Ok (no_result, OutcomeSkippedAnswerTruncated)
  else
    roster ← of_roster (BuildRoster roster_digest (roster_request input plan config members));
    let absence := absence_input input config roster in
    Ok (Evaluate (order absence) absence,
        if negb (sl_Completeness input =? CompletenessFull)%string then OutcomeSkippedQueryNotFull
        else OutcomeEvaluated).

Definition EvaluateSlot (input : SlotInput) : result SlotError (AbsenceResult * SlotOutcome) :=
  match sl_Plan input with
  | None => Ok (no_result, OutcomeNone)
  | Some plan =>
      match NoData plan with
      | None => Ok (no_result, OutcomeNone)
      | Some config =>
          class ← of_roster (ClassifyTarget (TargetScope plan) (TargetPlan plan) (cfg_AggDimension config));
          resolved ← resolved_members class (sl_TargetResolution input);
          match resolved with
          | inl outcome => Ok (no_result, outcome)
          | inr members => members_known input plan config class members
          end
      end
  end.

(** ** One Plan's round (nodata/plan_slot.go) *)

Record PlanSlotInput : Type := mkPlanSlotInput {
  ps_NoData : option NoDataConfigV1;
  ps_Scope : option TargetScopeV2;
  ps_Plan : option TargetPlanV1;
  ps_TargetResolution : option TargetResolution;
  ps_AnswerTruncated : bool;
  ps_Identity : PlanNoDataIdentity;
  Snapshot : NoDataMemorySnapshot;
  ps_ApplyVersion : ApplyVersion;
  ps_ScheduleRevision : string;
  ps_EvaluationTime : Z;
  ps_PeriodSeconds : Z;
  ps_Completeness : string;
  ps_Series : list (gmap string string);
  ps_KnownHosts : gset string;
  ps_HostsResolved : bool;
  ps_OutOfBusiness : gset string;
  ps_TrackingHorizonSeconds : Z;
}.

Record PlanSlotResult : Type := mkPlanSlotResult {
  Outcome : SlotOutcome;
  slot_Series : list SyntheticSeries;
  Mutation : option PlanNoDataMutation;
  slot_Facts : AbsenceFacts;
}.

Definition presentAsOf (groups : list NoDataGroupMemory) (stored evaluationTime : Z) (wholeItemPresent : bool) : Z :=
  if existsb (λ group, (gm_FirstAbsent group =? 0) && (gm_LastSeen group =? evaluationTime)) groups then evaluationTime
  else if wholeItemPresent then evaluationTime
  else stored.

Definition loadedMemory (snapshot : NoDataMemorySnapshot) : gmap string GroupMemory :=
  foldl (λ memory group,
    <[gm_GroupKey group := mkMemory (gm_LastSeen group) (gm_FirstAbsent group) (gm_SuppressedAt group)]> memory)
    ∅ (sn_Groups snapshot).

Definition remembers (entry : GroupMemory) : bool :=
  negb ((LastSeen entry =? 0) && (FirstAbsent entry =? 0) && (SuppressedAt entry =? 0)).

Definition stored_group (entry : string * GroupMemory) : NoDataGroupMemory :=
  mkGroupMemory entry.1 (LastSeen entry.2) (FirstAbsent entry.2) (SuppressedAt entry.2).

Definition storedGroups (memory : gmap string GroupMemory) : list NoDataGroupMemory :=
  stable_sort group_le (stored_group <$> filter (λ entry, remembers entry.2 = true) (map_to_list memory)).

Definition sameStoredGroups (left right : list NoDataGroupMemory) : bool := bool_decide (left = right).

Definition slot_input (input : PlanSlotInput) (config : NoDataConfigV1) : SlotInput :=
  mkSlotInput (Some (mkEvaluationPlan (Some config) (ps_Scope input) (ps_Plan input))) (ps_EvaluationTime input)
    (ps_PeriodSeconds input) (ps_Completeness input) (ps_Series input) (ps_KnownHosts input) (ps_HostsResolved input)
    (ps_OutOfBusiness input) (ps_TargetResolution input) (ps_AnswerTruncated input) (loadedMemory (Snapshot input))
    (ps_TrackingHorizonSeconds input) (sn_TrackingExhaustedAt (Snapshot input)).

Definition memory_update (input : PlanSlotInput) (result : AbsenceResult) (groups : list NoDataGroupMemory) (presentAsOf : Z)
    : PlanNoDataMemoryUpdate :=
  mkUpdate (ps_Identity input) (Representation (Snapshot input)) (MarkerRevision (Snapshot input))
    (PersistedApplyVersion (Snapshot input)) (ps_ApplyVersion input) (ps_ScheduleRevision input) (Version (res_Roster result))
    presentAsOf (TrackingExhaustedAt result) (sn_TrackingExhaustedAt (Snapshot input)) groups (sn_Groups (Snapshot input))
    (PresentAsOf (Snapshot input)).

(** Whether the round would write the memory that is there. *)
Definition nothing_moved (snapshot : NoDataMemorySnapshot) (result : AbsenceResult) (groups : list NoDataGroupMemory)
    (presentAsOf : Z) : bool :=
  sameStoredGroups groups (sn_Groups snapshot) && (sn_RosterVersion snapshot =? Version (res_Roster result))%string
  && (presentAsOf =? PresentAsOf snapshot) && (TrackingExhaustedAt result =? sn_TrackingExhaustedAt snapshot).

Variable memory_digest : MemoryPayload → option string.
Variable statement_digest : PlanNoDataMutation → option string.

Definition no_slot (outcome : SlotOutcome) : PlanSlotResult := mkPlanSlotResult outcome [] None (Facts no_result).

Definition EvaluatePlanSlot (input : PlanSlotInput) : result SlotError PlanSlotResult :=
  match ps_NoData input with
  | None => Ok (no_slot OutcomeNone)
  | Some config =>
      let snapshot := Snapshot input in
      if (Status snapshot =? NoDataMemoryUnreadable)%string then Ok (no_slot OutcomeSkippedMemoryUnreadable)
      else if negb (Status snapshot =? NoDataMemoryMissing)%string && negb (Status snapshot =? NoDataMemoryFound)%string then
        Err (MemoryNotRead (Status snapshot) (sn_ReasonCode snapshot))
      else
        evaluated ← EvaluateSlot (slot_input input config);
        let '(result, outcome) := evaluated in
        if negb (bool_decide (outcome = OutcomeEvaluated)) then Ok (mkPlanSlotResult outcome [] None (Facts result))
        else
          series ← of_roster (SyntheticSeriesFor (mkSyntheticInput (ps_EvaluationTime input) (ps_PeriodSeconds input) result
                                                    (Memory result) (res_Roster result)));
          let groups := storedGroups (Memory result) in
          let present := presentAsOf groups (PresentAsOf snapshot) (ps_EvaluationTime input) (WholeItemPresent result) in
          if nothing_moved snapshot result groups present then Ok (mkPlanSlotResult outcome series None (Facts result))
          else
            mutation ← of_contract (BuildPlanNoDataMutation memory_digest statement_digest
                                      (memory_update input result groups present));
            Ok (mkPlanSlotResult outcome series (Some mutation) (Facts result))
  end.
End slot.
