(* ===== verification/NoDataSlotSpec.v ===== *)
(** What a no-data round promises: a setting that validates names every dimension
    once, the series speak exactly the verdicts, and the rounds of an accepted Plan
    neither get stuck on their own record nor leave one a later round cannot read. *)
From S2P Require Import Prelude Group Absence AbsenceSpec AbsenceVerdicts AbsenceRounds Roster RosterSpec NoDataMemory NoDataMemorySpec NoDataSlot.

Open Scope Z_scope.

(** ** The setting *)

(** What [Validate] accepts. *)
Record config_accepted (config : NoDataConfigV1) : Prop := {
  ca_continuous : Continuous config ≠ 0;
  ca_level : 1 ≤ cfg_Level config ≤ 3;
  ca_horizon : 0 ≤ cfg_TrackingHorizonSeconds config ≤ MaxNoDataTrackingHorizonSeconds;
  ca_source : TrackingHorizonSource config = ""%string ∨
    cfg_TrackingHorizonSeconds config ≠ 0 ∧
    (TrackingHorizonSource config = NoDataHorizonSourcePlatform ∨ TrackingHorizonSource config = NoDataHorizonSourceStrategy);
  ca_named : ""%string ∉ cfg_AggDimension config;
  ca_tag : NoDataDimensionTag ∉ cfg_AggDimension config;
}.

Lemma deduplicate_total seen names :
  ""%string ∉ names → NoDataDimensionTag ∉ names →
  ∃ kept, deduplicate seen names = Ok kept ∧ NoDup kept ∧ (∀ name, name ∈ kept ↔ name ∈ names ∧ name ∉ seen) ∧ kept `sublist_of` names ∧
    (NoDup names → (∀ name, name ∈ names → name ∉ seen) → kept = names).
Proof.
  revert seen. induction names as [|name names IH]; intros seen H1 H2; cbn [deduplicate].
  { exists []. split_and!; [done|constructor|set_solver|done|done]. }
  apply not_elem_of_cons in H1 as [Hn1 H1], H2 as [Hn2 H2]. rewrite (proj2 (String.eqb_neq name "")), (proj2 (String.eqb_neq name NoDataDimensionTag)) by done.
  cbn [fail_if mbind result_bind]. case_bool_decide as Hs.
  - destruct (IH seen H1 H2) as (kept & Hd & Hnd & Hel & Hsub & Hid). exists kept. split_and!; [done|done|set_solver|by constructor|].
    intros _ Hall. destruct (Hall name); [left|done].
  - destruct (IH ({[name]} ∪ seen) H1 H2) as (kept & Hd & Hnd & Hel & Hsub & Hid). exists (name :: kept). rewrite Hd. split_and!; [done| | |by constructor|].
    + constructor; [|done]. rewrite Hel. set_solver.
    + intros x. rewrite elem_of_cons, Hel. destruct (decide (x = name)); set_solver.
    + intros [Hno Hnd']%NoDup_cons Hall. f_equal. apply Hid; [done|]. intros x Hx. specialize (Hall x ltac:(by right)).
      set_solver.
Qed.

Lemma deduplicate_named seen names kept : deduplicate seen names = Ok kept → ""%string ∉ names ∧ NoDataDimensionTag ∉ names.
Proof.
  revert seen kept. induction names as [|name names IH]; intros seen kept; cbn [deduplicate]; [set_solver|].
  rewrite !guard_Ok. intros (Hn1%String.eqb_neq & Hn2%String.eqb_neq & H).
  assert (∃ seen kept, deduplicate seen names = Ok kept) as (seen' & kept' & Hd).
  { case_bool_decide; [eauto|]. apply bind_Ok in H as (k & Hk & _). eauto. }
  apply IH in Hd as [? ?]. split; by apply not_elem_of_cons.
Qed.

Lemma validate_Ok config valid :
  ValidateNoDataConfig config = Ok valid ↔
  config_accepted config ∧
  ∃ kept, deduplicate ∅ (cfg_AggDimension config) = Ok kept ∧
    valid = mkConfig (Continuous config) kept (cfg_Level config) (cfg_TrackingHorizonSeconds config) (TrackingHorizonSource config).
Proof.
  unfold ValidateNoDataConfig. cbv zeta. rewrite !guard_Ok, bind_Ok. split.
  - intros (H1 & H2 & H3 & H4 & H5 & H6 & kept & Hd & [= <-]). split; [|by exists kept].
    pose proof (deduplicate_named _ _ _ Hd) as [Hn1 Hn2]. breflect. split; try done; try lia.
    destruct H6 as [H6|H6]; breflect; [left; by apply String.eqb_eq|].
    apply list_elem_of_In in H5. destruct H5 as [<-|[<-|[<-|[]]]]; auto.
  - intros [[H1 H2 H3 H4 H5 H6] (kept & Hd & ->)]. rewrite (proj2 (Z.eqb_neq _ _) H1).
    split_and!; [done|by apply orb_false_iff; lia|lia|lia| | |by exists kept].
    + apply negb_false_iff, bool_decide_eq_true_2. destruct H4 as [->|(_ & [->| ->])]; set_solver.
    + destruct H4 as [->|(Hz & _)]; [done|]. rewrite (proj2 (Z.eqb_neq _ _) Hz). apply andb_false_r.
Qed.

(** An accepted setting is well formed: a positive window, a level the contract
    has, a horizon a lifetime can hold with a source only beside one, and every
    dimension named once, never the empty name or the no-data tag; the validated
    section names the same dimensions, and validating it again changes nothing. *)
Lemma config_well_formed config :
  (is_ok (ValidateNoDataConfig config) = true ↔ config_accepted config) ∧
  ∀ valid, ValidateNoDataConfig config = Ok valid →
    config_accepted valid ∧ NoDup (cfg_AggDimension valid) ∧ cfg_AggDimension valid `sublist_of` cfg_AggDimension config ∧
    (∀ name, name ∈ cfg_AggDimension valid ↔ name ∈ cfg_AggDimension config) ∧ ValidateNoDataConfig valid = Ok valid.
Proof.
  split.
  - split.
    + destruct (ValidateNoDataConfig config) as [valid|] eqn:Hv; [|done]. by apply validate_Ok in Hv as [].
    + intros Hc. destruct (deduplicate_total ∅ (cfg_AggDimension config)) as (kept & Hd & _); [apply Hc|apply Hc|].
      destruct (ValidateNoDataConfig config) as [valid|] eqn:Hv; [done|].
      assert (ValidateNoDataConfig config = Ok (mkConfig (Continuous config) kept (cfg_Level config) (cfg_TrackingHorizonSeconds config) (TrackingHorizonSource config)))
        as H by (apply validate_Ok; split; [done|by exists kept]). congruence.
  - intros valid (Hc & kept & Hd & ->)%validate_Ok. pose proof Hc as [H1 H2 H3 H4 H5 H6].
    destruct (deduplicate_total ∅ _ H5 H6) as (kept' & Hd' & Hnd & Hel & Hsub & _). rewrite Hd in Hd'. injection Hd' as <-.
    assert (∀ name, name ∈ kept ↔ name ∈ cfg_AggDimension config) as Hel' by (intros; rewrite Hel; set_solver).
    assert (config_accepted (mkConfig (Continuous config) kept (cfg_Level config) (cfg_TrackingHorizonSeconds config) (TrackingHorizonSource config))) as Hv.
    { split; simpl; try done; by rewrite Hel'. }
    split_and!; try done. apply validate_Ok. split; [done|]. exists kept. split; [|done].
    destruct (deduplicate_total ∅ kept) as (kept' & Hd' & _ & _ & _ & Hid); [by rewrite Hel'..|].
    simpl. rewrite Hd'. f_equal. apply Hid; [done|set_solver].
Qed.

(** ** Keys that name their group *)

Definition names_group (key : string) (g : Group) : Prop := Key g = key ∧ ParseGroupKey key = Some g.
Definition proper (key : string) : Prop := ∃ g, names_group key g.

Lemma names_group_Key g :
  Forall (λ d, Name d ≠ ""%string) (dimensions g) → StronglySorted name_le (dimensions g) → names_group (Key g) g.
Proof. intros Hn Hs. split; [done|]. by apply parse_Key, sorted_names. Qed.

Lemma whole_proper : proper whole.
Proof. exists WholeItemGroup. apply names_group_Key; constructor. Qed.

Lemma tally_groups series agg key g :
  Groups (ProjectSeries series agg) !! key = Some g → Key g = key ∧ ∃ s, s ∈ series ∧ Project s agg = Some g.
Proof.
  unfold ProjectSeries. induction series as [|s series IH] using rev_ind; [simpl; by rewrite lookup_empty|].
  rewrite foldl_snoc. unfold tally_series at 1. setoid_rewrite elem_of_snoc. destruct (Project s agg) as [h|] eqn:Hp; cbn [Groups].
  - destruct (decide (Key h = key)) as [<-|Hne].
    + rewrite lookup_insert_eq. intros [= <-]. eauto.
    + rewrite lookup_insert_ne by done. intros [? (s' & ? & ?)]%IH. eauto.
  - intros [? (s' & ? & ?)]%IH. eauto.
Qed.

Lemma present_named series agg key g :
  ""%string ∉ agg → Groups (ProjectSeries series agg) !! key = Some g → names_group key g.
Proof. intros Hne (<- & s & _ & Hp)%tally_groups. split; [done|]. by eapply parse_projected. Qed.

Lemma group_add_names pairs m m' :
  foldl group_add (Some m) pairs = Some m' → ∀ k, is_Some (m' !! k) → is_Some (m !! k) ∨ k ∈ pairs.*1.
Proof.
  revert m. induction pairs as [|[n v] pairs IH]; intros m; cbn [foldl]; [intros [= <-]; auto|]. simpl.
  destruct (v =? "")%string.
  { assert (foldl group_add None pairs = None) as -> by (clear; induction pairs as [|? ? IHp]; [done|exact IHp]). done. }
  intros H k Hk. destruct (IH _ H k Hk) as [Hs|?]; [|right; by right]. destruct (decide (n = k)) as [->|]; [right; left|].
  rewrite lookup_insert_ne in Hs by done. by left.
Qed.

Lemma roster_dimension identity name :
  name ∈ RosterDimensions identity ↔ name ∈ Dimensions identity ∨ ModelDimension identity ≠ ""%string ∧ name = ModelDimension identity.
Proof.
  unfold RosterDimensions, str_le_sort. assert (∀ l : list string, name ∈ stable_sort String.le l ↔ name ∈ l) as -> by (intros; by rewrite stable_sort_perm).
  destruct (String.eqb_spec (ModelDimension identity) "") as [|Hm]; simpl; [naive_solver|]. rewrite elem_of_app, list_elem_of_singleton. naive_solver.
Qed.

Lemma plan_group_named identity member g :
  ""%string ∉ RosterDimensions identity → targetPlanGroup identity member = Some g → names_group (Key g) g.
Proof.
  intros Hne. unfold targetPlanGroup. destruct (identity_Group identity member) as [values|] eqn:Hv; [|done]. intros [= <-].
  apply names_group_Key; [|apply stable_sort_sorted; apply _]. cbn [dimensions]. rewrite stable_sort_perm. apply Forall_forall.
  unfold dimensions_of. intros d ([n v] & -> & Hin)%list_elem_of_fmap Hd. apply elem_of_map_to_list in Hin. simpl in Hd. subst n.
  apply Hne, roster_dimension. unfold identity_Group in Hv. destruct (negb _); [done|].
  destruct (foldl group_add _ _) as [m|] eqn:Hm; [|done]. pose proof (group_add_names _ _ _ Hm) as Hnames. injection Hv as <-.
  assert (is_Some (m !! ""%string) → ""%string ∈ Dimensions identity) as Hdim.
  { intros Hs. destruct (Hnames _ Hs) as [[? ?]|H]; [by rewrite lookup_empty in H|].
    apply list_elem_of_fmap in H as ([n' v'] & -> & H). by apply elem_of_zip_l in H. }
  destruct (String.eqb_spec (ModelDimension identity) "") as [|Hmd]; simpl in Hin; [left; eauto|].
  rewrite lookup_insert_ne in Hin by done. left. eauto.
Qed.

Lemma host_named host : names_group (Key (hostTargetGroup host)) (hostTargetGroup host).
Proof.
  apply names_group_Key; [|apply stable_sort_sorted; apply _]. rewrite hostTargetGroup_eq.
  apply Forall_cons_2; [done|]. apply Forall_cons_2; [done|]. apply Forall_nil_2.
Qed.

(** Every expected group is under its own key, and the key reads back. *)
Lemma roster_named roster_digest request roster :
  BuildRoster roster_digest request = Ok roster → ""%string ∉ AggDimension request →
  (∀ key entry, req_Memory request !! key = Some entry → proper key) →
  ∀ key g, ro_Groups roster !! key = Some g → names_group key g.
Proof.
  intros (class & Hc & _ & Hg & _)%BuildRoster_Ok Hne Hmem key g. unfold classified in Hc.
  destruct (req_Plan request) as [plan|].
  - destruct Hc as [-> Hsame]. injection Hg as <-. rewrite plan_groups. intros (<- & member & _ & Hm).
    eapply plan_group_named; [|exact Hm]. unfold sameDimensionSet in Hsame. apply andb_true_iff in Hsame as [_ Hset%bool_decide_eq_true]. set_solver.
  - destruct (Scope request) as [scope|].
    + case_bool_decide.
      * destruct Hc as (condition & hosts & _ & _ & _ & ->). injection Hg as <-. rewrite static_groups.
        intros (<- & host & _ & _ & ->). apply host_named.
      * subst class. injection Hg as <-. by rewrite lookup_empty.
    + subst class. rewrite (historyGroups_spec _ _ _ _ Hg). intros (entry & He & _ & Hp).
      destruct (Hmem _ _ He) as (g' & Hk & Hp'). split; congruence.
Qed.

(** A roster of an accepted target is built from any memory of proper keys. *)
Lemma roster_builds roster_digest request class :
  ClassifyTarget (Scope request) (req_Plan request) (AggDimension request) = Ok class →
  (∀ source keys, ∃ d, roster_digest source keys = Some d ∧ d ≠ ""%string) →
  (∀ key entry, req_Memory request !! key = Some entry → proper key) →
  ∃ roster, BuildRoster roster_digest request = Ok roster ∧ Version roster ≠ ""%string ∧ Source roster = class_Source class.
Proof.
  intros Hc Hd Hmem. assert (∃ groups, class_groups class request = Ok groups) as [groups Hg].
  { unfold class_groups. destruct (_ =? _)%string eqn:Hs.
    - assert (is_ok (historyGroups (req_Memory request)) = true) as Hok.
      { apply historyGroups_total. intros key entry He _. destruct (Hmem _ _ He) as (g & _ & ->). eauto. }
      destruct (historyGroups _); [eauto|done].
    - repeat case_match; by eexists. }
  destruct (Hd (class_Source class) (str_le_sort (elements (dom groups : gset string)))) as (d & Hd' & Hne).
  exists (mkRoster d (class_Source class) groups). split_and!; [|done..]. apply BuildRoster_Ok. exists class.
  split_and!; [by apply ClassifyTarget_Ok|done|exact Hg|exact Hd'].
Qed.

(** ** Memories in the evaluation and in the record *)

(** An entry of a record last seen with data at [p]. *)
Record sound (p : Z) (e : GroupMemory) : Prop := mkSound {
  so_seen : 0 ≤ LastSeen e ≤ p;
  so_first : 0 ≤ FirstAbsent e;
  so_suppressed : 0 ≤ SuppressedAt e;
  so_something : LastSeen e ≠ 0 ∨ FirstAbsent e ≠ 0;
  so_stopped : SuppressedAt e ≠ 0 → FirstAbsent e ≠ 0;
}.

Lemma loadedMemory_Some sn key e :
  loadedMemory sn !! key = Some e →
  ∃ g, g ∈ sn_Groups sn ∧ key = gm_GroupKey g ∧ e = mkMemory (gm_LastSeen g) (gm_FirstAbsent g) (gm_SuppressedAt g).
Proof.
  unfold loadedMemory. induction (sn_Groups sn) as [|g groups IH] using rev_ind; [simpl; by rewrite lookup_empty|].
  rewrite foldl_snoc. setoid_rewrite elem_of_snoc. destruct (decide (gm_GroupKey g = key)) as [<-|Hne].
  - rewrite lookup_insert_eq. intros [= <-]. eauto.
  - rewrite lookup_insert_ne by done. intros (h & ? & ? & ?)%IH. eauto 6.
Qed.

Lemma storedGroups_elem memory g :
  g ∈ storedGroups memory ↔ ∃ key e, memory !! key = Some e ∧ remembers e = true ∧ g = stored_group (key, e).
Proof.
  unfold storedGroups. assert (∀ l, g ∈ stable_sort group_le l ↔ g ∈ l) as -> by (intros; by rewrite stable_sort_perm).
  rewrite list_elem_of_fmap. split.
  - intros ([key e] & -> & [Hr Hin]%list_elem_of_filter). apply elem_of_map_to_list in Hin. eauto.
  - intros (key & e & Hm & Hr & ->). exists (key, e). split; [done|]. apply list_elem_of_filter. by rewrite elem_of_map_to_list.
Qed.

Lemma stored_nodup (memory : gmap string GroupMemory) :
  NoDup (gm_GroupKey <$> (stored_group <$> filter (λ entry, remembers entry.2 = true) (map_to_list memory))).
Proof.
  rewrite <- list_fmap_compose. change (NoDup (fst <$> filter (λ entry, remembers entry.2 = true) (map_to_list memory))).
  eapply sublist_NoDup; [apply (NoDup_fst_map_to_list memory)|]. apply fmap_sublist, sublist_filter.
Qed.

Lemma sound_storable p key e : key ≠ ""%string → sound p e → storable (stored_group (key, e)).
Proof. intros Hk [H1 H2 H3 H4 H5]. unfold storable, stored_group. simpl. split_and!; done || lia. Qed.

Lemma remembers_sound p e : sound p e → remembers e = true.
Proof.
  intros [_ _ _ H _]. unfold remembers. apply negb_true_iff, andb_false_iff. left. apply andb_false_iff.
  destruct H as [H|H]; [left|right]; by apply Z.eqb_neq.
Qed.

Lemma proper_some key : proper key → key ≠ ""%string.
Proof. intros (g & _ & Hp) ->. by vm_compute in Hp. Qed.

(** A list of groups holds a memory: entry for entry, with everything each carries. *)
Record same_memory (memory : gmap string GroupMemory) (groups : list NoDataGroupMemory) : Prop := mkSameMemory {
  sm_count : length groups = size memory;
  sm_groups key last first suppressed :
    mkGroupMemory key last first suppressed ∈ groups ↔ memory !! key = Some (mkMemory last first suppressed);
}.

Lemma stored_same memory :
  (∀ key e, memory !! key = Some e → remembers e = true) → same_memory memory (storedGroups memory).
Proof.
  intros Hall. split.
  - unfold storedGroups. rewrite stable_sort_perm, length_fmap. rewrite filter_every; [apply length_map_to_list|]. intros [key e] He%elem_of_map_to_list. by eapply Hall.
  - intros key last first suppressed. rewrite storedGroups_elem. split.
    + intros (k & [] & Hk & _ & Heq). unfold stored_group in Heq. cbn in Heq. by injection Heq as -> -> -> ->.
    + intros Hk. exists key, (mkMemory last first suppressed). split_and!; [done|by eapply Hall|done].
Qed.

(** What the round is given is the record's memory. *)
Lemma loaded_same sn : NoDup (gm_GroupKey <$> sn_Groups sn) → same_memory (loadedMemory sn) (sn_Groups sn).
Proof.
  unfold loadedMemory. induction (sn_Groups sn) as [|g groups IH] using rev_ind.
  { intros _. cbn [foldl]. split; [by rewrite map_size_empty|]. intros key last first suppressed. rewrite lookup_empty. split; [by intros ?%not_elem_of_nil|done]. }
  rewrite fmap_app, foldl_snoc. intros (Hnd & Hno & _)%NoDup_app. destruct (IH Hnd) as [Hlen Hin]. set (m := foldl _ _ _) in *.
  assert (m !! gm_GroupKey g = None) as Hm.
  { destruct (m !! gm_GroupKey g) as [[l f s]|] eqn:Hg; [|done]. apply Hin in Hg. exfalso.
    apply (Hno (gm_GroupKey g)); [|by left]. by apply (list_elem_of_fmap_2 gm_GroupKey) in Hg. }
  split; [rewrite length_app, map_size_insert_None by done; simpl; lia|]. intros key last first suppressed. rewrite elem_of_app, list_elem_of_singleton.
  destruct (decide (gm_GroupKey g = key)) as [<-|Hne].
  - rewrite lookup_insert_eq. split; [intros [Hg|Hg]|].
    + apply Hin in Hg. congruence.
    + by rewrite <- Hg.
    + intros [= <- <- <-]. right. by destruct g.
  - rewrite lookup_insert_ne, <- Hin by done. split; [intros [Hg|Hg]; [done|by rewrite <- Hg in Hne]|by left].
Qed.

(** The round at [now] saw data of the Plan: of a group, or of the whole item. *)
Definition data_seen_by (now : Z) (outcome : AbsenceResult) : Prop :=
  WholeItemPresent outcome = true ∨ ∃ key suppressed, Memory outcome !! key = Some (mkMemory now 0 suppressed).

(** ** What a round makes of a sound memory *)

Section round.
Variables (order : iteration) (input : AbsenceInput) (p : Z).
Hypothesis Horder : iterates input order.
Notation now := (EvaluationTime input).
Notation outcome := (Evaluate order input).
Hypothesis present_proper : ∀ key g, Present input !! key = Some g → proper key.
Hypothesis roster_proper : ∀ key g, ro_Groups (in_Roster input) !! key = Some g → proper key.
Hypothesis memory_proper : ∀ key e, in_Memory input !! key = Some e → proper key.
Hypothesis memory_sound : ∀ key e, in_Memory input !! key = Some e → sound p e.
Hypothesis time : 0 < now ∧ 0 ≤ p ≤ now.

Lemma remembered_Some key : FirstAbsent (remembered input key) ≠ 0 → ∃ e, in_Memory input !! key = Some e.
Proof. unfold remembered, memory_of. destruct (in_Memory input !! key); [eauto|done]. Qed.

Lemma verdict_proper key v : Verdicts outcome !! key = Some v → proper key.
Proof.
  pose proof (Evaluate_fate order input Horder key) as H. change (Verdicts outcome !! key) with (cell_verdict (cell_of outcome key)).
  intros Hv.
  assert (expects input key → proper key) as Hexp by (intros [g Hg]; eauto).
  assert (tracked input key → proper key) as Htr by (intros [[? _]|[(-> & _) _]]; [auto|apply whole_proper]).
  destruct H; simpl in Hv; try discriminate Hv; auto.
  - match goal with H : reported _ _ |- _ => destruct H as [[-> _]|(_ & [g Hg] & _)] end; [apply whole_proper|eauto].
  - match goal with H : open _ _ |- _ => destruct H as [(e & He)%remembered_Some _] end. eauto.
Qed.

Lemma first_absent_pos key : 0 < first_absent input (remembered input key).
Proof.
  unfold first_absent, remembered, memory_of. destruct (in_Memory input !! key) as [e|] eqn:He; simpl; [|lia].
  apply memory_sound in He as []. destruct (Z.eqb_spec (FirstAbsent e) 0); lia.
Qed.

Lemma last_seen_bounds key : 0 ≤ last_seen input key ≤ p.
Proof.
  unfold last_seen, remembered, memory_of. case_bool_decide; [|lia]. destruct (in_Memory input !! key) as [e|] eqn:He; simpl; [|lia].
  apply memory_sound in He as []. lia.
Qed.

Lemma memory_after key e :
  Memory outcome !! key = Some e → proper key ∧ (e = seen_now input ∨ sound p e).
Proof.
  pose proof (Evaluate_fate order input Horder key) as H. change (Memory outcome !! key) with (cell_memory (cell_of outcome key)).
  pose proof (first_absent_pos key) as Hf. pose proof (last_seen_bounds key) as Hl.
  assert (expects input key → proper key) as Hexp by (intros [g Hg]; eauto).
  assert (tracked input key → proper key) as Htr by (intros [[? _]|[(-> & _) _]]; [auto|apply whole_proper]).
  assert (in_Memory input !! key = Some e → proper key ∧ (e = seen_now input ∨ sound p e)) as Hold by (intros; split; [eauto|right; eauto]).
  intros He. destruct H; simpl in He; try discriminate He; auto.
  - case_bool_decide; [done|]. injection He as <-. split; [|by left].
    match goal with H : reported _ _ |- _ => destruct H as [[? _]|(_ & [g Hg] & _)] end; [done|eauto].
  - injection He as <-. split; [auto|]. right. split; simpl; lia.
  - case_bool_decide; [done|]. injection He as <-. split; [auto|]. right. split; simpl; lia.
  - case_bool_decide; [done|]. auto.
Qed.

Lemma groups_after g :
  g ∈ storedGroups (Memory outcome) →
  proper (gm_GroupKey g) ∧ storable g ∧ stopped_absent g ∧ 0 ≤ gm_SuppressedAt g ∧
  (gm_LastSeen g ≤ p ∨ gm_LastSeen g = now ∧ gm_FirstAbsent g = 0).
Proof.
  intros (key & e & He & _ & ->)%storedGroups_elem. apply memory_after in He as [Hk [->|Hs]].
  - split; [done|]. unfold storable, stopped_absent. simpl. pose proof (proper_some _ Hk). split_and!; done || lia.
  - split; [done|]. pose proof (sound_storable p key e (proper_some _ Hk) Hs). destruct Hs as [H1 H2 H3 H4 H5]. split_and!; try done.
    simpl. lia.
Qed.

Notation groups := (storedGroups (Memory outcome)).
Notation present := (presentAsOf groups p now (WholeItemPresent outcome)).

Lemma present_after : p ≤ present ≤ now ∧ (WholeItemPresent outcome = true → present = now) ∧
  Forall (λ g, gm_LastSeen g ≤ present) groups.
Proof.
  unfold presentAsOf. destruct (existsb _ groups) eqn:He.
  - split_and!; [lia|lia|done|]. apply Forall_forall. intros g (_ & _ & _ & _ & H)%groups_after. lia.
  - split_and!; [destruct (WholeItemPresent outcome); lia|destruct (WholeItemPresent outcome); lia|by intros ->|].
    apply Forall_forall. intros g Hg. pose proof (groups_after g Hg) as (_ & _ & _ & _ & H).
    destruct H as [H|[H Hz]]; [destruct (WholeItemPresent outcome); lia|]. exfalso.
    assert (existsb (λ group, (gm_FirstAbsent group =? 0) && (gm_LastSeen group =? now)) groups = true) as Ht; [|congruence].
    apply existsb_exists. exists g. split; [by apply list_elem_of_In|]. by rewrite Hz, H, !Z.eqb_refl.
Qed.

Lemma groups_canonical : canonical groups.
Proof.
  apply sort_canonical. split; [apply stored_nodup|]. apply Forall_forall. intros g Hg.
  apply groups_after. unfold storedGroups. by rewrite stable_sort_perm.
Qed.

Lemma memory_remembered key e : Memory outcome !! key = Some e → remembers e = true.
Proof.
  intros [_ [->|Hs]]%memory_after; [|by eapply remembers_sound]. unfold remembers. simpl. by rewrite (proj2 (Z.eqb_neq now 0)) by lia.
Qed.

Lemma groups_same : same_memory (Memory outcome) groups.
Proof. apply stored_same, memory_remembered. Qed.

Lemma present_seen : (data_seen_by now outcome → present = now) ∧ (¬ data_seen_by now outcome → present = p).
Proof.
  unfold presentAsOf, data_seen_by. destruct (existsb _ groups) eqn:He.
  - split; [done|]. intros []. right. apply existsb_exists in He as ([key last first suppressed] & Hin & Hg).
    apply list_elem_of_In, groups_same in Hin. cbn in Hg. breflect. subst. eauto.
  - split.
    + intros [->|(key & suppressed & Hk)]; [done|]. apply groups_same in Hk.
      assert (existsb (λ group, (gm_FirstAbsent group =? 0) && (gm_LastSeen group =? now)) groups = true) as Ht; [|congruence].
      apply existsb_exists. eexists. split; [by apply list_elem_of_In|]. cbn. by rewrite Z.eqb_refl.
    + intros Hno. destruct (WholeItemPresent outcome); [by destruct Hno; left|done].
Qed.

Lemma nothing_stored : groups = [] → Memory outcome = ∅.
Proof.
  intros Hn. apply map_empty. intros key. destruct (Memory outcome !! key) as [e|] eqn:He; [|done]. exfalso.
  assert (stored_group (key, e) ∈ groups) as Hin; [|rewrite Hn in Hin; by apply not_elem_of_nil in Hin].
  apply storedGroups_elem. exists key, e. split_and!; [done| |done]. apply memory_after in He as [_ [->|Hs]].
  - unfold remembers. simpl. rewrite (proj2 (Z.eqb_neq now 0)) by lia. done.
  - by eapply remembers_sound.
Qed.
End round.

(** ** The mark of an emptied roster *)

Lemma Evaluate_roster order input : iterates input order → res_Roster (Evaluate order input) = in_Roster input.
Proof.
  intros Ho. destruct (evaluateAbsence_roster input order Ho) as [Hr _]. unfold Evaluate.
  destruct (_ || _); [done|]. by destruct (_ =? 0).
Qed.

Lemma Evaluate_exhausted order input :
  iterates input order → 0 < EvaluationTime input → 0 ≤ in_TrackingExhaustedAt input →
  let r := Evaluate order input in
  0 ≤ TrackingExhaustedAt r ∧ (TrackingExhaustedAt r ≠ 0 → Memory r = ∅) ∧
  (in_TrackingExhaustedAt input ≠ 0 → TrackingExhaustedAt r = 0 → Memory r = ∅ → WholeItemPresent r = true).
Proof.
  intros Ho Hnow Hx. pose proof (evaluateAbsence_exhausted input order Ho) as Hat.
  assert (0 ≤ TrackingExhaustedAt (evaluateAbsence order input)) as Hpos by (rewrite Hat; destruct (_ && _); lia).
  unfold Evaluate. cbv zeta. cbn [Memory WholeItemPresent set_whole_present TrackingExhaustedAt].
  destruct (bool_decide_reflect (Memory (evaluateAbsence order input) = ∅)) as [Hm|Hm]; simpl.
  - destruct (bool_decide (is_Some (Present input !! whole))); simpl; [split_and!; done|].
    destruct (Z.eqb_spec (TrackingExhaustedAt (evaluateAbsence order input)) 0) as [Hz|Hz]; simpl; split_and!; done || (intros; congruence).
  - split_and!; done.
Qed.

(** ** The series *)

Lemma series_loop_Ok input keys series :
  series_loop input keys = Ok series ↔
  Forall2 (λ key s, ∃ g, series_group (si_Roster input) key = Some g ∧ s = series_of input key g) keys series.
Proof.
  revert series. induction keys as [|key keys IH]; intros series; cbn [series_loop].
  - split; [intros [= <-]; constructor|by inversion 1].
  - destruct (series_group (si_Roster input) key) as [g|] eqn:Hg.
    + rewrite bind_Ok. split.
      * intros (l & Hl%IH & [= <-]). constructor; [eauto|done].
      * intros H. inversion H as [|? s ? l (g' & Hg' & ->) Hl]; simplify_eq. exists l. split; [by apply IH|done].
    + split; [done|]. inversion 1 as [|? s ? l (g' & Hg' & _) Hl]; simplify_eq.
Qed.

Lemma verdict_keys_spec verdicts :
  StronglySorted (key_lt (λ k : string, k)) (verdict_keys verdicts) ∧
  ∀ key, key ∈ verdict_keys verdicts ↔ ∃ v, verdicts !! key = Some v ∧ v ≠ VerdictUnavailable.
Proof.
  unfold verdict_keys. set (l := (filter _ _).*1).
  assert (NoDup l) as Hnd.
  { eapply sublist_NoDup; [apply (NoDup_fst_map_to_list verdicts)|]. apply fmap_sublist, sublist_filter. }
  split.
  - unfold str_le_sort. assert (NoDup (stable_sort String.le l)) as Hnd' by (by rewrite stable_sort_perm).
    pose proof (stable_sort_sorted String.le l) as Hs. revert Hnd'. induction Hs as [|k ks Hks IH Hk]; [constructor|].
    intros [Hno Hnd']%NoDup_cons. constructor; [by apply IH|]. rewrite Forall_forall in Hk. apply Forall_forall.
    intros x Hx. apply str_ltb_lt. split; [by apply Hk|]. by intros ->.
  - intros key. unfold str_le_sort. assert (key ∈ stable_sort String.le l ↔ key ∈ l) as -> by (by rewrite stable_sort_perm).
    unfold l. rewrite list_elem_of_fmap. split.
    + intros ([k v] & -> & [Hv Hin]%list_elem_of_filter). apply elem_of_map_to_list in Hin. eauto.
    + intros (v & Hv & Hne). exists (key, v). split; [done|]. apply list_elem_of_filter. by rewrite elem_of_map_to_list.
Qed.

Lemma absentPeriods_pos memory now period :
  0 < period → 0 ≤ LastSeen memory ≤ now → 0 ≤ FirstAbsent memory ≤ now → now ≤ maxInt64 →
  1 ≤ absentPeriods memory now period.
Proof.
  intros Hp Hl Hf Hn. unfold absentPeriods. destruct (Z.leb_spec period 0); [lia|]. cbv zeta.
  destruct (_ && _) eqn:Hs; [breflect; lia|]. destruct (Z.ltb_spec 0 (FirstAbsent memory)); [|lia].
  rewrite (i64_id (now - FirstAbsent memory)) by go_lia. rewrite Z.quot_div_nonneg by lia.
  pose proof (Z.div_pos (now - FirstAbsent memory) period ltac:(lia) Hp).
  assert ((now - FirstAbsent memory) / period ≤ now - FirstAbsent memory) by (apply Z.div_le_upper_bound; nia).
  rewrite i64_id; [lia|go_lia].
Qed.

Lemma anomaly_memory order input key :
  iterates input order →
  (∀ key e, in_Memory input !! key = Some e → proper key ∧ sound (EvaluationTime input) e ∧ FirstAbsent e ≤ EvaluationTime input) →
  Verdicts (Evaluate order input) !! key = Some VerdictAnomaly → 0 < EvaluationTime input →
  ∃ e, Memory (Evaluate order input) !! key = Some e ∧ 0 ≤ LastSeen e ≤ EvaluationTime input ∧ 0 ≤ FirstAbsent e ≤ EvaluationTime input.
Proof.
  intros Ho Hmem Hv Hnow. pose proof (Evaluate_fate order input Ho key) as H.
  change (Memory (Evaluate order input) !! key) with (cell_memory (cell_of (Evaluate order input) key)).
  change (Verdicts (Evaluate order input) !! key) with (cell_verdict (cell_of (Evaluate order input) key)) in Hv.
  destruct H; simpl in Hv; try discriminate Hv; [case_bool_decide; discriminate Hv|]. eexists. split; [done|]. cbn [LastSeen FirstAbsent].
  unfold last_seen, first_absent, remembered, memory_of. destruct (in_Memory input !! key) as [e|] eqn:He; simpl.
  - destruct (Hmem _ _ He) as (_ & [] & Hle). split; [by case_bool_decide; lia|]. destruct (Z.eqb_spec (FirstAbsent e) 0); lia.
  - split; [by case_bool_decide; lia|lia].
Qed.

(** Every verdict's group is known: from the roster, or out of its key. *)
Lemma verdict_group order absence :
  iterates absence order →
  (∀ key g, Present absence !! key = Some g → proper key) →
  (∀ key g, ro_Groups (in_Roster absence) !! key = Some g → names_group key g) →
  (∀ key e, in_Memory absence !! key = Some e → proper key) →
  ∀ key v, Verdicts (Evaluate order absence) !! key = Some v →
  ∃ g, series_group (in_Roster absence) key = Some g ∧ Key g = key.
Proof.
  intros Ho Hpres Hroster Hmem key v Hv. unfold series_group. destruct (ro_Groups (in_Roster absence) !! key) as [g|] eqn:Hg.
  - exists g. split; [done|]. by apply Hroster in Hg as [].
  - assert (∀ k g', ro_Groups (in_Roster absence) !! k = Some g' → proper k) as Hrp by (intros k g' Hg'; exists g'; eauto).
    destruct (verdict_proper order absence Ho Hpres Hrp Hmem key v Hv) as (g & Hk & Hp). eauto.
Qed.

Lemma series_exist input :
  (∀ key v, Verdicts (si_Result input) !! key = Some v → ∃ g, series_group (si_Roster input) key = Some g ∧ Key g = key) →
  ∃ series, SyntheticSeriesFor input = Ok series ∧
    Forall2 (λ key s, ∃ g, Key g = key ∧ s = series_of input key g) (verdict_keys (Verdicts (si_Result input))) series.
Proof.
  intros Hname. destruct (verdict_keys_spec (Verdicts (si_Result input))) as [_ Hkeys].
  assert (∃ series, Forall2 (λ key s, ∃ g, series_group (si_Roster input) key = Some g ∧ Key g = key ∧ s = series_of input key g)
            (verdict_keys (Verdicts (si_Result input))) series) as [series Hs].
  { apply Forall_exists_Forall2_l. apply Forall_forall. intros key (v & Hv & _)%Hkeys. destruct (Hname key v Hv) as (g & Hg & Hk). eauto. }
  exists series. split; [|eapply Forall2_impl; [exact Hs|]; intros key s (g & _ & ? & ?); eauto].
  apply series_loop_Ok. eapply Forall2_impl; [exact Hs|]. intros key s (g & Hg & _ & ->). eauto.
Qed.

(** A round's series say exactly its verdicts: one series for each verdict but
    the unavailable ones, in key order, under the group its key names and at the
    period the round decides; valued one, with a positive count of periods, for an
    absence and zero for the rest, and marked closing where the evaluation closed. *)
Lemma series_speak_verdicts order absence input :
  iterates absence order → si_Result input = Evaluate order absence → si_Memory input = Memory (si_Result input) →
  si_Roster input = in_Roster absence → si_EvaluationTime input = EvaluationTime absence →
  (∀ key g, Present absence !! key = Some g → proper key) →
  (∀ key g, ro_Groups (in_Roster absence) !! key = Some g → names_group key g) →
  (∀ key e, in_Memory absence !! key = Some e → proper key ∧ sound (EvaluationTime absence) e ∧ FirstAbsent e ≤ EvaluationTime absence) →
  0 < EvaluationTime absence ≤ maxInt64 → 0 < si_PeriodSeconds input ≤ maxInt64 →
  ∃ keys series, SyntheticSeriesFor input = Ok series ∧
    StronglySorted (λ a b, str_ltb a b = true) keys ∧
    (∀ key, key ∈ keys ↔ ∃ v, Verdicts (si_Result input) !! key = Some v ∧ v ≠ VerdictUnavailable) ∧
    Forall2 (λ key s,
      Key (ss_Group s) = key ∧ SourceTime s = EvaluationTime absence - si_PeriodSeconds input ∧
      (ss_Value s = AbsentValue ↔ Verdicts (si_Result input) !! key = Some VerdictAnomaly) ∧
      (ss_Value s = AbsentValue ∧ 1 ≤ Periods s ∨ ss_Value s = PresentValue ∧ Periods s = 0) ∧
      (ss_Closing s = true ↔ Closing (si_Result input) !! key = Some true)) keys series.
Proof.
  intros Ho Hr Hm Hro Hnow Hpres Hroster Hmem Htime Hperiod.
  destruct (verdict_keys_spec (Verdicts (si_Result input))) as [Hsorted Hkeys]. exists (verdict_keys (Verdicts (si_Result input))).
  destruct (series_exist input) as (series & Hok & Hs).
  { rewrite Hr, Hro. apply verdict_group; [done..|]. intros key e He. by apply Hmem in He as []. }
  exists series. split_and!; [exact Hok|exact Hsorted|exact Hkeys|].
  - eapply Forall2_impl; [exact Hs|]. intros key s (g & Hk & ->). unfold series_of. cbv zeta. rewrite Hnow.
    assert (i64 (EvaluationTime absence - si_PeriodSeconds input) = EvaluationTime absence - si_PeriodSeconds input) as -> by (rewrite i64_id; go_lia).
    assert (default false (Closing (si_Result input) !! key) = true ↔ Closing (si_Result input) !! key = Some true) as Hclose
      by (destruct (Closing (si_Result input) !! key) as [[]|]; simpl; naive_solver).
    case_bool_decide as Hv; cbn [ss_Group ss_Value Periods SourceTime ss_Closing].
    + split_and!; [done..|by split| |done]. left. split; [done|]. rewrite Hm. rewrite Hr in Hv |- *.
      destruct (anomaly_memory order absence key Ho Hmem Hv ltac:(lia)) as (e & He & Hl & Hf).
      unfold memory_of. rewrite He. simpl. apply absentPeriods_pos; lia.
    + split_and!; [done..|by split|by right|done].
Qed.
