(* ===== verification/NoDataRounds.v ===== *)
(** The rounds of an accepted Plan over its own record: a round judges exactly when
    it saw everything it needs, one that did not judge says and writes nothing, and
    one that did leaves a record the next can read. *)
From S2P Require Import Prelude Group Absence AbsenceSpec AbsenceVerdicts AbsenceRounds Roster RosterSpec NoDataMemory NoDataMemorySpec NoDataSlot NoDataSlotSpec.

Open Scope Z_scope.

(** ** Records and Plans *)

(** A record the rounds keep: canonical, of groups whose keys read back, none seen
    after the Plan last had data, and nothing in it once its roster is exhausted. *)
Record record_kept (groups : list NoDataGroupMemory) (presentAsOf exhausted : Z) : Prop := mkKept {
  rk_canonical : canonical groups;
  rk_groups : Forall (λ g, proper (gm_GroupKey g) ∧ stopped_absent g ∧ 0 ≤ gm_SuppressedAt g ∧ gm_LastSeen g ≤ presentAsOf) groups;
  rk_present : 0 ≤ presentAsOf;
  rk_exhausted : 0 ≤ exhausted ∧ (exhausted ≠ 0 → groups = []);
}.

Record snapshot_kept (sn : NoDataMemorySnapshot) : Prop := mkSnapshotKept {
  sk_source :
    Status sn = NoDataMemoryMissing ∧ Representation sn = NoDataRepresentationNone ∧ PersistedApplyVersion sn = no_version ∧
      MarkerRevision sn = 0 ∨
    Status sn = NoDataMemoryFound ∧ Representation sn = NoDataRepresentationPerGroup ∧
      version_valid (PersistedApplyVersion sn) = true ∧ MarkerRevision sn ≠ 0;
  sk_record : record_kept (sn_Groups sn) (PresentAsOf sn) (sn_TrackingExhaustedAt sn);
}.

(** What the catalog and the worker vouch for: a setting that validated, a target
    its roster is defined for, a resolution in a known state, names, and a round
    not before the data the record holds. *)
Record accepted (input : PlanSlotInput) (config : NoDataConfigV1) (class : RosterClass) : Prop := mkAccepted {
  ac_config : ps_NoData input = Some config;
  ac_valid : config_accepted config;
  ac_class : ClassifyTarget (ps_Scope input) (ps_Plan input) (cfg_AggDimension config) = Ok class;
  ac_resolution : ∀ r, ps_TargetResolution input = Some r →
    State r = TargetResolutionComplete ∨ State r = TargetResolutionIncomplete ∨ State r = TargetResolutionUnavailable;
  ac_identity : sn_Identity (Snapshot input) = ps_Identity input ∧ plan_valid (id_Plan (ps_Identity input)) = true ∧
    StateGeneration (ps_Identity input) ≠ ""%string;
  ac_named : ps_ScheduleRevision input ≠ ""%string ∧ version_valid (ps_ApplyVersion input) = true;
  ac_time : 0 < ps_EvaluationTime input ∧ PresentAsOf (Snapshot input) ≤ ps_EvaluationTime input ∧
    (sn_TrackingExhaustedAt (Snapshot input) ≠ 0 → PresentAsOf (Snapshot input) < ps_EvaluationTime input);
}.

(** What a round has to have seen to judge absence. *)
Definition judges (input : PlanSlotInput) (class : RosterClass) : Prop :=
  ps_Completeness input = CompletenessFull ∧ ps_AnswerTruncated input = false ∧
  (class_Source class = RosterTargetStatic → ps_HostsResolved input = true) ∧
  (class_Source class = RosterTargetPlan →
   ∃ r, ps_TargetResolution input = Some r ∧ State r = TargetResolutionComplete).

Section rounds.
Variable roster_digest : string → list string → option string.
Variable order : AbsenceInput → iteration.
Variable memory_digest : MemoryPayload → option string.
Variable statement_digest : PlanNoDataMutation → option string.
Hypothesis orders : ∀ absence, iterates absence (order absence).
Hypothesis roster_digests : ∀ source keys, ∃ d, roster_digest source keys = Some d ∧ d ≠ ""%string.
Hypothesis memory_digests : ∀ payload, ∃ d, memory_digest payload = Some d ∧ d ≠ ""%string.
Hypothesis statement_digests : ∀ mu, ∃ s, statement_digest mu = Some s ∧ s ≠ ""%string.
Notation Build := (BuildPlanNoDataMutation memory_digest statement_digest).
Notation EvaluatePlanSlot := (EvaluatePlanSlot roster_digest order memory_digest statement_digest).
Notation EvaluateSlot := (EvaluateSlot roster_digest order).

(** ** The memory that is loaded *)

Lemma stored_entry sn key e :
  snapshot_kept sn → loadedMemory sn !! key = Some e → proper key ∧ sound (PresentAsOf sn) e.
Proof.
  intros [_ [[_ Hst] Hg _ _]] (g & Hin & -> & ->)%loadedMemory_Some. rewrite Forall_forall in Hst, Hg.
  destruct (Hst g Hin) as (Hk & Hl & Hf & Hz). destruct (Hg g Hin) as (Hp & Hs & Hsup & Hle). split; [done|].
  split; simpl; done || lia.
Qed.

(** ** One Slot *)

(** The Slot was judged over the roster that was built, or skipped by name. *)
Definition judged (input : PlanSlotInput) (config : NoDataConfigV1) (class : RosterClass)
    (evaluated : result SlotError (AbsenceResult * SlotOutcome)) : Prop :=
  (∃ r outcome, evaluated = Ok (r, outcome) ∧ outcome ≠ OutcomeEvaluated ∧ ¬ judges input class) ∨
  (judges input class ∧ ∃ roster,
     let absence := absence_input (slot_input input config) config roster in
     evaluated = Ok (Evaluate (order absence) absence, OutcomeEvaluated) ∧ Version roster ≠ ""%string ∧
     (∀ key g, ro_Groups roster !! key = Some g → names_group key g)).

Notation plan_of input config := (mkEvaluationPlan (Some config) (ps_Scope input) (ps_Plan input)).

Lemma members_judged input config class members :
  accepted input config class → snapshot_kept (Snapshot input) →
  (class_Source class = RosterTargetPlan → ∃ r, ps_TargetResolution input = Some r ∧ State r = TargetResolutionComplete) →
  judged input config class (members_known roster_digest order (slot_input input config) (plan_of input config) config class members).
Proof.
  intros [_ Hvalid Hclass _ _ _ _] Hsn Hcomplete. unfold members_known, judged, judges.
  change (HostsResolved (slot_input input config)) with (ps_HostsResolved input).
  change (AnswerTruncated (slot_input input config)) with (ps_AnswerTruncated input).
  change (sl_Completeness (slot_input input config)) with (ps_Completeness input).
  set (request := roster_request _ _ _ _).
  assert (∀ key e, req_Memory request !! key = Some e → proper key) as Hmem by (intros key e He; by apply (stored_entry _ _ _ Hsn) in He as []).
  destruct (roster_builds roster_digest request class Hclass roster_digests Hmem) as (roster & Hb & Hne & _). rewrite Hb.
  pose proof (roster_named _ _ _ Hb (ca_named _ Hvalid) Hmem) as Hnames. cbn [of_roster mbind result_bind].
  destruct (String.eqb_spec (class_Source class) RosterTargetStatic) as [Hs|Hs], (ps_HostsResolved input) eqn:Hh; cbn [negb andb];
    try (left; eexists _, _; split_and!; [done|done|]; intros (_ & _ & H & _); by specialize (H Hs)).
  all: destruct (ps_AnswerTruncated input), (String.eqb_spec (ps_Completeness input) CompletenessFull) as [Hc|Hc]; cbn [negb andb];
    try (left; eexists _, _; split_and!; [done|done|]; by intros (? & ? & _)).
  all: right; split; [done|]; by exists roster.
Qed.

Lemma EvaluateSlot_judged input config class :
  accepted input config class → snapshot_kept (Snapshot input) →
  judged input config class (EvaluateSlot (slot_input input config)).
Proof.
  intros Ha Hsn. pose proof (members_judged input config class) as Hrest. pose proof Ha as [_ _ Hclass Hres _ _ _].
  unfold NoDataSlot.EvaluateSlot. cbn [sl_Plan slot_input NoData TargetScope TargetPlan sl_TargetResolution]. rewrite Hclass.
  cbn [of_roster mbind result_bind]. unfold resolved_members. fold (slot_input input config).
  destruct (String.eqb_spec (class_Source class) RosterTargetPlan) as [Hp|Hp]; [|by apply Hrest].
  assert (∀ outcome, (∀ r, ps_TargetResolution input = Some r → State r ≠ TargetResolutionComplete) → outcome ≠ OutcomeEvaluated →
    judged input config class (Ok (no_result, outcome))) as Hskip.
  { intros outcome Hno Hne. left. exists no_result, outcome. split_and!; [done|done|]. intros (_ & _ & _ & H).
    destruct (H Hp) as (r & Hr & Hc). by apply (Hno r). }
  destruct (ps_TargetResolution input) as [r|] eqn:Hr; [|by apply Hskip].
  destruct (Hres r eq_refl) as [Hst|[Hst|Hst]]; rewrite Hst; cbn -[members_known].
  - apply Hrest; [done|done|eauto].
  - apply Hskip; [|done]. intros r' [= <-]. by rewrite Hst.
  - apply Hskip; [|done]. intros r' [= <-]. by rewrite Hst.
Qed.

(** ** What a round is over *)

(** The round judged: its result is the evaluation of the memory the record holds, over
    the roster that was built. *)
Definition judged_over (input : PlanSlotInput) (config : NoDataConfigV1) (outcome : AbsenceResult) : Prop :=
  EvaluateSlot (slot_input input config) = Ok (outcome, OutcomeEvaluated) ∧
  ∃ roster, let absence := absence_input (slot_input input config) config roster in
    outcome = Evaluate (order absence) absence ∧ same_memory (in_Memory absence) (sn_Groups (Snapshot input)).

(** A record of what the evaluation remembers. *)
Record remembered_by (input : PlanSlotInput) (outcome : AbsenceResult) (groups : list NoDataGroupMemory) (presentAsOf exhausted : Z) : Prop := mkRememberedBy {
  rb_groups : same_memory (Memory outcome) groups;
  rb_present : (data_seen_by (ps_EvaluationTime input) outcome → presentAsOf = ps_EvaluationTime input) ∧
    (¬ data_seen_by (ps_EvaluationTime input) outcome → presentAsOf = PresentAsOf (Snapshot input));
  rb_exhausted : exhausted = TrackingExhaustedAt outcome;
}.

(** ** One round *)

Section judged.
Variables (input : PlanSlotInput) (config : NoDataConfigV1) (class : RosterClass) (roster : Roster).
Hypotheses (Haccepted : accepted input config class) (Hkept : snapshot_kept (Snapshot input)).
Hypothesis Hversion : Version roster ≠ ""%string.
Hypothesis Hnames : ∀ key g, ro_Groups roster !! key = Some g → names_group key g.
Notation absence := (absence_input (slot_input input config) config roster).
Notation outcome := (Evaluate (order absence) absence).
Notation groups := (storedGroups (Memory outcome)).
Notation loaded := (Snapshot input).
Notation present := (presentAsOf groups (PresentAsOf loaded) (ps_EvaluationTime input) (WholeItemPresent outcome)).

Lemma present_proper key g : Present absence !! key = Some g → proper key.
Proof. intros Hg. exists g. eapply present_named; [|exact Hg]. apply (ac_valid _ _ _ Haccepted). Qed.
Lemma roster_proper key g : ro_Groups (in_Roster absence) !! key = Some g → proper key.
Proof. intros Hg. exists g. by apply Hnames. Qed.
Lemma memory_proper key e : in_Memory absence !! key = Some e → proper key.
Proof. intros He. by apply (stored_entry _ _ _ Hkept) in He as []. Qed.
Lemma memory_sound key e : in_Memory absence !! key = Some e → sound (PresentAsOf loaded) e.
Proof. intros He. by apply (stored_entry _ _ _ Hkept) in He as []. Qed.

Lemma round_time : 0 < EvaluationTime absence ∧ 0 ≤ PresentAsOf loaded ≤ EvaluationTime absence.
Proof. pose proof (ac_time _ _ _ Haccepted) as (? & ? & _). pose proof (rk_present _ _ _ (sk_record _ Hkept)). cbn. lia. Qed.

Lemma round_groups g : g ∈ groups →
  proper (gm_GroupKey g) ∧ storable g ∧ stopped_absent g ∧ 0 ≤ gm_SuppressedAt g ∧
  (gm_LastSeen g ≤ PresentAsOf loaded ∨ gm_LastSeen g = ps_EvaluationTime input ∧ gm_FirstAbsent g = 0).
Proof.
  exact (groups_after (order absence) absence (PresentAsOf loaded) (orders absence) present_proper roster_proper memory_proper memory_sound round_time g).
Qed.

Lemma round_present : PresentAsOf loaded ≤ present ≤ ps_EvaluationTime input ∧ (WholeItemPresent outcome = true → present = ps_EvaluationTime input) ∧
  Forall (λ g, gm_LastSeen g ≤ present) groups.
Proof.
  exact (present_after (order absence) absence (PresentAsOf loaded) (orders absence) present_proper roster_proper memory_proper memory_sound round_time).
Qed.

Lemma round_canonical : canonical groups.
Proof.
  exact (groups_canonical (order absence) absence (PresentAsOf loaded) (orders absence) present_proper roster_proper memory_proper memory_sound round_time).
Qed.

Lemma round_remembered : remembered_by input outcome groups present (TrackingExhaustedAt outcome).
Proof.
  split; [|exact (present_seen (order absence) absence (PresentAsOf loaded) (orders absence) present_proper roster_proper memory_proper memory_sound round_time)|done].
  exact (groups_same (order absence) absence (PresentAsOf loaded) (orders absence) present_proper roster_proper memory_proper memory_sound round_time).
Qed.

Lemma loaded_memory_same : same_memory (in_Memory absence) (sn_Groups loaded).
Proof. apply loaded_same. pose proof (rk_canonical _ _ _ (sk_record _ Hkept)) as [Hs _]. by apply sorted_key_nodup. Qed.

(** The record the round states. *)
Lemma round_kept : record_kept groups present (TrackingExhaustedAt outcome).
Proof.
  pose proof round_present as (Hp & _ & Hseen). pose proof round_time as Ht.
  destruct (Evaluate_exhausted (order absence) absence (orders absence)) as (Hx0 & Hx1 & _);
    [apply Ht|apply (rk_exhausted _ _ _ (sk_record _ Hkept))|]. cbv zeta in *. split.
  - exact round_canonical.
  - apply Forall_forall. intros g Hg. rewrite Forall_forall in Hseen. pose proof (round_groups g Hg) as (? & _ & ? & ? & _). auto.
  - lia.
  - split; [exact Hx0|]. intros Hne. by rewrite (Hx1 Hne).
Qed.

Notation update := (memory_update input outcome groups present).

Lemma round_statable : statable update ∧ Forall stopped_absent (up_Memory update).
Proof.
  pose proof round_present as (Hp & Hw & Hseen). pose proof round_time as Ht.
  pose proof (sk_record _ Hkept) as [[Hls Hlst] Hlg Hlp [Hlx0 Hlx]]. pose proof round_canonical as [Hs Hst].
  destruct (Evaluate_exhausted (order absence) absence (orders absence)) as (Hx0 & Hx1 & Hx2); [apply Ht|exact Hlx0|]. cbv zeta in *.
  destruct Haccepted as [_ _ _ _ (_ & Hn1 & Hn2) (Hn3 & Hn4) (Hnow & _ & Hstrict)]. split; [split|].
  - split; [by apply sorted_key_nodup|done].
  - split; [by apply sorted_key_nodup|done].
  - cbn. lia.
  - exact Hseen.
  - split; [exact Hx0|]. intros Hne. cbn. by rewrite (Hx1 Hne).
  - split; [exact Hlx0|]. cbn. intros Hne Hz Hn. rewrite Hw; [by apply Hstrict|]. apply Hx2; [done|done|].
    exact (nothing_stored (order absence) absence (PresentAsOf loaded) (orders absence) present_proper roster_proper memory_proper memory_sound round_time Hn).
  - cbn. rewrite Evaluate_roster by apply orders. done.
  - destruct (sk_source _ Hkept) as [(_ & ? & ? & ?)|(_ & ? & ? & ?)]; [left|right]; done.
  - apply Forall_forall. intros g Hg. by apply round_groups.
Qed.

Lemma round_derived : derived loaded update.
Proof. split; cbn; try done. symmetry. apply (ac_identity _ _ _ Haccepted). Qed.

Lemma round_series :
  ∃ series, SyntheticSeriesFor (mkSyntheticInput (ps_EvaluationTime input) (ps_PeriodSeconds input) outcome (Memory outcome) (res_Roster outcome))
            = Ok series.
Proof.
  destruct (series_exist (mkSyntheticInput (ps_EvaluationTime input) (ps_PeriodSeconds input) outcome (Memory outcome) (res_Roster outcome)))
    as (series & Hs & _); [|eauto].
  cbn [si_Result si_Roster]. rewrite Evaluate_roster by apply orders.
  apply verdict_group; [apply orders|exact present_proper|exact Hnames|exact memory_proper].
Qed.
End judged.

(** The Slot's series are those of the evaluation's verdicts. *)
Definition speaks (input : PlanSlotInput) (outcome : AbsenceResult) (slot : PlanSlotResult) : Prop :=
  SyntheticSeriesFor (mkSyntheticInput (ps_EvaluationTime input) (ps_PeriodSeconds input) outcome (Memory outcome) (res_Roster outcome))
  = Ok (slot_Series slot).

(** What a judged round stores, or that nothing moved. *)
Definition stores (input : PlanSlotInput) (outcome : AbsenceResult) (mutation : option PlanNoDataMutation) : Prop :=
  match mutation with
  | None => remembered_by input outcome (sn_Groups (Snapshot input)) (PresentAsOf (Snapshot input)) (sn_TrackingExhaustedAt (Snapshot input))
  | Some mu =>
      ∃ u memory, derived (Snapshot input) u ∧ canonicalNoDataMemory (up_Memory u) = Ok memory ∧ Build u = Ok mu ∧
        up_ApplyVersion u = ps_ApplyVersion input ∧ up_ScheduleRevision u = ps_ScheduleRevision input ∧
        remembered_by input outcome memory (mu_PresentAsOf mu) (mu_TrackingExhaustedAt mu) ∧
        mu_GroupCount mu = Z.of_nat (size (Memory outcome)) ∧
        mu_PresentAsOf mu ≤ ps_EvaluationTime input ∧ record_kept memory (mu_PresentAsOf mu) (mu_TrackingExhaustedAt mu)
  end.

(** The statement of a judged round, once it is built. *)
Lemma round_statement input config class roster mu :
  let absence := absence_input (slot_input input config) config roster in
  let outcome := Evaluate (order absence) absence in
  let groups := storedGroups (Memory outcome) in
  let present := presentAsOf groups (PresentAsOf (Snapshot input)) (ps_EvaluationTime input) (WholeItemPresent outcome) in
  accepted input config class → snapshot_kept (Snapshot input) → Version roster ≠ ""%string →
  (∀ key g, ro_Groups roster !! key = Some g → names_group key g) →
  Build (memory_update input outcome groups present) = Ok mu → Z.of_nat (length groups) ≤ maxUint32 →
  stores input outcome (Some mu).
Proof.
  intros absence outcome groups present Ha Hk Hv Hn Hb Hlen.
  pose proof (round_remembered input config class roster Ha Hk Hn) as Hrem. cbv zeta in *.
  assert (canonicalNoDataMemory groups = Ok groups) as Hc by (apply canonicalNoDataMemory_Ok; split; [by eapply round_canonical|done]).
  pose proof Hb as (memory & l & Hbuilt)%Build_built. pose proof Hbuilt as [_ _ _ _ _ _ (d & s & Heq & _)].
  assert (memory = groups) as ->.
  { pose proof (proj2 (canonicalNoDataMemory_Ok _ memory) (conj (bt_memory _ _ _ _ _ _ Hbuilt) (bt_memory_perm _ _ _ _ _ _ Hbuilt))) as Hm.
    cbn [up_Memory memory_update] in Hm. congruence. }
  assert (mu_PresentAsOf mu = present ∧ mu_TrackingExhaustedAt mu = TrackingExhaustedAt outcome ∧ mu_GroupCount mu = u32 (Z.of_nat (length groups)))
    as (Hp & Hx & Hg) by (by rewrite Heq, mutation_of_eq).
  eexists _, groups. rewrite Hp, Hx, Hg, u32_id by (unfold is_u32; lia).
  split_and!; [by eapply round_derived|exact Hc|exact Hb|done|done|exact Hrem|exact (f_equal Z.of_nat (sm_count _ _ (rb_groups _ _ _ _ _ Hrem)))|by eapply round_present|by eapply round_kept].
Qed.

(** What a round of an accepted Plan comes to, over a record earlier rounds kept. *)
Lemma round_outcome input config class :
  accepted input config class → snapshot_kept (Snapshot input) →
  match EvaluatePlanSlot input with
  | Err e => e = SlotContract TooManyGroups ∧ ∃ outcome, judged_over input config outcome ∧ maxUint32 < Z.of_nat (size (Memory outcome))
  | Ok slot =>
      (Outcome slot = OutcomeEvaluated ↔ judges input class) ∧
      (¬ judges input class → slot_Series slot = [] ∧ Mutation slot = None) ∧
      (judges input class → ∃ outcome, judged_over input config outcome ∧ slot_Facts slot = Facts outcome ∧ speaks input outcome slot ∧ stores input outcome (Mutation slot))
  end.
Proof.
  intros Ha Hk. unfold NoDataSlot.EvaluatePlanSlot. rewrite (ac_config _ _ _ Ha). cbv zeta.
  assert ((Status (Snapshot input) =? NoDataMemoryUnreadable)%string = false ∧
    negb (Status (Snapshot input) =? NoDataMemoryMissing)%string && negb (Status (Snapshot input) =? NoDataMemoryFound)%string = false) as [-> ->].
  { by destruct (sk_source _ Hk) as [(-> & _)|(-> & _)]. }
  destruct (EvaluateSlot_judged input config class Ha Hk) as [(r & outcome & He & Hne & Hj)|(Hj & roster & He & Hv & Hn)]; rewrite He; cbn [mbind result_bind].
  { rewrite bool_decide_eq_false_2 by done. cbn [negb]. split_and!; cbn; [tauto|done|tauto]. }
  rewrite bool_decide_eq_true_2 by done. cbn [negb].
  destruct (round_series input config class roster Ha Hk Hn) as [series Hs]. rewrite Hs. cbn [of_roster mbind result_bind].
  set (absence := absence_input _ _ _) in *. set (outcome := Evaluate (order absence) absence) in *.
  assert (judged_over input config outcome) as Hover.
  { split; [done|]. exists roster. split; [done|]. by eapply loaded_memory_same. }
  destruct (nothing_moved _ _ _ _) eqn:Hmoved.
  { split_and!; cbn; [tauto|tauto|]. intros _. exists outcome. split_and!; [done|done|exact Hs|].
    pose proof (round_remembered input config class roster Ha Hk Hn) as Hrem. cbv zeta in Hrem. fold absence outcome in Hrem.
    unfold nothing_moved, sameStoredGroups in Hmoved. breflect. unfold stores.
    match goal with Hg : storedGroups _ = sn_Groups _, Hp : presentAsOf _ _ _ _ = _, Hx : TrackingExhaustedAt _ = sn_TrackingExhaustedAt _ |- _ =>
      rewrite Hp, Hg, Hx in Hrem end. exact Hrem. }
  destruct (round_statable input config class roster Ha Hk Hv Hn) as [Hst Hstop].
  pose proof (build_or_full memory_digest statement_digest memory_digests statement_digests _ Hstop Hst) as Hbuild. fold absence outcome in Hbuild.
  destruct Hbuild as [[(mu & Hb) Hlen]|[Hb Hlen]]; rewrite Hb;
    cbn [of_contract mbind result_bind].
  - split_and!; cbn; [tauto|tauto|]. intros _. exists outcome. split_and!; [done|done|exact Hs|]. by eapply (round_statement input config class roster).
  - split; [done|]. exists outcome. split; [done|]. cbn [up_Memory memory_update] in Hlen.
    pose proof (rb_groups _ _ _ _ _ (round_remembered input config class roster Ha Hk Hn)) as [Hcount _]. fold absence outcome in Hcount. lia.
Qed.

(** C20: a no-data round of an accepted Plan, over a record earlier rounds kept,
    judges exactly when the answer was whole, untruncated, and its target was
    resolved; a round that did not says nothing and writes nothing. One that did
    evaluates the memory the record holds, and states a record that holds exactly the
    evaluation's memory, group by group with everything each carries, as of the last
    data seen, a record that is again kept; or it states nothing, and the record
    already holds all that. It fails only for a memory of more groups than the
    contract counts. *)
Theorem round_keeps_record input config class :
  accepted input config class → snapshot_kept (Snapshot input) →
  match EvaluatePlanSlot input with
  | Err e => e = SlotContract TooManyGroups ∧ ∃ outcome, judged_over input config outcome ∧ maxUint32 < Z.of_nat (size (Memory outcome))
  | Ok slot =>
      (Outcome slot = OutcomeEvaluated ↔ judges input class) ∧
      (¬ judges input class → slot_Series slot = [] ∧ Mutation slot = None) ∧
      (judges input class → ∃ outcome, judged_over input config outcome ∧ slot_Facts slot = Facts outcome ∧ speaks input outcome slot ∧ stores input outcome (Mutation slot))
  end.
Proof. apply round_outcome. Qed.
End rounds.
