(* ===== verification/TargetPlan.v ===== *)
(** A strategy's frozen target (contract/target_plan.go): the rule, the identity a record's
    key is read by, the static and dynamic members, and what makes the form well formed. *)
From Stdlib Require Import Ascii.
From S2P Require Import Prelude Decimal Group Roster.

Open Scope Z_scope.

(** ** The form *)

Definition TargetPlanRuleHostID : string := "host_id".
Definition TargetPlanRuleModelInstID : string := "model_inst_id".
Definition TargetPlanRuleK8sCluster : string := "k8s_cluster".
Definition TargetPlanRuleK8sNode : string := "k8s_node".
Definition TargetPlanRuleK8sWorkload : string := "k8s_workload".
Definition TargetPlanRuleIPCloud : string := "ip_cloud".

Definition IPCloudIPDimension : string := "bk_target_ip".
Definition IPCloudCloudDimension : string := "bk_target_cloud_id".
Definition HostModelID : string := "cw-Host".
Definition HostIdentityDimension : string := "bk_host_id".

Record TargetPlanMemberV1 : Type := mkMember {
  mem_ModelID : string;
  ModelInstID : string;
}.

Record TargetPlanTopologyV1 : Type := mkTopology {
  topo_BusinessID : string;
  ObjectID : string;
  InstanceID : string;
}.

(** [StaticKeys] may be nil, which the form refuses; a nil map or another nil list is as
    an empty one. *)
Record FrozenTargetPlanV1 : Type := mkFrozenTarget {
  tpl_SchemaVersion : Z;
  tpl_ModelID : string;
  Rule : string;
  tpl_Identity : TargetPlanIdentityV1;
  StaticKeys : option (list string);
  StaticBusinesses : gmap string string;
  StaticMembers : list TargetPlanMemberV1;
  ExcludeKeys : list string;
  ExcludeMembers : list TargetPlanMemberV1;
  ExcludeHosts : list string;
  DynamicGroups : list string;
  DynamicTopologies : list TargetPlanTopologyV1;
  tpl_TenantID : string;
  StaticHosts : list string;
}.

Record targetPlanRuleFacts : Type := mkRuleFacts {
  rule_Dimensions : list string;
  Dynamic : bool;
}.

Definition targetPlanRules (rule : string) : option targetPlanRuleFacts :=
  if (rule =? TargetPlanRuleHostID)%string then Some (mkRuleFacts [HostIdentityDimension] true)
  else if (rule =? TargetPlanRuleModelInstID)%string then Some (mkRuleFacts [] true)
  else if (rule =? TargetPlanRuleK8sCluster)%string then Some (mkRuleFacts ["bcs_cluster_id"]%string false)
  else if (rule =? TargetPlanRuleK8sNode)%string then Some (mkRuleFacts ["bcs_cluster_id"; "node"]%string false)
  else if (rule =? TargetPlanRuleK8sWorkload)%string then
    Some (mkRuleFacts ["bcs_cluster_id"; "namespace"; "workload_kind"; "workload_name"]%string false)
  else if (rule =? TargetPlanRuleIPCloud)%string then Some (mkRuleFacts [IPCloudIPDimension; IPCloudCloudDimension] true)
  else None.

(** ** Order and text *)

Definition member_less (member other : TargetPlanMemberV1) : bool :=
  if negb (mem_ModelID member =? mem_ModelID other)%string then str_ltb (mem_ModelID member) (mem_ModelID other)
  else str_ltb (ModelInstID member) (ModelInstID other).

Definition topology_less (node other : TargetPlanTopologyV1) : bool :=
  if negb (topo_BusinessID node =? topo_BusinessID other)%string then str_ltb (topo_BusinessID node) (topo_BusinessID other)
  else if negb (ObjectID node =? ObjectID other)%string then str_ltb (ObjectID node) (ObjectID other)
  else str_ltb (InstanceID node) (InstanceID other).

(** The pattern of a canonical decimal. *)
Definition canonicalDecimalPattern (text : string) : bool :=
  match text with
  | EmptyString => false
  | String c rest =>
      is_digit c && forallb is_digit (String.list_ascii_of_string rest) && (negb (c =? "0")%char || (rest =? "")%string)
  end.

Definition positive_decimal (text : string) : bool := canonicalDecimalPattern text && negb (text =? "0")%string.

Definition blank (text : string) : bool := (TrimSpace text =? "")%string.

Fixpoint canonicalTargetPlanList (previous : option string) (values : list string) : bool :=
  match values with
  | [] => true
  | value :: values =>
      negb (blank value) && match previous with Some previous => str_ltb previous value | None => true end
      && canonicalTargetPlanList (Some value) values
  end.

Definition containsSortedKey (keys : list string) (key : string) : bool :=
  let index := sort_Search (length keys) (λ i, negb (str_ltb (default "" (keys !! i))%string key)) in
  bool_decide (keys !! index = Some key).

(** The loop over the members: of the plan's model, each after the one before. *)
Fixpoint members_canonical (model : string) (previous : option TargetPlanMemberV1) (members : list TargetPlanMemberV1) : bool :=
  match members with
  | [] => true
  | member :: members =>
      (mem_ModelID member =? model)%string && negb (blank (ModelInstID member))
      && match previous with Some previous => member_less previous member | None => true end
      && members_canonical model (Some member) members
  end.

Fixpoint topologies_canonical (previous : option TargetPlanTopologyV1) (nodes : list TargetPlanTopologyV1) : bool :=
  match nodes with
  | [] => true
  | node :: nodes =>
      negb (topo_BusinessID node =? "")%string && negb (ObjectID node =? "")%string && negb (InstanceID node =? "")%string
      && match previous with Some previous => topology_less previous node | None => true end
      && topologies_canonical (Some node) nodes
  end.

(** ** The check *)

Definition HasExclusions (plan : FrozenTargetPlanV1) : bool :=
  negb (bool_decide (ExcludeKeys plan = [])) || negb (bool_decide (length (ExcludeMembers plan) = 0%nat))
  || negb (bool_decide (ExcludeHosts plan = [])).

Definition none_of {A} (values : list A) : bool := bool_decide (length values = 0%nat).

(** The loop over the identity's dimensions: named, and each once. *)
Fixpoint dimensions_distinct (seen : gset string) (names : list string) : bool :=
  match names with
  | [] => true
  | name :: names => negb (blank name) && negb (bool_decide (name ∈ seen)) && dimensions_distinct ({[name]} ∪ seen) names
  end.

(** A model gate names its dimension and its value, on its own rule, beside the key's. *)
Definition gate_valid (rule : string) (identity : TargetPlanIdentityV1) : bool :=
  Bool.eqb (ModelDimension identity =? "")%string (ModelValue identity =? "")%string
  && ((ModelDimension identity =? "")%string
      || (rule =? TargetPlanRuleModelInstID)%string && negb (bool_decide (ModelDimension identity ∈ Dimensions identity))).

(** What the rule of addresses names, and what every other rule does not. *)
Definition address_valid (plan : FrozenTargetPlanV1) (staticKeys : list string) : bool :=
  let identity := tpl_Identity plan in
  Bool.eqb (Rule plan =? TargetPlanRuleIPCloud)%string (Address identity)
  && (if (Rule plan =? TargetPlanRuleIPCloud)%string then
        (tpl_ModelID plan =? HostModelID)%string && negb (blank (tpl_TenantID plan)) && negb (HostIdentity_ identity)
        && none_of staticKeys && none_of (ExcludeKeys plan)
        && canonicalTargetPlanList None (StaticHosts plan) && forallb positive_decimal (StaticHosts plan)
        && canonicalTargetPlanList None (ExcludeHosts plan) && forallb positive_decimal (ExcludeHosts plan)
      else (tpl_TenantID plan =? "")%string && none_of (StaticHosts plan) && none_of (ExcludeHosts plan)).

(** A host identity is read by one dimension, and it is how the rule of host ids reads. *)
Definition host_identity_valid (plan : FrozenTargetPlanV1) : bool :=
  let identity := tpl_Identity plan in
  if HostIdentity_ identity then
    ((Rule plan =? TargetPlanRuleHostID)%string || (Rule plan =? TargetPlanRuleModelInstID)%string)
    && (ModelDimension identity =? "")%string && (join "," (Dimensions identity) =? HostIdentityDimension)%string
  else negb (Rule plan =? TargetPlanRuleHostID)%string.

(** Members are named on the one rule that reads them, in place of keys. *)
Definition members_valid (plan : FrozenTargetPlanV1) (keys : list string) (members : list TargetPlanMemberV1) : bool :=
  none_of members
  || (Rule plan =? TargetPlanRuleModelInstID)%string && HostIdentity_ (tpl_Identity plan) && none_of keys
     && members_canonical (tpl_ModelID plan) None members.

Definition businesses_valid (plan : FrozenTargetPlanV1) (dynamic : bool) (staticKeys : list string) : bool :=
  bool_decide (StaticBusinesses plan = ∅)
  || negb dynamic
     && forallb (λ entry, containsSortedKey staticKeys entry.1 && positive_decimal entry.2) (map_to_list (StaticBusinesses plan)).

(** [Validate] of a plan. *)
Definition TargetPlan_Validate (plan : FrozenTargetPlanV1) : result string unit :=
  let identity := tpl_Identity plan in
  _ ← fail_if (negb (tpl_SchemaVersion plan =? 1)) "schema version"%string;
  _ ← fail_if (blank (tpl_ModelID plan)) "a target plan names its model"%string;
  match targetPlanRules (Rule plan) with
  | None => Err "unknown rule"%string
  | Some facts =>
      _ ← fail_if (none_of (Dimensions identity)) "identity reads no dimension"%string;
      _ ← fail_if (negb (dimensions_distinct ∅ (Dimensions identity))) "identity dimensions"%string;
      _ ← fail_if (negb (none_of (rule_Dimensions facts))
                   && negb (join "," (rule_Dimensions facts) =? join "," (Dimensions identity))%string) "rule dimensions"%string;
      _ ← fail_if (negb (gate_valid (Rule plan) identity)) "model gate"%string;
      match StaticKeys plan with
      | None => Err "static keys are a list"%string
      | Some staticKeys =>
          _ ← fail_if (negb (canonicalTargetPlanList None staticKeys)) "static keys"%string;
          _ ← fail_if (negb (canonicalTargetPlanList None (ExcludeKeys plan))) "exclude keys"%string;
          _ ← fail_if (HasExclusions plan && negb (Dynamic facts)) "exclusions"%string;
          _ ← fail_if ((Rule plan =? TargetPlanRuleModelInstID)%string && HostIdentity_ identity && negb (none_of (ExcludeKeys plan)))
                "exclusions name members"%string;
          _ ← fail_if (negb (address_valid plan staticKeys)) "address"%string;
          _ ← fail_if (negb (host_identity_valid plan)) "host identity"%string;
          _ ← fail_if (negb (members_valid plan staticKeys (StaticMembers plan))) "static members"%string;
          _ ← fail_if (negb (businesses_valid plan (Dynamic facts) staticKeys)) "static businesses"%string;
          _ ← fail_if (negb (members_valid plan (ExcludeKeys plan) (ExcludeMembers plan))) "excluded members"%string;
          _ ← fail_if (negb (canonicalTargetPlanList None (DynamicGroups plan))) "dynamic groups"%string;
          _ ← fail_if (negb (Dynamic facts) && (negb (none_of (DynamicGroups plan)) || negb (none_of (DynamicTopologies plan))))
                "dynamic references"%string;
          _ ← fail_if (negb (topologies_canonical None (DynamicTopologies plan))) "topology references"%string;
          fail_if (none_of staticKeys && none_of (StaticMembers plan) && none_of (StaticHosts plan)
                   && none_of (DynamicGroups plan) && none_of (DynamicTopologies plan)) "names nothing"%string
      end
  end.

(** What a roster reads of it. *)
Definition roster_target (plan : FrozenTargetPlanV1) : Roster.TargetPlanV1 := mkTargetPlan (tpl_Identity plan).
