(* ===== verification/PlanCompiler.v ===== *)
(** A Plan compiled, its no-data Level first.

    The Level a no-data setting stands for (strategy/no_data_level.go): the projection of
    the synthetic series, and the intermediate form the Level compiler reads. *)
From S2P Require Import Prelude GoHash Group Absence Roster NoDataMemory NoDataSlot TargetPlan TriggerEvent Detect History Trigger.
From S2P Require Import Reason Decimal AlgorithmInput Predicate ThresholdCompiler EffectiveTime CalendarRules LevelCompiler.

Open Scope Z_scope.

Definition NoDataValueField : string := "no_data".
Definition noDataDataUnit : string := "none".
Definition noDataThresholdDecimal : string := "1".
Definition noDataThresholdOperator : string := "GTE".

(** The configured dimensions and the tag; the business and the policies are empty. *)
Definition NoDataProjection (config : NoDataConfigV1) : InputProjectionV2 :=
  mkInputProjection false [NoDataValueField] (merge_sort String.le (cfg_AggDimension config ++ [NoDataDimensionTag])) "" "" noDataDataUnit "".

Definition noDataThreshold : thresholdConfigV1 :=
  mkThresholdConfig NoDataValueField noDataDataUnit (Some ""%string) 6 "HALF_EVEN"
    [[mkThreshold noDataThresholdOperator noDataThresholdDecimal]] "" "" "" None [].

Definition noDataTrigger (config : NoDataConfigV1) (semantics : ExecutionSemanticsV2) : triggerPlanConfigV1 :=
  mkTriggerConfig (Continuous config) (Continuous config) (EvaluationInterval semantics) "" None.

Definition noDataRecovery : recoveryPlanConfigV1 := mkRecoveryConfig (Some true) 1.

(** [json.Marshal] of the three configurations. *)
Class ConfigEncoder : Type := {
  encode_threshold : thresholdConfigV1 → option string;
  encode_trigger : triggerPlanConfigV1 → option string;
  encode_recovery : recoveryPlanConfigV1 → option string;
}.

Section level.
Context `{Encoder : !ConfigEncoder}.

(** The setting is checked, and left as [Validate] leaves it. *)
Definition BuildNoDataLevelIR (config : NoDataConfigV1) (semantics : ExecutionSemanticsV2)
    : result string (NoDataConfigV1 * LevelIRV2) :=
  match ValidateNoDataConfig config with
  | Err _ => Err "strategy: no-data level"%string
  | Ok config =>
      match encode_threshold noDataThreshold, encode_trigger (noDataTrigger config semantics), encode_recovery noDataRecovery with
      | Some threshold, Some trigger, Some recovery =>
          Ok (config,
              mkLevelIR (mkDefinition (cfg_Level config) "" (cfg_Level config)) LevelConnectorAND
                [mkAlgorithmIR DetectorKindThreshold 1 threshold]
                (mkTypedPlan TriggerPlanTypeNOfM 1 trigger) (mkTypedPlan RecoveryPlanTypeContinuousTriggerMiss 1 recovery))
      | _, _, _ => Err "strategy: no-data config"%string
      end
  end.
End level.

(** * Plans

    The compilation of a Plan (strategy/compiler.go; contract/v2_model.go, v2_canonical.go,
    legacy_output.go): its checks, its Levels and its no-data Level, its calendars, its
    state generation, fingerprints and resources. *)

Definition StrategyIRSchemaV2 : string := "alarmd-strategy-ir".
Definition EvaluationScopeCrossSeries : string := "CROSS_SERIES".
Definition MissingValuePolicyRequired : string := "REQUIRED_VALUE".
Definition WireFormatPythonCompatible : string := "python_compatible".
Definition DetectPlanFingerprintDomainV1 : string := "detect-plan-fingerprint-v1".
Definition TriggerStateFingerprintDomainV1 : string := "trigger-state-fingerprint-v1".

(** ** What is compiled (contract/v2_model.go) *)

Record StrategyRefV2 : Type := mkStrategyRef {
  sref_TenantID : string;
  StrategyID : string;
  sref_Revision : string;
  SnapshotRevision : Z;
}.

#[export] Instance StrategyRefV2_eq_dec : EqDecision StrategyRefV2.
Proof. solve_decision. Defined.

Record Schema : Type := mkSchema {
  schema_Name : string;
  Major : Z;
  Minor : Z;
}.

Record StrategyIRV2 : Type := mkStrategyIR {
  ir_Schema : Schema;
  RequiredFeatures : list string;
  ir_StrategyRef : StrategyRefV2;
  ExecutionSemantics : ExecutionSemanticsV2;
  ir_InputProjection : InputProjectionV2;
  ir_Levels : list LevelIRV2;
}.

Record DatasetContractV2 : Type := mkDataset {
  ds_DynamicDimensions : bool;
  SchemaDigest : string;
  NormalizationDigest : string;
  ds_IdentityFields : list string;
  SourceTimeField : string;
  CollectionTimeField : string;
  ReceivedTimeField : string;
}.

(** A nil list of dimensions is none. *)
Record MonitorOutputIdentity : Type := mkOutputIdentity {
  oi_DynamicDimensions : bool;
  oi_DimensionFields : option (list string);
}.

Record MonitorSubjectFacts : Type := mkSubjectFacts {
  Labels : list string;
  ResultTableID : string;
}.

(** The strategy by its JSON. *)
Record LegacyOutputContext : Type := mkLegacyOutput {
  lo_DynamicDimensions : bool;
  lo_Strategy : string;
  lo_DimensionFields : option (list string);
  lo_ItemID : string;
}.

(** The snapshot is its length and what reads of it. *)
Record EvaluationPlanV2 : Type := mkPlan {
  EffectiveTimeSnapshot : Z * option effectiveSnapshot;
  PlanID : string;
  StrategyRef : StrategyRefV2;
  InputProjection : InputProjectionV2;
  SourceItemID : option string;
  OutputIdentity : option MonitorOutputIdentity;
  SubjectFacts : option MonitorSubjectFacts;
  LegacyOutput : option LegacyOutputContext;
  ep_TargetScope : option TargetScopeV2;
  ep_TargetPlan : option FrozenTargetPlanV1;
  ep_NoData : option NoDataConfigV1;
  StrategyIR : StrategyIRV2;
  WireFormat : string;
  SignalType : string;
  TerminalReasonCode : string;
  GlobalBusiness : bool;
}.

Definition PublishesCompatibleProtocol (plan : EvaluationPlanV2) : bool :=
  if negb (WireFormat plan =? "")%string then (WireFormat plan =? WireFormatPythonCompatible)%string
  else SnapshotRevision (StrategyRef plan) =? 0.

(** What [MarshalJSON] writes of a Plan, the empty ones of its optional fields as they are:
    a terminal Plan's identity, or a body. It writes neither the signal type nor whether
    the business is global. *)
Inductive PlanWire : Type :=
  | WireTerminal (plan_id : string) (ref : StrategyRefV2) (reason : string)
  | WirePlan (snapshot : Z * option effectiveSnapshot) (plan_id : string) (ref : StrategyRefV2) (projection : InputProjectionV2)
      (source : option string) (identity : option MonitorOutputIdentity) (subject : option MonitorSubjectFacts)
      (legacy : option LegacyOutputContext) (scope : option TargetScopeV2) (target : option FrozenTargetPlanV1)
      (no_data : option NoDataConfigV1) (ir : StrategyIRV2) (format : string).

Definition MarshalJSON (plan : EvaluationPlanV2) : PlanWire :=
  if negb (TerminalReasonCode plan =? "")%string then WireTerminal (PlanID plan) (StrategyRef plan) (TerminalReasonCode plan)
  else WirePlan (EffectiveTimeSnapshot plan) (PlanID plan) (StrategyRef plan) (InputProjection plan) (SourceItemID plan)
         (OutputIdentity plan) (SubjectFacts plan) (LegacyOutput plan) (ep_TargetScope plan) (ep_TargetPlan plan) (ep_NoData plan)
         (StrategyIR plan) (WireFormat plan).

Record StateSemantics : Type := mkStateSemantics {
  StateSchemaVersion : string;
  CodecSemanticsVersion : string;
  IdentitySchemaDigest : string;
  SourceTimeSemanticsVersion : string;
  HistoryCellSemanticsVersion : string;
}.

#[export] Instance StateSemantics_eq_dec : EqDecision StateSemantics.
Proof. solve_decision. Defined.

Record CompileRequest : Type := mkCompileRequest {
  cq_Plan : EvaluationPlanV2;
  DatasetContract : DatasetContractV2;
  cq_StateSemantics : StateSemantics;
  ContentKey : string;
}.

(** ** The compiled Plan (strategy/types.go, contract/legacy_output.go) *)

Record FrozenLegacyOutput : Type := mkFrozenLegacy {
  fl_dynamicDimensions : bool;
  fl_strategy : string;
  fl_key : string;
  fl_dimensionFields : list string;
  fl_itemID : string;
}.

Definition FreezeLegacyOutput (context : option LegacyOutputContext) : option FrozenLegacyOutput :=
  c ← context;
  Some (mkFrozenLegacy (lo_DynamicDimensions c) (lo_Strategy c) (hex_encode (sum256 (bytes_of_string (lo_Strategy c))))
          (default [] (lo_DimensionFields c)) (lo_ItemID c)).

Definition text_size (text : string) : Z := Z.of_nat (String.length text).

Definition SizeBytes (c : FrozenLegacyOutput) : Z :=
  foldl (λ size field, size + text_size field)
    (text_size (fl_strategy c) + text_size (fl_key c) + text_size (fl_itemID c) + Z.of_nat (length (fl_dimensionFields c)) * 16)
    (fl_dimensionFields c).

Record RuntimePlanRefV1 : Type := mkPlanRef {
  pr_StrategyID : string;
  StrategyRevision : string;
  StateCompatibilityHash : string;
}.

Record PlanFingerprints : Type := mkPlanFingerprints {
  pf_Detect : string;
  pf_Trigger : string;
}.

Record CompiledPlan : Type := mkCompiledPlan {
  effectiveRules : option compiledEffectiveRules;
  cp_planRef : RuntimePlanRefV1;
  cp_strategyRef : StrategyRefV2;
  cp_outputIdentity : option MonitorOutputIdentity;
  cp_subjectFacts : option MonitorSubjectFacts;
  cp_wireFormat : string;
  cp_signalType : string;
  cp_legacyOutput : option FrozenLegacyOutput;
  cp_projection : InputProjectionV2;
  cp_evaluationSemantics : ExecutionSemanticsV2;
  cp_boundaryLocation : option Location;
  cp_levels : list CompiledLevel;
  cp_normalizers : gmap string NumericNormalizerSpec;
  cp_fingerprints : PlanFingerprints;
  cp_resourceEstimate : ResourceEstimate;
  cp_datasetDigest : string;
  cp_targetScope : option TargetScopeV2;
  cp_targetPlan : option FrozenTargetPlanV1;
  cp_noData : option NoDataConfigV1;
  cp_noDataLevel : option CompiledLevel;
  cp_globalBusiness : bool;
}.

Record CompileResult : Type := mkCompileResult {
  res_plan : option CompiledPlan;
  res_planTerminal : option Terminal;
  res_levelTerminals : list Terminal;
}.

Record StateCompatibilityInputV1 : Type := mkStateInput {
  sci_StateSchemaVersion : string;
  sci_CodecSemanticsVersion : string;
  sci_IdentitySchemaDigest : string;
  sci_EvaluationScope : string;
  sci_AggregationInterval : Z;
  sci_EvaluationInterval : Z;
  sci_SourceTimeSemanticsVersion : string;
  sci_HistoryCellSemanticsVersion : string;
}.

(** What a Level adds to the state generation. *)
Record level_closure : Type := mkClosure {
  lc_LevelID : Z;
  lc_Algorithms : list compiledAlgorithmSemantic;
  lc_DetectFingerprint : string;
  lc_TriggerFingerprint : string;
  lc_StateRequirement : StateRequirement;
}.

Record compiledLevelWire : Type := mkLevelWire {
  lw_Definition : LevelDefinitionV2;
  lw_Connector : string;
  lw_Algorithms : list compiledAlgorithmSemantic;
  lw_Detectors : list detectorSemantic;
  lw_Trigger : TriggerPlan;
  lw_Recovery : RecoveryPlan;
  lw_EffectiveTime : EffectiveTimeRequirement;
  lw_StateRequirement : StateRequirement;
  lw_Fingerprints : LevelFingerprints;
}.

(** ** What is encoded outside

    Canonical digests, none when a value does not encode; lengths of canonical JSON; and
    what [json.Unmarshal], which is not strict, reads. *)
Class PlanDigests : Type := {
  plan_json_size : PlanWire → option Z;
  dataset_digest : DatasetContractV2 → option string;
  closure_digest : string → list string → list level_closure → option string;
  state_hash : StateCompatibilityInputV1 → option string;
  plan_fingerprint : string → list (Z * string) → option string;
  level_json_size : compiledLevelWire → option Z;
  compiled_json_size : RuntimePlanRefV1 → InputProjectionV2 → ExecutionSemanticsV2 → string → list compiledLevelWire →
    PlanFingerprints → option Z;
  decode_legacy_strategy : string → option (Z * Z * Z);
  decode_trigger_loose : string → result string triggerPlanConfigV1;
  LoadLocation : string → option Location;
  snapshot_digest : effectiveSnapshot → option string;
}.

(** ** Checks *)

Section compile.
Context `{Digests : !CompilerDigests, Codec : !ConfigCodec, Encoder : !ConfigEncoder, Plans : !PlanDigests}.
Variable registry : AlgorithmCompilerRegistry.
Variable limits : Limits.
Variable boundaryLocation : option Location.

Definition LegacyOutput_Validate (context : option LegacyOutputContext) : result string unit :=
  match context with
  | None => Ok tt
  | Some c =>
      _ ← fail_if (bool_decide (lo_DimensionFields c = None) || (lo_ItemID c =? "")%string) "incomplete legacy output metadata"%string;
      match decode_legacy_strategy (lo_Strategy c) with
      | None => Err "invalid frozen legacy strategy"%string
      | Some (id, business, update) =>
          fail_if ((id <=? 0) || (business =? 0) || (update <=? 0)) "invalid frozen legacy strategy"%string
      end
  end.

Definition equalProjection (left right : InputProjectionV2) : bool :=
  (ip_BusinessIdentityField left =? ip_BusinessIdentityField right)%string
  && (ip_MultiValueAlignment left =? ip_MultiValueAlignment right)%string
  && (ip_DataUnit left =? ip_DataUnit right)%string && (ip_MissingValuePolicy left =? ip_MissingValuePolicy right)%string
  && Bool.eqb (ip_DynamicDimensions left) (ip_DynamicDimensions right)
  && equalStrings (ip_ValueFields left) (ip_ValueFields right) && equalStrings (ip_DimensionFields left) (ip_DimensionFields right).

(** A refusal of the Plan, or an error of the compiler. *)
Inductive PlanRefusal : Type :=
  | PlanRefused (terminal : Terminal)
  | PlanFailed (detail : string).

Definition refuse_plan {A} (reason field : string) : result PlanRefusal A := Err (PlanRefused (mkTerminal 0 reason field "")).
Definition refuse_plan_detail {A} (reason field detail : string) : result PlanRefusal A :=
  Err (PlanRefused (mkTerminal 0 reason field detail)).

Definition validatePlan (request : CompileRequest) : result PlanRefusal unit :=
  let plan := cq_Plan request in
  let dataset := DatasetContract request in
  let strategy := StrategyIR plan in
  let execution := ExecutionSemantics strategy in
  let projection := InputProjection plan in
  match LegacyOutput_Validate (LegacyOutput plan) with
  | Err detail => refuse_plan_detail ReasonPlanInvalid "legacy_output" detail
  | Ok _ =>
  if bool_decide (is_Some (LegacyOutput plan)) && negb (PublishesCompatibleProtocol plan) then refuse_plan ReasonPlanInvalid "legacy_output"
  else if match OutputIdentity plan with
          | None => false
          | Some identity => bool_decide (oi_DimensionFields identity = None)
                             || negb (Bool.eqb (oi_DynamicDimensions identity) (ds_DynamicDimensions dataset))
          end then refuse_plan ReasonPlanInvalid "output_identity.dimension_fields"
  else if bool_decide (is_Some (ep_TargetScope plan)) && bool_decide (is_Some (ep_TargetPlan plan)) then
    refuse_plan ReasonPlanInvalid "target_plan"
  else if match ep_TargetPlan plan with None => false | Some target => negb (is_ok (TargetPlan_Validate target)) end then
    refuse_plan ReasonPlanInvalid "target_plan"
  else if (PlanID plan =? "")%string || negb (PlanID plan =? StrategyID (StrategyRef plan))%string
          || negb (bool_decide (StrategyRef plan = ir_StrategyRef strategy)) || (SnapshotRevision (StrategyRef plan) <? 0)
          || (ip_BusinessIdentityField projection =? "")%string || negb (equalProjection projection (ir_InputProjection strategy))
          || negb (schema_Name (ir_Schema strategy) =? StrategyIRSchemaV2)%string || negb (Major (ir_Schema strategy) =? 2)
          || (Minor (ir_Schema strategy) <? 0) || bool_decide (length (ir_Levels strategy) = 0%nat) then
    refuse_plan ReasonPlanInvalid "strategy_ir"
  else if negb (EvaluationScope execution =? EvaluationScopeSeries)%string || (QueryWindow execution =? 0)
          || (AggregationInterval execution =? 0) || (EvaluationInterval execution =? 0) then
    refuse_plan ReasonPlanInvalid "strategy_ir.execution_semantics"
  else if MaxLevelsPerPlan limits <? Z.of_nat (length (ir_Levels strategy)) then
    refuse_plan ReasonPlanBudgetExceeded "strategy_ir.levels"
  else
    match plan_json_size (MarshalJSON plan) with
    | None => refuse_plan ReasonPlanInvalid "plan"
    | Some size =>
        if MaxPlanBytes limits <? size then refuse_plan ReasonPlanBudgetExceeded "plan"
        else if negb (ip_MissingValuePolicy projection =? MissingValuePolicyRequired)%string
                || negb (ip_MultiValueAlignment projection =? "SINGLE_VALUE")%string
                || bool_decide (length (ip_ValueFields projection) = 0%nat) || negb (sortedUnique (ip_ValueFields projection) false)
                || negb (sortedUnique (ip_DimensionFields projection) true)
                || negb (Bool.eqb (ip_DynamicDimensions projection) (ds_DynamicDimensions dataset))
                || negb (ip_BusinessIdentityField projection =? "bk_biz_id")%string
                || negb (sortedUnique (ds_IdentityFields dataset) false) then
          refuse_plan ReasonProjectionInvalid "input_projection"
        else Ok tt
    end
  end.

(** The loop over the Levels' ids, each once. *)
Fixpoint ids_distinct (seen : gset Z) (levels : list LevelIRV2) : bool :=
  match levels with
  | [] => true
  | level :: levels =>
      let id := def_LevelID (lir_Definition level) in
      negb (bool_decide (id ∈ seen)) && ids_distinct ({[id]} ∪ seen) levels
  end.

(** ** The Levels *)

(** The variables of the loop over the Levels. *)
Record plan_state : Type := mkPlanState {
  ps_levels : list CompiledLevel;
  ps_terminals : list Terminal;
  ps_cost : Z;
  ps_normalizers : gmap string NumericNormalizerSpec;
}.

Definition insert_normalizers (normalizers : gmap string NumericNormalizerSpec) (new : list NumericNormalizerSpec)
    : gmap string NumericNormalizerSpec := foldl (λ normalizers normalizer, <[ref normalizer := normalizer]> normalizers) normalizers new.

(** The Level's cost on top of the others', or none when it passes the budget. *)
Definition add_cost (cost : Z) (level : CompiledLevel) : option Z :=
  let levelCost := triggerComputeCostForLevel (level_trigger level) (level_recovery level) in
  if u64 (MaxTriggerComputeCost limits - cost) <? levelCost then None else Some (u64 (cost + levelCost)).

Definition plan_level_step (request : CompileRequest) (s : plan_state) (raw : LevelIRV2) : result PlanRefusal plan_state :=
  match compileLevel registry limits (InputProjection (cq_Plan request)) (ds_IdentityFields (DatasetContract request))
          (ExecutionSemantics (StrategyIR (cq_Plan request))) raw with
  | Err (Failed detail) => Err (PlanFailed detail)
  | Err (Refused terminal) => Ok (mkPlanState (ps_levels s) (ps_terminals s ++ [terminal]) (ps_cost s) (ps_normalizers s))
  | Ok (level, normalizers) =>
      match add_cost (ps_cost s) level with
      | None => refuse_plan ReasonPlanBudgetExceeded "trigger_compute"
      | Some cost =>
          Ok (mkPlanState (ps_levels s ++ [level]) (ps_terminals s) cost (insert_normalizers (ps_normalizers s) normalizers))
      end
  end.

Fixpoint plan_levels (request : CompileRequest) (s : plan_state) (levels : list LevelIRV2) : result PlanRefusal plan_state :=
  match levels with
  | [] => Ok s
  | raw :: levels => s ← plan_level_step request s raw; plan_levels request s levels
  end.

(** The no-data Level, and the setting as its check leaves it. *)
Definition plan_no_data (request : CompileRequest) (s : plan_state)
    : result PlanRefusal (plan_state * option (NoDataConfigV1 * CompiledLevel)) :=
  match ep_NoData (cq_Plan request) with
  | None => Ok (s, None)
  | Some config =>
      let execution := ExecutionSemantics (StrategyIR (cq_Plan request)) in
      match BuildNoDataLevelIR config execution with
      | Err detail => Err (PlanFailed detail)
      | Ok (config, raw) =>
          match compileLevel registry limits (NoDataProjection config) (ds_IdentityFields (DatasetContract request)) execution raw with
          | Err (Failed detail) => Err (PlanFailed detail)
          | Err (Refused terminal) =>
              refuse_plan_detail ReasonNoDataPlanUncompilable ("no_data." +:+ term_FieldPath terminal) (term_Detail terminal)
          | Ok (level, normalizers) =>
              match add_cost (ps_cost s) level with
              | None => refuse_plan ReasonPlanBudgetExceeded "no_data.trigger_compute"
              | Some cost =>
                  Ok (mkPlanState (ps_levels s) (ps_terminals s) cost (insert_normalizers (ps_normalizers s) normalizers),
                      Some (config, level))
              end
          end
      end
  end.

Definition level_id (level : CompiledLevel) : Z := def_LevelID (level_definition level).

Definition level_id_le (l r : CompiledLevel) : Prop := level_id l ≤ level_id r.
#[export] Instance level_id_le_dec l r : Decision (level_id_le l r).
Proof. unfold level_id_le. apply _. Defined.

Definition terminal_id_le (l r : Terminal) : Prop := term_LevelID l ≤ term_LevelID r.
#[export] Instance terminal_id_le_dec l r : Decision (terminal_id_le l r).
Proof. unfold terminal_id_le. apply _. Defined.

(** The source Level the no-data Level takes its uptime from: the one of its id, or the
    first. *)
Fixpoint source_level (id : Z) (raw : LevelIRV2) (levels : list LevelIRV2) : LevelIRV2 :=
  match levels with
  | [] => raw
  | candidate :: levels => if def_LevelID (lir_Definition candidate) =? id then candidate else source_level id raw levels
  end.

Definition with_effective_time (level : CompiledLevel) (requirement : EffectiveTimeRequirement) : CompiledLevel :=
  mkLevel (level_definition level) (level_connector level) (level_algorithms level) (level_detectors level) (level_trigger level)
    (level_recovery level) requirement (level_stateRequirement level) (level_fingerprints level) (level_resourceEstimate level).

Definition no_data_uptime (request : CompileRequest) (level : option CompiledLevel) : result PlanRefusal (option CompiledLevel) :=
  match level, ir_Levels (StrategyIR (cq_Plan request)) with
  | Some level, first :: levels =>
      let raw := source_level (level_id level) first (first :: levels) in
      match decode_trigger_loose (tp_Config (lir_TriggerPlan raw)) with
      | Err detail => refuse_plan_detail ReasonEffectiveTimeInvalid "strategy_ir.levels.trigger_plan" detail
      | Ok config =>
          match compileEffectiveTimeRequirement requirement_digest (Uptime config) (TimezoneRef config) with
          | Err detail => refuse_plan_detail ReasonEffectiveTimeInvalid "strategy_ir.levels.trigger_plan.uptime" detail
          | Ok requirement => Ok (Some (with_effective_time level requirement))
          end
      end
  | level, _ => Ok level
  end.

(** Every Level the Plan detects on. *)
Definition all_levels (levels : list CompiledLevel) (noData : option CompiledLevel) : list CompiledLevel :=
  levels ++ option_list noData.

Definition calendars_present (rules : option compiledEffectiveRules) (levels : list CompiledLevel) : bool :=
  match rules with
  | None => true
  | Some rules =>
      forallb (λ level : CompiledLevel,
        forallb (λ id, bool_decide (is_Some (rules_calendars rules !! id)))
          (activeCalendarIDs (level_effectiveTime level) ++ inactiveCalendarIDs (level_effectiveTime level))) levels
  end.

(** [checkRetainedPointsFit], of the Levels together. *)
Definition retained_points_fit (levels : list CompiledLevel) : bool :=
  if bool_decide (length levels = 0%nat) then true
  else
    match MaxRetainedPointsByLevels limits !! length levels with
    | None => true
    | Some ceiling =>
        (ceiling =? 0) || forallb (λ level, sr_RetentionPoints (level_stateRequirement level) <=? ceiling) levels
    end.

(** ** The state generation, the fingerprints and the resources *)

Definition closure_of (level : CompiledLevel) : level_closure :=
  mkClosure (level_id level) (algorithm_semantic <$> level_algorithms level) (fp_Detect (level_fingerprints level))
    (fp_Trigger (level_fingerprints level)) (StateIdentityView (level_stateRequirement level)).

Definition DeriveStateCompatibilityHashV1 (input : StateCompatibilityInputV1) : option string :=
  if (sci_StateSchemaVersion input =? "")%string || (sci_CodecSemanticsVersion input =? "")%string
     || (sci_SourceTimeSemanticsVersion input =? "")%string || (sci_HistoryCellSemanticsVersion input =? "")%string then None
  else if negb (sha256Pattern (sci_IdentitySchemaDigest input)) then None
  else if negb (sci_EvaluationScope input =? EvaluationScopeSeries)%string
          && negb (sci_EvaluationScope input =? EvaluationScopeCrossSeries)%string then None
  else if (sci_AggregationInterval input =? 0) || (sci_EvaluationInterval input =? 0) then None
  else state_hash input.

Definition deriveStateCompatibilityHash (request : CompileRequest) (levels : list CompiledLevel) : option string :=
  let semantics := cq_StateSemantics request in
  let execution := ExecutionSemantics (StrategyIR (cq_Plan request)) in
  digest ← closure_digest (IdentitySchemaDigest semantics) (ds_IdentityFields (DatasetContract request)) (closure_of <$> levels);
  DeriveStateCompatibilityHashV1
    (mkStateInput (StateSchemaVersion semantics) (CodecSemanticsVersion semantics) digest (EvaluationScope execution)
       (AggregationInterval execution) (EvaluationInterval execution) (SourceTimeSemanticsVersion semantics)
       (HistoryCellSemanticsVersion semantics)).

Definition entry_le (l r : Z * string) : Prop := l.1 ≤ r.1.
#[export] Instance entry_le_dec l r : Decision (entry_le l r).
Proof. unfold entry_le. apply _. Defined.

Definition DerivePlanFingerprintV1 (domain : string) (fingerprints : gmap Z string) : option string :=
  let entries := merge_sort entry_le (map_to_list fingerprints) in
  if negb (domain =? DetectPlanFingerprintDomainV1)%string && negb (domain =? TriggerStateFingerprintDomainV1)%string then None
  else if existsb (λ entry, (entry.1 =? 0) || negb (sha256Pattern entry.2)) entries then None
  else if bool_decide (length entries = 0%nat) then None
  else plan_fingerprint domain entries.

Definition level_map (f : LevelFingerprints → string) (levels : list CompiledLevel) : gmap Z string :=
  foldl (λ m level, <[level_id level := f (level_fingerprints level)]> m) ∅ levels.

Definition compilePlanFingerprints (levels : list CompiledLevel) : option PlanFingerprints :=
  let detect := level_map fp_Detect levels in
  let trigger := level_map fp_Trigger levels in
  if bool_decide (detect = ∅) then Some (mkPlanFingerprints "" "")
  else
    d ← DerivePlanFingerprintV1 DetectPlanFingerprintDomainV1 detect;
    t ← DerivePlanFingerprintV1 TriggerStateFingerprintDomainV1 trigger;
    Some (mkPlanFingerprints d t).

Fixpoint detector_semantics (normalizers : gmap string NumericNormalizerSpec) (detectors : list DetectorSpec)
    : option (list detectorSemantic) :=
  match detectors with
  | [] => Some []
  | detector :: detectors =>
      normalizer ← normalizers !! spec_normalizerRef detector;
      semantics ← detector_semantics normalizers detectors;
      Some (semantic detector normalizer :: semantics)
  end.

Definition level_wire (level : CompiledLevel) (detectors : list detectorSemantic) : compiledLevelWire :=
  mkLevelWire (level_definition level) (level_connector level) (algorithm_semantic <$> level_algorithms level) detectors
    (level_trigger level) (level_recovery level) (level_effectiveTime level) (level_stateRequirement level) (level_fingerprints level).

Definition with_bytes (level : CompiledLevel) (bytes : Z) : CompiledLevel :=
  let e := level_resourceEstimate level in
  mkLevel (level_definition level) (level_connector level) (level_algorithms level) (level_detectors level) (level_trigger level)
    (level_recovery level) (level_effectiveTime level) (level_stateRequirement level) (level_fingerprints level)
    (mkEstimate (re_FixedComputeCost e) (re_CostPerRecord e) (StatePointsPerSeries e) bytes (re_Algorithms e) (re_ASTNodes e)).

(** The sums over the Levels. *)
Definition add_estimate (a e : ResourceEstimate) : ResourceEstimate :=
  mkEstimate (u64 (re_FixedComputeCost a + re_FixedComputeCost e)) (u64 (re_CostPerRecord a + re_CostPerRecord e))
    (u64 (StatePointsPerSeries a + StatePointsPerSeries e)) (CompiledBytes a) (i64 (re_Algorithms a + re_Algorithms e))
    (i64 (re_ASTNodes a + re_ASTNodes e)).

(** One Level: its wire form and its own bytes. *)
Fixpoint estimate_levels (normalizers : gmap string NumericNormalizerSpec) (aggregate : ResourceEstimate) (levels : list CompiledLevel)
    : result string (list CompiledLevel * list compiledLevelWire * ResourceEstimate) :=
  match levels with
  | [] => Ok ([], [], aggregate)
  | level :: levels =>
      match detector_semantics normalizers (level_detectors level) with
      | None => Err "strategy: compiled plan normalizer invariant violated"%string
      | Some detectors =>
          let wire := level_wire level detectors in
          match level_json_size wire with
          | None => Err "strategy: estimate compiled Level bytes"%string
          | Some bytes =>
              '(levels, wires, aggregate) ← estimate_levels normalizers (add_estimate aggregate (level_resourceEstimate level)) levels;
              Ok (with_bytes level bytes :: levels, wire :: wires, aggregate)
          end
      end
  end.

(** [compileResourceEstimate]: the Plan with its estimates. *)
Definition compileResourceEstimate (plan : CompiledPlan) : result string CompiledPlan :=
  '(levels, wires, aggregate) ← estimate_levels (cp_normalizers plan) (mkEstimate 1 0 0 0 0 0) (cp_levels plan);
  match compiled_json_size (cp_planRef plan) (cp_projection plan) (cp_evaluationSemantics plan) (cp_datasetDigest plan) wires
          (cp_fingerprints plan) with
  | None => Err "strategy: estimate compiled Plan bytes"%string
  | Some bytes =>
      let bytes := bytes + match effectiveRules plan with Some rules => rules_bytes rules | None => 0 end in
      let bytes := bytes + match cp_legacyOutput plan with Some output => SizeBytes output | None => 0 end in
      let estimate := mkEstimate (re_FixedComputeCost aggregate) (re_CostPerRecord aggregate) (StatePointsPerSeries aggregate) bytes
                        (re_Algorithms aggregate) (re_ASTNodes aggregate) in
      Ok (mkCompiledPlan (effectiveRules plan) (cp_planRef plan) (cp_strategyRef plan) (cp_outputIdentity plan) (cp_subjectFacts plan)
            (cp_wireFormat plan) (cp_signalType plan) (cp_legacyOutput plan) (cp_projection plan) (cp_evaluationSemantics plan)
            (cp_boundaryLocation plan) levels (cp_normalizers plan) (cp_fingerprints plan) estimate (cp_datasetDigest plan)
            (cp_targetScope plan) (cp_targetPlan plan) (cp_noData plan) (cp_noDataLevel plan) (cp_globalBusiness plan))
  end.

(** ** The Plan *)

(** A nil list of dimensions becomes an empty one. *)
Definition frozen_identity (identity : MonitorOutputIdentity) : MonitorOutputIdentity :=
  mkOutputIdentity (oi_DynamicDimensions identity) (Some (default [] (oi_DimensionFields identity))).

Definition or_failed {A} (detail : string) (o : option A) : result PlanRefusal A :=
  match o with None => Err (PlanFailed detail) | Some a => Ok a end.

Definition compile_rules (plan : EvaluationPlanV2) : result PlanRefusal (option compiledEffectiveRules) :=
  match compileEffectiveRules LoadLocation snapshot_digest (EffectiveTimeSnapshot plan).1 (EffectiveTimeSnapshot plan).2
          (sref_TenantID (StrategyRef plan)) with
  | Err reason => refuse_plan reason "effective_time_snapshot"
  | Ok rules => Ok rules
  end.

(** The steps in the code's order, its early returns the refusals. *)
Definition compile_plan (request : CompileRequest) : result PlanRefusal (CompiledPlan * list Terminal) :=
  let plan := cq_Plan request in
  let execution := ExecutionSemantics (StrategyIR plan) in
  _ ← validatePlan request;
  _ ← (if ids_distinct ∅ (ir_Levels (StrategyIR plan)) then Ok tt else refuse_plan ReasonPlanDuplicateLevelID "strategy_ir.levels");
  datasetDigest ← or_failed "strategy: derive dataset contract digest" (dataset_digest (DatasetContract request));
  rules ← compile_rules plan;
  s ← plan_levels request (mkPlanState [] [] 0 ∅) (ir_Levels (StrategyIR plan));
  '(s, noData) ← plan_no_data request s;
  let levels := merge_sort level_id_le (ps_levels s) in
  noDataLevel ← no_data_uptime request (snd <$> noData);
  _ ← (if calendars_present rules (all_levels levels noDataLevel) then Ok tt
       else refuse_plan ReasonEffectiveTimeCalendarMissing "effective_time_snapshot.calendars");
  _ ← (if retained_points_fit (all_levels levels noDataLevel) then Ok tt
       else refuse_plan ReasonPlanBudgetExceeded "level.state_requirement");
  stateHash ← or_failed "strategy: derive state compatibility" (deriveStateCompatibilityHash request levels);
  fingerprints ← or_failed "strategy: derive plan fingerprint" (compilePlanFingerprints levels);
  let compiled :=
    mkCompiledPlan rules
      (mkPlanRef (StrategyID (StrategyRef plan)) (sref_Revision (StrategyRef plan)) stateHash)
      (StrategyRef plan) (frozen_identity <$> OutputIdentity plan) (SubjectFacts plan) (WireFormat plan) (SignalType plan)
      (FreezeLegacyOutput (LegacyOutput plan)) (InputProjection plan) execution boundaryLocation levels (ps_normalizers s) fingerprints
      (mkEstimate 0 0 0 0 0 0) datasetDigest (ep_TargetScope plan) (ep_TargetPlan plan) (fst <$> noData) noDataLevel (GlobalBusiness plan) in
  match compileResourceEstimate compiled with
  | Err detail => Err (PlanFailed detail)
  | Ok compiled =>
      if MaxCompiledPlanBytes limits <? CompiledBytes (cp_resourceEstimate compiled) then
        refuse_plan ReasonPlanBudgetExceeded "compiled_plan"
      else Ok (compiled, merge_sort terminal_id_le (ps_terminals s))
  end.

Definition compileUncached (request : CompileRequest) : result string CompileResult :=
  match compile_plan request with
  | Err (PlanFailed detail) => Err detail
  | Err (PlanRefused terminal) => Ok (mkCompileResult None (Some terminal) [])
  | Ok (compiled, terminals) => Ok (mkCompileResult (Some compiled) None terminals)
  end.
End compile.

(** ** Its views *)

(** [NoDataView]: the Plan with the no-data Level as its only one. *)
Definition NoDataView (plan : CompiledPlan) : option CompiledPlan :=
  level ← cp_noDataLevel plan;
  Some (mkCompiledPlan (effectiveRules plan) (cp_planRef plan) (cp_strategyRef plan)
          (match cp_outputIdentity plan with None => None | Some _ => Some (mkOutputIdentity true None) end)
          (cp_subjectFacts plan) (cp_wireFormat plan) (cp_signalType plan) (cp_legacyOutput plan) (cp_projection plan)
          (cp_evaluationSemantics plan) (cp_boundaryLocation plan) [level] (cp_normalizers plan) (cp_fingerprints plan)
          (cp_resourceEstimate plan) (cp_datasetDigest plan) (cp_targetScope plan) (cp_targetPlan plan) (cp_noData plan)
          (cp_noDataLevel plan) (cp_globalBusiness plan)).

(** A compiled Plan as detection and as the trigger read it (the accessors of
    strategy/types.go). *)
Definition detect_level (level : CompiledLevel) : DetectLevel :=
  mkDetectLevel (level_definition level) (level_connector level) (fp_Detect (level_fingerprints level)) (level_detectors level)
    ((λ algorithm, mkAlgorithm (cap_kind algorithm) (cap_version algorithm)) <$> level_algorithms level).

Definition detect_plan (plan : CompiledPlan) : DetectPlan :=
  mkDetectPlan (EvaluationScope (cp_evaluationSemantics plan)) (detect_level <$> cp_levels plan) (cp_normalizers plan).

Definition trigger_plan (plan : CompiledPlan) : Trigger.CompiledPlan :=
  Trigger.mkPlan (trigger_view <$> cp_levels plan) (sref_TenantID (cp_strategyRef plan)) (StrategyID (cp_strategyRef plan))
    (SnapshotRevision (cp_strategyRef plan)) (bool_decide (is_Some (cp_outputIdentity plan))) (cp_wireFormat plan) (cp_signalType plan)
    (bool_decide (is_Some (cp_legacyOutput plan))) (EvaluationInterval (cp_evaluationSemantics plan))
    (AggregationInterval (cp_evaluationSemantics plan)) (default UTC (cp_boundaryLocation plan)).
