(* ===== verification/PlanSpec.v ===== *)
(** What a compiled Plan promises: its declared Levels accounted for one by one and in
    order, its budgets kept, its calendars there, and Levels the trigger admits. *)
From S2P Require Import Prelude GoHash Group Absence Roster NoDataMemory NoDataSlot TargetPlan TriggerEvent History Trigger RecoveryWalk TriggerLevel.
From S2P Require Import Reason Decimal AlgorithmInput Predicate ThresholdCompiler EffectiveTime CalendarRules LevelCompiler LevelSpec.
From S2P Require Import PlanCompiler.

Open Scope Z_scope.

Notation ir_id raw := (def_LevelID (lir_Definition raw)).

(** ** Costs *)

Definition level_cost (level : CompiledLevel) : Z := triggerComputeCostForLevel (level_trigger level) (level_recovery level).
Definition plan_cost (levels : list CompiledLevel) : Z := foldr (λ level cost, level_cost level + cost) 0 levels.

Lemma level_cost_range level : is_u64 (level_cost level).
Proof. unfold level_cost, triggerComputeCostForLevel. destruct (Enabled _); [apply u64_range|go_lia]. Qed.

Lemma plan_cost_app levels levels' : plan_cost (levels ++ levels') = plan_cost levels + plan_cost levels'.
Proof. induction levels as [|level levels IH]; simpl; lia. Qed.

Lemma plan_cost_perm levels levels' : levels ≡ₚ levels' → plan_cost levels = plan_cost levels'.
Proof. induction 1; simpl; lia. Qed.

Section spec.
Context `{Digests : !CompilerDigests, Codec : !ConfigCodec, Encoder : !ConfigEncoder, Plans : !PlanDigests}.
Variable registry : AlgorithmCompilerRegistry.
Variable limits : Limits.
Variable boundaryLocation : option Location.

Hypothesis budget_typed : is_u64 (MaxTriggerComputeCost limits).

Lemma add_cost_Some cost level cost' :
  0 ≤ cost ≤ MaxTriggerComputeCost limits → add_cost limits cost level = Some cost' →
  cost' = cost + level_cost level ∧ 0 ≤ cost' ≤ MaxTriggerComputeCost limits.
Proof.
  intros Hc. unfold add_cost. fold (level_cost level). pose proof (level_cost_range level) as Hl.
  rewrite (u64_id (_ - cost)) by go_lia. destruct (Z.ltb_spec (MaxTriggerComputeCost limits - cost) (level_cost level)); [done|].
  intros [= <-]. rewrite u64_id by go_lia. go_lia.
Qed.

(** ** The loop over the Levels *)

Section levels.
Variable request : CompileRequest.

Notation compiles projection raw := (compileLevel registry limits projection (ds_IdentityFields (DatasetContract request))
  (ExecutionSemantics (StrategyIR (cq_Plan request))) raw).
Notation declared raw := (compiles (InputProjection (cq_Plan request)) raw).

(** Each declared Level, compiled or refused. *)
Inductive levels_compiled : list LevelIRV2 → list (CompiledLevel * list NumericNormalizerSpec) → list Terminal → Prop :=
  | levels_none : levels_compiled [] [] []
  | levels_level raw raws level normalizers levels terminals :
      declared raw = Ok (level, normalizers) → levels_compiled raws levels terminals →
      levels_compiled (raw :: raws) ((level, normalizers) :: levels) terminals
  | levels_refused raw raws terminal levels terminals :
      declared raw = Err (Refused terminal) → levels_compiled raws levels terminals →
      levels_compiled (raw :: raws) levels (terminal :: terminals).

Lemma plan_levels_spec raws s s' :
  0 ≤ ps_cost s ≤ MaxTriggerComputeCost limits → plan_levels registry limits request s raws = Ok s' →
  ∃ levels terminals, levels_compiled raws levels terminals ∧
    ps_levels s' = ps_levels s ++ levels.*1 ∧ ps_terminals s' = ps_terminals s ++ terminals ∧
    ps_cost s' = ps_cost s + plan_cost levels.*1 ∧ 0 ≤ ps_cost s' ≤ MaxTriggerComputeCost limits ∧
    ps_normalizers s' = foldl (λ m l, insert_normalizers m l.2) (ps_normalizers s) levels.
Proof.
  revert s. induction raws as [|raw raws IH]; intros s Hs; cbn [plan_levels].
  { intros [= <-]. exists [], []. rewrite !app_nil_r. simpl. split_and!; [constructor|done..|lia|lia|lia|done]. }
  intros (s1 & Hstep & Hrest)%bind_Ok. unfold plan_level_step in Hstep.
  destruct (compileLevel _ _ _ _ _ raw) as [[level normalizers]|[terminal|detail]] eqn:Hc; [| |done].
  - destruct (add_cost limits (ps_cost s) level) as [cost|] eqn:Hcost; [|done]. injection Hstep as <-.
    apply add_cost_Some in Hcost as [-> Hb]; [|done].
    pose proof (λ H, IH _ H Hrest) as IH'. destruct (IH' Hb) as (levels & terminals & Hl & H1 & H2 & H3 & H4 & H5).
    exists ((level, normalizers) :: levels), terminals. cbn [ps_levels ps_terminals ps_cost ps_normalizers] in *.
    split_and!; [by constructor| |done| |lia..|done]; [by rewrite H1, <- app_assoc|]. rewrite H3. cbn [fmap list_fmap fst plan_cost foldr].
    fold (plan_cost levels.*1). lia.
  - injection Hstep as <-. pose proof (λ H, IH _ H Hrest) as IH'. destruct (IH' Hs) as (levels & terminals & Hl & H1 & H2 & H3 & H4 & H5).
    exists levels, (terminal :: terminals). cbn [ps_levels ps_terminals ps_cost ps_normalizers] in *.
    split_and!; [by constructor|done| |done|lia..|done]. by rewrite H2, <- app_assoc.
Qed.

(** A refused Level is named by its id. *)
Lemma algorithm_loop_refused projection identity execution id algorithms position c terminal :
  algorithm_loop registry limits projection identity execution id position algorithms c = Err (Refused terminal) →
  term_LevelID terminal = id.
Proof.
  revert position c. induction algorithms as [|algorithm algorithms IH]; intros position c; cbn [algorithm_loop]; [done|].
  destruct (algorithm_step _ _ _ _ _ _ _ _ _) as [c'|e] eqn:Hstep; cbn [mbind result_bind]; [apply IH|]. intros [= ->].
  revert Hstep. unfold algorithm_step, refuse, refused. repeat case_match; intros [= <-]; done.
Qed.

Lemma compileLevel_refused projection raw terminal : compiles projection raw = Err (Refused terminal) → term_LevelID terminal = ir_id raw.
Proof.
  unfold compileLevel, refuse, refused. repeat (case_match; [by intros [= <-]|]).
  destruct (algorithm_loop _ _ _ _ _ _ _ _ _) as [c|e] eqn:Hloop; cbn [mbind result_bind].
  - repeat case_match; intros [= <-]; done.
  - intros [= ->]. by apply algorithm_loop_refused in Hloop.
Qed.

Lemma levels_compiled_ids raws levels terminals :
  levels_compiled raws levels terminals →
  (level_id <$> levels.*1) ++ (term_LevelID <$> terminals) ≡ₚ (λ raw, ir_id raw) <$> raws.
Proof.
  induction 1 as [|raw raws level normalizers levels terminals Hc _ IH|raw raws terminal levels terminals Hc _ IH]; [done| |]; simpl.
  - apply compileLevel_inv in Hc. unfold level_id at 1. rewrite (ca_definition _ _ _ _ _ _ _ _ Hc). by constructor.
  - apply compileLevel_refused in Hc. rewrite <- IH, Hc. by rewrite <- Permutation_middle.
Qed.

Lemma levels_compiled_level raws levels terminals level normalizers :
  levels_compiled raws levels terminals → (level, normalizers) ∈ levels →
  ∃ raw, raw ∈ raws ∧ declared raw = Ok (level, normalizers).
Proof. clear budget_typed. induction 1; set_solver. Qed.

Lemma levels_compiled_terminal raws levels terminals terminal :
  levels_compiled raws levels terminals → terminal ∈ terminals → ∃ raw, raw ∈ raws ∧ declared raw = Err (Refused terminal).
Proof. clear budget_typed. induction 1; set_solver. Qed.

Lemma ids_distinct_spec seen raws :
  ids_distinct seen raws = true ↔ NoDup ((λ raw, ir_id raw) <$> raws) ∧ ∀ raw, raw ∈ raws → ir_id raw ∉ seen.
Proof.
  revert seen. induction raws as [|raw raws IH]; intros seen; cbn [ids_distinct fmap list_fmap].
  { split; [|done]. split; [constructor|set_solver]. }
  rewrite andb_true_iff, negb_true_iff, bool_decide_eq_false, IH, NoDup_cons, list_elem_of_fmap. split.
  - intros (Hn & Hd & Hs). split_and!; [|done|]; set_solver.
  - intros ((Hn & Hd) & Hs). split_and!; [set_solver|done|]. intros r Hr [E%elem_of_singleton|]%elem_of_union; [|set_solver].
    apply Hn. by exists r.
Qed.
End levels.

(** ** The no-data Level *)

Lemma BuildNoDataLevelIR_Ok config execution valid raw :
  BuildNoDataLevelIR config execution = Ok (valid, raw) →
  ValidateNoDataConfig config = Ok valid ∧
  lir_Definition raw = mkDefinition (cfg_Level valid) "" (cfg_Level valid) ∧ lir_Connector raw = LevelConnectorAND ∧
  ∃ threshold trigger recovery, encode_threshold noDataThreshold = Some threshold ∧
    encode_trigger (noDataTrigger valid execution) = Some trigger ∧ encode_recovery noDataRecovery = Some recovery ∧
    lir_Algorithms raw = [mkAlgorithmIR DetectorKindThreshold 1 threshold] ∧
    lir_TriggerPlan raw = mkTypedPlan TriggerPlanTypeNOfM 1 trigger ∧
    lir_RecoveryPlan raw = mkTypedPlan RecoveryPlanTypeContinuousTriggerMiss 1 recovery.
Proof.
  unfold BuildNoDataLevelIR. destruct (ValidateNoDataConfig config) as [v|]; [|done].
  destruct (encode_threshold _) as [threshold|]; [|done]. destruct (encode_trigger _) as [trigger|] eqn:Ht; [|done].
  destruct (encode_recovery _) as [recovery|]; [|done]. intros [= <- <-]. split_and!; [done..|]. by exists threshold, trigger, recovery.
Qed.

(** A Level but for its uptime and its bytes. *)
Record same_level (compiled level : CompiledLevel) : Prop := {
  sl_definition : level_definition level = level_definition compiled;
  sl_connector : level_connector level = level_connector compiled;
  sl_algorithms : level_algorithms level = level_algorithms compiled;
  sl_detectors : level_detectors level = level_detectors compiled;
  sl_trigger : level_trigger level = level_trigger compiled;
  sl_recovery : level_recovery level = level_recovery compiled;
  sl_requirement : level_stateRequirement level = level_stateRequirement compiled;
  sl_fingerprints : level_fingerprints level = level_fingerprints compiled;
}.

#[global] Instance same_level_preorder : PreOrder same_level.
Proof. split; [by split|]. intros a b c [] []. split; congruence. Qed.

Lemma with_effective_time_same level requirement : same_level level (with_effective_time level requirement).
Proof. by split. Qed.

Lemma with_bytes_same level bytes : same_level level (with_bytes level bytes).
Proof. by split. Qed.

Lemma same_level_cost a b : same_level a b → level_cost b = level_cost a.
Proof. intros []. unfold level_cost. congruence. Qed.

Lemma same_level_admitted a b : same_level a b → level_compiled (trigger_view a) → level_compiled (trigger_view b).
Proof.
  intros [Hd _ _ _ Ht Hr Hs Hf]. unfold trigger_view. intros [[] ? ? ? ?].
  split; [split|..]; simpl in *; rewrite ?Hd, ?Ht, ?Hr, ?Hs, ?Hf; done.
Qed.

Lemma no_data_uptime_Ok request level level' :
  no_data_uptime request level = Ok level' →
  match level, level' with Some a, Some b => same_level a b | None, None => True | _, _ => False end.
Proof.
  unfold no_data_uptime. destruct level as [level|]; [|by intros [= <-]].
  destruct (ir_Levels _) as [|first raws]; [by intros [= <-]|].
  destruct (decode_trigger_loose _) as [config|]; [|done]. destruct (compileEffectiveTimeRequirement _ _ _) as [requirement|]; [|done].
  intros [= <-]. apply with_effective_time_same.
Qed.

(** ** The estimates *)

Lemma estimate_levels_Ok normalizers aggregate levels levels' wires total :
  estimate_levels normalizers aggregate levels = Ok (levels', wires, total) →
  Forall2 (λ level level', ∃ bytes, level' = with_bytes level bytes) levels levels'.
Proof.
  revert aggregate levels' wires total. induction levels as [|level levels IH]; intros aggregate levels' wires total;
    cbn [estimate_levels]; [by intros [= <- <- <-]|].
  destruct (detector_semantics _ _) as [semantics|]; [|done]. destruct (level_json_size _) as [bytes|]; [|done].
  intros ([[rest ws] t] & Hrest & [= <- <- <-])%bind_Ok. constructor; [by exists bytes|by eapply IH].
Qed.

Lemma compileResourceEstimate_Ok plan plan' :
  compileResourceEstimate plan = Ok plan' →
  Forall2 (λ level level', ∃ bytes, level' = with_bytes level bytes) (cp_levels plan) (cp_levels plan') ∧
  effectiveRules plan' = effectiveRules plan ∧ cp_normalizers plan' = cp_normalizers plan ∧
  cp_noDataLevel plan' = cp_noDataLevel plan ∧ cp_noData plan' = cp_noData plan ∧ cp_projection plan' = cp_projection plan ∧
  cp_evaluationSemantics plan' = cp_evaluationSemantics plan ∧ cp_planRef plan' = cp_planRef plan.
Proof.
  unfold compileResourceEstimate. intros ([[levels wires] total] & Hl & H)%bind_Ok. revert H.
  destruct (compiled_json_size _ _ _ _ _ _) as [bytes|]; [|done]. intros [= <-]. cbn.
  split_and!; [by eapply estimate_levels_Ok|done..].
Qed.

(** The no-data Level of a Plan, with its normalizers. *)
Notation no_data := (option (NoDataConfigV1 * CompiledLevel * list NumericNormalizerSpec)).

Definition no_data_compiled (request : CompileRequest) (noData : no_data) : Prop :=
  let execution := ExecutionSemantics (StrategyIR (cq_Plan request)) in
  match ep_NoData (cq_Plan request), noData with
  | None, None => True
  | Some config, Some (valid, level, normalizers) =>
      ∃ raw, BuildNoDataLevelIR config execution = Ok (valid, raw) ∧
        compileLevel registry limits (NoDataProjection valid) (ds_IdentityFields (DatasetContract request)) execution raw
          = Ok (level, normalizers)
  | _, _ => False
  end.

Lemma plan_no_data_Ok request s s' result :
  0 ≤ ps_cost s ≤ MaxTriggerComputeCost limits → plan_no_data registry limits request s = Ok (s', result) →
  ∃ noData : no_data, no_data_compiled request noData ∧ result = fst <$> noData ∧
    ps_levels s' = ps_levels s ∧ ps_terminals s' = ps_terminals s ∧
    ps_cost s' = ps_cost s + plan_cost (option_list ((λ n, n.1.2) <$> noData)) ∧ ps_cost s' ≤ MaxTriggerComputeCost limits ∧
    ps_normalizers s' = foldl insert_normalizers (ps_normalizers s) (option_list (snd <$> noData)).
Proof.
  intros Hs. unfold plan_no_data, no_data_compiled. destruct (ep_NoData _) as [config|].
  2:{ intros [= <- <-]. exists None. simpl. split_and!; done || lia. }
  destruct (BuildNoDataLevelIR _ _) as [[valid raw]|]; [|done].
  destruct (compileLevel _ _ _ _ _ raw) as [[level normalizers]|[]] eqn:Hc; [|done..].
  destruct (add_cost _ _ level) as [cost|] eqn:Hcost; [|done]. intros [= <- <-]. apply add_cost_Some in Hcost as [-> Hb]; [|done].
  exists (Some (valid, level, normalizers)). simpl. split_and!; [by exists raw|done..|lia|lia|done].
Qed.

(** ** The compiled Plan *)

(** Everything a compiled Plan was compiled from: [levels] and [refused], its declared
    Levels with their normalizers, and [noData]. *)
Record plan_as (request : CompileRequest) (plan : CompiledPlan) (terminals : list Terminal)
    (levels : list (CompiledLevel * list NumericNormalizerSpec)) (refused : list Terminal) (noData : no_data) : Prop := {
  pa_valid : validatePlan limits request = Ok tt;
  pa_distinct : NoDup ((λ raw, ir_id raw) <$> ir_Levels (StrategyIR (cq_Plan request)));
  pa_rules : compile_rules (cq_Plan request) = Ok (effectiveRules plan);
  pa_projection : cp_projection plan = InputProjection (cq_Plan request);
  pa_semantics : cp_evaluationSemantics plan = ExecutionSemantics (StrategyIR (cq_Plan request));
  pa_compiled : levels_compiled request (ir_Levels (StrategyIR (cq_Plan request))) levels refused;
  pa_terminals : terminals = merge_sort terminal_id_le refused;
  pa_levels : Forall2 (λ level level', ∃ bytes, level' = with_bytes level bytes) (merge_sort level_id_le levels.*1) (cp_levels plan);
  pa_no_data : no_data_compiled request noData;
  pa_setting : cp_noData plan = (λ n, n.1.1) <$> noData;
  pa_uptime : no_data_uptime request ((λ n, n.1.2) <$> noData) = Ok (cp_noDataLevel plan);
  pa_cost : plan_cost levels.*1 + plan_cost (option_list ((λ n, n.1.2) <$> noData)) ≤ MaxTriggerComputeCost limits;
  pa_normalizers : cp_normalizers plan =
    foldl insert_normalizers (foldl (λ m l, insert_normalizers m l.2) ∅ levels) (option_list (snd <$> noData));
  pa_calendars : calendars_present (effectiveRules plan) (all_levels (merge_sort level_id_le levels.*1) (cp_noDataLevel plan)) = true;
  pa_retained : retained_points_fit limits (all_levels (merge_sort level_id_le levels.*1) (cp_noDataLevel plan)) = true;
}.

Lemma or_failed_Ok {A} detail (o : option A) a : or_failed detail o = Ok a ↔ o = Some a.
Proof. destruct o; simpl; naive_solver. Qed.

Lemma guard_plan_Ok (b : bool) (reason field : string) (u : unit) :
  (if b then Ok u else refuse_plan reason field) = Ok tt ↔ b = true.
Proof. destruct b, u; naive_solver. Qed.

Lemma compile_plan_inv request plan terminals :
  compile_plan registry limits boundaryLocation request = Ok (plan, terminals) →
  ∃ levels refused noData, plan_as request plan terminals levels refused noData.
Proof.
  unfold compile_plan. intros ([] & Hvalid & H)%bind_Ok. revert H. intros ([] & Hids%guard_plan_Ok & H)%bind_Ok. revert H.
  intros (dataset & _ & H)%bind_Ok. revert H. intros (rules & Hrules & H)%bind_Ok. revert H.
  intros (s & Hs & H)%bind_Ok. revert H. intros ([s' result] & Hn & H)%bind_Ok. revert H.
  intros (level & Hup & H)%bind_Ok. revert H. intros ([] & Hcal%guard_plan_Ok & H)%bind_Ok. revert H.
  intros ([] & Hfit%guard_plan_Ok & H)%bind_Ok. revert H. intros (hash & _ & H)%bind_Ok. revert H.
  intros (fingerprints & _ & H)%bind_Ok. revert H.
  destruct (compileResourceEstimate _) as [compiled|] eqn:He; [|done]. destruct (_ <? _); [done|]. intros [= <- <-].
  apply compileResourceEstimate_Ok in He as (Hlevels & Her & Hen & Hel & Hed & Hep & Hes & _).
  cbn [cp_levels effectiveRules cp_normalizers cp_noDataLevel cp_noData cp_projection cp_evaluationSemantics] in *.
  apply plan_levels_spec in Hs as (levels & refused & Hc & Hps & Hpt & Hpc & Hcost & Hpn); [|cbn [ps_cost]; go_lia].
  cbn [ps_levels ps_terminals ps_cost ps_normalizers app] in *.
  apply plan_no_data_Ok in Hn as (noData & Hnd & -> & Hnl & Hnt & Hnc & Hnmax & Hnn); [|done].
  rewrite Hnl, Hps in Hlevels, Hcal, Hfit. rewrite Hnt, Hpt.
  exists levels, refused, noData. split; rewrite ?Her, ?Hel, ?Hen, ?Hed, ?Hep, ?Hes; try done.
  - by apply ids_distinct_spec in Hids as [? _].
  - by destruct noData as [[[? ?] ?]|].
  - rewrite <- Hup. by destruct noData as [[[? ?] ?]|].
  - lia.
  - by rewrite Hnn, Hpn.
Qed.

Lemma compileUncached_inv request plan terminals :
  compileUncached registry limits boundaryLocation request = Ok (mkCompileResult (Some plan) None terminals) →
  ∃ levels refused noData, plan_as request plan terminals levels refused noData.
Proof.
  unfold compileUncached. destruct (compile_plan _ _ _ _) as [[? ?]|[]] eqn:Hc; [|done..].
  intros [= <- <-]. by eapply compile_plan_inv.
Qed.

(** ** Order *)

Lemma sorted_strictly {A} (key : A → Z) (le : A → A → Prop) l :
  (∀ a b, le a b ↔ key a ≤ key b) → StronglySorted le l → NoDup (key <$> l) → StronglySorted Z.lt (key <$> l).
Proof.
  intros Hle. induction 1 as [|a l _ IH Hall]; simpl; [constructor|]. intros [Hn Hd]%NoDup_cons. constructor; [by apply IH|].
  rewrite Forall_fmap. apply Forall_forall. intros b Hb. rewrite Forall_forall in Hall. specialize (Hall b Hb) as ?%Hle.
  assert (key a ≠ key b); [|simpl; lia]. intros E. apply Hn. rewrite E. by apply list_elem_of_fmap_2.
Qed.

#[local] Instance level_id_le_total : Total level_id_le.
Proof. intros a b. unfold level_id_le. lia. Qed.
#[local] Instance level_id_le_trans : Transitive level_id_le.
Proof. intros a b c. unfold level_id_le. lia. Qed.
#[local] Instance terminal_id_le_total : Total terminal_id_le.
Proof. intros a b. unfold terminal_id_le. lia. Qed.
#[local] Instance terminal_id_le_trans : Transitive terminal_id_le.
Proof. intros a b c. unfold terminal_id_le. lia. Qed.

Section compiled.
Variables (request : CompileRequest) (plan : CompiledPlan) (terminals : list Terminal).
Variables (levels : list (CompiledLevel * list NumericNormalizerSpec)) (refused : list Terminal) (noData : no_data).
Hypothesis Hplan : plan_as request plan terminals levels refused noData.

Lemma plan_levels_perm : Forall2 same_level (merge_sort level_id_le levels.*1) (cp_levels plan).
Proof.
  eapply Forall2_impl; [apply (pa_levels _ _ _ _ _ _ Hplan)|]. intros a b [bytes ->]. apply with_bytes_same.
Qed.

Lemma plan_level_of level : level ∈ cp_levels plan → ∃ compiled normalizers, (compiled, normalizers) ∈ levels ∧ same_level compiled level.
Proof.
  intros Hl. apply list_elem_of_lookup_1 in Hl as [i Hi]. destruct (Forall2_lookup_r _ _ _ _ _ plan_levels_perm Hi) as (c & Hc & Hs).
  apply list_elem_of_lookup_2 in Hc. rewrite merge_sort_Permutation in Hc.
  apply list_elem_of_fmap in Hc as ([c' ns] & -> & Hc). by exists c', ns.
Qed.

Lemma plan_no_data_level level :
  cp_noDataLevel plan = Some level → ∃ valid compiled normalizers, noData = Some (valid, compiled, normalizers) ∧ same_level compiled level.
Proof.
  intros Hl. pose proof (pa_uptime _ _ _ _ _ _ Hplan) as H. rewrite Hl in H. apply no_data_uptime_Ok in H.
  destruct noData as [[[valid compiled] normalizers]|]; [|done]. by exists valid, compiled, normalizers.
Qed.

Lemma level_ids_of : level_id <$> cp_levels plan = level_id <$> merge_sort level_id_le levels.*1.
Proof.
  symmetry. pose proof plan_levels_perm as H. induction H as [|a b l k Hab _ IH]; [done|].
  rewrite !fmap_cons. f_equal; [|exact IH]. unfold level_id. by rewrite (sl_definition _ _ Hab).
Qed.

Lemma plan_ids :
  StronglySorted Z.lt (level_id <$> cp_levels plan) ∧ StronglySorted Z.lt (term_LevelID <$> terminals) ∧
  (level_id <$> cp_levels plan) ++ (term_LevelID <$> terminals) ≡ₚ (λ raw, ir_id raw) <$> ir_Levels (StrategyIR (cq_Plan request)).
Proof.
  pose proof (levels_compiled_ids _ _ _ _ (pa_compiled _ _ _ _ _ _ Hplan)) as Hids.
  pose proof (pa_distinct _ _ _ _ _ _ Hplan) as Hnd. rewrite <- Hids in Hnd. apply NoDup_app in Hnd as (Hl & _ & Ht).
  rewrite level_ids_of, (pa_terminals _ _ _ _ _ _ Hplan). split_and!.
  - apply (sorted_strictly _ level_id_le); [done|apply StronglySorted_merge_sort; apply _|]. by rewrite merge_sort_Permutation.
  - apply (sorted_strictly _ terminal_id_le); [done|apply StronglySorted_merge_sort; apply _|]. by rewrite merge_sort_Permutation.
  - by rewrite !merge_sort_Permutation.
Qed.

(** Every Level the Plan detects on was compiled. *)
Lemma plan_compiles level :
  level ∈ all_levels (cp_levels plan) (cp_noDataLevel plan) →
  ∃ projection raw compiled normalizers,
    compiled_as registry limits projection (ds_IdentityFields (DatasetContract request)) (cp_evaluationSemantics plan) raw compiled normalizers ∧
    same_level compiled level.
Proof.
  unfold all_levels. rewrite (pa_semantics _ _ _ _ _ _ Hplan). intros [Hl|Hl]%elem_of_app.
  - apply plan_level_of in Hl as (c & ns & Hin & Hs).
    destruct (levels_compiled_level _ _ _ _ _ _ (pa_compiled _ _ _ _ _ _ Hplan) Hin) as (raw & _ & Hc%compileLevel_inv). by eauto 10.
  - destruct (cp_noDataLevel plan) as [l|] eqn:Hn; [|by apply elem_of_nil in Hl]. apply list_elem_of_singleton in Hl as ->.
    destruct (plan_no_data_level _ Hn) as (valid & c & ns & Hnd & Hs). pose proof (pa_no_data _ _ _ _ _ _ Hplan) as H.
    unfold no_data_compiled in H. rewrite Hnd in H. destruct (ep_NoData _); [|done]. destruct H as (raw & _ & Hc%compileLevel_inv). by eauto 10.
Qed.

Lemma plan_cost_of : plan_cost (all_levels (cp_levels plan) (cp_noDataLevel plan)) ≤ MaxTriggerComputeCost limits.
Proof.
  unfold all_levels. rewrite plan_cost_app.
  assert (plan_cost (cp_levels plan) = plan_cost levels.*1) as ->.
  { rewrite <- (plan_cost_perm _ _ (merge_sort_Permutation level_id_le levels.*1)). symmetry.
    pose proof plan_levels_perm as H. induction H as [|a b la lb Hab _ IH]; [done|]. simpl. rewrite (same_level_cost _ _ Hab). lia. }
  assert (plan_cost (option_list (cp_noDataLevel plan)) = plan_cost (option_list ((λ n, n.1.2) <$> noData))) as ->;
    [|apply (pa_cost _ _ _ _ _ _ Hplan)].
  pose proof (no_data_uptime_Ok _ _ _ (pa_uptime _ _ _ _ _ _ Hplan)) as Hu. destruct noData as [[[? c] ?]|], (cp_noDataLevel plan) as [level|];
    simpl in *; [|done..]. by rewrite (same_level_cost _ _ Hu).
Qed.
End compiled.

(** ** The promises *)

Lemma detected_of request plan terminals levels refused noData (P : CompiledLevel → Prop) :
  plan_as request plan terminals levels refused noData → (∀ level bytes, P level → P (with_bytes level bytes)) →
  Forall P (all_levels (merge_sort level_id_le levels.*1) (cp_noDataLevel plan)) → Forall P (all_levels (cp_levels plan) (cp_noDataLevel plan)).
Proof.
  intros Hplan HP. unfold all_levels. rewrite !Forall_app. intros [Hl Hn]. split; [|done].
  pose proof (pa_levels _ _ _ _ _ _ Hplan) as H. revert Hl. induction H as [|a b la lb [bytes ->] _ IH]; [done|].
  intros [Ha Hl]%Forall_cons. constructor; [by apply HP|by apply IH].
Qed.

Lemma retained_points_fit_spec detected :
  retained_points_fit limits detected = true ↔
  ∀ ceiling, detected ≠ [] → MaxRetainedPointsByLevels limits !! length detected = Some ceiling → ceiling ≠ 0 →
    Forall (λ level, sr_RetentionPoints (level_stateRequirement level) ≤ ceiling) detected.
Proof.
  unfold retained_points_fit. destruct detected as [|level detected]; [by split|]. rewrite bool_decide_eq_false_2 by done.
  set (all := level :: detected). destruct (_ !! _) as [ceiling|] eqn:Hc; [|by split].
  rewrite orb_true_iff, Z.eqb_eq, forallb_forall. split.
  - intros [->|H] c _ [= <-] Hz; [done|]. apply Forall_forall. intros l Hl. apply Z.leb_le, H, list_elem_of_In, Hl.
  - intros H. destruct (decide (ceiling = 0)) as [->|Hz]; [by left|right]. intros l Hl%list_elem_of_In. apply Z.leb_le.
    specialize (H ceiling ltac:(done) eq_refl Hz). rewrite Forall_forall in H. by apply H.
Qed.

Lemma calendars_present_spec rules detected :
  calendars_present (Some rules) detected = true ↔
  Forall (λ level, Forall (λ id, is_Some (rules_calendars rules !! id))
    (activeCalendarIDs (level_effectiveTime level) ++ inactiveCalendarIDs (level_effectiveTime level))) detected.
Proof.
  unfold calendars_present. rewrite forallb_forall, Forall_forall. setoid_rewrite list_elem_of_In.
  apply forall_proper; intros level. apply forall_proper; intros _. rewrite forallb_forall, Forall_forall. setoid_rewrite list_elem_of_In.
  apply forall_proper; intros id. apply forall_proper; intros _. apply bool_decide_eq_true.
Qed.

(** C15: a compiled Plan accounts for every Level the strategy declares, once: compiled from
    its own declaration, or refused by a terminal of its id; both in the order of ids. It
    has a no-data Level exactly when it has the setting. Every Level it detects on is one
    the trigger can evaluate; together they cost no more than the budget, none retains more
    than a record shared by that many can hold, and every calendar one names is in the
    Plan's rules. *)
Theorem plan_compiled request plan terminals :
  codec_typed → digests_typed → is_u32 (EvaluationInterval (ExecutionSemantics (StrategyIR (cq_Plan request)))) →
  compileUncached registry limits boundaryLocation request = Ok (mkCompileResult (Some plan) None terminals) →
  let declared := ir_Levels (StrategyIR (cq_Plan request)) in
  let compile := compileLevel registry limits (InputProjection (cq_Plan request)) (ds_IdentityFields (DatasetContract request))
                   (ExecutionSemantics (StrategyIR (cq_Plan request))) in
  let detected := all_levels (cp_levels plan) (cp_noDataLevel plan) in
  StronglySorted Z.lt (level_id <$> cp_levels plan) ∧ StronglySorted Z.lt (term_LevelID <$> terminals) ∧
  (level_id <$> cp_levels plan) ++ (term_LevelID <$> terminals) ≡ₚ (λ raw, ir_id raw) <$> declared ∧
  (∀ level, level ∈ cp_levels plan → ∃ raw compiled normalizers,
     raw ∈ declared ∧ compile raw = Ok (compiled, normalizers) ∧ same_level compiled level) ∧
  (∀ terminal, terminal ∈ terminals → ∃ raw, raw ∈ declared ∧ compile raw = Err (Refused terminal)) ∧
  (is_Some (cp_noDataLevel plan) ↔ is_Some (ep_NoData (cq_Plan request))) ∧
  Forall (λ level, level_compiled (trigger_view level)) detected ∧
  plan_cost detected ≤ MaxTriggerComputeCost limits ∧
  (∀ ceiling, detected ≠ [] → MaxRetainedPointsByLevels limits !! length detected = Some ceiling → ceiling ≠ 0 →
     Forall (λ level, sr_RetentionPoints (level_stateRequirement level) ≤ ceiling) detected) ∧
  (∀ rules, effectiveRules plan = Some rules → Forall (λ level, Forall (λ id, is_Some (rules_calendars rules !! id))
     (activeCalendarIDs (level_effectiveTime level) ++ inactiveCalendarIDs (level_effectiveTime level))) detected).
Proof.
  intros Htyped Hdigest Hi (levels & refused & noData & Hplan)%compileUncached_inv declared compile detected.
  destruct (plan_ids _ _ _ _ _ _ Hplan) as (Hl & Ht & Hids). pose proof (pa_compiled _ _ _ _ _ _ Hplan) as Hc.
  split_and!; [done..| | | | | | |].
  - intros level (c & ns & Hin & Hs)%(plan_level_of _ _ _ _ _ _ Hplan).
    destruct (levels_compiled_level _ _ _ _ _ _ Hc Hin) as (raw & Hraw & Hr). by exists raw, c, ns.
  - intros terminal. rewrite (pa_terminals _ _ _ _ _ _ Hplan), merge_sort_Permutation. apply (levels_compiled_terminal _ _ _ _ _ Hc).
  - pose proof (no_data_uptime_Ok _ _ _ (pa_uptime _ _ _ _ _ _ Hplan)) as Hu. pose proof (pa_no_data _ _ _ _ _ _ Hplan) as Hn.
    unfold no_data_compiled in Hn. rewrite !is_Some_alt.
    by destruct noData as [[[? ?] ?]|], (cp_noDataLevel plan), (ep_NoData (cq_Plan request)).
  - apply Forall_forall. intros level (projection & raw & c & ns & Hcomp & Hs)%(plan_compiles _ _ _ _ _ _ Hplan).
    eapply same_level_admitted; [exact Hs|]. rewrite (pa_semantics _ _ _ _ _ _ Hplan) in Hcomp.
    by apply (level_admitted _ _ _ _ _ _ _ _ Htyped Hdigest Hi Hcomp).
  - by apply (plan_cost_of _ _ _ _ _ _ Hplan).
  - intros ceiling Hne Hlen Hz. eapply (detected_of _ _ _ _ _ _ _ Hplan); [done|].
    pose proof (proj1 (retained_points_fit_spec _) (pa_retained _ _ _ _ _ _ Hplan)) as Hfit.
    assert (length (all_levels (merge_sort level_id_le levels.*1) (cp_noDataLevel plan)) = length detected) as Hlength.
    { unfold detected, all_levels. rewrite !length_app. by rewrite (Forall2_length _ _ _ (pa_levels _ _ _ _ _ _ Hplan)). }
    apply Hfit; [|by rewrite Hlength|done]. intros E. rewrite E in Hlength. by destruct detected.
  - intros rules Hrules. eapply (detected_of _ _ _ _ _ _ _ Hplan); [done|].
    pose proof (pa_calendars _ _ _ _ _ _ Hplan) as Hcal. rewrite Hrules in Hcal. by apply calendars_present_spec.
Qed.

(** ** The trigger's admission *)

Section admission.
Context {V : Type} `{!HistoryView V}.
Variable request' : EvaluationRequestV2 V.

(** The trigger admits what the compiler does: its own limits are no tighter. *)
Definition limits_cover : Prop :=
  MaxTriggerWindowSize limits ≤ Trigger.MaxTriggerWindowSize (Trigger.Limits request') ∧
  MaxRecoveryConsecutiveWindows limits ≤ Trigger.MaxRecoveryConsecutiveWindows (Trigger.Limits request') ∧
  0 ≤ Trigger.MaxRecoveryConsecutiveWindows (Trigger.Limits request') ∧
  MaxRequiredHistoryPoints limits ≤ Trigger.MaxRequiredHistoryPoints (Trigger.Limits request').

(** The inputs of the Levels of these ids, in their order. *)
Definition inputs_aligned (ids : list Z) (facts : list DetectionFact) (histories : list (Z * option V))
    (effectives : list (Z * EffectiveTimeFact)) : Prop :=
  (λ fact, def_LevelID (df_Definition fact)) <$> facts = ids ∧ histories.*1 = ids ∧
  Forall (λ history, is_Some history.2) histories ∧ effectives.*1 = ids.

Lemma admit_level_Ok previous level projection identity execution raw compiled normalizers fact history effective cost :
  codec_typed → is_u32 (EvaluationInterval execution) → limits_cover →
  compiled_as registry limits projection identity execution raw compiled normalizers → same_level compiled level →
  (∀ p, previous = Some p → p < level_id level) → def_LevelID (df_Definition fact) = level_id level →
  history.1 = level_id level → is_Some history.2 → effective.1 = level_id level →
  0 ≤ cost → cost + level_cost level ≤ maxUint64 →
  admit_level request' previous (trigger_view level) fact history effective cost = Ok (cost + level_cost level).
Proof.
  intros Htyped Hi (Hw & Hr & Hr0 & Hp) Hc Hs Hprev Hf Hh Hsome He Hcost Hmax.
  pose proof (level_required _ _ _ _ _ _ _ _ Htyped Hi Hc) as Hreq. pose proof (level_plans _ _ _ _ _ _ _ _ Hc) as (_ & _ & _ & _ & Hcw).
  destruct (level_typed _ _ _ _ _ _ _ _ Htyped Hc) as (_ & _ & _ & Hcu).
  pose proof (ca_id _ _ _ _ _ _ _ _ Hc) as Hid. pose proof (ca_window _ _ _ _ _ _ _ _ Hc) as Hcwin.
  pose proof (ca_consecutive _ _ _ _ _ _ _ _ Hc) as Hccons. pose proof (ca_history _ _ _ _ _ _ _ _ Hc) as Hchist.
  rewrite <- (ca_definition _ _ _ _ _ _ _ _ Hc), <- (sl_definition _ _ Hs) in Hid. fold (level_id level) in Hid.
  rewrite <- (sl_trigger _ _ Hs), <- (sl_recovery _ _ Hs), <- ?(sl_requirement _ _ Hs) in *.
  unfold admit_level. cbv zeta. change (def_LevelID (Definition_ (trigger_view level))) with (level_id level).
  rewrite Hf, Hh, He, Z.eqb_refl, (proj2 (Z.eqb_neq _ _) Hid). destruct Hsome as [h ->]. cbn [negb orb].
  assert (match previous with Some p => level_id level <=? p | None => false end = false) as ->.
  { destruct previous as [p|]; [|done]. apply Z.leb_gt. by apply Hprev. }
  cbn [fail_if mbind result_bind orb]. unfold trigger_view. cbn [Trigger Recovery RequiredDetectHistoryPoints].
  assert (ConsecutiveWindows (level_recovery level) ≤ Trigger.MaxRecoveryConsecutiveWindows (Trigger.Limits request')) as Hcons.
  { destruct (Enabled (level_recovery level)); [specialize (Hccons eq_refl)|]; lia. }
  rewrite Hreq. cbn [default from_option id orb].
  rewrite (proj2 (Z.ltb_ge _ (WindowSize _))), (proj2 (Z.ltb_ge _ (ConsecutiveWindows _))), (proj2 (Z.ltb_ge _ (sr_RequiredDetectHistoryPoints _))),
    Z.eqb_refl by lia.
  cbn [orb negb fail_if mbind result_bind].
  assert (u64 (1 + (if Enabled (level_recovery level) then ConsecutiveWindows (level_recovery level) else 0)) = level_cost level) as ->.
  { unfold level_cost, triggerComputeCostForLevel. by destruct (Enabled _). }
  pose proof (level_cost_range level). rewrite (proj2 (Z.ltb_ge _ _)) by go_lia. cbn. f_equal. apply u64_id. go_lia.
Qed.

Lemma admit_levels_Ok execution levels previous facts histories effectives cost :
  codec_typed → is_u32 (EvaluationInterval execution) → limits_cover →
  Forall (λ level, ∃ projection identity raw compiled normalizers,
    compiled_as registry limits projection identity execution raw compiled normalizers ∧ same_level compiled level) levels →
  StronglySorted Z.lt (option_list previous ++ (level_id <$> levels)) → inputs_aligned (level_id <$> levels) facts histories effectives →
  0 ≤ cost → cost + plan_cost levels ≤ maxUint64 →
  admit_levels request' previous (trigger_view <$> levels) facts histories effectives cost = Ok (cost + plan_cost levels).
Proof.
  intros Htyped Hi Hcover Hall. revert previous facts histories effectives cost.
  induction Hall as [|level levels (projection & identity & raw & c & ns & Hc & Hs) _ IH];
    intros previous facts histories effectives cost Hsorted (Hf & Hh & Hsome & He) Hcost Hmax.
  { apply fmap_nil_inv in Hf, Hh, He as He'. subst. simpl. f_equal. lia. }
  rewrite fmap_cons in *. destruct facts as [|fact facts], histories as [|history histories], effectives as [|effective effectives]; try done.
  rewrite !fmap_cons in *. apply Forall_cons in Hsome as [Hhs Hsome]. injection Hf as Hf1 Hf. injection Hh as Hh1 Hh. injection He as He1 He.
  assert (StronglySorted Z.lt (level_id level :: (level_id <$> levels)) ∧ ∀ p, previous = Some p → p < level_id level) as [Hss Hprev].
  { destruct previous as [p|]; simpl in Hsorted; [|by split]. apply StronglySorted_inv in Hsorted as [Hss Hp].
    split; [done|]. intros q [= <-]. by apply Forall_cons in Hp as [? _]. }
  cbn [plan_cost foldr] in Hmax |- *. fold (plan_cost levels) in Hmax |- *. pose proof (level_cost_range level) as Hlc.
  assert (0 ≤ plan_cost levels) as Hpc.
  { clear. induction levels as [|l levels IH]; simpl; [done|]. pose proof (level_cost_range l). go_lia. }
  cbn [admit_levels]. rewrite (admit_level_Ok _ _ _ _ _ _ _ _ _ _ _ _ Htyped Hi Hcover Hc Hs Hprev Hf1 Hh1 Hhs He1 Hcost) by go_lia.
  cbn [mbind result_bind]. rewrite IH; [f_equal; lia| |done|go_lia|lia]. exact Hss.
Qed.

(** The trigger admits the Levels of every compiled Plan, whatever their inputs hold: for
    limits no tighter than the compiler's, and one fact, history and effective time of each
    Level, its admission succeeds at the cost the compiler counted, which is within the
    compiler's budget; and so for the no-data view of the Plan. *)
Lemma plan_admitted request plan terminals facts histories effectives :
  codec_typed → is_u32 (EvaluationInterval (ExecutionSemantics (StrategyIR (cq_Plan request)))) → limits_cover →
  compileUncached registry limits boundaryLocation request = Ok (mkCompileResult (Some plan) None terminals) →
  ∀ view, view = plan ∨ NoDataView plan = Some view →
  inputs_aligned (level_id <$> cp_levels view) facts histories effectives →
  admit_levels request' None (Trigger.Levels (trigger_plan view)) facts histories effectives 0 = Ok (plan_cost (cp_levels view)) ∧
  plan_cost (cp_levels view) ≤ MaxTriggerComputeCost limits.
Proof.
  intros Htyped Hi Hcover (levels & refused & noData & Hplan)%compileUncached_inv view Hview Haligned.
  pose proof (plan_cost_of _ _ _ _ _ _ Hplan) as Hcost. unfold all_levels in Hcost. rewrite plan_cost_app in Hcost.
  assert (∀ l : list CompiledLevel, 0 ≤ plan_cost l) as Hpos.
  { induction l as [|l ls IH]; simpl; [done|]. pose proof (level_cost_range l). go_lia. }
  pose proof (Hpos (cp_levels plan)). pose proof (Hpos (option_list (cp_noDataLevel plan))).
  assert (cp_levels view = cp_levels plan ∨ cp_levels view = option_list (cp_noDataLevel plan)) as Hlevels.
  { destruct Hview as [->|Hview]; [by left|right]. unfold NoDataView in Hview. destruct (cp_noDataLevel plan); [|done].
    by injection Hview as <-. }
  assert (plan_cost (cp_levels view) ≤ MaxTriggerComputeCost limits) as Hle by (destruct Hlevels as [->| ->]; lia).
  split; [|done]. unfold trigger_plan. cbn [Trigger.Levels].
  rewrite (admit_levels_Ok (cp_evaluationSemantics plan)); [f_equal; lia|done| |done| | |done|lia|go_lia].
  - by rewrite (pa_semantics _ _ _ _ _ _ Hplan).
  - apply Forall_forall. intros level Hl.
    destruct (plan_compiles _ _ _ _ _ _ Hplan level) as (projection & raw & c & ns & Hc & Hs); [|by eauto 10].
    unfold all_levels. apply elem_of_app. destruct Hlevels as [E|E]; rewrite E in Hl; [by left|by right].
  - simpl. destruct Hlevels as [->|E]; [by apply (plan_ids _ _ _ _ _ _ Hplan)|].
    rewrite E. destruct (cp_noDataLevel plan); repeat constructor.
Qed.
End admission.
End spec.
