(* ===== verification/PlanDetect.v ===== *)
(** A Plan of thresholds from its strategy to its facts: what the compiler accepts, detection
    prepares and evaluates, and every Level answers what the strategy configured. *)
From S2P Require Import Prelude GoHash Group Absence Roster NoDataMemory NoDataSlot NoDataSlotSpec TargetPlan History Trigger.
From S2P Require Import Reason GapReason Decimal DecimalSpec AlgorithmInput Predicate ThresholdCompiler ThresholdSpec.
From S2P Require Import TriggerEvent Detect DetectSpec DetectThreshold EffectiveTime CalendarRules LevelCompiler LevelSpec.
From S2P Require Import PlanCompiler PlanSpec.

Open Scope Z_scope.

(** ** Units *)

(** A unit has one normalizer, whatever the thresholds' prefix. *)
Lemma unit_normalizer digest unit prefix prefix' n n' multiplier multiplier' :
  compileUnitNormalizer digest unit prefix = Some (n, multiplier) → compileUnitNormalizer digest unit prefix' = Some (n', multiplier') → n = n'.
Proof.
  unfold compileUnitNormalizer. intros (spec & Hs & H)%bind_Some. apply bind_Some in H as (t & _ & H).
  apply bind_Some in H as (m & Hm & H). apply bind_Some in H as (d & Hd & [= <- <-]).
  intros (spec' & Hs' & H)%bind_Some. apply bind_Some in H as (t' & _ & H).
  apply bind_Some in H as (m' & Hm' & H). apply bind_Some in H as (d' & Hd' & [= <- <-]).
  rewrite Hs in Hs'. injection Hs' as <-. rewrite Hm in Hm'. injection Hm' as <-. rewrite Hd in Hd'. by injection Hd' as <-.
Qed.

Lemma compileThreshold_unit normalizer_digest predicate_digest context config r :
  compileThreshold normalizer_digest predicate_digest context (Some config) = Ok r → DataUnit config = ip_DataUnit (cc_Projection context).
Proof.
  unfold compileThreshold. intros (u & Hg%fail_if_Ok & _)%bind_Ok. rewrite !orb_false_iff, !negb_false_iff in Hg.
  destruct Hg as [[[_ Hu%String.eqb_eq] _] _]. done.
Qed.

Section detect.
Context `{Digests : !CompilerDigests, Codec : !ConfigCodec, Encoder : !ConfigEncoder, Plans : !PlanDigests}.
Variable registry : AlgorithmCompilerRegistry.
Variable limits : Limits.
Variable boundaryLocation : option Location.

Hypothesis normalizer_digest_length : ∀ n x, normalizer_digest n = Some x → String.length x = 64%nat.
Hypothesis predicate_digest_length : ∀ w x, predicate_digest w = Some x → String.length x = 64%nat.

(** The registry of the threshold compiler. *)
Hypothesis registered : NewAlgorithmCompilerRegistry [thresholdAlgorithmCompiler] = Ok registry.

Lemma registry_lookup kind version registration :
  lookup_algorithm registry kind version = Some registration →
  kind = DetectorKindThreshold ∧ version = 1 ∧ ra_compiler registration = thresholdAlgorithmCompiler ∧
  ra_capability registration = threshold_capability.
Proof.
  revert registered. unfold NewAlgorithmCompilerRegistry, lookup_algorithm. cbn [register_compilers].
  intros (u & _ & H)%bind_Ok. revert H. intros (u' & _ & H)%bind_Ok. revert H.
  destruct (capability_digest _) as [digest|]; [|done]. cbn [register_compilers]. intros [= <-].
  intros [[[= <- <-] <-]|[_ H]]%lookup_insert_Some; [done|by rewrite lookup_empty in H].
Qed.

(** ** One Level *)

(** [spec] and [normalizer] are what the compiler makes of [config], of the algorithm. *)
Definition compiled_threshold (context : AlgorithmCompileContext) (algorithm : AlgorithmIRV2) (config : thresholdConfigV1)
    (spec : DetectorSpec) (normalizer : NumericNormalizerSpec) : Prop :=
  decode_threshold (air_Config algorithm) = Some config ∧
  ∃ r r', compileThreshold normalizer_digest predicate_digest context (Some config) = Ok r ∧
    validateAlgorithmCompileResult DetectorKindThreshold 1 threshold_capability (cc_Projection context) r = Ok r' ∧
    spec = cr_Detector r' ∧ normalizer = cr_Normalizer r'.

Lemma compiled_threshold_unit context algorithm config spec normalizer :
  projection_validate (fields_of context) = Ok tt → compiled_threshold context algorithm config spec normalizer →
  spec_normalizerRef spec = ref normalizer ∧
  ∃ multiplier, compileUnitNormalizer normalizer_digest (ip_DataUnit (cc_Projection context)) (default "" (ThresholdUnitPrefix config))%string
    = Some (normalizer, multiplier).
Proof.
  intros Hfields (_ & r & r' & Hr & Hv & -> & ->). pose proof (compileThreshold_unit _ _ _ _ _ Hr) as Hunit.
  apply compileThreshold_compiles in Hr as (multiplier & nodes & Hr).
  destruct (compiled_validates _ _ _ _ _ _ _ normalizer_digest_length predicate_digest_length Hfields Hr)
    as (digest & r'' & _ & _ & Hv' & Hn & _ & _ & _ & Hd). rewrite Hv in Hv'. injection Hv' as <-.
  rewrite Hd, Hn. cbn. split; [done|]. exists multiplier. rewrite <- Hunit. apply (cs_unit _ _ _ _ _ _ _ Hr).
Qed.

Lemma algorithm_step_threshold projection identity execution id position algorithm c c' :
  let context := mkContext projection identity execution limits in
  projection_validate (fields_of context) = Ok tt →
  algorithm_step registry limits projection identity execution id position algorithm c = Ok c' →
  ∃ config spec normalizer plan, compiled_threshold context algorithm config spec normalizer ∧
    co_detectors c' = co_detectors c ++ [spec] ∧ co_normalizers c' = co_normalizers c ++ [normalizer] ∧
    co_plans c' = co_plans c ++ [plan] ∧ cap_kind plan = DetectorKindThreshold ∧ cap_version plan = 1.
Proof.
  intros context Hfields. unfold algorithm_step.
  destruct (lookup_algorithm registry _ _) as [registration|] eqn:Hlookup; [|done].
  apply registry_lookup in Hlookup as (Hkind & Hversion & Hcompiler & Hcap). destruct (negb _); [done|].
  rewrite Hcompiler, Hcap, Hkind, Hversion. unfold thresholdAlgorithmCompiler. cbn [ac_Compile].
  unfold compile_context. fold context. destruct (decode_threshold (air_Config algorithm)) as [config|] eqn:Hdecode; [|done].
  destruct (compileThreshold _ _ _ _) as [r|[]] eqn:Hr; [|done..].
  destruct (validateAlgorithmCompileResult _ _ _ _ _) as [r'|] eqn:Hv; [|done].
  destruct (existsb _ _); [done|]. destruct (_ <? _); [done|]. destruct (buildCompiledAlgorithmPlan _ _ _ _ _ _) as [plan|] eqn:Hplan; [|done].
  intros [= <-]. exists config, (cr_Detector r'), (cr_Normalizer r'), plan. cbn [co_detectors co_normalizers co_plans].
  pose proof Hr as Hr'. apply compileThreshold_compiles in Hr' as (multiplier & nodes & Hr').
  destruct (compiled_validates _ _ _ _ _ _ _ normalizer_digest_length predicate_digest_length Hfields Hr')
    as (digest & r'' & _ & _ & Hv' & _ & _ & _ & _ & Hd). change (cc_Projection context) with projection in Hv'.
  rewrite Hv in Hv'. injection Hv' as <-. rewrite Hd. cbn [spec_kind]. split_and!; try done.
  - split; [done|]. exists r, r'. split_and!; [done..|by rewrite Hd|done].
  - unfold buildCompiledAlgorithmPlan in Hplan. revert Hplan. intros (? & _ & (? & _ & (? & _ & [= <-])%bind_Some)%bind_Some)%bind_Some. done.
  - unfold buildCompiledAlgorithmPlan in Hplan. revert Hplan. intros (? & _ & (? & _ & (? & _ & [= <-])%bind_Some)%bind_Some)%bind_Some. done.
Qed.

(** A Level's algorithms, each compiled from its configuration. *)
Inductive thresholds_compiled (context : AlgorithmCompileContext) : list AlgorithmIRV2 → list thresholdConfigV1 → list DetectorSpec →
    list NumericNormalizerSpec → Prop :=
  | thresholds_none : thresholds_compiled context [] [] [] []
  | thresholds_some algorithm config spec normalizer algorithms configs specs normalizers :
      compiled_threshold context algorithm config spec normalizer →
      thresholds_compiled context algorithms configs specs normalizers →
      thresholds_compiled context (algorithm :: algorithms) (config :: configs) (spec :: specs) (normalizer :: normalizers).

Lemma algorithm_loop_threshold projection identity execution id algorithms position c c' :
  let context := mkContext projection identity execution limits in
  projection_validate (fields_of context) = Ok tt →
  algorithm_loop registry limits projection identity execution id position algorithms c = Ok c' →
  ∃ configs specs normalizers plans, thresholds_compiled context algorithms configs specs normalizers ∧
    co_detectors c' = co_detectors c ++ specs ∧ co_normalizers c' = co_normalizers c ++ normalizers ∧ co_plans c' = co_plans c ++ plans ∧
    (λ plan, mkAlgorithm (cap_kind plan) (cap_version plan)) <$> plans = replicate (length configs) (mkAlgorithm DetectorKindThreshold 1).
Proof.
  intros context Hfields. revert position c. induction algorithms as [|algorithm algorithms IH]; intros position c; cbn [algorithm_loop].
  { intros [= <-]. exists [], [], [], []. rewrite !app_nil_r. split_and!; [constructor|done..]. }
  intros (c1 & Hstep & Hrest)%bind_Ok.
  destruct (algorithm_step_threshold _ _ _ _ _ _ _ _ Hfields Hstep) as (config & spec & normalizer & plan & Hc & H1 & H2 & H3 & Hk & Hv).
  destruct (IH _ _ Hrest) as (configs & specs & normalizers & plans & Hcs & H1' & H2' & H3' & Hps).
  exists (config :: configs), (spec :: specs), (normalizer :: normalizers), (plan :: plans).
  split_and!; [by constructor|by rewrite H1', H1, <- app_assoc|by rewrite H2', H2, <- app_assoc|by rewrite H3', H3, <- app_assoc|].
  rewrite fmap_cons, Hps, Hk, Hv. done.
Qed.

Lemma level_thresholds projection identity execution raw level normalizers :
  let context := mkContext projection identity execution limits in
  projection_validate (fields_of context) = Ok tt →
  compileLevel registry limits projection identity execution raw = Ok (level, normalizers) →
  ∃ configs, thresholds_compiled context (lir_Algorithms raw) configs (level_detectors level) normalizers ∧
    dl_algorithms (detect_level level) = replicate (length configs) (mkAlgorithm DetectorKindThreshold 1).
Proof.
  intros context Hfields Hc%compileLevel_inv. destruct (ca_algorithms _ _ _ _ _ _ _ _ Hc) as (c & Hloop & Hp & Hd & Hn & _).
  destruct (algorithm_loop_threshold _ _ _ _ _ _ _ _ Hfields Hloop) as (configs & specs & ns & plans & Hcs & H1 & H2 & H3 & Hps).
  exists configs. unfold detect_level. cbn [dl_algorithms]. rewrite Hd, Hn, Hp, H1, H2, H3. by split.
Qed.
(** ** Projections *)

Lemma sortedUnique_allow previous values :
  sortedUnique_loop previous values false = true → sortedUnique_loop previous values true = true.
Proof.
  revert previous. induction values as [|value values IH]; intros previous; [done|]. cbn [sortedUnique_loop negb andb].
  destruct (value =? "")%string; [done|]. cbn [orb]. destruct (match previous with Some _ => _ | None => _ end); [done|]. apply IH.
Qed.

Lemma sortedUnique_sorted previous values :
  StronglySorted (λ a b, str_ltb a b = true) (option_list previous ++ values) → sortedUnique_loop previous values true = true.
Proof.
  revert previous. induction values as [|value values IH]; intros previous Hs; [done|]. cbn [sortedUnique_loop negb andb orb].
  assert (match previous with Some previous => negb (str_ltb previous value) | None => false end = false) as ->.
  { destruct previous as [p|]; [|done]. simpl in Hs. apply StronglySorted_inv in Hs as [_ Hp]. by apply Forall_cons in Hp as [-> _]. }
  apply IH. simpl. destruct previous; [by apply StronglySorted_inv in Hs as [? _]|done].
Qed.

Lemma sortedUnique_names names : NoDup names → StronglySorted (λ a b, str_ltb a b = true) (merge_sort String.le names).
Proof.
  intros Hnd. assert (NoDup (merge_sort String.le names)) as Hn by (by rewrite merge_sort_Permutation).
  assert (StronglySorted String.le (merge_sort String.le names)) as Hs by (apply StronglySorted_merge_sort; apply _). revert Hn.
  induction Hs as [|a l _ IH Hall]; [constructor|]. intros [Hno Hl]%NoDup_cons. constructor; [by apply IH|].
  apply Forall_forall. intros b Hb. rewrite Forall_forall in Hall. apply str_ltb_lt. split; [by apply Hall|]. by intros ->.
Qed.

Lemma validatePlan_Ok request :
  validatePlan limits request = Ok tt →
  let execution := ExecutionSemantics (StrategyIR (cq_Plan request)) in
  EvaluationScope execution = EvaluationScopeSeries ∧
  projection_validate (fields_of (mkContext (InputProjection (cq_Plan request)) (ds_IdentityFields (DatasetContract request)) execution limits)) = Ok tt ∧
  sortedUnique (ds_IdentityFields (DatasetContract request)) true = true.
Proof.
  unfold validatePlan. cbv zeta. destruct (LegacyOutput_Validate _); [|done].
  do 5 (case_cond; [done|]). case_cond; [done|]. rename Hcond4 into Hexec. case_cond; [done|].
  destruct (plan_json_size _); [|done]. case_cond; [done|]. case_cond; [done|]. rename Hcond6 into Hproj. intros _.
  rewrite !orb_false_iff in Hexec. rewrite !orb_false_iff in Hproj. destruct Hexec as [[[Hscope%negb_false_iff%String.eqb_eq _] _] _].
  destruct Hproj as [[[[[[[_ _] Hsome] Hvalues%negb_false_iff] Hdims%negb_false_iff] _] _] Hids%negb_false_iff].
  assert (sortedUnique (ds_IdentityFields (DatasetContract request)) true = true) as Hids' by (by apply sortedUnique_allow).
  split_and!; [done| |done]. unfold projection_validate, fields_of.
  cbn [cc_Projection cc_IdentityFields ai_ValueFields ai_DimensionFields ai_IdentityFields]. by rewrite Hsome, Hvalues, Hdims, Hids'.
Qed.

(** The projection of the synthetic series is one: the tag is not a configured dimension. *)
Lemma no_data_projection config valid identity execution :
  ValidateNoDataConfig config = Ok valid → sortedUnique identity true = true →
  projection_validate (fields_of (mkContext (NoDataProjection valid) identity execution limits)) = Ok tt.
Proof.
  intros Hv Hids. destruct (proj2 (config_well_formed config) valid Hv) as ([] & Hnd & _).
  unfold projection_validate, fields_of, NoDataProjection.
  cbn [cc_Projection cc_IdentityFields ip_ValueFields ip_DimensionFields ai_ValueFields ai_DimensionFields ai_IdentityFields].
  rewrite Hids. assert (sortedUnique (merge_sort String.le (cfg_AggDimension valid ++ [NoDataDimensionTag])) true = true) as ->; [|done].
  apply (sortedUnique_sorted None), sortedUnique_names. apply NoDup_app. split_and!; [done|set_solver|apply NoDup_singleton].
Qed.
(** ** The Plan's normalizers *)

Definition unit_of (unit : string) (n : NumericNormalizerSpec) : Prop :=
  ∃ prefix multiplier, compileUnitNormalizer normalizer_digest unit prefix = Some (n, multiplier).

Lemma unit_of_unique unit n n' : unit_of unit n → unit_of unit n' → n = n'.
Proof. intros (p & m & H) (p' & m' & H'). by eapply unit_normalizer. Qed.

(** No digest of the declared unit's normalizer is one of the synthetic unit's. *)
Definition units_apart (unit : string) : Prop := ∀ n n' digest,
  sourceUnit n = unit → sourceUnit n' = noDataDataUnit →
  normalizer_digest n = Some digest → normalizer_digest n' = Some digest → n = n'.

Lemma unit_of_digest unit n : unit_of unit n →
  normalizer_digest (mkNormalizer "" unit (targetUnit n) (sourceMultiplier n) 6 "HALF_EVEN") = Some (ref n) ∧
  n = mkNormalizer (ref n) unit (targetUnit n) (sourceMultiplier n) 6 "HALF_EVEN".
Proof.
  intros (prefix & multiplier & H). revert H. unfold compileUnitNormalizer. intros (spec & _ & H)%bind_Some.
  apply bind_Some in H as (t & _ & H). apply bind_Some in H as (m & _ & H). by apply bind_Some in H as (d & Hd & [= <- <-]).
Qed.

Lemma units_apart_ref unit n n' : units_apart unit → unit_of unit n → unit_of noDataDataUnit n' → ref n = ref n' → n = n'.
Proof.
  intros Hapart [Hd Hn]%unit_of_digest [Hd' Hn']%unit_of_digest Href. rewrite <- Href in Hd'.
  pose proof (Hapart (mkNormalizer "" unit _ _ _ _) (mkNormalizer "" noDataDataUnit _ _ _ _) (ref n) eq_refl eq_refl Hd Hd') as E.
  destruct n, n'; simpl in *. congruence.
Qed.

Lemma insert_normalizers_concat m (levels : list (CompiledLevel * list NumericNormalizerSpec)) :
  foldl (λ m l, insert_normalizers m l.2) m levels = insert_normalizers m (concat levels.*2).
Proof.
  revert m. induction levels as [|[level ns] levels IH]; intros m; [done|]. simpl. rewrite IH. unfold insert_normalizers. by rewrite foldl_app.
Qed.

(** A normalizer that alone has its reference is found by it. *)
Lemma insert_normalizers_lookup m ns n :
  (∀ n', n' ∈ ns → ref n' = ref n → n' = n) → n ∈ ns ∨ m !! ref n = Some n → insert_normalizers m ns !! ref n = Some n.
Proof.
  unfold insert_normalizers. revert m. induction ns as [|n' ns IH]; intros m Hun H; simpl.
  { by destruct H as [H|H]; [apply elem_of_nil in H|]. }
  apply IH; [intros; apply Hun; [by right|done]|].
  destruct (decide (ref n' = ref n)) as [E|E].
  - right. rewrite <- E at 1. rewrite lookup_insert. case_decide; [|done]. f_equal. by apply Hun; [left|].
  - destruct H as [[->|H]%elem_of_cons|H]; [done|by left|right]. by rewrite lookup_insert_ne.
Qed.

(** ** From the strategy to the facts *)

Section plan.
Variables (request : CompileRequest) (plan : CompiledPlan) (terminals : list Terminal).
Variables (levels : list (CompiledLevel * list NumericNormalizerSpec)) (refused : list Terminal)
  (noData : option (NoDataConfigV1 * CompiledLevel * list NumericNormalizerSpec)).
Hypothesis Hplan : plan_as registry limits request plan terminals levels refused noData.

Notation execution := (ExecutionSemantics (StrategyIR (cq_Plan request))).
Notation declared_context := (mkContext (InputProjection (cq_Plan request)) (ds_IdentityFields (DatasetContract request)) execution limits).

Lemma thresholds_units context algorithms configs specs normalizers :
  projection_validate (fields_of context) = Ok tt → thresholds_compiled context algorithms configs specs normalizers →
  Forall (unit_of (ip_DataUnit (cc_Projection context))) normalizers.
Proof.
  intros Hfields. induction 1 as [|? config ? normalizer ? ? ? ? Hc _ IH]; constructor; [|done].
  apply compiled_threshold_unit in Hc as [_ (m & Hm)]; [|done]. by eexists _, m.
Qed.

Lemma thresholds_level context algorithms configs specs normalizers map :
  projection_validate (fields_of context) = Ok tt → thresholds_compiled context algorithms configs specs normalizers →
  Forall (λ n, map !! ref n = Some n) normalizers →
  Forall2 (compiled_from normalizer_digest predicate_digest context map) configs specs.
Proof.
  intros Hfields. induction 1 as [|? config spec normalizer ? ? ? ? Hc _ IH]; [constructor|]. intros [Hn Hns]%Forall_cons.
  constructor; [|by apply IH]. pose proof (compiled_threshold_unit _ _ _ _ _ Hfields Hc) as [Href _].
  destruct Hc as (_ & r & r' & Hr & Hv & -> & ->). exists r, r'. split_and!; [done..|]. by rewrite Href.
Qed.

(** Every normalizer the Plan collected is of the declared unit, or of the synthetic one. *)
Lemma declared_units : Forall (unit_of (ip_DataUnit (InputProjection (cq_Plan request)))) (concat levels.*2).
Proof.
  destruct (validatePlan_Ok _ (pa_valid _ _ _ _ _ _ _ _ Hplan)) as (_ & Hfields & _).
  apply Forall_forall. intros n (ns & Hns & Hn)%list_elem_of_In%in_concat.
  apply list_elem_of_In, list_elem_of_fmap in Hns as ([level ns'] & -> & Hin). apply list_elem_of_In in Hn.
  edestruct levels_compiled_level as (raw & _ & Hc); [exact (pa_compiled _ _ _ _ _ _ _ _ Hplan)|exact Hin|].
  destruct (level_thresholds _ _ _ _ _ _ Hfields Hc) as (configs & Hcs & _).
  apply (thresholds_units _ _ _ _ _ Hfields) in Hcs. rewrite Forall_forall in Hcs. by apply Hcs.
Qed.

Lemma synthetic_units valid level normalizers :
  noData = Some (valid, level, normalizers) →
  projection_validate (fields_of (mkContext (NoDataProjection valid) (ds_IdentityFields (DatasetContract request)) execution limits)) = Ok tt ∧
  ∃ algorithm config spec normalizer,
    compiled_threshold (mkContext (NoDataProjection valid) (ds_IdentityFields (DatasetContract request)) execution limits)
      algorithm config spec normalizer ∧
    air_Type algorithm = DetectorKindThreshold ∧ encode_threshold noDataThreshold = Some (air_Config algorithm) ∧
    normalizers = [normalizer] ∧ level_detectors level = [spec] ∧
    dl_algorithms (detect_level level) = [mkAlgorithm DetectorKindThreshold 1] ∧ unit_of noDataDataUnit normalizer.
Proof.
  intros Hn. destruct (validatePlan_Ok _ (pa_valid _ _ _ _ _ _ _ _ Hplan)) as (_ & _ & Hids).
  pose proof (pa_no_data _ _ _ _ _ _ _ _ Hplan) as H. unfold no_data_compiled in H. rewrite Hn in H.
  destruct (ep_NoData _) as [config|]; [|done]. destruct H as (raw & Hraw & Hc).
  apply BuildNoDataLevelIR_Ok in Hraw as (Hvalid & _ & _ & threshold & trigger & recovery & Het & _ & _ & Halgs & _).
  pose proof (no_data_projection _ _ _ execution Hvalid Hids) as Hfields. split; [done|].
  destruct (level_thresholds _ _ _ _ _ _ Hfields Hc) as (configs & Hcs & Hal). rewrite Halgs in Hcs.
  pose proof (thresholds_units _ _ _ _ _ Hfields Hcs) as Hunits.
  inversion Hcs as [|algorithm cfg spec normalizer ? ? specs ns Hone Hrest]; subst.
  inversion Hrest; subst. eexists _, cfg, spec, normalizer. split_and!; try done. by apply Forall_cons in Hunits as [? _].
Qed.

Hypothesis Hapart : is_Some noData → units_apart (ip_DataUnit (InputProjection (cq_Plan request))).

Lemma plan_normalizer n :
  n ∈ concat levels.*2 ++ default [] (snd <$> noData) → cp_normalizers plan !! ref n = Some n.
Proof.
  intros Hn. rewrite (pa_normalizers _ _ _ _ _ _ _ _ Hplan), insert_normalizers_concat.
  assert (foldl insert_normalizers (insert_normalizers ∅ (concat levels.*2)) (option_list (snd <$> noData)) =
          insert_normalizers ∅ (concat levels.*2 ++ default [] (snd <$> noData))) as ->.
  { unfold insert_normalizers. rewrite foldl_app. by destruct noData as [[[? ?] ?]|]. }
  apply insert_normalizers_lookup; [|by left]. intros n' Hn' Href.
  pose proof declared_units as Hd. rewrite Forall_forall in Hd.
  assert (∀ x, x ∈ default [] (snd <$> noData) → is_Some noData ∧ unit_of noDataDataUnit x) as Hs.
  { intros x Hx. pose proof synthetic_units as Hsu. destruct noData as [[[valid level] ns]|]; [|by apply elem_of_nil in Hx].
    destruct (Hsu _ _ _ eq_refl) as (_ & _ & _ & _ & normalizer & _ & _ & _ & Hns & _ & _ & Hu). simpl in Hx. subst ns.
    apply list_elem_of_singleton in Hx as ->. done. }
  apply elem_of_app in Hn as [Hn|[Hnd Hn]%Hs], Hn' as [Hn'|[Hnd' Hn']%Hs].
  - eapply unit_of_unique; [by apply Hd..].
  - symmetry. eapply units_apart_ref; [by apply Hapart|by apply Hd|done|done].
  - eapply units_apart_ref; [by apply Hapart|by apply Hd|done|done].
  - by eapply unit_of_unique.
Qed.
Lemma levels_ordered_sorted previous levels' :
  StronglySorted Z.lt (option_list previous ++ (level_id <$> levels')) → levels_ordered previous (detect_level <$> levels') = true.
Proof.
  revert previous. induction levels' as [|level levels' IH]; intros previous Hs; [done|]. rewrite fmap_cons. cbn [levels_ordered].
  apply andb_true_iff. split.
  - destruct previous as [p|]; [|done]. simpl in Hs. apply StronglySorted_inv in Hs as [_ Hp].
    apply Forall_cons in Hp as [Hp _]. by apply Z.ltb_lt.
  - apply (IH (Some _)). simpl. simpl in Hs. destruct previous; [by apply StronglySorted_inv in Hs as [? _]|done].
Qed.

(** A Level, its declaration and what its algorithms are configured to. *)
Definition declared_as (level : CompiledLevel) (raw : LevelIRV2) (configs : list thresholdConfigV1) : Prop :=
  raw ∈ ir_Levels (StrategyIR (cq_Plan request)) ∧ level_id level = def_LevelID (lir_Definition raw) ∧
  level_connector level = lir_Connector raw ∧
  Forall2 (λ algorithm config, decode_threshold (air_Config algorithm) = Some config) (lir_Algorithms raw) configs.

Lemma plan_level_thresholds level :
  level ∈ cp_levels plan → ∃ configs, (∃ raw, declared_as level raw configs) ∧
    threshold_level normalizer_digest predicate_digest declared_context (cp_normalizers plan) configs (detect_level level).
Proof.
  intros Hl. destruct (validatePlan_Ok _ (pa_valid _ _ _ _ _ _ _ _ Hplan)) as (_ & Hfields & _).
  destruct (plan_level_of _ _ _ _ _ _ _ _ Hplan level Hl) as (compiled & normalizers & Hin & Hs).
  edestruct levels_compiled_level as (raw & Hraw & Hc); [exact (pa_compiled _ _ _ _ _ _ _ _ Hplan)|exact Hin|].
  destruct (level_thresholds _ _ _ _ _ _ Hfields Hc) as (configs & Hcs & Hal). exists configs. split.
  - exists raw. apply compileLevel_inv in Hc. split_and!; [done| | |].
    + unfold level_id. by rewrite (sl_definition _ _ Hs), (ca_definition _ _ _ _ _ _ _ _ Hc).
    + by rewrite (sl_connector _ _ Hs), (ca_level_connector _ _ _ _ _ _ _ _ Hc).
    + clear -Hcs. induction Hcs as [|? ? ? ? ? ? ? ? [Hd _] _ IH]; by constructor.
  - split; cbn [dl_detectors dl_algorithms detect_level].
    + rewrite (sl_detectors _ _ Hs). eapply thresholds_level; [exact Hfields|exact Hcs|]. apply Forall_forall. intros n Hn.
      apply plan_normalizer, elem_of_app. left. apply list_elem_of_In, in_concat. exists normalizers.
      split; [|by apply list_elem_of_In]. apply list_elem_of_In, list_elem_of_fmap. by exists (compiled, normalizers).
    + by rewrite (sl_algorithms _ _ Hs).
Qed.

Lemma plan_detects_spec :
  ∃ prepared, PreparePlan (DefaultRegistry false) (detect_plan plan) = Ok prepared ∧
    ∀ record, ∃ facts values n, EvaluatePreparedRecord prepared record = Ok (facts, values, n) ∧
      Forall2 (λ level fact, ∃ raw configs, declared_as level raw configs ∧
        fact_answers normalizer_digest record configs (detect_level level) fact) (cp_levels plan) facts.
Proof.
  destruct (validatePlan_Ok _ (pa_valid _ _ _ _ _ _ _ _ Hplan)) as (Hscope & Hfields & _).
  assert (Forall (λ level, ∃ configs, (∃ raw, declared_as level raw configs) ∧
    threshold_level normalizer_digest predicate_digest declared_context (cp_normalizers plan) configs (detect_level level)) (cp_levels plan))
    as (configss & Hall)%Forall_exists_Forall2_l.
  { apply Forall_forall. apply plan_level_thresholds. }
  destruct (threshold_plan_decides normalizer_digest predicate_digest normalizer_digest_length predicate_digest_length
    declared_context (detect_plan plan) configss Hfields) as (prepared & Hp & Hrecords).
  - unfold detect_plan. cbn [dp_scope]. by rewrite (pa_semantics _ _ _ _ _ _ _ _ Hplan).
  - apply (levels_ordered_sorted None). apply (plan_ids _ _ _ _ _ _ _ _ Hplan).
  - unfold detect_plan. cbn [dp_levels dp_normalizers]. apply Forall2_fmap_r, Forall2_flip.
    eapply Forall2_impl; [exact Hall|]. by intros level configs [_ ?].
  - exists prepared. split; [done|]. intros record. destruct (Hrecords record) as (facts & values & n & He & Hfacts).
    exists facts, values, n. split; [done|]. clear -Hall Hfacts. unfold detect_plan in Hfacts. cbn [dp_levels] in Hfacts.
    revert facts Hfacts. induction Hall as [|level configs levels configss [[raw Hraw] _] _ IH]; intros facts Hfacts;
      inversion Hfacts; subst; constructor; [by exists raw, configs|by apply IH].
Qed.
End plan.

(** C4: from the strategy to the facts: whatever Plan compiles over the registry of
    thresholds, detection prepares it, and evaluates every record without error to one fact
    per compiled Level, in their order. Each Level's fact is what its declaration asks: the
    configured groups decided of the nearest millionth of the decimal text of each field, or
    the reason there is no number, combined by the declared connector in three-valued
    logic. *)
Theorem plan_detects request plan terminals :
  is_u64 (MaxTriggerComputeCost limits) →
  (is_Some (ep_NoData (cq_Plan request)) → units_apart (ip_DataUnit (InputProjection (cq_Plan request)))) →
  compileUncached registry limits boundaryLocation request = Ok (mkCompileResult (Some plan) None terminals) →
  ∃ prepared, PreparePlan (DefaultRegistry false) (detect_plan plan) = Ok prepared ∧
    ∀ record, ∃ facts values n, EvaluatePreparedRecord prepared record = Ok (facts, values, n) ∧
      Forall2 (λ level fact, ∃ raw configs, declared_as request level raw configs ∧
        fact_answers normalizer_digest record configs (detect_level level) fact) (cp_levels plan) facts.
Proof.
  intros Hbudget Hapart (levels & refused & noData & Hplan)%compileUncached_inv; [|done].
  apply (plan_detects_spec _ _ _ _ _ _ Hplan). intros [n ->]. apply Hapart. pose proof (pa_no_data _ _ _ _ _ _ _ _ Hplan) as H.
  unfold no_data_compiled in H. by destruct (ep_NoData _).
Qed.
End detect.
