(* ===== verification/NoDataDetect.v ===== *)
(** The no-data Level of a compiled Plan: compiled from the setting as it states, and
    detecting exactly the absences a round's synthetic series say. *)
From Stdlib Require Import QArith.
From S2P Require Import Prelude GoHash Group Absence Roster NoDataMemory NoDataSlot NoDataSlotSpec TargetPlan History Trigger.
From S2P Require Import Reason GapReason Decimal DecimalSpec AlgorithmInput Predicate ThresholdCompiler ThresholdSpec.
From S2P Require Import TriggerEvent Detect DetectSpec DetectThreshold EffectiveTime CalendarRules LevelCompiler LevelSpec.
From S2P Require Import PlanCompiler PlanSpec PlanDetect.

Open Scope Z_scope.

(** ** The answer of one digit *)

(** [digit], whose value is [v], is the text of the absence answer. *)
Definition is_answer (digit : string) (v : Z) : Prop := (digit = "1"%string ∧ v = AbsentValue) ∨ (digit = "0"%string ∧ v = PresentValue).

Lemma digit_decimal digit v m : is_answer digit v → decimal_text digit m → (text_value m == inject_Z v)%Q ∧ text_bounded digit m.
Proof.
  intros [[-> ->]|[-> ->]] Hm%decimalPattern_spec; vm_compute in Hm; injection Hm as <-; (split; [reflexivity|]).
  all: unfold text_bounded; vm_compute; repeat split; try discriminate; lia.
Qed.

Lemma digit_is_decimal digit v : is_answer digit v → ∃ m, decimal_text digit m.
Proof. intros [[-> _]|[-> _]]; eexists; apply decimalPattern_spec; vm_compute; reflexivity. Qed.

Lemma digit_nearest digit v m multiplier z :
  is_answer digit v → decimal_text digit m → nearest_even (text_value m * inject_Z (multiplier * normalizedDecimalScale))%Q z →
  z = v * (multiplier * normalizedDecimalScale).
Proof.
  intros Hd Hm Hz. destruct (digit_decimal _ _ _ Hd Hm) as [Hv _]. rewrite Hv, <- inject_Z_mult in Hz.
  by eapply nearest_even_unique; [exact Hz|apply nearest_even_integer].
Qed.

(** The threshold is one, of a present unit: it matches the absences. *)
Lemma no_data_answer record digit v answer :
  is_answer digit v → record NoDataValueField = Some digit → config_answers record 1 1 noDataThreshold answer →
  answer = Ok (bool_decide (v = AbsentValue)).
Proof.
  intros Hd Hrecord. unfold config_answers. cbn [ValueField noDataThreshold]. rewrite Hrecord.
  assert (TrimSpace (default "" (Some digit))%string = digit) as -> by (by destruct Hd as [[-> _]|[-> _]]).
  assert (is_answer "1" 1) as Hone by (by left).
  destruct answer as [b|reason].
  - intros (m & z & Hm & _ & Hz & _ & Hb). apply (digit_nearest _ _ _ 1 _ Hd Hm) in Hz as ->. f_equal. symmetry.
    assert (Exists (group_holds 1 (v * (1 * normalizedDecimalScale))) (Groups noDataThreshold) ↔ v = AbsentValue) as Hgroups.
    { cbn [Groups noDataThreshold]. rewrite Exists_cons, Exists_nil. unfold group_holds. rewrite Forall_singleton.
      unfold condition_holds. cbn [ThresholdDecimal Operator]. unfold op_holds, noDataThresholdOperator, noDataThresholdDecimal. split.
      - intros [(m' & w & Hm' & Hw & Hop)|[]]. apply (digit_nearest _ _ _ 1 _ Hone Hm') in Hw as ->.
        destruct Hd as [[-> ->]|[-> ->]]; [done|]. exfalso. unfold PresentValue, normalizedDecimalScale in Hop.
        repeat destruct Hop as [[E Hop]|Hop]; try discriminate E; try lia. by destruct Hop.
      - intros ->. left. destruct (digit_is_decimal _ _ Hone) as [m' Hm']. exists m', normalizedDecimalScale. split_and!; [done| |].
        + destruct (digit_decimal _ _ _ Hone Hm') as [Hv' _]. unfold scale_of. rewrite Hv', <- inject_Z_mult. apply nearest_even_integer.
        + right. left. split; [done|]. unfold AbsentValue. lia. }
    destruct b; [apply bool_decide_eq_true_2|apply bool_decide_eq_false_2]; rewrite <- Hgroups, <- Hb; done.
  - destruct (digit_is_decimal _ _ Hd) as [m Hm]. intros [(_ & H)|[(_ & _ & _ & H)|(_ & m' & Hm' & H)]].
    + destruct Hd as [[-> _]|[-> _]], H as [H|H]; discriminate H.
    + by destruct (H m).
    + destruct (digit_decimal _ _ _ Hd Hm') as [_ Hbounded]. destruct H as [H|(z & Hz & Hbig)]; [done|].
      apply (digit_nearest _ _ _ 1 _ Hd Hm') in Hz as ->. destruct Hd as [[_ ->]|[_ ->]]; vm_compute in Hbig; by destruct Hbig.
Qed.

Lemma no_data_units digest source multiplier :
  config_units digest noDataThreshold = Some (source, multiplier) → source = 1 ∧ multiplier = 1.
Proof.
  unfold config_units. intros ([n m] & Hn & [= <- <-])%bind_Some. revert Hn. unfold compileUnitNormalizer.
  intros (spec & Hs & H)%bind_Some. vm_compute in Hs. injection Hs as <-. revert H.
  intros (t & Ht & H)%bind_Some. vm_compute in Ht. injection Ht as <-. revert H.
  intros (s & Hsm & H)%bind_Some. vm_compute in Hsm. injection Hsm as <-. revert H. intros (d & _ & [= <- <-])%bind_Some. done.
Qed.

(** ** The Level *)

Section no_data.
Context `{Digests : !CompilerDigests, Codec : !ConfigCodec, Encoder : !ConfigEncoder, Plans : !PlanDigests}.
Variable registry : AlgorithmCompilerRegistry.
Variable limits : Limits.
Variable boundaryLocation : option Location.

(** What [json.Marshal] writes of the three configurations, the strict decoder reads back. *)
Record encoder_reads_back : Prop := {
  er_threshold : ∀ text, encode_threshold noDataThreshold = Some text → decode_threshold text = Some noDataThreshold;
  er_trigger : ∀ config semantics text, encode_trigger (noDataTrigger config semantics) = Some text →
    decode_trigger text = Ok (noDataTrigger config semantics);
  er_recovery : ∀ text, encode_recovery noDataRecovery = Some text → decode_recovery text = Ok noDataRecovery;
}.

Lemma no_data_plans config valid execution raw level normalizers projection identity :
  encoder_reads_back → is_u32 (Continuous valid) → BuildNoDataLevelIR config execution = Ok (valid, raw) →
  compileLevel registry limits projection identity execution raw = Ok (level, normalizers) →
  level_definition level = mkDefinition (cfg_Level valid) "" (cfg_Level valid) ∧ level_connector level = LevelConnectorAND ∧
  level_trigger level = mkTrigger (Continuous valid) (Continuous valid) (EvaluationInterval execution) ∧
  level_recovery level = mkRecovery true 1 ∧
  sr_RequiredDetectHistoryPoints (level_stateRequirement level) = Continuous valid.
Proof.
  intros [_ Htrigger Hrecovery] Hu Hraw Hc%compileLevel_inv.
  apply BuildNoDataLevelIR_Ok in Hraw as (_ & Hdef & Hconn & threshold & trigger & recovery & _ & Hnt & Hnr & _ & Ht & Hr).
  destruct (ca_trigger _ _ _ _ _ _ _ _ Hc) as (ct & Hct). destruct (ca_recovery _ _ _ _ _ _ _ _ Hc) as (cr & Hcr).
  rewrite Ht in Hct. rewrite Hr in Hcr. apply compileTriggerPlan_inv in Hct as (_ & _ & tc & Hd & Htr & _).
  cbn [tp_Config] in Hd. rewrite (Htrigger _ _ _ Hnt) in Hd. injection Hd as <-. cbn [tpc_WindowSize tpc_RequiredAnomalies tpc_StepSeconds noDataTrigger] in Htr.
  apply compileRecoveryPlan_inv in Hcr as (rc & Hd & He & Hcw & _). cbn [tp_Config] in Hd. rewrite (Hrecovery _ Hnr) in Hd. injection Hd as <-.
  cbn in He. injection He as He. rewrite <- He in Hcw. cbn in Hcw.
  assert (level_recovery level = mkRecovery true 1) as Hrec by (destruct (level_recovery level); simpl in *; congruence).
  split_and!; [by rewrite (ca_definition _ _ _ _ _ _ _ _ Hc)|by rewrite (ca_level_connector _ _ _ _ _ _ _ _ Hc)|done|done|].
  pose proof (ca_required _ _ _ _ _ _ _ _ Hc) as Hreq. rewrite Hrec, Htr in Hreq.
  apply required_points_spec in Hreq as [-> _]; cbn; [lia|done|go_lia|done].
Qed.
(** C6: a compiled Plan with a no-data setting detects exactly its absences: the setting
    checked is the Level's - its level and priority, a window of as many periods as must be
    missed, every one of them required, and a recovery of one - and it requires no history
    beyond that window. Detection prepares the Plan's no-data view, and of every record says
    ANOMALOUS when its answer is the absent value, NORMAL when it is the present one, and in
    no case fails. *)
Theorem no_data_detects request plan terminals config :
  (∀ n x, normalizer_digest n = Some x → String.length x = 64%nat) →
  (∀ w x, predicate_digest w = Some x → String.length x = 64%nat) →
  NewAlgorithmCompilerRegistry [thresholdAlgorithmCompiler] = Ok registry →
  encoder_reads_back → is_u64 (MaxTriggerComputeCost limits) →
  units_apart (ip_DataUnit (InputProjection (cq_Plan request))) →
  compileUncached registry limits boundaryLocation request = Ok (mkCompileResult (Some plan) None terminals) →
  ep_NoData (cq_Plan request) = Some config → is_u32 (Continuous config) →
  ∃ valid level view, ValidateNoDataConfig config = Ok valid ∧ cp_noData plan = Some valid ∧
    cp_noDataLevel plan = Some level ∧ NoDataView plan = Some view ∧ cp_levels view = [level] ∧
    level_definition level = mkDefinition (cfg_Level valid) "" (cfg_Level valid) ∧
    level_trigger level = mkTrigger (Continuous valid) (Continuous valid) (EvaluationInterval (ExecutionSemantics (StrategyIR (cq_Plan request)))) ∧
    level_recovery level = mkRecovery true 1 ∧
    sr_RequiredDetectHistoryPoints (level_stateRequirement level) = Continuous valid ∧
    ∃ prepared, PreparePlan (DefaultRegistry false) (detect_plan view) = Ok prepared ∧
      ∀ record, ∃ fact values n, EvaluatePreparedRecord prepared record = Ok ([fact], values, n) ∧
        lf_Definition fact = level_definition level ∧
        ∀ digit v, is_answer digit v → record NoDataValueField = Some digit →
          lf_Result fact = (if bool_decide (v = AbsentValue) then FactResultAnomalous else FactResultNormal) ∧ lf_ReasonCode fact = ""%string.
Proof.
  intros Hnl Hpl Hreg Hback Hbudget Hapart (levels & refused & noData & Hplan)%compileUncached_inv Hconfig Hu; [|done].
  pose proof (pa_no_data _ _ _ _ _ _ _ _ Hplan) as Hnd. unfold no_data_compiled in Hnd. rewrite Hconfig in Hnd.
  destruct noData as [[[valid compiled] normalizers]|]; [|done]. destruct Hnd as (raw & Hraw & Hc).
  pose proof (proj1 (BuildNoDataLevelIR_Ok _ _ _ _ Hraw)) as Hvalid.
  pose proof (no_data_uptime_Ok _ _ _ (pa_uptime _ _ _ _ _ _ _ _ Hplan)) as Hsame. simpl in Hsame.
  destruct (cp_noDataLevel plan) as [level|] eqn:Hlevel; [|done].
  assert (Continuous valid = Continuous config) as Hcont.
  { apply validate_Ok in Hvalid as (_ & kept & _ & ->). done. }
  destruct (no_data_plans _ _ _ _ _ _ _ _ Hback ltac:(by rewrite Hcont) Hraw Hc) as (Hdef & Hconn & Htrigger & Hrecovery & Hrequired).
  destruct (synthetic_units registry limits Hnl Hpl Hreg _ _ _ _ _ _ Hplan _ _ _ eq_refl)
    as (Hfields & algorithm & cfg & spec & normalizer & Hone & _ & Henc & -> & Hdet & Hal & _).
  pose proof (proj1 Hone) as Hdec. rewrite (er_threshold Hback _ Henc) in Hdec. injection Hdec as <-.
  assert (∃ view, NoDataView plan = Some view ∧ cp_levels view = [level] ∧
    cp_evaluationSemantics view = cp_evaluationSemantics plan ∧ cp_normalizers view = cp_normalizers plan) as (view & Hview & Hvl & Hvs & Hvn).
  { unfold NoDataView. rewrite Hlevel. by eexists. }
  exists valid, level, view. split_and!; [done|by rewrite (pa_setting _ _ _ _ _ _ _ _ Hplan)|done|done|done|..].
  1: by rewrite (sl_definition _ _ Hsame). 1: by rewrite (sl_trigger _ _ Hsame). 1: by rewrite (sl_recovery _ _ Hsame).
  1: by rewrite (sl_requirement _ _ Hsame).
  set (context := mkContext (NoDataProjection valid) _ _ limits) in *.
  edestruct (threshold_plan_decides normalizer_digest predicate_digest Hnl Hpl context (detect_plan view) [[noDataThreshold]]) as (prepared & Hp & Hrecords);
    [exact Hfields| | | |exists prepared; split; [exact Hp|]].
  - cbn [dp_scope detect_plan]. rewrite Hvs, (pa_semantics _ _ _ _ _ _ _ _ Hplan).
    apply (proj1 (validatePlan_Ok _ _ (pa_valid _ _ _ _ _ _ _ _ Hplan))).
  - unfold detect_plan. by rewrite Hvl.
  - unfold detect_plan. rewrite Hvl, Hvn. cbn [dp_levels dp_normalizers fmap list_fmap].
    constructor; [|constructor]. split.
    + cbn [dl_detectors detect_level]. rewrite (sl_detectors _ _ Hsame), Hdet. constructor; [|constructor].
      destruct (compiled_threshold_unit Hnl Hpl _ _ _ _ _ Hfields Hone) as [Href _].
      destruct Hone as (_ & r & r' & Hr & Hv & -> & ->). exists r, r'. split_and!; [done..|]. rewrite Href.
      eapply (plan_normalizer registry limits Hnl Hpl Hreg _ _ _ _ _ _ Hplan); [by intros _|].
      apply elem_of_app. right. by left.
    + cbn [dl_algorithms detect_level]. rewrite (sl_algorithms _ _ Hsame). exact Hal.
  - intros record. destruct (Hrecords record) as (facts & values & n & He & Hfacts).
    unfold detect_plan in Hfacts. rewrite Hvl in Hfacts. cbn [dp_levels fmap list_fmap] in Hfacts.
    inversion Hfacts as [|configs l fact ? ? rest Hfact Hrest]; subst. inversion Hrest; subst.
    exists fact, values, n. split; [done|]. destruct Hfact as (Hfd & _ & given & Hgiven & Hanswer). split; [by rewrite Hfd|].
    intros digit v Hdigit Hrecord. inversion Hgiven as [|? answer ? ? (source & multiplier & Hunits & Ha) Hnone]; subst. inversion Hnone; subst.
    apply no_data_units in Hunits as [-> ->]. apply (no_data_answer _ _ _ _ Hdigit Hrecord) in Ha as ->.
    revert Hanswer. cbn [dl_connector detect_level]. rewrite (sl_connector _ _ Hsame), Hconn. unfold level_answer.
    change (deciding LevelConnectorAND) with false. intros [(Hin & -> & ->)|[(Hall & -> & ->)|(_ & Hex & _)]].
    + apply list_elem_of_singleton in Hin. by assert (bool_decide (v = AbsentValue) = false) as -> by congruence.
    + rewrite Forall_singleton in Hall. destruct (bool_decide (v = AbsentValue)); [done|discriminate Hall].
    + apply Exists_cons in Hex as [Hex|Hex]; [done|by apply Exists_nil in Hex].
Qed.
End no_data.
