(* ===== verification/PlanExamples.v ===== *)
(** A Plan compiled and run: its Levels, its refusals and its no-data Level. *)
From S2P Require Import Prelude GoHash Group Absence Roster NoDataMemory NoDataSlot TargetPlan History Trigger RecoveryWalk TriggerLevel.
From S2P Require Import Reason GapReason Decimal AlgorithmInput Predicate ThresholdCompiler TriggerEvent Detect DetectThreshold DetectExamples.
From S2P Require Import EffectiveTime CalendarRules LevelCompiler LevelSpec LevelExamples.
From S2P Require Import PlanCompiler PlanSpec PlanDetect NoDataDetect.

Open Scope Z_scope.

(** ** Digests and codecs

    The synthetic unit has a digest of its own. *)

Definition other_digest : string := Eval vm_compute in String.concat "" (replicate 8 "89abcdef"%string).

#[local] Instance plan_level_digests : CompilerDigests := {|
  normalizer_digest := λ n, Some (if (sourceUnit n =? noDataDataUnit)%string then other_digest else some_digest);
  predicate_digest := ex_predicate_digest;
  requirement_digest := λ _, Some some_digest;
  capability_digest := λ _, Some some_digest;
  config_digest := λ _, Some some_digest;
  state_compatibility_digest := λ _ _ _ _ _ _ _ _, Some some_digest;
  plan_identity_digest := λ _ _ _, Some some_digest;
  projection_digest := λ _, Some some_digest;
  level_semantics_digest := λ _ _, Some some_digest;
  level_detect_digest := λ _ _ _, Some some_digest;
  level_trigger_digest := λ _ _ _, Some some_digest;
|}.

(** A configuration is read by its name; the synthetic one is encoded for three and for a hundred
    and one periods of a minute. *)
#[local] Instance plan_codec : ConfigCodec := {|
  decode_threshold := λ s,
    if (s =? "in")%string then Some (ex_config "in") else if (s =? "no_data")%string then Some noDataThreshold else None;
  decode_trigger := λ s,
    if (s =? "long")%string then Ok (mkTriggerConfig 100 1 60 "" None)
    else if (s =? "no_data")%string then Ok (mkTriggerConfig 3 3 60 "" None)
    else if (s =? "no_data_long")%string then Ok (mkTriggerConfig 101 101 60 "" None)
    else Err "json"%string;
  decode_recovery := λ s,
    if (s =? "on")%string then Ok (mkRecoveryConfig (Some true) 20)
    else if (s =? "no_data")%string then Ok noDataRecovery
    else Err "json"%string;
  canonical_trigger := λ _, Some "{}"%string;
  canonical_recovery := λ _, Some "{}"%string;
|}.

#[local] Instance plan_encoder : ConfigEncoder := {|
  encode_threshold := λ _, Some "no_data"%string;
  encode_trigger := λ c,
    if negb (tpc_StepSeconds c =? 60) then None
    else if (tpc_WindowSize c =? 3) && (tpc_RequiredAnomalies c =? 3) then Some "no_data"%string
    else if (tpc_WindowSize c =? 101) && (tpc_RequiredAnomalies c =? 101) then Some "no_data_long"%string
    else None;
  encode_recovery := λ _, Some "no_data"%string;
|}.

#[local] Instance plan_digests : PlanDigests := {|
  plan_json_size := λ _, Some 1000;
  dataset_digest := λ _, Some some_digest;
  closure_digest := λ _ _ _, Some some_digest;
  state_hash := λ _, Some some_digest;
  plan_fingerprint := λ _ _, Some some_digest;
  level_json_size := λ _, Some 500;
  compiled_json_size := λ _ _ _ _ _ _, Some 2000;
  decode_legacy_strategy := λ _, None;
  decode_trigger_loose := decode_trigger;
  LoadLocation := λ _, None;
  snapshot_digest := λ _, None;
|}.

Lemma plan_typed : codec_typed.
Proof.
  split; intros s c; cbn [decode_trigger decode_recovery plan_codec];
    repeat case_match; intros [= <-]; cbn; go_lia.
Qed.

Lemma plan_hex : digests_typed.
Proof. by intros ? ? ? ? [= <-]. Qed.

Lemma plan_normalizer_length n x : normalizer_digest n = Some x → String.length x = 64%nat.
Proof. cbn. case_match; by intros [= <-]. Qed.

Lemma plan_predicate_length w x : predicate_digest w = Some x → String.length x = 64%nat.
Proof. by intros [= <-]. Qed.

Lemma plan_reads_back : encoder_reads_back.
Proof.
  split; cbn [encode_threshold encode_trigger encode_recovery plan_encoder].
  - by intros text [= <-].
  - intros config semantics text. cbn [noDataTrigger tpc_WindowSize tpc_RequiredAnomalies tpc_StepSeconds].
    destruct (Z.eqb_spec (EvaluationInterval semantics) 60) as [Hi|]; [|done]. unfold noDataTrigger. rewrite Hi.
    destruct (Z.eqb_spec (Continuous config) 3) as [->|]; [by intros [= <-]|].
    destruct (Z.eqb_spec (Continuous config) 101) as [->|]; [by intros [= <-]|done].
  - by intros text [= <-].
Qed.

Lemma plan_units_apart : units_apart "KBs".
Proof. intros n n' digest Hn Hn'. cbn. rewrite Hn, Hn'. intros [= <-] [=]. Qed.

Definition plan_registry : AlgorithmCompilerRegistry :=
  match NewAlgorithmCompilerRegistry [thresholdAlgorithmCompiler] with Ok r => r | Err _ => ∅ end.

Lemma plan_registered : NewAlgorithmCompilerRegistry [thresholdAlgorithmCompiler] = Ok plan_registry.
Proof. reflexivity. Qed.

(** ** A Plan

    A Level that compiles, one whose recovery does not decode, and a no-data setting that
    names a dimension twice. *)
Definition plan_projection : InputProjectionV2 :=
  mkInputProjection false ["in"; "out"]%string ["host"]%string "bk_biz_id" "SINGLE_VALUE" "KBs" MissingValuePolicyRequired.

Definition plan_ref : StrategyRefV2 := mkStrategyRef "tenant" "42" "r1" 7.

Definition plan_setting : NoDataConfigV1 := NoDataSlot.mkConfig 3 ["host"; "host"]%string 2 0 "".

Definition plan_source (noData : option NoDataConfigV1) (levels : list LevelIRV2) : EvaluationPlanV2 :=
  mkPlan (0, None) "42" plan_ref plan_projection None None None None None None noData
    (mkStrategyIR (mkSchema StrategyIRSchemaV2 2 0) [] plan_ref ex_execution plan_projection levels) "" "" "" false.

Definition plan_request (noData : option NoDataConfigV1) (levels : list LevelIRV2) : CompileRequest :=
  mkCompileRequest (plan_source noData levels) (mkDataset false "" "" ["host"]%string "" "" "")
    (mkStateSemantics "v1" "v1" some_digest "v1" "v1") "".

(** A record of three Levels' facts holds two hundred positions. *)
Definition plan_limits : Limits := mkLimits 3 4 4 16 64 100 100 200 [0; 300; 230; 200] 30 100000 100000.

Definition plan_levels_declared : list LevelIRV2 := [ex_ir 3 "long" "bad"; ex_ir 1 "long" "on"].

Definition plan_compile (noData : option NoDataConfigV1) (levels : list LevelIRV2) : result string CompileResult :=
  compileUncached plan_registry plan_limits None (plan_request noData levels).

(** What a compilation comes to: the Levels, the refusals, and the refusal of the Plan. *)
Definition plan_summary (r : result string CompileResult) : list Z * list (Z * string) * option Z * string * string :=
  match r with
  | Err detail => ([], [], None, detail, ""%string)
  | Ok result =>
      match res_plan result, res_planTerminal result with
      | Some plan, _ =>
          (level_id <$> cp_levels plan, (λ t, (term_LevelID t, term_FieldPath t)) <$> res_levelTerminals result,
           level_id <$> cp_noDataLevel plan, "", "")%string
      | _, Some t => ([], [], None, term_ReasonCode t, term_FieldPath t)
      | _, _ => ([], [], None, "", "")%string
      end
  end.

(** The Plan; the same id twice; two Levels past the cost of thirty; a setting past the
    window the compiler takes, named as the Plan's; and no Level at all. *)
Example plan_runs :
  (plan_summary (plan_compile (Some plan_setting) plan_levels_declared),
   plan_summary (plan_compile None [ex_ir 1 "long" "on"; ex_ir 1 "long" "on"]),
   plan_summary (plan_compile None [ex_ir 1 "long" "on"; ex_ir 2 "long" "on"]),
   plan_summary (plan_compile (Some (NoDataSlot.mkConfig 101 [] 2 0 "")) plan_levels_declared),
   plan_summary (plan_compile None []))
  = (([1], [(3, "level.recovery_plan")], Some 2, "", ""),
     ([], [], None, ReasonPlanDuplicateLevelID, "strategy_ir.levels"),
     ([], [], None, ReasonPlanBudgetExceeded, "trigger_compute"),
     ([], [], None, ReasonNoDataPlanUncompilable, "no_data.level.trigger_plan"),
     ([], [], None, ReasonPlanInvalid, "strategy_ir"))%string.
Proof. vm_compute. reflexivity. Qed.

(** The ids of a compiled Plan's Levels, and of its no-data view's. *)
Definition plan_ids_of (r : result string CompileResult) : option (list Z * option (list Z)) :=
  match r with
  | Ok (mkCompileResult (Some plan) None _) =>
      Some (level_id <$> cp_levels plan, (λ view, level_id <$> cp_levels view) <$> NoDataView plan)
  | _ => None
  end.

Lemma plan_compiles_ok :
  ∃ plan terminals, plan_compile (Some plan_setting) plan_levels_declared = Ok (mkCompileResult (Some plan) None terminals) ∧
    level_id <$> cp_levels plan = [1] ∧ (λ view, level_id <$> cp_levels view) <$> NoDataView plan = Some [2].
Proof.
  assert (plan_ids_of (plan_compile (Some plan_setting) plan_levels_declared) = Some ([1], Some [2])) as H by (vm_compute; reflexivity).
  destruct (plan_compile _ _) as [[[plan|] [t|] terminals]|]; try discriminate H. injection H as Hl Hv. by exists plan, terminals.
Qed.

Lemma plan_interval : is_u32 (EvaluationInterval (ExecutionSemantics (StrategyIR (cq_Plan (plan_request (Some plan_setting) plan_levels_declared))))).
Proof. by vm_compute. Qed.

Lemma plan_budget : is_u64 (MaxTriggerComputeCost plan_limits).
Proof. by vm_compute. Qed.

Lemma plan_compiled_witness :
  ∃ plan terminals, plan_compile (Some plan_setting) plan_levels_declared = Ok (mkCompileResult (Some plan) None terminals) ∧
    (level_id <$> cp_levels plan) ++ (term_LevelID <$> terminals) ≡ₚ [3; 1] ∧
    plan_cost (all_levels (cp_levels plan) (cp_noDataLevel plan)) ≤ 30.
Proof.
  destruct plan_compiles_ok as (plan & terminals & E & _). exists plan, terminals. split; [exact E|].
  destruct (plan_compiled plan_registry plan_limits None plan_budget (plan_request (Some plan_setting) plan_levels_declared) plan terminals
    plan_typed plan_hex plan_interval E) as (_ & _ & Hids & _ & _ & _ & _ & Hcost & _).
  split; [exact Hids|exact Hcost].
Defined.

(** ** Admitted and run *)

#[local] Existing Instance listHistory_view.

Definition plan_trigger_request : EvaluationRequestV2 listHistory :=
  mkRequest "tenant" "2" None (mkDetectionRecord "record" 6000 [] []) "record" 6000 (Some ∅) (Some ∅) [] [] 6000 "execution" false
    (Trigger.mkLimits 10 100 100 200 10 100000 1000) None None.

Definition plan_fact (id : Z) : DetectionFact :=
  mkDetection (mkDefinition id "" id) some_digest DetectionNormal "" (mkEvidence some_digest (Some 0) None None "").

Definition plan_effective : EffectiveTimeFact := mkEffective EffectiveTimeActive some_digest some_digest some_digest 0 10000.

Lemma plan_admitted_witness :
  ∃ plan terminals view, plan_compile (Some plan_setting) plan_levels_declared = Ok (mkCompileResult (Some plan) None terminals) ∧
    NoDataView plan = Some view ∧
    is_ok (admit_levels plan_trigger_request None (Trigger.Levels (trigger_plan view)) [plan_fact 2] [(2, Some (mkListHistory [] 60))]
      [(2, plan_effective)] 0) = true.
Proof.
  destruct plan_compiles_ok as (plan & terminals & E & _ & Hids).
  destruct (NoDataView plan) as [view|] eqn:Hview; [|discriminate Hids]. injection Hids as Hids.
  exists plan, terminals, view. split; [exact E|]. split; [exact Hview|].
  refine (match plan_admitted plan_registry plan_limits None plan_budget plan_trigger_request
    (plan_request (Some plan_setting) plan_levels_declared) plan terminals [plan_fact 2] [(2, Some (mkListHistory [] 60))]
    [(2, plan_effective)] plan_typed plan_interval _ E view (or_intror Hview) _ with conj H _ => _ end).
  - unfold limits_cover. repeat split; discriminate.
  - rewrite Hids. split_and!; [reflexivity|reflexivity|repeat constructor; by eexists|reflexivity].
  - by rewrite H.
Defined.

Lemma plan_detects_witness :
  ∃ plan terminals prepared, plan_compile (Some plan_setting) plan_levels_declared = Ok (mkCompileResult (Some plan) None terminals) ∧
    PreparePlan (DefaultRegistry false) (detect_plan plan) = Ok prepared ∧
    ∃ facts values n, EvaluatePreparedRecord prepared (ex_record (Some "2000.5")) = Ok (facts, values, n) ∧ length facts = 1%nat.
Proof.
  destruct plan_compiles_ok as (plan & terminals & E & Hids & _).
  destruct (plan_detects plan_registry plan_limits None plan_normalizer_length plan_predicate_length plan_registered
    (plan_request (Some plan_setting) plan_levels_declared) plan terminals plan_budget (λ _, plan_units_apart) E) as (prepared & Hp & Hrecords).
  exists plan, terminals, prepared. split; [exact E|]. split; [exact Hp|].
  destruct (Hrecords (ex_record (Some "2000.5"%string))) as (facts & values & n & He & Hf). exists facts, values, n. split; [exact He|].
  rewrite <- (Forall2_length _ _ _ Hf), <- (length_fmap level_id), Hids. reflexivity.
Defined.

Lemma no_data_detects_witness :
  ∃ plan terminals view prepared, plan_compile (Some plan_setting) plan_levels_declared = Ok (mkCompileResult (Some plan) None terminals) ∧
    NoDataView plan = Some view ∧ PreparePlan (DefaultRegistry false) (detect_plan view) = Ok prepared ∧
    ∃ fact values n, EvaluatePreparedRecord prepared (λ field, if (field =? NoDataValueField)%string then Some "1" else None)%string
      = Ok ([fact], values, n) ∧ lf_Result fact = FactResultAnomalous.
Proof.
  destruct plan_compiles_ok as (plan & terminals & E & _).
  assert (is_u32 (Continuous plan_setting)) as Hc by (split; discriminate).
  assert (units_apart (ip_DataUnit (InputProjection (cq_Plan (plan_request (Some plan_setting) plan_levels_declared))))) as Hu by exact plan_units_apart.
  assert (ep_NoData (cq_Plan (plan_request (Some plan_setting) plan_levels_declared)) = Some plan_setting) as Hs by reflexivity.
  pose proof (no_data_detects plan_registry plan_limits None _ plan terminals plan_setting
    plan_normalizer_length plan_predicate_length plan_registered plan_reads_back plan_budget Hu E Hs Hc) as H.
  destruct H as (valid & level & view & _ & _ & _ & Hview & _ & _ & _ & _ & _ & prepared & Hp & Hrecords).
  exists plan, terminals, view, prepared. split; [exact E|]. split; [exact Hview|]. split; [exact Hp|].
  destruct (Hrecords (λ field, if (field =? NoDataValueField)%string then Some "1" else None)%string) as (fact & values & n & He & _ & Hd).
  exists fact, values, n. split; [exact He|]. exact (proj1 (Hd "1"%string AbsentValue (or_introl (conj eq_refl eq_refl)) eq_refl)).
Defined.
