(* ===== verification/NoDataPlan.v ===== *)
(** A Plan's no-data rounds and its record together: load, evaluate, and apply what
    the round states, round after round. *)
From Stdlib Require Import Ascii.
From S2P Require Import Prelude Reason Group Absence AbsenceSpec AbsenceRounds Roster NoDataMemory NoDataMemorySpec NoDataStore NoDataStoreSpec NoDataWriters NoDataSlot NoDataSlotSpec NoDataRounds.

Open Scope Z_scope.

Definition with_snapshot (sn : NoDataMemorySnapshot) (input : PlanSlotInput) : PlanSlotInput :=
  mkPlanSlotInput (ps_NoData input) (ps_Scope input) (ps_Plan input) (ps_TargetResolution input) (ps_AnswerTruncated input)
    (ps_Identity input) sn (ps_ApplyVersion input) (ps_ScheduleRevision input) (ps_EvaluationTime input)
    (ps_PeriodSeconds input) (ps_Completeness input) (ps_Series input) (ps_KnownHosts input) (ps_HostsResolved input)
    (ps_OutOfBusiness input) (ps_TrackingHorizonSeconds input).

(** How a round ends: the record it leaves, an evaluation that failed, or a write
    that was not applied. *)
Inductive RoundEnd : Type :=
  | RoundStored (slot : PlanSlotResult) (key : HashKey)
  | RoundFailed (error : SlotError)
  | RoundRefused (item : NoDataApplyItemResult).

Section plan.
Context `{!HashText, !HashTextLaws}.
Variable roster_digest : string → list string → option string.
Variable order : AbsenceInput → iteration.
Variable memory_digest : MemoryPayload → option string.
Variable statement_digest : PlanNoDataMutation → option string.
Variable MaxNoDataGroups lifetime : Z.

Definition plan_round (input : PlanSlotInput) (key : HashKey) : RoundEnd :=
  let sn := loadOneNoData no_faults (hash_fields key) (ps_Identity input) in
  match EvaluatePlanSlot roster_digest order memory_digest statement_digest (with_snapshot sn input) with
  | Err error => RoundFailed error
  | Ok slot =>
      match Mutation slot with
      | None => RoundStored slot key
      | Some mu =>
          match applyOneNoData statement_digest MaxNoDataGroups no_faults mu lifetime key key with
          | (NoDataApplied, key) => RoundStored slot key
          | (item, _) => RoundRefused item
          end
      end
  end.

Fixpoint plan_rounds (inputs : list PlanSlotInput) (key : HashKey) : RoundEnd + list PlanSlotResult * HashKey :=
  match inputs with
  | [] => inr ([], key)
  | input :: inputs =>
      match plan_round input key with
      | RoundStored slot key =>
          match plan_rounds inputs key with
          | inr (slots, key) => inr (slot :: slots, key)
          | inl stuck => inl stuck
          end
      | stuck => inl stuck
      end
  end.

Hypothesis orders : ∀ absence, iterates absence (order absence).
Hypothesis roster_digests : ∀ source keys, ∃ d, roster_digest source keys = Some d ∧ d ≠ ""%string.
Hypothesis memory_digests : ∀ payload, ∃ d, memory_digest payload = Some d ∧ d ≠ ""%string.
Hypothesis statement_digests : ∀ mu, ∃ s, statement_digest mu = Some s ∧ s ≠ ""%string.

Variable identity : PlanNoDataIdentity.
Notation reachable := (reachable memory_digest statement_digest MaxNoDataGroups identity).
Notation load key := (loadOneNoData no_faults (hash_fields key) identity).
Notation judged_over := (judged_over roster_digest order).

(** The round that was stopped by the size of its memory: the evaluation over what the
    record holds remembers more groups than a statement counts, or, of those it
    counts, more than the store's limit. *)
Definition too_many (config : NoDataConfigV1) (input : PlanSlotInput) (key : HashKey) (stuck : RoundEnd) : Prop :=
  ∃ outcome, judged_over (with_snapshot (load key) input) config outcome ∧
    let count := Z.of_nat (size (Memory outcome)) in
    (maxUint32 < count ∧ stuck = RoundFailed (SlotContract TooManyGroups) ∨
     MaxNoDataGroups < count ≤ maxUint32 ∧
       stuck = RoundRefused (NoDataRejected ReasonStateBudgetExceeded (Some (count, MaxNoDataGroups)))).

(** A round that ended: it judged exactly when it saw what it needs; one that did not
    left the record, and the record a judging one left reads as what its evaluation,
    over the record it found, remembers. What it wrote is within the limit. *)
Record round_done (config : NoDataConfigV1) (class : RosterClass) (input : PlanSlotInput) (key : HashKey) (slot : PlanSlotResult) (key' : HashKey)
    : Prop := mkRoundDone {
  rd_judges : Outcome slot = OutcomeEvaluated ↔ judges input class;
  rd_passed : ¬ judges input class → slot_Series slot = [] ∧ key' = key;
  rd_stored : judges input class → ∃ outcome,
    judged_over (with_snapshot (load key) input) config outcome ∧ slot_Facts slot = Facts outcome ∧ speaks input outcome slot ∧
    remembered_by (with_snapshot (load key) input) outcome (sn_Groups (load key')) (PresentAsOf (load key')) (sn_TrackingExhaustedAt (load key')) ∧
    (Mutation slot ≠ None → Z.of_nat (size (Memory outcome)) ≤ MaxNoDataGroups);
}.

Inductive rounds_done (config : NoDataConfigV1) (class : RosterClass) : list PlanSlotInput → HashKey → list PlanSlotResult → HashKey → Prop :=
  | rounds_none key : rounds_done config class [] key [] key
  | rounds_next input inputs key slot key' slots key'' :
      plan_round input key = RoundStored slot key' → round_done config class input key slot key' →
      rounds_done config class inputs key' slots key'' →
      rounds_done config class (input :: inputs) key (slot :: slots) key''.

(** How a Plan's rounds end from a record: all done, or stopped at one by its size. *)
Definition rounds_end (config : NoDataConfigV1) (class : RosterClass) (inputs : list PlanSlotInput) (key : HashKey)
    (ended : RoundEnd + list PlanSlotResult * HashKey) : Prop :=
  match ended with
  | inr (slots, key') => rounds_done config class inputs key slots key'
  | inl stuck =>
      ∃ past input rest slots key', inputs = past ++ input :: rest ∧ rounds_done config class past key slots key' ∧
        plan_round input key' = stuck ∧ too_many config input key' stuck
  end.

(** What the worker vouches for of a round, whatever the record holds; every name
    the header carries is text. *)
Record vouched (config : NoDataConfigV1) (class : RosterClass) (input : PlanSlotInput) : Prop := mkVouched {
  vo_identity : ps_Identity input = identity;
  vo_accepted : ∀ sn, sn_Identity sn = identity → PresentAsOf sn < ps_EvaluationTime input →
    accepted (with_snapshot sn input) config class;
  vo_text : ∀ h, hd_Identity h = identity → hd_ApplyVersion h = ps_ApplyVersion input →
    hd_ScheduleRevision h = ps_ScheduleRevision input → printable h;
}.

(** The record as the rounds before [time] left it. *)
Record ready_for (time : Z) (version : ApplyVersion) (sys : System) : Prop := mkReady {
  rf_reachable : reachable sys;
  rf_strayed : sy_strayed sys = false;
  rf_kept : snapshot_kept (load (sy_key sys));
  rf_identity : sn_Identity (load (sy_key sys)) = identity;
  rf_present : PresentAsOf (load (sy_key sys)) < time;
  rf_version : ∀ t, last (sy_applied sys) = Some t → older (mu_ApplyVersion t.1) version;
}.

Notation Build := (BuildPlanNoDataMutation memory_digest statement_digest).

Lemma built_fields u mu : Build u = Ok mu →
  mu_Identity mu = up_Identity u ∧ mu_ApplyVersion mu = up_ApplyVersion u ∧ mu_ScheduleRevision mu = up_ScheduleRevision u ∧
  mu_MutationDigest mu ≠ ""%string.
Proof.
  intros (memory & loaded & [_ _ _ _ _ _ (d & s & Heq & _ & _ & Hs)])%Build_built. destruct (statement_digests (set_mutation_digest "" mu)) as (s' & Hs' & Hne).
  rewrite Hs' in Hs. injection Hs as ->. rewrite Heq, mutation_of_eq. done.
Qed.

(** The statement of a vouched round is one the store's writers make. *)
Lemma round_states config class input sn u memory mu :
  vouched config class input → sn_Identity sn = identity →
  derived sn u → up_ApplyVersion u = ps_ApplyVersion input → up_ScheduleRevision u = ps_ScheduleRevision input →
  canonicalNoDataMemory (up_Memory u) = Ok memory → Build u = Ok mu → Forall (λ g, 0 ≤ gm_SuppressedAt g) memory →
  stated memory_digest statement_digest sn (mu, memory).
Proof.
  intros Hv Hid Hd Ha Hsch Hm Hb Hs. destruct (built_fields u mu Hb) as (H1 & H2 & H3 & H4). split; cbn; [by exists u|done| |done].
  intros revision. apply (vo_text _ _ _ Hv); cbn; [by rewrite H1, (dv_identity _ _ Hd)|congruence|congruence].
Qed.

Lemma refused_for_size u mu key :
  Build u = Ok mu → MaxNoDataGroups < mu_GroupCount mu →
  applyOneNoData statement_digest MaxNoDataGroups no_faults mu lifetime key key
  = (NoDataRejected ReasonStateBudgetExceeded (Some (mu_GroupCount mu, MaxNoDataGroups)), key).
Proof.
  intros Hb Hlt. pose proof (built_fields u mu Hb) as (_ & _ & _ & Hne). apply Build_built in Hb as (memory & loaded & Hb).
  unfold applyOneNoData, prepare, preflight. rewrite (built_validates _ _ _ _ _ _ Hb Hne). cbn [is_ok negb].
  by rewrite (proj2 (Z.ltb_lt _ _) Hlt).
Qed.

Lemma stored_kept mu memory revision :
  version_valid (mu_ApplyVersion mu) = true → revision ≠ 0 → record_kept memory (mu_PresentAsOf mu) (mu_TrackingExhaustedAt mu) →
  snapshot_kept (snapshot_of (header_of mu revision) memory).
Proof. intros Hv Hr Hk. split; [right|exact Hk]. by cbn. Qed.

Notation written sys := (sy_past sys + length (sy_applied sys))%nat.

(** A round that stated what it judged: written within the limit, or refused for its size. *)
Lemma round_written config class input sys outcome mu :
  vouched config class input → ready_for (ps_EvaluationTime input) (ps_ApplyVersion input) sys → Z.of_nat (written sys) < maxUint64 →
  let sn := load (sy_key sys) in
  stores memory_digest statement_digest (with_snapshot sn input) outcome (Some mu) →
  (∃ key write memory,
     applyOneNoData statement_digest MaxNoDataGroups no_faults mu lifetime (sy_key sys) (sy_key sys) = (NoDataApplied, key) ∧
     remembered_by (with_snapshot sn input) outcome (sn_Groups (load key)) (PresentAsOf (load key)) (sn_TrackingExhaustedAt (load key)) ∧
     Z.of_nat (size (Memory outcome)) ≤ MaxNoDataGroups ∧
     ∀ time version, ps_EvaluationTime input < time → older (ps_ApplyVersion input) version →
       ready_for time version (after_round identity sys (mu, memory) write key)) ∨
  Z.of_nat (size (Memory outcome)) ≤ maxUint32 ∧ MaxNoDataGroups < Z.of_nat (size (Memory outcome)) ∧
  applyOneNoData statement_digest MaxNoDataGroups no_faults mu lifetime (sy_key sys) (sy_key sys)
  = (NoDataRejected ReasonStateBudgetExceeded (Some (Z.of_nat (size (Memory outcome)), MaxNoDataGroups)), sy_key sys).
Proof.
  intros Hv [Hr Hstray Hk Hid Hp Hver] Hlen sn (u & memory & Hd & Hm & Hb & Hav & Hsch & Hrem & Hcount & Hpres & Hrec).
  pose proof (vo_accepted _ _ _ Hv _ Hid Hp) as Ha. destruct (built_fields u mu Hb) as (Hmi & Hma & Hms & _).
  destruct (Z.ltb_spec MaxNoDataGroups (mu_GroupCount mu)) as [Hbig|Hfit].
  { right. rewrite <- Hcount. split_and!; [|done|by apply (refused_for_size u)].
    apply Build_built in Hb as (? & ? & [_ _ _ _ _ _ (? & ? & Heq & _)]). rewrite Heq, mutation_of_eq. apply u32_range. }
  left. assert (stated memory_digest statement_digest sn (mu, memory)) as Hst.
  { eapply round_states; [exact Hv|exact Hid|exact Hd|done..|]. eapply Forall_impl; [apply (rk_groups _ _ _ Hrec)|]. by intros g (_ & _ & ? & _). }
  destruct (lone_round memory_digest statement_digest MaxNoDataGroups identity sys (mu, memory) lifetime Hr Hstray Hlen Hst Hfit) as (write & key & Happ & Hload & Hreach).
  { intros t Hl. cbn. rewrite Hma, Hav. by apply Hver. }
  cbn [fst snd] in *. exists key, write, memory. rewrite Hload. split_and!; [exact Happ|exact Hrem|lia|].
  intros time version Ht Hvv. split; cbn [sy_key sy_applied sy_strayed after_round]; rewrite ?Hload.
  - exact Hreach.
  - exact Hstray.
  - apply stored_kept; [rewrite Hma, Hav; apply (ac_named _ _ _ Ha)|lia|exact Hrec].
  - cbn. by rewrite Hmi, (dv_identity _ _ Hd).
  - cbn in Hpres |- *. lia.
  - intros t. rewrite last_snoc. intros [= <-]. cbn. by rewrite Hma, Hav.
Qed.

Lemma ready_later input time version sys :
  ready_for (ps_EvaluationTime input) (ps_ApplyVersion input) sys → ps_EvaluationTime input < time → older (ps_ApplyVersion input) version →
  ready_for time version sys.
Proof.
  intros [Hr Hstray Hk Hid Hp Hver] Ht Hvv. split; [done..|lia|]. intros t Hl. transitivity (ps_ApplyVersion input); [by apply Hver|done].
Qed.

Lemma one_round config class input sys :
  vouched config class input → ready_for (ps_EvaluationTime input) (ps_ApplyVersion input) sys → Z.of_nat (written sys) < maxUint64 →
  match plan_round input (sy_key sys) with
  | RoundStored slot key =>
      round_done config class input (sy_key sys) slot key ∧
      ∃ sys', sy_key sys' = key ∧ (written sys' ≤ S (written sys))%nat ∧
        ∀ time version, ps_EvaluationTime input < time → older (ps_ApplyVersion input) version → ready_for time version sys'
  | stuck => too_many config input (sy_key sys) stuck
  end.
Proof.
  intros Hv Hready Hlen. pose proof Hready as [Hr Hstray Hk Hid Hp Hver]. unfold plan_round. rewrite (vo_identity _ _ _ Hv).
  pose proof (vo_accepted _ _ _ Hv _ Hid Hp) as Ha.
  pose proof (round_outcome roster_digest order memory_digest statement_digest orders roster_digests memory_digests statement_digests
    (with_snapshot (load (sy_key sys)) input) config class Ha Hk) as Hround.
  destruct (EvaluatePlanSlot _ _ _ _ _) as [slot|e]; [|destruct Hround as (-> & outcome & Hover & Hbig); exists outcome; by split; [|left]].
  destruct Hround as (Hj & Hpass & Hjudged). change (judges (with_snapshot _ input) class) with (judges input class) in *.
  destruct (Mutation slot) as [mu|] eqn:Hmu.
  2: { split; [|exists sys; split_and!; [done|lia|]; intros time version; by apply ready_later].
       split; [exact Hj|intros Hno; by destruct (Hpass Hno)|]. intros Hyes. destruct (Hjudged Hyes) as (outcome & Hover & Hf & Hs & Hst).
       exists outcome. split_and!; [exact Hover|exact Hf|exact Hs|exact Hst|by rewrite Hmu]. }
  assert (judges input class) as Hyes.
  { destruct (decide (Outcome slot = OutcomeEvaluated)) as [Ho|Ho]; [by apply Hj|]. exfalso.
    destruct Hpass as [_ Hnone]; [|done]. by intros Hyes%Hj. }
  destruct (Hjudged Hyes) as (outcome & Hover & Hf & Hs & Hst).
  destruct (round_written config class input sys outcome mu Hv Hready Hlen Hst)
    as [(key & write & memory & Happ & Hrem & Hfit & Hnext)|(Hmax & Hbig & Happ)]; rewrite Happ.
  2: { exists outcome. split; [exact Hover|]. by right. }
  split.
  - split; [exact Hj|tauto|]. intros _. exists outcome. by split_and!.
  - exists (after_round identity sys (mu, memory) write key). split_and!; [done| |exact Hnext].
    cbn [sy_past sy_applied after_round]. rewrite length_app. simpl. lia.
Qed.

Definition next_round (a b : PlanSlotInput) : Prop :=
  ps_EvaluationTime a < ps_EvaluationTime b ∧ older (ps_ApplyVersion a) (ps_ApplyVersion b).

Lemma rounds_go_on config class inputs : ∀ sys,
  Forall (vouched config class) inputs → Sorted next_round inputs →
  (∀ input, head inputs = Some input → ready_for (ps_EvaluationTime input) (ps_ApplyVersion input) sys) →
  Z.of_nat (written sys + length inputs) ≤ maxUint64 →
  rounds_end config class inputs (sy_key sys) (plan_rounds inputs (sy_key sys)).
Proof.
  induction inputs as [|input inputs IH]; intros sys Hv Hs Hready Hlen; cbn [plan_rounds]; [constructor|].
  apply Forall_cons in Hv as [Hv Hvs]. apply Sorted_inv in Hs as [Hs Hhd]. cbn [length] in Hlen.
  pose proof (one_round config class input sys Hv (Hready input eq_refl) ltac:(lia)) as Hone.
  destruct (plan_round input (sy_key sys)) as [slot key|e|item] eqn:Hround;
    [|by exists [], input, inputs, [], (sy_key sys); split_and!; [|constructor|..]..].
  destruct Hone as (Hdone & sys' & <- & Hlen' & Hnext).
  assert (∀ next, head inputs = Some next → ready_for (ps_EvaluationTime next) (ps_ApplyVersion next) sys') as Hr'.
  { intros next Hn. destruct inputs as [|i inputs]; [done|]. injection Hn as ->. inversion Hhd as [|? ? [Ht Hvv]]; subst. by apply Hnext. }
  specialize (IH sys' Hvs Hs Hr' ltac:(lia)). destruct (plan_rounds inputs (sy_key sys')) as [stuck|[slots key]]; cbn [rounds_end] in *.
  - destruct IH as (past & next & rest & slots & key & -> & Hpast & Hstuck & Hmany).
    exists (input :: past), next, rest, (slot :: slots), key. split_and!; [done|by eapply rounds_next|done..].
  - by eapply rounds_next.
Qed.

(** C17: a Plan's no-data detection never gets stuck on its own record: over any
    number of rounds from an empty store, each later and of a newer version, every
    round loads, evaluates what the record holds and stores what it then remembers,
    judging exactly when it saw everything it needs; what one round stores the next
    reads back and writes over. Only its size stops it: at the first round whose
    evaluation remembers more groups than the store's limit, or than a statement
    counts, and then with that count. *)
Theorem plan_never_stuck config class inputs :
  Forall (vouched config class) inputs → Sorted next_round inputs → Z.of_nat (length inputs) ≤ maxUint64 →
  rounds_end config class inputs missing_key (plan_rounds inputs missing_key).
Proof.
  intros Hv Hs Hlen. apply (rounds_go_on config class inputs started Hv Hs); [|exact Hlen].
  intros input Hh. destruct inputs as [|i inputs]; [done|]. injection Hh as ->. apply Forall_cons in Hv as [Hv _].
  assert (load missing_key = missing_snapshot identity) as Hl by reflexivity.
  split; cbn [sy_key started sy_applied sy_strayed]; rewrite ?Hl; [constructor|done| |done| |done].
  - split; [by left|]. split; [by repeat constructor|constructor|done|done].
  - cbn. pose proof (vo_accepted _ _ _ Hv (mkSnapshot identity 0 no_version "" NoDataMemoryMissing 0 "" "" "" (ps_EvaluationTime input - 1) 0 [] "")
      eq_refl ltac:(cbn; lia)) as Ha. apply (ac_time _ _ _ Ha).
Qed.
End plan.

(** * Examples

    A Plan with a history roster over four rounds on the concrete text: two hosts
    report, one goes silent, and comes back. *)

From S2P Require Import AbsenceVerdicts RosterSpec NoDataExamples.

Definition setting : NoDataConfigV1 := mkConfig 5 ["host"; "host"]%string 2 86400 "STRATEGY".
Definition valid_setting : NoDataConfigV1 := mkConfig 5 ["host"]%string 2 86400 "STRATEGY".

Lemma setting_accepted : config_accepted setting.
Proof. split; try done; try (by right; split; [done|right]); try (apply (bool_decide_unpack _); by vm_compute). Qed.

Example config_well_formed_witness :
  is_ok (ValidateNoDataConfig setting) = true ∧ ValidateNoDataConfig valid_setting = Ok valid_setting.
Proof.
  destruct (config_well_formed setting) as [Hok Hvalid]. split; [apply Hok, setting_accepted|].
  assert (ValidateNoDataConfig setting = Ok valid_setting) as Hv by (by vm_compute). apply (Hvalid valid_setting Hv).
Defined.

Lemma valid_accepted : config_accepted valid_setting.
Proof. split; try done; try (by right; split; [done|right]); try (apply (bool_decide_unpack _); by vm_compute). Qed.

Definition named_digest (source : string) (keys : list string) : option string := Some (String "r"%char (source +:+ join "," keys)).

Lemma named_total source keys : ∃ d, named_digest source keys = Some d ∧ d ≠ ""%string.
Proof. by eexists. Qed.
Lemma keys_total payload : ∃ d, keys_digest payload = Some d ∧ d ≠ ""%string.
Proof. by eexists. Qed.
Lemma some_total mu : ∃ s, some_digest mu = Some s ∧ s ≠ ""%string.
Proof. by eexists. Qed.

(** The round at [now] in which [hosts] reported. *)
Definition host_series (name : string) : gmap string string := {[ "host"%string := name ]}.
Definition plan_input (now : Z) (hosts : list string) : PlanSlotInput :=
  mkPlanSlotInput (Some valid_setting) None None None false example_identity missing (mkVersion 1 now "slot") "schedule" now 60
    CompletenessFull (host_series <$> hosts) ∅ false ∅ 86400.

Definition history_class : RosterClass := mkClass RosterHistory [] None.

Lemma input_accepted now hosts sn :
  0 < now → sn_Identity sn = example_identity → PresentAsOf sn < now →
  accepted (with_snapshot sn (plan_input now hosts)) valid_setting history_class.
Proof.
  intros Hnow Hid Hp. split; cbn.
  - done.
  - apply valid_accepted.
  - done.
  - done.
  - done.
  - split; [done|]. unfold version_valid. cbn. destruct (Z.leb_spec now 0); [lia|done].
  - lia.
Qed.

Lemma input_vouched now hosts : 0 < now → vouched example_identity valid_setting history_class (plan_input now hosts).
Proof. intros Hnow. split; [done| |done]. intros sn Hid Hp. by apply input_accepted. Qed.

Definition four_rounds : list PlanSlotInput :=
  [plan_input 60 ["a"; "b"]; plan_input 120 ["a"]; plan_input 180 ["a"]; plan_input 240 ["a"; "b"]]%string.

Definition four_run : RoundEnd + list PlanSlotResult * HashKey :=
  plan_rounds named_digest AbsenceRounds.canonical keys_digest some_digest 100 3600 four_rounds missing_key.

(** What the four rounds say: the item as a whole has data, and of the silent host. *)
Example silent_host :
  match four_run with
  | inr (slots, _) =>
      (λ slot, (λ s, (Key (ss_Group s), ss_Value s, Periods s)) <$> slot_Series slot) <$> slots
      = [[("__NO_DATA_DIMENSION__=true", 0, 0); ("host=a,__NO_DATA_DIMENSION__=true", 0, 0); ("host=b,__NO_DATA_DIMENSION__=true", 0, 0)];
         [("__NO_DATA_DIMENSION__=true", 0, 0); ("host=a,__NO_DATA_DIMENSION__=true", 0, 0); ("host=b,__NO_DATA_DIMENSION__=true", 1, 1)];
         [("__NO_DATA_DIMENSION__=true", 0, 0); ("host=a,__NO_DATA_DIMENSION__=true", 0, 0); ("host=b,__NO_DATA_DIMENSION__=true", 1, 2)];
         [("__NO_DATA_DIMENSION__=true", 0, 0); ("host=a,__NO_DATA_DIMENSION__=true", 0, 0); ("host=b,__NO_DATA_DIMENSION__=true", 0, 0)]]%string
  | inl _ => False
  end.
Proof. by vm_compute. Qed.

Example plan_never_stuck_witness :
  ∃ slots key, four_run = inr (slots, key) ∧
    rounds_done named_digest AbsenceRounds.canonical keys_digest some_digest 100 3600 example_identity valid_setting history_class
      four_rounds missing_key slots key.
Proof.
  pose proof silent_host as Hrun.
  pose proof (plan_never_stuck named_digest AbsenceRounds.canonical keys_digest some_digest 100 3600 canonical_iterates
    named_total keys_total some_total example_identity valid_setting history_class four_rounds) as H.
  fold four_run in H. destruct four_run as [stuck|[slots key]]; [done|]. exists slots, key. split; [done|].
  apply H; [|by repeat constructor|done].
  unfold four_rounds. repeat (apply Forall_cons_2; [by apply input_vouched|]). apply Forall_nil_2.
Defined.

(** Under a limit of one group the first round, which remembers two, is refused. *)
Example limit_stops :
  plan_rounds named_digest AbsenceRounds.canonical keys_digest some_digest 1 3600 four_rounds missing_key
  = inl (RoundRefused (NoDataRejected ReasonStateBudgetExceeded (Some (2, 1)))).
Proof. by vm_compute. Qed.

Example round_keeps_record_witness :
  ∃ slot mu outcome,
    EvaluatePlanSlot named_digest AbsenceRounds.canonical keys_digest some_digest (with_snapshot missing (plan_input 60 ["a"]))%string = Ok slot ∧
    Mutation slot = Some mu ∧ mu_GroupCount mu = 1 ∧ size (Memory outcome) = 1%nat ∧
    stores keys_digest some_digest (with_snapshot missing (plan_input 60 ["a"]))%string outcome (Some mu).
Proof.
  pose proof (round_keeps_record named_digest AbsenceRounds.canonical keys_digest some_digest canonical_iterates
    named_total keys_total some_total
    (with_snapshot missing (plan_input 60 ["a"%string])) valid_setting history_class) as H.
  assert (match EvaluatePlanSlot named_digest AbsenceRounds.canonical keys_digest some_digest (with_snapshot missing (plan_input 60 ["a"%string])) with
          | Ok slot => mu_GroupCount <$> Mutation slot = Some 1 | Err _ => False end) as Hok by (by vm_compute).
  destruct (EvaluatePlanSlot _ _ _ _ _) as [slot|e]; [|done].
  destruct H as (_ & _ & Hj).
  - by apply input_accepted.
  - split; [by left|]. split; [by repeat constructor|constructor|done|done].
  - destruct Hj as (outcome & _ & _ & _ & Hstores); [by split_and!|].
    destruct (Mutation slot) as [mu|] eqn:Hmu; [|done]. injection Hok as Hg. exists slot, mu, outcome.
    pose proof Hstores as (_ & _ & _ & _ & _ & _ & _ & _ & Hc & _). split_and!; [done|exact Hmu|exact Hg|lia|exact Hstores].
Defined.

(** The second round's evaluation, over the record the first left. *)
Definition host_group (name : string) : Group := mkGroup [mkDimension "host" name].
Definition second_absence : AbsenceInput :=
  mkAbsenceInput 120 60 CompletenessFull {[ Key (host_group "a") := host_group "a" ]} 0
    (mkRoster "r" RosterHistory (<[Key (host_group "a") := host_group "a"]> {[ Key (host_group "b") := host_group "b" ]}))
    (<[Key (host_group "a") := mkMemory 60 0 0]> {[ Key (host_group "b") := mkMemory 60 0 0 ]}) ∅ 0 0.
Definition second_synthetic : SyntheticInput :=
  mkSyntheticInput 120 60 (Evaluate (AbsenceRounds.canonical second_absence) second_absence) (Memory (Evaluate (AbsenceRounds.canonical second_absence) second_absence))
    (in_Roster second_absence).

Lemma host_names name : names_group (Key (host_group name)) (host_group name).
Proof. apply names_group_Key; [by apply Forall_cons_2|repeat constructor]. Qed.

Lemma three_series : match SyntheticSeriesFor second_synthetic with Ok series => length series = 3%nat | Err _ => False end.
Proof. by vm_compute. Qed.

Example series_speak_verdicts_witness :
  ∃ series, SyntheticSeriesFor second_synthetic = Ok series ∧ length series = 3%nat.
Proof.
  destruct (series_speak_verdicts (AbsenceRounds.canonical second_absence) second_absence second_synthetic) as (keys & series & Hs & _).
  - apply canonical_iterates.
  - done.
  - done.
  - done.
  - done.
  - intros key g. unfold second_absence. cbn [Present]. intros [<- <-]%lookup_singleton_Some. exists (host_group "a"). apply host_names.
  - intros key g. unfold second_absence. cbn [in_Roster ro_Groups]. intros [[<- <-]|[_ [<- <-]%lookup_singleton_Some]]%lookup_insert_Some; apply host_names.
  - intros key e. unfold second_absence. cbn [in_Memory]. intros [[<- <-]|[_ [<- <-]%lookup_singleton_Some]]%lookup_insert_Some;
      (split; [eexists; apply host_names|split; [split; cbn; lia|cbn; lia]]).
  - done.
  - done.
  - exists series. split; [done|].
    pose proof three_series as Hl. by rewrite Hs in Hl.
Defined.
