(* ===== verification/CompileCache.v ===== *)
(** The compile cache (strategy/cache.go) and the compiler that uses it (strategy/compiler.go,
    [Compile]): entries by key in the order they were last used, within two budgets, and a
    memory of the keys content was found to have. *)
From S2P Require Import Prelude Roster NoDataSlot TargetPlan Trigger Decimal AlgorithmInput Predicate ThresholdCompiler.
From S2P Require Import EffectiveTime CalendarRules LevelCompiler PlanCompiler.

Open Scope Z_scope.

(** ** The cache (strategy/cache.go) *)

Record CacheStats : Type := mkStats {
  Hits : Z;
  Misses : Z;
  NegativeHits : Z;
  Evictions : Z;
  Entries : Z;
  stat_Bytes : Z;
}.

Section cache.
(** What is cached. *)
Context {R : Type}.

Record compileCacheEntry : Type := mkEntry {
  e_key : string;
  e_result : R;
  e_size : Z;
  e_negative : bool;
  e_expiresAt : Z;
}.

(** [entries] is the map, and [lru] the list its elements are in, the last used first. An
    element is the entry it holds, found by its key. *)
Record compileCache : Type := mkCache {
  c_entries : gmap string compileCacheEntry;
  lru : list string;
  maxEntries : Z;
  maxBytes : Z;
  negativeTTL : Z;
  c_bytes : Z;
  c_stats : CacheStats;
}.

Definition newCompileCache (maxEntries maxBytes negativeTTL : Z) : compileCache :=
  mkCache ∅ [] maxEntries maxBytes negativeTTL 0 (mkStats 0 0 0 0 0 0).

Definition count_hit (negative : bool) (s : CacheStats) : CacheStats :=
  mkStats (u64 (Hits s + 1)) (Misses s) (if negative then u64 (NegativeHits s + 1) else NegativeHits s) (Evictions s) (Entries s) (stat_Bytes s).
Definition count_miss (s : CacheStats) : CacheStats :=
  mkStats (Hits s) (u64 (Misses s + 1)) (NegativeHits s) (Evictions s) (Entries s) (stat_Bytes s).
Definition count_eviction (s : CacheStats) : CacheStats :=
  mkStats (Hits s) (Misses s) (NegativeHits s) (u64 (Evictions s + 1)) (Entries s) (stat_Bytes s).

Definition with_stats (c : compileCache) (stats : CacheStats) : compileCache :=
  mkCache (c_entries c) (lru c) (maxEntries c) (maxBytes c) (negativeTTL c) (c_bytes c) stats.

(** [list.Remove] of an element: it is in the list once. *)
Definition list_remove (key : string) (keys : list string) : list string := filter (λ k, k ≠ key) keys.

(** [remove] of the element of a key; there may be none. *)
Definition cache_remove (c : compileCache) (element : option string) (eviction : bool) : compileCache :=
  match element with
  | None => c
  | Some key =>
      match c_entries c !! key with
      | None => c
      | Some entry =>
          mkCache (delete key (c_entries c)) (list_remove key (lru c)) (maxEntries c) (maxBytes c) (negativeTTL c)
            (i64 (c_bytes c - e_size entry)) (if eviction then count_eviction (c_stats c) else c_stats c)
      end
  end.

Definition cache_get (c : compileCache) (key : string) (now : Z) : compileCache * option R :=
  match c_entries c !! key with
  | None => (with_stats c (count_miss (c_stats c)), None)
  | Some entry =>
      if e_negative entry && negb (now <? e_expiresAt entry) then
        let c := cache_remove c (Some key) false in (with_stats c (count_miss (c_stats c)), None)
      else
        (mkCache (c_entries c) (key :: list_remove key (lru c)) (maxEntries c) (maxBytes c) (negativeTTL c) (c_bytes c)
           (count_hit (e_negative entry) (c_stats c)),
         Some (e_result entry))
  end.

Definition over_budget (c : compileCache) : bool := (maxEntries c <? Z.of_nat (size (c_entries c))) || (maxBytes c <? c_bytes c).

(** The loop that evicts the last used, on fuel: none left means it has not ended. *)
Fixpoint evict (fuel : nat) (c : compileCache) : option compileCache :=
  if over_budget c then
    match fuel with
    | O => None
    | S fuel => evict fuel (cache_remove c (last (lru c)) true)
    end
  else Some c.

Definition cache_insert (c : compileCache) (key : string) (result : R) (size : Z) (negative : bool) (now : Z) : compileCache :=
  let c := match c_entries c !! key with Some _ => cache_remove c (Some key) false | None => c end in
  let entry := mkEntry key result size negative (if negative then now + negativeTTL c else 0) in
  mkCache (<[key := entry]> (c_entries c)) (key :: lru c) (maxEntries c) (maxBytes c) (negativeTTL c) (i64 (c_bytes c + size)) (c_stats c).

(** [put]; none when the loop does not end. *)
Definition cache_put (c : compileCache) (key : string) (result : R) (size : Z) (negative : bool) (now : Z) : option compileCache :=
  if (size <=? 0) || (maxBytes c <? size) then Some c
  else
    let c := cache_insert c key result size negative now in
    evict (length (lru c)) c.

Definition snapshot (c : compileCache) : CacheStats :=
  let s := c_stats c in
  mkStats (Hits s) (Misses s) (NegativeHits s) (Evictions s) (Z.of_nat (base.size (c_entries c))) (c_bytes c).
End cache.
Arguments compileCache : clear implicits.
Arguments compileCacheEntry : clear implicits.

(** ** The compiler (strategy/compiler.go) *)

#[export] Instance StateSemantics_countable : Countable StateSemantics.
Proof.
  refine (inj_countable' (λ s, (StateSchemaVersion s, CodecSemanticsVersion s, IdentitySchemaDigest s,
                                SourceTimeSemanticsVersion s, HistoryCellSemanticsVersion s))
            (λ '(a, b, c, d, e), mkStateSemantics a b c d e) _).
  by intros [].
Defined.

Definition compileKeyMemoEntries : Z := 8192.

(** The limits of the cache, and the budgets' revision. *)
Record CacheLimits : Type := mkCacheLimits {
  MaxCacheEntries : Z;
  MaxCacheBytes : Z;
  NegativeCacheTTL : Z;
  BudgetRevision : string;
}.

(** Canonical digests, none when a value does not encode: of the budgets, of a Plan's JSON, of
    the state semantics, and of a cache key's five parts. *)
Class CompileKeys : Type := {
  budget_digest : Limits → string → option string;
  plan_semantic_digest : PlanWire → option string;
  state_semantics_digest : StateSemantics → option string;
  compile_cache_key : string → string → string → string → string → option string;
}.

Record PlanCompiler : Type := mkCompiler {
  cache : compileCache CompileResult;
  keys : gmap (string * StateSemantics) string;
}.

Definition with_cache (c : PlanCompiler) (cache : compileCache CompileResult) : PlanCompiler := mkCompiler cache (keys c).

Definition budgets_positive (limits : Limits) (cacheLimits : CacheLimits) : bool :=
  negb ((MaxPlanBytes limits <=? 0) || (MaxLevelsPerPlan limits <=? 0) || (MaxAlgorithmsPerLevel limits <=? 0)
        || (MaxGroupsPerAlgorithm limits <=? 0) || (MaxConditionsPerAlgorithm limits <=? 0) || (MaxASTNodesPerLevel limits <=? 0)
        || (MaxTriggerWindowSize limits =? 0) || (MaxRecoveryConsecutiveWindows limits =? 0) || (MaxRequiredHistoryPoints limits =? 0)
        || (MaxTriggerComputeCost limits =? 0) || (MaxCompiledPlanBytes limits <=? 0) || (MaxCacheEntries cacheLimits <=? 0)
        || (MaxCacheBytes cacheLimits <=? 0) || (NegativeCacheTTL cacheLimits <=? 0) || (BudgetRevision cacheLimits =? "")%string).

(** The compiler, and the digest of its budgets. *)
Definition NewCompiler `{Keys : !CompileKeys} (registry : AlgorithmCompilerRegistry) (limits : Limits) (cacheLimits : CacheLimits)
    : result string (PlanCompiler * string) :=
  if bool_decide (size registry = 0%nat) then Err "strategy: algorithm registry is empty"%string
  else if negb (budgets_positive limits cacheLimits) then Err "strategy: deployment budgets must be positive"%string
  else
    match budget_digest limits (BudgetRevision cacheLimits) with
    | None => Err "strategy: derive compiler budget digest"%string
    | Some digest =>
        Ok (mkCompiler (newCompileCache (MaxCacheEntries cacheLimits) (MaxCacheBytes cacheLimits) (NegativeCacheTTL cacheLimits)) ∅, digest)
    end.

Definition terminal_bytes (size : Z) (terminal : Terminal) : Z :=
  size + text_size (term_ReasonCode terminal) + text_size (term_FieldPath terminal) + 32.

Definition estimateCompileResultBytes (result : CompileResult) : Z :=
  let size := 64 + match res_plan result with Some plan => CompiledBytes (cp_resourceEstimate plan) | None => 0 end in
  let size := match res_planTerminal result with Some terminal => terminal_bytes size terminal | None => size end in
  foldl terminal_bytes size (res_levelTerminals result).

Definition is_negative (result : CompileResult) : bool :=
  bool_decide (is_Some (res_planTerminal result)) || bool_decide (res_levelTerminals result ≠ []).

Section compile.
Context `{Digests : !CompilerDigests, Codec : !ConfigCodec, Encoder : !ConfigEncoder, Plans : !PlanDigests, Keys : !CompileKeys}.
Variable registry : AlgorithmCompilerRegistry.
Variable limits : Limits.
Variable boundaryLocation : option Location.
Variable capabilityDigest : string.
Variable budgetDigest : string.

Definition deriveCompileCacheKey (request : CompileRequest) : option string :=
  planDigest ← plan_semantic_digest (MarshalJSON (cq_Plan request));
  datasetDigest ← dataset_digest (DatasetContract request);
  stateDigest ← state_semantics_digest (cq_StateSemantics request);
  compile_cache_key planDigest capabilityDigest datasetDigest stateDigest budgetDigest.

Definition memo_key (request : CompileRequest) : string * StateSemantics := (ContentKey request, cq_StateSemantics request).

Definition memo_store (c : PlanCompiler) (request : CompileRequest) (key : string) : PlanCompiler :=
  let known := if compileKeyMemoEntries <=? Z.of_nat (size (keys c)) then ∅ else keys c in
  mkCompiler (cache c) (<[memo_key request := key]> known).

(** A call's answer, and where a call of [Compile] is between two accesses to what calls
    share: it has looked for its key in vain, has a key or none, has missed the cache, has
    compiled. *)
Inductive Answer : Type :=
  | Cancelled
  | Replied (result : result string CompileResult).

Inductive phase : Type :=
  | Asked
  | Deriving
  | Unkeyed
  | Keyed (key : string)
  | Missed (key : string)
  | Compiled (key : string) (result : CompileResult)
  | Answered (answer : Answer)
  | Looping.

(** One step of a call of [Compile]: up to its next access to what calls share. [cancelled]
    is what its context says there, and [now] the clock. *)
Definition call_step (cancelled : bool) (now : Z) (c : PlanCompiler) (request : CompileRequest) (p : phase) : PlanCompiler * phase :=
  match p with
  | Asked =>
      if cancelled then (c, Answered Cancelled)
      else if (ContentKey request =? "")%string then
        (c, match deriveCompileCacheKey request with None => Unkeyed | Some key => Keyed key end)
      else (c, match keys c !! memo_key request with Some key => Keyed key | None => Deriving end)
  | Deriving =>
      match deriveCompileCacheKey request with
      | None => (c, Unkeyed)
      | Some key => (memo_store c request key, Keyed key)
      end
  | Unkeyed => (c, Answered (if cancelled then Cancelled else Replied (compileUncached registry limits boundaryLocation request)))
  | Keyed key =>
      let '(cache, found) := cache_get (cache c) key now in
      (with_cache c cache, match found with Some result => Answered (Replied (Ok result)) | None => Missed key end)
  | Missed key =>
      if cancelled then (c, Answered Cancelled)
      else
        (c, match compileUncached registry limits boundaryLocation request with
            | Err detail => Answered (Replied (Err detail))
            | Ok result => Compiled key result
            end)
  | Compiled key result =>
      match cache_put (cache c) key result (estimateCompileResultBytes result) (is_negative result) now with
      | None => (c, Looping)
      | Some cache => (with_cache c cache, Answered (Replied (Ok result)))
      end
  | Answered _ | Looping => (c, p)
  end.

(** A call nothing comes between. *)
Definition alone (now : Z) (request : CompileRequest) (state : PlanCompiler * phase) : PlanCompiler * phase :=
  call_step false now state.1 request state.2.
Definition Compile (now : Z) (c : PlanCompiler) (request : CompileRequest) : PlanCompiler * phase :=
  Nat.iter 5 (alone now request) (c, Asked).

(** ** Calls beside each other *)

Record calls_state : Type := mkCalls {
  compiler : PlanCompiler;
  calls : list (CompileRequest * phase);
}.

Inductive event : Type :=
  | Ask (request : CompileRequest)
  | Move (index : nat) (cancelled : bool) (now : Z).

Definition happens (s : calls_state) (e : event) : calls_state :=
  match e with
  | Ask request => mkCalls (compiler s) (calls s ++ [(request, Asked)])
  | Move index cancelled now =>
      match calls s !! index with
      | None => s
      | Some (request, p) =>
          let '(c, p) := call_step cancelled now (compiler s) request p in
          mkCalls c (<[index := (request, p)]> (calls s))
      end
  end.

Definition run (s : calls_state) (events : list event) : calls_state := foldl happens s events.
End compile.
