(* ===== verification/CompileCacheSpec.v ===== *)
(** What the compile cache promises: it stays within its budgets, its loop ends, and it keeps
    what was last used. *)
From S2P Require Import Prelude CompileCache.

Open Scope Z_scope.

(** ** The cache *)

Section cache.
Context {R : Type}.
Implicit Types c : compileCache R.

(** What is held for a key, and for a list of them. *)
Definition held_bytes c (key : string) : Z := match c_entries c !! key with Some entry => e_size entry | None => 0 end.
Definition total_bytes c (keys : list string) : Z := foldr (λ key total, held_bytes c key + total) 0 keys.

(** The map and the list hold the same entries, and the count of bytes is theirs. *)
Record cache_consistent c : Prop := {
  lru_once : NoDup (lru c);
  lru_entries : ∀ key, key ∈ lru c ↔ is_Some (c_entries c !! key);
  entry_sized : ∀ key entry, c_entries c !! key = Some entry → e_key entry = key ∧ 0 < e_size entry <= maxBytes c;
  bytes_held : c_bytes c = total_bytes c (lru c);
  bytes_fit : c_bytes c < 2 ^ 63;
  budgets : 0 < maxEntries c ∧ 0 < maxBytes c < 2 ^ 62;
}.

Definition within_budget c (keys : list string) : Prop := Z.of_nat (length keys) <= maxEntries c ∧ total_bytes c keys <= maxBytes c.

(** What a cache keeps between calls. *)
Definition cache_sound c : Prop := cache_consistent c ∧ within_budget c (lru c).

Lemma entries_length c : cache_consistent c → size (c_entries c) = length (lru c).
Proof.
  intros Hc. rewrite <- size_dom. rewrite <- (size_list_to_set (C:=gset string) (lru c)) by apply Hc.
  f_equal. apply set_eq. intros key. rewrite elem_of_dom, elem_of_list_to_set. symmetry. apply Hc.
Qed.

Lemma over_budget_spec c : cache_consistent c → over_budget c = false ↔ within_budget c (lru c).
Proof.
  intros Hc. unfold over_budget, within_budget. rewrite entries_length, (bytes_held c) by done.
  rewrite orb_false_iff, !Z.ltb_ge. done.
Qed.

Lemma total_bytes_cons c k l : total_bytes c (k :: l) = held_bytes c k + total_bytes c l.
Proof. done. Qed.

Lemma total_bytes_ext c c' l : (∀ key, key ∈ l → held_bytes c' key = held_bytes c key) → total_bytes c' l = total_bytes c l.
Proof.
  induction l as [|k l IH]; [done|]. intros H. rewrite !total_bytes_cons, H by left. f_equal. apply IH. intros key ?. apply H. by right.
Qed.

Lemma held_nonneg c key : cache_consistent c → 0 <= held_bytes c key.
Proof. intros Hc. unfold held_bytes. destruct (c_entries c !! key) eqn:E; [|lia]. apply Hc in E. lia. Qed.

Lemma total_nonneg c l : cache_consistent c → 0 <= total_bytes c l.
Proof. intros Hc. induction l as [|k l IH]; [done|]. rewrite total_bytes_cons. pose proof (held_nonneg c k Hc). lia. Qed.

Lemma total_bytes_app c l l' : total_bytes c (l ++ l') = total_bytes c l + total_bytes c l'.
Proof. induction l as [|k l IH]; [done|]. cbn [app]. rewrite !total_bytes_cons, IH. lia. Qed.

Lemma list_remove_absent key l : key ∉ l → list_remove key l = l.
Proof. intros H. apply filter_every. intros k Hk ->. done. Qed.

Lemma list_remove_split key l1 l2 : key ∉ l1 → key ∉ l2 → list_remove key (l1 ++ key :: l2) = l1 ++ l2.
Proof.
  intros H1 H2. unfold list_remove. rewrite filter_app, filter_cons_False by (intros H; by apply H).
  f_equal; by apply list_remove_absent.
Qed.

Lemma list_remove_total c key : NoDup (lru c) → key ∈ lru c →
  total_bytes c (lru c) = held_bytes c key + total_bytes c (list_remove key (lru c)).
Proof.
  intros Hd Hk. apply list_elem_of_split in Hk as (l1 & l2 & E). rewrite E in *.
  apply NoDup_app in Hd as (_ & H1 & [H2 _]%NoDup_cons). rewrite list_remove_split by (try done; intros H; apply (H1 _ H); left).
  rewrite !total_bytes_app, total_bytes_cons. lia.
Qed.
(** *** Removal *)

Lemma remove_found c key entry eviction : c_entries c !! key = Some entry →
  cache_remove c (Some key) eviction =
  mkCache (delete key (c_entries c)) (list_remove key (lru c)) (maxEntries c) (maxBytes c) (negativeTTL c)
    (i64 (c_bytes c - e_size entry)) (if eviction then count_eviction (c_stats c) else c_stats c).
Proof. unfold cache_remove. by intros ->. Qed.

Lemma elem_of_list_remove key key' l : key' ∈ list_remove key l ↔ key' ≠ key ∧ key' ∈ l.
Proof. unfold list_remove. by rewrite list_elem_of_filter. Qed.

Lemma remove_consistent c key entry eviction :
  cache_consistent c → c_entries c !! key = Some entry → cache_consistent (cache_remove c (Some key) eviction).
Proof.
  intros Hc He. rewrite (remove_found _ _ entry) by done.
  assert (key ∈ lru c) as Hin by (apply (lru_entries _ Hc); by eexists).
  pose proof (list_remove_total c key (lru_once _ Hc) Hin) as Ht. pose proof (entry_sized _ Hc _ _ He) as [_ Hsize].
  pose proof (total_nonneg c (list_remove key (lru c)) Hc) as Hn. pose proof (bytes_fit _ Hc). pose proof (bytes_held _ Hc) as Hb.
  unfold held_bytes in Ht at 1. rewrite He in Ht. rewrite i64_id by go_lia.
  split; cbn [lru c_entries c_bytes maxEntries maxBytes]; [by apply NoDup_filter, Hc| | | |lia|apply Hc].
  - intros key'. rewrite elem_of_list_remove, (lru_entries _ Hc), lookup_delete_is_Some. naive_solver.
  - intros key' entry' [_ He']%lookup_delete_Some. by apply (entry_sized _ Hc).
  - rewrite Hb, Ht. transitivity (total_bytes c (list_remove key (lru c))); [lia|]. symmetry. apply total_bytes_ext.
    intros key' [Hne _]%elem_of_list_remove. unfold held_bytes. cbn. by rewrite lookup_delete_ne.
Qed.

(** *** Eviction *)

Lemma take_snoc_le {A} n (l : list A) x : (n <= length l)%nat → take n (l ++ [x]) = take n l.
Proof. intros. by apply take_app_le. Qed.

(** The loop ends with the longest prefix that fits, its entries as they were. *)
Record evicted c c' (n : nat) : Prop := {
  ev_consistent : cache_consistent c';
  ev_count : (n <= length (lru c))%nat;
  ev_lru : lru c' = take n (lru c);
  ev_entries : ∀ key, key ∈ lru c' → c_entries c' !! key = c_entries c !! key;
  ev_fits : within_budget c (lru c');
  ev_longest : ∀ m, (n < m <= length (lru c))%nat → ¬ within_budget c (take m (lru c));
  ev_limits : maxEntries c' = maxEntries c ∧ maxBytes c' = maxBytes c ∧ negativeTTL c' = negativeTTL c;
}.

Lemma within_transfer c c' l : maxEntries c' = maxEntries c → maxBytes c' = maxBytes c →
  (∀ key, key ∈ l → held_bytes c' key = held_bytes c key) → within_budget c' l ↔ within_budget c l.
Proof. intros He Hb Hl. unfold within_budget. by rewrite He, Hb, (total_bytes_ext c c'). Qed.

Lemma over_budget_last c : cache_consistent c → over_budget c = true →
  ∃ l x entry, lru c = l ++ [x] ∧ last (lru c) = Some x ∧ x ∉ l ∧ c_entries c !! x = Some entry.
Proof.
  intros Hc Ho. destruct (budgets _ Hc) as [? ?]. destruct (lru c) as [|y l'] eqn:E using rev_ind.
  - rewrite (proj2 (over_budget_spec c Hc)) in Ho; [done|]. unfold within_budget. rewrite E. cbn. lia.
  - pose proof (lru_once _ Hc) as Hd. rewrite E in Hd. apply NoDup_app in Hd as (_ & Hn & _).
    assert (y ∈ lru c) as [entry He]%(lru_entries _ Hc) by (rewrite E; set_solver).
    exists l', y, entry. split_and!; [done|by rewrite last_snoc| |done]. intros Hin. apply (Hn _ Hin). by left.
Qed.

Lemma evict_spec fuel c : cache_consistent c → (length (lru c) <= fuel)%nat → ∃ c' n, evict fuel c = Some c' ∧ evicted c c' n.
Proof.
  revert c. induction fuel as [|fuel IH]; intros c Hc Hf; destruct (over_budget c) eqn:Ho.
  2,4: exists c, (length (lru c)); cbn; rewrite Ho; (split; [done|]); apply over_budget_spec in Ho; [|done];
       split; rewrite ?firstn_all; try done; lia.
  all: destruct (over_budget_last c Hc Ho) as (l & x & entry & E & Hlast & Hx & He).
  { rewrite E, length_app in Hf. cbn in Hf. lia. }
  cbn. rewrite Ho, Hlast. set (c1 := cache_remove c (Some x) true).
  assert (lru c1 = l) as E1.
  { subst c1. rewrite (remove_found _ _ entry) by done. cbn. rewrite E, list_remove_split by (done || by apply not_elem_of_nil).
    by rewrite app_nil_r. }
  assert (∀ key, key ∈ l → c_entries c1 !! key = c_entries c !! key) as Hkeep.
  { intros key Hk. subst c1. rewrite (remove_found _ _ entry) by done. apply lookup_delete_ne. by intros ->. }
  assert (maxEntries c1 = maxEntries c ∧ maxBytes c1 = maxBytes c ∧ negativeTTL c1 = negativeTTL c) as (Hm & Hb & Ht).
  { subst c1. by rewrite (remove_found _ _ entry). }
  assert (∀ m, (m <= length l)%nat → within_budget c1 (take m l) ↔ within_budget c (take m l)) as Hw.
  { intros m _. apply within_transfer; [done..|]. intros key Hk%elem_of_take. unfold held_bytes. rewrite Hkeep; [done|].
    destruct Hk as (? & ? & _). by eapply list_elem_of_lookup_2. }
  destruct (IH c1) as (c' & n & Hev & [Hc' Hn Hl Hent Hfit Hlong Hlim]); [by eapply remove_consistent|rewrite E1|].
  { rewrite E, length_app in Hf. cbn in Hf. lia. }
  rewrite E1 in *. exists c', n. split; [done|]. split; rewrite ?E, ?length_app; cbn; [done|lia| | | | |].
  - rewrite Hl. symmetry. by apply take_app_le.
  - intros key Hk. rewrite Hent by done. apply Hkeep. rewrite Hl in Hk. apply elem_of_take in Hk as (? & ? & _). by eapply list_elem_of_lookup_2.
  - rewrite Hl in *. by apply Hw.
  - intros m Hm'. destruct (decide (m <= length l)%nat).
    + rewrite take_app_le by done. rewrite <- Hw by done. apply Hlong. lia.
    + rewrite take_ge by (rewrite length_app; cbn; lia). rewrite <- E. rewrite <- over_budget_spec by done. by rewrite Ho.
  - rewrite Hm, Hb, Ht in Hlim. done.
Qed.
(** *** [put] *)

(** The entries without a key, whether there was one or not. *)
Lemma dropped c key : cache_sound c →
  let c1 := match c_entries c !! key with Some _ => cache_remove c (Some key) false | None => c end in
  cache_consistent c1 ∧ lru c1 = list_remove key (lru c) ∧ c_entries c1 = delete key (c_entries c) ∧ c_bytes c1 <= maxBytes c
  ∧ maxEntries c1 = maxEntries c ∧ maxBytes c1 = maxBytes c ∧ negativeTTL c1 = negativeTTL c.
Proof.
  intros [Hc [_ Hb]]. rewrite <- (bytes_held _ Hc) in Hb. destruct (c_entries c !! key) as [entry|] eqn:He.
  - cbn zeta. split; [by eapply remove_consistent|]. rewrite (remove_found _ _ entry) by done. cbn. split_and!; try done.
    pose proof (entry_sized _ Hc _ _ He). pose proof (bytes_fit _ Hc). pose proof (budgets _ Hc).
    pose proof (total_nonneg c (lru c) Hc). rewrite <- (bytes_held _ Hc) in *. rewrite i64_id by go_lia. lia.
  - cbn zeta. rewrite list_remove_absent, delete_id by (done || rewrite (lru_entries _ Hc), He; by intros []). done.
Qed.

Definition put_entry c (key : string) (result : R) (size : Z) (negative : bool) (now : Z) : compileCacheEntry R :=
  mkEntry key result size negative (if negative then now + negativeTTL c else 0).

Lemma insert_spec c key result size negative now : cache_sound c → 0 < size <= maxBytes c →
  let c' := cache_insert c key result size negative now in
  cache_consistent c' ∧ lru c' = key :: list_remove key (lru c)
  ∧ c_entries c' = <[key := put_entry c key result size negative now]> (c_entries c)
  ∧ maxEntries c' = maxEntries c ∧ maxBytes c' = maxBytes c ∧ negativeTTL c' = negativeTTL c.
Proof.
  intros Hs Hsize. pose proof (dropped c key Hs) as H. cbn zeta in H. unfold cache_insert.
  set (c1 := match c_entries c !! key with Some _ => _ | None => c end) in *.
  destruct H as (Hc & Hl & He & Hb & Hm & HB & Ht). cbn. rewrite Hl, He, Hm, HB, Ht. split_and!; try done; [|by rewrite insert_delete_eq].
  destruct (budgets _ Hc) as [? ?]. pose proof (total_nonneg c1 (lru c1) Hc) as Hn. rewrite <- (bytes_held _ Hc) in Hn. rewrite HB in *.
  rewrite i64_id by go_lia.
  assert (key ∉ list_remove key (lru c)) as Hnew by (rewrite elem_of_list_remove; tauto).
  split; cbn [lru c_entries c_bytes maxEntries maxBytes]; [| | | |lia|lia].
  - apply NoDup_cons. split; [done|]. rewrite <- Hl. apply Hc.
  - intros key'. rewrite elem_of_cons, <- Hl, (lru_entries _ Hc), He. rewrite lookup_insert_is_Some. destruct (decide (key' = key)); naive_solver.
  - intros key' entry. destruct (decide (key' = key)) as [->|?]; [rewrite lookup_insert_eq|rewrite lookup_insert_ne by done].
    + intros [= <-]. cbn. split; [done|lia].
    + rewrite <- He. intros Hk%(entry_sized _ Hc). by rewrite HB in Hk.
  - rewrite total_bytes_cons, (bytes_held _ Hc), Hl. unfold held_bytes at 1. cbn. rewrite lookup_insert_eq. cbn. rewrite Z.add_comm. f_equal.
    symmetry. apply total_bytes_ext. intros key' Hk. unfold held_bytes. cbn. rewrite lookup_insert_ne by (intros ->; done). by rewrite He.
Qed.
Definition refused_size c (size : Z) : bool := (size <=? 0) || (maxBytes c <? size).

(** What a key holds once another is put. *)
Definition bytes_with c (key : string) (size : Z) (key' : string) : Z := if (key' =? key)%string then size else held_bytes c key'.
Definition fits_with c (key : string) (size : Z) (keys : list string) : Prop :=
  Z.of_nat (length keys) <= maxEntries c ∧ foldr (λ key' total, bytes_with c key size key' + total) 0 keys <= maxBytes c.

Lemma fits_inserted c key result size negative now l : cache_sound c → 0 < size <= maxBytes c →
  within_budget (cache_insert c key result size negative now) l ↔ fits_with c key size l.
Proof.
  intros Hs Hsize. destruct (insert_spec c key result size negative now Hs Hsize) as (_ & _ & He & Hm & HB & _).
  unfold within_budget, fits_with, total_bytes. rewrite Hm, HB.
  assert (∀ key', held_bytes (cache_insert c key result size negative now) key' = bytes_with c key size key') as Hk.
  { intros key'. unfold held_bytes, bytes_with. rewrite He. destruct (String.eqb_spec key' key) as [->|?].
    - by rewrite lookup_insert_eq.
    - by rewrite lookup_insert_ne. }
  rewrite (foldr_ext _ (λ key' total, bytes_with c key size key' + total) 0 0 l l); [done| |done..]. intros k total. by rewrite Hk.
Qed.

Lemma put_spec c key result size negative now : cache_sound c → 0 < size <= maxBytes c →
  ∃ c' n, cache_put c key result size negative now = Some c' ∧ cache_sound c' ∧ (1 <= n)%nat
    ∧ lru c' = take n (key :: list_remove key (lru c))
    ∧ (∀ m, (n < m <= S (length (list_remove key (lru c))))%nat → ¬ fits_with c key size (take m (key :: list_remove key (lru c))))
    ∧ (∀ key', key' ∈ lru c' → c_entries c' !! key' = <[key := put_entry c key result size negative now]> (c_entries c) !! key')
    ∧ maxEntries c' = maxEntries c ∧ maxBytes c' = maxBytes c ∧ negativeTTL c' = negativeTTL c.
Proof.
  intros Hs Hsize. pose proof (insert_spec c key result size negative now Hs Hsize) as H. cbn zeta in H.
  pose proof (λ l, fits_inserted c key result size negative now l Hs Hsize) as Hfits.
  unfold cache_put. replace ((size <=? 0) || (maxBytes c <? size)) with false by (symmetry; apply orb_false_iff; lia). cbn zeta.
  set (c1 := cache_insert c key result size negative now) in *. destruct H as (Hc & Hl & He & Hm & HB & Ht).
  destruct (evict_spec (length (lru c1)) c1 Hc) as (c' & n & Hev & [Hc' Hn Hl' Hent Hfit Hlong (? & ? & ?)]); [done|].
  exists c', n. split; [done|]. rewrite Hl in *. split_and!.
  - split; [done|]. apply (within_transfer c1 c'); [done..| |done]. intros k Hk. unfold held_bytes. by rewrite Hent.
  - destruct (decide (1 <= n)%nat); [done|]. destruct (Hlong 1%nat); [cbn; lia|]. cbn. apply Hfits. destruct Hs as [Hs _].
    pose proof (budgets _ Hs). rewrite take_0. split; cbn; [lia|]. unfold bytes_with. rewrite String.eqb_refl. lia.
  - done.
  - intros m Hm'. rewrite <- Hfits. apply Hlong. done.
  - intros key' Hk. rewrite Hent by done. by rewrite He.
  - congruence.
  - congruence.
  - congruence.
Qed.

Lemma new_sound maxEntries maxBytes ttl : 0 < maxEntries → 0 < maxBytes < 2 ^ 62 → cache_sound (newCompileCache (R:=R) maxEntries maxBytes ttl).
Proof.
  intros. split; [split|split]; cbn; try lia; [constructor| |].
  - intros key. rewrite lookup_empty. split; [by intros ?%not_elem_of_nil|by intros []].
  - intros key entry. by rewrite lookup_empty.
Qed.

Lemma put_sound c key result size negative now c' : cache_sound c → cache_put c key result size negative now = Some c' → cache_sound c'.
Proof.
  intros Hs Hput. destruct (refused_size c size) eqn:Hr.
  - unfold cache_put in Hput. unfold refused_size in Hr. rewrite Hr in Hput. by injection Hput as <-.
  - apply orb_false_iff in Hr as [? ?]. destruct (put_spec c key result size negative now Hs) as (c'' & n & Hput' & Hs' & _); [lia|].
    congruence.
Qed.

(** *** [get] *)

Definition expired (entry : compileCacheEntry R) (now : Z) : bool := e_negative entry && negb (now <? e_expiresAt entry).

Lemma cache_get_found c key now : (cache_get c key now).2 =
  match c_entries c !! key with Some entry => if expired entry now then None else Some (e_result entry) | None => None end.
Proof. unfold cache_get, expired. destruct (c_entries c !! key) as [entry|]; [|done]. by destruct (_ && _). Qed.

Lemma with_stats_sound c stats : cache_sound c → cache_sound (with_stats c stats).
Proof. intros [[] ?]. split; [|done]. by split. Qed.

Lemma remove_sound c key entry eviction : cache_sound c → c_entries c !! key = Some entry → cache_sound (cache_remove c (Some key) eviction).
Proof.
  intros [Hc [Hn Hb]] He. split; [by eapply remove_consistent|].
  assert (key ∈ lru c) as Hin by (apply (lru_entries _ Hc); by eexists).
  pose proof (list_remove_total c key (lru_once _ Hc) Hin) as Ht. pose proof (held_nonneg c key Hc).
  rewrite (remove_found _ _ entry) by done. unfold within_budget. cbn [lru maxEntries maxBytes].
  rewrite (total_bytes_ext c); [|intros key' [? _]%elem_of_list_remove; unfold held_bytes; cbn; by rewrite lookup_delete_ne].
  pose proof (length_filter (λ k, k ≠ key) (lru c)) as Hlen. unfold list_remove in *. split; lia.
Qed.

Lemma front_sound c key entry stats : cache_sound c → c_entries c !! key = Some entry →
  cache_sound (mkCache (c_entries c) (key :: list_remove key (lru c)) (maxEntries c) (maxBytes c) (negativeTTL c) (c_bytes c) stats).
Proof.
  intros [Hc [Hn Hb]] He. assert (key ∈ lru c) as Hin by (apply (lru_entries _ Hc); by eexists).
  pose proof (list_remove_total c key (lru_once _ Hc) Hin) as Ht.
  assert (key :: list_remove key (lru c) ≡ₚ lru c) as Hp.
  { apply NoDup_Permutation; [|apply Hc|].
    - apply NoDup_cons. split; [rewrite elem_of_list_remove; tauto|]. apply NoDup_filter, Hc.
    - intros k. rewrite elem_of_cons, elem_of_list_remove. destruct (decide (k = key)) as [->|]; tauto. }
  split; [split|split]; cbn [lru c_entries c_bytes maxEntries maxBytes]; try apply Hc.
  - rewrite Hp. apply Hc.
  - intros k. rewrite Hp. apply Hc.
  - rewrite total_bytes_cons, (bytes_held _ Hc), Ht. done.
  - by rewrite Hp.
  - rewrite total_bytes_cons. change (held_bytes c key + total_bytes c (list_remove key (lru c)) <= maxBytes c). lia.
Qed.

Lemma cache_get_sound c key now : cache_sound c → cache_sound (cache_get c key now).1.
Proof.
  intros Hc. unfold cache_get. destruct (c_entries c !! key) as [entry|] eqn:He; [|by apply with_stats_sound].
  destruct (_ && _); cbn [fst]; [eapply with_stats_sound, remove_sound; done|by eapply front_sound].
Qed.

(** No entry is another's. *)
Lemma cache_get_entries c key now key' entry : c_entries (cache_get c key now).1 !! key' = Some entry → c_entries c !! key' = Some entry.
Proof.
  unfold cache_get. destruct (c_entries c !! key) as [e|] eqn:He; [|done]. destruct (_ && _); cbn; [|done].
  rewrite He. cbn. by intros [_ ?]%lookup_delete_Some.
Qed.

Lemma cache_get_limits c key now : let c' := (cache_get c key now).1 in maxEntries c' = maxEntries c ∧ maxBytes c' = maxBytes c.
Proof.
  unfold cache_get. destruct (c_entries c !! key) as [e|] eqn:He; [|done]. destruct (_ && _); cbn; [|done]. by rewrite He.
Qed.
(** A result of a size the cache takes is put first among what it holds, whatever was
    under its key; the loop that evicts ends, and what stays is the longest run of the
    last used that fits both budgets, never without the result itself, every other entry of
    it as it was. The result is then found under its key, a refusal until its lifetime ends.
    One of another size changes nothing. *)
Lemma put_keeps_recent c key result size negative now : cache_sound c →
  if refused_size c size then cache_put c key result size negative now = Some c
  else
    let fresh := key :: list_remove key (lru c) in
    ∃ c' n, cache_put c key result size negative now = Some c' ∧ cache_sound c' ∧ (1 <= n)%nat ∧ lru c' = take n fresh
      ∧ (∀ m, (n < m <= length fresh)%nat → ¬ fits_with c key size (take m fresh))
      ∧ (∀ other, other ≠ key → c_entries c' !! other = if bool_decide (other ∈ take n fresh) then c_entries c !! other else None)
      ∧ (∀ later, (cache_get c' key later).2 = if negative && (now + negativeTTL c <=? later) then None else Some result).
Proof.
  intros Hs. unfold refused_size. destruct (_ || _) eqn:Hr; [unfold cache_put; by rewrite Hr|]. apply orb_false_iff in Hr as [? ?]. cbn zeta.
  destruct (put_spec c key result size negative now Hs) as (c' & n & Hput & Hs' & Hn & Hl & Hlong & He & _); [lia|].
  exists c', n. split_and!; [done..| |].
  - intros other Hne. rewrite <- Hl. case_bool_decide as Hin; [by rewrite He, lookup_insert_ne|].
    destruct (c_entries c' !! other) eqn:E; [|done]. destruct Hin. apply (lru_entries _ (proj1 Hs')). by eexists.
  - intros later. rewrite cache_get_found, He, lookup_insert_eq by (rewrite Hl; destruct n; [lia|left]).
    unfold expired. cbn. destruct negative; [|done]. by rewrite Z.leb_antisym.
Qed.
End cache.
