(* ===== verification/CompileSpec.v ===== *)
(** What a compiler with a cache promises: however its calls interleave, it answers as an
    uncached compile does, but for what a Plan's JSON does not say. *)
From S2P Require Import Prelude Group Absence Roster NoDataMemory NoDataSlot TargetPlan Trigger Decimal AlgorithmInput Predicate ThresholdCompiler.
From S2P Require Import EffectiveTime CalendarRules LevelCompiler LevelExamples PlanCompiler PlanExamples.
From S2P Require Import DetectExamples CompileCache CompileCacheSpec.

Open Scope Z_scope.

(** ** The compiler *)

(** A request of another signal type and kind of business, all else the same. *)
Definition says (r : CompileRequest) (signal : string) (global : bool) : CompileRequest :=
  let p := cq_Plan r in
  mkCompileRequest
    (mkPlan (EffectiveTimeSnapshot p) (PlanID p) (StrategyRef p) (InputProjection p) (SourceItemID p) (OutputIdentity p)
       (SubjectFacts p) (LegacyOutput p) (ep_TargetScope p) (ep_TargetPlan p) (ep_NoData p) (StrategyIR p) (WireFormat p) signal
       (TerminalReasonCode p) global)
    (DatasetContract r) (cq_StateSemantics r) (ContentKey r).

Section compiler.
Context `{Digests : !CompilerDigests, Codec : !ConfigCodec, Encoder : !ConfigEncoder, Plans : !PlanDigests, Keys : !CompileKeys}.
Variable registry : AlgorithmCompilerRegistry.
Variable limits : Limits.
Variable boundaryLocation : option Location.
Variable capabilityDigest : string.
Variable budgetDigest : string.
Variable cacheLimits : CacheLimits.

(** The requests callers make. *)
Variable requests : CompileRequest → Prop.

#[local] Abbreviation uncached := (compileUncached registry limits boundaryLocation).
#[local] Abbreviation derive := (deriveCompileCacheKey capabilityDigest budgetDigest).
#[local] Abbreviation step := (call_step registry limits boundaryLocation capabilityDigest budgetDigest).

(** What callers promise of content keys, and that no two digests of requests collide. *)
Record honest_requests : Prop := {
  content_named : ∀ r r', requests r → requests r' → ContentKey r = ContentKey r' → ContentKey r ≠ ""%string →
    cq_Plan r = cq_Plan r' ∧ DatasetContract r = DatasetContract r';
  plans_apart : ∀ r r' d, requests r → requests r' → plan_semantic_digest (MarshalJSON (cq_Plan r)) = Some d →
    plan_semantic_digest (MarshalJSON (cq_Plan r')) = Some d → MarshalJSON (cq_Plan r) = MarshalJSON (cq_Plan r');
  datasets_apart : ∀ r r' d, requests r → requests r' → dataset_digest (DatasetContract r) = Some d →
    dataset_digest (DatasetContract r') = Some d → DatasetContract r = DatasetContract r';
  states_apart : ∀ r r' d, requests r → requests r' → state_semantics_digest (cq_StateSemantics r) = Some d →
    state_semantics_digest (cq_StateSemantics r') = Some d → cq_StateSemantics r = cq_StateSemantics r';
  keys_apart : ∀ r r' p p' d d' s s' k, requests r → requests r' →
    plan_semantic_digest (MarshalJSON (cq_Plan r)) = Some p → plan_semantic_digest (MarshalJSON (cq_Plan r')) = Some p' →
    dataset_digest (DatasetContract r) = Some d → dataset_digest (DatasetContract r') = Some d' →
    state_semantics_digest (cq_StateSemantics r) = Some s → state_semantics_digest (cq_StateSemantics r') = Some s' →
    compile_cache_key p capabilityDigest d s budgetDigest = Some k → compile_cache_key p' capabilityDigest d' s' budgetDigest = Some k →
    p = p' ∧ d = d' ∧ s = s';
}.

(** What two requests of one key share. *)
Lemma same_key r r' k : honest_requests → requests r → requests r' → derive r = Some k → derive r' = Some k →
  MarshalJSON (cq_Plan r) = MarshalJSON (cq_Plan r') ∧ DatasetContract r = DatasetContract r' ∧ cq_StateSemantics r = cq_StateSemantics r'.
Proof.
  intros H Hr Hr'. unfold deriveCompileCacheKey.
  intros (p & Hp & (d & Hd & (s & Hs & Hk)%bind_Some)%bind_Some)%bind_Some.
  intros (p' & Hp' & (d' & Hd' & (s' & Hs' & Hk')%bind_Some)%bind_Some)%bind_Some.
  destruct (keys_apart H r r' p p' d d' s s' k) as (<- & <- & <-); [done..|].
  split_and!; [by eapply plans_apart|by eapply datasets_apart|by eapply states_apart].
Qed.

Lemma plan_levels_same r r' : (∀ s raw, plan_level_step registry limits r s raw = plan_level_step registry limits r' s raw) →
  ∀ levels s, plan_levels registry limits r s levels = plan_levels registry limits r' s levels.
Proof. intros H. induction levels as [|raw levels IH]; intros s; [done|]. cbn. rewrite H. by destruct (plan_level_step _ _ _ _ _); cbn. Qed.

(** Requests of one body compile alike but for what the body does not say. *)
Lemma uncached_says r r' : TerminalReasonCode (cq_Plan r) = ""%string →
  MarshalJSON (cq_Plan r') = MarshalJSON (cq_Plan r) → DatasetContract r' = DatasetContract r → cq_StateSemantics r' = cq_StateSemantics r →
  uncached r' = uncached (says r (SignalType (cq_Plan r')) (GlobalBusiness (cq_Plan r'))).
Proof.
  destruct r as [p d s k], r' as [p' d' s' k']. cbn [cq_Plan DatasetContract cq_StateSemantics]. intros Ht Hm -> ->.
  destruct p, p'. unfold MarshalJSON in Hm. cbn in *. subst. destruct (negb _) eqn:E; [done|]. apply negb_false_iff, String.eqb_eq in E as ->.
  cbn in Hm. injection Hm as -> -> -> -> -> -> -> -> -> -> -> -> ->. unfold compileUncached, compile_plan, says. cbn [cq_Plan].
  erewrite plan_levels_same; [reflexivity|]. intros ? ?. reflexivity.
Qed.
(** *** The invariant *)

(** An answer is that of an uncached compile, of the request or of one with its key. *)
Definition answers (r : CompileRequest) (answer : result string CompileResult) : Prop :=
  ∃ r', requests r' ∧ (r' = r ∨ ∃ key, derive r = Some key ∧ derive r' = Some key) ∧ answer = uncached r'.

Record compiler_ok (c : PlanCompiler) : Prop := {
  ok_cache : cache_sound (cache c);
  ok_entries : ∀ key entry, c_entries (cache c) !! key = Some entry →
    ∃ r, requests r ∧ derive r = Some key ∧ uncached r = Ok (e_result entry);
  ok_keys : ∀ memo key, keys c !! memo = Some key →
    ∃ r, requests r ∧ memo_key r = memo ∧ ContentKey r ≠ ""%string ∧ derive r = Some key;
  ok_known : Z.of_nat (size (keys c)) <= compileKeyMemoEntries;
  ok_limits : maxEntries (cache c) = MaxCacheEntries cacheLimits ∧ maxBytes (cache c) = MaxCacheBytes cacheLimits;
}.

Definition phase_ok (r : CompileRequest) (p : phase) : Prop :=
  match p with
  | Asked | Unkeyed => True
  | Deriving => ContentKey r ≠ ""%string
  | Keyed key | Missed key => derive r = Some key
  | Compiled key result => derive r = Some key ∧ uncached r = Ok result
  | Answered Cancelled => True
  | Answered (Replied answer) => answers r answer
  | Looping => False
  end.

(** The steps a call has before it, at most. *)
Definition rank (p : phase) : nat :=
  match p with Asked => 5 | Deriving => 4 | Unkeyed => 1 | Keyed _ => 3 | Missed _ => 2 | Compiled _ _ => 1 | Answered _ | Looping => 0 end.

Lemma answers_own r : requests r → answers r (uncached r).
Proof. intros. exists r. auto. Qed.

Lemma memo_store_ok c r key : compiler_ok c → requests r → ContentKey r ≠ ""%string → derive r = Some key →
  compiler_ok (memo_store c r key).
Proof.
  intros [] Hr Hne Hd. split; try done; unfold memo_store; cbn [keys].
  - intros memo key'. destruct (decide (memo = memo_key r)) as [->|?].
    + rewrite lookup_insert_eq. intros [= <-]. by exists r.
    + rewrite lookup_insert_ne by done. case_match; [by rewrite lookup_empty|apply ok_keys0].
  - set (known := if _ : bool then ∅ else _). assert (Z.of_nat (size known) < compileKeyMemoEntries) as Hk.
    { subst known. destruct (Z.leb_spec compileKeyMemoEntries (Z.of_nat (size (keys c)))); [by rewrite map_size_empty|done]. }
    rewrite map_size_insert. destruct (known !! memo_key r); cbn; lia.
Qed.

Lemma with_cache_ok c cache' : compiler_ok c → cache_sound cache' →
  (∀ key entry, c_entries cache' !! key = Some entry → ∃ r, requests r ∧ derive r = Some key ∧ uncached r = Ok (e_result entry)) →
  maxEntries cache' = maxEntries (cache c) → maxBytes cache' = maxBytes (cache c) → compiler_ok (with_cache c cache').
Proof. intros [] Hs He Hm Hb. split; try done. cbn. by rewrite Hm, Hb. Qed.

Lemma put_ok c r key result now : compiler_ok c → requests r → derive r = Some key → uncached r = Ok result →
  ∃ cache', cache_put (cache c) key result (estimateCompileResultBytes result) (is_negative result) now = Some cache'
    ∧ compiler_ok (with_cache c cache').
Proof.
  intros Hc Hr Hd Hu. pose proof (ok_cache _ Hc) as Hs.
  destruct (refused_size (cache c) (estimateCompileResultBytes result)) eqn:Hsize.
  - exists (cache c). unfold cache_put. unfold refused_size in Hsize. rewrite Hsize. split; [done|]. by destruct c.
  - apply orb_false_iff in Hsize as [? ?].
    destruct (put_spec (cache c) key result (estimateCompileResultBytes result) (is_negative result) now Hs)
      as (c' & n & Hput & Hs' & _ & _ & _ & He & ? & ? & _); [lia|].
    exists c'. split; [done|]. apply with_cache_ok; try done. intros key' entry Hk.
    assert (key' ∈ lru c') as Hin by (apply (lru_entries _ (proj1 Hs')); by eexists).
    rewrite He in Hk by done. apply lookup_insert_Some in Hk as [[<- <-]|[_ Hk]]; [by exists r|by eapply ok_entries].
Qed.

Lemma memo_derives c r key : honest_requests → compiler_ok c → requests r → keys c !! memo_key r = Some key → ContentKey r ≠ ""%string →
  derive r = Some key.
Proof.
  intros H Hc Hr Hk Hne. destruct (ok_keys _ Hc _ _ Hk) as (r' & Hr' & [= Hck Hst] & _ & Hd).
  destruct (content_named H r r') as [Hp Hds]; [done..|]. rewrite <- Hd. unfold deriveCompileCacheKey. by rewrite Hp, Hds, Hst.
Qed.

Lemma call_step_ok cancelled now c r p : honest_requests → compiler_ok c → requests r → phase_ok r p →
  let '(c', p') := step cancelled now c r p in compiler_ok c' ∧ phase_ok r p' ∧ (rank p' <= pred (rank p))%nat.
Proof.
  intros H Hc Hr Hp. destruct p as [| | |key|key|key result|answer|]; cbn in Hp |- *; try done.
  - destruct cancelled; [cbn; auto with lia|]. destruct (String.eqb_spec (ContentKey r) "").
    + destruct (derive r) eqn:Hd; cbn; auto with lia.
    + destruct (keys c !! memo_key r) eqn:Hk; cbn; [|auto with lia]. split_and!; [done| |lia]. by eapply memo_derives.
  - destruct (derive r) eqn:Hd; cbn; [|auto with lia]. split_and!; [by apply memo_store_ok|done|lia].
  - split_and!; [done| |destruct cancelled; lia]. destruct cancelled; [done|by apply answers_own].
  - pose proof (cache_get_sound (cache c) key now (ok_cache _ Hc)) as Hs.
    pose proof (cache_get_entries (cache c) key now) as He. pose proof (cache_get_limits (cache c) key now) as [Hm Hb].
    pose proof (cache_get_found (cache c) key now) as Hf. destruct (cache_get (cache c) key now) as [c' found]. cbn in *.
    split_and!; [by apply with_cache_ok; eauto using ok_entries| |destruct found; cbn; lia].
    destruct found as [result|]; [|done]. destruct (c_entries (cache c) !! key) as [entry|] eqn:Hk; [|done].
    destruct (expired _ _); [done|]. injection Hf as ->. destruct (ok_entries _ Hc _ _ Hk) as (r' & ? & ? & ?).
    exists r'. split_and!; eauto.
  - destruct cancelled; [cbn; auto with lia|]. destruct (uncached r) eqn:Hu; cbn; [by split_and!; try lia|].
    split_and!; [done| |lia]. rewrite <- Hu. by apply answers_own.
  - destruct Hp as [Hd Hu]. destruct (put_ok c r key result now) as (cache' & -> & Hok); [done..|]. cbn. split_and!; [done| |lia].
    rewrite <- Hu. by apply answers_own.
Qed.
(** *** Runs *)

#[local] Abbreviation runs := (run registry limits boundaryLocation capabilityDigest budgetDigest).
#[local] Abbreviation next := (happens registry limits boundaryLocation capabilityDigest budgetDigest).

Definition asks_honestly (e : event) : Prop := match e with Ask r => requests r | Move _ _ _ => True end.

Record state_ok (s : calls_state) : Prop := {
  ok_compiler : compiler_ok (compiler s);
  ok_calls : ∀ i r p, calls s !! i = Some (r, p) → requests r ∧ phase_ok r p;
}.

(** How often a call moves. *)
Fixpoint moves (index : nat) (events : list event) : nat :=
  match events with
  | [] => 0
  | Move i _ _ :: events => (if bool_decide (i = index) then 1 else 0) + moves index events
  | Ask _ :: events => moves index events
  end.

Lemma happens_ok s e : honest_requests → asks_honestly e → state_ok s → state_ok (next s e).
Proof.
  intros H He Hs. destruct e as [r|i cancelled now]; cbn.
  - split; [apply Hs|]. cbn. intros i r' p [Hi|[_ Hi]]%lookup_app_Some; [by eapply ok_calls|].
    apply list_lookup_singleton_Some in Hi as [_ Hi]. injection Hi as <- <-. by split.
  - destruct (calls s !! i) as [[r p]|] eqn:Hi; [|done]. destruct (ok_calls _ Hs _ _ _ Hi) as [Hr Hp].
    pose proof (call_step_ok cancelled now (compiler s) r p H (ok_compiler _ Hs) Hr Hp) as Hstep.
    destruct (step cancelled now (compiler s) r p) as [c' p']. destruct Hstep as (Hc & Hp' & _). split; [done|]. cbn.
    intros j r' q [[-> [[= <- <-] _]]|[_ Hj]]%list_lookup_insert_Some; [done|by eapply ok_calls].
Qed.

Lemma run_ok s events : honest_requests → Forall asks_honestly events → state_ok s → state_ok (runs s events).
Proof. intros H. intros Hev. revert s. induction Hev as [|e events He _ IH]; intros s Hs; [done|]. cbn. by apply IH, happens_ok. Qed.

Lemma NewCompiler_Ok c digest : NewCompiler registry limits cacheLimits = Ok (c, digest) →
  c = mkCompiler (newCompileCache (MaxCacheEntries cacheLimits) (MaxCacheBytes cacheLimits) (NegativeCacheTTL cacheLimits)) ∅
  ∧ 0 < MaxCacheEntries cacheLimits ∧ 0 < MaxCacheBytes cacheLimits.
Proof.
  unfold NewCompiler. destruct (bool_decide _); [done|]. destruct (budgets_positive limits cacheLimits) eqn:Hp; [|done]. cbn [negb].
  destruct (budget_digest _ _); [|done]. intros [= <- _]. split; [done|].
  unfold budgets_positive in Hp. rewrite negb_true_iff, !orb_false_iff, !Z.leb_gt in Hp. lia.
Qed.

Lemma new_ok c digest : NewCompiler registry limits cacheLimits = Ok (c, digest) → MaxCacheBytes cacheLimits < 2 ^ 62 → state_ok (mkCalls c []).
Proof.
  intros (-> & ? & ?)%NewCompiler_Ok ?. split; [|done]. split; [by apply new_sound| | | |done]; cbn.
  - intros key entry. by rewrite lookup_empty.
  - intros memo key. by rewrite lookup_empty.
  - rewrite map_size_empty. unfold compileKeyMemoEntries. lia.
Qed.

(** A call moves on by its own steps alone. *)
Lemma run_rank s events i r p : honest_requests → Forall asks_honestly events → state_ok s → calls s !! i = Some (r, p) →
  ∃ p', calls (runs s events) !! i = Some (r, p') ∧ (rank p' <= rank p - moves i events)%nat.
Proof.
  intros H Hev. revert s p. induction Hev as [|e events He _ IH]; intros s p Hs Hi; [exists p; split; [done|cbn; lia]|].
  pose proof (happens_ok s e H He Hs) as Hs'. destruct e as [r'|j cancelled now].
  - cbn. apply (IH _ _ Hs'). cbn. by apply lookup_app_l_Some.
  - cbn [run foldl moves]. case_bool_decide as Hne; [subst j|].
    + destruct (ok_calls _ Hs _ _ _ Hi) as [Hr Hp].
      pose proof (call_step_ok cancelled now (compiler s) r p H (ok_compiler _ Hs) Hr Hp) as Hstep. cbn in Hs' |- *. rewrite Hi in Hs' |- *.
      destruct (step cancelled now (compiler s) r p) as [c' p']. destruct Hstep as (_ & _ & Hrank).
      destruct (IH _ p' Hs') as (p'' & Hp'' & Hle); [cbn; apply list_lookup_insert_eq; by eapply lookup_lt_Some|].
      exists p''. split; [done|]. lia.
    + apply (IH _ _ Hs'). cbn. destruct (calls s !! j) as [[r' q]|] eqn:Hj; [|done].
      destruct (step cancelled now (compiler s) r' q). cbn. by rewrite list_lookup_insert_ne.
Qed.

(** C9: over any interleaving of calls of [Compile] on one compiler, and any clock: the cache
    stays within its budgets and the memory of keys within its bound; five steps of its own
    end a call, whatever the others do; and a call that is not cancelled answers, error or
    result, what an uncached compile answers for its request, but for the signal type and
    the kind of business, which a Plan's JSON does not say and the answer may have from
    another request. *)
Theorem compile_answers c events later i r p :
  honest_requests → NewCompiler registry limits cacheLimits = Ok (c, budgetDigest) → MaxCacheBytes cacheLimits < 2 ^ 62 →
  Forall asks_honestly events → Forall asks_honestly later →
  let s := runs (mkCalls c []) events in
  Z.of_nat (size (c_entries (cache (compiler s)))) <= MaxCacheEntries cacheLimits ∧ c_bytes (cache (compiler s)) <= MaxCacheBytes cacheLimits
  ∧ Z.of_nat (size (keys (compiler s))) <= compileKeyMemoEntries
  ∧ (calls s !! i = Some (r, p) →
     (5 <= moves i later → ∃ answer, calls (runs s later) !! i = Some (r, Answered answer))%nat
     ∧ (∀ answer, p = Answered (Replied answer) → TerminalReasonCode (cq_Plan r) = ""%string →
        ∃ signal global, answer = uncached (says r signal global))).
Proof.
  intros H Hn Hb Hev Hlater s. assert (state_ok s) as Hs by (apply run_ok; [done..|by eapply new_ok]).
  pose proof (ok_compiler _ Hs) as Hc. destruct (ok_cache _ Hc) as [Hcc [Hce Hcb]]. destruct (ok_limits _ Hc) as [<- <-].
  rewrite <- (entries_length _ Hcc) in Hce. rewrite <- (bytes_held _ Hcc) in Hcb. split_and!; [done|done|apply Hc|].
  intros Hi. split.
  - intros Hm. destruct (run_rank s later i r p H Hlater Hs Hi) as (p' & Hp' & Hrank).
    assert (rank p <= 5)%nat as Hp by (destruct p; cbn; lia).
    assert (state_ok (runs s later)) as Hs' by by apply run_ok. destruct (ok_calls _ Hs' _ _ _ Hp') as [_ Hok].
    destruct p' as [| | | | | |answer|]; cbn in Hrank, Hok; try lia; by exists answer.
  - intros answer -> Ht. destruct (ok_calls _ Hs _ _ _ Hi) as [Hr (r' & Hr' & Hkey & ->)].
    exists (SignalType (cq_Plan r')), (GlobalBusiness (cq_Plan r')). destruct Hkey as [->|(key & Hd & Hd')].
    + by apply uncached_says.
    + destruct (same_key r' r key H) as (? & ? & ?); [done..|]. by apply uncached_says.
Qed.
(** *** What the key leaves out *)

Definition with_said (plan : CompiledPlan) (signal : string) (global : bool) : CompiledPlan :=
  mkCompiledPlan (effectiveRules plan) (cp_planRef plan) (cp_strategyRef plan) (cp_outputIdentity plan) (cp_subjectFacts plan)
    (cp_wireFormat plan) signal (cp_legacyOutput plan) (cp_projection plan) (cp_evaluationSemantics plan) (cp_boundaryLocation plan)
    (cp_levels plan) (cp_normalizers plan) (cp_fingerprints plan) (cp_resourceEstimate plan) (cp_datasetDigest plan)
    (cp_targetScope plan) (cp_targetPlan plan) (cp_noData plan) (cp_noDataLevel plan) global.

Lemma estimate_with_said plan signal global :
  compileResourceEstimate (with_said plan signal global) =
  match compileResourceEstimate plan with Ok plan => Ok (with_said plan signal global) | Err detail => Err detail end.
Proof.
  unfold compileResourceEstimate. cbn. destruct (estimate_levels _ _ _) as [[[levels wires] aggregate]|]; [|done]. cbn.
  by destruct (compiled_json_size _ _ _ _ _ _).
Qed.

(** The steps before the Plan is put together read neither. *)
Lemma compile_plan_said r signal global :
  compile_plan registry limits boundaryLocation (says r signal global) =
  match compile_plan registry limits boundaryLocation r with
  | Ok (plan, terminals) => Ok (with_said plan signal global, terminals)
  | Err refusal => Err refusal
  end.
Proof.
  unfold compile_plan. change (validatePlan limits (says r signal global)) with (validatePlan limits r).
  rewrite (plan_levels_same (says r signal global) r) by done.
  destruct (validatePlan limits r) as [[]|]; [|done]. cbn [mbind result_bind cq_Plan says StrategyIR DatasetContract].
  destruct (if ids_distinct _ _ then _ else _) as [[]|]; [|done]. cbn [mbind result_bind].
  destruct (or_failed _ _) as [dataset|]; [|done]. cbn [mbind result_bind].
  change (compile_rules (cq_Plan (says r signal global))) with (compile_rules (cq_Plan r)).
  destruct (compile_rules _) as [rules|]; [|done]. cbn [mbind result_bind].
  destruct (plan_levels _ _ _ _ _) as [state|]; [|done]. cbn [mbind result_bind].
  change (plan_no_data registry limits (says r signal global)) with (plan_no_data registry limits r).
  destruct (plan_no_data _ _ _ _) as [[state' noData]|]; [|done]. cbn [mbind result_bind].
  change (no_data_uptime (says r signal global)) with (no_data_uptime r).
  destruct (no_data_uptime _ _) as [level|]; [|done]. cbn [mbind result_bind].
  destruct (if calendars_present _ _ then _ else _) as [[]|]; [|done]. cbn [mbind result_bind].
  destruct (if retained_points_fit _ _ then _ else _) as [[]|]; [|done]. cbn [mbind result_bind].
  change (deriveStateCompatibilityHash (says r signal global)) with (deriveStateCompatibilityHash r).
  destruct (or_failed _ (deriveStateCompatibilityHash _ _)) as [hash|]; [|done]. cbn [mbind result_bind].
  destruct (or_failed _ (compilePlanFingerprints _)) as [fingerprints|]; [|done]. cbn [mbind result_bind].
  lazymatch goal with
  |- match compileResourceEstimate ?p with Ok _ => _ | Err _ => _ end = match match compileResourceEstimate ?q with _ => _ end with _ => _ end =>
      change (compileResourceEstimate p) with (compileResourceEstimate (with_said q signal global))
  end.
  rewrite estimate_with_said. destruct (compileResourceEstimate _) as [plan|]; [|done]. cbn. by destruct (_ <? _).
Qed.

Lemma uncached_said r signal global plan terminals : uncached r = Ok (mkCompileResult (Some plan) None terminals) →
  uncached (says r signal global) = Ok (mkCompileResult (Some (with_said plan signal global)) None terminals).
Proof.
  unfold compileUncached. rewrite compile_plan_said. destruct (compile_plan _ _ _ _) as [[p ts]|[]]; [|done..]. by intros [= <- <-].
Qed.

Lemma uncached_own r plan terminals : uncached r = Ok (mkCompileResult (Some plan) None terminals) →
  cp_signalType plan = SignalType (cq_Plan r) ∧ cp_globalBusiness plan = GlobalBusiness (cq_Plan r).
Proof.
  intros H. pose proof (uncached_said r (SignalType (cq_Plan r)) (GlobalBusiness (cq_Plan r)) plan terminals H) as H'.
  destruct r as [[] ? ? ?]. unfold says in H'. cbn in H', H |- *. rewrite H in H'. injection H' as H'. destruct plan. cbn in *. by injection H'.
Qed.

(** *** Calls nothing comes between *)

#[local] Abbreviation lone := (alone registry limits boundaryLocation capabilityDigest budgetDigest).
#[local] Abbreviation compile := (Compile registry limits boundaryLocation capabilityDigest budgetDigest).

Lemma lone_answered now r n c answer : Nat.iter n (lone now r) (c, Answered answer) = (c, Answered answer).
Proof. induction n as [|n IH]; [done|]. rewrite Nat.iter_succ, IH. done. Qed.

Lemma lone_step n now r c p : Nat.iter (S n) (lone now r) (c, p) = Nat.iter n (lone now r) (step false now c r p).
Proof. by rewrite Nat.iter_succ_r. Qed.

(** The key is had in one step or two, and the cache untouched. *)
Lemma compile_keyed now c r key : derive r = Some key → keys c !! memo_key r = None ∨ keys c !! memo_key r = Some key →
  ∃ n c', (3 <= n)%nat ∧ compile now c r = Nat.iter n (lone now r) (c', Keyed key) ∧ cache c' = cache c
    ∧ (c' = c ∨ c' = memo_store c r key).
Proof.
  intros Hd Hk. unfold Compile. rewrite lone_step. cbn [call_step]. destruct (String.eqb_spec (ContentKey r) "").
  { rewrite Hd. exists 4%nat, c. auto with lia. }
  destruct Hk as [Hk|Hk]; rewrite Hk; [|exists 4%nat, c; auto with lia].
  rewrite lone_step. cbn [call_step]. rewrite Hd. exists 3%nat, (memo_store c r key). auto with lia.
Qed.

(** A found result is the answer, and a missed one is compiled and put. *)
Lemma compile_hit now c r key result : derive r = Some key → keys c !! memo_key r = None ∨ keys c !! memo_key r = Some key →
  (cache_get (cache c) key now).2 = Some result → (compile now c r).2 = Answered (Replied (Ok result)).
Proof.
  intros Hd Hk Hg. destruct (compile_keyed now c r key Hd Hk) as (n & c' & Hn & -> & Hc & _). destruct n as [|n]; [lia|].
  rewrite lone_step. cbn [call_step]. rewrite Hc. destruct (cache_get (cache c) key now) as [cache' found]. cbn in Hg. subst found.
  by rewrite lone_answered.
Qed.

Lemma compile_miss now c r key result cache1 cache2 : derive r = Some key → keys c !! memo_key r = None ∨ keys c !! memo_key r = Some key →
  cache_get (cache c) key now = (cache1, None) → uncached r = Ok result →
  cache_put cache1 key result (estimateCompileResultBytes result) (is_negative result) now = Some cache2 →
  ∃ c', compile now c r = (c', Answered (Replied (Ok result))) ∧ cache c' = cache2 ∧ (keys c' = keys c ∨ keys c' = keys (memo_store c r key)).
Proof.
  intros Hd Hk Hg Hu Hput. destruct (compile_keyed now c r key Hd Hk) as (n & c' & Hn & -> & Hc & Hc').
  destruct n as [|[|[|n]]]; [lia..|]. rewrite lone_step. cbn [call_step]. rewrite Hc, Hg, lone_step. cbn [call_step].
  rewrite Hu, lone_step. cbn [call_step with_cache cache]. rewrite Hput, lone_answered. eexists. split_and!; [done|done|]. destruct Hc' as [->| ->]; auto.
Qed.
(** C35: what a Plan's JSON leaves out. Of two requests alike in all but the signal type and
    the kind of business, under whatever content keys, the first compiles to a Plan the
    cache takes; then the second, asked next at any time, is answered with the first's
    Plan, its signal type and its kind of business, while an uncached compile would answer
    with its own. *)
Theorem compile_serves_stale c now later r r' key plan :
  NewCompiler registry limits cacheLimits = Ok (c, budgetDigest) → MaxCacheBytes cacheLimits < 2 ^ 62 →
  derive r = Some key → TerminalReasonCode (cq_Plan r) = ""%string →
  MarshalJSON (cq_Plan r') = MarshalJSON (cq_Plan r) → DatasetContract r' = DatasetContract r → cq_StateSemantics r' = cq_StateSemantics r →
  uncached r = Ok (mkCompileResult (Some plan) None []) →
  0 < 64 + CompiledBytes (cp_resourceEstimate plan) <= MaxCacheBytes cacheLimits →
  (compile later (compile now c r).1 r').2 = Answered (Replied (Ok (mkCompileResult (Some plan) None [])))
  ∧ cp_signalType plan = SignalType (cq_Plan r) ∧ cp_globalBusiness plan = GlobalBusiness (cq_Plan r)
  ∧ ∃ plan', uncached r' = Ok (mkCompileResult (Some plan') None [])
      ∧ cp_signalType plan' = SignalType (cq_Plan r') ∧ cp_globalBusiness plan' = GlobalBusiness (cq_Plan r').
Proof.
  intros (-> & Hn & Hb)%NewCompiler_Ok Hb' Hd Ht Hm Hds Hst Hu Hsize. destruct (uncached_own r plan [] Hu) as [Hs Hg].
  assert (derive r' = Some key) as Hd' by (unfold deriveCompileCacheKey; by rewrite Hm, Hds, Hst).
  set (result := mkCompileResult (Some plan) None []) in *.
  set (c := mkCompiler (newCompileCache (MaxCacheEntries cacheLimits) (MaxCacheBytes cacheLimits) (NegativeCacheTTL cacheLimits)) ∅).
  destruct (put_spec (cache_get (cache c) key now).1 key result (estimateCompileResultBytes result) false now)
    as (cache2 & n & Hput & _ & Hn' & Hl & _ & He & _); [by apply cache_get_sound, new_sound|done|].
  destruct (compile_miss now c r key result (cache_get (cache c) key now).1 cache2 Hd) as (c2 & Hc2 & Hcache & Hkeys); [left; done|done..|].
  split_and!; [|done|done|].
  - rewrite Hc2. cbn [fst]. apply compile_hit with key; [done| |].
    + destruct Hkeys as [->| ->]; [by left|]. unfold memo_store. subst c. cbn.
      destruct (decide (memo_key r' = memo_key r)) as [->|?]; [right; by rewrite lookup_insert_eq|left; by rewrite lookup_insert_ne].
    + rewrite Hcache, cache_get_found, He by (rewrite Hl; destruct n; [lia|left]). by rewrite lookup_insert_eq.
  - rewrite (uncached_says r r') by done. eexists. split; [by apply uncached_said|done].
Qed.
End compiler.

(** * Examples

    Calls of a compiler with its cache: entries evicted, calls beside each other, and an answer
    of another request. *)

#[local] Existing Instances plan_level_digests plan_codec plan_encoder plan_digests.

(** ** A cache

    Of two entries and ten bytes. *)
Definition small_cache : compileCache nat :=
  default (newCompileCache 2 10 5) (c ← cache_put (newCompileCache 2 10 5) "a" 1%nat 4 false 0; cache_put c "b" 2%nat 4 false 1).

Lemma small_sound : cache_sound small_cache.
Proof.
  unfold small_cache. destruct (cache_put (newCompileCache 2 10 5) "a" 1%nat 4 false 0) as [c|] eqn:E; cbn; [|by apply new_sound].
  destruct (cache_put c "b" 2%nat 4 false 1) as [c'|] eqn:E'; cbn; [|by apply new_sound].
  eapply put_sound, E'. eapply put_sound, E. by apply new_sound.
Qed.

Lemma put_keeps_recent_witness : ∃ c' n,
  cache_put small_cache "c" 3%nat 6 true 2 = Some c' ∧ lru c' = take n ["c"; "b"; "a"]%string ∧ (1 <= n)%nat
  ∧ (∀ later, (cache_get c' "c" later).2 = if 7 <=? later then None else Some 3%nat).
Proof.
  pose proof (put_keeps_recent small_cache "c" 3%nat 6 true 2 small_sound) as H.
  replace (refused_size small_cache 6) with false in H by reflexivity.
  destruct H as (c' & n & Hput & _ & Hn & Hl & _ & _ & Hget). exists c', n. split; [exact Hput|]. split; [exact Hl|]. split; [exact Hn|exact Hget].
Defined.

(** The third leaves room for the second alone; a fourth of seven for none. *)
Example small_run :
  (c ← cache_put small_cache "c" 3%nat 6 true 2; Some (lru c, c_bytes c, Evictions (c_stats c)))
  = Some (["c"; "b"]%string, 10, 1)
  ∧ (c ← cache_put small_cache "d" 4%nat 7 true 2; Some (lru c, c_bytes c, Evictions (c_stats c))) = Some (["d"]%string, 7, 2).
Proof. split; reflexivity. Qed.

(** ** A compiler

    A Plan's digest is its id here. *)
#[local] Instance plan_keys : CompileKeys := {|
  budget_digest := λ _ _, Some some_digest;
  plan_semantic_digest := λ w, Some (match w with WireTerminal id _ _ => id | WirePlan _ id _ _ _ _ _ _ _ _ _ _ _ => id end);
  state_semantics_digest := λ s, Some (StateSchemaVersion s);
  compile_cache_key := λ plan capability dataset state budget, Some (plan +:+ state)%string;
|}.

Definition one_level : CompileRequest := plan_request None [ex_ir 1 "long" "on"].
Definition metric_request : CompileRequest := says one_level "metric" false.
Definition log_request : CompileRequest := says one_level "log" true.

Definition two_requests (r : CompileRequest) : Prop := r = metric_request ∨ r = log_request.

Lemma two_honest : honest_requests some_digest some_digest two_requests.
Proof.
  split.
  - intros r r' [->| ->] [->| ->]; try done; by intros _ [].
  - by intros r r' d [->| ->] [->| ->].
  - by intros r r' d [->| ->] [->| ->].
  - by intros r r' d [->| ->] [->| ->].
  - intros r r' p p' d d' s s' k [->| ->] [->| ->]; cbn; intros [= <-] [= <-] [= <-] [= <-] [= <-] [= <-] _ _; done.
Qed.

Definition cache_limits : CacheLimits := mkCacheLimits 4 100000 60 "b1".

Definition new_compiler : PlanCompiler :=
  match NewCompiler plan_registry plan_limits cache_limits with Ok (c, _) => c | Err _ => mkCompiler (newCompileCache 1 1 1) ∅ end.

Lemma new_compiler_ok : NewCompiler plan_registry plan_limits cache_limits = Ok (new_compiler, some_digest).
Proof. vm_compute. reflexivity. Qed.

(** Two calls, the first answered before the second looks. *)
Definition two_calls : list event :=
  [Ask metric_request; Ask log_request; Move 0 false 1; Move 1 false 1; Move 0 false 2; Move 0 false 3; Move 0 false 4; Move 1 false 5].

Definition signal_of (p : phase) : option (string * bool) :=
  match p with
  | Answered (Replied (Ok result)) => (λ plan, (cp_signalType plan, cp_globalBusiness plan)) <$> res_plan result
  | _ => None
  end.

#[local] Abbreviation ex_runs := (run plan_registry plan_limits None some_digest some_digest).
#[local] Abbreviation ex_compile := (Compile plan_registry plan_limits None some_digest some_digest).

Example two_calls_run :
  (λ c, signal_of c.2) <$> calls (ex_runs (mkCalls new_compiler []) two_calls) = [Some ("metric", false); Some ("metric", false)]%string.
Proof. vm_compute. reflexivity. Qed.

(** What the first compile gives, and its size. *)
Lemma metric_compiles :
  ∃ plan, compileUncached plan_registry plan_limits None metric_request = Ok (mkCompileResult (Some plan) None [])
    ∧ 0 < 64 + CompiledBytes (cp_resourceEstimate plan) <= 100000.
Proof.
  assert (match compileUncached plan_registry plan_limits None metric_request with
          | Ok (mkCompileResult (Some plan) None []) =>
              (0 <? 64 + CompiledBytes (cp_resourceEstimate plan)) && (64 + CompiledBytes (cp_resourceEstimate plan) <=? 100000)
          | _ => false
          end = true) as H by (vm_compute; reflexivity).
  destruct (compileUncached _ _ _ _) as [[[plan|] [t|] [|t' ts]]|]; try discriminate H.
  exists plan. apply andb_true_iff in H as [?%Z.ltb_lt ?%Z.leb_le]. auto.
Qed.

Lemma compile_serves_stale_witness : ∃ plan plan',
  (ex_compile 5 (ex_compile 1 new_compiler metric_request).1 log_request).2
  = Answered (Replied (Ok (mkCompileResult (Some plan) None []))) ∧ cp_signalType plan = "metric"%string ∧ cp_globalBusiness plan = false
  ∧ compileUncached plan_registry plan_limits None log_request = Ok (mkCompileResult (Some plan') None [])
  ∧ cp_signalType plan' = "log"%string ∧ cp_globalBusiness plan' = true.
Proof.
  destruct metric_compiles as (plan & Hu & Hsize).
  assert (deriveCompileCacheKey some_digest some_digest metric_request = Some "42v1"%string) as Hkey by (vm_compute; reflexivity).
  destruct (compile_serves_stale plan_registry plan_limits None some_digest some_digest cache_limits new_compiler 1 5 metric_request log_request "42v1" plan
    new_compiler_ok eq_refl Hkey eq_refl eq_refl eq_refl eq_refl Hu Hsize) as (Ha & Hs & Hg & plan' & Hu' & Hs' & Hg').
  exists plan, plan'. split; [exact Ha|]. split; [exact Hs|]. split; [exact Hg|]. split; [exact Hu'|]. split; [exact Hs'|exact Hg'].
Defined.

Lemma two_asked : Forall (asks_honestly two_requests) two_calls.
Proof. unfold two_calls. rewrite !Forall_cons, Forall_nil. split_and!; try done; [by left|by right]. Qed.

Lemma compile_answers_witness :
  let s := ex_runs (mkCalls new_compiler []) two_calls in
  ∃ r p answer, calls s !! 1%nat = Some (r, p) ∧ calls (ex_runs s (replicate 5 (Move 1 false 9))) !! 1%nat = Some (r, Answered answer).
Proof.
  intros s. assert ((λ c, signal_of c.2) <$> calls s = [Some ("metric", false); Some ("metric", false)]%string) as H by (vm_compute; reflexivity).
  destruct (calls s !! 1%nat) as [[r p]|] eqn:Hi.
  - assert (Forall (asks_honestly two_requests) (replicate 5 (Move 1 false 9))) as Hl by (repeat constructor).
    destruct (compile_answers plan_registry plan_limits None some_digest some_digest cache_limits two_requests new_compiler two_calls
      (replicate 5 (Move 1 false 9)) 1 r p two_honest new_compiler_ok ltac:(reflexivity) two_asked Hl) as (_ & _ & _ & Hc).
    destruct (Hc Hi) as [Hends _]. destruct Hends as [answer Ha]; [apply Nat.leb_le; reflexivity|]. exists r, p, answer. split; [reflexivity|exact Ha].
  - apply (f_equal (λ l, l !! 1%nat)) in H. rewrite list_lookup_fmap, Hi in H. discriminate H.
Defined.
