(* ===== verification/Admission.v ===== *)
(** What admission reads and decides: the target's frozen form, then the chain of filters.

    The monitoring target's frozen form (contract/target_scope.go): the table of what a
    condition's field is matched on, the check of a scope, and its dynamic groups. *)
From Stdlib Require Import Ascii.
From S2P Require Import Prelude Group Absence Roster Decimal TargetPlan.

Open Scope Z_scope.

(** ** The table *)

Definition TargetScopeTopoNode : string := "TOPO_NODE".
Definition TargetScopeDynamicGroup : string := "DYNAMIC_GROUP".
Definition TargetScopeServiceInstance : string := "SERVICE_INSTANCE".
Definition TargetScopeObjectModelInst : string := "OBJECT_MODEL_INST".
Definition TargetScopeExclude : string := "NEQ".

Definition AttributeHostIdentity : string := "host.identity".
Definition AttributeServiceInstanceID : string := "service_instance.id".
Definition AttributeHostTopoNode : string := "host.topo_node".

Inductive TargetScopeAttributeSource : Type :=
  | TargetScopeSourceFacts
  | TargetScopeSourceDimensionPairs.

Inductive TargetScopeAbsence : Type :=
  | TargetScopeAbsenceSkipCondition
  | TargetScopeAbsenceFailGroup.

Record TargetScopeAttribute : Type := mkAttribute {
  attr_Attribute : string;
  attr_Source : TargetScopeAttributeSource;
  attr_Absence : TargetScopeAbsence;
  AbsenceReason : string;
  MismatchReason : string;
}.

Definition TargetScopeReasonOutOfScope : string := "out_of_scope".
Definition TargetScopeReasonObjectIdentityMissing : string := "object_identity_missing".
Definition TargetScopeReasonObjectIdentityUnmatched : string := "object_identity_unmatched".
Definition TargetScopeReasonDynamicGroupUnavailable : string := "dynamic_group_unavailable".

Definition targetScopeAttributes : list (string * TargetScopeAttribute) :=
  [(TargetScopeHost,
    mkAttribute AttributeHostIdentity TargetScopeSourceFacts TargetScopeAbsenceSkipCondition "" TargetScopeReasonOutOfScope);
   (TargetScopeDynamicGroup,
    mkAttribute AttributeHostIdentity TargetScopeSourceFacts TargetScopeAbsenceSkipCondition "" TargetScopeReasonOutOfScope);
   (TargetScopeServiceInstance,
    mkAttribute AttributeServiceInstanceID TargetScopeSourceFacts TargetScopeAbsenceSkipCondition "" TargetScopeReasonOutOfScope);
   (TargetScopeTopoNode,
    mkAttribute AttributeHostTopoNode TargetScopeSourceFacts TargetScopeAbsenceFailGroup TargetScopeReasonOutOfScope
      TargetScopeReasonOutOfScope);
   (TargetScopeObjectModelInst,
    mkAttribute "" TargetScopeSourceDimensionPairs TargetScopeAbsenceFailGroup TargetScopeReasonObjectIdentityMissing
      TargetScopeReasonObjectIdentityUnmatched)].

Definition TargetScopeAttributeFor (field : string) : option TargetScopeAttribute :=
  (λ found, found.2.2) <$> list_find (λ row, row.1 = field) targetScopeAttributes.

Definition TargetScopeFields : list string := str_le_sort (fst <$> targetScopeAttributes).

(** ** Its check *)

Definition pair_blank (names : string * string) : bool := blank names.1 || blank names.2.

(** The first pair that fails, and how. *)
Fixpoint check_pairs (field : string) (seen : gset (string * string)) (pairs : list (string * string)) : result string unit :=
  match pairs with
  | [] => Ok tt
  | names :: pairs =>
      if pair_blank names then Err ("alarmd contract: a " +:+ field +:+ " identity pair must name both dimensions")
      else if bool_decide (names ∈ seen) then Err ("alarmd contract: " +:+ field +:+ " identity pairs must be unique")
      else check_pairs field ({[names]} ∪ seen) pairs
  end%string.

Fixpoint strings_sorted (keys : list string) : bool :=
  match keys with
  | a :: (b :: _) as rest => negb (str_ltb b a) && strings_sorted rest
  | _ => true
  end.

Fixpoint neighbours_differ (keys : list string) : bool :=
  match keys with
  | a :: (b :: _) as rest => negb (a =? b)%string && neighbours_differ rest
  | _ => true
  end.

Definition condition_validate (condition : TargetScopeConditionV2) : result string unit :=
  let field := Field condition in
  match TargetScopeAttributeFor field with
  | None => Err "alarmd contract: unknown target scope field"
  | Some attribute =>
      if negb ((Method condition =? TargetScopeInclude) || (Method condition =? TargetScopeExclude)) then
        Err "alarmd contract: unknown target scope method"
      else
        _ ← (match attr_Source attribute with
             | TargetScopeSourceDimensionPairs =>
                 if bool_decide (IdentityFields condition = []) then
                   Err ("alarmd contract: a " +:+ field +:+ " condition needs the dimension pairs its records are identified by")
                 else check_pairs field ∅ (IdentityFields condition)
             | TargetScopeSourceFacts =>
                 fail_if (negb (bool_decide (IdentityFields condition = [])))
                   ("alarmd contract: identity pairs are only meaningful on " +:+ TargetScopeObjectModelInst +:+ ", not " +:+ field)
             end);
        _ ← fail_if (existsb blank (Keys condition)) "alarmd contract: target scope keys must be non-empty canonical text";
        _ ← fail_if (negb (strings_sorted (Keys condition))) "alarmd contract: target scope keys must be canonically ordered";
        fail_if (negb (neighbours_differ (Keys condition))) "alarmd contract: target scope keys must be unique"
  end%string.

Fixpoint check_all {A} (check : A → result string unit) (l : list A) : result string unit :=
  match l with [] => Ok tt | x :: l => _ ← check x; check_all check l end.

Definition group_validate (group : TargetScopeGroupV2) : result string unit :=
  if bool_decide (Conditions group = []) then Err "alarmd contract: a target scope group needs at least one condition"%string
  else check_all condition_validate (Conditions group).

(** [Validate]; no scope is valid. *)
Definition TargetScope_Validate (scope : option TargetScopeV2) : result string unit :=
  match scope with
  | None => Ok tt
  | Some scope =>
      if bool_decide (scope_Groups scope = []) then
        Err "alarmd contract: a target scope with no alternative matches nothing and must be absent instead"%string
      else check_all group_validate (scope_Groups scope)
  end.

(** ** Its groups and keys *)

Definition add_once (ids : list string) (id : string) : list string := if bool_decide (id ∈ ids) then ids else ids ++ [id].

Definition DynamicGroupIDs (scope : option TargetScopeV2) : list string :=
  match scope with
  | None => []
  | Some scope =>
      foldl (λ ids group,
        foldl (λ ids condition, if negb (Field condition =? TargetScopeDynamicGroup)%string then ids else foldl add_once ids (Keys condition))
          ids (Conditions group))
        [] (scope_Groups scope)
  end.

Definition CanonicalTargetScopeKeys (keys : list string) : list string :=
  str_le_sort (foldl (λ kept key, let key := TrimSpace key in if (key =? "")%string then kept else add_once kept key) [] keys).

(** * Admission

    Which records a Plan is about (admission/chain.go, identity_fuller.go, target_scope.go,
    contract_scope.go, target_plan.go, host_status.go, definitive.go; the addresses of
    contract/target_plan.go): what is learned of a record, the filters that read it, and
    what a rejection can be acted on as. *)

(** ** A record's dimensions

    A raw value by what JSON says it is: its text, or its number as it is written; an
    array, an object and [true] are all other. *)
Inductive RawValue : Type :=
  | RawString (text : string)
  | RawNumber (literal : string)
  | RawNull
  | RawFalse
  | RawOther.

#[export] Instance RawValue_eq_dec : EqDecision RawValue.
Proof. solve_decision. Defined.

#[local] Abbreviation dims := (gmap string RawValue).

(** What [strconv.ParseFloat] makes of a text: the integer it is when it is one of an
    [int64], the integer a finite value truncates to, and whether a literal is zero. *)
Class NumberText : Type := {
  whole : string → option Z;
  truncated : string → option Z;
  zero_literal : string → bool;
}.

Definition FormatInt (z : Z) : string := if z <? 0 then "-" +:+ print_digits (- z) else print_digits z.

(** [strconv.ParseInt] in base ten. *)
Definition integer_text (text : string) : bool :=
  let digits := match text with
                | String c rest => if (c =? "-")%char || (c =? "+")%char then rest else text
                | EmptyString => text
                end in
  negb (digits =? "")%string && forallb is_digit (String.list_ascii_of_string digits).
Definition ParseInt (text : string) : option Z := if integer_text text then Atoi text else None.

Section dimensions.
Context `{Numbers : !NumberText}.

Definition dimensionText (dimensions : dims) (name : string) : string :=
  match dimensions !! name with
  | Some (RawString text) => TrimSpace text
  | Some (RawNumber literal) => match whole literal with Some z => FormatInt z | None => literal end
  | _ => ""
  end%string.

(** The text of a value Python takes as true. *)
Definition TruthyDimension (dimensions : dims) (name : string) : string :=
  match dimensions !! name with
  | Some (RawNumber literal) => if zero_literal literal then ""%string else dimensionText dimensions name
  | _ => dimensionText dimensions name
  end.

Definition safeIntText (text fallback : string) : string :=
  let text := TrimSpace text in
  if (text =? "")%string then fallback
  else
    match ParseInt text with
    | Some value => FormatInt value
    | None => match truncated text with Some value => FormatInt value | None => fallback end
    end.

Definition LookupAddressKey (address cloud : string) : string :=
  if (address =? "")%string then ""%string else address +:+ "|" +:+ safeIntText cloud "0".

Definition present (dimensions : dims) (name : string) : bool := bool_decide (is_Some (dimensions !! name)).

Definition TargetAddressKey (dimensions : dims) (targetCloud : string) : string :=
  let address := if present dimensions "bk_target_ip" then TruthyDimension dimensions "bk_target_ip" else TruthyDimension dimensions "ip" in
  if (address =? "")%string then ""%string
  else
    let cloud := if present dimensions "bk_target_cloud_id" || negb (targetCloud =? "")%string then targetCloud
                 else if present dimensions "bk_cloud_id" then dimensionText dimensions "bk_cloud_id"
                 else "0"%string in
    address +:+ "|" +:+ cloud.

Definition FullerAddress (dimensions : dims) : string * string :=
  let address := TruthyDimension dimensions "bk_target_ip" in
  let address := if (address =? "")%string then TruthyDimension dimensions "ip" else address in
  let cloud := TruthyDimension dimensions "bk_target_cloud_id" in
  let cloud := if (cloud =? "")%string then TruthyDimension dimensions "bk_cloud_id" else cloud in
  (address, if (cloud =? "")%string then "0"%string else cloud).

(** ** What is learned of a record (admission/chain.go) *)

Record HostNaming : Type := mkNaming {
  NamedID : bool;
  NamedAddress : bool;
  NamedCloud : bool;
  Usable : bool;
  IDKey : string;
  AddressKey : string;
}.

Definition LookupKey (naming : HostNaming) : option string :=
  if negb (IDKey naming =? "")%string then Some (IDKey naming)
  else if NamedAddress naming && NamedCloud naming && negb (AddressKey naming =? "")%string then Some (AddressKey naming)
  else None.

(** No attributes is the map that is nil. *)
Record Facts : Type := mkFacts {
  Attributes : gmap string (list string);
  f_Dimensions : dims;
  f_TenantID : string;
  HostResolved : bool;
  HostUnresolved : bool;
  ReportedAddressDiffers : bool;
  PlacedByHostID : bool;
  HostState : string;
  HostBusinessID : string;
  f_HostNaming : HostNaming;
  HostFactsUnavailable : bool;
  FactsUnavailableSource : string;
}.

Definition no_naming : HostNaming := mkNaming false false false false "" "".
Definition no_facts (dimensions : dims) (tenant : string) : Facts :=
  mkFacts ∅ dimensions tenant false false false false "" "" no_naming false "".

Definition FactsUnavailableHostIndex : string := "host_facts_unavailable".
Definition FactsUnavailableServiceInstanceIndex : string := "service_instance_facts_unavailable".

Definition with_attributes (facts : Facts) (attributes : gmap string (list string)) : Facts :=
  mkFacts attributes (f_Dimensions facts) (f_TenantID facts) (HostResolved facts) (HostUnresolved facts) (ReportedAddressDiffers facts)
    (PlacedByHostID facts) (HostState facts) (HostBusinessID facts) (f_HostNaming facts) (HostFactsUnavailable facts)
    (FactsUnavailableSource facts).
Definition with_naming (facts : Facts) (naming : HostNaming) : Facts :=
  mkFacts (Attributes facts) (f_Dimensions facts) (f_TenantID facts) (HostResolved facts) (HostUnresolved facts)
    (ReportedAddressDiffers facts) (PlacedByHostID facts) (HostState facts) (HostBusinessID facts) naming (HostFactsUnavailable facts)
    (FactsUnavailableSource facts).

Definition MarkFactsUnavailable (facts : Facts) (source : string) : Facts :=
  if HostFactsUnavailable facts then facts
  else
    mkFacts (Attributes facts) (f_Dimensions facts) (f_TenantID facts) (HostResolved facts) (HostUnresolved facts)
      (ReportedAddressDiffers facts) (PlacedByHostID facts) (HostState facts) (HostBusinessID facts) (f_HostNaming facts) true source.

Definition FactsUnavailableReason (facts : Facts) : string :=
  if negb (HostFactsUnavailable facts) then ""%string
  else if (FactsUnavailableSource facts =? "")%string then FactsUnavailableHostIndex
  else FactsUnavailableSource facts.

Definition Candidates (facts : Facts) (attribute : string) : list string := default [] (Attributes facts !! attribute).

Definition Facts_Add (facts : Facts) (attribute value : string) : Facts :=
  if (attribute =? "")%string || (value =? "")%string then facts
  else with_attributes facts (<[attribute := add_once (Candidates facts attribute) value]> (Attributes facts)).

Definition Facts_Set (facts : Facts) (attribute : string) (values : list string) : Facts :=
  if (attribute =? "")%string then facts
  else
    let canonical := foldl (λ kept value, if (value =? "")%string then kept else add_once kept value) [] values in
    if bool_decide (canonical = []) then with_attributes facts (delete attribute (Attributes facts))
    else with_attributes facts (<[attribute := str_le_sort canonical]> (Attributes facts)).

(** ** The identities a record carries (admission/identity_fuller.go) *)

Definition IdentityFuller_Fill (dimensions : dims) (facts : Facts) : Facts :=
  let targetAddress := TruthyDimension dimensions "bk_target_ip" in
  let hostIDText := TruthyDimension dimensions "bk_host_id" in
  let facts := with_naming facts
    (mkNaming (present dimensions "bk_host_id") (present dimensions "bk_target_ip") (present dimensions "bk_target_cloud_id")
       (negb (targetAddress =? "")%string || negb (hostIDText =? "")%string) hostIDText
       (LookupAddressKey targetAddress (dimensionText dimensions "bk_target_cloud_id"))) in
  let address := TargetAddressKey dimensions (dimensionText dimensions "bk_target_cloud_id") in
  let facts := if negb (address =? "")%string then Facts_Add facts AttributeHostIdentity address else facts in
  let facts := if negb (hostIDText =? "")%string then Facts_Add facts AttributeHostIdentity hostIDText else facts in
  let facts := if present dimensions "bk_obj_id" && present dimensions "bk_inst_id" then
                 Facts_Set facts AttributeHostTopoNode [dimensionText dimensions "bk_obj_id" +:+ "|" +:+ dimensionText dimensions "bk_inst_id"]
               else facts in
  let serviceInstance := dimensionText dimensions "bk_target_service_instance_id" in
  let serviceInstance := if (serviceInstance =? "")%string then dimensionText dimensions "service_instance_id" else serviceInstance in
  Facts_Add facts AttributeServiceInstanceID serviceInstance.

(** ** The target a Plan is filtered by (admission/target_scope.go, target_plan.go) *)

Record TargetScopeCondition : Type := mkTargetCondition {
  tc_Field : string;
  tc_Method : string;
  tc_Keys : gset string;
  tc_IdentityFields : list (string * string);
  GroupIDs : list string;
  MembershipUnknown : bool;
}.

Record TargetScopeGroup : Type := mkTargetGroup { tg_Conditions : list TargetScopeCondition }.

Record TargetScope : Type := mkTargetScope { ts_Groups : list TargetScopeGroup }.

(** [TargetMembership], and what a membership that has the methods says of itself. *)
Record TargetMembership : Type := mkMembership {
  tm_Contains : string → bool;
  Unavailable : option bool;
  Definitive : option bool;
}.

Record TargetPlanContext : Type := mkPlanTarget {
  tp_Identity : TargetPlanIdentityV1;
  Members : option TargetMembership;
}.

Record PlanContext : Type := mkPlanContext {
  pc_TenantID : string;
  pc_BusinessID : string;
  pc_StrategyID : string;
  pc_TargetScope : option TargetScope;
  pc_TargetPlan : option TargetPlanContext;
}.

Record Decision : Type := mkDecision {
  Admit : bool;
  dec_Reason : string;
}.

Definition convert_condition (condition : TargetScopeConditionV2) : TargetScopeCondition :=
  if (Field condition =? TargetScopeDynamicGroup)%string then
    mkTargetCondition (Field condition) (Method condition) ∅ (IdentityFields condition) (Keys condition)
      (0 <? Z.of_nat (length (Keys condition)))
  else mkTargetCondition (Field condition) (Method condition) (list_to_set (Keys condition)) (IdentityFields condition) [] false.

Definition convert_group (group : TargetScopeGroupV2) : TargetScopeGroup := mkTargetGroup (convert_condition <$> Conditions group).

Definition TargetScopeFromContract (source : option TargetScopeV2) : option TargetScope :=
  match source with
  | None => None
  | Some source => Some (mkTargetScope (convert_group <$> scope_Groups source))
  end.

(** ** Dynamic groups *)

Record GroupMembership : Type := mkGroupMembership {
  HostIDs : list string;
  Known : bool;
}.

(** What is known of the groups of a Slot; no lookup answers for none. *)
Definition membership_of (lookup : option (string → option GroupMembership)) (id : string) : option GroupMembership :=
  match lookup with None => None | Some lookup => lookup id end.

Definition read_group (lookup : option (string → option GroupMembership)) (read : gset string * bool) (id : string) : gset string * bool :=
  match membership_of lookup id with
  | None => (read.1, true)
  | Some membership => (list_to_set (HostIDs membership) ∪ read.1, read.2 || negb (Known membership))
  end.

Definition read_condition (lookup : option (string → option GroupMembership)) (condition : TargetScopeCondition) : TargetScopeCondition :=
  if negb (tc_Field condition =? TargetScopeDynamicGroup)%string then condition
  else
    let '(keys, unknown) := foldl (read_group lookup) (∅, false) (GroupIDs condition) in
    mkTargetCondition (tc_Field condition) (tc_Method condition) keys (tc_IdentityFields condition) (GroupIDs condition) unknown.

Definition WithGroupMemberships (scope : option TargetScope) (lookup : option (string → option GroupMembership)) : option TargetScope :=
  match scope with
  | None => None
  | Some scope => Some (mkTargetScope ((λ group, mkTargetGroup (read_condition lookup <$> tg_Conditions group)) <$> ts_Groups scope))
  end.

(** ** Matching *)

Record matchTrace : Type := mkTrace {
  failed : option TargetScopeCondition;
  absent : bool;
  candidates : list string;
  uniform : bool;
  failures : Z;
  undecided : bool;
  objectIdentityHit : bool;
}.

Definition no_trace : matchTrace := mkTrace None false [] false 0 false false.

Definition trace_fail (trace : matchTrace) (condition : TargetScopeCondition) (missing : bool) (found : list string) : matchTrace :=
  let uniform :=
    if failures trace =? 0 then true
    else
      match failed trace with
      | None => false
      | Some last =>
          if negb (tc_Field last =? tc_Field condition)%string || negb (tc_Method last =? tc_Method condition)%string
             || negb (Bool.eqb (absent trace) missing) then false
          else uniform trace
      end in
  mkTrace (Some condition) missing found uniform (i64 (failures trace + 1)) (undecided trace) (objectIdentityHit trace).

Definition trace_undecided (trace : matchTrace) : matchTrace :=
  mkTrace (failed trace) (absent trace) (candidates trace) (uniform trace) (failures trace) true (objectIdentityHit trace).
Definition trace_hit (trace : matchTrace) (hit : bool) : matchTrace :=
  mkTrace (failed trace) (absent trace) (candidates trace) (uniform trace) (failures trace) (undecided trace) hit.

Definition trace_reason (trace : matchTrace) : string :=
  if undecided trace then TargetScopeReasonDynamicGroupUnavailable
  else
    match failed trace with
    | None => TargetScopeReasonOutOfScope
    | Some condition =>
        if negb (uniform trace) then TargetScopeReasonOutOfScope
        else
          match TargetScopeAttributeFor (tc_Field condition) with
          | None => TargetScopeReasonOutOfScope
          | Some attribute =>
              let reason := if absent trace then AbsenceReason attribute
                            else if (tc_Method condition =? TargetScopeInclude)%string then MismatchReason attribute
                            else ""%string in
              if (reason =? "")%string then TargetScopeReasonOutOfScope else reason
          end
    end.

Definition object_key (dimensions : dims) (keys : list string) (names : string * string) : list string :=
  let model := dimensionText dimensions names.1 in
  if (model =? "")%string then keys
  else
    let instance := dimensionText dimensions names.2 in
    if (instance =? "")%string then keys else add_once keys (model +:+ "|" +:+ instance).

Definition objectIdentityKeys (facts : Facts) (pairs : list (string * string)) : list string :=
  if bool_decide (f_Dimensions facts = ∅) then [] else foldl (object_key (f_Dimensions facts)) [] pairs.

Definition condition_candidates (facts : Facts) (attribute : TargetScopeAttribute) (condition : TargetScopeCondition) : list string :=
  match attr_Source attribute with
  | TargetScopeSourceDimensionPairs => objectIdentityKeys facts (tc_IdentityFields condition)
  | TargetScopeSourceFacts => Candidates facts (attr_Attribute attribute)
  end.

(** What a condition does to its group: pass, with or without an object's identity, or end it. *)
Inductive verdict : Type :=
  | Holds (object : bool)
  | Ends (undecided missing : bool) (found : list string).

Definition judge (facts : Facts) (condition : TargetScopeCondition) : verdict :=
  match TargetScopeAttributeFor (tc_Field condition) with
  | None => Ends false true []
  | Some attribute =>
      let found := condition_candidates facts attribute condition in
      if bool_decide (found = []) then
        match attr_Absence attribute with
        | TargetScopeAbsenceSkipCondition => Holds false
        | TargetScopeAbsenceFailGroup => Ends false true []
        end
      else
        let hit := existsb (λ candidate, bool_decide (candidate ∈ tc_Keys condition)) found in
        if MembershipUnknown condition then
          if (tc_Method condition =? TargetScopeInclude)%string && hit then Holds false else Ends true false found
        else
          let hit := if (tc_Method condition =? TargetScopeExclude)%string then negb hit else hit in
          if negb hit then Ends false false found
          else Holds (match attr_Source attribute with TargetScopeSourceDimensionPairs => true | TargetScopeSourceFacts => false end)
  end.

Fixpoint group_matches (facts : Facts) (trace : matchTrace) (object : bool) (conditions : list TargetScopeCondition) : bool * matchTrace :=
  match conditions with
  | [] => (true, trace_hit trace object)
  | condition :: conditions =>
      match judge facts condition with
      | Holds here => group_matches facts trace (object || here) conditions
      | Ends unread missing found =>
          (false, trace_fail (if unread then trace_undecided trace else trace) condition missing found)
      end
  end.

Fixpoint scope_matches (facts : Facts) (trace : matchTrace) (groups : list TargetScopeGroup) : bool * matchTrace :=
  match groups with
  | [] => (false, trace)
  | group :: groups =>
      let '(matched, trace) := group_matches facts trace false (tg_Conditions group) in
      if matched then (true, trace) else scope_matches facts trace groups
  end.

(** What is reported of an object's identity: a match, no identity, or one not in the target. *)
Inductive IdentityEvent : Type :=
  | ReportAdmitted
  | ReportMissing (expected : list (string * string)) (dimensions : dims)
  | ReportUnmatched (candidates : list string) (targets : gset string).

Definition given_facts (facts : option Facts) : Facts := default (no_facts ∅ "") facts.

Definition TargetScopeFilter_Admit (plan : PlanContext) (facts : option Facts) : Decision * option IdentityEvent :=
  match pc_TargetScope plan with
  | None => (mkDecision true "", None)
  | Some scope =>
      if bool_decide (ts_Groups scope = []) then (mkDecision false "scope_empty", None)
      else
        let facts := given_facts facts in
        if HostFactsUnavailable facts then (mkDecision true (FactsUnavailableReason facts), None)
        else
          let '(matched, trace) := scope_matches facts no_trace (ts_Groups scope) in
          if matched then (mkDecision true "", if objectIdentityHit trace then Some ReportAdmitted else None)
          else
            let reason := trace_reason trace in
            (mkDecision false reason,
             match failed trace with
             | None => None
             | Some condition =>
                 if (reason =? TargetScopeReasonObjectIdentityMissing)%string then
                   Some (ReportMissing (tc_IdentityFields condition) (f_Dimensions facts))
                 else if (reason =? TargetScopeReasonObjectIdentityUnmatched)%string then
                   Some (ReportUnmatched (candidates trace) (tc_Keys condition))
                 else None
             end)
  end.

(** ** Target plans (admission/target_plan.go, contract/target_plan.go) *)

Definition TargetPlanReasonKeyMissing : string := "target_key_missing".
Definition TargetPlanReasonOutOfTarget : string := "out_of_target".
Definition TargetPlanReasonUnresolved : string := "target_plan_unresolved".
Definition TargetPlanReasonSelectorUnavailable : string := "target_selector_unavailable".

Definition IPCloudIPAliasDimension : string := "ip".
Definition IPCloudCloudAliasDimension : string := "bk_cloud_id".

(** An octet of the canonical dotted form. *)
Definition octet (text : string) : bool := canonicalDecimalPattern text && (digits_value 0 text <=? 255).

Fixpoint split_dots (current text : string) : list string :=
  match text with
  | "" => [current]
  | String c rest => if (c =? ".")%char then current :: split_dots "" rest else split_dots (current +:+ String c "") rest
  end%string.

(** [netip.ParseAddr] and [Is4]. *)
Definition dotted (text : string) : bool :=
  let octets := split_dots "" text in (length octets =? 4)%nat && forallb octet octets.

Definition CanonicalIPv4 (raw : RawValue) : option string :=
  match raw with RawString text => if dotted text then Some text else None | _ => None end.

Definition CanonicalCloudArea (raw : RawValue) : option string :=
  match raw with
  | RawString text | RawNumber text => if canonicalDecimalPattern text then Some text else None
  | _ => None
  end.

Definition readIPCloudHalf (dimensions : dims) (name alias : string) (parse : RawValue → option string) : option string :=
  match dimensions !! name, dimensions !! alias with
  | Some raw, Some aliasRaw =>
      value ← parse raw;
      aliasValue ← parse aliasRaw;
      if (value =? aliasValue)%string then Some value else None
  | Some raw, None => parse raw
  | None, Some aliasRaw => parse aliasRaw
  | None, None => None
  end.

Definition ReadIPCloudKey (dimensions : dims) : option string :=
  ip ← readIPCloudHalf dimensions IPCloudIPDimension IPCloudIPAliasDimension CanonicalIPv4;
  cloud ← readIPCloudHalf dimensions IPCloudCloudDimension IPCloudCloudAliasDimension CanonicalCloudArea;
  Some (TargetPlanMemberKey [ip; cloud]).

Definition HostKey (hostID : string) : string := TargetPlanMemberKey [hostID].

Definition targetPlanRecordKey (identity : TargetPlanIdentityV1) (dimensions : dims) : option string :=
  if Address identity then ReadIPCloudKey dimensions else identity_Key identity (dimensionText dimensions).

Definition outsideReason (members : TargetMembership) : string :=
  match Unavailable members with
  | Some true => TargetPlanReasonSelectorUnavailable
  | _ => TargetPlanReasonOutOfTarget
  end.

Definition hostIDCandidates (facts : Facts) : list string :=
  let id := IDKey (f_HostNaming facts) in if (id =? "")%string then [] else [id].

Definition TargetPlanFilter_Admit (plan : PlanContext) (facts : option Facts) : Decision :=
  match pc_TargetPlan plan with
  | None => mkDecision true ""
  | Some target =>
      match Members target with
      | None => mkDecision false TargetPlanReasonUnresolved
      | Some members =>
          let facts := given_facts facts in
          if HostIdentity_ (tp_Identity target) then
            let ids := hostIDCandidates facts in
            if existsb (λ id, tm_Contains members (HostKey id)) ids then mkDecision true ""
            else if bool_decide (ids = []) then
              if HostFactsUnavailable facts then mkDecision false (FactsUnavailableReason facts)
              else mkDecision false TargetPlanReasonKeyMissing
            else mkDecision false (outsideReason members)
          else
            match targetPlanRecordKey (tp_Identity target) (f_Dimensions facts) with
            | None => mkDecision false TargetPlanReasonKeyMissing
            | Some key => if tm_Contains members key then mkDecision true "" else mkDecision false (outsideReason members)
            end
      end
  end.

(** ** A host's state (admission/host_status.go) *)

Fixpoint text_contains (text needle : string) : bool :=
  String.prefix needle text || match text with "" => false | String _ rest => text_contains rest needle end%string.

Definition NewHostStatusFilter (states : list string) : list string :=
  filter (λ state, state ≠ ""%string) (TrimSpace <$> states).

(** A filter that is nil decides nothing. *)
Definition HostStatusFilter_Admit (states : option (list string)) (facts : option Facts) : Decision :=
  match states, facts with
  | Some states, Some facts =>
      let naming := f_HostNaming facts in
      if negb (NamedID naming) && negb (NamedAddress naming) then mkDecision true ""
      else if negb (Usable naming) then mkDecision false "host_identity_invalid"
      else
        match LookupKey naming with
        | None => mkDecision true ""
        | Some _ =>
            if HostFactsUnavailable facts then mkDecision true (FactsUnavailableReason facts)
            else if negb (HostResolved facts) then mkDecision false "host_unknown"
            else if existsb (text_contains (HostState facts)) states then mkDecision false "monitoring_disabled"
            else mkDecision true ""
        end
  | _, _ => mkDecision true ""
  end.
End dimensions.

(** ** The chain (admission/chain.go) *)

(** [Fuller] and [Filter], the interfaces. *)
Record Fuller : Type := mkFuller {
  fuller_Name : string;
  Fill : dims → Facts → Facts;
}.

Record Filter : Type := mkFilter {
  filter_Name : string;
  filter_Admit : PlanContext → option Facts → Decision;
}.

Record Chain : Type := mkChain {
  fullers : list Fuller;
  filters : list Filter;
}.

Definition EnrichFor (chain : option Chain) (tenant : string) (dimensions : dims) : Facts :=
  let facts := no_facts dimensions tenant in
  match chain with
  | None => facts
  | Some chain => foldl (λ facts fuller, Fill fuller dimensions facts) facts (fullers chain)
  end.

Fixpoint admit_filters (plan : PlanContext) (facts : option Facts) (reported : string * string) (filters : list Filter)
    : bool * string * string :=
  match filters with
  | [] => (true, reported.1, reported.2)
  | f :: filters =>
      let decision := filter_Admit f plan facts in
      if negb (Admit decision) then (false, filter_Name f, dec_Reason decision)
      else
        admit_filters plan facts
          (if negb (dec_Reason decision =? "")%string && (reported.2 =? "")%string then (filter_Name f, dec_Reason decision) else reported)
          filters
  end.

Definition Chain_Admit (chain : option Chain) (plan : PlanContext) (facts : option Facts) : bool * string * string :=
  match chain with
  | None => (true, "", "")%string
  | Some chain => admit_filters plan facts ("", "")%string (filters chain)
  end.

Definition TargetScopeFilter `{Numbers : !NumberText} : Filter :=
  mkFilter "target_scope" (λ plan facts, (TargetScopeFilter_Admit plan facts).1).
Definition TargetPlanFilter `{Numbers : !NumberText} : Filter := mkFilter "target_plan" TargetPlanFilter_Admit.
Definition HostStatusFilter (states : option (list string)) : Filter :=
  mkFilter "host_status" (λ _ facts, HostStatusFilter_Admit states facts).
Definition IdentityFuller `{Numbers : !NumberText} : Fuller := mkFuller "identity" IdentityFuller_Fill.

(** ** What a rejection can be acted on as (admission/definitive.go) *)

Inductive RejectionStanding : Type :=
  | StandingNotTarget
  | StandingDefinitive
  | StandingCacheUnavailable
  | StandingIndefinite.

#[export] Instance RejectionStanding_eq_dec : EqDecision RejectionStanding.
Proof. solve_decision. Defined.

Definition hostNotPlaced (facts : Facts) : bool :=
  HostUnresolved facts || (bool_decide (is_Some (LookupKey (f_HostNaming facts))) && negb (HostResolved facts)).

Definition RejectionStandingOf (plan : PlanContext) (facts : option Facts) (filter reason : string) : RejectionStanding :=
  if (filter =? "target_scope")%string then
    match facts with
    | None => StandingCacheUnavailable
    | Some facts =>
        if HostFactsUnavailable facts then StandingCacheUnavailable
        else if (reason =? TargetScopeReasonDynamicGroupUnavailable)%string then StandingCacheUnavailable
        else if negb (reason =? TargetScopeReasonOutOfScope)%string then StandingIndefinite
        else if hostNotPlaced facts then StandingCacheUnavailable
        else StandingDefinitive
    end
  else if (filter =? "target_plan")%string then
    match facts, pc_TargetPlan plan with
    | Some facts, Some (mkPlanTarget identity (Some members)) =>
        if HostFactsUnavailable facts then StandingCacheUnavailable
        else if (reason =? TargetPlanReasonSelectorUnavailable)%string then StandingCacheUnavailable
        else if negb (reason =? TargetPlanReasonOutOfTarget)%string then StandingIndefinite
        else if (HostIdentity_ identity || Address identity) && hostNotPlaced facts then StandingCacheUnavailable
        else match Definitive members with Some true => StandingDefinitive | _ => StandingCacheUnavailable end
    | _, _ => StandingCacheUnavailable
    end
  else StandingNotTarget.

Definition DefinitelyOutside (plan : PlanContext) (facts : option Facts) (filter reason : string) : bool :=
  bool_decide (RejectionStandingOf plan facts filter reason = StandingDefinitive).
