(* ===== verification/AdmissionSpec.v ===== *)
(** What admission promises: a scope admits exactly the records inside one of its
    alternatives, a rejection stands whatever the groups not read turn out to hold, and
    a rejection acted on was decided on facts that were all there. *)
From S2P Require Import Prelude Group Absence Roster Decimal TargetPlan Admission.

Open Scope Z_scope.

Section scope.
Context `{Numbers : !NumberText}.
Implicit Types (facts : Facts) (c : TargetScopeCondition) (lookup : option (string → option GroupMembership)).

(** ** One condition, one group, one scope *)

(** What a condition asks of a record's candidates. *)
Definition asks (method : string) (keys : gset string) (found : list string) : Prop :=
  if (method =? TargetScopeExclude)%string then ∀ x, x ∈ found → x ∉ keys else ∃ x, x ∈ found ∧ x ∈ keys.

(** A condition holds of a record: its field is known, and its candidates are as it asks or
    there are none and it is one that is skipped. *)
Definition holds facts (field method : string) (keys : gset string) (pairs : list (string * string)) : Prop :=
  ∃ attribute, TargetScopeAttributeFor field = Some attribute ∧
    let found := condition_candidates facts attribute (mkTargetCondition field method keys pairs [] false) in
    (found = [] ∧ attr_Absence attribute = TargetScopeAbsenceSkipCondition) ∨ (found ≠ [] ∧ asks method keys found).

Definition is_holds (v : verdict) : bool := match v with Holds _ => true | Ends _ _ _ => false end.

Lemma hit_spec (keys : gset string) found :
  existsb (λ candidate, bool_decide (candidate ∈ keys)) found = true ↔ ∃ x, x ∈ found ∧ x ∈ keys.
Proof.
  rewrite existsb_exists. split; intros (x & Hx & Hk); exists x; rewrite <- list_elem_of_In in *; by rewrite bool_decide_eq_true in *.
Qed.

Lemma no_hit_spec (keys : gset string) found :
  existsb (λ candidate, bool_decide (candidate ∈ keys)) found = false ↔ ∀ x, x ∈ found → x ∉ keys.
Proof.
  rewrite <- not_true_iff_false, hit_spec. split; [intros H x Hx Hk; apply H; eauto|intros H (x & Hx & Hk); by apply (H x)].
Qed.

Lemma condition_candidates_ext facts attribute c c' : tc_IdentityFields c = tc_IdentityFields c' →
  condition_candidates facts attribute c = condition_candidates facts attribute c'.
Proof. unfold condition_candidates. by intros ->. Qed.

(** With its membership read, a condition holds exactly when it passes. *)
Lemma judge_holds facts c : MembershipUnknown c = false →
  is_holds (judge facts c) = true ↔ holds facts (tc_Field c) (tc_Method c) (tc_Keys c) (tc_IdentityFields c).
Proof.
  intros Hu. unfold judge, holds. destruct (TargetScopeAttributeFor (tc_Field c)) as [attribute|]; [|naive_solver].
  pose proof (condition_candidates_ext facts attribute (mkTargetCondition (tc_Field c) (tc_Method c) (tc_Keys c) (tc_IdentityFields c) [] false)
    c eq_refl) as Hfound.
  transitivity ((condition_candidates facts attribute c = [] ∧ attr_Absence attribute = TargetScopeAbsenceSkipCondition)
    ∨ (condition_candidates facts attribute c ≠ [] ∧ asks (tc_Method c) (tc_Keys c) (condition_candidates facts attribute c))).
  2: { rewrite <- Hfound. split; [intros H; by exists attribute|]. by intros (? & [= <-] & H). }
  clear Hfound. set (found := condition_candidates facts attribute c). rewrite Hu. unfold asks.
  case_bool_decide as Hf; [destruct (attr_Absence attribute); naive_solver|].
  destruct (existsb _ _) eqn:Hh; destruct (_ =? TargetScopeExclude)%string; cbn;
    [rewrite hit_spec in Hh|rewrite hit_spec in Hh|rewrite no_hit_spec in Hh|rewrite no_hit_spec in Hh]; naive_solver.
Qed.

(** A group passes whatever the trace. *)
Lemma group_matches_fst facts trace object conditions :
  (group_matches facts trace object conditions).1 = forallb (λ c, is_holds (judge facts c)) conditions.
Proof.
  revert trace object. induction conditions as [|c cs IH]; intros trace object; [done|]. cbn. destruct (judge facts c); [apply IH|done].
Qed.

Lemma scope_matches_fst facts trace groups :
  (scope_matches facts trace groups).1 = existsb (λ g, forallb (λ c, is_holds (judge facts c)) (tg_Conditions g)) groups.
Proof.
  revert trace. induction groups as [|g groups IH]; intros trace; [done|]. cbn.
  pose proof (group_matches_fst facts trace false (tg_Conditions g)) as H.
  destruct (group_matches _ _ _ _) as [matched trace']. cbn in H. rewrite <- H. destruct matched; [done|]. apply IH.
Qed.

(** *** Groups read *)

Lemma read_groups_spec lookup ids read : 
  let read' := foldl (read_group lookup) read ids in
  (∀ x, x ∈ read'.1 ↔ x ∈ read.1 ∨ ∃ id m, id ∈ ids ∧ membership_of lookup id = Some m ∧ x ∈ HostIDs m)
  ∧ (read'.2 = false ↔ read.2 = false ∧ ∀ id, id ∈ ids → ∃ m, membership_of lookup id = Some m ∧ Known m = true).
Proof.
  revert read. induction ids as [|id ids IH]; intros read; cbn.
  { split; [intros x; split; [auto|intros [?|(? & ? & ?%not_elem_of_nil & _)]; done]|].
    split; [intros; split; [done|]; intros ? ?%not_elem_of_nil; done|by intros [? _]]. }
  destruct (IH (read_group lookup read id)) as [H1 H2]. rewrite H2. unfold read_group in *. split.
  - intros x. rewrite H1. destruct (membership_of lookup id) as [m|] eqn:Hm; cbn.
    + rewrite elem_of_union, elem_of_list_to_set. setoid_rewrite elem_of_cons. naive_solver.
    + setoid_rewrite elem_of_cons. naive_solver.
  - destruct (membership_of lookup id) as [m|] eqn:Hm; cbn.
    + rewrite orb_false_iff, negb_false_iff. setoid_rewrite elem_of_cons. naive_solver.
    + setoid_rewrite elem_of_cons. split; [naive_solver|]. intros [_ Hall]. destruct (Hall id) as (m & ? & _); [by left|congruence].
Qed.
Implicit Types (d : TargetScopeConditionV2).

#[local] Abbreviation read lookup d := (read_condition lookup (convert_condition d)).

Lemma read_same lookup d : let c := read lookup d in
  tc_Field c = Field d ∧ tc_Method c = Method d ∧ tc_IdentityFields c = IdentityFields d
  ∧ (Field d ≠ TargetScopeDynamicGroup → c = convert_condition d ∧ tc_Keys c = list_to_set (Keys d) ∧ MembershipUnknown c = false).
Proof.
  unfold read_condition, convert_condition. destruct (Field d =? TargetScopeDynamicGroup)%string eqn:E; cbn; rewrite E; cbn.
  - apply String.eqb_eq in E. by destruct (foldl _ _ _).
  - done.
Qed.

Lemma read_dynamic lookup d : Field d = TargetScopeDynamicGroup → let c := read lookup d in
  (∀ x, x ∈ tc_Keys c ↔ ∃ id m, id ∈ Keys d ∧ membership_of lookup id = Some m ∧ x ∈ HostIDs m)
  ∧ (MembershipUnknown c = false ↔ ∀ id, id ∈ Keys d → ∃ m, membership_of lookup id = Some m ∧ Known m = true).
Proof.
  intros E. unfold read_condition, convert_condition. rewrite E. cbn.
  pose proof (read_groups_spec lookup (Keys d) (∅, false)) as H. destruct (foldl (read_group lookup) (∅, false) (Keys d)) as [keys unknown].
  cbn in *. destruct H as [H1 H2]. split; [intros x; rewrite H1; set_solver|naive_solver].
Qed.

(** The keys of a condition, its groups being of those members. *)
Definition scope_keys (members : string → list string) d : gset string :=
  if (Field d =? TargetScopeDynamicGroup)%string then list_to_set (Keys d ≫= members) else list_to_set (Keys d).

Definition condition_holds (members : string → list string) facts d : Prop :=
  holds facts (Field d) (Method d) (scope_keys members d) (IdentityFields d).

Lemma read_members lookup members d :
  (Field d = TargetScopeDynamicGroup → ∀ id, id ∈ Keys d → membership_of lookup id = Some (mkGroupMembership (members id) true)) →
  MembershipUnknown (read lookup d) = false ∧ tc_Keys (read lookup d) = scope_keys members d.
Proof.
  intros H. unfold scope_keys. destruct (String.eqb_spec (Field d) TargetScopeDynamicGroup) as [E|E].
  - destruct (read_dynamic lookup d E) as [Hk Hu]. split; [apply Hu; eauto|]. apply set_eq. intros x. rewrite Hk, elem_of_list_to_set, list_elem_of_bind.
    split.
    + intros (id & m & Hid & Hm & Hx). rewrite H in Hm by done. injection Hm as <-. by exists id.
    + intros (id & Hx & Hid). exists id. eexists. split_and!; [done|by apply H|done].
  - destruct (read_same lookup d) as (_ & _ & _ & Hr). destruct (Hr E) as (_ & ? & ?). done.
Qed.

(** *** The ids of dynamic groups *)

Lemma add_once_elem ids id x : x ∈ add_once ids id ↔ x ∈ ids ∨ x = id.
Proof. unfold add_once. case_bool_decide; set_solver. Qed.

Lemma foldl_grows {A} (f : list string → A → list string) l x : (∀ ids a, x ∈ ids → x ∈ f ids a) → ∀ ids, x ∈ ids → x ∈ foldl f ids l.
Proof. intros Hf. induction l as [|a l IH]; intros ids Hx; [done|]. cbn. by apply IH, Hf. Qed.

Lemma foldl_adds {A} (f : list string → A → list string) l a x :
  (∀ ids b, x ∈ ids → x ∈ f ids b) → a ∈ l → (∀ ids, x ∈ f ids a) → ∀ ids, x ∈ foldl f ids l.
Proof.
  intros Hf Ha Hx. apply list_elem_of_split in Ha as (l1 & l2 & ->). intros ids. rewrite foldl_app. cbn. by apply foldl_grows.
Qed.

Lemma add_keys_grow ids keys x : x ∈ ids → x ∈ foldl add_once ids keys.
Proof. apply foldl_grows. intros. apply add_once_elem. by left. Qed.

Lemma dynamic_ids scope group d id : group ∈ scope_Groups scope → d ∈ Conditions group → Field d = TargetScopeDynamicGroup → id ∈ Keys d →
  id ∈ DynamicGroupIDs (Some scope).
Proof.
  intros Hg Hd E Hid. unfold DynamicGroupIDs. eapply foldl_adds; [|exact Hg|].
  - intros ids g Hx. apply foldl_grows; [|done]. intros ids' d' Hx'. destruct (negb _); [done|]. by apply add_keys_grow.
  - intros ids. eapply foldl_adds; [|exact Hd|].
    + intros ids' d' Hx'. destruct (negb _); [done|]. by apply add_keys_grow.
    + intros ids'. rewrite E. cbn. eapply foldl_adds; [|exact Hid|].
      * intros. apply add_once_elem. by left.
      * intros. apply add_once_elem. by right.
Qed.

(** ** The filter *)

Definition scope_plan (plan : PlanContext) (source : TargetScopeV2) lookup : Prop :=
  pc_TargetScope plan = WithGroupMemberships (TargetScopeFromContract (Some source)) lookup.

(** The groups the filter matches. *)
Definition read_scope (source : TargetScopeV2) lookup : list TargetScopeGroup :=
  (λ group, mkTargetGroup ((λ d, read lookup d) <$> Conditions group)) <$> scope_Groups source.

Lemma filter_spec plan source lookup facts : scope_plan plan source lookup → HostFactsUnavailable facts = false →
  (TargetScopeFilter_Admit plan (Some facts)).1 =
  if bool_decide (scope_Groups source = []) then mkDecision false "scope_empty"
  else let '(matched, trace) := scope_matches facts no_trace (read_scope source lookup) in
       if matched then mkDecision true "" else mkDecision false (trace_reason trace).
Proof.
  intros Hp Hf. unfold TargetScopeFilter_Admit. rewrite Hp. cbn [WithGroupMemberships TargetScopeFromContract ts_Groups].
  change (given_facts (Some facts)) with facts. cbn zeta. rewrite Hf.
  assert ((λ group, mkTargetGroup (read_condition lookup <$> tg_Conditions group)) <$> (convert_group <$> scope_Groups source)
          = read_scope source lookup) as ->.
  { unfold read_scope. rewrite <- list_fmap_compose. apply list_fmap_ext. intros _ g _. unfold convert_group. cbn. by rewrite <- list_fmap_compose. }
  unfold read_scope. destruct (scope_Groups source) as [|g groups]; [done|]. rewrite fmap_cons, !bool_decide_false by done.
  by destruct (scope_matches _ _ _) as [[] ?].
Qed.

Lemma scope_decides_spec plan source (members : string → list string) (lookup : string → option GroupMembership) facts :
  scope_plan plan source (Some lookup) → HostFactsUnavailable facts = false →
  (∀ id, id ∈ DynamicGroupIDs (Some source) → lookup id = Some (mkGroupMembership (members id) true)) →
  Admit (TargetScopeFilter_Admit plan (Some facts)).1 = true ↔
  ∃ group, group ∈ scope_Groups source ∧ ∀ d, d ∈ Conditions group → condition_holds members facts d.
Proof.
  intros Hp Hf Hknown. rewrite (filter_spec _ _ _ _ Hp Hf). case_bool_decide as Hg.
  { rewrite Hg. cbn. split; [done|]. by intros (? & ?%not_elem_of_nil & _). }
  pose proof (scope_matches_fst facts no_trace (read_scope source (Some lookup))) as Hm.
  destruct (scope_matches _ _ _) as [matched trace]. cbn in Hm. transitivity (matched = true); [by destruct matched|].
  assert (∀ group d, group ∈ scope_Groups source → d ∈ Conditions group →
    is_holds (judge facts (read (Some lookup) d)) = true ↔ condition_holds members facts d) as Hd.
  { intros group d Hgroup Hin. destruct (read_members (Some lookup) members d) as [Hu Hk]; [intros E id Hid; by eapply Hknown, dynamic_ids|].
    rewrite judge_holds by done. destruct (read_same (Some lookup) d) as (-> & -> & -> & _). by rewrite Hk. }
  rewrite Hm, existsb_exists. setoid_rewrite <- list_elem_of_In. unfold read_scope. split.
  - intros (g & (group & -> & Hin)%list_elem_of_fmap & Hall). exists group. split; [done|].
    intros d Hin'. apply (Hd group d Hin Hin'). rewrite forallb_forall in Hall. apply Hall. cbn. rewrite <- list_elem_of_In. apply list_elem_of_fmap. by exists d.
  - intros (group & Hin & Hall). eexists. split; [apply list_elem_of_fmap; by exists group|]. rewrite forallb_forall. intros c Hc. cbn in Hc.
    rewrite <- list_elem_of_In in Hc. apply list_elem_of_fmap in Hc as (d & -> & Hin'). by apply (Hd group d Hin Hin'), Hall.
Qed.
(** C22: a record is inside a target exactly when it is inside one of its alternatives: the CMDB
    read and the members of every group the target names known, the filter admits a record
    exactly when every condition of some group holds of it, where a condition without a
    candidate holds only if its field is one that is skipped, an inclusion holds of a
    record one of whose candidates it names, and an exclusion of one none of whose
    candidates it names. *)
Theorem scope_decides plan source (members : string → list string) (lookup : string → option GroupMembership) facts :
  scope_plan plan source (Some lookup) → HostFactsUnavailable facts = false →
  (∀ id, id ∈ DynamicGroupIDs (Some source) → lookup id = Some (mkGroupMembership (members id) true)) →
  Admit (TargetScopeFilter_Admit plan (Some facts)).1 = true ↔
  ∃ group, group ∈ scope_Groups source ∧ ∀ d, d ∈ Conditions group → condition_holds members facts d.
Proof. apply scope_decides_spec. Qed.

(** ** Groups not read *)

(** A later reading of the groups: what was known stays, and what was not holds at least the
    members that were. *)
Definition grows lookup lookup' : Prop := ∀ id m, membership_of lookup id = Some m →
  ∃ m', membership_of lookup' id = Some m' ∧ if Known m then m' = m else HostIDs m ⊆ HostIDs m'.

Lemma read_groups_same lookup lookup' ids : (∀ id, id ∈ ids → membership_of lookup id = membership_of lookup' id) →
  ∀ start, foldl (read_group lookup) start ids = foldl (read_group lookup') start ids.
Proof.
  induction ids as [|id ids IH]; intros H start; [done|]. cbn. unfold read_group at 2 4. rewrite H by left.
  apply IH. intros. apply H. by right.
Qed.

Lemma read_members_same lookup lookup' d : grows lookup lookup' → MembershipUnknown (read lookup d) = false → read lookup' d = read lookup d.
Proof.
  intros Hg Hu. destruct (decide (Field d = TargetScopeDynamicGroup)) as [E|E].
  - destruct (read_dynamic lookup d E) as [_ Hr]. pose proof (proj1 Hr Hu) as Hall. clear Hr Hu. unfold read_condition, convert_condition. rewrite E. cbn.
    rewrite (read_groups_same lookup lookup'); [done|]. intros id Hid. destruct (Hall id Hid) as (m & Hm & Hk).
    destruct (Hg id m Hm) as (m' & Hm' & Heq). rewrite Hk in Heq. congruence.
  - destruct (read_same lookup d) as (_ & _ & _ & H). destruct (read_same lookup' d) as (_ & _ & _ & H').
    destruct (H E) as [-> _]. by destruct (H' E) as [-> _].
Qed.

Lemma read_grows lookup lookup' d : grows lookup lookup' → Field d = TargetScopeDynamicGroup → tc_Keys (read lookup d) ⊆ tc_Keys (read lookup' d).
Proof.
  intros Hg E x Hx. destruct (read_dynamic lookup d E) as [Hr _]. destruct (read_dynamic lookup' d E) as [Hr' _].
  apply Hr in Hx as (id & m & Hid & Hm & Hx). apply Hr'.
  destruct (Hg id m Hm) as (m' & Hm' & H). exists id, m'. split_and!; [done..|]. destruct (Known m); [by subst|by apply H].
Qed.

(** What is decided of a condition stays decided. *)
Lemma judge_grows facts lookup lookup' d : grows lookup lookup' →
  match judge facts (read lookup d) with
  | Holds object => judge facts (read lookup' d) = Holds object
  | Ends false _ _ => read lookup' d = read lookup d
  | Ends true _ _ => True
  end.
Proof.
  intros Hg. destruct (MembershipUnknown (read lookup d)) eqn:Hu.
  2: { pose proof (read_members_same lookup lookup' d Hg Hu) as Heq. rewrite Heq. by destruct (judge _ _) as [|[] ? ?]. }
  destruct (decide (Field d = TargetScopeDynamicGroup)) as [E|E].
  2: { destruct (read_same lookup d) as (_ & _ & _ & H). destruct (H E) as (_ & _ & ?). congruence. }
  pose proof (read_grows lookup lookup' d Hg E) as Hsub. unfold judge.
  destruct (read_same lookup d) as (-> & -> & _). destruct (read_same lookup' d) as (-> & -> & _). rewrite E.
  change (TargetScopeAttributeFor TargetScopeDynamicGroup) with
    (Some (mkAttribute AttributeHostIdentity TargetScopeSourceFacts TargetScopeAbsenceSkipCondition "" TargetScopeReasonOutOfScope)).
  unfold condition_candidates. cbn [attr_Source attr_Attribute attr_Absence]. case_bool_decide; [done|]. rewrite Hu. destruct (_ =? _)%string eqn:Hinc; [|done]. cbn.
  apply String.eqb_eq in Hinc. destruct (existsb _ _) eqn:Hhit; [|done]. apply hit_spec in Hhit as (x & Hx & Hk).
  assert (existsb (λ candidate, bool_decide (candidate ∈ tc_Keys (read lookup' d))) (Candidates facts AttributeHostIdentity) = true) as ->.
  { apply hit_spec. exists x. auto. }
  rewrite Hinc. case (MembershipUnknown (read lookup' d)); reflexivity.
Qed.

Lemma group_undecided facts trace object conditions : undecided trace = true → undecided (group_matches facts trace object conditions).2 = true.
Proof.
  revert trace object. induction conditions as [|c cs IH]; intros trace object H; [done|]. cbn. destruct (judge facts c) as [|[] ? ?]; auto.
Qed.

Lemma scope_undecided facts trace groups : undecided trace = true → undecided (scope_matches facts trace groups).2 = true.
Proof.
  revert trace. induction groups as [|g groups IH]; intros trace H; [done|]. cbn.
  pose proof (group_undecided facts trace false (tg_Conditions g) H) as Hg. destruct (group_matches _ _ _ _) as [[] trace']; [done|]. by apply IH.
Qed.

Lemma group_grows facts lookup lookup' ds trace object : grows lookup lookup' →
  let r := group_matches facts trace object ((λ d, read lookup d) <$> ds) in
  let r' := group_matches facts trace object ((λ d, read lookup' d) <$> ds) in
  (r.1 = true → r' = r) ∧ (undecided r.2 = false → r' = r).
Proof.
  intros Hg. revert trace object. induction ds as [|d ds IH]; intros trace object; [done|]. cbn.
  pose proof (judge_grows facts lookup lookup' d Hg) as H. destruct (judge facts (read lookup d)) as [here|[] missing found] eqn:Hj.
  - rewrite H. apply IH.
  - cbn. split; [done|]. by destruct (trace_fail _ _ _ _).
  - rewrite H, Hj. done.
Qed.

Lemma scope_grows facts lookup lookup' groups trace : grows lookup lookup' →
  let r := scope_matches facts trace ((λ g, mkTargetGroup ((λ d, read lookup d) <$> Conditions g)) <$> groups) in
  let r' := scope_matches facts trace ((λ g, mkTargetGroup ((λ d, read lookup' d) <$> Conditions g)) <$> groups) in
  (r.1 = true → r'.1 = true) ∧ (undecided r.2 = false → r' = r).
Proof.
  intros Hg. cbn zeta. split.
  - rewrite !scope_matches_fst, !existsb_exists. intros (g & Hin & Hall). rewrite <- list_elem_of_In in Hin.
    apply list_elem_of_fmap in Hin as (group & -> & Hin). eexists. rewrite <- list_elem_of_In. split; [apply list_elem_of_fmap; by exists group|].
    destruct (group_grows facts lookup lookup' (Conditions group) no_trace false Hg) as [H _]. rewrite <- (group_matches_fst facts no_trace false) in *.
    cbn [tg_Conditions] in *. by rewrite H.
  - revert trace. induction groups as [|g groups IH]; intros trace; [done|]. cbn.
    destruct (group_grows facts lookup lookup' (Conditions g) trace false Hg) as [H1 H2].
    destruct (group_matches facts trace false (_ <$> Conditions g)) as [matched trace'] eqn:E. cbn in H1, H2. destruct matched; [by rewrite H1|].
    intros Hu. rewrite H2; [by apply IH|]. destruct (undecided trace') eqn:Hu'; [|done].
    by rewrite (scope_undecided facts trace' _ Hu') in Hu.
Qed.
Lemma reason_undecided trace : trace_reason trace ≠ TargetScopeReasonDynamicGroupUnavailable → undecided trace = false.
Proof. unfold trace_reason. by destruct (undecided trace). Qed.

Lemma filter_given plan (facts : option Facts) : TargetScopeFilter_Admit plan facts = TargetScopeFilter_Admit plan (Some (given_facts facts)).
Proof. by destruct facts. Qed.

Lemma filter_unavailable plan source lookup facts : scope_plan plan source lookup → HostFactsUnavailable facts = true →
  (TargetScopeFilter_Admit plan (Some facts)).1
  = if bool_decide (scope_Groups source = []) then mkDecision false "scope_empty" else mkDecision true (FactsUnavailableReason facts).
Proof.
  intros Hp Hf. unfold TargetScopeFilter_Admit. rewrite Hp. cbn [WithGroupMemberships TargetScopeFromContract ts_Groups].
  change (given_facts (Some facts)) with facts. cbn zeta. rewrite Hf. by destruct (scope_Groups source).
Qed.

(** A decision with a group unread is the one every later reading gives: when the groups a
    target names turn out to hold at least the members known, an admission stays, and so
    does a rejection for any reason but that a group was not read, with its reason. *)
Lemma rejection_stands plan plan' source lookup lookup' (facts : option Facts) :
  scope_plan plan source lookup → scope_plan plan' source lookup' → grows lookup lookup' →
  let d := (TargetScopeFilter_Admit plan facts).1 in
  let d' := (TargetScopeFilter_Admit plan' facts).1 in
  Admit d = true ∨ dec_Reason d ≠ TargetScopeReasonDynamicGroupUnavailable → d' = d.
Proof.
  intros Hp Hp' Hg. rewrite (filter_given plan), (filter_given plan'). cbn zeta. destruct (HostFactsUnavailable (given_facts facts)) eqn:Hf.
  { by rewrite (filter_unavailable _ _ _ _ Hp Hf), (filter_unavailable _ _ _ _ Hp' Hf). }
  rewrite (filter_spec _ _ _ _ Hp Hf), (filter_spec _ _ _ _ Hp' Hf). case_bool_decide; [done|].
  destruct (scope_grows (given_facts facts) lookup lookup' (scope_Groups source) no_trace Hg) as [H1 H2]. unfold read_scope.
  destruct (scope_matches _ _ _) as [[] trace] eqn:E; cbn in H1, H2 |- *.
  - intros _. specialize (H1 eq_refl). clear E. revert H1. destruct (scope_matches _ _ _) as [matched' ?]. cbn. by intros ->.
  - intros [?|Hr%reason_undecided]; [done|]. by rewrite H2.
Qed.

(** ** What a rejection can be acted on as *)

(** The chain's answer is its first rejecting filter's. *)
Lemma admit_filters_rejects plan (facts : option Facts) reported fs name reason : admit_filters plan facts reported fs = (false, name, reason) →
  ∃ f, f ∈ fs ∧ filter_Name f = name ∧ filter_Admit f plan facts = mkDecision false reason.
Proof.
  revert reported. induction fs as [|f fs IH]; intros reported; [done|]. cbn. destruct (filter_Admit f plan facts) as [passed why] eqn:E.
  destruct passed; cbn; [intros (g & ? & ? & ?)%IH; exists g; set_solver|]. intros [= <- <-]. exists f. rewrite E. set_solver.
Qed.

Definition target_filter (f : Filter) : Prop := f = TargetScopeFilter ∨ f = TargetPlanFilter ∨ ∃ states, f = HostStatusFilter states.

(** The members every group has in the end. *)
Definition settles lookup (members : string → list string) : Prop := grows lookup (Some (λ id, Some (mkGroupMembership (members id) true))).

(** What a target plan says of a record outside it. *)
Definition outside_plan (target : TargetPlanContext) facts : Prop :=
  ∃ members, Members target = Some members ∧ Definitive members = Some true ∧ Unavailable members ≠ Some true ∧
    (HostIdentity_ (tp_Identity target) || Address (tp_Identity target) = true → hostNotPlaced facts = false) ∧
    if HostIdentity_ (tp_Identity target) then
      IDKey (f_HostNaming facts) ≠ ""%string ∧ tm_Contains members (HostKey (IDKey (f_HostNaming facts))) = false
    else ∃ key, targetPlanRecordKey (tp_Identity target) (f_Dimensions facts) = Some key ∧ tm_Contains members key = false.

Lemma plan_rejects plan facts reason : HostFactsUnavailable facts = false →
  TargetPlanFilter_Admit plan (Some facts) = mkDecision false reason →
  RejectionStandingOf plan (Some facts) "target_plan" reason = StandingDefinitive →
  ∃ target, pc_TargetPlan plan = Some target ∧ outside_plan target facts.
Proof.
  intros Hf. unfold RejectionStandingOf, TargetPlanFilter_Admit. cbn. destruct (pc_TargetPlan plan) as [[identity [members|]]|]; try done.
  change (given_facts (Some facts)) with facts. cbn zeta. cbn [Members tp_Identity]. rewrite Hf. intros Hd Hs. eexists. split; [done|].
  destruct (reason =? TargetPlanReasonSelectorUnavailable)%string eqn:Hsel; [done|].
  destruct (reason =? TargetPlanReasonOutOfTarget)%string eqn:Hout; [|done]. cbn [negb] in Hs.
  destruct ((HostIdentity_ identity || Address identity) && hostNotPlaced facts) eqn:Hplaced; [done|].
  exists members. cbn [Members tp_Identity]. split; [done|]. split; [by destruct (Definitive members) as [[]|]|].
  apply String.eqb_eq in Hout. subst reason. apply andb_false_iff in Hplaced.
  assert (outsideReason members = TargetPlanReasonOutOfTarget → Unavailable members ≠ Some true) as Hun by (unfold outsideReason; by destruct (Unavailable members) as [[]|]).
  destruct (HostIdentity_ identity).
  - unfold hostIDCandidates in Hd. destruct (IDKey (f_HostNaming facts) =? "")%string eqn:Hid; [done|]. cbn in Hd. rewrite orb_false_r in Hd.
    destruct (tm_Contains members _) eqn:Hc; [done|]. injection Hd as Hd. apply String.eqb_neq in Hid.
    split_and!; [by apply Hun|by destruct Hplaced|done|done].
  - destruct (targetPlanRecordKey _ _) as [key|] eqn:Hk; [|done]. destruct (tm_Contains members key) eqn:Hc; [done|]. injection Hd as Hd.
    split_and!; [by apply Hun|intros ?; by destruct Hplaced; congruence|]. exists key. done.
Qed.

Lemma scope_rejects plan source lookup members facts reason : scope_plan plan source lookup → settles lookup members →
  HostFactsUnavailable facts = false → (TargetScopeFilter_Admit plan (Some facts)).1 = mkDecision false reason →
  reason ≠ TargetScopeReasonDynamicGroupUnavailable →
  ¬ ∃ group, group ∈ scope_Groups source ∧ ∀ d, d ∈ Conditions group → condition_holds members facts d.
Proof.
  intros Hp Hs Hf Hd Hr.
  set (plan' := mkPlanContext "" "" "" (WithGroupMemberships (TargetScopeFromContract (Some source))
                  (Some (λ id, Some (mkGroupMembership (members id) true)))) None).
  pose proof (rejection_stands plan plan' source lookup _ (Some facts) Hp eq_refl Hs) as H. cbn zeta in H. rewrite Hd in H.
  rewrite <- (scope_decides_spec plan' source members _ facts eq_refl Hf (λ _ _, eq_refl)). rewrite H by (by right). done.
Qed.

(** C12: a rejection acted on is the target's own. Whatever fullers ran, and over the filters
    in any order: when the chain rejects a record and the rejection is definitive, the
    facts were all read, and either the record is outside every alternative of the scope
    whatever the groups not read turn out to hold, its host placed if it names one; or
    its key was built and the members of a resolution that answered in full do not hold
    it. No other filter's rejection is. *)
Theorem definitive_outside fullers fs plan (facts : option Facts) name reason :
  (∀ f, f ∈ fs → target_filter f) →
  Chain_Admit (Some (mkChain fullers fs)) plan facts = (false, name, reason) →
  DefinitelyOutside plan facts name reason = true →
  ∃ f, facts = Some f ∧ HostFactsUnavailable f = false ∧
    ((name = "target_scope"%string ∧ hostNotPlaced f = false ∧
      ∀ source lookup members, scope_plan plan source lookup → settles lookup members →
        ¬ ∃ group, group ∈ scope_Groups source ∧ ∀ d, d ∈ Conditions group → condition_holds members f d)
     ∨ (name = "target_plan"%string ∧ ∃ target, pc_TargetPlan plan = Some target ∧ outside_plan target f)).
Proof.
  intros Hfs (f & Hin & <- & Hf)%admit_filters_rejects Hs%bool_decide_eq_true. destruct (Hfs f Hin) as [->|[->|[states ->]]]; [| |done].
  - unfold RejectionStandingOf in Hs. cbn in Hs, Hf. destruct facts as [facts|]; [|done]. exists facts. split; [done|].
    destruct (HostFactsUnavailable facts) eqn:Hu; [done|]. split; [done|]. left.
    destruct (reason =? TargetScopeReasonDynamicGroupUnavailable)%string eqn:Hr; [done|]. apply String.eqb_neq in Hr.
    destruct (negb _); [done|]. destruct (hostNotPlaced facts); [done|]. split_and!; [done..|].
    intros source lookup members Hp Hset. by eapply scope_rejects.
  - destruct facts as [facts|]; [|done]. exists facts. split; [done|]. destruct (HostFactsUnavailable facts) eqn:Hu.
    { unfold RejectionStandingOf in Hs. cbn in Hs. rewrite Hu in Hs. by destruct (pc_TargetPlan plan) as [[? [?|]]|]. }
    split; [done|]. right. split; [done|]. by eapply plan_rejects.
Qed.
(** A scope of alternatives of one condition each. *)
Definition alternatives (ds : list TargetScopeConditionV2) : TargetScopeV2 := mkScope ((λ d, mkScopeGroup [d]) <$> ds).

(** C37: a record whose object identity could not be built is called definitively outside when the
    target names a host beside the object: an alternative the record carries no identity
    for is never acted on alone, and is as soon as a second alternative rejects the record's
    host, since reasons that differ are reported as plain out of scope. *)
Theorem unbuilt_identity_definitive plan plan' lookup facts object host :
  Field object = TargetScopeObjectModelInst → objectIdentityKeys facts (IdentityFields object) = [] →
  Field host = TargetScopeHost → Method host = TargetScopeInclude → Candidates facts AttributeHostIdentity ≠ [] →
  (∀ x, x ∈ Candidates facts AttributeHostIdentity → x ∉ Keys host) →
  HostFactsUnavailable facts = false → hostNotPlaced facts = false →
  scope_plan plan (alternatives [object]) lookup → scope_plan plan' (alternatives [object; host]) lookup →
  let d := (TargetScopeFilter_Admit plan (Some facts)).1 in
  let d' := (TargetScopeFilter_Admit plan' (Some facts)).1 in
  Admit d = false ∧ DefinitelyOutside plan (Some facts) "target_scope" (dec_Reason d) = false ∧
  Admit d' = false ∧ DefinitelyOutside plan' (Some facts) "target_scope" (dec_Reason d') = true.
Proof.
  intros Ho Hnone Hh Hm Hsome Hout Hu Hplaced Hp Hp' d d'.
  assert (judge facts (read lookup object) = Ends false true []) as Hj.
  { unfold judge. destruct (read_same lookup object) as (-> & _ & Hpairs & _). rewrite Ho. cbn. unfold condition_candidates. cbn.
    rewrite Hpairs, Hnone. done. }
  assert (judge facts (read lookup host) = Ends false false (Candidates facts AttributeHostIdentity)) as Hj'.
  { unfold judge. destruct (read_same lookup host) as (-> & -> & _ & Hr). destruct Hr as (_ & -> & ->); [by rewrite Hh|]. rewrite Hh, Hm.
    change (TargetScopeAttributeFor TargetScopeHost) with
      (Some (mkAttribute AttributeHostIdentity TargetScopeSourceFacts TargetScopeAbsenceSkipCondition "" TargetScopeReasonOutOfScope)).
    unfold condition_candidates. cbn [attr_Source attr_Attribute]. rewrite bool_decide_false by done. rewrite (proj2 (no_hit_spec _ _)); [done|].
    intros x Hx. rewrite elem_of_list_to_set. by apply Hout. }
  assert (d = mkDecision false TargetScopeReasonObjectIdentityMissing) as ->.
  { unfold d. rewrite (filter_spec _ _ _ _ Hp Hu). cbn -[judge read_condition trace_reason]. rewrite Hj. cbn -[read_condition trace_reason].
    unfold trace_reason. cbn. destruct (read_same lookup object) as (-> & _). by rewrite Ho. }
  assert (d' = mkDecision false TargetScopeReasonOutOfScope) as ->.
  { unfold d'. rewrite (filter_spec _ _ _ _ Hp' Hu). cbn -[judge read_condition trace_reason]. rewrite Hj. cbn -[judge read_condition trace_reason].
    rewrite Hj'. cbn -[read_condition trace_reason]. unfold trace_fail, trace_reason. cbn.
    destruct (read_same lookup object) as (-> & _). destruct (read_same lookup host) as (-> & _). by rewrite Ho, Hh. }
  unfold DefinitelyOutside, RejectionStandingOf. cbn. rewrite Hu, Hplaced. done.
Qed.
End scope.

(** * Examples

    Records against targets: a scope with a dynamic group, a target plan, a host's state, and an
    object whose identity could not be built. *)

(** Literals without a fraction or an exponent. *)
#[local] Instance plain_numbers : NumberText := {|
  whole := ParseInt;
  truncated := ParseInt;
  zero_literal := λ literal, bool_decide (ParseInt literal = Some 0);
|}.

(** ** A record

    It names its host by id, and carries no object. *)
Definition ex_dimensions : gmap string RawValue :=
  <["bk_host_id" := RawNumber "7"]> (<["bk_target_ip" := RawString " 10.0.0.1"]> (<["device" := RawString "sda"]> ∅)).

(** What a CMDB fuller learns of it. *)
Definition ex_cmdb : Fuller :=
  mkFuller "cmdb" (λ _ facts,
    mkFacts (Attributes (Facts_Set facts AttributeHostTopoNode ["set|2"; "module|3"; "set|2"])) (f_Dimensions facts) (f_TenantID facts) true false
      false true "running" "2" (f_HostNaming facts) false "")%string.

Definition ex_fullers : list Fuller := [IdentityFuller; ex_cmdb].

Definition ex_facts : Facts := EnrichFor (Some (mkChain ex_fullers [])) "tenant" ex_dimensions.

Example enriched :
  (Candidates ex_facts AttributeHostIdentity, Candidates ex_facts AttributeHostTopoNode, LookupKey (f_HostNaming ex_facts), hostNotPlaced ex_facts)
  = (["10.0.0.1|0"; "7"], ["module|3"; "set|2"], Some "7", false)%string.
Proof. vm_compute. reflexivity. Qed.

(** ** A scope

    Hosts of two dynamic groups outside one module, or one named host. *)
Definition ex_source : TargetScopeV2 :=
  mkScope
    [mkScopeGroup [mkCondition TargetScopeDynamicGroup TargetScopeInclude ["g1"; "g2"] []; mkCondition TargetScopeTopoNode TargetScopeExclude ["module|9"] []];
     mkScopeGroup [mkCondition TargetScopeHost TargetScopeInclude ["8"] []]]%string.

Example ex_source_valid : TargetScope_Validate (Some ex_source) = Ok tt ∧ DynamicGroupIDs (Some ex_source) = ["g1"; "g2"]%string.
Proof. split; reflexivity. Qed.

Definition ex_members (id : string) : list string := if (id =? "g2")%string then ["7"; "11"]%string else [].

(** The second group read and not the first; a later reading of both. *)
Definition ex_lookup (id : string) : option GroupMembership :=
  if (id =? "g2")%string then Some (mkGroupMembership (ex_members id) true) else None.
Definition all_known (id : string) : option GroupMembership := Some (mkGroupMembership (ex_members id) true).

Definition ex_plan (source : TargetScopeV2) (lookup : string → option GroupMembership) : PlanContext :=
  mkPlanContext "tenant" "2" "42" (WithGroupMemberships (TargetScopeFromContract (Some source)) (Some lookup)) None.

Definition ex_decides (source : TargetScopeV2) (lookup : string → option GroupMembership) : bool * string :=
  let d := (TargetScopeFilter_Admit (ex_plan source lookup) (Some ex_facts)).1 in (Admit d, dec_Reason d).

(** Admitted by the known members; not called outside while a group is unread; outside. *)
Example ex_runs :
  (ex_decides ex_source ex_lookup, ex_decides ex_source (λ _, None), ex_decides ex_source (λ _, Some (mkGroupMembership ["11"] true)))
  = ((true, ""), (false, "dynamic_group_unavailable"), (false, "out_of_scope"))%string.
Proof. vm_compute. reflexivity. Qed.

Lemma scope_decides_witness :
  ∃ group, group ∈ scope_Groups ex_source ∧ ∀ d, d ∈ Conditions group → condition_holds ex_members ex_facts d.
Proof.
  apply (scope_decides (ex_plan ex_source all_known) ex_source ex_members all_known ex_facts eq_refl eq_refl (λ _ _, eq_refl)).
  vm_compute. reflexivity.
Defined.

Lemma ex_grows : grows (Some ex_lookup) (Some all_known).
Proof.
  intros id m. cbn. unfold ex_lookup. destruct (id =? "g2")%string; [|done]. intros [= <-]. eexists. split; [reflexivity|]. done.
Qed.

Lemma rejection_stands_witness :
  (TargetScopeFilter_Admit (ex_plan ex_source all_known) (Some ex_facts)).1 = (TargetScopeFilter_Admit (ex_plan ex_source ex_lookup) (Some ex_facts)).1
  ∧ ex_decides ex_source ex_lookup = (true, ""%string).
Proof.
  split; [|vm_compute; reflexivity].
  apply (rejection_stands (ex_plan ex_source ex_lookup) (ex_plan ex_source all_known) ex_source (Some ex_lookup) (Some all_known) (Some ex_facts) eq_refl eq_refl ex_grows).
  left. vm_compute. reflexivity.
Defined.

(** ** A rejection acted on *)

Definition other_source : TargetScopeV2 := mkScope [mkScopeGroup [mkCondition TargetScopeHost TargetScopeInclude ["8"] []]]%string.

Definition ex_filters : list Filter := [HostStatusFilter (Some (NewHostStatusFilter [" spare "; ""])); TargetPlanFilter; TargetScopeFilter]%string.

Lemma definitive_outside_witness :
  Chain_Admit (Some (mkChain ex_fullers ex_filters)) (ex_plan other_source all_known) (Some ex_facts) = (false, "target_scope", "out_of_scope")%string
  ∧ ¬ ∃ group, group ∈ scope_Groups other_source ∧ ∀ d, d ∈ Conditions group → condition_holds ex_members ex_facts d.
Proof.
  assert (Chain_Admit (Some (mkChain ex_fullers ex_filters)) (ex_plan other_source all_known) (Some ex_facts)
          = (false, "target_scope", "out_of_scope")%string) as Hc by (vm_compute; reflexivity).
  split; [exact Hc|].
  destruct (definitive_outside ex_fullers ex_filters (ex_plan other_source all_known) (Some ex_facts) "target_scope" "out_of_scope")
    as (f & Hf & _ & [(_ & _ & H)|[? _]]); [|exact Hc|vm_compute; reflexivity| |discriminate].
  - intros f [->|[->|[->|[]%not_elem_of_nil]%elem_of_cons]%elem_of_cons]%elem_of_cons;
      [right; right; by eexists|right; left; reflexivity|left; reflexivity].
  - injection Hf as <-. apply (H other_source (Some all_known) ex_members eq_refl).
    intros id m Hm. exists m. split; [exact Hm|]. destruct (Known m); [reflexivity|intros x Hx; exact Hx].
Defined.

(** ** A target plan and a host's state *)

Definition ex_target (members : list string) (definitive : bool) : PlanContext :=
  mkPlanContext "tenant" "2" "42" None
    (Some (mkPlanTarget (mkIdentity ["bk_host_id"]%string "" "" true false)
             (Some (mkMembership (λ key, bool_decide (key ∈ members)) (Some (negb definitive)) (Some definitive))))).

Definition chain_says (plan : PlanContext) (facts : Facts) : bool * string * RejectionStanding :=
  let '(admitted, name, reason) := Chain_Admit (Some (mkChain ex_fullers ex_filters)) plan (Some facts) in
  (admitted, reason, RejectionStandingOf plan (Some facts) name reason).

(** A member; outside the members of a resolution in full, and of one that is not; a host in a
    disabled state, still inside its target; and a host the cache does not know. *)
Example ex_target_runs :
  (chain_says (ex_target ["7"] true) ex_facts, chain_says (ex_target ["8"] true) ex_facts, chain_says (ex_target ["8"] false) ex_facts,
   chain_says (ex_target ["8"] true)
     (mkFacts (Attributes ex_facts) ex_dimensions "tenant" true false false true "spare machine" "2" (f_HostNaming ex_facts) false ""),
   chain_says (ex_target ["8"] true) (IdentityFuller_Fill ex_dimensions (no_facts ex_dimensions "tenant")))
  = ((true, "", StandingNotTarget), (false, "out_of_target", StandingDefinitive),
     (false, "target_selector_unavailable", StandingCacheUnavailable), (false, "monitoring_disabled", StandingNotTarget),
     (false, "host_unknown", StandingNotTarget))%string.
Proof. vm_compute. reflexivity. Qed.

(** An address, read strictly and through its aliases. *)
Example ex_addresses :
  (ReadIPCloudKey (<["ip" := RawString "10.0.0.1"]> (<["bk_cloud_id" := RawNumber "0"]> ∅)),
   ReadIPCloudKey (<["ip" := RawString "10.0.0.01"]> (<["bk_cloud_id" := RawNumber "0"]> ∅)),
   ReadIPCloudKey (<["ip" := RawString "10.0.0.1"]> (<["bk_cloud_id" := RawNumber "0"]> (<["bk_target_cloud_id" := RawNull]> ∅))),
   ReadIPCloudKey (<["bk_target_ip" := RawString "10.0.0.256"]> (<["bk_cloud_id" := RawString "3"]> ∅)))
  = (Some "10.0.0.1|0", None, None, None)%string.
Proof. vm_compute. reflexivity. Qed.

(** ** An object's identity *)

Definition ex_object : TargetScopeConditionV2 := mkCondition TargetScopeObjectModelInst TargetScopeInclude ["switch|1"] [("model", "instance")]%string.
Definition ex_host : TargetScopeConditionV2 := mkCondition TargetScopeHost TargetScopeInclude ["8"]%string [].

Lemma unbuilt_identity_definitive_witness :
  ex_decides (alternatives [ex_object]) all_known = (false, "object_identity_missing")%string ∧
  DefinitelyOutside (ex_plan (alternatives [ex_object; ex_host]) all_known) (Some ex_facts) "target_scope"
    (dec_Reason (TargetScopeFilter_Admit (ex_plan (alternatives [ex_object; ex_host]) all_known) (Some ex_facts)).1) = true.
Proof.
  split; [vm_compute; reflexivity|].
  destruct (unbuilt_identity_definitive (ex_plan (alternatives [ex_object]) all_known) (ex_plan (alternatives [ex_object; ex_host]) all_known)
    (Some all_known) ex_facts ex_object ex_host) as (_ & _ & _ & H);
    [reflexivity|vm_compute; reflexivity|reflexivity|reflexivity|vm_compute; discriminate| |reflexivity|reflexivity|reflexivity|reflexivity|exact H].
  assert (Candidates ex_facts AttributeHostIdentity = ["10.0.0.1|0"; "7"]%string) as -> by (vm_compute; reflexivity).
  intros x Hx [->|[]%not_elem_of_nil]%elem_of_cons. rewrite !elem_of_cons in Hx. destruct Hx as [Hx|[Hx|Hx%not_elem_of_nil]]; [discriminate Hx|discriminate Hx|exact Hx].
Defined.
