(* ===== verification/QueryPermits.v ===== *)
(** The query budget of a process (scheduler/recovery.go, recovery_channels.go,
    lookback_permit.go): the permits of the [FlightCoordinator], its two queues of
    waiters, the recovery channels, and the lookback's permits.

    Every definition below is one critical section of the coordinator's mutex, or
    a part of one. A section takes the readings of [now()] it makes as a function
    of their position, so that the clock may move inside it, and returns what it
    sends on the waiters' channels beside the new state. *)
From stdpp Require Import pretty.
From S2P Require Import Prelude.

Open Scope Z_scope.

(** ** Operations and limits *)

Definition Operation : Type := string.
Definition OperationNormal : Operation := "normal".
Definition OperationRetry : Operation := "retry".
Definition OperationReplay : Operation := "replay".
Definition OperationProbe : Operation := "probe".
Definition OperationSupplement : Operation := "supplement".

Definition Operation_Validate (operation : Operation) : bool :=
  bool_decide (operation ∈ [OperationNormal; OperationRetry; OperationReplay; OperationProbe; OperationSupplement]).

Record SlotIdentity : Type := mkSlot {
  QueryGroup : string;
  EvaluationTime : Z;
}.

#[export] Instance SlotIdentity_eq_dec : EqDecision SlotIdentity.
Proof. solve_decision. Defined.

(** Durations and instants are in nanoseconds. *)
Record RecoveryLimits : Type := mkLimits {
  ProcessQueryPermits : Z;
  RecoveryQueryPermits : Z;
  ReadyQueueCapacity : Z;
  RecoveryQueueCapacity : Z;
  MaxQueuedItemsPerQG : Z;
  MaxReplaySlots : Z;
  MaxReplayAge : Z;
  RetryMinDelay : Z;
  RetryMaxDelay : Z;
}.

Definition RecoveryLimits_Validate (l : RecoveryLimits) : bool :=
  negb ((ProcessQueryPermits l <=? 0) || (RecoveryQueryPermits l <? 0) ||
    (ProcessQueryPermits l <=? RecoveryQueryPermits l) ||
    (ReadyQueueCapacity l <=? 0) || (RecoveryQueueCapacity l <=? 0) ||
    (MaxQueuedItemsPerQG l <=? 0) || (ReadyQueueCapacity l <=? MaxQueuedItemsPerQG l) ||
    (RecoveryQueueCapacity l <=? MaxQueuedItemsPerQG l) ||
    (MaxReplaySlots l =? 0) || (MaxReplayAge l <=? 0) ||
    (RetryMinDelay l <=? 0) || (RetryMaxDelay l <? RetryMinDelay l)).

(** ** Waiters and permits

    A waiter is a pointer in the code; [wt_ref] is its identity, and names the
    channel its grant arrives on. *)
Record queryPermitWaiter : Type := mkWaiter {
  wt_ref : nat;
  wt_slot : SlotIdentity;
  wt_operation : Operation;
  wt_deadline : Z;
}.

#[export] Instance queryPermitWaiter_eq_dec : EqDecision queryPermitWaiter.
Proof. solve_decision. Defined.

Record RecoveryPermit : Type := mkRecoveryPermit {
  PermitID : string;
  rp_Slot : SlotIdentity;
  rp_Operation : Operation;
  ExpiresAtUnixMilli : Z;
}.

Record QueryPermit : Type := mkPermit {
  pm_operation : Operation;
  pm_id : Z;
  pm_recovery : option RecoveryPermit;
}.

Record heldPermit : Type := mkHeld {
  hp_operation : Operation;
  hp_since : Z;
  (** [yield] is not nil: a lookback permit that has not been asked to yield. *)
  hp_yield : bool;
}.

Record recoveryChannelWaiter : Type := mkChannelWaiter {
  cw_ref : nat;
  cw_slot : SlotIdentity;
  cw_operation : Operation;
  cw_deadline : Z;
  cw_maximum : Z;
}.

#[export] Instance recoveryChannelWaiter_eq_dec : EqDecision recoveryChannelWaiter.
Proof. solve_decision. Defined.

(** The fields of the coordinator the mutex guards, less its flights; the held
    seconds are exact nanoseconds here and a float64 in the code. *)
Record FlightCoordinator : Type := mkCoordinator {
  recoveryEnabled : bool;
  limits : RecoveryLimits;
  normalWaiters : list queryPermitWaiter;
  recoveryWaiters : list queryPermitWaiter;
  recoveryChannelWaiters : list recoveryChannelWaiter;
  lastNormalQG : string;
  lastRecoveryQG : string;
  queryInflight : Z;
  recoveryInflight : Z;
  nextRecovery : bool;
  permitSequence : Z;
  inflightByOp : gmap Operation Z;
  permitAcquires : Z;
  permitQueued : Z;
  permitSecondsByOp : gmap Operation Z;
  heldPermits : gmap Z heldPermit;
  lookbackInflight : Z;
  lookbackHeld : gmap Z heldPermit;
  lookbackSeconds : Z;
}.

Definition NewFlightCoordinatorWithRecovery (l : RecoveryLimits) : option FlightCoordinator :=
  if RecoveryLimits_Validate l
  then Some (mkCoordinator true l [] [] [] "" "" 0 0 true 0 ∅ 0 0 ∅ ∅ 0 ∅ 0)
  else None.

(** What is sent on a waiter's channel: a permit, or nil. *)
Definition Message : Type := nat * option QueryPermit.

(** ** Updates of the coordinator *)

Definition set_normal (queue : list queryPermitWaiter) (c : FlightCoordinator) : FlightCoordinator :=
  mkCoordinator (recoveryEnabled c) (limits c) queue (recoveryWaiters c) (recoveryChannelWaiters c) (lastNormalQG c) (lastRecoveryQG c)
    (queryInflight c) (recoveryInflight c) (nextRecovery c) (permitSequence c) (inflightByOp c) (permitAcquires c) (permitQueued c)
    (permitSecondsByOp c) (heldPermits c) (lookbackInflight c) (lookbackHeld c) (lookbackSeconds c).

Definition set_recovery (queue : list queryPermitWaiter) (c : FlightCoordinator) : FlightCoordinator :=
  mkCoordinator (recoveryEnabled c) (limits c) (normalWaiters c) queue (recoveryChannelWaiters c) (lastNormalQG c) (lastRecoveryQG c)
    (queryInflight c) (recoveryInflight c) (nextRecovery c) (permitSequence c) (inflightByOp c) (permitAcquires c) (permitQueued c)
    (permitSecondsByOp c) (heldPermits c) (lookbackInflight c) (lookbackHeld c) (lookbackSeconds c).

Definition set_turn (lastNormal lastRecovery : string) (next : bool) (c : FlightCoordinator) : FlightCoordinator :=
  mkCoordinator (recoveryEnabled c) (limits c) (normalWaiters c) (recoveryWaiters c) (recoveryChannelWaiters c) lastNormal lastRecovery
    (queryInflight c) (recoveryInflight c) next (permitSequence c) (inflightByOp c) (permitAcquires c) (permitQueued c)
    (permitSecondsByOp c) (heldPermits c) (lookbackInflight c) (lookbackHeld c) (lookbackSeconds c).

Definition set_inflight (inflight sequence : Z) (byOp : gmap Operation Z) (held : gmap Z heldPermit) (c : FlightCoordinator) : FlightCoordinator :=
  mkCoordinator (recoveryEnabled c) (limits c) (normalWaiters c) (recoveryWaiters c) (recoveryChannelWaiters c) (lastNormalQG c) (lastRecoveryQG c)
    inflight (recoveryInflight c) (nextRecovery c) sequence byOp (permitAcquires c) (permitQueued c)
    (permitSecondsByOp c) held (lookbackInflight c) (lookbackHeld c) (lookbackSeconds c).

Definition set_counts (acquires queued : Z) (seconds : gmap Operation Z) (c : FlightCoordinator) : FlightCoordinator :=
  mkCoordinator (recoveryEnabled c) (limits c) (normalWaiters c) (recoveryWaiters c) (recoveryChannelWaiters c) (lastNormalQG c) (lastRecoveryQG c)
    (queryInflight c) (recoveryInflight c) (nextRecovery c) (permitSequence c) (inflightByOp c) acquires queued
    seconds (heldPermits c) (lookbackInflight c) (lookbackHeld c) (lookbackSeconds c).

Definition set_lookback (inflight : Z) (held : gmap Z heldPermit) (seconds : Z) (c : FlightCoordinator) : FlightCoordinator :=
  mkCoordinator (recoveryEnabled c) (limits c) (normalWaiters c) (recoveryWaiters c) (recoveryChannelWaiters c) (lastNormalQG c) (lastRecoveryQG c)
    (queryInflight c) (recoveryInflight c) (nextRecovery c) (permitSequence c) (inflightByOp c) (permitAcquires c) (permitQueued c)
    (permitSecondsByOp c) (heldPermits c) inflight held seconds.

Definition set_channels (queue : list recoveryChannelWaiter) (inflight : Z) (c : FlightCoordinator) : FlightCoordinator :=
  mkCoordinator (recoveryEnabled c) (limits c) (normalWaiters c) (recoveryWaiters c) queue (lastNormalQG c) (lastRecoveryQG c)
    (queryInflight c) inflight (nextRecovery c) (permitSequence c) (inflightByOp c) (permitAcquires c) (permitQueued c)
    (permitSecondsByOp c) (heldPermits c) (lookbackInflight c) (lookbackHeld c) (lookbackSeconds c).

(** ** The queues *)

Definition queuedForQueryGroup (queue : list queryPermitWaiter) (queryGroup : string) : Z :=
  Z.of_nat (length (filter (λ w, QueryGroup (wt_slot w) = queryGroup) queue)).

(** A waiter whose deadline passed is told so and leaves. *)
Definition expired (now : Z) (w : queryPermitWaiter) : Prop := ¬ now < wt_deadline w.
#[export] Instance expired_dec now w : Decision (expired now w).
Proof. unfold expired. apply _. Defined.

Definition expireWaiters (now : Z) (queue : list queryPermitWaiter) : list queryPermitWaiter * list Message :=
  (filter (λ w, ¬ expired now w) queue, (λ w, (wt_ref w, None)) <$> filter (expired now) queue).

Definition expireNormal (now : Z) (c : FlightCoordinator) : FlightCoordinator * list Message :=
  let '(queue, told) := expireWaiters now (normalWaiters c) in (set_normal queue c, told).
Definition expireRecovery (now : Z) (c : FlightCoordinator) : FlightCoordinator * list Message :=
  let '(queue, told) := expireWaiters now (recoveryWaiters c) in (set_recovery queue c, told).

(** ** The next waiter *)

(** The scan of the queue: the groups in the order they appear, and the index of
    the earliest deadline of each. *)
Fixpoint scan_groups (queue rest : list queryPermitWaiter) (index : nat) (firstByGroup : gmap string nat) (groups : list string)
    : gmap string nat * list string :=
  match rest with
  | [] => (firstByGroup, groups)
  | waiter :: rest =>
      let queryGroup := QueryGroup (wt_slot waiter) in
      match firstByGroup !! queryGroup with
      | None => scan_groups queue rest (S index) (<[queryGroup := index]> firstByGroup) (groups ++ [queryGroup])
      | Some candidate =>
          let earlier := match queue !! candidate with Some other => wt_deadline waiter <? wt_deadline other | None => false end in
          scan_groups queue rest (S index) (if earlier then <[queryGroup := index]> firstByGroup else firstByGroup) groups
      end
  end.

Definition group_deadline (queue : list queryPermitWaiter) (firstByGroup : gmap string nat) (group : string) : Z :=
  match (firstByGroup !! group) ≫= (queue !!.) with Some w => wt_deadline w | None => 0 end.

(** The order [sort.Slice] is given: by deadline, then by name. *)
Definition group_before (queue : list queryPermitWaiter) (firstByGroup : gmap string nat) (left right : string) : Prop :=
  let l := group_deadline queue firstByGroup left in
  let r := group_deadline queue firstByGroup right in
  if decide (l = r) then String.le left right else l < r.

#[export] Instance group_before_dec queue first : RelDecision (group_before queue first).
Proof. intros l r. unfold group_before. case_decide; apply _. Defined.

(** The group after the one granted last, in that order, and the first when that
    one does not wait; [None] is the panic of indexing an empty slice. *)
Definition selectedGroup (groups : list string) (last : string) : option string :=
  match list_find (λ queryGroup, queryGroup = last) groups with
  | Some (index, _) => groups !! ((index + 1) `mod` length groups)%nat
  | None => groups !! 0%nat
  end.

Definition popFairWaiter (queue : list queryPermitWaiter) (last : string) : option (queryPermitWaiter * list queryPermitWaiter * string) :=
  let '(firstByGroup, groups) := scan_groups queue queue 0 ∅ [] in
  let groups := stable_sort (group_before queue firstByGroup) groups in
  group ← selectedGroup groups last;
  selected ← firstByGroup !! group;
  waiter ← queue !! selected;
  Some (waiter, delete selected queue, group).

(** ** The dispatch *)

Definition UnixMilli (at_ : Z) : Z := at_ `div` 1000000.

Definition recoveryPermitID (sequence : Z) : string := "query-recovery-" +:+ pretty (Z.to_N sequence).

Definition add_op (d : Z) (operation : Operation) (m : gmap Operation Z) : gmap Operation Z :=
  <[operation := default 0 (m !! operation) + d]> m.

(** A permit is made for the waiter and accounted for. *)
Definition grant_permit (now : Z) (useRecovery : bool) (waiter : queryPermitWaiter) (c : FlightCoordinator) : FlightCoordinator * QueryPermit :=
  let sequence := u64 (permitSequence c + 1) in
  (set_inflight (queryInflight c + 1) sequence (add_op 1 (wt_operation waiter) (inflightByOp c))
     (<[sequence := mkHeld (wt_operation waiter) now false]> (heldPermits c)) c,
   mkPermit (wt_operation waiter) sequence
     (if useRecovery
      then Some (mkRecoveryPermit (recoveryPermitID sequence) (wt_slot waiter) (wt_operation waiter) (UnixMilli (wt_deadline waiter)))
      else None)).

Definition nonempty {A} (l : list A) : bool := match l with [] => false | _ => true end.

Definition useRecovery (c : FlightCoordinator) : bool :=
  nonempty (recoveryWaiters c) && (negb (nonempty (normalWaiters c)) || nextRecovery c).

(** The next waiter of the queue whose turn it is leaves it, and the turn moves. *)
Definition take_turn (c : FlightCoordinator) : option (queryPermitWaiter * FlightCoordinator) :=
  if useRecovery c
  then
    '(waiter, queue, group) ← popFairWaiter (recoveryWaiters c) (lastRecoveryQG c);
    Some (waiter, set_turn (lastNormalQG c) group false (set_recovery queue c))
  else
    '(waiter, queue, group) ← popFairWaiter (normalWaiters c) (lastNormalQG c);
    Some (waiter, set_turn group (lastRecoveryQG c) (if nonempty (recoveryWaiters c) then true else nextRecovery c) (set_normal queue c)).

(** One pass of the loop's body: [None] when it returns or panics. *)
Definition dispatch_once (clk : nat → Z) (c : FlightCoordinator) : FlightCoordinator * list Message * bool :=
  let '(c, told) := expireNormal (clk 0%nat) c in
  let '(c, told') := expireRecovery (clk 1%nat) c in
  if negb (nonempty (recoveryWaiters c)) && negb (nonempty (normalWaiters c)) then (c, told ++ told', false)
  else
    match take_turn c with
    | None => (c, told ++ told', false)
    | Some (waiter, c') =>
        let '(c'', permit) := grant_permit (clk 2%nat) (useRecovery c) waiter c' in
        (c'', told ++ told' ++ [(wt_ref waiter, Some permit)], true)
    end.

Fixpoint dispatch_loop (fuel : nat) (clk : nat → Z) (c : FlightCoordinator) : FlightCoordinator * list Message :=
  match fuel with
  | O => (c, [])
  | S fuel =>
      if queryInflight c <? ProcessQueryPermits (limits c) then
        match dispatch_once clk c with
        | (c, told, true) =>
            let '(c, more) := dispatch_loop fuel (λ reading, clk (3 + reading)%nat) c in (c, told ++ more)
        | (c, told, false) => (c, told)
        end
      else (c, [])
  end.

(** Every pass but the last takes a waiter out. *)
Definition dispatch_fuel (c : FlightCoordinator) : nat := S (length (normalWaiters c) + length (recoveryWaiters c)).

Definition dispatchQueryPermits (clk : nat → Z) (c : FlightCoordinator) : FlightCoordinator * list Message :=
  dispatch_loop (dispatch_fuel c) clk c.

(** ** Asking for a permit *)

Inductive PermitError : Type :=
  | ErrRecoveryLimitsInvalid
  | ErrPermitRequestInvalid
  | ErrContext
  | ErrDeadlineExceeded
  | ErrQueryPermitQueueFull
  | ErrRecoveryPermitsOff
  | ErrChannelChanged.

#[export] Instance PermitError_eq_dec : EqDecision PermitError.
Proof. solve_decision. Defined.

(** The refusals of [acquireProcessQueryPermit] before it takes the lock; the zero
    deadline is [None]. *)
Definition acquire_refused (c : FlightCoordinator) (ctx_done : bool) (now : Z) (slot : SlotIdentity) (operation : Operation) (deadline : option Z)
    : result PermitError Z :=
  _ ← fail_if (negb (recoveryEnabled c)) ErrRecoveryLimitsInvalid;
  match deadline with
  | None => Err ErrPermitRequestInvalid
  | Some deadline =>
      _ ← fail_if ((QueryGroup slot =? "")%string || (EvaluationTime slot <=? 0) || negb (Operation_Validate operation)) ErrPermitRequestInvalid;
      _ ← fail_if ctx_done ErrContext;
      _ ← fail_if (negb (now <? deadline)) ErrDeadlineExceeded;
      Ok deadline
  end.

Definition is_recovery (operation : Operation) : bool := negb (operation =? OperationNormal)%string.

Definition waiters (recovery : bool) (c : FlightCoordinator) : list queryPermitWaiter :=
  if recovery then recoveryWaiters c else normalWaiters c.
Definition set_waiters (recovery : bool) (queue : list queryPermitWaiter) (c : FlightCoordinator) : FlightCoordinator :=
  if recovery then set_recovery queue c else set_normal queue c.
Definition queue_capacity (recovery : bool) (c : FlightCoordinator) : Z :=
  if recovery then RecoveryQueueCapacity (limits c) else ReadyQueueCapacity (limits c).

Definition waiterQueued (waiter : queryPermitWaiter) (recovery : bool) (c : FlightCoordinator) : bool :=
  bool_decide (wt_ref waiter ∈ wt_ref <$> waiters recovery c).

(** Every lookback permit held is asked to yield, once. *)
Definition yieldLookback (c : FlightCoordinator) : FlightCoordinator :=
  set_lookback (lookbackInflight c) ((λ held, mkHeld (hp_operation held) (hp_since held) false) <$> lookbackHeld c) (lookbackSeconds c) c.

(** The section of [acquireProcessQueryPermit]: the waiter is queued and the
    permits dispatched, or the queue is full. *)
Definition enqueueWaiter (clk : nat → Z) (c : FlightCoordinator) (waiter : queryPermitWaiter) : FlightCoordinator * list Message * option PermitError :=
  let recovery := is_recovery (wt_operation waiter) in
  let '(queue, told) := expireWaiters (clk 0%nat) (waiters recovery c) in
  let c := set_waiters recovery queue c in
  if (queue_capacity recovery c <=? Z.of_nat (length queue)) ||
     (MaxQueuedItemsPerQG (limits c) <=? queuedForQueryGroup queue (QueryGroup (wt_slot waiter)))
  then (c, told, Some ErrQueryPermitQueueFull)
  else
    let c := set_waiters recovery (queue ++ [waiter]) c in
    let '(c, told') := dispatchQueryPermits (λ reading, clk (1 + reading)%nat) c in
    let queued := waiterQueued waiter recovery c in
    let c := set_counts (u64 (permitAcquires c + 1)) (if queued then u64 (permitQueued c + 1) else permitQueued c) (permitSecondsByOp c) c in
    (if queued then yieldLookback c else c, told ++ told', None).

(** The section of a caller that gives up: the waiter leaves its queue, and the
    answer is whether it was still there. *)
Definition removeWaiter (waiter : queryPermitWaiter) (recovery : bool) (c : FlightCoordinator) : FlightCoordinator * bool :=
  match list_find (λ candidate, wt_ref candidate = wt_ref waiter) (waiters recovery c) with
  | Some (index, _) => (set_waiters recovery (delete index (waiters recovery c)) c, true)
  | None => (c, false)
  end.

Definition giveUpWaiter (clk : nat → Z) (c : FlightCoordinator) (waiter : queryPermitWaiter) : FlightCoordinator * list Message * bool :=
  let '(c, removed) := removeWaiter waiter (is_recovery (wt_operation waiter)) c in
  let '(c, told) := dispatchQueryPermits clk c in
  (c, told, removed).

(** ** Giving a permit back *)

Definition decrement (n : Z) : Z := if 0 <? n then n - 1 else n.

Definition releaseQueryPermit (clk : nat → Z) (c : FlightCoordinator) (operation : Operation) (permitID : Z) : FlightCoordinator * list Message :=
  let count := default 0 (inflightByOp c !! operation) in
  let byOp := if 0 <? count then <[operation := count - 1]> (inflightByOp c) else inflightByOp c in
  let c := set_inflight (decrement (queryInflight c)) (permitSequence c) byOp (heldPermits c) c in
  match heldPermits c !! permitID with
  | Some held =>
      let c := set_inflight (queryInflight c) (permitSequence c) (inflightByOp c) (delete permitID (heldPermits c)) c in
      let elapsed := clk 0%nat - hp_since held in
      let seconds := if 0 <? elapsed then add_op elapsed (hp_operation held) (permitSecondsByOp c) else permitSecondsByOp c in
      dispatchQueryPermits (λ reading, clk (1 + reading)%nat) (set_counts (permitAcquires c) (permitQueued c) seconds c)
  | None => dispatchQueryPermits clk c
  end.

(** ** The lookback's permits *)

Definition LookbackRefusedDisabled : string := "disabled".
Definition LookbackRefusedWaiting : string := "waiters".
Definition LookbackRefusedFull : string := "full".

Definition TryAcquireLookbackPermit (clk : nat → Z) (c : FlightCoordinator) : FlightCoordinator * list Message * result string Z :=
  if negb (recoveryEnabled c) then (c, [], Err LookbackRefusedDisabled)
  else
    let '(c, told) := expireNormal (clk 0%nat) c in
    let '(c, told') := expireRecovery (clk 1%nat) c in
    if nonempty (normalWaiters c) || nonempty (recoveryWaiters c) || nonempty (recoveryChannelWaiters c)
    then (c, told ++ told', Err LookbackRefusedWaiting)
    else if ProcessQueryPermits (limits c) <=? queryInflight c then (c, told ++ told', Err LookbackRefusedFull)
    else
      let sequence := u64 (permitSequence c + 1) in
      let c := set_inflight (queryInflight c + 1) sequence (inflightByOp c) (heldPermits c) c in
      (set_lookback (lookbackInflight c + 1) (<[sequence := mkHeld "" (clk 2%nat) true]> (lookbackHeld c)) (lookbackSeconds c) c,
       told ++ told', Ok sequence).

Definition releaseLookbackPermit (clk : nat → Z) (c : FlightCoordinator) (id : Z) : FlightCoordinator * list Message :=
  let c := set_inflight (decrement (queryInflight c)) (permitSequence c) (inflightByOp c) (heldPermits c) c in
  let c := set_lookback (decrement (lookbackInflight c)) (lookbackHeld c) (lookbackSeconds c) c in
  match lookbackHeld c !! id with
  | Some held =>
      let elapsed := clk 0%nat - hp_since held in
      let seconds := if 0 <? elapsed then lookbackSeconds c + elapsed else lookbackSeconds c in
      dispatchQueryPermits (λ reading, clk (1 + reading)%nat) (set_lookback (lookbackInflight c) (delete id (lookbackHeld c)) seconds c)
  | None => dispatchQueryPermits clk c
  end.

(** ** Recovery channels *)

(** A grant of channels; [rc_available] is how many tokens its buffer holds. *)
Record RecoveryChannels : Type := mkChannels {
  rc_slot : SlotIdentity;
  rc_operation : Operation;
  rc_deadline : Z;
  rc_available : Z;
  rc_count : Z;
}.

Definition ChannelMessage : Type := nat * option RecoveryChannels.

Definition channels_refused (c : FlightCoordinator) (ctx_done : bool) (now : Z) (slot : SlotIdentity) (operation : Operation) (deadline maximum : Z)
    : result PermitError unit :=
  _ ← fail_if (negb (recoveryEnabled c)) ErrRecoveryLimitsInvalid;
  _ ← fail_if ((QueryGroup slot =? "")%string || (EvaluationTime slot <=? 0) || negb (Operation_Validate operation) ||
               (operation =? OperationNormal)%string || (maximum <=? 0)) ErrPermitRequestInvalid;
  _ ← fail_if ctx_done ErrContext;
  _ ← fail_if (negb (now <? deadline)) ErrDeadlineExceeded;
  fail_if (RecoveryQueryPermits (limits c) =? 0) ErrRecoveryPermitsOff.

(** The channels go to the head of the queue, as many as are free and it asks for. *)
Fixpoint channels_loop (queue : list recoveryChannelWaiter) (limit inflight : Z) (clk : nat → Z) : list recoveryChannelWaiter * Z * list ChannelMessage :=
  match queue with
  | [] => ([], inflight, [])
  | w :: rest =>
      if inflight <? limit then
        if negb (clk 0%nat <? cw_deadline w) then
          let '(queue, inflight, told) := channels_loop rest limit inflight (λ reading, clk (1 + reading)%nat) in
          (queue, inflight, (cw_ref w, None) :: told)
        else
          let count := Z.min (cw_maximum w) (limit - inflight) in
          let granted := mkChannels (cw_slot w) (cw_operation w) (cw_deadline w) count count in
          let '(queue, inflight, told) := channels_loop rest limit (inflight + count) (λ reading, clk (1 + reading)%nat) in
          (queue, inflight, (cw_ref w, Some granted) :: told)
      else (w :: rest, inflight, [])
  end.

Definition dispatchRecoveryChannels (clk : nat → Z) (c : FlightCoordinator) : FlightCoordinator * list ChannelMessage :=
  let '(queue, inflight, told) := channels_loop (recoveryChannelWaiters c) (RecoveryQueryPermits (limits c)) (recoveryInflight c) clk in
  (set_channels queue inflight c, told).

(** The section of [acquireRecoveryChannels]: unlike the permits' queues, this one
    is not swept of its expired waiters before its length is read. *)
Definition enqueueChannelWaiter (clk : nat → Z) (c : FlightCoordinator) (w : recoveryChannelWaiter) : FlightCoordinator * list ChannelMessage * option PermitError :=
  let perQG := Z.of_nat (length (filter (λ other, QueryGroup (cw_slot other) = QueryGroup (cw_slot w)) (recoveryChannelWaiters c))) in
  if (RecoveryQueueCapacity (limits c) <=? Z.of_nat (length (recoveryChannelWaiters c))) || (MaxQueuedItemsPerQG (limits c) <=? perQG)
  then (c, [], Some ErrQueryPermitQueueFull)
  else
    let '(c, told) := dispatchRecoveryChannels clk (set_channels (recoveryChannelWaiters c ++ [w]) (recoveryInflight c) c) in
    (c, told, None).

Definition giveUpChannelWaiter (clk : nat → Z) (c : FlightCoordinator) (w : recoveryChannelWaiter) : FlightCoordinator * list ChannelMessage * bool :=
  match list_find (λ candidate, cw_ref candidate = cw_ref w) (recoveryChannelWaiters c) with
  | Some (index, _) =>
      let '(c, told) := dispatchRecoveryChannels clk (set_channels (delete index (recoveryChannelWaiters c)) (recoveryInflight c) c) in (c, told, true)
  | None => let '(c, told) := dispatchRecoveryChannels clk c in (c, told, false)
  end.

Definition releaseChannels (clk : nat → Z) (c : FlightCoordinator) (channels : RecoveryChannels) : FlightCoordinator * list ChannelMessage :=
  dispatchRecoveryChannels clk (set_channels (recoveryChannelWaiters c) (recoveryInflight c - rc_count channels) c).

(** The checks of a query against the channels it runs on. *)
Definition channel_accepts (channels : RecoveryChannels) (slot : SlotIdentity) (operation : Operation) (deadline : Z) : result PermitError unit :=
  fail_if (negb (bool_decide (slot = rc_slot channels)) || negb (operation =? rc_operation channels)%string || (rc_deadline channels <? deadline)) ErrChannelChanged.
