(* ===== verification/QueryPermitsSpec.v ===== *)
(** The waiter a permit goes to, and the dispatch as a sequence of moves, each of
    one waiter. *)
From S2P Require Import Prelude QueryPermits.

Open Scope Z_scope.

(** ** The scan *)

Notation group_of w := (QueryGroup (wt_slot w)).

(** What the scan knows of the first waiters of the queue: each group that
    appeared, once, with the index of its earliest deadline. *)
Record scanned (queue seen : list queryPermitWaiter) (first : gmap string nat) (groups : list string) : Prop := {
  scanned_nodup : NoDup groups;
  scanned_groups g : g ∈ groups ↔ is_Some (first !! g);
  scanned_first g i : first !! g = Some i → ∃ w, queue !! i = Some w ∧ group_of w = g ∧ (i < length seen)%nat;
  scanned_seen w : w ∈ seen →
    ∃ i w', first !! group_of w = Some i ∧ queue !! i = Some w' ∧ wt_deadline w' ≤ wt_deadline w;
}.

Lemma scan_step queue seen w rest first groups :
  queue = seen ++ w :: rest → scanned queue seen first groups →
  ∃ first' groups', scanned queue (seen ++ [w]) first' groups' ∧
    scan_groups queue (w :: rest) (length seen) first groups = scan_groups queue rest (S (length seen)) first' groups'.
Proof.
  intros Hq [Hnd Hg Hf Hs]. assert (queue !! length seen = Some w) as Hw by (rewrite Hq; by apply list_lookup_middle).
  cbn [scan_groups]. destruct (first !! group_of w) as [i|] eqn:Hi.
  - destruct (Hf _ _ Hi) as (w' & Hw' & Hgw & Hlt). rewrite Hw'. eexists _, _; split; [|reflexivity]. case_match eqn:Hd; breflect.
    + split; [done|intros g|intros g j|intros v].
      * rewrite Hg. destruct (decide (g = group_of w)) as [->|]; [rewrite lookup_insert_eq, Hi; naive_solver|by rewrite lookup_insert_ne].
      * rewrite length_app. intros [[<- <-]|[? Hj]]%lookup_insert_Some; [exists w; simpl; split_and!; [done..|lia]|].
        destruct (Hf _ _ Hj) as (v & ?&?&?). exists v. split_and!; [done..|lia].
      * intros [Hv| ->%list_elem_of_singleton]%elem_of_app; [|exists (length seen), w; rewrite lookup_insert_eq; split_and!; [done..|lia]].
        destruct (Hs v Hv) as (j & v' & Hj & Hv' & Hle). destruct (decide (group_of v = group_of w)) as [Heq|].
        -- rewrite Heq in *. rewrite Hi in Hj. injection Hj as <-. simplify_eq. exists (length seen), w. rewrite lookup_insert_eq. split_and!; [done..|lia].
        -- exists j, v'. by rewrite lookup_insert_ne.
    + split; [done..|intros g j Hj|intros v].
      * destruct (Hf _ _ Hj) as (v & ?&?&?). exists v. rewrite length_app. split_and!; [done..|lia].
      * intros [Hv| ->%list_elem_of_singleton]%elem_of_app; [by apply Hs|]. eauto.
  - eexists _, _; split; [|reflexivity]. split.
    + apply NoDup_app. split_and!; [done| |apply NoDup_singleton]. intros g Hin ->%list_elem_of_singleton.
      apply Hg in Hin. rewrite Hi in Hin. by destruct Hin.
    + intros g. rewrite elem_of_app, list_elem_of_singleton, Hg. destruct (decide (g = group_of w)) as [->|].
      * rewrite lookup_insert_eq. naive_solver.
      * rewrite lookup_insert_ne by done. naive_solver.
    + intros g j. rewrite length_app. intros [[<- <-]|[? Hj]]%lookup_insert_Some; [exists w; simpl; split_and!; [done..|lia]|].
      destruct (Hf _ _ Hj) as (v & ?&?&?). exists v. split_and!; [done..|lia].
    + intros v [Hv| ->%list_elem_of_singleton]%elem_of_app; [|exists (length seen), w; by rewrite lookup_insert_eq].
      destruct (Hs v Hv) as (j & v' & Hj & Hv' & Hle). exists j, v'. rewrite lookup_insert_ne; [done|]. intros Heq. rewrite <- Heq in Hj. congruence.
Qed.

Lemma scan_rest queue rest seen first groups :
  queue = seen ++ rest → scanned queue seen first groups →
  scanned queue queue (scan_groups queue rest (length seen) first groups).1 (scan_groups queue rest (length seen) first groups).2.
Proof.
  revert seen first groups. induction rest as [|w rest IH]; intros seen first groups Hq Hs.
  - rewrite app_nil_r in Hq. by subst.
  - destruct (scan_step _ _ _ _ _ _ Hq Hs) as (first' & groups' & Hs' & ->).
    specialize (IH (seen ++ [w]) first' groups'). rewrite <- app_assoc, length_app, Nat.add_comm in IH. auto.
Qed.

Lemma scan_spec queue : scanned queue queue (scan_groups queue queue 0 ∅ []).1 (scan_groups queue queue 0 ∅ []).2.
Proof.
  apply (scan_rest queue queue []); [done|]. split; [constructor| | |].
  - intros g. rewrite lookup_empty. split; [set_solver|by intros []].
  - intros g i. by rewrite lookup_empty.
  - set_solver.
Qed.

(** ** The group after the last *)

(** The group granted last is selected again only when no other waits. *)
Lemma selectedGroup_turn groups last :
  NoDup groups → groups ≠ [] →
  ∃ g, selectedGroup groups last = Some g ∧ g ∈ groups ∧ (g = last → groups = [last]).
Proof.
  intros Hnd Hne. unfold selectedGroup. destruct (list_find _ groups) as [[i g]|] eqn:Hfind.
  - apply list_find_Some in Hfind as (Hi & -> & _). pose proof (lookup_lt_Some _ _ _ Hi).
    assert ((i + 1) `mod` length groups < length groups)%nat as Hlt by (apply Nat.mod_upper_bound; lia).
    destruct (lookup_lt_is_Some_2 _ _ Hlt) as [g Hg]. exists g. split_and!; [done|by eapply list_elem_of_lookup_2|].
    intros ->. pose proof (NoDup_lookup _ _ _ _ Hnd Hg Hi) as Heq.
    destruct (decide (i + 1 < length groups)%nat) as [Hin|]; [rewrite Nat.mod_small in Heq by done; lia|].
    assert (i + 1 = length groups)%nat as Hlen by lia. rewrite Hlen, Nat.Div0.mod_same in Heq. subst i.
    destruct groups as [|a [|b groups]]; simpl in *; [done| |lia]. congruence.
  - destruct groups as [|g groups]; [done|]. exists g. split_and!; [done|set_solver|]. intros ->. apply list_find_None in Hfind.
    by inversion Hfind.
Qed.

(** ** The waiter taken *)

(** What [popFairWaiter] promises: the waiter leaves the queue, the others stay in
    their order, it has the earliest deadline of its group, and its group is not
    the one granted last unless that one waits alone. *)
Record fair_pop (queue : list queryPermitWaiter) (last : string) (waiter : queryPermitWaiter) (rest : list queryPermitWaiter) (group : string) : Prop := {
  pop_leaves : ∃ l r, queue = l ++ waiter :: r ∧ rest = l ++ r;
  pop_group : group_of waiter = group;
  pop_earliest w : w ∈ queue → group_of w = group → wt_deadline waiter ≤ wt_deadline w;
  pop_turn : group = last → ∀ w, w ∈ queue → group_of w = last;
}.

Lemma popFairWaiter_spec queue last :
  queue ≠ [] → ∃ waiter rest group, popFairWaiter queue last = Some (waiter, rest, group) ∧ fair_pop queue last waiter rest group.
Proof.
  intros Hne. unfold popFairWaiter. pose proof (scan_spec queue) as Hscan.
  destruct (scan_groups queue queue 0 ∅ []) as [first groups]. cbn [fst snd] in Hscan. destruct Hscan as [Hnd Hg Hf Hs].
  set (sorted := stable_sort _ _).
  assert (sorted ≡ₚ groups) as Hperm by apply stable_sort_perm.
  destruct (selectedGroup_turn sorted last) as (g & Hsel & Hin & Hturn).
  { by rewrite Hperm. }
  { intros Hnil. rewrite Hnil in Hperm. symmetry in Hperm. apply Permutation_nil_r in Hperm. destruct queue as [|w queue]; [done|].
    destruct (Hs w) as (i & ? & Hi & _); [set_solver|]. assert (group_of w ∈ groups) as Hw by (by apply Hg; eauto). subst. set_solver. }
  rewrite Hsel. cbn [mbind option_bind]. rewrite Hperm in Hin. apply Hg in Hin as [i Hi]. rewrite Hi. cbn [mbind option_bind].
  destruct (Hf _ _ Hi) as (w & Hw & Hgw & _). rewrite Hw. cbn [mbind option_bind]. eexists w, _, g. split; [reflexivity|]. split.
  - exists (take i queue), (drop (S i) queue). split; [by rewrite take_drop_middle|]. apply delete_take_drop.
  - done.
  - intros w' Hw' Hgw'. destruct (Hs w' Hw') as (j & w'' & Hj & Hw'' & Hle). rewrite Hgw', Hi in Hj. injection Hj as <-. by simplify_eq.
  - intros Hlast w' Hw'. destruct (Hs w' Hw') as (j & ? & Hj & _).
    assert (group_of w' ∈ groups) as Hin by (apply Hg; eauto). rewrite <- Hperm, (Hturn Hlast) in Hin. by apply list_elem_of_singleton.
Qed.

(** ** The dispatch as moves

    A move takes one waiter out of a queue and sends it its message: nil when its
    deadline passed, a permit when one was free. *)
Definition granted (now : Z) (recovery : bool) (waiter : queryPermitWaiter) (rest : list queryPermitWaiter) (lastNormal lastRecovery : string) (next : bool)
    (c : FlightCoordinator) : FlightCoordinator * QueryPermit :=
  grant_permit now recovery waiter (set_turn lastNormal lastRecovery next (set_waiters recovery rest c)).

Inductive move (c : FlightCoordinator) : Message → FlightCoordinator → Prop :=
  | move_expire recovery l waiter r :
      waiters recovery c = l ++ waiter :: r →
      move c (wt_ref waiter, None) (set_waiters recovery (l ++ r) c)
  | move_grant now recovery l waiter r lastNormal lastRecovery next :
      waiters recovery c = l ++ waiter :: r →
      queryInflight c < ProcessQueryPermits (limits c) →
      move c (wt_ref waiter, Some (granted now recovery waiter (l ++ r) lastNormal lastRecovery next c).2)
        (granted now recovery waiter (l ++ r) lastNormal lastRecovery next c).1.

Inductive moves : FlightCoordinator → list Message → FlightCoordinator → Prop :=
  | moves_none c : moves c [] c
  | moves_one c m c' told c'' : move c m c' → moves c' told c'' → moves c (m :: told) c''.

#[export] Hint Constructors moves : go.

Lemma moves_trans c1 t1 c2 t2 c3 : moves c1 t1 c2 → moves c2 t2 c3 → moves c1 (t1 ++ t2) c3.
Proof. induction 1; simpl; eauto with go. Qed.

(** The fields no move changes. *)
Lemma move_frame c m c' :
  move c m c' →
  recoveryEnabled c' = recoveryEnabled c ∧ limits c' = limits c ∧ recoveryChannelWaiters c' = recoveryChannelWaiters c ∧
  recoveryInflight c' = recoveryInflight c ∧ permitAcquires c' = permitAcquires c ∧ permitQueued c' = permitQueued c ∧
  lookbackInflight c' = lookbackInflight c ∧ lookbackHeld c' = lookbackHeld c.
Proof. by intros [[] ???|? [] ??????]. Qed.

Lemma moves_frame c told c' :
  moves c told c' →
  recoveryEnabled c' = recoveryEnabled c ∧ limits c' = limits c ∧ recoveryChannelWaiters c' = recoveryChannelWaiters c ∧
  recoveryInflight c' = recoveryInflight c ∧ permitAcquires c' = permitAcquires c ∧ permitQueued c' = permitQueued c ∧
  lookbackInflight c' = lookbackInflight c ∧ lookbackHeld c' = lookbackHeld c.
Proof. induction 1 as [|??????? IH]; [done|]. apply move_frame in H. naive_solver congruence. Qed.

(** Expiry is a run of moves. *)
Lemma set_waiters_same recovery c : set_waiters recovery (waiters recovery c) c = c.
Proof. by destruct recovery, c. Qed.
Lemma waiters_set recovery queue c : waiters recovery (set_waiters recovery queue c) = queue.
Proof. by destruct recovery. Qed.
Lemma waiters_set_other recovery queue c : waiters (negb recovery) (set_waiters recovery queue c) = waiters (negb recovery) c.
Proof. by destruct recovery. Qed.
Lemma set_waiters_twice recovery q1 q2 c : set_waiters recovery q2 (set_waiters recovery q1 c) = set_waiters recovery q2 c.
Proof. by destruct recovery. Qed.

Lemma expire_rest now recovery kept rest c :
  waiters recovery c = kept ++ rest → Forall (λ w, ¬ expired now w) kept →
  moves c (expireWaiters now rest).2 (set_waiters recovery (kept ++ (expireWaiters now rest).1) c).
Proof.
  revert kept c. induction rest as [|w rest IH]; intros kept c Hq Hkept; cbn [expireWaiters fst snd].
  - rewrite !filter_nil. cbn [fmap list_fmap]. rewrite <- Hq, set_waiters_same. constructor.
  - rewrite !filter_cons. destruct (decide (expired now w)) as [Hw|Hw].
    + rewrite decide_False by tauto. cbn [fmap list_fmap]. econstructor; [by eapply move_expire|].
      specialize (IH kept (set_waiters recovery (kept ++ rest) c)). rewrite waiters_set, set_waiters_twice in IH. by apply IH.
    + rewrite decide_True by done. specialize (IH (kept ++ [w]) c). rewrite <- !app_assoc in IH. apply IH; [done|].
      apply Forall_app; auto.
Qed.

Lemma expire_moves now recovery c :
  moves c (expireWaiters now (waiters recovery c)).2 (set_waiters recovery (expireWaiters now (waiters recovery c)).1 c).
Proof. by apply (expire_rest now recovery []). Qed.

Lemma expireNormal_moves now c : moves c (expireNormal now c).2 (expireNormal now c).1.
Proof. apply (expire_moves now false). Qed.
Lemma expireRecovery_moves now c : moves c (expireRecovery now c).2 (expireRecovery now c).1.
Proof. apply (expire_moves now true). Qed.

Lemma expire_inflight now c : queryInflight (expireNormal now c).1 = queryInflight c ∧ queryInflight (expireRecovery now c).1 = queryInflight c.
Proof. done. Qed.

Definition queue_size (c : FlightCoordinator) : nat := length (normalWaiters c) + length (recoveryWaiters c).

Lemma move_size c m c' : move c m c' → queue_size c = S (queue_size c').
Proof.
  intros [[] ??? Hq|? [] ????? ? Hq]; unfold queue_size; simpl in *; rewrite Hq, !length_app; simpl; lia.
Qed.

Lemma moves_size c told c' : moves c told c' → queue_size c = (length told + queue_size c')%nat.
Proof. induction 1 as [|????? Hm ? IH]; [done|]. apply move_size in Hm. simpl. lia. Qed.

(** ** The turn *)

Lemma nonempty_true {A} (l : list A) : nonempty l = true ↔ l ≠ [].
Proof. by destruct l. Qed.
Lemma nonempty_false {A} (l : list A) : nonempty l = false ↔ l = [].
Proof. by destruct l. Qed.

(** A turn is taken whenever a queue holds a waiter. *)
Lemma take_turn_moves now c :
  normalWaiters c ≠ [] ∨ recoveryWaiters c ≠ [] → queryInflight c < ProcessQueryPermits (limits c) →
  ∃ waiter c', take_turn c = Some (waiter, c') ∧
    move c (wt_ref waiter, Some (grant_permit now (useRecovery c) waiter c').2) (grant_permit now (useRecovery c) waiter c').1.
Proof.
  intros Hne Hlt. unfold take_turn. destruct (useRecovery c) eqn:Hturn.
  - unfold useRecovery in Hturn. breflect. destruct (popFairWaiter_spec (recoveryWaiters c) (lastRecoveryQG c)) as (w & rest & g & Hpop & Hfair).
    { by apply nonempty_true. }
    rewrite Hpop. destruct (pop_leaves _ _ _ _ _ Hfair) as (l & r & Hq & ->). eexists w, _. split; [reflexivity|].
    by apply (move_grant c now true l w r (lastNormalQG c) g false).
  - assert (normalWaiters c ≠ []) as Hnormal.
    { unfold useRecovery in Hturn. intros Hnil. rewrite Hnil in Hturn. simpl in Hturn. rewrite andb_true_r in Hturn. apply nonempty_false in Hturn. tauto. }
    destruct (popFairWaiter_spec (normalWaiters c) (lastNormalQG c) Hnormal) as (w & rest & g & Hpop & Hfair).
    rewrite Hpop. destruct (pop_leaves _ _ _ _ _ Hfair) as (l & r & Hq & ->). eexists w, _. split; [reflexivity|].
    by apply (move_grant c now false l w r g (lastRecoveryQG c) (if nonempty (recoveryWaiters c) then true else nextRecovery c)).
Qed.

(** ** The loop *)

Definition settled (c : FlightCoordinator) : Prop :=
  queryInflight c < ProcessQueryPermits (limits c) → normalWaiters c = [] ∧ recoveryWaiters c = [].

Lemma dispatch_once_moves clk c :
  queryInflight c < ProcessQueryPermits (limits c) →
  moves c (dispatch_once clk c).1.2 (dispatch_once clk c).1.1 ∧
  (if (dispatch_once clk c).2 then (queue_size (dispatch_once clk c).1.1 < queue_size c)%nat else settled (dispatch_once clk c).1.1).
Proof.
  intros Hlt. unfold dispatch_once.
  pose proof (expireNormal_moves (clk 0%nat) c) as H1. destruct (expireNormal (clk 0%nat) c) as [c1 t1] eqn:E1. cbn [fst snd] in H1.
  pose proof (expireRecovery_moves (clk 1%nat) c1) as H2. destruct (expireRecovery (clk 1%nat) c1) as [c2 t2] eqn:E2. cbn [fst snd] in H2.
  assert (queryInflight c2 < ProcessQueryPermits (limits c2)) as Hlt2.
  { destruct (moves_frame _ _ _ H2) as (_&->&_), (moves_frame _ _ _ H1) as (_&->&_).
    pose proof (proj2 (expire_inflight (clk 1%nat) c1)) as Hi. rewrite E2 in Hi. simpl in Hi. rewrite Hi.
    pose proof (proj1 (expire_inflight (clk 0%nat) c)) as Hi'. rewrite E1 in Hi'. simpl in Hi'. by rewrite Hi'. }
  pose proof (moves_trans _ _ _ _ _ H1 H2) as H12. destruct (negb _ && negb _) eqn:Hempty.
  - cbn [fst snd]. split; [done|]. breflect. intros _. rewrite <- !nonempty_false. done.
  - destruct (take_turn_moves (clk 2%nat) c2) as (w & c' & Hturn & Hmove); [|done|].
    { apply andb_false_iff in Hempty as [Hr|Hn]; breflect; [right|left]; by apply nonempty_true. }
    rewrite Hturn. destruct (grant_permit _ _ w c') as [c3 permit] eqn:Hgrant. cbn [fst snd] in *.
    split; [rewrite app_assoc; eapply moves_trans; [done|econstructor; [done|constructor]]|].
    apply moves_size in H12. apply move_size in Hmove. lia.
Qed.

(** The fuel is enough: the loop ends by its own condition or by its return. *)
Lemma dispatch_loop_moves fuel clk c :
  (queue_size c < fuel)%nat → moves c (dispatch_loop fuel clk c).2 (dispatch_loop fuel clk c).1 ∧ settled (dispatch_loop fuel clk c).1.
Proof.
  revert clk c. induction fuel as [|fuel IH]; intros clk c Hfuel; [lia|]. cbn [dispatch_loop].
  destruct (Z.ltb_spec (queryInflight c) (ProcessQueryPermits (limits c))) as [Hlt|Hge].
  2: { split; [constructor|]. intros ?. cbn [fst] in *. lia. }
  destruct (dispatch_once_moves clk c Hlt) as [Hmoves Hdone]. destruct (dispatch_once clk c) as [[c1 t1] again]. cbn [fst snd] in *.
  destruct again; [|done]. destruct (IH (λ reading, clk (3 + reading)%nat) c1) as [Hm Hs]; [lia|].
  destruct (dispatch_loop fuel _ c1) as [c2 t2]. cbn [fst snd] in *. eauto using moves_trans.
Qed.

Lemma dispatch_moves clk c :
  moves c (dispatchQueryPermits clk c).2 (dispatchQueryPermits clk c).1 ∧ settled (dispatchQueryPermits clk c).1.
Proof. apply dispatch_loop_moves. unfold dispatch_fuel, queue_size. lia. Qed.

(** ** The turn, as a contract *)

Definition last_group (recovery : bool) (c : FlightCoordinator) : string := if recovery then lastRecoveryQG c else lastNormalQG c.

(** C32: A permit goes to the queue whose turn it is, and in it to the earliest
    deadline of a group that is not the one this queue served last, unless that
    group waits alone there; the other queue and the order of the rest stand. While
    both queues wait the two take turns. *)
Theorem fair_turn c :
  normalWaiters c ≠ [] ∨ recoveryWaiters c ≠ [] →
  ∃ waiter c', take_turn c = Some (waiter, c') ∧
    fair_pop (waiters (useRecovery c) c) (last_group (useRecovery c) c) waiter (waiters (useRecovery c) c') (last_group (useRecovery c) c') ∧
    waiters (negb (useRecovery c)) c' = waiters (negb (useRecovery c)) c ∧
    (normalWaiters c ≠ [] → recoveryWaiters c ≠ [] → normalWaiters c' ≠ [] → recoveryWaiters c' ≠ [] →
      useRecovery c' = negb (useRecovery c)).
Proof.
  intros Hne. unfold take_turn. destruct (useRecovery c) eqn:Hturn.
  - destruct (popFairWaiter_spec (recoveryWaiters c) (lastRecoveryQG c)) as (w & rest & g & Hpop & Hfair).
    { unfold useRecovery in Hturn. breflect. by apply nonempty_true. }
    rewrite Hpop. eexists w, _. split_and!; [reflexivity|exact Hfair|done|]. intros _ _ Hn _. unfold useRecovery.
    cbn [recoveryWaiters normalWaiters nextRecovery set_turn set_recovery] in *. rewrite (proj2 (nonempty_true _) Hn). by rewrite andb_false_r.
  - assert (normalWaiters c ≠ []) as Hnormal.
    { unfold useRecovery in Hturn. intros Hnil. rewrite Hnil in Hturn. simpl in Hturn. rewrite andb_true_r in Hturn. apply nonempty_false in Hturn. tauto. }
    destruct (popFairWaiter_spec (normalWaiters c) (lastNormalQG c) Hnormal) as (w & rest & g & Hpop & Hfair).
    rewrite Hpop. eexists w, _. split_and!; [reflexivity|exact Hfair|done|]. intros _ Hr _ _. unfold useRecovery.
    cbn [recoveryWaiters normalWaiters nextRecovery set_turn set_normal] in *. rewrite (proj2 (nonempty_true _) Hr). by rewrite orb_true_r.
Qed.
