(* ===== verification/PermitRuns.v ===== *)
(** Callers of the query budget, interleaved: the calls waiting for a permit, the
    permits and channels returned to callers, the tokens of the channels, and one
    step for every critical section and every receive a caller makes
    (scheduler/recovery.go, recovery_channels.go, lookback_permit.go). *)
From S2P Require Import Prelude QueryPermits.

Open Scope Z_scope.

(** ** The callers *)

(** A call of [acquireProcessQueryPermit] past its section. [cl_gaveUp]: it found
    its waiter gone from the queue and blocks on its channel. *)
Record Call : Type := mkCall {
  cl_waiter : queryPermitWaiter;
  cl_channel : option nat;
  cl_gaveUp : bool;
}.

(** A permit returned to its caller and not released. *)
Record Holder : Type := mkHolder {
  ho_permit : QueryPermit;
  ho_channel : option nat;
}.

(** A call of [acquireRecoveryChannels] past its section. *)
Record ChannelCall : Type := mkChannelCall {
  cc_waiter : recoveryChannelWaiter;
  cc_gaveUp : bool;
}.

Record World : Type := mkWorld {
  coordinator : FlightCoordinator;
  (** The message in the buffer of each waiter's channel. *)
  sent : gmap nat (option QueryPermit);
  calls : gmap nat Call;
  holders : gmap Z Holder;
  channelSent : gmap nat (option RecoveryChannels);
  channelCalls : gmap nat ChannelCall;
  (** The channels granted and not released. *)
  channels : gmap nat RecoveryChannels;
  (** Tokens out of a channel's buffer that no call and no permit carries: taken
      and not yet used, or ([true]) on their way back. *)
  tokens : list (nat * bool);
}.

Definition start (c : FlightCoordinator) : World := mkWorld c ∅ ∅ ∅ ∅ ∅ ∅ [].

Definition deliver {A} (told : list (nat * A)) (buffers : gmap nat A) : gmap nat A :=
  foldl (λ buffers message, <[message.1 := message.2]> buffers) buffers told.

(** A token goes on its way back when what carried it is done. *)
Definition give_back (channel : option nat) (tokens : list (nat * bool)) : list (nat * bool) :=
  match channel with Some channel => (channel, true) :: tokens | None => tokens end.

Definition set_available (d : Z) (c : RecoveryChannels) : RecoveryChannels :=
  mkChannels (rc_slot c) (rc_operation c) (rc_deadline c) (rc_available c + d) (rc_count c).

(** The permits' side of a world changes, or the channels' side. *)
Definition with_permits (c : FlightCoordinator) (messages : gmap nat (option QueryPermit)) (pending : gmap nat Call) (held : gmap Z Holder)
    (out : list (nat * bool)) (w : World) : World :=
  mkWorld c messages pending held (channelSent w) (channelCalls w) (channels w) out.
Definition with_channels (c : FlightCoordinator) (messages : gmap nat (option RecoveryChannels)) (pending : gmap nat ChannelCall)
    (granted : gmap nat RecoveryChannels) (out : list (nat * bool)) (w : World) : World :=
  mkWorld c (sent w) (calls w) (holders w) messages pending granted out.

(** ** Steps

    [no_wrap] keeps the permit sequence, a uint64, from starting over: 2^64 permits
    are more than a process grants. *)
Definition no_wrap (c : FlightCoordinator) : Prop :=
  permitSequence c + Z.of_nat (length (normalWaiters c) + length (recoveryWaiters c)) < maxUint64.

(** No call and no permit carries a token of the channel, and none is on its way:
    a caller releases its channels after its queries joined. *)
Definition joined (w : World) (channel : nat) : Prop :=
  map_Forall (λ _ call, cl_channel call ≠ Some channel) (calls w) ∧
  map_Forall (λ _ holder, ho_channel holder ≠ Some channel) (holders w) ∧
  Forall (λ token, token.1 ≠ channel) (tokens w).

(** Steps of the callers that wait for a permit. *)
Inductive permit_step (w : World) : World → Prop :=
  (** A normal query is queued, or finds the queue full. *)
  | step_queue clk ctx now waiter c told :
      acquire_refused (coordinator w) ctx now (wt_slot waiter) (wt_operation waiter) (Some (wt_deadline waiter)) = Ok (wt_deadline waiter) →
      is_recovery (wt_operation waiter) = false → calls w !! wt_ref waiter = None → no_wrap (coordinator w) →
      enqueueWaiter clk (coordinator w) waiter = (c, told, None) →
      permit_step w (with_permits c (deliver told (sent w)) (<[wt_ref waiter := mkCall waiter None false]> (calls w)) (holders w) (tokens w) w)
  | step_queue_full clk waiter c told e :
      enqueueWaiter clk (coordinator w) waiter = (c, told, Some e) →
      permit_step w (with_permits c (deliver told (sent w)) (calls w) (holders w) (tokens w) w)
  (** A recovery query takes a token of its channels, then is queued with it, or
      gives it back. *)
  | step_token channel granted slot operation deadline :
      channels w !! channel = Some granted → channel_accepts granted slot operation deadline = Ok tt → 0 < rc_available granted →
      permit_step w (with_channels (coordinator w) (channelSent w) (channelCalls w)
        (<[channel := set_available (-1) granted]> (channels w)) ((channel, false) :: tokens w) w)
  | step_queue_recovery clk ctx now waiter c told channel l r :
      tokens w = l ++ (channel, false) :: r →
      acquire_refused (coordinator w) ctx now (wt_slot waiter) (wt_operation waiter) (Some (wt_deadline waiter)) = Ok (wt_deadline waiter) →
      is_recovery (wt_operation waiter) = true → calls w !! wt_ref waiter = None → no_wrap (coordinator w) →
      enqueueWaiter clk (coordinator w) waiter = (c, told, None) →
      permit_step w (with_permits c (deliver told (sent w)) (<[wt_ref waiter := mkCall waiter (Some channel) false]> (calls w)) (holders w) (l ++ r) w)
  | step_token_unused channel l r :
      tokens w = l ++ (channel, false) :: r →
      permit_step w (with_permits (coordinator w) (sent w) (calls w) (holders w) ((channel, true) :: l ++ r) w)
  | step_token_back channel granted l r :
      tokens w = l ++ (channel, true) :: r → channels w !! channel = Some granted →
      permit_step w (with_channels (coordinator w) (channelSent w) (channelCalls w)
        (<[channel := set_available 1 granted]> (channels w)) (l ++ r) w)
  (** A caller receives: nil, a permit in time, or a permit past its deadline,
      which it releases. *)
  | step_receive_nil ref call :
      calls w !! ref = Some call → cl_gaveUp call = false → sent w !! ref = Some None →
      permit_step w (with_permits (coordinator w) (delete ref (sent w)) (delete ref (calls w)) (holders w) (give_back (cl_channel call) (tokens w)) w)
  | step_receive ref call permit now :
      calls w !! ref = Some call → cl_gaveUp call = false → sent w !! ref = Some (Some permit) → now < wt_deadline (cl_waiter call) →
      permit_step w (with_permits (coordinator w) (delete ref (sent w)) (delete ref (calls w))
        (<[pm_id permit := mkHolder permit (cl_channel call)]> (holders w)) (tokens w) w)
  | step_receive_late ref call permit now clk c told :
      calls w !! ref = Some call → cl_gaveUp call = false → sent w !! ref = Some (Some permit) → ¬ now < wt_deadline (cl_waiter call) →
      releaseQueryPermit clk (coordinator w) (pm_operation permit) (pm_id permit) = (c, told) →
      permit_step w (with_permits c (deliver told (delete ref (sent w))) (delete ref (calls w)) (holders w) (give_back (cl_channel call) (tokens w)) w)
  (** Its context ends, or its timer fires: the waiter leaves the queue; one that is
      not there has been sent its message, which the call waits for. *)
  | step_give_up ref call clk c told :
      calls w !! ref = Some call → cl_gaveUp call = false → giveUpWaiter clk (coordinator w) (cl_waiter call) = (c, told, true) →
      permit_step w (with_permits c (deliver told (sent w)) (delete ref (calls w)) (holders w) (give_back (cl_channel call) (tokens w)) w)
  | step_gave_up ref call clk c told :
      calls w !! ref = Some call → cl_gaveUp call = false → giveUpWaiter clk (coordinator w) (cl_waiter call) = (c, told, false) →
      permit_step w (with_permits c (deliver told (sent w)) (<[ref := mkCall (cl_waiter call) (cl_channel call) true]> (calls w)) (holders w) (tokens w) w)
  | step_drain_nil ref call :
      calls w !! ref = Some call → cl_gaveUp call = true → sent w !! ref = Some None →
      permit_step w (with_permits (coordinator w) (delete ref (sent w)) (delete ref (calls w)) (holders w) (give_back (cl_channel call) (tokens w)) w)
  | step_drain ref call permit clk c told :
      calls w !! ref = Some call → cl_gaveUp call = true → sent w !! ref = Some (Some permit) →
      releaseQueryPermit clk (coordinator w) (pm_operation permit) (pm_id permit) = (c, told) →
      permit_step w (with_permits c (deliver told (delete ref (sent w))) (delete ref (calls w)) (holders w) (give_back (cl_channel call) (tokens w)) w)
  (** A permit held is released. *)
  | step_release id holder clk c told :
      holders w !! id = Some holder →
      releaseQueryPermit clk (coordinator w) (pm_operation (ho_permit holder)) (pm_id (ho_permit holder)) = (c, told) →
      permit_step w (with_permits c (deliver told (sent w)) (calls w) (delete id (holders w)) (give_back (ho_channel holder) (tokens w)) w)
  (** The lookback. *)
  | step_lookback clk c told answer :
      no_wrap (coordinator w) → TryAcquireLookbackPermit clk (coordinator w) = (c, told, answer) →
      permit_step w (with_permits c (deliver told (sent w)) (calls w) (holders w) (tokens w) w)
  | step_lookback_release id held clk c told :
      lookbackHeld (coordinator w) !! id = Some held → releaseLookbackPermit clk (coordinator w) id = (c, told) →
      permit_step w (with_permits c (deliver told (sent w)) (calls w) (holders w) (tokens w) w).

(** Steps of the callers that wait for channels. *)
Inductive channel_step (w : World) : World → Prop :=
  | step_ask clk ctx now waiter c told :
      channels_refused (coordinator w) ctx now (cw_slot waiter) (cw_operation waiter) (cw_deadline waiter) (cw_maximum waiter) = Ok tt →
      channelCalls w !! cw_ref waiter = None → channels w !! cw_ref waiter = None →
      enqueueChannelWaiter clk (coordinator w) waiter = (c, told, None) →
      channel_step w (with_channels c (deliver told (channelSent w)) (<[cw_ref waiter := mkChannelCall waiter false]> (channelCalls w)) (channels w) (tokens w) w)
  | step_ask_full clk waiter c told e :
      enqueueChannelWaiter clk (coordinator w) waiter = (c, told, Some e) →
      channel_step w (with_channels c (deliver told (channelSent w)) (channelCalls w) (channels w) (tokens w) w)
  | step_channels_nil ref call :
      channelCalls w !! ref = Some call → channelSent w !! ref = Some None →
      channel_step w (with_channels (coordinator w) (delete ref (channelSent w)) (delete ref (channelCalls w)) (channels w) (tokens w) w)
  | step_channels ref call granted :
      channelCalls w !! ref = Some call → cc_gaveUp call = false → channelSent w !! ref = Some (Some granted) →
      channel_step w (with_channels (coordinator w) (delete ref (channelSent w)) (delete ref (channelCalls w)) (<[ref := granted]> (channels w)) (tokens w) w)
  (** The context ended, the deadline passed, or the call had given up: what was
      granted is released. *)
  | step_channels_late ref call granted clk c told :
      channelCalls w !! ref = Some call → channelSent w !! ref = Some (Some granted) →
      releaseChannels clk (coordinator w) granted = (c, told) →
      channel_step w (with_channels c (deliver told (delete ref (channelSent w))) (delete ref (channelCalls w)) (channels w) (tokens w) w)
  | step_channels_give_up ref call clk c told :
      channelCalls w !! ref = Some call → cc_gaveUp call = false → giveUpChannelWaiter clk (coordinator w) (cc_waiter call) = (c, told, true) →
      channel_step w (with_channels c (deliver told (channelSent w)) (delete ref (channelCalls w)) (channels w) (tokens w) w)
  | step_channels_gave_up ref call clk c told :
      channelCalls w !! ref = Some call → cc_gaveUp call = false → giveUpChannelWaiter clk (coordinator w) (cc_waiter call) = (c, told, false) →
      channel_step w (with_channels c (deliver told (channelSent w)) (<[ref := mkChannelCall (cc_waiter call) true]> (channelCalls w)) (channels w) (tokens w) w)
  | step_channels_release channel granted clk c told :
      channels w !! channel = Some granted → joined w channel →
      releaseChannels clk (coordinator w) granted = (c, told) →
      channel_step w (with_channels c (deliver told (channelSent w)) (channelCalls w) (delete channel (channels w)) (tokens w) w).

Inductive reachable (l : RecoveryLimits) : World → Prop :=
  | reach_start c : NewFlightCoordinatorWithRecovery l = Some c → reachable l (start c)
  | reach_permit w w' : reachable l w → permit_step w w' → reachable l w'
  | reach_channel w w' : reachable l w → channel_step w w' → reachable l w'.
