(* ===== verification/PermitInvariant.v ===== *)
(** What every reachable state of the query budget keeps: calls, messages and
    waiters correspond, permits are accounted for, and nothing idles while a
    caller waits. *)
From S2P Require Import Prelude QueryPermits QueryPermitsSpec PermitRuns.

Open Scope Z_scope.

(** ** Sums over a map *)

Section msum.
Context {K : Type} `{Countable K} {A : Type}.
Implicit Types (f : K → A → Z) (m : gmap K A).

Definition msum f m : Z := map_fold (λ k x acc, f k x + acc) 0 m.

Lemma msum_empty f : msum f ∅ = 0.
Proof. apply map_fold_empty. Qed.

Lemma msum_insert f m k x : m !! k = None → msum f (<[k:=x]> m) = f k x + msum f m.
Proof. intros. unfold msum. rewrite map_fold_insert_L; [done| |done]. intros. lia. Qed.

Lemma msum_delete f m k x : m !! k = Some x → msum f m = f k x + msum f (delete k m).
Proof. intros Hk. rewrite <- (insert_delete_id m k x) at 1 by done. apply msum_insert. by rewrite lookup_delete_eq. Qed.

Lemma msum_update f m k x y : m !! k = Some x → msum f (<[k:=y]> m) = msum f m - f k x + f k y.
Proof. intros Hk. rewrite (msum_delete f m k x) by done. rewrite <- insert_delete_eq, msum_insert by (by rewrite lookup_delete_eq). lia. Qed.

Lemma msum_le f g m : (∀ k x, m !! k = Some x → f k x ≤ g k x) → msum f m ≤ msum g m.
Proof.
  induction m as [|k x m Hk IH] using map_ind; intros Hle; [by rewrite !msum_empty|]. rewrite !msum_insert by done.
  pose proof (Hle k x ltac:(by rewrite lookup_insert_eq)). assert (msum f m ≤ msum g m); [|lia]. apply IH. intros j y Hj. apply Hle.
  rewrite lookup_insert_ne; congruence.
Qed.

Lemma msum_nonneg f m : (∀ k x, m !! k = Some x → 0 ≤ f k x) → 0 ≤ msum f m.
Proof.
  intros Hf. replace 0 with (msum (λ _ _, 0) m); [by apply msum_le|].
  clear Hf. induction m as [|k x m Hfresh IH] using map_ind; [apply msum_empty|]. rewrite msum_insert by done. lia.
Qed.

Lemma msum_pos f m k x : (∀ k x, m !! k = Some x → 0 ≤ f k x) → m !! k = Some x → f k x ≤ msum f m.
Proof.
  intros Hf Hk. rewrite (msum_delete f m k x) by done. assert (0 ≤ msum f (delete k m)); [|lia]. apply msum_nonneg.
  intros j y [_ ?]%lookup_delete_Some. eauto.
Qed.

Lemma msum_zero f m : (∀ k x, m !! k = Some x → f k x = 0) → msum f m = 0.
Proof.
  intros Hf. apply Z.le_antisymm; [|apply msum_nonneg; intros; rewrite (Hf _ _ H0); lia].
  transitivity (msum (λ _ _, 0) m); [apply msum_le; intros; rewrite (Hf _ _ H0); lia|].
  clear Hf. induction m as [|k x m Hfresh IH] using map_ind; [by rewrite msum_empty|]. rewrite msum_insert by done. lia.
Qed.
End msum.

(** The number of keys. *)
Definition msize {K} `{Countable K} {A} (m : gmap K A) : Z := msum (λ _ _, 1) m.

(** A sum is at most one over more keys. *)
Lemma msum_dom {K} `{Countable K} {A B} (f : K → A → Z) (g : K → B → Z) (m : gmap K A) (m' : gmap K B) :
  (∀ k y, m' !! k = Some y → 0 ≤ g k y) → (∀ k x, m !! k = Some x → ∃ y, m' !! k = Some y ∧ f k x ≤ g k y) →
  msum f m ≤ msum g m'.
Proof.
  revert m'. induction m as [|k x m Hk IH] using map_ind; intros m' Hg Hf; [rewrite msum_empty; by apply msum_nonneg|].
  destruct (Hf k x) as (y & Hy & Hle); [by rewrite lookup_insert_eq|]. rewrite msum_insert, (msum_delete g m' k y) by done.
  assert (msum f m ≤ msum g (delete k m')); [|lia]. apply IH.
  - intros j z [_ Hj]%lookup_delete_Some. eauto.
  - intros j z Hj. assert (k ≠ j) by congruence. rewrite lookup_delete_ne by done. apply Hf. by rewrite lookup_insert_ne.
Qed.

(** One when a condition holds. *)
Definition one (P : Prop) `{Decision P} : Z := if decide P then 1 else 0.

Lemma one_nonneg P `{Decision P} : 0 ≤ one P.
Proof. unfold one. case_decide; lia. Qed.
#[export] Hint Resolve one_nonneg : go.

(** ** Waiters, calls and messages *)

Definition refs (c : FlightCoordinator) : list nat := wt_ref <$> normalWaiters c ++ recoveryWaiters c.

Lemma refs_waiters c r : r ∈ refs c ↔ ∃ recovery w, w ∈ waiters recovery c ∧ wt_ref w = r.
Proof.
  unfold refs. rewrite list_elem_of_fmap. split.
  - intros (w & -> & [?|?]%elem_of_app); [exists false|exists true]; eauto.
  - intros ([] & w & Hw & <-); exists w; rewrite elem_of_app; eauto.
Qed.

Lemma waiters_ref recovery w c : w ∈ waiters recovery c → wt_ref w ∈ refs c.
Proof. rewrite refs_waiters. eauto. Qed.
#[export] Hint Resolve waiters_ref : go.

(** A waiter in a queue belongs to a call that has not given up and was sent
    nothing; a call whose waiter left the queue has its message. *)
Record calls_ok (c : FlightCoordinator) (messages : gmap nat (option QueryPermit)) (pending : gmap nat Call) : Prop := {
  ok_nodup : NoDup (refs c);
  ok_waiter recovery w : w ∈ waiters recovery c →
    ∃ channel, pending !! wt_ref w = Some (mkCall w channel false) ∧ is_recovery (wt_operation w) = recovery;
  ok_call r call : pending !! r = Some call →
    wt_ref (cl_waiter call) = r ∧ (r ∈ refs c → messages !! r = None) ∧ (r ∉ refs c → is_Some (messages !! r));
  ok_message r m : messages !! r = Some m →
    ∃ call, pending !! r = Some call ∧ (∀ permit, m = Some permit → pm_operation permit = wt_operation (cl_waiter call));
}.

(** A waiter leaves the queue it is in. *)
Lemma refs_leave recovery l w r c c' :
  waiters recovery c = l ++ w :: r → (∀ b, waiters b c' = waiters b (set_waiters recovery (l ++ r) c)) → refs c ≡ₚ wt_ref w :: refs c'.
Proof.
  intros Hq Hc'. unfold refs. rewrite (Hc' true : recoveryWaiters c' = _), (Hc' false : normalWaiters c' = _).
  destruct recovery; simpl in *; rewrite Hq, !fmap_app, fmap_cons; solve_Permutation.
Qed.

Lemma waiters_leave recovery l w r c b v :
  waiters recovery c = l ++ w :: r → v ∈ waiters b (set_waiters recovery (l ++ r) c) → v ∈ waiters b c.
Proof. destruct recovery, b; simpl; intros Hq Hv; try done; rewrite Hq; set_solver. Qed.

(** Its call gets a message, and the rest stands. *)
Lemma calls_sent c c' messages pending recovery l w r m :
  calls_ok c messages pending → waiters recovery c = l ++ w :: r → (∀ b, waiters b c' = waiters b (set_waiters recovery (l ++ r) c)) →
  (∀ permit, m = Some permit → pm_operation permit = wt_operation w) →
  calls_ok c' (<[wt_ref w := m]> messages) pending.
Proof.
  intros [Hnd Hw Hc Hm] Hq Hc' Hop. pose proof (refs_leave _ _ _ _ _ _ Hq Hc') as Hrefs.
  assert (NoDup (wt_ref w :: refs c')) as [Hnin Hnd']%NoDup_cons by (by rewrite <- Hrefs).
  assert (w ∈ waiters recovery c) as Hin by (rewrite Hq; set_solver). destruct (Hw _ _ Hin) as (ch & Hcall & Hrec). split.
  - done.
  - intros b v. rewrite Hc'. intros Hv. apply Hw. by eapply waiters_leave.
  - intros j call Hj. destruct (Hc j call Hj) as (Hr & Hmiss & Hthere). rewrite Hrefs in Hmiss, Hthere.
    destruct (decide (j = wt_ref w)) as [->|]; [rewrite lookup_insert_eq; naive_solver|]. rewrite lookup_insert_ne by done. set_solver.
  - intros j n [[<- <-]|[? Hj]]%lookup_insert_Some; [eauto|]. by apply Hm.
Qed.

Lemma grant_waiters now recovery w rest ln lr next c b :
  waiters b (granted now recovery w rest ln lr next c).1 = waiters b (set_waiters recovery rest c).
Proof. by destruct b, recovery. Qed.

Lemma calls_move c m c' messages pending :
  move c m c' → calls_ok c messages pending → calls_ok c' (<[m.1 := m.2]> messages) pending.
Proof.
  intros [recovery l w r Hq|now recovery l w r ln lr next Hq Hlt] Hok; cbn [fst snd].
  - by eapply calls_sent.
  - eapply calls_sent; [done|done|intros; apply grant_waiters|]. intros permit [= <-]. done.
Qed.

Lemma deliver_cons (m : Message) told buffers : deliver (m :: told) buffers = deliver told (<[m.1 := m.2]> buffers).
Proof. done. Qed.
Lemma deliver_app (t1 t2 : list Message) buffers : deliver (t1 ++ t2) buffers = deliver t2 (deliver t1 buffers).
Proof. apply foldl_app. Qed.

Lemma calls_moves c told c' messages pending :
  moves c told c' → calls_ok c messages pending → calls_ok c' (deliver told messages) pending.
Proof. intros Hm. revert messages. induction Hm; intros messages Hok; [done|]. rewrite deliver_cons.
  eauto using calls_move. Qed.

(** [calls_ok] sees only the queues. *)
Lemma calls_queues c c' messages pending :
  normalWaiters c' = normalWaiters c → recoveryWaiters c' = recoveryWaiters c → calls_ok c messages pending → calls_ok c' messages pending.
Proof.
  intros Hn Hr [Hnd Hw Hc Hm]. assert (∀ b, waiters b c' = waiters b c) as Hb by (by intros []).
  assert (refs c' = refs c) as Href by (unfold refs; congruence).
  split; [by rewrite Href|intros b v; rewrite Hb; apply Hw|intros j call; rewrite Href; apply Hc|done].
Qed.

(** A new call joins its queue. *)
Lemma calls_join c messages pending w channel :
  calls_ok c messages pending → pending !! wt_ref w = None →
  calls_ok (set_waiters (is_recovery (wt_operation w)) (waiters (is_recovery (wt_operation w)) c ++ [w]) c) messages
    (<[wt_ref w := mkCall w channel false]> pending).
Proof.
  intros [Hnd Hw Hc Hm] Hfresh. set (rec := is_recovery (wt_operation w)). set (c' := set_waiters _ _ _).
  assert (refs c' ≡ₚ wt_ref w :: refs c) as Hrefs.
  { subst c'. unfold refs. destruct rec; simpl; rewrite !fmap_app; simpl; solve_Permutation. }
  assert (∀ b v, v ∈ waiters b c' → v ∈ waiters b c ∨ v = w ∧ b = rec) as Hwait.
  { subst c'. intros b v. destruct rec, b; simpl; try rewrite elem_of_app, list_elem_of_singleton; tauto. }
  assert (wt_ref w ∉ refs c) as Hnin.
  { intros (b & v & Hv & Heq)%refs_waiters. destruct (Hw _ _ Hv) as (? & Hcall & _). rewrite Heq in Hcall. congruence. }
  assert (messages !! wt_ref w = None) as Hnone.
  { destruct (messages !! wt_ref w) as [m|] eqn:Hsent; [|done]. destruct (Hm _ _ Hsent) as (? & ? & _). congruence. }
  split.
  - rewrite Hrefs. by constructor.
  - intros b v [Hv|[-> ->]]%Hwait; [|exists channel; by rewrite lookup_insert_eq]. destruct (Hw _ _ Hv) as (ch & Hcall & ?).
    exists ch. rewrite lookup_insert_ne; [done|]. intros Heq. rewrite <- Heq in Hcall. congruence.
  - intros j call. rewrite Hrefs, !not_elem_of_cons, !elem_of_cons. intros [[<- <-]|[? Hj]]%lookup_insert_Some; [cbn [cl_waiter]; split_and!; [done|done|tauto]|].
    destruct (Hc _ _ Hj) as (?&?&?). split_and!; [done| |]; intuition congruence.
  - intros j m Hj. destruct (Hm _ _ Hj) as (call & Hcall & ?). exists call. rewrite lookup_insert_ne; [done|]. intros <-. congruence.
Qed.

(** A call whose waiter is in no queue ends, and its message is consumed. *)
Lemma calls_end c messages pending r :
  calls_ok c messages pending → r ∉ refs c → calls_ok c (delete r messages) (delete r pending).
Proof.
  intros [Hnd Hw Hc Hm] Hr. split; [done| | |].
  - intros b v Hv. destruct (Hw _ _ Hv) as (ch & ? & ?). exists ch. rewrite lookup_delete_ne; [done|]. intros ->. eauto with go.
  - intros j call [? Hj]%lookup_delete_Some. rewrite lookup_delete_ne by done. auto.
  - intros j m [? Hj]%lookup_delete_Some. rewrite lookup_delete_ne by done. auto.
Qed.

Lemma calls_gave_up c messages pending r call :
  calls_ok c messages pending → r ∉ refs c → pending !! r = Some call →
  calls_ok c messages (<[r := mkCall (cl_waiter call) (cl_channel call) true]> pending).
Proof.
  intros [Hnd Hw Hc Hm] Hr Hcall. split; [done| | |].
  - intros b v Hv. destruct (Hw _ _ Hv) as (ch & ? & ?). exists ch. rewrite lookup_insert_ne; [done|]. intros ->. eauto with go.
  - intros j call' [[<- <-]|[? Hj]]%lookup_insert_Some; [|auto]. exact (Hc _ _ Hcall).
  - intros j m Hj. destruct (Hm _ _ Hj) as (call' & Hcall' & ?). destruct (decide (j = r)) as [->|]; [|exists call'; by rewrite lookup_insert_ne].
    rewrite Hcall in Hcall'. injection Hcall' as <-. eexists. rewrite lookup_insert_eq. split; [reflexivity|done].
Qed.

(** A call with a message has left the queue. *)
Lemma message_left c messages pending r call m :
  calls_ok c messages pending → pending !! r = Some call → messages !! r = Some m → r ∉ refs c.
Proof. intros Hok Hc Hm Hr. destruct (ok_call _ _ _ Hok _ _ Hc) as (_ & Hnone & _). rewrite Hnone in Hm; done. Qed.

(** A call gives up: its waiter leaves the queue it is in, if it is in it. *)
Lemma removeWaiter_spec c messages pending r call :
  calls_ok c messages pending → pending !! r = Some call → cl_gaveUp call = false →
  let recovery := is_recovery (wt_operation (cl_waiter call)) in
  if (removeWaiter (cl_waiter call) recovery c).2
  then ∃ left right, waiters recovery c = left ++ cl_waiter call :: right ∧
    (removeWaiter (cl_waiter call) recovery c).1 = set_waiters recovery (left ++ right) c
  else (removeWaiter (cl_waiter call) recovery c).1 = c ∧ r ∉ refs c.
Proof.
  intros Hok Hcall Hgave recovery. destruct (ok_call _ _ _ Hok _ _ Hcall) as (Hr & _). unfold removeWaiter.
  destruct (list_find _ _) as [[i v]|] eqn:Hfind; cbn [fst snd].
  - apply list_find_Some in Hfind as (Hi & Hv & _). exists (take i (waiters recovery c)), (drop (S i) (waiters recovery c)).
    assert (v = cl_waiter call) as <-.
    { destruct (ok_waiter _ _ _ Hok recovery v) as (ch & Hv' & _); [by eapply list_elem_of_lookup_2|]. rewrite Hv, Hr, Hcall in Hv'. by simplify_eq. }
    split; [by rewrite take_drop_middle|]. by rewrite delete_take_drop.
  - split; [done|]. intros (b & v & Hv & Heq)%refs_waiters. apply list_find_None in Hfind. rewrite Forall_forall in Hfind.
    destruct (ok_waiter _ _ _ Hok b v Hv) as (ch & Hv' & Hop). rewrite Heq, Hcall in Hv'. simplify_eq. simpl in *.
    by eapply Hfind.
Qed.

Lemma calls_remove c messages pending recovery left w right :
  calls_ok c messages pending → waiters recovery c = left ++ w :: right →
  calls_ok (set_waiters recovery (left ++ right) c) messages (delete (wt_ref w) pending).
Proof.
  intros Hok Hq. set (c' := set_waiters _ _ _).
  assert (refs c ≡ₚ wt_ref w :: refs c') as Hrefs by (by eapply refs_leave).
  assert (NoDup (wt_ref w :: refs c')) as [Hnin Hnd']%NoDup_cons by (rewrite <- Hrefs; apply Hok).
  pose proof (calls_sent c c' messages pending recovery left w right None Hok Hq (λ _, eq_refl) ltac:(done)) as Hsent.
  apply (calls_end _ _ _ _ Hsent) in Hnin. rewrite delete_insert_id in Hnin; [done|].
  assert (w ∈ waiters recovery c) as Hin by (rewrite Hq; set_solver). destruct (ok_waiter _ _ _ Hok _ _ Hin) as (ch & Hcall & _).
  apply (ok_call _ _ _ Hok _ _ Hcall). eauto with go.
Qed.

(** ** Permits *)

(** What the permit in a message weighs. *)
Definition carries (f : Operation → Z) (m : option QueryPermit) : Z :=
  match m with Some permit => f (pm_operation permit) | None => 0 end.

(** Every permit accounted for by the coordinator is in exactly one message or in
    the hands of exactly one caller, and the counts are the counts of these. *)
Record permits_ok (c : FlightCoordinator) (messages : gmap nat (option QueryPermit)) (held : gmap Z Holder) : Prop := {
  pk_limit : queryInflight c ≤ ProcessQueryPermits (limits c);
  pk_inflight : queryInflight c = msize (heldPermits c) + msize (lookbackHeld c);
  pk_lookback : lookbackInflight c = msize (lookbackHeld c);
  pk_byop operation : default 0 (inflightByOp c !! operation) = msum (λ _ h, one (hp_operation h = operation)) (heldPermits c);
  pk_ids id : is_Some (heldPermits c !! id) ∨ is_Some (lookbackHeld c !! id) → id ≤ permitSequence c;
  pk_message r permit : messages !! r = Some (Some permit) →
    ∃ h, heldPermits c !! pm_id permit = Some h ∧ hp_operation h = pm_operation permit;
  pk_holder id holder : held !! id = Some holder →
    pm_id (ho_permit holder) = id ∧ ∃ h, heldPermits c !! id = Some h ∧ hp_operation h = pm_operation (ho_permit holder);
  pk_messages r r' permit permit' : messages !! r = Some (Some permit) → messages !! r' = Some (Some permit') →
    pm_id permit = pm_id permit' → r = r';
  pk_apart r permit : messages !! r = Some (Some permit) → held !! pm_id permit = None;
  pk_count f : msum (λ _ h, f (hp_operation h)) (heldPermits c) =
    msum (λ _ m, carries f m) messages + msum (λ _ holder, f (pm_operation (ho_permit holder))) held;
  pk_wrap : 0 ≤ permitSequence c ∧ permitSequence c + Z.of_nat (queue_size c) ≤ maxUint64;
}.

(** The accounting sees the permits' fields only. *)
Definition same_permits (c c' : FlightCoordinator) : Prop :=
  limits c' = limits c ∧ queryInflight c' = queryInflight c ∧ permitSequence c' = permitSequence c ∧
  inflightByOp c' = inflightByOp c ∧ heldPermits c' = heldPermits c ∧ lookbackInflight c' = lookbackInflight c.

Lemma permits_frame c c' messages held :
  same_permits c c' → (∀ id, is_Some (lookbackHeld c' !! id) ↔ is_Some (lookbackHeld c !! id)) → msize (lookbackHeld c') = msize (lookbackHeld c) →
  (queue_size c' ≤ queue_size c)%nat → permits_ok c messages held → permits_ok c' messages held.
Proof.
  intros (El&Ei&Es&Eb&Eh&El') Hids Hsize Hq []. split; rewrite ?El, ?Ei, ?Es, ?Eb, ?Eh, ?El', ?Hsize; try done.
  - intros id. rewrite Hids. auto.
  - lia.
Qed.

Lemma permits_told_nil c messages held r :
  messages !! r = None → permits_ok c messages held → permits_ok c (<[r := None]> messages) held.
Proof.
  intros Hr []. split; try done.
  - intros j p [[? ?]|[? ?]]%lookup_insert_Some; [done|eauto].
  - intros j j' p p' [[? ?]|[? ?]]%lookup_insert_Some [[? ?]|[? ?]]%lookup_insert_Some; [done..|eauto].
  - intros j p [[? ?]|[? ?]]%lookup_insert_Some; [done|eauto].
  - intros f. rewrite msum_insert by done. cbn [carries]. rewrite pk_count0. lia.
Qed.

Lemma queue_size_leave recovery l w r c : waiters recovery c = l ++ w :: r → queue_size c = S (queue_size (set_waiters recovery (l ++ r) c)).
Proof. unfold queue_size. destruct recovery; simpl; intros ->; rewrite !length_app; simpl; lia. Qed.

Lemma one_eq (P : Prop) `{Decision P} : P → one P = 1.
Proof. intros. unfold one. by rewrite decide_True. Qed.
Lemma one_ne (P : Prop) `{Decision P} : ¬ P → one P = 0.
Proof. intros. unfold one. by rewrite decide_False. Qed.

Lemma default_add_op d o o' (m : gmap Operation Z) : default 0 (add_op d o m !! o') = default 0 (m !! o') + one (o = o') * d.
Proof.
  unfold add_op, one. case_decide; [subst; rewrite lookup_insert_eq; simpl; lia|]. rewrite lookup_insert_ne by done. lia.
Qed.

(** A permit granted: a fresh id, one more in flight. *)
Lemma permits_grant c messages held now recovery l w r ln lr next :
  permits_ok c messages held → messages !! wt_ref w = None → waiters recovery c = l ++ w :: r →
  queryInflight c < ProcessQueryPermits (limits c) →
  permits_ok (granted now recovery w (l ++ r) ln lr next c).1 (<[wt_ref w := Some (granted now recovery w (l ++ r) ln lr next c).2]> messages) held.
Proof.
  intros [] Hnone Hq Hlt. unfold granted. set (c1 := set_turn _ _ _ _).
  assert (queue_size c = S (queue_size c1)) as Hsize by (apply queue_size_leave in Hq; by rewrite Hq).
  assert (permitSequence c1 = permitSequence c) as Hseq by (by destruct recovery).
  assert (u64 (permitSequence c1 + 1) = permitSequence c + 1) as Hid by (rewrite Hseq; apply u64_id; go_lia).
  assert (heldPermits c1 = heldPermits c ∧ lookbackHeld c1 = lookbackHeld c ∧ queryInflight c1 = queryInflight c ∧
    inflightByOp c1 = inflightByOp c ∧ limits c1 = limits c ∧ lookbackInflight c1 = lookbackInflight c) as (E1&E2&E3&E4&E5&E6) by (by destruct recovery).
  assert (heldPermits c !! (permitSequence c + 1) = None) as Hfresh.
  { destruct (heldPermits c !! _) eqn:Hh; [|done]. ospecialize (pk_ids0 (permitSequence c + 1) _); [left; by eexists|lia]. }
  assert (∀ r' p, messages !! r' = Some (Some p) → pm_id p ≠ permitSequence c + 1) as Hmsg.
  { intros r' p Hp Heq. destruct (pk_message0 _ _ Hp) as (h & Hh & _). congruence. }
  unfold grant_permit. rewrite Hid, E1, E3, E4. cbn [fst snd]. split; cbn [queryInflight limits heldPermits lookbackHeld lookbackInflight inflightByOp permitSequence pm_id pm_operation set_inflight];
    rewrite ?E1, ?E2, ?E5, ?E6.
  - lia.
  - unfold msize in *. rewrite msum_insert by done. lia.
  - done.
  - intros o. rewrite default_add_op, msum_insert, pk_byop0 by done. cbn. lia.
  - intros id. destruct (decide (id = permitSequence c + 1)) as [->|]; [lia|]. rewrite lookup_insert_ne by done. intros Hin%pk_ids0. lia.
  - intros j p [[<- [= <-]]|[? Hj]]%lookup_insert_Some; [eexists; by rewrite lookup_insert_eq|].
    destruct (pk_message0 _ _ Hj) as (h & ? & ?). exists h. rewrite lookup_insert_ne; [done|]. apply not_eq_sym. eauto.
  - intros id ho Hho. destruct (pk_holder0 _ _ Hho) as (? & h & ? & ?). split; [done|]. exists h. rewrite lookup_insert_ne; [done|congruence].
  - intros j j' p p' [[<- [= <-]]|[? Hj]]%lookup_insert_Some [[<- [= <-]]|[? Hj']]%lookup_insert_Some; cbn [pm_id]; intros Hp; try done.
    + by edestruct Hmsg.
    + by edestruct Hmsg.
    + eauto.
  - intros j p [[<- [= <-]]|[? Hj]]%lookup_insert_Some; [|eauto]. cbn [pm_id]. destruct (held !! _) eqn:Hh; [|done].
    destruct (pk_holder0 _ _ Hh) as (_ & ? & ? & _). congruence.
  - intros f. rewrite !msum_insert by done. cbn [carries hp_operation pm_operation]. rewrite pk_count0. lia.
  - change (queue_size (set_inflight _ _ _ _ c1)) with (queue_size c1). lia.
Qed.

(** ** Both, through the dispatch *)

Definition ok (c : FlightCoordinator) (messages : gmap nat (option QueryPermit)) (pending : gmap nat Call) (held : gmap Z Holder) : Prop :=
  calls_ok c messages pending ∧ permits_ok c messages held.

Lemma ok_move c m c' messages pending held :
  move c m c' → ok c messages pending held → ok c' (<[m.1 := m.2]> messages) pending held.
Proof.
  intros Hm [Hcalls Hpermits]. split; [by eapply calls_move|].
  assert (messages !! m.1 = None) as Hnone.
  { assert (m.1 ∈ refs c) as Hin by (destruct Hm as [? l w r Hq|??? w ???? Hq]; simpl; eapply waiters_ref; rewrite Hq; set_solver).
    apply refs_waiters in Hin as (b & w & Hw & <-). destruct (ok_waiter _ _ _ Hcalls _ _ Hw) as (ch & Hcall & _).
    apply (ok_call _ _ _ Hcalls _ _ Hcall). eauto with go. }
  destruct Hm as [recovery l w r Hq|]; cbn [fst snd] in *.
  - apply permits_told_nil; [done|]. eapply permits_frame; [..|exact Hpermits]; try by destruct recovery.
    apply queue_size_leave in Hq. lia.
  - by apply permits_grant.
Qed.

Lemma ok_moves c told c' messages pending held :
  moves c told c' → ok c messages pending held → ok c' (deliver told messages) pending held.
Proof. intros Hm. revert messages. induction Hm; intros messages Hok; [done|]. rewrite deliver_cons. eauto using ok_move. Qed.

Lemma ok_dispatch clk c c' told messages pending held :
  dispatchQueryPermits clk c = (c', told) → ok c messages pending held → ok c' (deliver told messages) pending held ∧ settled c'.
Proof.
  intros E Hok. destruct (dispatch_moves clk c) as [Hm Hs]. rewrite E in Hm, Hs. cbn [fst snd] in *. split; [by eapply ok_moves|done].
Qed.

(** ** The queues' bounds *)

Definition fits (c : FlightCoordinator) : Prop :=
  ∀ recovery, Z.of_nat (length (waiters recovery c)) ≤ queue_capacity recovery c.

Lemma move_fits c m c' : move c m c' → fits c → fits c'.
Proof.
  intros Hm Hf b. specialize (Hf b).
  destruct Hm as [recovery l w r Hq|??? w ???? Hq]; destruct recovery, b; simpl in *; rewrite ?Hq, ?length_app in *; simpl in *;
    unfold queue_capacity in *; simpl in *; lia.
Qed.

Lemma moves_fits c told c' : moves c told c' → fits c → fits c'.
Proof. induction 1; eauto using move_fits. Qed.

Lemma fits_frame c c' :
  limits c' = limits c → (∀ recovery, (length (waiters recovery c') ≤ length (waiters recovery c))%nat) → fits c → fits c'.
Proof. intros El Hlen Hf b. specialize (Hf b). specialize (Hlen b). unfold queue_capacity in *. rewrite El. destruct b; lia. Qed.

(** ** A waiter is queued *)

Lemma expire_state clk c recovery :
  let '(queue, told) := expireWaiters (clk 0%nat) (waiters recovery c) in
  moves c told (set_waiters recovery queue c) ∧ waiters recovery (set_waiters recovery queue c) = queue.
Proof. pose proof (expire_moves (clk 0%nat) recovery c) as Hm. destruct (expireWaiters _ _). split; [done|apply waiters_set]. Qed.

Lemma yield_lookback_frame c :
  same_permits c (yieldLookback c) ∧ (∀ id, is_Some (lookbackHeld (yieldLookback c) !! id) ↔ is_Some (lookbackHeld c !! id)) ∧
  msize (lookbackHeld (yieldLookback c)) = msize (lookbackHeld c).
Proof.
  split_and!; [done| |].
  - intros id. simpl. by rewrite lookup_fmap, fmap_is_Some.
  - simpl. unfold msize. induction (lookbackHeld c) as [|k x m Hk IH] using map_ind; [by rewrite fmap_empty|].
    rewrite fmap_insert, !msum_insert; [lia|done|]. by rewrite lookup_fmap, Hk.
Qed.

Definition queue_state (messages : gmap nat (option QueryPermit)) (pending : gmap nat Call) (held : gmap Z Holder) (c : FlightCoordinator) : Prop :=
  ok c messages pending held ∧ settled c ∧ fits c.

Lemma settled_frame c c' : same_permits c c' → normalWaiters c' = normalWaiters c → recoveryWaiters c' = recoveryWaiters c → settled c → settled c'.
Proof. unfold settled. intros (-> & -> & _) -> ->. done. Qed.

Lemma ok_frame c c' messages pending held :
  same_permits c c' → lookbackHeld c' = lookbackHeld c → normalWaiters c' = normalWaiters c → recoveryWaiters c' = recoveryWaiters c →
  ok c messages pending held → ok c' messages pending held.
Proof.
  intros Hs Hl Hn Hr [Hc Hp]. split; [by eapply calls_queues|]. eapply permits_frame; [done| | | |exact Hp]; rewrite ?Hl; [done..|].
  unfold queue_size. by rewrite Hn, Hr.
Qed.

(** The end of the section: the counters, and the lookback asked to yield. *)
Lemma ok_counts c acquires queued seconds messages pending held :
  queue_state messages pending held c → queue_state messages pending held (set_counts acquires queued seconds c).
Proof.
  intros (Hok & Hs & Hf). split_and!; [by apply (ok_frame c)|by apply (settled_frame c)|].
  eapply fits_frame; [..|exact Hf]; [done|by intros []].
Qed.

Lemma ok_yield c messages pending held :
  queue_state messages pending held c → queue_state messages pending held (yieldLookback c).
Proof.
  intros ([Hc Hp] & Hs & Hf). destruct (yield_lookback_frame c) as (Hsame & Hids & Hsize). split_and!.
  - split; [by apply (calls_queues c)|]. by apply (permits_frame c).
  - by apply (settled_frame c).
  - eapply fits_frame; [..|exact Hf]; [done|by intros []].
Qed.

Lemma ok_settle clk c c' told messages pending held :
  dispatchQueryPermits clk c = (c', told) → ok c messages pending held → fits c → queue_state (deliver told messages) pending held c'.
Proof.
  intros E Hok Hf. destruct (ok_dispatch _ _ _ _ _ _ _ E Hok). split_and!; [done..|].
  pose proof (proj1 (dispatch_moves clk c)) as Hm. rewrite E in Hm. by eapply moves_fits.
Qed.

Lemma ok_join c messages pending held w channel :
  ok c messages pending held → pending !! wt_ref w = None → permitSequence c + Z.of_nat (queue_size c) < maxUint64 →
  let recovery := is_recovery (wt_operation w) in
  ok (set_waiters recovery (waiters recovery c ++ [w]) c) messages (<[wt_ref w := mkCall w channel false]> pending) held.
Proof.
  intros [Hc Hp] Hfresh Hwrap recovery. split; [by apply calls_join|]. set (c' := set_waiters _ _ _).
  assert (queue_size c' = S (queue_size c)) as Hsize by (subst c'; unfold queue_size; destruct recovery; simpl; rewrite length_app; simpl; lia).
  assert (same_permits c c' ∧ lookbackHeld c' = lookbackHeld c) as [(?&E2&E3&E4&E5&E6) E7] by (subst c'; by destruct recovery).
  destruct Hp. split; rewrite ?E2, ?E3, ?E4, ?E5, ?E6, ?E7; try done; [congruence|]. rewrite Hsize. lia.
Qed.

Lemma move_wrap c m c' messages pending held :
  move c m c' → ok c messages pending held → permitSequence c' + Z.of_nat (queue_size c') ≤ permitSequence c + Z.of_nat (queue_size c).
Proof.
  intros Hm [_ Hp]. pose proof (move_size _ _ _ Hm). destruct (pk_wrap _ _ _ Hp).
  destruct Hm as [recovery|? recovery].
  - destruct recovery; simpl in *; lia.
  - assert (permitSequence (granted now recovery waiter (l ++ r) lastNormal lastRecovery next c).1 = permitSequence c + 1) as ->; [|lia].
    unfold granted, grant_permit. cbn [fst permitSequence set_inflight]. destruct recovery; cbn [permitSequence set_turn set_waiters set_recovery set_normal]; apply u64_id; go_lia.
Qed.

Lemma moves_wrap c told c' messages pending held :
  moves c told c' → ok c messages pending held → permitSequence c' + Z.of_nat (queue_size c') ≤ permitSequence c + Z.of_nat (queue_size c).
Proof.
  intros Hm. revert messages. induction Hm as [|c m c1 told c2 Hm Hms IH]; intros messages Hok; [done|].
  pose proof (move_wrap _ _ _ _ _ _ Hm Hok). apply (ok_move _ _ _ _ _ _ Hm) in Hok. specialize (IH _ Hok). lia.
Qed.

Lemma enqueue_state clk c w c' told channel messages pending held :
  enqueueWaiter clk c w = (c', told, None) → queue_state messages pending held c → pending !! wt_ref w = None → no_wrap c →
  queue_state (deliver told messages) (<[wt_ref w := mkCall w channel false]> pending) held c'.
Proof.
  intros E (Hok & Hs & Hf) Hfresh Hwrap. unfold enqueueWaiter in E. set (recovery := is_recovery (wt_operation w)) in *.
  pose proof (expire_state clk c recovery) as Hexp. destruct (expireWaiters _ _) as [queue t1]. destruct Hexp as [Hm Hq]. cbv zeta in E.
  destruct (_ || _) eqn:Hroom; [discriminate|]. breflect. set (c1 := set_waiters recovery queue c) in *.
  destruct (dispatchQueryPermits _ _) as [c2 t2] eqn:Ed.
  assert (queue_state (deliver (t1 ++ t2) messages) (<[wt_ref w := mkCall w channel false]> pending) held c2) as Hstate.
  { rewrite deliver_app. apply (ok_settle _ _ _ _ _ _ _ Ed).
    - rewrite <- Hq at 1. apply ok_join; [by eapply ok_moves|done|]. pose proof (moves_wrap _ _ _ _ _ _ Hm Hok). unfold no_wrap, queue_size in *. lia.
    - apply (moves_fits _ _ _ Hm) in Hf. intros b. specialize (Hf b). destruct (moves_frame _ _ _ Hm) as (_ & El & _).
      unfold queue_capacity in *. destruct (decide (b = recovery)) as [->|Hb].
      + rewrite waiters_set, length_app. simpl. destruct recovery; simpl in *; lia.
      + destruct b, recovery; simpl in *; try done; lia. }
  destruct (waiterQueued _ _ _); simplify_eq; [apply ok_yield|]; by apply ok_counts.
Qed.

Lemma enqueue_full_state clk c w c' told e messages pending held :
  enqueueWaiter clk c w = (c', told, Some e) → queue_state messages pending held c → queue_state (deliver told messages) pending held c'.
Proof.
  intros E (Hok & Hs & Hf). unfold enqueueWaiter in E. set (recovery := is_recovery (wt_operation w)) in *.
  pose proof (expire_state clk c recovery) as Hexp. destruct (expireWaiters _ _) as [queue t1] eqn:Eexp. destruct Hexp as [Hm Hq]. cbv zeta in E.
  destruct (_ || _) eqn:Hroom.
  2: { destruct (dispatchQueryPermits _ _). discriminate. }
  simplify_eq. split_and!; [by eapply ok_moves| |by eapply moves_fits].
  intros Hlt. assert (queryInflight c < ProcessQueryPermits (limits c)) as Hlt' by (by destruct recovery). destruct (Hs Hlt') as [Hn Hr].
  unfold expireWaiters in Eexp. destruct recovery; simpl in *; [rewrite Hr in Eexp|rewrite Hn in Eexp]; injection Eexp as <- _; done.
Qed.

(** ** A waiter gives up *)

Lemma give_up_state clk c w c' told removed messages pending held r call :
  giveUpWaiter clk c w = (c', told, removed) → queue_state messages pending held c →
  pending !! r = Some call → cl_gaveUp call = false → cl_waiter call = w →
  queue_state (deliver told messages) (if removed then delete r pending else <[r := mkCall w (cl_channel call) true]> pending) held c'.
Proof.
  intros E (Hok & Hs & Hf) Hcall Hgave Hw. unfold giveUpWaiter in E. rewrite <- Hw in E.
  pose proof (removeWaiter_spec _ _ _ _ _ (proj1 Hok) Hcall Hgave) as Hrem. cbv zeta in Hrem.
  destruct (removeWaiter _ _ _) as [c1 b] eqn:Erem. cbn [fst snd] in Hrem.
  destruct (dispatchQueryPermits clk c1) as [c2 t2] eqn:Ed. injection E as -> -> ->. apply (ok_settle _ _ _ _ _ _ _ Ed); destruct removed.
  - destruct Hrem as (left & right & Hq & ->). destruct Hok as [Hc Hp]. split.
    + destruct (ok_call _ _ _ Hc _ _ Hcall) as (<- & _). by apply calls_remove.
    + eapply permits_frame; [..|exact Hp]; try by destruct (is_recovery _). apply queue_size_leave in Hq. lia.
  - destruct Hrem as [-> Hr]. destruct Hok as [Hc Hp]. split; [|done]. rewrite <- Hw. by apply calls_gave_up.
  - destruct Hrem as (left & right & Hq & ->). eapply fits_frame; [..|exact Hf]; [by destruct (is_recovery _)|].
    intros b. destruct (decide (b = is_recovery (wt_operation (cl_waiter call)))) as [->|Hb].
    + rewrite waiters_set, Hq, !length_app. simpl. lia.
    + destruct b, (is_recovery _); simpl in *; try done; lia.
  - by destruct Hrem as [-> _].
Qed.

(** ** A permit is given back *)

(** The accounting of a release, before the dispatch. *)
Record accounted (c : FlightCoordinator) (operation : Operation) (permitID : Z) (c' : FlightCoordinator) : Prop := {
  acc_limits : limits c' = limits c;
  acc_queues b : waiters b c' = waiters b c;
  acc_inflight : queryInflight c' = queryInflight c - 1;
  acc_sequence : permitSequence c' = permitSequence c;
  acc_byop o : default 0 (inflightByOp c' !! o) = default 0 (inflightByOp c !! o) - one (o = operation);
  acc_held : heldPermits c' = delete permitID (heldPermits c);
  acc_lookback : lookbackHeld c' = lookbackHeld c ∧ lookbackInflight c' = lookbackInflight c;
}.

Lemma msize_pos {K} `{Countable K} {A} (m : gmap K A) k x : m !! k = Some x → 1 ≤ msize m.
Proof. intros Hk. apply (msum_pos (λ _ _, 1) m k x); [intros; lia|done]. Qed.

Lemma msize_nonneg {K} `{Countable K} {A} (m : gmap K A) : 0 ≤ msize m.
Proof. apply msum_nonneg. intros. lia. Qed.

Lemma release_accounts clk c operation permitID h messages held :
  permits_ok c messages held → heldPermits c !! permitID = Some h → hp_operation h = operation →
  ∃ clk' c1, releaseQueryPermit clk c operation permitID = dispatchQueryPermits clk' c1 ∧ accounted c operation permitID c1.
Proof.
  intros Hp Hh Hop. unfold releaseQueryPermit. cbv zeta. cbn [heldPermits set_inflight]. rewrite Hh. eexists _, _. split; [reflexivity|].
  assert (1 ≤ queryInflight c) as Hpos.
  { rewrite (pk_inflight _ _ _ Hp). pose proof (msize_pos _ _ _ Hh). pose proof (msize_nonneg (lookbackHeld c)). lia. }
  assert (1 ≤ default 0 (inflightByOp c !! operation)) as Hbyop.
  { rewrite (pk_byop _ _ _ Hp operation).
    pose proof (msum_pos (λ _ h, one (hp_operation h = operation)) _ _ _ (λ _ _ _, one_nonneg _) Hh) as Hle. cbv beta in Hle. by rewrite (one_eq _ Hop) in Hle. }
  split; cbn [limits queryInflight permitSequence heldPermits lookbackHeld lookbackInflight inflightByOp set_counts set_inflight]; try done.
  - unfold decrement. case_match; breflect; lia.
  - intros o. simpl. rewrite (proj2 (Z.ltb_lt 0 _)) by lia. unfold one. case_decide as Ho.
    + subst o. rewrite lookup_insert_eq. done.
    + rewrite lookup_insert_ne by congruence. lia.
Qed.

(** A permit that was in a message, or in a caller's hands, and is in neither any
    more. *)
Lemma permits_drop c c1 operation permitID h messages messages' held held' :
  permits_ok c messages held → accounted c operation permitID c1 → heldPermits c !! permitID = Some h → hp_operation h = operation →
  (∀ r m, messages' !! r = Some m → messages !! r = Some m ∧ ∀ p, m = Some p → pm_id p ≠ permitID) →
  (∀ id ho, held' !! id = Some ho → held !! id = Some ho ∧ id ≠ permitID) →
  (∀ f, msum (λ _ m, carries f m) messages' + msum (λ _ ho, f (pm_operation (ho_permit ho))) held' =
        msum (λ _ m, carries f m) messages + msum (λ _ ho, f (pm_operation (ho_permit ho))) held - f operation) →
  permits_ok c1 messages' held'.
Proof.
  intros Hp [El Eq Ei Es Eb Eh [El1 El2]] Hh Hop Hm Hho Hcount. destruct Hp. split; rewrite ?El, ?Ei, ?Es, ?Eh, ?El1, ?El2; try done.
  - lia.
  - unfold msize in *. rewrite (msum_delete _ _ _ _ Hh) in pk_inflight0. lia.
  - intros o. rewrite Eb, pk_byop0, (msum_delete _ _ _ _ Hh), Hop. unfold one. repeat case_decide; congruence || lia.
  - intros id [[x [_ Hin]%lookup_delete_Some]|Hin]; apply pk_ids0; eauto.
  - intros r p [Hr Hne]%Hm. destruct (pk_message0 _ _ Hr) as (h' & ? & ?). exists h'. rewrite lookup_delete_ne; [done|].
    by apply not_eq_sym, Hne.
  - intros id ho [Hid Hne]%Hho. destruct (pk_holder0 _ _ Hid) as (? & h' & ? & ?). split; [done|]. exists h'. by rewrite lookup_delete_ne.
  - intros r r' p p' [Hr _]%Hm [Hr' _]%Hm. eauto.
  - intros r p [Hr _]%Hm. destruct (held' !! pm_id p) eqn:Hin; [|done]. destruct (Hho _ _ Hin) as [Hin' _].
    rewrite (pk_apart0 _ _ Hr) in Hin'. done.
  - intros f. specialize (pk_count0 f). rewrite (msum_delete _ _ _ _ Hh), Hop in pk_count0. rewrite Hcount. lia.
  - assert (queue_size c1 = queue_size c) as ->; [|lia]. unfold queue_size. by rewrite (Eq false : normalWaiters c1 = _), (Eq true : recoveryWaiters c1 = _).
Qed.

Lemma calls_accounted c c1 operation permitID messages pending :
  accounted c operation permitID c1 → calls_ok c messages pending → calls_ok c1 messages pending.
Proof. intros Ha. apply calls_queues; [apply (acc_queues _ _ _ _ Ha false)|apply (acc_queues _ _ _ _ Ha true)]. Qed.

Lemma fits_accounted c c1 operation permitID : accounted c operation permitID c1 → fits c → fits c1.
Proof. intros Ha. apply fits_frame; [apply Ha|]. intros b. by rewrite (acc_queues _ _ _ _ Ha b). Qed.

(** The permit of a message is released by the call it was for. *)
Lemma release_message_state clk c c' told messages pending held r call permit :
  releaseQueryPermit clk c (pm_operation permit) (pm_id permit) = (c', told) → queue_state messages pending held c →
  pending !! r = Some call → messages !! r = Some (Some permit) →
  queue_state (deliver told (delete r messages)) (delete r pending) held c'.
Proof.
  intros E ([Hc Hp] & Hs & Hf) Hcall Hm. destruct (pk_message _ _ _ Hp _ _ Hm) as (h & Hh & Hop).
  destruct (release_accounts clk _ _ _ _ _ _ Hp Hh Hop) as (clk' & c1 & Erel & Hacc). rewrite Erel in E.
  apply (ok_settle _ _ _ _ _ _ _ E); [split|by eapply fits_accounted].
  - eapply calls_accounted; [done|]. apply calls_end; [done|]. by eapply message_left.
  - eapply permits_drop; [done..| | |].
    + intros j m [Hne Hj]%lookup_delete_Some. split; [done|]. intros p -> Heq. apply Hne. by eapply (pk_messages _ _ _ Hp r j).
    + intros id ho Hid. split; [done|]. intros ->. by rewrite (pk_apart _ _ _ Hp _ _ Hm) in Hid.
    + intros f. rewrite (msum_delete (λ _ m, carries f m) messages r (Some permit)) by done. cbn [carries]. lia.
Qed.

(** A permit held is released. *)
Lemma release_holder_state clk c c' told messages pending held id holder :
  releaseQueryPermit clk c (pm_operation (ho_permit holder)) (pm_id (ho_permit holder)) = (c', told) → queue_state messages pending held c →
  held !! id = Some holder → queue_state (deliver told messages) pending (delete id held) c'.
Proof.
  intros E ([Hc Hp] & Hs & Hf) Hho. destruct (pk_holder _ _ _ Hp _ _ Hho) as (Hid & h & Hh & Hop). rewrite Hid in E.
  destruct (release_accounts clk _ _ _ _ _ _ Hp Hh Hop) as (clk' & c1 & Erel & Hacc). rewrite Erel in E.
  apply (ok_settle _ _ _ _ _ _ _ E); [split|by eapply fits_accounted].
  - by eapply calls_accounted.
  - eapply permits_drop; [done..| | |].
    + intros j m Hj. split; [done|]. intros p -> Heq. rewrite <- Heq in Hho. by rewrite (pk_apart _ _ _ Hp _ _ Hj) in Hho.
    + intros j ho [??]%lookup_delete_Some. done.
    + intros f. rewrite (msum_delete (λ _ ho, f (pm_operation (ho_permit ho))) held id holder) by done. lia.
Qed.

(** A permit passes from its message to its caller. *)
Lemma receive_state c messages pending held r call permit channel :
  queue_state messages pending held c → pending !! r = Some call → messages !! r = Some (Some permit) →
  queue_state (delete r messages) (delete r pending) (<[pm_id permit := mkHolder permit channel]> held) c.
Proof.
  intros ([Hc Hp] & Hs & Hf) Hcall Hm. split_and!; [split|done..].
  - apply calls_end; [done|]. by eapply message_left.
  - pose proof (pk_apart _ _ _ Hp _ _ Hm) as Hnone. destruct (pk_message _ _ _ Hp _ _ Hm) as (h & Hh & Hop). destruct Hp. split; try done.
    + intros j p [_ Hj]%lookup_delete_Some. eauto.
    + intros id ho [[<- <-]|[_ Hid]]%lookup_insert_Some; [|eauto]. split; [done|]. eauto.
    + intros j j' p p' [_ Hj]%lookup_delete_Some [_ Hj']%lookup_delete_Some. eauto.
    + intros j p [Hne Hj]%lookup_delete_Some. rewrite lookup_insert_ne; [eauto|]. intros Heq. apply Hne. eauto.
    + intros f. specialize (pk_count0 f). rewrite msum_insert by done.
      rewrite (msum_delete (λ _ m, carries f m) messages r (Some permit)) in pk_count0 by done. cbn [carries ho_permit] in *. lia.
Qed.

(** A call ends on nil. *)
Lemma receive_nil_state c messages pending held r call :
  queue_state messages pending held c → pending !! r = Some call → messages !! r = Some None →
  queue_state (delete r messages) (delete r pending) held c.
Proof.
  intros ([Hc Hp] & Hs & Hf) Hcall Hm. split_and!; [split|done..].
  - apply calls_end; [done|]. by eapply message_left.
  - destruct Hp. split; try done.
    + intros j p [_ Hj]%lookup_delete_Some. eauto.
    + intros j j' p p' [_ Hj]%lookup_delete_Some [_ Hj']%lookup_delete_Some. eauto.
    + intros j p [_ Hj]%lookup_delete_Some. eauto.
    + intros f. specialize (pk_count0 f). rewrite (msum_delete (λ _ m, carries f m) messages r None) in pk_count0 by done. cbn [carries] in *. lia.
Qed.

(** ** The lookback *)

Lemma settled_moves c told c' : moves c told c' → settled c → queryInflight c' = queryInflight c → settled c'.
Proof.
  intros Hm Hs Hi Hlt. destruct (moves_frame _ _ _ Hm) as (_ & El & _). rewrite Hi, El in Hlt. destruct (Hs Hlt) as [Hn Hr].
  pose proof (moves_size _ _ _ Hm) as Hsize. unfold queue_size in Hsize. rewrite Hn, Hr in Hsize. simpl in Hsize.
  destruct (normalWaiters c'), (recoveryWaiters c'); simpl in *; done || lia.
Qed.

Lemma lookback_state clk c c' told answer messages pending held :
  TryAcquireLookbackPermit clk c = (c', told, answer) → queue_state messages pending held c → no_wrap c →
  queue_state (deliver told messages) pending held c'.
Proof.
  intros E (Hok & Hs & Hf) Hwrap. unfold TryAcquireLookbackPermit in E. destruct (recoveryEnabled c); cbn [negb] in E; [|by simplify_eq].
  pose proof (expireNormal_moves (clk 0%nat) c) as H1. pose proof (proj1 (expire_inflight (clk 0%nat) c)) as I1.
  destruct (expireNormal (clk 0%nat) c) as [c1 t1]. cbn [fst snd] in *.
  pose proof (expireRecovery_moves (clk 1%nat) c1) as H2. pose proof (proj2 (expire_inflight (clk 1%nat) c1)) as I2.
  destruct (expireRecovery (clk 1%nat) c1) as [c2 t2]. cbn [fst snd] in *.
  pose proof (moves_trans _ _ _ _ _ H1 H2) as H12.
  assert (queue_state (deliver (t1 ++ t2) messages) pending held c2) as Hstate.
  { split_and!; [by eapply ok_moves| |by eapply moves_fits]. eapply settled_moves; [done..|congruence]. }
  pose proof (moves_wrap _ _ _ _ _ _ H12 Hok) as Hw2. unfold no_wrap, queue_size in *.
  destruct (nonempty (normalWaiters c2) || _ || _) eqn:Hwait; [by simplify_eq|]. apply orb_false_iff in Hwait as [[Hn Hr]%orb_false_iff _].
  destruct (Z.leb_spec (ProcessQueryPermits (limits c2)) (queryInflight c2)); [by simplify_eq|]. simplify_eq.
  destruct Hstate as ([Hc Hp] & _ & Hf2). apply nonempty_false in Hn, Hr. pose proof (pk_wrap _ _ _ Hp) as Hseq. unfold queue_size in *.
  rewrite u64_id by go_lia. assert (lookbackHeld c2 !! (permitSequence c2 + 1) = None) as Hfresh.
  { destruct (lookbackHeld c2 !! _) eqn:Hh; [|done]. opose proof (pk_ids _ _ _ Hp (permitSequence c2 + 1) _); [right; by eexists|lia]. }
  split_and!; [split; [by apply (calls_queues c2)|]| |].
  - destruct Hp. split; cbn [queryInflight limits permitSequence heldPermits lookbackHeld lookbackInflight inflightByOp set_lookback set_inflight]; try done.
    + lia.
    + unfold msize in *. rewrite msum_insert by done. lia.
    + unfold msize in *. rewrite msum_insert by done. lia.
    + intros id [Hin|Hin]; [ospecialize (pk_ids0 id _); [by left|lia]|]. destruct (decide (id = permitSequence c2 + 1)) as [->|]; [lia|].
      rewrite lookup_insert_ne in Hin by done. ospecialize (pk_ids0 id _); [by right|lia].
    + unfold queue_size. simpl. lia.
  - by intros _.
  - eapply fits_frame; [..|exact Hf2]; [done|by intros []].
Qed.

Lemma lookback_release_state clk c c' told id h messages pending held :
  releaseLookbackPermit clk c id = (c', told) → lookbackHeld c !! id = Some h → queue_state messages pending held c →
  queue_state (deliver told messages) pending held c'.
Proof.
  intros E Hh ([Hc Hp] & Hs & Hf). unfold releaseLookbackPermit in E. cbv zeta in E. cbn [lookbackHeld set_lookback set_inflight] in E. rewrite Hh in E.
  pose proof (msize_pos _ _ _ Hh) as Hpos. pose proof (msize_nonneg (heldPermits c)) as Hheld.
  apply (ok_settle _ _ _ _ _ _ _ E).
  - split; [by apply (calls_queues c)|]. destruct Hp. split;
      cbn [queryInflight limits permitSequence heldPermits lookbackHeld lookbackInflight inflightByOp set_lookback set_inflight]; try done.
    + unfold decrement. destruct (Z.ltb_spec 0 (queryInflight c)); lia.
    + unfold decrement. rewrite (proj2 (Z.ltb_lt 0 _)) by lia. unfold msize in *. rewrite (msum_delete _ _ _ _ Hh) in pk_inflight0. lia.
    + unfold decrement. rewrite (proj2 (Z.ltb_lt 0 _)) by lia. unfold msize in *. rewrite (msum_delete _ _ _ _ Hh) in pk_lookback0. lia.
    + intros j [Hj|[x [_ Hj]%lookup_delete_Some]]; apply pk_ids0; eauto.
  - eapply fits_frame; [..|exact Hf]; [done|by intros []].
Qed.

(** ** Every step of a caller *)

Definition permits_state (w : World) : Prop := queue_state (sent w) (calls w) (holders w) (coordinator w).

Lemma permit_step_state w w' : permit_step w w' → permits_state w → permits_state w'.
Proof.
  unfold permits_state. intros [] Hw; cbn [with_permits with_channels sent calls holders coordinator] in *.
  - by eapply enqueue_state.
  - by eapply enqueue_full_state.
  - done.
  - by eapply enqueue_state.
  - done.
  - done.
  - by eapply receive_nil_state.
  - by eapply receive_state.
  - by eapply release_message_state.
  - by eapply (give_up_state _ _ _ _ _ true).
  - by eapply (give_up_state _ _ _ _ _ false).
  - by eapply receive_nil_state.
  - by eapply release_message_state.
  - by eapply release_holder_state.
  - by eapply lookback_state.
  - by eapply lookback_release_state.
Qed.
