(* ===== verification/ChannelInvariant.v ===== *)
(** The recovery channels' side of the query budget: what is granted is within the
    recovery budget, and every token of a channel is in its buffer or with one
    query. *)
From S2P Require Import Prelude QueryPermits QueryPermitsSpec PermitRuns PermitInvariant.

Open Scope Z_scope.

(** ** The channels' queue *)

Notation channel_refs queue := (cw_ref <$> queue).

Definition grants (m : option RecoveryChannels) : Z := match m with Some granted => rc_count granted | None => 0 end.

(** A waiter for channels is in the queue, or was sent its message. *)
Record waiting_ok (queue : list recoveryChannelWaiter) (messages : gmap nat (option RecoveryChannels)) (pending : gmap nat ChannelCall) : Prop := {
  wo_nodup : NoDup (channel_refs queue);
  wo_waiter w : w ∈ queue → 0 < cw_maximum w ∧ pending !! cw_ref w = Some (mkChannelCall w false);
  wo_call r call : pending !! r = Some call →
    cw_ref (cc_waiter call) = r ∧ (r ∈ channel_refs queue → messages !! r = None) ∧ (r ∉ channel_refs queue → is_Some (messages !! r));
  wo_message r m : messages !! r = Some m → is_Some (pending !! r) ∧
    ∀ granted, m = Some granted → 0 < rc_count granted ∧ rc_available granted = rc_count granted;
}.

Lemma waiting_sent w queue messages pending m :
  waiting_ok (w :: queue) messages pending → (∀ granted, m = Some granted → 0 < rc_count granted ∧ rc_available granted = rc_count granted) →
  messages !! cw_ref w = None ∧ waiting_ok queue (<[cw_ref w := m]> messages) pending.
Proof.
  intros [Hnd Hw Hc Hm] Hgr. apply NoDup_cons in Hnd as [Hnin Hnd]. destruct (Hw w) as [_ Hcall]; [set_solver|].
  destruct (Hc _ _ Hcall) as (_ & Hnone & _). split; [apply Hnone; set_solver|]. split.
  - done.
  - set_solver.
  - intros r call Hr. destruct (Hc _ _ Hr) as (? & Hmiss & Hthere). destruct (decide (r = cw_ref w)) as [->|].
    + rewrite lookup_insert_eq. naive_solver.
    + rewrite lookup_insert_ne by done. rewrite fmap_cons, elem_of_cons in Hmiss. rewrite fmap_cons, not_elem_of_cons in Hthere. naive_solver.
  - intros r n [[<- <-]|[_ Hr]]%lookup_insert_Some; [|eauto]. split; [by rewrite Hcall|done].
Qed.

(** The dispatch of channels spends the budget on the head of the queue. *)
Definition spent (messages : gmap nat (option RecoveryChannels)) : Z := msum (λ _ m, grants m) messages.

Lemma deliver_channels_cons (m : ChannelMessage) told buffers : deliver (m :: told) buffers = deliver told (<[m.1 := m.2]> buffers).
Proof. done. Qed.

Lemma channels_loop_spec queue limit inflight clk messages pending :
  waiting_ok queue messages pending → inflight ≤ limit →
  let '(queue', inflight', told) := channels_loop queue limit inflight clk in
  waiting_ok queue' (deliver told messages) pending ∧ inflight ≤ inflight' ≤ limit ∧ (inflight' < limit → queue' = []) ∧
  (length queue' ≤ length queue)%nat ∧ spent (deliver told messages) - spent messages = inflight' - inflight.
Proof.
  revert inflight clk messages. induction queue as [|w queue IH]; intros inflight clk messages Hok Hle; cbn [channels_loop].
  - split_and!; simpl; done || lia.
  - destruct (Z.ltb_spec inflight limit) as [Hlt|Hge].
    2: { split_and!; simpl; done || lia. }
    destruct (negb _) eqn:Hexp.
    + destruct (waiting_sent w queue messages pending None Hok) as [Hnone Hok']; [done|].
      specialize (IH inflight (λ reading, clk (1 + reading)%nat) _ Hok' Hle). destruct (channels_loop _ _ _ _) as [[queue' inflight'] told].
      rewrite deliver_channels_cons. cbn [fst snd length]. destruct IH as (?&?&?&?&Hsp). split_and!; try done; try lia.
      unfold spent in *. rewrite msum_insert in Hsp by done. cbn [grants] in Hsp. lia.
    + destruct (wo_waiter _ _ _ Hok w) as [Hmax _]; [set_solver|]. set (count := Z.min _ _).
      set (granted := mkChannels _ _ _ _ _).
      destruct (waiting_sent w queue messages pending (Some granted) Hok) as [Hnone Hok']; [intros ? [= <-]; simpl; lia|].
      specialize (IH (inflight + count) (λ reading, clk (1 + reading)%nat) _ Hok' ltac:(lia)). destruct (channels_loop _ _ _ _) as [[queue' inflight'] told].
      rewrite deliver_channels_cons. cbn [fst snd length]. destruct IH as (?&?&?&?&Hsp). split_and!; try done; try lia.
      unfold spent in *. rewrite msum_insert in Hsp by done. cbn [grants granted rc_count] in Hsp. lia.
Qed.

(** What the channels' side keeps. *)
Record channels_ok (c : FlightCoordinator) (messages : gmap nat (option RecoveryChannels)) (pending : gmap nat ChannelCall)
    (given : gmap nat RecoveryChannels) : Prop := {
  co_waiting : waiting_ok (recoveryChannelWaiters c) messages pending;
  co_limit : recoveryInflight c ≤ RecoveryQueryPermits (limits c);
  co_settled : recoveryInflight c < RecoveryQueryPermits (limits c) → recoveryChannelWaiters c = [];
  co_fits : Z.of_nat (length (recoveryChannelWaiters c)) ≤ RecoveryQueueCapacity (limits c);
  co_inflight : recoveryInflight c = spent messages + msum (λ _ g, rc_count g) given;
  co_fresh r : is_Some (pending !! r) → given !! r = None;
}.

(** The state the dispatch starts from: settled again by it. *)
Record unsettled (c : FlightCoordinator) (messages : gmap nat (option RecoveryChannels)) (pending : gmap nat ChannelCall)
    (given : gmap nat RecoveryChannels) : Prop := {
  un_waiting : waiting_ok (recoveryChannelWaiters c) messages pending;
  un_limit : recoveryInflight c ≤ RecoveryQueryPermits (limits c);
  un_fits : Z.of_nat (length (recoveryChannelWaiters c)) ≤ RecoveryQueueCapacity (limits c);
  un_inflight : recoveryInflight c = spent messages + msum (λ _ g, rc_count g) given;
  un_fresh r : is_Some (pending !! r) → given !! r = None;
}.

Lemma channels_settle clk c c' told messages pending given :
  dispatchRecoveryChannels clk c = (c', told) → unsettled c messages pending given →
  channels_ok c' (deliver told messages) pending given ∧ c' = set_channels (recoveryChannelWaiters c') (recoveryInflight c') c.
Proof.
  intros E [Hw Hl Hf Hi Hfr]. unfold dispatchRecoveryChannels in E. pose proof (channels_loop_spec _ _ _ clk _ _ Hw Hl) as Hloop.
  destruct (channels_loop _ _ _ _) as [[queue inflight] t]. destruct Hloop as (?&?&?&?&?). simplify_eq. split; [|done].
  split; cbn [recoveryChannelWaiters recoveryInflight limits set_channels]; try done; lia.
Qed.

Lemma channels_unsettled c messages pending given : channels_ok c messages pending given → unsettled c messages pending given.
Proof. by intros []. Qed.

(** A change of the permits' side leaves the channels' alone, and the other way. *)
Lemma channels_frame c c' messages pending given :
  limits c' = limits c → recoveryChannelWaiters c' = recoveryChannelWaiters c → recoveryInflight c' = recoveryInflight c →
  channels_ok c messages pending given → channels_ok c' messages pending given.
Proof. intros E1 E2 E3 []. split; rewrite ?E1, ?E2, ?E3; done. Qed.

(** A waiter joins the queue. *)
Lemma waiting_join queue messages pending w :
  waiting_ok queue messages pending → pending !! cw_ref w = None → 0 < cw_maximum w →
  waiting_ok (queue ++ [w]) messages (<[cw_ref w := mkChannelCall w false]> pending).
Proof.
  intros [Hnd Hw Hc Hm] Hfresh Hmax. assert (cw_ref w ∉ channel_refs queue) as Hnin.
  { intros (v & Heq & Hv)%list_elem_of_fmap. destruct (Hw v Hv) as [_ Hcall]. rewrite <- Heq in Hcall. congruence. }
  assert (messages !! cw_ref w = None) as Hnone.
  { destruct (messages !! cw_ref w) as [m|] eqn:Hsent; [|done]. destruct (Hm _ _ Hsent) as [[? ?] _]. congruence. }
  split.
  - rewrite fmap_app. apply NoDup_app. split_and!; [done|set_solver|apply NoDup_singleton].
  - intros v [Hv| ->%list_elem_of_singleton]%elem_of_app; [|by rewrite lookup_insert_eq]. destruct (Hw v Hv) as [? Hcall]. split; [done|].
    rewrite lookup_insert_ne; [done|]. intros Heq. rewrite <- Heq in Hcall. congruence.
  - intros r call. rewrite fmap_app, not_elem_of_app, elem_of_app. cbn [fmap list_fmap]. rewrite list_elem_of_singleton.
    intros [[<- <-]|[? Hr]]%lookup_insert_Some; [cbn [cc_waiter]; split_and!; [done|done|tauto]|].
    destruct (Hc _ _ Hr) as (?&?&?). split_and!; [done| |]; intuition congruence.
  - intros r m Hr. destruct (Hm _ _ Hr) as [? ?]. split; [|done]. destruct (decide (r = cw_ref w)) as [->|]; [congruence|].
    by rewrite lookup_insert_ne.
Qed.

(** A call whose waiter is not in the queue ends. *)
Lemma waiting_end queue messages pending r :
  waiting_ok queue messages pending → r ∉ channel_refs queue → waiting_ok queue (delete r messages) (delete r pending).
Proof.
  intros [Hnd Hw Hc Hm] Hr. split; [done| | |].
  - intros v Hv. destruct (Hw v Hv). split; [done|]. rewrite lookup_delete_ne; [done|]. intros ->. apply Hr. by apply list_elem_of_fmap_2.
  - intros j call [? Hj]%lookup_delete_Some. rewrite lookup_delete_ne by done. auto.
  - intros j m [? Hj]%lookup_delete_Some. rewrite lookup_delete_ne by done. auto.
Qed.

Lemma waiting_message queue messages pending r call m :
  waiting_ok queue messages pending → pending !! r = Some call → messages !! r = Some m → r ∉ channel_refs queue.
Proof. intros Hok Hc Hm Hr. destruct (wo_call _ _ _ Hok _ _ Hc) as (_ & Hnone & _). rewrite Hnone in Hm; done. Qed.

Lemma waiting_gave_up queue messages pending r call :
  waiting_ok queue messages pending → r ∉ channel_refs queue → pending !! r = Some call →
  waiting_ok queue messages (<[r := mkChannelCall (cc_waiter call) true]> pending).
Proof.
  intros [Hnd Hw Hc Hm] Hr Hcall. split; [done| | |].
  - intros v Hv. destruct (Hw v Hv). split; [done|]. rewrite lookup_insert_ne; [done|]. intros ->. apply Hr. by apply list_elem_of_fmap_2.
  - intros j call' [[<- <-]|[? Hj]]%lookup_insert_Some; [|auto]. exact (Hc _ _ Hcall).
  - intros j m Hj. destruct (Hm _ _ Hj). split; [|done]. destruct (decide (j = r)) as [->|]; [by rewrite lookup_insert_eq|by rewrite lookup_insert_ne].
Qed.

Lemma waiting_remove left w right messages pending :
  waiting_ok (left ++ w :: right) messages pending → waiting_ok (left ++ right) messages (delete (cw_ref w) pending).
Proof.
  intros [Hnd Hw Hc Hm]. rewrite fmap_app, fmap_cons in Hnd. assert (NoDup (cw_ref w :: channel_refs (left ++ right))) as [Hnin Hnd']%NoDup_cons.
  { rewrite fmap_app. by rewrite Permutation_middle. }
  split; [done| | |].
  - intros v Hv. destruct (Hw v) as [? Hcall]; [set_solver|]. split; [done|]. rewrite lookup_delete_ne; [done|]. intros Heq.
    apply Hnin. rewrite Heq. by apply list_elem_of_fmap_2.
  - intros j call [? Hj]%lookup_delete_Some. destruct (Hc _ _ Hj) as (? & Hin & Hout). rewrite fmap_app, fmap_cons in Hin, Hout.
    split_and!; [done|intros; apply Hin; rewrite fmap_app in *; set_solver|intros; apply Hout; rewrite fmap_app in *; set_solver].
  - intros j m Hj. destruct (Hm _ _ Hj) as [[call Hcall] ?]. split; [|done]. rewrite lookup_delete_ne; [by eexists|]. intros <-.
    destruct (Hc _ _ Hcall) as (_ & Hnone & _). rewrite Hnone in Hj; [done|]. rewrite fmap_app, fmap_cons. set_solver.
Qed.

Definition channels_state (w : World) : Prop := channels_ok (coordinator w) (channelSent w) (channelCalls w) (channels w).

(** What a step of the channels does to the coordinator. *)
Lemma channel_section_frame clk c c' told queue inflight :
  dispatchRecoveryChannels clk (set_channels queue inflight c) = (c', told) →
  c' = set_channels (recoveryChannelWaiters c') (recoveryInflight c') c.
Proof.
  unfold dispatchRecoveryChannels. cbn [recoveryChannelWaiters recoveryInflight limits set_channels].
  destruct (channels_loop _ _ _ _) as [[q i] t]. intros [= <- <-]. done.
Qed.

(** A channel taken over by its caller, or released, moves between the two sums. *)
Lemma channels_receive c messages pending given r call granted :
  channels_ok c messages pending given → pending !! r = Some call → messages !! r = Some (Some granted) →
  channels_ok c (delete r messages) (delete r pending) (<[r := granted]> given).
Proof.
  intros [Hw ? ? ? Hi Hf] Hcall Hm. split; try done.
  - apply waiting_end; [done|]. by eapply waiting_message.
  - unfold spent in *. rewrite (msum_delete (λ _ m, grants m) messages r (Some granted)) in Hi by done. rewrite msum_insert by (apply Hf; by eexists).
    cbn [grants] in Hi. lia.
  - intros j [x [Hne Hj]%lookup_delete_Some]. rewrite lookup_insert_ne by done. apply Hf. by eexists.
Qed.

Lemma channels_end c messages pending given r call granted :
  channels_ok c messages pending given → pending !! r = Some call → messages !! r = Some granted →
  unsettled (set_channels (recoveryChannelWaiters c) (recoveryInflight c - grants granted) c) (delete r messages) (delete r pending) given.
Proof.
  intros [Hw ? ? ? Hi Hf] Hcall Hm. pose proof (wo_message _ _ _ Hw _ _ Hm) as [_ Hgr].
  assert (0 ≤ grants granted) by (destruct granted as [g|]; simpl; [destruct (Hgr g); [done|lia]|lia]).
  split; cbn [recoveryChannelWaiters recoveryInflight limits set_channels]; try done; try lia.
  - apply waiting_end; [done|]. by eapply waiting_message.
  - unfold spent in *. rewrite (msum_delete (λ _ m, grants m) messages r granted) in Hi by done. lia.
  - intros j [x [_ Hj]%lookup_delete_Some]. apply Hf. by eexists.
Qed.

Lemma channel_step_state w w' : channel_step w w' → channels_state w → (∀ r g, channels w !! r = Some g → 0 ≤ rc_count g) → channels_state w'.
Proof.
  unfold channels_state. intros Hstep Hok Hcount; destruct Hstep; cbn [with_channels coordinator channelSent channelCalls channels tokens] in *.
  - unfold enqueueChannelWaiter in H2. cbv zeta in H2. destruct (_ || _) eqn:Hroom; [discriminate|]. breflect.
    destruct (dispatchRecoveryChannels _ _) as [c2 t2] eqn:Ed. simplify_eq. eapply channels_settle; [done|].
    assert (0 < cw_maximum waiter) as Hmax.
    { unfold channels_refused in H. apply bind_Ok in H as (_&_&H). apply bind_Ok in H as (?&H&_). apply fail_if_Ok in H. breflect. done. }
    destruct Hok as [Hw ? ? ? Hi Hf]. split; cbn [recoveryChannelWaiters recoveryInflight limits set_channels]; try done.
    + by apply waiting_join.
    + rewrite length_app. simpl. lia.
    + intros r. destruct (decide (r = cw_ref waiter)) as [->|]; [done|]. rewrite lookup_insert_ne by done. apply Hf.
  - unfold enqueueChannelWaiter in H. cbv zeta in H. destruct (_ || _) eqn:Hroom; [by simplify_eq|].
    destruct (dispatchRecoveryChannels _ _). discriminate.
  - pose proof (channels_end _ _ _ _ _ _ _ Hok H H0) as []. destruct Hok. split; try done.
    cbn [grants] in un_inflight0. cbn [recoveryInflight set_channels] in un_inflight0. lia.
  - by eapply channels_receive.
  - eapply channels_settle; [done|]. by apply (channels_end _ _ _ _ _ _ (Some granted) Hok H).
  - unfold giveUpChannelWaiter in H1. destruct (list_find _ _) as [[i v]|] eqn:Hfind; [|by destruct (dispatchRecoveryChannels _ _)].
    destruct (dispatchRecoveryChannels _ _) as [c2 t2] eqn:Ed. simplify_eq. eapply channels_settle; [done|].
    apply list_find_Some in Hfind as (Hi & Hv & _). destruct Hok as [Hw Hl Hs Hfit Hin Hf].
    destruct (wo_call _ _ _ Hw _ _ H) as (<- & _). rewrite <- Hv, delete_take_drop. apply take_drop_middle in Hi. rewrite <- Hi in Hw, Hfit.
    split; cbn [recoveryChannelWaiters recoveryInflight limits set_channels]; try done.
    + by apply waiting_remove.
    + rewrite length_app in *. simpl in Hfit. lia.
    + intros r [x [_ Hx]%lookup_delete_Some]. apply Hf. by eexists.
  - unfold giveUpChannelWaiter in H1. destruct (list_find _ _) as [[i v]|] eqn:Hfind; [by destruct (dispatchRecoveryChannels _ _)|].
    destruct (dispatchRecoveryChannels _ _) as [c2 t2] eqn:Ed. simplify_eq. eapply channels_settle; [done|].
    apply list_find_None in Hfind. destruct Hok as [Hw Hl Hs Hfit Hin Hf]. split; try done.
    + apply waiting_gave_up; [done| |done]. intros (v & Heq & Hv)%list_elem_of_fmap. rewrite Forall_forall in Hfind.
      apply (Hfind v Hv). destruct (wo_call _ _ _ Hw _ _ H) as (-> & _). done.
    + intros r. destruct (decide (r = ref)) as [->|]; [intros _; apply Hf; by eexists|]. rewrite lookup_insert_ne by done. apply Hf.
  - eapply channels_settle; [done|]. pose proof (Hcount _ _ H). destruct Hok as [Hw Hl Hs Hfit Hin Hf].
    split; cbn [recoveryChannelWaiters recoveryInflight limits set_channels]; try done.
    + lia.
    + rewrite (msum_delete _ _ _ _ H) in Hin. lia.
    + intros r Hr. rewrite lookup_delete_None. right. by apply Hf.
Qed.

(** ** Tokens *)

Definition weigh (f : nat → Z) (channel : option nat) : Z := match channel with Some channel => f channel | None => 0 end.

(** What the tokens out of their buffers weigh, each by its channel. *)
Definition out (f : nat → Z) (pending : gmap nat Call) (held : gmap Z Holder) (loose : list (nat * bool)) : Z :=
  msum (λ _ call, weigh f (cl_channel call)) pending + msum (λ _ holder, weigh f (ho_channel holder)) held +
  foldr (λ token acc, f token.1 + acc) 0 loose.

Definition of_channel (channel : nat) : nat → Z := λ other, one (other = channel).

(** A channel's tokens are in its buffer or out; a query of recovery carries one,
    a normal query none. *)
Record tokens_ok (w : World) : Prop := {
  tk_channel channel granted : channels w !! channel = Some granted →
    0 ≤ rc_available granted ∧ rc_available granted + out (of_channel channel) (calls w) (holders w) (tokens w) = rc_count granted;
  tk_gone channel : channels w !! channel = None → out (of_channel channel) (calls w) (holders w) (tokens w) = 0;
  tk_all : msum (λ _ g, rc_available g) (channels w) + out (λ _, 1) (calls w) (holders w) (tokens w) = msum (λ _ g, rc_count g) (channels w);
  tk_call r call : calls w !! r = Some call → is_recovery (wt_operation (cl_waiter call)) = bool_decide (is_Some (cl_channel call));
  tk_holder id holder : holders w !! id = Some holder → is_recovery (pm_operation (ho_permit holder)) = bool_decide (is_Some (ho_channel holder));
}.

Lemma weigh_nonneg f channel : (∀ x, 0 ≤ f x) → 0 ≤ weigh f channel.
Proof. intros. destruct channel; simpl; done. Qed.

Lemma loose_app f l r : foldr (λ (token : nat * bool) acc, f token.1 + acc) 0 (l ++ r) =
  foldr (λ token acc, f token.1 + acc) 0 l + foldr (λ token acc, f token.1 + acc) 0 r.
Proof. induction l; simpl; lia. Qed.

Lemma loose_back f channel loose : foldr (λ (token : nat * bool) acc, f token.1 + acc) 0 (give_back channel loose) =
  weigh f channel + foldr (λ token acc, f token.1 + acc) 0 loose.
Proof. by destruct channel. Qed.

(** Where tokens only change hands, they stay right. *)
Lemma tokens_pass w w' :
  tokens_ok w → channels w' = channels w → (∀ f, out f (calls w') (holders w') (tokens w') = out f (calls w) (holders w) (tokens w)) →
  (∀ r call, calls w' !! r = Some call → is_recovery (wt_operation (cl_waiter call)) = bool_decide (is_Some (cl_channel call))) →
  (∀ id holder, holders w' !! id = Some holder → is_recovery (pm_operation (ho_permit holder)) = bool_decide (is_Some (ho_channel holder))) →
  tokens_ok w'.
Proof. intros [] Ech Eout Hc Hh. split; rewrite ?Ech, ?Eout; try done; intros channel; rewrite Eout; auto. Qed.

Lemma out_call f pending held loose r call :
  pending !! r = Some call → out f (delete r pending) held (give_back (cl_channel call) loose) = out f pending held loose.
Proof. intros Hr. unfold out. rewrite (msum_delete _ pending r call) by done. rewrite loose_back. lia. Qed.

(** A token leaves a channel's buffer ([d] = -1), or comes back to it. *)
Lemma tokens_move w w' channel granted d :
  tokens_ok w → channels w !! channel = Some granted → 0 ≤ rc_available granted + d →
  channels w' = <[channel := set_available d granted]> (channels w) → calls w' = calls w → holders w' = holders w →
  (∀ f, out f (calls w) (holders w) (tokens w') = out f (calls w) (holders w) (tokens w) - d * f channel) → tokens_ok w'.
Proof.
  intros [Ht Hg Ha Hc Hh] Hch Hd Ech Ec Eh Eout. split; rewrite ?Ech, ?Ec, ?Eh, ?Eout; try done.
  - intros j g Hj. rewrite ?Ec, ?Eh, Eout. unfold of_channel at 2. destruct (decide (j = channel)) as [->|Hne].
    + rewrite lookup_insert_eq in Hj. injection Hj as <-. destruct (Ht _ _ Hch). rewrite (one_eq (channel = channel)) by done. simpl. lia.
    + rewrite lookup_insert_ne in Hj by done. destruct (Ht _ _ Hj). rewrite one_ne by done. lia.
  - intros j. rewrite ?Ec, ?Eh, Eout. intros Hj. assert (channel ≠ j) by (intros ->; by rewrite lookup_insert_eq in Hj).
    rewrite lookup_insert_ne in Hj by done. unfold of_channel at 2. rewrite one_ne by done. rewrite Hg by done. lia.
  - rewrite !(msum_update _ _ _ _ _ Hch). simpl. lia.
Qed.
