(* ===== verification/PermitSpec.v ===== *)
(** The query budget's promises, of every reachable state: what is in flight is
    within the budgets and accounted for, no permit idles while a caller waits,
    and every caller is answered. *)
From S2P Require Import Prelude QueryPermits QueryPermitsSpec PermitRuns PermitInvariant ChannelInvariant.

Open Scope Z_scope.

(** ** Sections leave the channels alone *)

Definition same_channels (c c' : FlightCoordinator) : Prop :=
  limits c' = limits c ∧ recoveryChannelWaiters c' = recoveryChannelWaiters c ∧ recoveryInflight c' = recoveryInflight c.

Lemma moves_channels c told c' : moves c told c' → same_channels c c'.
Proof. intros Hm. apply moves_frame in Hm. unfold same_channels. tauto. Qed.

Lemma same_channels_trans c1 c2 c3 : same_channels c1 c2 → same_channels c2 c3 → same_channels c1 c3.
Proof. unfold same_channels. intros (->&->&->) (->&->&->). done. Qed.

Lemma dispatch_channels clk c c' told : dispatchQueryPermits clk c = (c', told) → same_channels c c'.
Proof. intros E. pose proof (proj1 (dispatch_moves clk c)) as Hm. rewrite E in Hm. by eapply moves_channels. Qed.

Lemma enqueue_channels clk c w c' told e : enqueueWaiter clk c w = (c', told, e) → same_channels c c'.
Proof.
  unfold enqueueWaiter. set (recovery := is_recovery _). pose proof (expire_state clk c recovery) as Hexp.
  destruct (expireWaiters _ _) as [queue t1]. destruct Hexp as [Hm _]. apply moves_channels in Hm. cbv zeta.
  destruct (_ || _); [by intros [= <- _ _]|]. destruct (dispatchQueryPermits _ _) as [c2 t2] eqn:Ed. apply dispatch_channels in Ed.
  assert (same_channels c c2) as Hsame.
  { eapply same_channels_trans; [exact Hm|]. eapply same_channels_trans; [|exact Ed]. by destruct recovery. }
  by destruct (waiterQueued _ _ _); intros [= <- _ _].
Qed.

Lemma release_channels clk c o id c' told : releaseQueryPermit clk c o id = (c', told) → same_channels c c'.
Proof.
  unfold releaseQueryPermit. cbv zeta. destruct (_ !! id); intros E; apply dispatch_channels in E; exact E.
Qed.

Lemma give_up_channels clk c w c' told b : giveUpWaiter clk c w = (c', told, b) → same_channels c c'.
Proof.
  unfold giveUpWaiter, removeWaiter. destruct (list_find _ _) as [[i v]|]; destruct (dispatchQueryPermits _ _) as [c2 t2] eqn:Ed; intros [= <- _ _];
    apply dispatch_channels in Ed; [|done]. by destruct (is_recovery _).
Qed.

Lemma lookback_channels clk c c' told answer : TryAcquireLookbackPermit clk c = (c', told, answer) → same_channels c c'.
Proof.
  unfold TryAcquireLookbackPermit. destruct (negb _); [by intros [= <- _ _]|]. pose proof (expireNormal_moves (clk 0%nat) c) as H1.
  destruct (expireNormal _ _) as [c1 t1]. pose proof (expireRecovery_moves (clk 1%nat) c1) as H2. destruct (expireRecovery _ _) as [c2 t2].
  pose proof (moves_channels _ _ _ (moves_trans _ _ _ _ _ H1 H2)) as Hsame. cbn [fst] in Hsame.
  repeat case_match; intros [= <- _ _]; done.
Qed.

Lemma lookback_release_channels clk c id c' told : releaseLookbackPermit clk c id = (c', told) → same_channels c c'.
Proof. unfold releaseLookbackPermit. cbv zeta. destruct (_ !! id); intros E; apply dispatch_channels in E; exact E. Qed.

(** ** Every step *)

Record world_ok (w : World) : Prop := {
  wk_permits : permits_state w;
  wk_channels : channels_state w;
  wk_tokens : tokens_ok w;
}.

Lemma granted_nonneg w r g : tokens_ok w → channels w !! r = Some g → 0 ≤ rc_count g.
Proof.
  intros Ht Hr. destruct (tk_channel _ Ht _ _ Hr) as [? <-]. assert (0 ≤ out (of_channel r) (calls w) (holders w) (tokens w)); [|lia].
  unfold out. assert (∀ x, 0 ≤ of_channel r x) as Hf by (intros; apply one_nonneg).
  assert (0 ≤ foldr (λ token acc, of_channel r token.1 + acc) 0 (tokens w)) by (induction (tokens w) as [|t l IH]; simpl; [lia|specialize (Hf t.1); lia]).
  assert (0 ≤ msum (λ _ call, weigh (of_channel r) (cl_channel call)) (calls w)) by (intros; apply msum_nonneg; intros; by apply weigh_nonneg).
  assert (0 ≤ msum (λ _ h, weigh (of_channel r) (ho_channel h)) (holders w)) by (intros; apply msum_nonneg; intros; by apply weigh_nonneg).
  lia.
Qed.

Lemma channels_available c messages pending given channel granted d :
  channels_ok c messages pending given → given !! channel = Some granted →
  channels_ok c messages pending (<[channel := set_available d granted]> given).
Proof.
  intros [Hw Hl Hs Hf Hi Hfr] Hch. split; try done.
  - rewrite (msum_update _ _ _ _ _ Hch). cbn [rc_count set_available]. lia.
  - intros r Hr. rewrite lookup_insert_ne; [auto|]. intros <-. by rewrite Hfr in Hch.
Qed.

Lemma permit_step_channels w w' : permit_step w w' → channels_state w → channels_state w'.
Proof.
  unfold channels_state. intros [] Hok; cbn [with_permits with_channels coordinator channelSent channelCalls channels] in *;
    first [done|by apply channels_available|eapply channels_frame; [..|exact Hok]; match goal with
      | E : enqueueWaiter _ _ _ = _ |- _ => apply enqueue_channels in E; apply E
      | E : releaseQueryPermit _ _ _ _ = _ |- _ => apply release_channels in E; apply E
      | E : giveUpWaiter _ _ _ = _ |- _ => apply give_up_channels in E; apply E
      | E : TryAcquireLookbackPermit _ _ = _ |- _ => apply lookback_channels in E; apply E
      | E : releaseLookbackPermit _ _ _ = _ |- _ => apply lookback_release_channels in E; apply E
      end].
Qed.

Lemma set_channels_same c : c = set_channels (recoveryChannelWaiters c) (recoveryInflight c) c.
Proof. by destruct c. Qed.

(** A channel step leaves the permits' side alone. *)
Lemma channel_step_permits w w' : channel_step w w' → permits_state w → permits_state w'.
Proof.
  assert (∀ c c' messages pending held, queue_state messages pending held c → (∃ q i, c' = set_channels q i c) → queue_state messages pending held c') as Hframe.
  { intros c c' messages pending held (Hok & Hs & Hf) (q & i & ->). split_and!; [by apply (ok_frame c)|by apply (settled_frame c)|].
    eapply fits_frame; [..|exact Hf]; [done|by intros []]. }
  assert (∀ clk c c' told, dispatchRecoveryChannels clk c = (c', told) → ∃ q i, c' = set_channels q i c) as Hdispatch.
  { intros clk c c' told. unfold dispatchRecoveryChannels. destruct (channels_loop _ _ _ _) as [[q i] t]. intros [= <- _]. eauto. }
  assert (∀ clk c q i c' told, dispatchRecoveryChannels clk (set_channels q i c) = (c', told) → ∃ q i, c' = set_channels q i c) as Hset.
  { intros clk c q i c' told (q' & i' & ->)%Hdispatch. by exists q', i'. }
  unfold permits_state. intros [] Hok; cbn [with_channels coordinator sent calls holders] in *; try done; eapply Hframe; try done;
    unfold enqueueChannelWaiter, giveUpChannelWaiter, releaseChannels in *; cbv zeta in *;
    repeat match goal with
    | E : (if ?b then _ else _) = _ |- _ => destruct b; simplify_eq
    | E : match ?x with _ => _ end = _ |- _ => destruct x as [[? ?]|] eqn:?; simplify_eq
    | E : (let '(_, _) := dispatchRecoveryChannels ?clk ?c in _) = _ |- _ => destruct (dispatchRecoveryChannels clk c) eqn:?; simplify_eq
    end; eauto. eexists _, _. by apply set_channels_same.
Qed.

Lemma loose_take f (l r : list (nat * bool)) t : foldr (λ token acc, f token.1 + acc) 0 (l ++ t :: r) =
  f t.1 + foldr (λ token acc, f token.1 + acc) 0 (l ++ r).
Proof. rewrite !loose_app. simpl. lia. Qed.

Lemma joined_out w channel : joined w channel → out (of_channel channel) (calls w) (holders w) (tokens w) = 0.
Proof.
  intros (Hc & Hh & Ht). unfold out. assert (∀ o, o ≠ Some channel → weigh (of_channel channel) o = 0) as Hw.
  { intros [x|] Hx; [|done]. unfold weigh, of_channel. apply one_ne. congruence. }
  rewrite !msum_zero.
  - induction Ht as [|t l Hne Ht IH]; [done|]. simpl. unfold of_channel at 1. rewrite one_ne by done. lia.
  - intros id h Hid. apply Hw. by eapply Hh.
  - intros r call Hr. apply Hw. by eapply Hc.
Qed.

(** A call ends, and its token goes back. *)
Lemma tokens_end w r call c messages :
  calls w !! r = Some call → tokens_ok w →
  tokens_ok (with_permits c messages (delete r (calls w)) (holders w) (give_back (cl_channel call) (tokens w)) w).
Proof.
  intros Hr Hok. apply (tokens_pass w); try done; cbn [with_permits calls holders tokens channels].
  - intros f. by apply out_call.
  - intros j cl [_ Hj]%lookup_delete_Some. by apply (tk_call _ Hok j).
  - apply (tk_holder _ Hok).
Qed.

(** Tokens through a step of a caller that waits for a permit. *)
Lemma permit_step_tokens w w' : permit_step w w' → permits_state w → tokens_ok w → tokens_ok w'.
Proof.
  intros [] Hstate Hok; pose proof (tk_call _ Hok) as Hcall; pose proof (tk_holder _ Hok) as Hholder.
  - apply (tokens_pass w); try done; cbn [with_permits calls holders tokens channels].
    + intros f. unfold out. rewrite msum_insert by done. cbn [cl_channel weigh]. lia.
    + intros j call [[<- <-]|[_ Hj]]%lookup_insert_Some; [done|eauto].
  - by apply (tokens_pass w).
  - apply (tokens_move w _ channel granted (-1)); try done; [lia|]. intros f. unfold out. simpl. lia.
  - apply (tokens_pass w); try done; cbn [with_permits calls holders tokens channels].
    + intros f. unfold out. rewrite msum_insert by done. rewrite H. cbn [cl_channel weigh]. rewrite loose_take. cbn [fst]. lia.
    + intros j call [[<- <-]|[_ Hj]]%lookup_insert_Some; [done|eauto].
  - apply (tokens_pass w); try done; cbn [with_permits calls holders tokens channels].
    intros f. unfold out. rewrite H, loose_take. simpl. lia.
  - destruct (tk_channel _ Hok _ _ H0). apply (tokens_move w _ channel granted 1); try done; [lia|].
    intros f. unfold out. cbn [with_channels tokens]. rewrite H, loose_take. cbn [fst]. lia.
  - by eapply tokens_end.
  - destruct Hstate as ([Hc Hp] & _). apply (tokens_pass w); try done; cbn [with_permits calls holders tokens channels].
    + intros f. unfold out. rewrite msum_insert by (by eapply (pk_apart _ _ _ Hp)). rewrite (msum_delete _ _ _ _ H). cbn [ho_channel]. lia.
    + intros j cl [_ Hj]%lookup_delete_Some. eauto.
    + intros id h [[<- <-]|[_ Hid]]%lookup_insert_Some; [|eauto]. cbn [ho_permit ho_channel]. rewrite <- (Hcall _ _ H).
      destruct (ok_message _ _ _ Hc _ _ H1) as (call' & Hcall' & Hop). rewrite H in Hcall'. injection Hcall' as <-. by rewrite (Hop permit).
  - by eapply tokens_end.
  - by eapply tokens_end.
  - apply (tokens_pass w); try done; cbn [with_permits calls holders tokens channels].
    + intros f. unfold out. rewrite (msum_update _ _ _ _ _ H). cbn [cl_channel]. lia.
    + intros j cl [[<- <-]|[_ Hj]]%lookup_insert_Some; [|eauto]. cbn [cl_waiter cl_channel]. eauto.
  - by eapply tokens_end.
  - by eapply tokens_end.
  - apply (tokens_pass w); try done; cbn [with_permits calls holders tokens channels].
    + intros f. unfold out. rewrite (msum_delete _ _ _ _ H), loose_back. lia.
    + intros j h [_ Hj]%lookup_delete_Some. eauto.
  - by apply (tokens_pass w).
  - by apply (tokens_pass w).
Qed.

Lemma channel_step_tokens w w' : channel_step w w' → channels_state w → tokens_ok w → tokens_ok w'.
Proof.
  intros [] Hch Hok; try (destruct Hok; split; done).
  - (* a channel reaches its caller *)
    pose proof (co_fresh _ _ _ _ Hch _ ltac:(by eexists)) as Hfresh. destruct (wo_message _ _ _ (co_waiting _ _ _ _ Hch) _ _ H1) as [_ Hgr].
    destruct (Hgr granted eq_refl) as [Hpos Havail]. destruct Hok as [Ht Hg Ha Hc Hh].
    split; cbn [with_channels calls holders tokens channels]; try done.
    + intros j g [[<- <-]|[Hne Hj]]%lookup_insert_Some; [|by apply Ht]. rewrite Hg by done. lia.
    + intros j [Hj _]%lookup_insert_None. by apply Hg.
    + rewrite !msum_insert by done. lia.
  - (* a channel is released *)
    pose proof (joined_out _ _ H0) as Hout. destruct Hok as [Ht Hg Ha Hc Hh]. destruct (Ht _ _ H) as [_ Havail].
    split; cbn [with_channels calls holders tokens channels]; try done.
    + intros j g [_ Hj]%lookup_delete_Some. by apply Ht.
    + intros j. rewrite lookup_delete_None. intros [<-|Hj]; [done|by apply Hg].
    + rewrite !(msum_delete _ (channels w) _ _ H) in Ha. lia.
Qed.

(** ** Reachable states *)

Lemma start_ok l c : NewFlightCoordinatorWithRecovery l = Some c → world_ok (start c).
Proof.
  unfold NewFlightCoordinatorWithRecovery. destruct (RecoveryLimits_Validate l) eqn:Hl; [|done]. intros [= <-].
  unfold RecoveryLimits_Validate in Hl. apply negb_true_iff in Hl. repeat (apply orb_false_iff in Hl as [Hl ?]). breflect. split.
  - split_and!; [split| |].
    + split; [apply NoDup_nil_2|intros [] v Hv; by apply elem_of_nil in Hv|intros r call; cbn [calls start]; by rewrite lookup_empty|intros r m; cbn [sent start]; by rewrite lookup_empty].
    + split; cbn; try done; try lia.
      intros id. rewrite !lookup_empty. by intros [[]|[]].
    + by intros _.
    + intros []; simpl; lia.
  - split; cbn; try done; try lia.
    split; [apply NoDup_nil_2|intros v Hv; by apply elem_of_nil in Hv|intros r call; by rewrite lookup_empty|intros r m; by rewrite lookup_empty].
  - split; cbn; try done; intros r; rewrite lookup_empty; done.
Qed.

Lemma step_limits w w' : permit_step w w' ∨ channel_step w w' → limits (coordinator w') = limits (coordinator w).
Proof.
  intros [[]|[]]; cbn [with_permits with_channels coordinator]; try done;
    try match goal with
    | E : enqueueWaiter _ _ _ = _ |- _ => apply enqueue_channels in E; apply E
    | E : releaseQueryPermit _ _ _ _ = _ |- _ => apply release_channels in E; apply E
    | E : giveUpWaiter _ _ _ = _ |- _ => apply give_up_channels in E; apply E
    | E : TryAcquireLookbackPermit _ _ = _ |- _ => apply lookback_channels in E; apply E
    | E : releaseLookbackPermit _ _ _ = _ |- _ => apply lookback_release_channels in E; apply E
    end;
    unfold enqueueChannelWaiter, giveUpChannelWaiter, releaseChannels, dispatchRecoveryChannels in *; cbv zeta in *;
    repeat case_match; by simplify_eq.
Qed.

Lemma reachable_ok l w : reachable l w → world_ok w ∧ limits (coordinator w) = l.
Proof.
  induction 1 as [c Hc|w w' Hr [[Hp Hch Ht] Hl] Hstep|w w' Hr [[Hp Hch Ht] Hl] Hstep].
  - split; [by eapply start_ok|]. unfold NewFlightCoordinatorWithRecovery in Hc. by case_match; simplify_eq.
  - split; [split; [by eapply permit_step_state|by eapply permit_step_channels|by eapply permit_step_tokens]|].
    rewrite <- Hl. apply step_limits. by left.
  - split; [split; [by eapply channel_step_permits|eapply channel_step_state; [done..|]|by eapply channel_step_tokens]|].
    + intros r g. by apply granted_nonneg.
    + rewrite <- Hl. apply step_limits. by right.
Qed.

(** ** The budgets *)

(** The permits that are out, in a message or held, each weighed by its operation. *)
Definition permits_out (f : Operation → Z) (w : World) : Z :=
  msum (λ _ m, carries f m) (sent w) + msum (λ _ holder, f (pm_operation (ho_permit holder))) (holders w).

Definition recovery_one (operation : Operation) : Z := if is_recovery operation then 1 else 0.

(** A recovery permit carries a token. *)
Lemma recovery_out w : calls_ok (coordinator w) (sent w) (calls w) → tokens_ok w →
  permits_out recovery_one w ≤ out (λ _, 1) (calls w) (holders w) (tokens w).
Proof.
  intros Hc Ht. unfold permits_out, out.
  assert (msum (λ _ m, carries recovery_one m) (sent w) ≤ msum (λ _ call, weigh (λ _, 1) (cl_channel call)) (calls w)).
  { apply msum_dom; [intros; apply weigh_nonneg; lia|]. intros r m Hm. destruct (ok_message _ _ _ Hc _ _ Hm) as (call & Hcall & Hop).
    exists call. split; [done|]. pose proof (tk_call _ Ht _ _ Hcall) as Hrec. destruct m as [permit|]; simpl; [|apply weigh_nonneg; lia].
    unfold recovery_one. rewrite (Hop permit) by done. rewrite Hrec. by destruct (cl_channel call). }
  assert (msum (λ _ holder, recovery_one (pm_operation (ho_permit holder))) (holders w) ≤ msum (λ _ holder, weigh (λ _, 1) (ho_channel holder)) (holders w)).
  { apply msum_le. intros id h Hh. pose proof (tk_holder _ Ht _ _ Hh) as Hrec. unfold recovery_one. rewrite Hrec. by destruct (ho_channel h). }
  assert (0 ≤ foldr (λ (token : nat * bool) acc, 1 + acc) 0 (tokens w)) by (induction (tokens w); simpl; lia).
  lia.
Qed.

(** The permits out and the lookback's are the permits in flight, within the
    process's budget; each operation's count is the permits out for it; and those of
    recovery are within the channels granted, within the recovery budget. *)
Lemma budgets l w :
  reachable l w →
  queryInflight (coordinator w) = permits_out (λ _, 1) w + msize (lookbackHeld (coordinator w)) ∧
  queryInflight (coordinator w) ≤ ProcessQueryPermits l ∧
  (∀ operation : Operation, default 0 (inflightByOp (coordinator w) !! operation) = permits_out (λ o, one (o = operation)) w) ∧
  permits_out recovery_one w ≤ recoveryInflight (coordinator w) ≤ RecoveryQueryPermits l.
Proof.
  intros [[((Hc & Hp) & _ & _) Hch Ht] <-]%reachable_ok. pose proof (recovery_out w Hc Ht) as Hrec. split_and!.
  - rewrite (pk_inflight _ _ _ Hp). unfold msize at 1. by rewrite (pk_count _ _ _ Hp (λ _, 1)).
  - apply Hp.
  - intros o. rewrite (pk_byop _ _ _ Hp). pose proof (pk_count _ _ _ Hp (λ o', one (o' = o))) as Hcount. exact Hcount.
  - destruct Hch as [Hw _ _ _ Hi _]. rewrite Hi. pose proof (tk_all _ Ht) as Hall.
    assert (0 ≤ spent (channelSent w)).
    { apply msum_nonneg. intros r m Hm. destruct (wo_message _ _ _ Hw _ _ Hm) as [_ Hg]. destruct m as [g|]; simpl; [|lia]. destruct (Hg g); [done|lia]. }
    assert (0 ≤ msum (λ _ g, rc_available g) (channels w)).
    { apply msum_nonneg. intros r g Hg. by destruct (tk_channel _ Ht _ _ Hg). }
    lia.
  - apply Hch.
Qed.

(** ** Nobody waits beside a free permit *)

Lemma waiting_full l w :
  reachable l w →
  (∀ r call, calls w !! r = Some call → sent w !! r = None → queryInflight (coordinator w) = ProcessQueryPermits l) ∧
  (∀ r call, channelCalls w !! r = Some call → channelSent w !! r = None → recoveryInflight (coordinator w) = RecoveryQueryPermits l).
Proof.
  intros [[((Hc & Hp) & Hs & _) Hch Ht] <-]%reachable_ok. split; intros r call Hcall Hnone.
  - destruct (ok_call _ _ _ Hc _ _ Hcall) as (_ & _ & Hsent).
    apply Z.le_antisymm; [apply Hp|]. apply Z.nlt_ge. intros Hlt. destruct (Hs Hlt) as [Hn Hr]. destruct Hsent as [m Hm].
    + unfold refs. rewrite Hn, Hr. set_solver.
    + congruence.
  - destruct Hch as [Hw Hl Hset _ _ _]. destruct (wo_call _ _ _ Hw _ _ Hcall) as (_ & _ & Hsent).
    apply Z.le_antisymm; [done|]. apply Z.nlt_ge. intros Hlt. rewrite (Hset Hlt) in Hsent. destruct Hsent as [m Hm]; [set_solver|congruence].
Qed.

(** ** Every call ends *)

(** A call that finds its waiter gone has its message. *)
Lemma gave_up_answered l w r call :
  reachable l w → calls w !! r = Some call → cl_gaveUp call = true → is_Some (sent w !! r).
Proof.
  intros [[((Hc & Hp) & _) _ _] _]%reachable_ok Hcall Hgave. destruct (ok_call _ _ _ Hc _ _ Hcall) as (Hr & _ & Hsent). apply Hsent.
  intros (b & v & Hv & Heq)%refs_waiters. destruct (ok_waiter _ _ _ Hc _ _ Hv) as (ch & Hcall' & _). rewrite Heq, Hcall in Hcall'. by simplify_eq.
Qed.

Lemma drained l w r call :
  reachable l w → calls w !! r = Some call → cl_gaveUp call = true → ∃ w', permit_step w w' ∧ calls w' !! r = None.
Proof.
  intros Hr Hcall Hgave. destruct (gave_up_answered _ _ _ _ Hr Hcall Hgave) as [[permit|] Hm].
  - destruct (releaseQueryPermit (λ _, 0) (coordinator w) (pm_operation permit) (pm_id permit)) as [c told] eqn:E.
    eexists. split; [by eapply (step_drain w r call permit)|]. apply lookup_delete_eq.
  - eexists. split; [by eapply (step_drain_nil w r call)|]. apply lookup_delete_eq.
Qed.

Lemma call_ends l w r call :
  reachable l w → calls w !! r = Some call → ∃ w', rtc permit_step w w' ∧ calls w' !! r = None.
Proof.
  intros Hr Hcall. destruct (cl_gaveUp call) eqn:Hgave.
  - destruct (drained _ _ _ _ Hr Hcall Hgave) as (w' & Hstep & Hnone). exists w'. split; [by apply rtc_once|done].
  - destruct (giveUpWaiter (λ _, 0) (coordinator w) (cl_waiter call)) as [[c told] []] eqn:E.
    + eexists. split; [apply rtc_once; by eapply (step_give_up w r call)|]. apply lookup_delete_eq.
    + set (w1 := with_permits c (deliver told (sent w)) (<[r := mkCall (cl_waiter call) (cl_channel call) true]> (calls w)) (holders w) (tokens w) w).
      assert (permit_step w w1) as Hstep by (by eapply (step_gave_up w r call)).
      destruct (drained l w1 r (mkCall (cl_waiter call) (cl_channel call) true)) as (w' & Hstep' & Hnone).
      * by eapply reach_permit.
      * apply lookup_insert_eq.
      * done.
      * exists w'. split; [|done]. eapply rtc_l; [done|]. by apply rtc_once.
Qed.

(** ** The lookback yields

    While a caller waits in a queue, every lookback permit was asked to yield. *)
Definition yields (c : FlightCoordinator) : Prop :=
  queue_size c ≠ 0%nat → map_Forall (λ _ held, hp_yield held = false) (lookbackHeld c).

Lemma yields_shrink c c' : (queue_size c' ≤ queue_size c)%nat → lookbackHeld c' ⊆ lookbackHeld c → yields c → yields c'.
Proof. intros Hsize Hsub Hy Hne id h Hid. eapply (Hy ltac:(lia)). by eapply lookup_weaken. Qed.

Lemma moves_yields c told c' : moves c told c' → yields c → yields c'.
Proof. intros Hm. pose proof (moves_size _ _ _ Hm). apply moves_frame in Hm as (_&_&_&_&_&_&_&Hl). apply yields_shrink; [lia|by rewrite Hl]. Qed.

Lemma yields_dispatch clk c c' told : dispatchQueryPermits clk c = (c', told) → yields c → yields c'.
Proof. intros E. pose proof (proj1 (dispatch_moves clk c)) as Hm. rewrite E in Hm. by eapply moves_yields. Qed.

Lemma moves_sub c told c' b v : moves c told c' → v ∈ waiters b c' → v ∈ waiters b c.
Proof.
  induction 1 as [|c m c1 told c2 Hm _ IH]; [done|]. intros Hv. apply IH in Hv.
  destruct Hm as [recovery l w r Hq|??? w ? ln lr next Hq]; [|rewrite grant_waiters in Hv]; by eapply waiters_leave.
Qed.

Lemma refs_waiters_some c : (∃ r, r ∈ refs c) → ∃ b v, v ∈ waiters b c.
Proof. intros (r & (b & v & Hv & _)%refs_waiters). eauto. Qed.

Lemma queue_size_waiters c : queue_size c ≠ 0%nat ↔ ∃ b v, v ∈ waiters b c.
Proof.
  unfold queue_size. split.
  - destruct (normalWaiters c) as [|v l] eqn:En; [destruct (recoveryWaiters c) as [|v l] eqn:Er; [done|]|].
    + exists true, v. simpl. rewrite Er. set_solver.
    + exists false, v. simpl. rewrite En. set_solver.
  - intros ([] & v & Hv); simpl in Hv; destruct (normalWaiters c), (recoveryWaiters c); simpl; by apply elem_of_nil in Hv || lia.
Qed.

(** A newcomer that is not queued leaves the queues no longer than they were; one
    that is has every lookback permit asked. *)
Lemma enqueue_yields clk c w c' told e : enqueueWaiter clk c w = (c', told, e) → yields c → yields c'.
Proof.
  unfold enqueueWaiter. set (recovery := is_recovery (wt_operation w)). pose proof (expire_state clk c recovery) as Hexp.
  destruct (expireWaiters _ _) as [queue t1]. destruct Hexp as [Hm Hq]. set (c0 := set_waiters recovery queue c) in *.
  cbv zeta. destruct (_ || _); [intros [= <- _ _]; by eapply moves_yields|].
  set (c1 := set_waiters recovery (queue ++ [w]) _). destruct (dispatchQueryPermits _ _) as [c2 t2] eqn:Ed.
  pose proof (proj1 (dispatch_moves (λ reading, clk (1 + reading)%nat) c1)) as Hm2. rewrite Ed in Hm2. cbn [fst snd] in Hm2.
  destruct (waiterQueued w recovery c2) eqn:Hqueued; intros [= <- _ _] Hy.
  - intros _ id h. cbn [yieldLookback lookbackHeld set_lookback]. rewrite lookup_fmap, fmap_Some. by intros (? & _ & ->).
  - intros Hne id h. change (lookbackHeld (set_counts _ _ _ c2)) with (lookbackHeld c2). change (queue_size (set_counts _ _ _ c2)) with (queue_size c2) in Hne.
    assert (lookbackHeld c2 = lookbackHeld c0) as ->.
    { apply moves_frame in Hm2 as (_&_&_&_&_&_&_&->). by destruct recovery. }
    apply (moves_yields _ _ _ Hm Hy). apply queue_size_waiters in Hne as (b & v & Hv). apply queue_size_waiters.
    pose proof (moves_sub _ _ _ _ _ Hm2 Hv) as Hv1. exists b, v. destruct (decide (b = recovery)) as [->|Hb].
    + subst c1. rewrite waiters_set in Hv1. subst c0. rewrite waiters_set. apply elem_of_app in Hv1 as [|Heq%list_elem_of_singleton]; [done|]. subst v.
      unfold waiterQueued in Hqueued. apply bool_decide_eq_false in Hqueued. destruct Hqueued. by apply list_elem_of_fmap_2.
    + subst c1. by destruct b, recovery.
Qed.

Lemma give_up_yields clk c w c' told b : giveUpWaiter clk c w = (c', told, b) → yields c → yields c'.
Proof.
  unfold giveUpWaiter, removeWaiter. set (recovery := is_recovery _). destruct (list_find _ _) as [[i v]|] eqn:Hfind; destruct (dispatchQueryPermits _ _) as [c2 t2] eqn:Ed;
    intros [= <- _ _] Hy; apply (yields_dispatch _ _ _ _ Ed); [|done].
  eapply yields_shrink; [| |exact Hy]; [|by destruct recovery]. pose proof (length_delete (waiters recovery c) i) as Hlen.
  apply list_find_Some in Hfind as (Hi & _). specialize (Hlen ltac:(by eexists)). unfold queue_size. destruct recovery; simpl in *; lia.
Qed.

Lemma permit_step_yields w w' : permit_step w w' → yields (coordinator w) → yields (coordinator w').
Proof.
  intros [] Hy; cbn [with_permits with_channels coordinator]; try done;
    try match goal with
    | E : enqueueWaiter _ _ _ = _ |- _ => by eapply enqueue_yields
    | E : giveUpWaiter _ _ _ = _ |- _ => by eapply give_up_yields
    | E : releaseQueryPermit _ _ _ _ = _ |- _ =>
        unfold releaseQueryPermit in E; cbv zeta in E; destruct (_ !! pm_id _); apply yields_dispatch in E; [exact E|exact Hy|exact E|exact Hy]
    end.
  - unfold TryAcquireLookbackPermit in H0. destruct (negb _); [by simplify_eq|].
    pose proof (expireNormal_moves (clk 0%nat) (coordinator w)) as H1. destruct (expireNormal _ _) as [c1 t1].
    pose proof (expireRecovery_moves (clk 1%nat) c1) as H2. destruct (expireRecovery _ _) as [c2 t2].
    pose proof (moves_yields _ _ _ (moves_trans _ _ _ _ _ H1 H2) Hy) as Hy2. cbn [fst] in Hy2.
    destruct (nonempty (normalWaiters c2) || _ || _) eqn:Hwait; [by simplify_eq|]. apply orb_false_iff in Hwait as [[Hn Hr]%orb_false_iff _].
    apply nonempty_false in Hn, Hr. destruct (_ <=? _); simplify_eq; [done|]. intros Hne. unfold queue_size in Hne. simpl in Hne. by rewrite Hn, Hr in Hne.
  - unfold releaseLookbackPermit in H0. cbv zeta in H0. destruct (_ !! id); apply yields_dispatch in H0; try exact H0; [|exact Hy].
    eapply yields_shrink; [| |exact Hy]; [done|]. apply delete_subseteq.
Qed.

Lemma reachable_yields l w : reachable l w → yields (coordinator w).
Proof.
  induction 1 as [c Hc|w w' Hr Hy Hstep|w w' Hr Hy Hstep].
  - unfold NewFlightCoordinatorWithRecovery in Hc. case_match; simplify_eq. by intros ?.
  - by eapply permit_step_yields.
  - destruct Hstep; cbn [with_channels coordinator]; try done; try exact Hy;
      unfold enqueueChannelWaiter, giveUpChannelWaiter, releaseChannels, dispatchRecoveryChannels in *; cbv zeta in *;
      repeat case_match; simplify_eq; exact Hy.
Qed.

(** ** The promises *)

(** C10: Whatever the interleaving of the callers, the permits out and the lookback's
    are exactly the permits in flight, within the process's budget; each operation's
    count is exactly its permits out; and the permits out for recovery are within the
    channels granted, which are within the recovery budget. *)
Theorem within_budget l w :
  reachable l w →
  queryInflight (coordinator w) = permits_out (λ _, 1) w + msize (lookbackHeld (coordinator w)) ∧
  queryInflight (coordinator w) ≤ ProcessQueryPermits l ∧
  (∀ operation, default 0 (inflightByOp (coordinator w) !! operation) = permits_out (λ o, one (o = operation)) w) ∧
  permits_out recovery_one w ≤ recoveryInflight (coordinator w) ≤ RecoveryQueryPermits l.
Proof. apply budgets. Qed.

(** C11: Every caller is answered, and waits for a reason. While a caller waits that was
    sent nothing, every permit of the process is in flight and every lookback permit
    among them was asked to yield; while one waits for channels, the whole recovery
    budget is granted. And a call can always end by its own steps: one that gives up
    leaves its queue, and when its waiter is not there any more, the message it then
    blocks for has been sent. *)
Theorem callers_answered l w :
  reachable l w →
  (∀ r call, calls w !! r = Some call → sent w !! r = None →
    queryInflight (coordinator w) = ProcessQueryPermits l ∧
    ∀ id held, lookbackHeld (coordinator w) !! id = Some held → hp_yield held = false) ∧
  (∀ r call, channelCalls w !! r = Some call → channelSent w !! r = None → recoveryInflight (coordinator w) = RecoveryQueryPermits l) ∧
  (∀ r call, calls w !! r = Some call →
    (cl_gaveUp call = true → is_Some (sent w !! r)) ∧ ∃ w', rtc permit_step w w' ∧ calls w' !! r = None).
Proof.
  intros Hr. destruct (waiting_full _ _ Hr) as [Hp Hch]. split_and!; [|exact Hch|].
  - intros r call Hcall Hnone. split; [by eapply Hp|]. intros id held. apply (reachable_yields _ _ Hr). apply queue_size_waiters, refs_waiters_some.
    destruct (reachable_ok _ _ Hr) as [[((Hc & _) & _) _ _] _]. destruct (ok_call _ _ _ Hc _ _ Hcall) as (_ & _ & Hsent).
    exists r. destruct (decide (r ∈ refs (coordinator w))) as [|Hr']; [done|]. destruct (Hsent Hr') as [m Hm]. congruence.
  - intros r call Hcall. split; [by eapply gave_up_answered|by eapply call_ends].
Qed.

(** * Examples

    The query budget on two permits: two groups ask, one is granted twice while
    another waits, a lookback permit is asked to yield, and a recovery query runs on
    its channel. *)

Definition ex_limits : RecoveryLimits := mkLimits 2 1 8 8 4 10 3600 1 60.

Definition ex_coordinator : FlightCoordinator := default (mkCoordinator false ex_limits [] [] [] "" "" 0 0 true 0 ∅ 0 0 ∅ ∅ 0 ∅ 0) (NewFlightCoordinatorWithRecovery ex_limits).

Definition ex_clock : nat → Z := λ _, 0.

Definition ex_waiter (ref : nat) (group : string) (operation : Operation) (deadline : Z) : queryPermitWaiter :=
  mkWaiter ref (mkSlot group 60) operation deadline.

(** ** The order of grants

    One permit; [a] waits twice, then [b] twice, and [c] once. *)
Definition ex_queue : list queryPermitWaiter :=
  [ex_waiter 1 "c" OperationNormal 5; ex_waiter 2 "a" OperationNormal 1; ex_waiter 3 "a" OperationNormal 2;
   ex_waiter 4 "b" OperationNormal 3; ex_waiter 5 "b" OperationNormal 10]%string.

Fixpoint grants_in_order (fuel : nat) (queue : list queryPermitWaiter) (last : string) : list string :=
  match fuel with
  | O => []
  | S fuel => match popFairWaiter queue last with Some (_, rest, group) => group :: grants_in_order fuel rest group | None => [] end
  end.

(** The round is made anew for every grant, by the deadlines that are left: [a] is
    granted twice before [c] once, though all three waited from the start. *)
Example grants_order : grants_in_order 5 ex_queue "" = ["a"; "b"; "a"; "c"; "b"]%string.
Proof. vm_compute. reflexivity. Qed.

Definition ex_full : FlightCoordinator := set_normal ex_queue (set_recovery [ex_waiter 6 "a" OperationRetry 9]%string ex_coordinator).

Lemma fair_turn_witness :
  (normalWaiters ex_full ≠ [] ∨ recoveryWaiters ex_full ≠ []) ∧
  ∃ waiter c', take_turn ex_full = Some (waiter, c') ∧
    fair_pop (waiters (useRecovery ex_full) ex_full) (last_group (useRecovery ex_full) ex_full) waiter (waiters (useRecovery ex_full) c') (last_group (useRecovery ex_full) c') ∧
    waiters (negb (useRecovery ex_full)) c' = waiters (negb (useRecovery ex_full)) ex_full ∧
    (normalWaiters ex_full ≠ [] → recoveryWaiters ex_full ≠ [] → normalWaiters c' ≠ [] → recoveryWaiters c' ≠ [] →
      useRecovery c' = negb (useRecovery ex_full)).
Proof. assert (normalWaiters ex_full ≠ [] ∨ recoveryWaiters ex_full ≠ []) as H by (left; discriminate). split; [exact H|exact (fair_turn ex_full H)]. Defined.

(** ** Callers, step by step *)

Definition enqueue_world (waiter : queryPermitWaiter) (w : World) : World :=
  let '(c, told, _) := enqueueWaiter ex_clock (coordinator w) waiter in
  with_permits c (deliver told (sent w)) (<[wt_ref waiter := mkCall waiter None false]> (calls w)) (holders w) (tokens w) w.

Definition enqueue_fits (waiter : queryPermitWaiter) (w : World) : bool :=
  match acquire_refused (coordinator w) false 0 (wt_slot waiter) (wt_operation waiter) (Some (wt_deadline waiter)) with Ok d => d =? wt_deadline waiter | Err _ => false end &&
  negb (is_recovery (wt_operation waiter)) && match calls w !! wt_ref waiter with None => true | _ => false end &&
  (permitSequence (coordinator w) + Z.of_nat (length (normalWaiters (coordinator w)) + length (recoveryWaiters (coordinator w))) <? maxUint64) &&
  match (enqueueWaiter ex_clock (coordinator w) waiter).2 with None => true | _ => false end.

Lemma enqueue_reaches l w waiter : reachable l w → enqueue_fits waiter w = true → reachable l (enqueue_world waiter w).
Proof.
  intros Hr Hfit. unfold enqueue_fits in Hfit. repeat (apply andb_true_iff in Hfit as [Hfit ?]). eapply reach_permit; [exact Hr|].
  unfold enqueue_world. destruct (enqueueWaiter ex_clock (coordinator w) waiter) as [[c told] e] eqn:E. cbn [snd] in *. destruct e; [done|].
  eapply step_queue; [|by apply negb_true_iff| |by apply Z.ltb_lt|exact E].
  - instantiate (1 := 0). instantiate (1 := false). destruct (acquire_refused _ _ _ _ _ _); [|done]. apply Z.eqb_eq in Hfit. by subst.
  - by destruct (calls w !! wt_ref waiter).
Qed.

(** The lookback takes one permit, then two queries ask: the second waits, and the
    lookback's permit is asked to yield. *)
Definition lookback_world (w : World) : World :=
  let '(c, told, _) := TryAcquireLookbackPermit ex_clock (coordinator w) in
  with_permits c (deliver told (sent w)) (calls w) (holders w) (tokens w) w.

Lemma lookback_reaches l w : reachable l w →
  (permitSequence (coordinator w) + Z.of_nat (length (normalWaiters (coordinator w)) + length (recoveryWaiters (coordinator w))) <? maxUint64) = true →
  reachable l (lookback_world w).
Proof.
  intros Hr Hfit. eapply reach_permit; [exact Hr|]. unfold lookback_world. destruct (TryAcquireLookbackPermit _ _) as [[c told] answer] eqn:E.
  eapply step_lookback; [by apply Z.ltb_lt|exact E].
Qed.

Definition ex_start : World := start ex_coordinator.
Definition ex_lookback : World := lookback_world ex_start.
Definition ex_first : World := enqueue_world (ex_waiter 1 "a" OperationNormal 50) ex_lookback.
Definition ex_second : World := enqueue_world (ex_waiter 2 "b" OperationNormal 60) ex_first.

Lemma ex_second_reachable : reachable ex_limits ex_second.
Proof.
  repeat (apply enqueue_reaches; [|vm_compute; reflexivity]). apply lookback_reaches; [|vm_compute; reflexivity]. by apply reach_start.
Qed.

Definition ex_call : Call := mkCall (ex_waiter 2 "b" OperationNormal 60) None false.

Example ex_second_state :
  (queryInflight (coordinator ex_second), lookbackInflight (coordinator ex_second), sent ex_second !! 1%nat, calls ex_second !! 2%nat, sent ex_second !! 2%nat,
   hp_yield <$> lookbackHeld (coordinator ex_second) !! 1) =
  (2, 1, Some (Some (mkPermit OperationNormal 2 None)), Some ex_call, None, Some false).
Proof. vm_compute. reflexivity. Qed.

Lemma within_budget_witness :
  reachable ex_limits ex_second ∧
  queryInflight (coordinator ex_second) = permits_out (λ _, 1) ex_second + msize (lookbackHeld (coordinator ex_second)) ∧
  queryInflight (coordinator ex_second) ≤ ProcessQueryPermits ex_limits ∧
  (∀ operation, default 0 (inflightByOp (coordinator ex_second) !! operation) = permits_out (λ o, one (o = operation)) ex_second) ∧
  permits_out recovery_one ex_second ≤ recoveryInflight (coordinator ex_second) ≤ RecoveryQueryPermits ex_limits.
Proof. split; [exact ex_second_reachable|exact (within_budget ex_limits ex_second ex_second_reachable)]. Defined.

Lemma callers_answered_witness :
  calls ex_second !! 2%nat = Some ex_call ∧ sent ex_second !! 2%nat = None ∧
  (queryInflight (coordinator ex_second) = ProcessQueryPermits ex_limits ∧
   ∀ id held, lookbackHeld (coordinator ex_second) !! id = Some held → hp_yield held = false) ∧
  ∃ w', rtc permit_step ex_second w' ∧ calls w' !! 2%nat = None.
Proof.
  assert (calls ex_second !! 2%nat = Some ex_call) as Hcall by (vm_compute; reflexivity).
  assert (sent ex_second !! 2%nat = None) as Hnone by (vm_compute; reflexivity).
  split; [exact Hcall|]. split; [exact Hnone|]. pose proof (callers_answered ex_limits ex_second ex_second_reachable) as [Hwait [_ Hend]].
  split; [exact (Hwait 2%nat ex_call Hcall Hnone)|]. exact (proj2 (Hend 2%nat ex_call Hcall)).
Defined.

(** ** A recovery query on its channel *)

Definition ex_recovery : FlightCoordinator * list ChannelMessage * option PermitError :=
  enqueueChannelWaiter ex_clock ex_coordinator (mkChannelWaiter 1 (mkSlot "a" 60) OperationRetry 50 3).

(** Three channels asked for, one granted: the recovery budget. *)
Example ex_channels :
  (recoveryInflight ex_recovery.1.1, ex_recovery.1.2) = (1, [(1%nat, Some (mkChannels (mkSlot "a" 60) OperationRetry 50 1 1))]).
Proof. vm_compute. reflexivity. Qed.
