(* ===== verification/Runner.v ===== *)
(** A Query Group's Runner (scheduler/runtime.go, recovery.go): the attempts of a
    frozen Slot and their backoff. *)
From S2P Require Import Prelude GoHash Reason QueryPermits.

Open Scope Z_scope.

(** Instants are nanoseconds since the epoch, [None] the zero time. A function takes
    its readings of [now()] as a function of the place it reads the clock at. *)

(** ** The frozen Slot *)

Record FrozenExecutionContractRef : Type := mkContract {
  Slot : SlotIdentity;
  SnapshotRevision : string;
  QueryRevision : string;
  ScheduleRevision : string;
  ScheduleSegmentStart : Z;
  DuePlanSetDigest : string;
  ReadHoldMillis : Z;
}.

#[export] Instance FrozenExecutionContractRef_eq_dec : EqDecision FrozenExecutionContractRef.
Proof. solve_decision. Defined.

Definition ReplayDisposition : Type := string.
Definition ReplayLive : ReplayDisposition := "LIVE".
Definition ReplayEligible : ReplayDisposition := "REPLAY_ELIGIBLE".
Definition ReplayExpired : ReplayDisposition := "REPLAY_EXPIRED".

Record SlotRecoveryFacts : Type := mkRecoveryFacts {
  RecheckAtUnixMilli : Z;
  Disposition : ReplayDisposition;
  rf_Reason : string;
  Distance : Z;
  Age : Z;
}.

Record OwnerFence : Type := mkFence {
  fence_QueryGroup : string;
  OwnerID : string;
  OwnerEpoch : Z;
  LeaseToken : string;
}.

#[export] Instance OwnerFence_eq_dec : EqDecision OwnerFence.
Proof. solve_decision. Defined.

(** The fields of a frozen Slot the Runner reads; [ExpiredRange] is whether it is
    there. *)
Record FrozenSlot : Type := mkFrozenSlot {
  ExpiredRange : bool;
  Contract : FrozenExecutionContractRef;
  EarliestQueryDeadlineUnixMilli : Z;
  RecoveryUntilUnixMilli : Z;
  Dispatch_Operation : Operation;
  Dispatch_OwnerFence : OwnerFence;
  Recovery : SlotRecoveryFacts;
}.

(** ** Time *)

Definition Millisecond : Z := 1000000.
Definition Second : Z := 1000000000.
Definition Minute : Z := 60 * Second.
Definition Hour : Z := 60 * Minute.

Definition FromUnixMilli (ms : Z) : Z := ms * 1000000.

(** [left.After(right)], the zero time before every other. *)
Definition After (left right : option Z) : bool :=
  match left, right with
  | Some l, Some r => r <? l
  | Some _, None => true
  | None, _ => false
  end.

(** ** Attempts *)

Record recoveryAttempt : Type := mkAttempt {
  at_contract : FrozenExecutionContractRef;
  at_next : Operation;
  at_nextAt : option Z;
  at_failures : Z;
  at_probeUsed : bool;
}.

Definition of_contract (slot : FrozenSlot) (attempt : option recoveryAttempt) : option recoveryAttempt :=
  match attempt with
  | Some a => if decide (at_contract a = Contract slot) then Some a else None
  | None => None
  end.

(** The attempt is the Slot's, or a new one. *)
Definition attempt_for (slot : FrozenSlot) (attempt : option recoveryAttempt) : recoveryAttempt :=
  default (mkAttempt (Contract slot) "" None 0 false) (of_contract slot attempt).

Fixpoint doubled (steps : nat) (limit delay : Z) : Z :=
  match steps with
  | O => delay
  | S steps =>
      if delay <? limit
      then if limit `quot` 2 <? delay then limit else doubled steps limit (i64 (delay * 2))
      else delay
  end.

Definition retryDelay (l : RecoveryLimits) (queryGroup : string) (failures : Z) : Z :=
  let delay := doubled (Z.to_nat (failures - 1)) (RetryMaxDelay l) (RetryMinDelay l) in
  if (RetryMaxDelay l <=? delay) || (failures <=? 1) then delay
  else
    let hash := fnv32a (bytes_of_string queryGroup ++ [u8 failures; u8 (Z.shiftr failures 8)]) in
    let jitterRange := delay `quot` 4 in
    if jitterRange <=? 0 then delay
    else
      let jitter := hash mod (jitterRange + 1) in
      if RetryMaxDelay l <? i64 (delay + jitter) then RetryMaxDelay l else i64 (delay + jitter).

(** [operationFor]: the attempt of another contract is dropped; the operation, and
    whether it may run now. *)
Definition operationFor (recoveryEnabled : bool) (attempt : option recoveryAttempt) (slot : FrozenSlot) (at_ : Z)
    : option recoveryAttempt * (Operation * bool) :=
  if negb recoveryEnabled then (attempt, (Dispatch_Operation slot, true))
  else
    let attempt := of_contract slot attempt in
    if match attempt with Some a => After (at_nextAt a) (Some at_) | None => false end then (attempt, ("", false)%string)
    else if (Disposition (Recovery slot) =? ReplayExpired)%string then (attempt, (OperationNormal, true))
    else match attempt with
      | None => (attempt, (Dispatch_Operation slot, true))
      | Some a => (attempt, (at_next a, true))
      end.

Definition recordExecutionFailure (recoveryEnabled : bool) (l : RecoveryLimits) (queryGroup : string) (attempt : option recoveryAttempt)
    (slot : FrozenSlot) (at_ : Z) : option recoveryAttempt :=
  if negb recoveryEnabled then attempt
  else
    let a := attempt_for slot attempt in
    let failures := u32 (at_failures a + 1) in
    Some (mkAttempt (at_contract a) OperationRetry (Some (at_ + retryDelay l queryGroup failures)) failures (at_probeUsed a)).

(** ** Results *)

Definition ResultRetrying : string := "retrying".
Definition ReasonQueryReasonUnrecorded : string := "QUERY_REASON_UNRECORDED".

Inductive QueryAvailability : Type :=
  | QueryAvailabilityUnknown
  | QueryAvailabilityAvailable
  | QueryAvailabilityUnavailable.

Record PhysicalQueryClock : Type := mkQueryClock {
  BudgetMillis : Z;
  ElapsedMillis : Z;
}.

Record SlotExecutionResult : Type := mkExecutionResult {
  res_Availability : QueryAvailability;
  QueryUnavailableReason : string;
  PrimaryQueryClock : option PhysicalQueryClock;
  Completed : bool;
  res_Result : string;
  ReasonCode : string;
}.

Definition recordResult (recoveryEnabled : bool) (l : RecoveryLimits) (queryGroup : string) (attempt : option recoveryAttempt)
    (slot : FrozenSlot) (result : SlotExecutionResult) (at_ : Z) : option recoveryAttempt :=
  if negb recoveryEnabled then attempt
  else if Completed result || negb (res_Result result =? ResultRetrying)%string then None
  else
    let a := attempt_for slot attempt in
    let failures := u32 (at_failures a + 1) in
    let probe := (ReasonCode result =? ReasonQueryPartial)%string && negb (at_probeUsed a) in
    Some (mkAttempt (at_contract a) (if probe then OperationProbe else OperationRetry) (Some (at_ + retryDelay l queryGroup failures)) failures
      (if probe then true else at_probeUsed a)).

Definition attemptNo (attempt : option recoveryAttempt) (slot : FrozenSlot) : Z :=
  match of_contract slot attempt with Some a => u32 (at_failures a + 1) | None => 1 end.
