(* ===== verification/QueryCooldown.v ===== *)
(** The query cooldown of a Runner (scheduler/query_cooldown.go) and the store of
    its record (cmd/alarmd/runtime_phase_two_query_cooldown_store.go): a Query Group
    whose queries are unavailable is held in a pool, probed now and then, and leaves
    it on an answer or on another query. *)
From S2P Require Import Prelude GoHash Reason QueryPermits Runner.

Open Scope Z_scope.

Definition unavailableThreshold : Z := 3.
Definition QueryCooldownReentryWindow : Z := 24 * Hour.

Definition QueryCooldownEntered : string := "entered".
Definition QueryCooldownReentered : string := "reentered".
Definition QueryCooldownExtended : string := "extended".
Definition QueryCooldownRestored : string := "restored".
Definition QueryCooldownRecovered : string := "recovered".
Definition QueryCooldownQueryRevisionChanged : string := "query_revision_changed".

(** ** State *)

Record queryCooldownState : Type := mkCooldown {
  failures : Z;
  lastSlot : SlotIdentity;
  queryRevision : string;
  scheduleRevision : string;
  segmentStart : Z;
  until : option Z;
  wakeAt : option Z;
  lastQueryAt : option Z;
  reason : string;
  timeouts : Z;
  firstTimeoutAt : option Z;
}.

Definition no_cooldown : queryCooldownState := mkCooldown 0 (mkSlot "" 0) "" "" 0 None None None "" 0 None.

Record QueryCooldownProbe : Type := mkProbe {
  probe_At : Z;
  probe_Operation : string;
  probe_Outcome : string;
  probe_Measured : bool;
  probe_BudgetMillis : Z;
  probe_ElapsedMillis : Z;
}.

Record queryCooldownMemory : Type := mkCooldownMemory {
  enteredAt : option Z;
  source : string;
  exitedAt : option Z;
  exitReason : string;
  reentries : Z;
  lastProbe : option QueryCooldownProbe;
}.

Record QueryCooldownRecord : Type := mkRecord {
  rec_QueryGroup : string;
  rec_OwnerEpoch : Z;
  rec_EnteredAt : option Z;
  rec_Until : option Z;
  rec_LastQueryAt : option Z;
  rec_Failures : Z;
  rec_QueryRevision : string;
  rec_ScheduleRevision : string;
  rec_SegmentStart : Z;
  rec_ExitedAt : option Z;
  rec_ExitReason : string;
  rec_Reentries : Z;
  rec_Reason : string;
  rec_Timeouts : Z;
  rec_FirstTimeoutAt : option Z;
  rec_LastProbe : option QueryCooldownProbe;
}.

(** What the pool's transition says on its line. *)
Record QueryCooldownFacts : Type := mkFacts {
  facts_Event : string;
  facts_Result : string;
  facts_Reason : string;
  facts_State : queryCooldownState;
  facts_Memory : queryCooldownMemory;
}.

(** The pool's side of a Runner. [cooldownStore] is whether it has a store;
    [emitted] and [saved] are the lines and the writes made so far, latest first. *)
Record Pool : Type := mkPool {
  queryGroup : string;
  queryCooldown : queryCooldownState;
  cooldownMemory : queryCooldownMemory;
  cooldownStore : bool;
  cooldownLoaded : bool;
  cooldownFence : OwnerFence;
  attempting : bool;
  emitted : list QueryCooldownFacts;
  saved : list QueryCooldownRecord;
}.

(** [runner.attempt != nil] is [attempting]. *)
Definition new_pool (group : string) (store : bool) : Pool :=
  mkPool group no_cooldown (mkCooldownMemory None "" None "" 0 None) store false (mkFence "" "" 0 "") false [] [].

(** ** Updates *)

Definition set_state (s : queryCooldownState) (p : Pool) : Pool :=
  mkPool (queryGroup p) s (cooldownMemory p) (cooldownStore p) (cooldownLoaded p) (cooldownFence p) (attempting p) (emitted p) (saved p).
Definition set_memory (m : queryCooldownMemory) (p : Pool) : Pool :=
  mkPool (queryGroup p) (queryCooldown p) m (cooldownStore p) (cooldownLoaded p) (cooldownFence p) (attempting p) (emitted p) (saved p).
Definition set_loaded (loaded : bool) (fence : OwnerFence) (p : Pool) : Pool :=
  mkPool (queryGroup p) (queryCooldown p) (cooldownMemory p) (cooldownStore p) loaded fence (attempting p) (emitted p) (saved p).
Definition set_attempting (b : bool) (p : Pool) : Pool :=
  mkPool (queryGroup p) (queryCooldown p) (cooldownMemory p) (cooldownStore p) (cooldownLoaded p) (cooldownFence p) b (emitted p) (saved p).

Definition set_until (at_ : option Z) (s : queryCooldownState) : queryCooldownState :=
  mkCooldown (failures s) (lastSlot s) (queryRevision s) (scheduleRevision s) (segmentStart s) at_ (wakeAt s) (lastQueryAt s) (reason s) (timeouts s) (firstTimeoutAt s).
Definition set_wakeAt (at_ : option Z) (s : queryCooldownState) : queryCooldownState :=
  mkCooldown (failures s) (lastSlot s) (queryRevision s) (scheduleRevision s) (segmentStart s) (until s) at_ (lastQueryAt s) (reason s) (timeouts s) (firstTimeoutAt s).
Definition set_lastQueryAt (at_ : option Z) (s : queryCooldownState) : queryCooldownState :=
  mkCooldown (failures s) (lastSlot s) (queryRevision s) (scheduleRevision s) (segmentStart s) (until s) (wakeAt s) at_ (reason s) (timeouts s) (firstTimeoutAt s).
Definition set_schedule (revision : string) (start : Z) (s : queryCooldownState) : queryCooldownState :=
  mkCooldown (failures s) (lastSlot s) (queryRevision s) revision start (until s) (wakeAt s) (lastQueryAt s) (reason s) (timeouts s) (firstTimeoutAt s).

(** ** Lines and records *)

Definition ResultDegraded : string := "degraded".
Definition ResultResumed : string := "resumed".
Definition ResultSuccess : string := "success".
Definition ReasonNone : string := "none".

Definition queryCooldownOutcome (event failed : string) : string * string :=
  let failed := if (failed =? "")%string then ReasonQueryReasonUnrecorded else failed in
  if bool_decide (event ∈ [QueryCooldownEntered; QueryCooldownReentered; QueryCooldownExtended; QueryCooldownRestored]) then (ResultDegraded, failed)
  else if (event =? QueryCooldownRecovered)%string then (ResultResumed, failed)
  else (ResultSuccess, ReasonNone).

Definition emitQueryCooldown (event : string) (p : Pool) : Pool :=
  let '(result, word) := queryCooldownOutcome event (reason (queryCooldown p)) in
  mkPool (queryGroup p) (queryCooldown p) (cooldownMemory p) (cooldownStore p) (cooldownLoaded p) (cooldownFence p) (attempting p)
    (mkFacts event result word (queryCooldown p) (cooldownMemory p) :: emitted p) (saved p).

Definition record_of (p : Pool) : QueryCooldownRecord :=
  let state := queryCooldown p in
  let memory := cooldownMemory p in
  mkRecord (queryGroup p) (OwnerEpoch (cooldownFence p)) (enteredAt memory) (until state) (lastQueryAt state) (failures state)
    (queryRevision state) (scheduleRevision state) (segmentStart state) (exitedAt memory) (exitReason memory) (reentries memory) (reason state)
    (timeouts state) (firstTimeoutAt state) (lastProbe memory).

Definition saveQueryCooldown (p : Pool) : Pool :=
  if negb (cooldownStore p) || (OwnerEpoch (cooldownFence p) =? 0) || negb (cooldownLoaded p) then p
  else mkPool (queryGroup p) (queryCooldown p) (cooldownMemory p) (cooldownStore p) (cooldownLoaded p) (cooldownFence p) (attempting p)
    (emitted p) (record_of p :: saved p).

(** ** Restoring *)

(** What [LoadQueryCooldown] answers. *)
Inductive LoadAnswer : Type :=
  | LoadFound (record : QueryCooldownRecord)
  | LoadAbsent
  | LoadUndecodable
  | LoadFailed.

Definition restoreQueryCooldown (fence : OwnerFence) (answer : LoadAnswer) (p : Pool) : Pool :=
  if cooldownLoaded p then set_loaded true fence p
  else if negb (cooldownStore p) then set_loaded true fence p
  else
    match answer with
    | LoadFailed => set_loaded false fence p
    | LoadUndecodable | LoadAbsent => set_loaded true fence p
    | LoadFound record =>
        let p := set_loaded true fence p in
        let memory := cooldownMemory p in
        let memory := mkCooldownMemory (enteredAt memory) (source memory) (rec_ExitedAt record) (rec_ExitReason record) (rec_Reentries record) (rec_LastProbe record) in
        match rec_Until record with
        | None => set_memory memory p
        | Some _ =>
            let state := mkCooldown (rec_Failures record) (mkSlot "" 0) (rec_QueryRevision record) (rec_ScheduleRevision record) (rec_SegmentStart record)
              (rec_Until record) None (rec_LastQueryAt record) (rec_Reason record) (rec_Timeouts record) (rec_FirstTimeoutAt record) in
            let memory := mkCooldownMemory (rec_EnteredAt record) QueryCooldownRestored (exitedAt memory) (exitReason memory) (reentries memory) (lastProbe memory) in
            emitQueryCooldown QueryCooldownRestored (set_memory memory (set_state state p))
        end
    end.

(** ** Leaving the pool *)

Definition clearQueryCooldown (now : Z) (event : string) (p : Pool) : Pool :=
  match until (queryCooldown p) with
  | Some _ =>
      let memory := cooldownMemory p in
      let p := set_memory (mkCooldownMemory (enteredAt memory) (source memory) (Some now) event (reentries memory) (lastProbe memory))
        (set_state (set_until None (queryCooldown p)) p) in
      let p := emitQueryCooldown event p in
      let memory := cooldownMemory p in
      saveQueryCooldown (set_memory (mkCooldownMemory None "" (exitedAt memory) (exitReason memory) (reentries memory) (lastProbe memory))
        (set_state no_cooldown p))
  | None => set_state no_cooldown p
  end.

(** ** Holding *)

Definition before_until (now : Z) (s : queryCooldownState) : bool :=
  match until s with Some at_ => now <? at_ | None => false end.

Definition queryCooldownHolds (now : Z) (p : Pool) : bool := before_until now (queryCooldown p).

Definition queryCooldownLetsRun (p : Pool) : bool := bool_decide (is_Some (until (queryCooldown p))).

(** The Slot is the one that failed, another query, or the same query under another
    schedule. *)
Definition meetSlot (clk : nat → Z) (slot : FrozenSlot) (p : Pool) : Pool :=
  let state := queryCooldown p in
  let ref := Contract slot in
  if (0 <? failures state) && negb (queryRevision state =? QueryRevision ref)%string then clearQueryCooldown (clk 0%nat) QueryCooldownQueryRevisionChanged p
  else if (0 <? failures state) && (negb (scheduleRevision state =? ScheduleRevision ref)%string || negb (segmentStart state =? ScheduleSegmentStart ref)) then
    let state := set_schedule (ScheduleRevision ref) (ScheduleSegmentStart ref) state in
    match until state with
    | None => set_state state p
    | Some at_ => saveQueryCooldown (set_state (if clk 0%nat <? at_ then set_until (Some (clk 1%nat)) state else state) p)
    end
  else p.

(** The earliest of the cooldown's end, the Slot's maintenance deadline and its next
    recheck. *)
Definition wake (clk : nat → Z) (slot : FrozenSlot) (until_ : Z) : Z :=
  let deadline := FromUnixMilli (RecoveryUntilUnixMilli slot) in
  let wakeAt := if deadline <? until_ then deadline else until_ in
  let recheck := RecheckAtUnixMilli (Recovery slot) in
  if UnixMilli (clk 4%nat) <? recheck
  then let at_ := FromUnixMilli recheck in if at_ <? wakeAt then at_ else wakeAt
  else wakeAt.

Definition deferUnavailableQuery (clk : nat → Z) (slot : FrozenSlot) (p : Pool) : Pool * bool :=
  let p := meetSlot clk slot p in
  match until (queryCooldown p) with
  | None => (p, false)
  | Some at_ =>
      if negb (clk 2%nat <? at_) || ExpiredRange slot || (Disposition (Recovery slot) =? ReplayExpired)%string || attempting p then (p, false)
      else if RecoveryUntilUnixMilli slot <=? UnixMilli (clk 3%nat) then (p, false)
      else (set_state (set_wakeAt (Some (wake clk slot at_)) (queryCooldown p)) p, true)
  end.

(** ** What an execution proved *)

Definition QueryCooldownProbeAnswered : string := "answered".
Definition QueryCooldownProbeUnavailable : string := "unavailable".
Definition QueryCooldownProbeUnknown : string := "unknown".

Definition queryCooldownProbe (at_ : Z) (operation : Operation) (result : SlotExecutionResult) : QueryCooldownProbe :=
  let outcome := match res_Availability result with
    | QueryAvailabilityAvailable => QueryCooldownProbeAnswered
    | QueryAvailabilityUnavailable => QueryCooldownProbeUnavailable
    | QueryAvailabilityUnknown => QueryCooldownProbeUnknown
    end in
  match PrimaryQueryClock result with
  | Some clock => mkProbe at_ operation outcome true (BudgetMillis clock) (ElapsedMillis clock)
  | None => mkProbe at_ operation outcome false 0 0
  end.

(** The backoff doubles from twice the period, up to five minutes or twice the period. *)
Fixpoint cooldown_doubled (steps : nat) (capDelay delay : Z) : Z :=
  match steps with
  | O => delay
  | S steps =>
      if delay <? capDelay then cooldown_doubled steps capDelay (if capDelay `quot` 2 <? delay then capDelay else i64 (delay * 2))
      else delay
  end.

Definition queryCooldownDelay (group : string) (period failures : Z) : Z :=
  let base := i64 (2 * period) in
  let capDelay := if 5 * Minute <? base then base else 5 * Minute in
  let delay := cooldown_doubled (Z.to_nat (failures - unavailableThreshold)) capDelay base in
  let spread := delay `quot` 2 in
  let spread := if spread <? period then period else spread in
  i64 (delay - i64 (fnv64a (bytes_of_string group ++ [u8 failures]) mod u64 spread)).

(** A missing or extreme interval is not permission to guess a cooldown. *)
Definition usable_interval (intervalSeconds : Z) : bool := (0 <? intervalSeconds) && (intervalSeconds <=? 24 * Hour `quot` Second).

Definition set_probe (probe : QueryCooldownProbe) (p : Pool) : Pool :=
  let memory := cooldownMemory p in
  set_memory (mkCooldownMemory (enteredAt memory) (source memory) (exitedAt memory) (exitReason memory) (reentries memory) (Some probe)) p.

(** A failed query is counted. *)
Definition countFailure (clk : nat → Z) (slot : FrozenSlot) (result : SlotExecutionResult) (s : queryCooldownState) : queryCooldownState :=
  let ref := Contract slot in
  let timeout := (QueryUnavailableReason result =? ReasonQueryTimeout)%string in
  mkCooldown (if failures s <? 32 then failures s + 1 else failures s) (Slot ref) (QueryRevision ref) (ScheduleRevision ref) (ScheduleSegmentStart ref)
    (until s) (wakeAt s) (Some (clk 4%nat)) (QueryUnavailableReason result)
    (if timeout && (timeouts s <? 32) then timeouts s + 1 else timeouts s)
    (if timeout && (timeouts s =? 0) then Some (clk 5%nat) else firstTimeoutAt s).

(** The pool is entered, or its cooldown extended. *)
Definition holdQueries (clk : nat → Z) (intervalSeconds : Z) (p : Pool) : Pool :=
  let state := queryCooldown p in
  let memory := cooldownMemory p in
  let reentered := match exitedAt memory with Some at_ => clk 7%nat - at_ <? QueryCooldownReentryWindow | None => false end in
  let '(event, memory) := match until state with
    | Some _ => (QueryCooldownExtended, memory)
    | None =>
        (if reentered then QueryCooldownReentered else QueryCooldownEntered,
         mkCooldownMemory (Some (clk 6%nat)) "probe" (exitedAt memory) (exitReason memory)
           (if reentered then u32 (reentries memory + 1) else reentries memory) (lastProbe memory))
    end in
  let state := set_until (Some (clk 8%nat + queryCooldownDelay (queryGroup p) (i64 (intervalSeconds * Second)) (failures state))) state in
  saveQueryCooldown (emitQueryCooldown event (set_memory memory (set_state state p))).

Definition recordQueryAvailability (clk : nat → Z) (slot : FrozenSlot) (operation : Operation) (result : SlotExecutionResult)
    (intervalSeconds : Z) (decides : bool) (p : Pool) : Pool :=
  if negb (Completed result) || ExpiredRange slot || (Disposition (Recovery slot) =? ReplayExpired)%string then p
  else
    let p := if decides then set_probe (queryCooldownProbe (clk 0%nat) operation result) p else p in
    match res_Availability result with
    | QueryAvailabilityUnknown =>
        match until (queryCooldown p) with
        | Some at_ =>
            if negb (clk 1%nat <? at_) && usable_interval intervalSeconds
            then saveQueryCooldown (set_state (set_until (Some (clk 2%nat + i64 (intervalSeconds * Second))) (queryCooldown p)) p)
            else p
        | None => p
        end
    | QueryAvailabilityAvailable =>
        clearQueryCooldown (clk 3%nat) QueryCooldownRecovered (set_state (set_lastQueryAt (Some (clk 2%nat)) (queryCooldown p)) p)
    | QueryAvailabilityUnavailable =>
        if decide (lastSlot (queryCooldown p) = Slot (Contract slot)) then p
        else
          let p := set_state (countFailure clk slot result (queryCooldown p)) p in
          if (failures (queryCooldown p) <? unavailableThreshold) || negb (usable_interval intervalSeconds) then p
          else holdQueries clk intervalSeconds p
    end.

(** ** The store of the record

    The record's JSON text, and what the script reads of it: [tonumber] of its
    [owner_epoch], when the text decodes to a table. *)
Class RecordText : Type := {
  marshal_record : QueryCooldownRecord → option string;
  unmarshal_record : string → option QueryCooldownRecord;
  stored_epoch : string → option Z;
}.

(** How long a record outlives its last write. *)
Definition queryCooldownRecordTTL : Z := 7 * 24 * Hour.

(** A key's value: its text and the milliseconds it has left to live. *)
Record StoredValue : Type := mkStored {
  stored_text : string;
  stored_lifetime : Z;
}.

(** The key [elapsed] milliseconds later: a value that has outlived its time is gone. *)
Definition key_after (elapsed : Z) (key : option StoredValue) : option StoredValue :=
  value ← key;
  if elapsed <? stored_lifetime value then Some (mkStored (stored_text value) (stored_lifetime value - elapsed)) else None.

(** Numbers in Lua are doubles: an epoch reads back exactly up to 2^53. *)
Definition exact_epoch (epoch : Z) : Prop := 0 ≤ epoch ≤ 2 ^ 53.

Class RecordTextLaws `{RecordText} : Type := {
  record_text r s : marshal_record r = Some s →
    unmarshal_record s = Some r ∧ (exact_epoch (rec_OwnerEpoch r) → stored_epoch s = Some (rec_OwnerEpoch r));
}.

Section store.
Context `{RecordText}.

(** [SET key payload PX lifetime], unless the record there is a later owner's. *)
Definition saveQueryCooldownScript (current : option StoredValue) (payload : string) (epoch lifetime : Z) : option StoredValue * Z :=
  match current ≫= λ value, stored_epoch (stored_text value) with
  | Some stored => if epoch <? stored then (current, 0) else (Some (mkStored payload lifetime), 1)
  | None => (Some (mkStored payload lifetime), 1)
  end.

Inductive SaveAnswer : Type :=
  | SaveWritten
  | SaveSuperseded
  | SaveFailed.

(** [SaveQueryCooldown] on the key's value; [reached] is whether the store ran the
    script. *)
Definition SaveQueryCooldown (reached : bool) (fence : OwnerFence) (record : QueryCooldownRecord) (key : option StoredValue)
    : option StoredValue * SaveAnswer :=
  match marshal_record record with
  | None => (key, SaveFailed)
  | Some payload =>
      if negb reached then (key, SaveFailed)
      else
        let '(key, written) := saveQueryCooldownScript key payload (OwnerEpoch fence) (queryCooldownRecordTTL `quot` Millisecond) in
        (key, if written =? 1 then SaveWritten else SaveSuperseded)
  end.

Definition LoadQueryCooldown (reached : bool) (group : string) (key : option StoredValue) : LoadAnswer :=
  if negb reached then LoadFailed
  else
    match key with
    | None => LoadAbsent
    | Some value =>
        match unmarshal_record (stored_text value) with
        | Some record => if (rec_QueryGroup record =? group)%string then LoadFound record else LoadUndecodable
        | None => LoadUndecodable
        end
    end.
End store.
