(* ===== verification/QueryCooldownSpec.v ===== *)
(** What the query cooldown promises: how long it waits, who is in the pool, when a
    held Slot wakes, and that a restart does not let a Query Group out. *)
From S2P Require Import Prelude GoHash Reason QueryPermits Runner QueryCooldown.

Open Scope Z_scope.

(** ** The wait *)

(** The backoff in closed form. *)
Lemma cooldown_doubled_spec n capDelay delay :
  0 < delay ≤ capDelay → capDelay < 2 ^ 61 → cooldown_doubled n capDelay delay = Z.min capDelay (delay * 2 ^ Z.of_nat n).
Proof.
  revert delay. induction n as [|n IH]; intros delay Hd Hc; cbn [cooldown_doubled]; [simpl; lia|].
  rewrite Nat2Z.inj_succ, Z.pow_succ_r by lia. assert (1 ≤ 2 ^ Z.of_nat n) by (apply Z.lt_pred_le, Z.pow_pos_nonneg; lia).
  destruct (Z.ltb_spec delay capDelay) as [Hlt|Hge]; [|assert (delay ≤ delay * 2 ^ Z.of_nat n) by nia; nia].
  pose proof (Z.quot_div_nonneg capDelay 2 ltac:(lia) ltac:(lia)) as Hq.
  destruct (Z.ltb_spec (capDelay `quot` 2) delay) as [Hhalf|Hhalf]; rewrite Hq in Hhalf.
  - rewrite IH by lia. assert (capDelay ≤ delay * 2) by (pose proof (Z.mod_pos_bound capDelay 2); pose proof (Z.div_mod capDelay 2); lia). nia.
  - assert (delay * 2 ≤ capDelay) by (pose proof (Z.mod_pos_bound capDelay 2); pose proof (Z.div_mod capDelay 2); lia).
    rewrite i64_id by go_lia. rewrite IH by lia. f_equal. ring.
Qed.

Definition cooldown_backoff (period failures : Z) : Z :=
  Z.min (Z.max (5 * Minute) (2 * period)) (2 * period * 2 ^ (failures - unavailableThreshold)).

Lemma delay_spread group period failures :
  0 < period ≤ 24 * Hour → unavailableThreshold ≤ failures →
  let backoff := cooldown_backoff period failures in
  backoff - backoff / 2 < queryCooldownDelay group period failures ≤ backoff ∧ 2 * period ≤ backoff.
Proof.
  intros Hp Hf. unfold Hour, Minute, Second, unavailableThreshold in *. cbv zeta.
  assert (1 ≤ 2 ^ (failures - 3)) as Hpow by (apply Z.lt_pred_le, Z.pow_pos_nonneg; lia).
  assert (2 * period ≤ cooldown_backoff period failures ∧ cooldown_backoff period failures < 2 ^ 61) as [Hlo Hhi].
  { unfold cooldown_backoff, Minute, Second, unavailableThreshold. set (pow := 2 ^ (failures - 3)) in *. split; [apply Z.min_glb; [lia|nia]|].
    eapply Z.le_lt_trans; [apply Z.le_min_l|]; cbn; lia. }
  assert (queryCooldownDelay group period failures = cooldown_backoff period failures -
    fnv64a (bytes_of_string group ++ [u8 failures]) mod (cooldown_backoff period failures / 2)) as ->.
  { unfold queryCooldownDelay. unfold Minute, Second, unavailableThreshold in *. rewrite (i64_id (2 * period)) by go_lia.
    set (capDelay := if _ <? _ then _ else _).
    assert (capDelay = Z.max (5 * (60 * 1000000000)) (2 * period)) as -> by (subst capDelay; case_match; breflect; lia).
    rewrite cooldown_doubled_spec by lia. rewrite Z2Nat.id by lia. change (Z.min _ _) with (cooldown_backoff period failures).
    rewrite Z.quot_div_nonneg by lia. assert (period ≤ cooldown_backoff period failures / 2) by (apply Z.div_le_lower_bound; lia).
    rewrite (proj2 (Z.ltb_ge _ _)) by lia.
    assert (cooldown_backoff period failures / 2 < 2 ^ 61) by (apply Z.div_lt_upper_bound; lia).
    rewrite (u64_id (_ / 2)) by go_lia. pose proof (Z.mod_pos_bound (fnv64a (bytes_of_string group ++ [u8 failures])) (cooldown_backoff period failures / 2) ltac:(lia)).
    rewrite (i64_id (_ mod _)) by go_lia. by rewrite i64_id by go_lia. }
  assert (period ≤ cooldown_backoff period failures / 2) by (apply Z.div_le_lower_bound; lia).
  pose proof (Z.mod_pos_bound (fnv64a (bytes_of_string group ++ [u8 failures])) (cooldown_backoff period failures / 2) ltac:(lia)). lia.
Qed.

(** ** Who is in the pool *)

(** What happens to a Runner's pool: it meets a frozen Slot, or an execution of one
    answers. *)
Inductive PoolEvent : Type :=
  | Meets (clk : nat → Z) (slot : FrozenSlot)
  | Answers (clk : nat → Z) (slot : FrozenSlot) (operation : Operation) (result : SlotExecutionResult) (intervalSeconds : Z) (decides : bool).

Definition pool_event (p : Pool) (e : PoolEvent) : Pool :=
  match e with
  | Meets clk slot => (deferUnavailableQuery clk slot p).1
  | Answers clk slot operation result intervalSeconds decides => recordQueryAvailability clk slot operation result intervalSeconds decides p
  end.

Definition pool_run (p : Pool) (es : list PoolEvent) : Pool := foldl pool_event p es.

(** The evidence, counted on its own: how many Slots in a row had an unavailable
    answer, the last of them, and the query they ran. *)
Record Evidence : Type := mkEvidence {
  ev_count : Z;
  ev_last : option SlotIdentity;
  ev_query : string;
}.

Definition no_evidence : Evidence := mkEvidence 0 None "".

(** An execution that completed, of a Slot that is not past its replay. *)
Definition tells (slot : FrozenSlot) (result : SlotExecutionResult) : bool :=
  Completed result && negb (ExpiredRange slot) && negb (Disposition (Recovery slot) =? ReplayExpired)%string.

Definition evidence_event (e : Evidence) (event : PoolEvent) : Evidence :=
  match event with
  | Meets _ slot => if (0 <? ev_count e) && negb (ev_query e =? QueryRevision (Contract slot))%string then no_evidence else e
  | Answers _ slot _ result _ _ =>
      if tells slot result then
        match res_Availability result with
        | QueryAvailabilityUnknown => e
        | QueryAvailabilityAvailable => no_evidence
        | QueryAvailabilityUnavailable =>
            if decide (ev_last e = Some (Slot (Contract slot))) then e
            else mkEvidence (ev_count e + 1) (Some (Slot (Contract slot))) (QueryRevision (Contract slot))
        end
      else e
  end.

Definition evidence (es : list PoolEvent) : Evidence := foldl evidence_event no_evidence es.

(** A Slot of a Query Group with a name, of an interval the pool can use. *)
Definition usable_event (event : PoolEvent) : Prop :=
  match event with
  | Meets _ _ => True
  | Answers _ slot _ _ intervalSeconds _ => QueryGroup (Slot (Contract slot)) ≠ ""%string ∧ usable_interval intervalSeconds = true
  end.

(** The pool's state stands for the evidence. *)
Record stands_for (p : Pool) (e : Evidence) : Prop := {
  sf_count : 0 ≤ ev_count e;
  sf_failures : failures (queryCooldown p) = Z.min 32 (ev_count e);
  sf_until : is_Some (until (queryCooldown p)) ↔ unavailableThreshold ≤ ev_count e;
  sf_last : lastSlot (queryCooldown p) = default (mkSlot "" 0) (ev_last e);
  sf_some slot : ev_last e = Some slot → QueryGroup slot ≠ ""%string;
  sf_query : 0 < ev_count e → queryRevision (queryCooldown p) = ev_query e;
}.

Lemma save_state p : queryCooldown (saveQueryCooldown p) = queryCooldown p.
Proof. unfold saveQueryCooldown. by case_match. Qed.
Lemma emit_state event p : queryCooldown (emitQueryCooldown event p) = queryCooldown p.
Proof. unfold emitQueryCooldown. by case_match. Qed.
Lemma clear_state now event p : queryCooldown (clearQueryCooldown now event p) = no_cooldown.
Proof. unfold clearQueryCooldown. case_match; [by rewrite save_state|done]. Qed.
Lemma hold_state clk interval p : queryCooldown (holdQueries clk interval p) =
  set_until (Some (clk 8%nat + queryCooldownDelay (queryGroup p) (i64 (interval * Second)) (failures (queryCooldown p)))) (queryCooldown p).
Proof. unfold holdQueries. destruct (until (queryCooldown p)); by rewrite save_state, emit_state. Qed.

#[export] Hint Rewrite save_state emit_state clear_state hold_state : cooldown_rw.

Lemma stands_none p : queryCooldown p = no_cooldown → stands_for p no_evidence.
Proof. intros E. split; rewrite ?E; simpl; try done; unfold unavailableThreshold; (split; [by intros []|lia]). Qed.

(** Only these fields matter. *)
Lemma stands_frame p s e :
  stands_for p e → failures s = failures (queryCooldown p) → (is_Some (until s) ↔ is_Some (until (queryCooldown p))) →
  lastSlot s = lastSlot (queryCooldown p) → queryRevision s = queryRevision (queryCooldown p) → ∀ p', queryCooldown p' = s → stands_for p' e.
Proof. intros [] Ef Eu El Eq p' E. split; rewrite ?E, ?Ef, ?Eu, ?El, ?Eq; done. Qed.

Lemma meet_stands clk slot p e : stands_for p e → stands_for (meetSlot clk slot p) (evidence_event e (Meets clk slot)).
Proof.
  intros Hs. unfold meetSlot, evidence_event. pose proof (sf_failures _ _ Hs) as Hf. pose proof (sf_count _ _ Hs).
  assert ((0 <? failures (queryCooldown p)) = (0 <? ev_count e)) as -> by (rewrite Hf; destruct (Z.ltb_spec 0 (ev_count e)); [apply Z.ltb_lt|apply Z.ltb_ge]; lia).
  destruct (Z.ltb_spec 0 (ev_count e)) as [Hpos|]; cbn [andb]; [|done]. rewrite (sf_query _ _ Hs Hpos).
  destruct (negb (ev_query e =? _)%string); [apply stands_none, clear_state|].
  destruct (negb _ || negb _); [|done]. cbn [until set_schedule]. destruct (until (queryCooldown p)) as [at_|] eqn:Hu.
  - eapply stands_frame; [exact Hs|..|apply save_state]; by case_match.
  - by eapply stands_frame; [exact Hs|..|reflexivity].
Qed.

Lemma defer_stands clk slot p e : stands_for p e → stands_for (deferUnavailableQuery clk slot p).1 (evidence_event e (Meets clk slot)).
Proof.
  intros Hs%(meet_stands clk slot). unfold deferUnavailableQuery. destruct (until (queryCooldown (meetSlot clk slot p))) eqn:Hu; [|done].
  destruct (_ || _); [done|]. case_match; [done|]. eapply stands_frame; [exact Hs|..|reflexivity]; done.
Qed.

Lemma record_stands clk slot operation result interval decides p e :
  stands_for p e → usable_event (Answers clk slot operation result interval decides) →
  stands_for (recordQueryAvailability clk slot operation result interval decides p) (evidence_event e (Answers clk slot operation result interval decides)).
Proof.
  intros Hs [Hg Hi]. unfold recordQueryAvailability. cbn [evidence_event]. unfold tells.
  destruct (Completed result); [|done]. destruct (ExpiredRange slot); [done|]. destruct (_ =? ReplayExpired)%string; [done|]. cbn [negb orb andb].
  set (p1 := if decides then _ else p).
  assert (stands_for p1 e) as Hs1 by (subst p1; destruct decides; [|done]; by eapply stands_frame; [exact Hs|..|reflexivity]).
  clear Hs. clearbody p1. destruct (res_Availability result).
  - destruct (until (queryCooldown p1)) as [at_|] eqn:Hu; [|done]. case_match; [|done].
    eapply stands_frame; [exact Hs1|..|apply save_state]; simpl; try done; rewrite Hu; (split; eauto).
  - apply stands_none, clear_state.
  - destruct Hs1 as [Hc Hf Hu Hl Hsome Hq]. rewrite Hl. case_decide as Hsame; case_decide as Hsame'.
    + done.
    + destruct (ev_last e); simpl in Hsame; [congruence|]. by rewrite <- Hsame in Hg.
    + by rewrite Hsame' in Hsame.
    + rewrite Hi. cbn [negb]. rewrite orb_false_r. cbn [failures countFailure queryCooldown set_state].
      assert ((if failures (queryCooldown p1) <? 32 then failures (queryCooldown p1) + 1 else failures (queryCooldown p1)) = Z.min 32 (ev_count e + 1)) as Hf'.
      { rewrite Hf. case_match; breflect; lia. }
      rewrite Hf'. unfold unavailableThreshold in *. destruct (Z.ltb_spec (Z.min 32 (ev_count e + 1)) 3).
      * split; cbn [queryCooldown set_state countFailure failures until lastSlot queryRevision ev_count ev_last ev_query default]; try done; try lia.
        -- rewrite Hu. unfold unavailableThreshold. lia.
        -- by intros ? [= <-].
      * split; rewrite ?hold_state; cbn [queryCooldown set_state set_until countFailure failures until lastSlot queryRevision ev_count ev_last ev_query default]; try done; try lia.
        -- unfold unavailableThreshold. split; [lia|eauto].
        -- by intros ? [= <-].
Qed.

Lemma run_stands p e es :
  stands_for p e → Forall usable_event es → stands_for (pool_run p es) (foldl evidence_event e es).
Proof.
  revert p e. induction es as [|event es IH]; intros p e Hs Hu; [done|]. inversion Hu; subst. apply IH; [|done].
  destruct event; [by apply defer_stands|by apply record_stands].
Qed.

(** C13: A Query Group is in the pool exactly when, since its last answer and its last
    change of query, three Slots or more had an unavailable answer; the count of
    failures is that number, up to 32. *)
Theorem pool_is_evidence group store es :
  Forall usable_event es →
  (queryCooldownLetsRun (pool_run (new_pool group store) es) = true ↔ unavailableThreshold ≤ ev_count (evidence es)) ∧
  failures (queryCooldown (pool_run (new_pool group store) es)) = Z.min 32 (ev_count (evidence es)).
Proof.
  intros Hu. pose proof (run_stands (new_pool group store) no_evidence es (stands_none (new_pool group store) eq_refl) Hu) as Hs. split; [|apply Hs].
  unfold queryCooldownLetsRun. rewrite bool_decide_eq_true. apply Hs.
Qed.

(** ** The Query Group *)

Lemma save_group p : queryGroup (saveQueryCooldown p) = queryGroup p.
Proof. unfold saveQueryCooldown. by case_match. Qed.
Lemma emit_group event p : queryGroup (emitQueryCooldown event p) = queryGroup p.
Proof. unfold emitQueryCooldown. by case_match. Qed.

(** No event changes the Query Group. *)
Lemma event_group p e : queryGroup (pool_event p e) = queryGroup p.
Proof.
  assert (∀ now event q, queryGroup (clearQueryCooldown now event q) = queryGroup q) as Hclear.
  { intros. unfold clearQueryCooldown. case_match; [|done]. rewrite save_group. cbn. by rewrite emit_group. }
  assert (∀ clk interval q, queryGroup (holdQueries clk interval q) = queryGroup q) as Hhold.
  { intros. unfold holdQueries. destruct (until _); rewrite save_group, emit_group; done. }
  destruct e as [clk slot|clk slot operation result interval decides]; cbn [pool_event].
  - unfold deferUnavailableQuery, meetSlot. repeat case_match; cbn; rewrite ?Hclear, ?save_group; done.
  - unfold recordQueryAvailability. repeat case_match; rewrite ?Hclear, ?Hhold, ?save_group; done.
Qed.

Lemma restore_group fence load p : queryGroup (restoreQueryCooldown fence load p) = queryGroup p.
Proof. unfold restoreQueryCooldown. repeat case_match; rewrite ?emit_group; done. Qed.

(** ** When a held Slot wakes *)

(** No operation of the pool looks at the attempt, and none changes it. *)
Lemma save_attempting p : attempting (saveQueryCooldown p) = attempting p.
Proof. unfold saveQueryCooldown. by case_match. Qed.
Lemma emit_attempting event p : attempting (emitQueryCooldown event p) = attempting p.
Proof. unfold emitQueryCooldown. by case_match. Qed.
Lemma clear_attempting now event p : attempting (clearQueryCooldown now event p) = attempting p.
Proof. unfold clearQueryCooldown. case_match; [|done]. by rewrite save_attempting; cbn; rewrite emit_attempting. Qed.

Lemma meet_attempting clk slot p : attempting (meetSlot clk slot p) = attempting p.
Proof. unfold meetSlot. repeat case_match; rewrite ?clear_attempting, ?save_attempting; done. Qed.

(** Meeting a Slot never puts the cooldown's end off, and never enters the pool. *)
Lemma meet_until clk slot p at_ : until (queryCooldown (meetSlot clk slot p)) = Some at_ →
  ∃ was, until (queryCooldown p) = Some was ∧ (at_ = was ∨ clk 0%nat < was ∧ at_ = clk 1%nat).
Proof.
  unfold meetSlot. destruct (_ && _); [by rewrite clear_state|]. destruct (_ && _); [|eauto]. cbn [until set_schedule].
  destruct (until (queryCooldown p)) as [was|] eqn:Hu; [|by simpl; rewrite Hu]. rewrite save_state. cbn [queryCooldown set_state].
  destruct (Z.ltb_spec (clk 0%nat) was); simpl; rewrite ?Hu; intros [= <-]; eauto.
Qed.

Definition monotone (clk : nat → Z) : Prop := ∀ i j, (i ≤ j)%nat → clk i ≤ clk j.

Lemma unix_milli_lt now ms : UnixMilli now < ms → now < FromUnixMilli ms.
Proof. unfold UnixMilli, FromUnixMilli. intros. pose proof (Z.div_mod now 1000000). pose proof (Z.mod_pos_bound now 1000000). lia. Qed.

Lemma unix_milli_le now ms : FromUnixMilli ms ≤ now → ms ≤ UnixMilli now.
Proof. unfold UnixMilli, FromUnixMilli. intros. apply Z.div_le_lower_bound; lia. Qed.

Lemma wake_bounds clk slot until_ :
  wake clk slot until_ ≤ until_ ∧ wake clk slot until_ ≤ FromUnixMilli (RecoveryUntilUnixMilli slot) ∧
  ∀ now, now < until_ → now < FromUnixMilli (RecoveryUntilUnixMilli slot) → now ≤ clk 4%nat → now < wake clk slot until_.
Proof.
  unfold wake. destruct (Z.ltb_spec (FromUnixMilli (RecoveryUntilUnixMilli slot)) until_);
    destruct (Z.ltb_spec (UnixMilli (clk 4%nat)) (RecheckAtUnixMilli (Recovery slot))) as [Hr|]; try (split_and!; intros; lia);
    apply unix_milli_lt in Hr; case_match; breflect; split_and!; intros; lia.
Qed.

Lemma defer_held clk slot p p' :
  deferUnavailableQuery clk slot p = (p', true) →
  ∃ at_, until (queryCooldown (meetSlot clk slot p)) = Some at_ ∧ clk 2%nat < at_ ∧ ExpiredRange slot = false ∧
    Disposition (Recovery slot) ≠ ReplayExpired ∧ attempting p = false ∧ UnixMilli (clk 3%nat) < RecoveryUntilUnixMilli slot ∧
    p' = set_state (set_wakeAt (Some (wake clk slot at_)) (queryCooldown (meetSlot clk slot p))) (meetSlot clk slot p).
Proof.
  unfold deferUnavailableQuery. destruct (until (queryCooldown (meetSlot clk slot p))) as [at_|] eqn:Hu; [|done].
  destruct (negb _ || _ || _ || _) eqn:Hrun; [done|]. rewrite meet_attempting in Hrun. breflect.
  destruct (Z.leb_spec (RecoveryUntilUnixMilli slot) (UnixMilli (clk 3%nat))); intros [= <-]. exists at_. split_and!; try done.
  by apply String.eqb_neq.
Qed.

(** C30: A held Slot wakes: at an instant still to come, no later than its cooldown's
    end and its maintenance deadline, and past either of them it is not held again.
    A Slot past its replay, or under an attempt, is never held. *)
Theorem held_wakes clk slot p p' :
  monotone clk → deferUnavailableQuery clk slot p = (p', true) →
  ∃ at_ until_, wakeAt (queryCooldown p') = Some at_ ∧ until (queryCooldown p') = Some until_ ∧
    clk 2%nat < at_ ∧ at_ ≤ until_ ∧ at_ ≤ FromUnixMilli (RecoveryUntilUnixMilli slot) ∧
    ExpiredRange slot = false ∧ Disposition (Recovery slot) ≠ ReplayExpired ∧ attempting p = false ∧
    ∀ later slot', (∀ n, until_ ≤ later n) ∨ (∀ n, FromUnixMilli (RecoveryUntilUnixMilli slot') ≤ later n) →
      (deferUnavailableQuery later slot' p').2 = false.
Proof.
  intros Hclk (at_ & Hu & Hlt & He & Hd & Ha & Hr & ->)%defer_held. destruct (wake_bounds clk slot at_) as (Hw1 & Hw2 & Hw3).
  exists (wake clk slot at_), at_. split_and!; try done.
  - apply Hw3; [done| |apply Hclk; lia]. apply unix_milli_lt. eapply Z.le_lt_trans; [|exact Hr]. unfold UnixMilli. apply Z.div_le_mono; [lia|]. apply Hclk. lia.
  - intros later slot' Hlater. destruct (deferUnavailableQuery later slot' _) as [q []] eqn:E; [|done]. exfalso.
    apply defer_held in E as (at' & Hu' & Hlt' & _ & _ & _ & Hr' & _). destruct Hlater as [Hl|Hl].
    + apply meet_until in Hu' as (was & Hwas & Hat). cbn [queryCooldown set_state until set_wakeAt] in Hwas. rewrite Hu in Hwas. simplify_eq.
      pose proof (Hl 0%nat). pose proof (Hl 2%nat). destruct Hat as [->|[? _]]; lia.
    + pose proof (unix_milli_le _ _ (Hl 3%nat)). lia.
Qed.
