(* ===== verification/QueryCooldownStore.v ===== *)
(** The cooldown's record in the store: an owner that was replaced cannot write over
    its successor, and a restart or a change of owner keeps a Query Group in the
    pool. *)
From S2P Require Import Prelude GoHash Reason QueryPermits Runner QueryCooldown QueryCooldownSpec.

Open Scope Z_scope.

Section store.
Context `{RecordTextLaws}.

(** ** One key, several owners *)

(** A write an owner asks for: [reached] is whether the store ran the script. *)
Record Write : Type := mkWrite {
  wr_reached : bool;
  wr_fence : OwnerFence;
  wr_record : QueryCooldownRecord;
}.

Definition write_key (key : option StoredValue) (w : Write) : option StoredValue := (SaveQueryCooldown (wr_reached w) (wr_fence w) (wr_record w) key).1.

(** A Runner writes its own epoch in the record. *)
Definition own_record (w : Write) : Prop := rec_OwnerEpoch (wr_record w) = OwnerEpoch (wr_fence w) ∧ exact_epoch (OwnerEpoch (wr_fence w)).

Definition key_epoch (key : option StoredValue) : Z := default 0 (key ≫= λ value, stored_epoch (stored_text value)).

Lemma write_epoch key w : own_record w → key_epoch key ≤ key_epoch (write_key key w) ∧
  (write_key key w = key ∨ key_epoch (write_key key w) = OwnerEpoch (wr_fence w) ∧
    ∃ s, write_key key w = Some (mkStored s (queryCooldownRecordTTL `quot` Millisecond)) ∧ unmarshal_record s = Some (wr_record w)).
Proof.
  intros [Hown Hexact]. unfold write_key, SaveQueryCooldown. destruct (marshal_record (wr_record w)) as [s|] eqn:Hm; [|split; [done|by left]].
  destruct (record_text _ _ Hm) as [Hu He]. rewrite Hown in He. specialize (He Hexact).
  destruct (wr_reached w); [|split; [done|by left]]. cbn [negb]. unfold saveQueryCooldownScript, key_epoch, exact_epoch in *.
  destruct (key ≫= _) as [stored|] eqn:Hk; [destruct (Z.ltb_spec (OwnerEpoch (wr_fence w)) stored)|];
    cbn [fst mbind option_bind default stored_text]; rewrite ?Hk, ?He; simpl; split; try lia; eauto.
Qed.

(** The epoch of the record kept only grows: whatever owners write, in whatever
    order and with whatever failures, an owner older than the record's leaves it as
    it is. *)
Lemma epochs_grow key ws :
  Forall own_record ws →
  key_epoch key ≤ key_epoch (foldl write_key key ws) ∧
  ∀ w, own_record w → OwnerEpoch (wr_fence w) < key_epoch (foldl write_key key ws) → write_key (foldl write_key key ws) w = foldl write_key key ws.
Proof.
  intros Hws. split.
  - revert key. induction Hws as [|w ws Hw Hws IH]; intros key; [done|]. cbn [foldl]. pose proof (proj1 (write_epoch key w Hw)). specialize (IH (write_key key w)). lia.
  - intros w Hw Hlt. destruct (write_epoch (foldl write_key key ws) w Hw) as [Hle [Heq|[Heq _]]]; [done|]. lia.
Qed.

(** A record is read as it was written until its seven days are over, which its last
    write begins anew; then there is none. *)
Lemma read_within_lifetime elapsed reached group key :
  LoadQueryCooldown reached group (key_after elapsed key)
  = match key with
    | Some value => if elapsed <? stored_lifetime value then LoadQueryCooldown reached group key else LoadQueryCooldown reached group None
    | None => LoadQueryCooldown reached group None
    end.
Proof. destruct key as [value|]; [|done]. unfold key_after. cbn [mbind option_bind]. by case_match. Qed.

Lemma saved_lives fence record key elapsed :
  (SaveQueryCooldown true fence record key).2 = SaveWritten → elapsed < 604800000 →
  is_Some (key_after elapsed (SaveQueryCooldown true fence record key).1).
Proof.
  unfold SaveQueryCooldown. destruct (marshal_record record) as [s|]; [|done]. cbn [negb]. unfold saveQueryCooldownScript.
  intros Hw Hlt. assert ((elapsed <? queryCooldownRecordTTL `quot` Millisecond) = true) as Hl by by apply Z.ltb_lt.
  destruct (key ≫= _) as [stored|]; [destruct (OwnerEpoch fence <? stored)|]; unfold key_after; cbn [fst snd mbind option_bind stored_lifetime] in *; by rewrite ?Hl.
Qed.

(** ** A restart *)

(** The writes a Runner made, oldest first, each accepted. *)
Definition accept (fence : OwnerFence) (key : option StoredValue) (r : QueryCooldownRecord) : option (option StoredValue) :=
  match SaveQueryCooldown true fence r key with (key, SaveWritten) => Some key | _ => None end.

Definition persist (fence : OwnerFence) (rs : list QueryCooldownRecord) (key : option StoredValue) : option (option StoredValue) :=
  foldr (λ r key, key ≫= λ key, accept fence key r) (Some key) rs.

Definition clear_saved (p : Pool) : Pool :=
  mkPool (queryGroup p) (queryCooldown p) (cooldownMemory p) (cooldownStore p) (cooldownLoaded p) (cooldownFence p) (attempting p) (emitted p) [].

(** One event of the pool, and its writes. *)
Definition kept_event (pk : option (Pool * option StoredValue)) (e : PoolEvent) : option (Pool * option StoredValue) :=
  '(p, key) ← pk;
  let p := pool_event p e in
  key ← persist (cooldownFence p) (saved p) key;
  Some (clear_saved p, key).

(** A Runner of an owner takes the Query Group over: it reads the record, then lives
    through the events. *)
Definition take_over (group : string) (fence : OwnerFence) (key : option StoredValue) : Pool :=
  restoreQueryCooldown fence (LoadQueryCooldown true group key) (new_pool group true).

Definition live (p : Pool) (key : option StoredValue) (es : list PoolEvent) : option (Pool * option StoredValue) :=
  foldl kept_event (Some (p, key)) es.

(** The record agrees with the pool on who is in it and why. *)
Definition agrees (r : QueryCooldownRecord) (p : Pool) : Prop :=
  rec_Until r = until (queryCooldown p) ∧ rec_Failures r = failures (queryCooldown p) ∧ rec_QueryRevision r = queryRevision (queryCooldown p) ∧
  rec_ScheduleRevision r = scheduleRevision (queryCooldown p) ∧ rec_SegmentStart r = segmentStart (queryCooldown p) ∧ rec_QueryGroup r = queryGroup p.

(** What the key holds stands for the pool: the record of its membership, or none. *)
Definition recorded (p : Pool) (key : option StoredValue) : Prop :=
  match until (queryCooldown p) with
  | Some _ => ∃ r, LoadQueryCooldown true (queryGroup p) key = LoadFound r ∧ agrees r p
  | None => ∀ r, LoadQueryCooldown true (queryGroup p) key = LoadFound r → rec_Until r = None
  end.

(** The Runner of an owner that has read the record. *)
Record owned (p : Pool) : Prop := {
  ow_store : cooldownStore p = true;
  ow_loaded : cooldownLoaded p = true;
  ow_epoch : OwnerEpoch (cooldownFence p) ≠ 0;
}.

Lemma accept_loads fence key r key' : accept fence key r = Some key' → LoadQueryCooldown true (rec_QueryGroup r) key' = LoadFound r.
Proof.
  unfold accept, SaveQueryCooldown. destruct (marshal_record r) as [s|] eqn:Hm; [|done]. cbn [negb]. unfold saveQueryCooldownScript.
  assert (LoadQueryCooldown true (rec_QueryGroup r) (Some (mkStored s (queryCooldownRecordTTL `quot` Millisecond))) = LoadFound r) as Hload.
  { unfold LoadQueryCooldown. cbn [negb stored_text]. by rewrite (proj1 (record_text _ _ Hm)), String.eqb_refl. }
  destruct (key ≫= _) as [stored|]; [destruct (OwnerEpoch fence <? stored)|]; simpl; intros Heq; simplify_eq; done.
Qed.

(** What one operation does to the writes: the last of them is of the state it
    leaves, and without one the membership stands. *)
Inductive writes (p : Pool) : Pool → Prop :=
  | writes_none p' : saved p' = saved p → until (queryCooldown p') = None ∧ until (queryCooldown p) = None ∨ (∀ r, agrees r p → agrees r p') ∧ until (queryCooldown p') = until (queryCooldown p) →
      queryGroup p' = queryGroup p → writes p p'
  | writes_one p' r : saved p' = r :: saved p → agrees r p' → queryGroup p' = queryGroup p → writes p p'.

Lemma save_owned p : owned p → saved (saveQueryCooldown p) = record_of p :: saved p.
Proof. intros [Hs Hl He]. unfold saveQueryCooldown. rewrite Hs, Hl, (proj2 (Z.eqb_neq _ _) He). done. Qed.

Lemma emit_saved event p : saved (emitQueryCooldown event p) = saved p.
Proof. unfold emitQueryCooldown. by case_match. Qed.
Lemma emit_owned event p : owned p → owned (emitQueryCooldown event p).
Proof. unfold emitQueryCooldown. case_match. by intros []. Qed.
Lemma save_owned' p : owned p → owned (saveQueryCooldown p).
Proof. unfold saveQueryCooldown. case_match; [done|]. by intros []. Qed.
Lemma state_owned s p : owned p → owned (set_state s p).
Proof. by intros []. Qed.
Lemma memory_owned m p : owned p → owned (set_memory m p).
Proof. by intros []. Qed.

Create HintDb owned.
#[local] Hint Resolve emit_owned save_owned' state_owned memory_owned : owned.

Lemma save_writes p q : owned p → saved p = saved q → queryGroup p = queryGroup q → writes q (saveQueryCooldown p).
Proof.
  intros Ho Es Eg. eapply (writes_one _ _ (record_of p)).
  - rewrite save_owned by done. by rewrite Es.
  - unfold agrees. rewrite save_state, save_group. done.
  - by rewrite save_group.
Qed.

Lemma clear_writes now event p : owned p → writes p (clearQueryCooldown now event p).
Proof.
  intros Ho. unfold clearQueryCooldown. destruct (until (queryCooldown p)) eqn:Hu.
  - apply save_writes; [eauto 12 with owned|by cbn; rewrite emit_saved|by cbn; rewrite emit_group].
  - apply writes_none; [done|by left|done].
Qed.

Lemma clear_owned now event p : owned p → owned (clearQueryCooldown now event p).
Proof. intros Ho. unfold clearQueryCooldown. case_match; eauto 12 with owned. Qed.
#[local] Hint Resolve clear_owned : owned.

Lemma meet_writes clk slot p : owned p → writes p (meetSlot clk slot p) ∧ owned (meetSlot clk slot p).
Proof.
  intros Ho. unfold meetSlot. destruct (_ && _); [split; [by apply clear_writes|by apply clear_owned]|].
  destruct (_ && _); [|split; [apply writes_none; naive_solver|done]]. cbn [until set_schedule]. destruct (until (queryCooldown p)) eqn:Hu.
  - split; [|eauto 12 with owned]. apply save_writes; [eauto with owned|done|done].
  - split; [|eauto with owned]. apply writes_none; [done|by left|done].
Qed.

Lemma wake_agrees r at_ p : agrees r p → agrees r (set_state (set_wakeAt at_ (queryCooldown p)) p).
Proof. done. Qed.

Lemma defer_writes clk slot p : owned p → writes p (deferUnavailableQuery clk slot p).1 ∧ owned (deferUnavailableQuery clk slot p).1.
Proof.
  intros Ho. destruct (meet_writes clk slot p Ho) as [Hw Ho']. unfold deferUnavailableQuery.
  destruct (until (queryCooldown (meetSlot clk slot p))) eqn:Hu; [|done]. destruct (_ || _); [done|]. case_match; [done|]. cbn [fst]. split; [|eauto with owned].
  destruct Hw as [p' Es Hp Eg|p' r Es Ha Eg]; [|by eapply (writes_one _ _ r)]. apply writes_none; [done| |done]. destruct Hp as [[Hn _]|[Ha Hn]]; [congruence|].
  right. split; [|done]. intros r Hr. by apply wake_agrees, Ha.
Qed.

(** The probe kept in memory changes nothing the writes are judged by. *)
Lemma probe_writes probe p p' : writes (set_probe probe p) p' → writes p p'.
Proof. intros [p'' Es Hp Eg|p'' r Es Ha Eg]; [by apply writes_none|by eapply (writes_one _ _ r)]. Qed.

Lemma hold_writes clk interval p q : owned p → saved p = saved q → queryGroup p = queryGroup q →
  writes q (holdQueries clk interval p) ∧ owned (holdQueries clk interval p).
Proof.
  intros Ho Es Eg. unfold holdQueries. destruct (until (queryCooldown p)); (split; [|eauto 12 with owned]);
    (apply save_writes; [eauto 12 with owned|by rewrite emit_saved|by rewrite emit_group]).
Qed.

Lemma record_writes clk slot operation result interval decides p :
  owned p → usable_interval interval = true → (is_Some (until (queryCooldown p)) → unavailableThreshold ≤ failures (queryCooldown p)) →
  writes p (recordQueryAvailability clk slot operation result interval decides p) ∧
  owned (recordQueryAvailability clk slot operation result interval decides p).
Proof.
  intros Ho Hi Hpool. unfold recordQueryAvailability. destruct (_ || _); [split; [apply writes_none; naive_solver|done]|].
  set (p1 := if decides then _ else p). assert (owned p1 ∧ queryCooldown p1 = queryCooldown p ∧ (∀ p', writes p1 p' → writes p p')) as (Ho1 & Es & Hback).
  { subst p1. destruct decides; [|done]. split_and!; [by apply memory_owned|done|]. intros p'. apply probe_writes. }
  rewrite <- Es in Hpool. clearbody p1. destruct (res_Availability result).
  - destruct (until (queryCooldown p1)) as [at_|] eqn:Hu; [|split; [apply Hback, writes_none; naive_solver|done]].
    destruct (_ && _); [|split; [apply Hback, writes_none; naive_solver|done]]. split; [|eauto with owned].
    apply Hback. apply save_writes; [eauto with owned|done|done].
  - split; [|eauto with owned]. apply Hback. pose proof (clear_writes (clk 3%nat) QueryCooldownRecovered (set_state (set_lastQueryAt (Some (clk 2%nat)) (queryCooldown p1)) p1) ltac:(eauto with owned)) as [p' E Hp Eg|p' r E Ha Eg].
    + apply writes_none; [done|exact Hp|done].
    + by eapply (writes_one _ _ r).
  - case_decide; [split; [apply Hback, writes_none; naive_solver|done]|]. rewrite Hi. cbn [negb]. rewrite orb_false_r.
    set (p2 := set_state _ p1). assert (owned p2) as Ho2 by (by apply state_owned).
    destruct (Z.ltb_spec (failures (queryCooldown p2)) unavailableThreshold) as [Hlt|].
    + split; [|done]. apply Hback, writes_none; [done| |done]. left. assert (until (queryCooldown p1) = None) as Hn; [|done].
      destruct (until (queryCooldown p1)) eqn:Hu; [|done]. exfalso. specialize (Hpool ltac:(eauto)).
      subst p2. cbn [queryCooldown set_state failures countFailure] in Hlt. case_match; lia.
    + destruct (hold_writes clk interval p2 p1 Ho2 eq_refl eq_refl). auto.
Qed.

(** The key keeps standing for the pool. *)
Lemma writes_recorded p p' key key' :
  writes p p' → saved p = [] → recorded p key → persist (cooldownFence p') (saved p') key = Some key' → recorded p' key'.
Proof.
  intros [q Es Hp Eg|q r Es Ha Eg] Hnil Hrec Hpersist; rewrite Es, Hnil in Hpersist; cbn [persist foldr mbind option_bind] in Hpersist.
  - injection Hpersist as <-. unfold recorded in *. rewrite Eg. destruct Hp as [[Hn Hn']|[Ha Hu]]; [by rewrite Hn, Hn' in *|].
    rewrite Hu. destruct (until (queryCooldown p)); [|done]. destruct Hrec as (r & ? & ?). eauto.
  - apply accept_loads in Hpersist. pose proof Ha as (Hu&_&_&_&_&Hg). rewrite Hg in Hpersist. unfold recorded.
    destruct (until (queryCooldown q)) eqn:Huq; [eauto|]. intros r' Hr'. rewrite Hpersist in Hr'. injection Hr' as <-. by rewrite Hu.
Qed.

(** What a life of a Runner keeps. *)
Record kept (p : Pool) (key : option StoredValue) : Prop := {
  kp_owned : owned p;
  kp_saved : saved p = [];
  kp_recorded : recorded p key;
  kp_count : is_Some (until (queryCooldown p)) → unavailableThreshold ≤ failures (queryCooldown p);
}.

Lemma meet_count clk slot p :
  (is_Some (until (queryCooldown p)) → unavailableThreshold ≤ failures (queryCooldown p)) →
  is_Some (until (queryCooldown (meetSlot clk slot p))) → unavailableThreshold ≤ failures (queryCooldown (meetSlot clk slot p)).
Proof.
  intros Hp. unfold meetSlot. destruct (_ && _); [rewrite clear_state; by intros []|]. destruct (_ && _); [|done]. cbn [until set_schedule].
  destruct (until (queryCooldown p)) as [was|] eqn:Hu; [|cbn; rewrite Hu; by intros []]. rewrite save_state. cbn [queryCooldown set_state].
  intros _. assert (unavailableThreshold ≤ failures (queryCooldown p)) by eauto. by case_match.
Qed.

Lemma event_count p e :
  (is_Some (until (queryCooldown p)) → unavailableThreshold ≤ failures (queryCooldown p)) →
  is_Some (until (queryCooldown (pool_event p e))) → unavailableThreshold ≤ failures (queryCooldown (pool_event p e)).
Proof.
  intros Hp. destruct e as [clk slot|clk slot operation result interval decides]; cbn [pool_event].
  - pose proof (meet_count clk slot p Hp) as Hm. unfold deferUnavailableQuery. destruct (until (queryCooldown (meetSlot clk slot p))) eqn:Hu; [|cbn [fst]; rewrite Hu; by intros []].
    specialize (Hm ltac:(eauto)). destruct (_ || _); [done|]. by case_match.
  - unfold recordQueryAvailability. destruct (_ || _); [done|]. set (p1 := if decides then _ else p).
    assert (queryCooldown p1 = queryCooldown p) as Es by (subst p1; by destruct decides). rewrite <- Es in Hp. clearbody p1.
    destruct (res_Availability result); [destruct (until (queryCooldown p1)) as [at_|] eqn:Hu; [|by rewrite Hu]| |].
    + case_match; [|by rewrite Hu]. rewrite save_state. intros _. cbn. eauto.
    + rewrite clear_state. by intros [].
    + case_decide; [done|]. destruct (Z.ltb_spec (failures (queryCooldown (set_state (countFailure clk slot result (queryCooldown p1)) p1))) unavailableThreshold) as [Hlt|Hge].
      * cbn [orb]. cbn [queryCooldown set_state failures until countFailure] in *. intros Hin. specialize (Hp Hin). case_match; lia.
      * cbn [orb]. destruct (negb (usable_interval interval)); [done|]. rewrite hold_state. intros _. exact Hge.
Qed.

Lemma event_kept p key e p' key' :
  kept p key → usable_event e → kept_event (Some (p, key)) e = Some (p', key') → kept p' key'.
Proof.
  intros [Ho Hnil Hrec Hcount] Hu Hev. cbn [kept_event mbind option_bind] in Hev.
  assert (writes p (pool_event p e) ∧ owned (pool_event p e)) as [Hw Ho'].
  { destruct e as [clk slot|clk slot operation result interval decides]; cbn [pool_event]; [by apply defer_writes|]. destruct Hu as [_ Hi]. by apply record_writes. }
  destruct (persist _ _ _) as [key''|] eqn:Hpersist; [|done]. cbn [mbind option_bind] in Hev. injection Hev as <- <-. split; [split; [exact (ow_store _ Ho')|exact (ow_loaded _ Ho')|exact (ow_epoch _ Ho')]|done| |].
  - exact (writes_recorded _ _ _ _ Hw Hnil Hrec Hpersist).
  - exact (event_count p e Hcount).
Qed.

Lemma live_kept p key es p' key' :
  kept p key → Forall usable_event es → live p key es = Some (p', key') → kept p' key'.
Proof.
  unfold live. revert p key. induction es as [|e es IH]; intros p key Hk Hu; [by intros [= <- <-]|]. inversion Hu; subst. cbn [foldl].
  destruct (kept_event (Some (p, key)) e) as [[q key1]|] eqn:E.
  - apply IH; [by eapply event_kept|done].
  - intros Hl. assert (foldl kept_event None es = None) as Hnone by (clear; by induction es). congruence.
Qed.

(** A record of a pool was saved with its failures. *)
Definition sound_record (group : string) (key : option StoredValue) : Prop :=
  ∀ r, LoadQueryCooldown true group key = LoadFound r → is_Some (rec_Until r) → unavailableThreshold ≤ rec_Failures r.

Lemma take_over_kept group fence key :
  OwnerEpoch fence ≠ 0 → sound_record group key → kept (take_over group fence key) key.
Proof.
  intros He Hsound. unfold take_over, restoreQueryCooldown. cbn [cooldownLoaded new_pool cooldownStore negb].
  destruct (LoadQueryCooldown true group key) as [r| | |] eqn:Hload.
  - destruct (rec_Until r) as [u|] eqn:Hu.
    + split; [|done| |].
      * apply emit_owned. by split.
      * unfold recorded. rewrite emit_state, emit_group. cbn [queryCooldown set_memory set_state until set_loaded queryGroup new_pool]. exists r. split; [done|].
        unfold agrees. rewrite emit_state, emit_group. cbn. split_and!; try done. unfold LoadQueryCooldown in Hload. cbn [negb] in Hload.
        destruct key; [|done]. destruct (unmarshal_record _); [|done]. destruct (String.eqb_spec (rec_QueryGroup q) group); [|done]. by simplify_eq.
      * rewrite emit_state. cbn. intros _. apply (Hsound r); [done|by rewrite Hu].
    + split; [by split|done| |by intros []]. unfold recorded. cbn [until queryCooldown set_memory set_loaded new_pool no_cooldown queryGroup]. rewrite Hload. by intros r' [= <-].
  - split; [by split|done| |by intros []]. unfold recorded. cbn [until queryCooldown set_memory set_loaded new_pool no_cooldown queryGroup]. by rewrite Hload.
  - split; [by split|done| |by intros []]. unfold recorded. cbn [until queryCooldown set_memory set_loaded new_pool no_cooldown queryGroup]. by rewrite Hload.
  - unfold LoadQueryCooldown in Hload. cbn [negb] in Hload. destruct key; [|done]. by repeat case_match.
Qed.

Lemma live_group group fence key es p key' : live (take_over group fence key) key es = Some (p, key') → queryGroup p = group.
Proof.
  assert (queryGroup (take_over group fence key) = group) as H1.
  { unfold take_over, restoreQueryCooldown. cbn [cooldownLoaded new_pool cooldownStore negb]. repeat case_match; rewrite ?emit_group; done. }
  unfold live. remember (take_over group fence key) as q eqn:Heq. clear Heq. revert q key H1. induction es as [|e es IH]; intros q k Hq; [by intros [= <- _]|]. cbn [foldl].
  destruct (kept_event (Some (q, k)) e) as [[q1 k1]|] eqn:E.
  - apply IH. cbn [kept_event mbind option_bind] in E. destruct (persist _ _ _); [|done]. cbn [mbind option_bind] in E. injection E as <- _.
    rewrite <- Hq. apply event_group.
  - intros Hl. assert (foldl kept_event None es = None) as Hnone by (clear; by induction es). congruence.
Qed.

(** The record reads the same until its lifetime is over. *)
Lemma take_over_later group fence key elapsed :
  (∀ value, key = Some value → elapsed < stored_lifetime value) → take_over group fence (key_after elapsed key) = take_over group fence key.
Proof.
  intros Hlife. unfold take_over. rewrite read_within_lifetime. destruct key as [value|]; [|done].
  by rewrite (proj2 (Z.ltb_lt _ _) (Hlife value eq_refl)).
Qed.

(** A Slot outside the pool is not held, and the answer is a matter of the state. *)
Lemma defer_outside clk slot p : until (queryCooldown p) = None → (deferUnavailableQuery clk slot p).2 = false.
Proof.
  intros Hn. destruct (deferUnavailableQuery clk slot p) as [q []] eqn:E; [|done]. apply defer_held in E as (at_ & Hu & _).
  apply meet_until in Hu as (was & Hwas & _). congruence.
Qed.

Lemma meet_same clk slot p q :
  until (queryCooldown p) = until (queryCooldown q) → failures (queryCooldown p) = failures (queryCooldown q) →
  queryRevision (queryCooldown p) = queryRevision (queryCooldown q) → scheduleRevision (queryCooldown p) = scheduleRevision (queryCooldown q) →
  segmentStart (queryCooldown p) = segmentStart (queryCooldown q) →
  until (queryCooldown (meetSlot clk slot p)) = until (queryCooldown (meetSlot clk slot q)).
Proof.
  intros Eu Ef Eq Es Ess. unfold meetSlot. rewrite Ef, Eq, Es, Ess. destruct (_ && _); [by rewrite !clear_state|]. destruct (_ && _); [|done].
  cbn [until set_schedule]. rewrite Eu. destruct (until (queryCooldown q)) eqn:Hu; [rewrite !save_state|]; cbn; [|by rewrite Eu, Hu].
  case_match; cbn; congruence.
Qed.

Lemma defer_same clk slot p q :
  until (queryCooldown p) = until (queryCooldown q) → failures (queryCooldown p) = failures (queryCooldown q) →
  queryRevision (queryCooldown p) = queryRevision (queryCooldown q) → scheduleRevision (queryCooldown p) = scheduleRevision (queryCooldown q) →
  segmentStart (queryCooldown p) = segmentStart (queryCooldown q) → attempting p = attempting q →
  (deferUnavailableQuery clk slot p).2 = (deferUnavailableQuery clk slot q).2.
Proof.
  intros Eu Ef Eq Es Ess Ea. pose proof (meet_same clk slot p q Eu Ef Eq Es Ess) as Em. unfold deferUnavailableQuery. rewrite Em, !meet_attempting, Ea.
  by repeat case_match.
Qed.

(** The next owner, reading at once. *)
Lemma restart_same group fence fence' key es p key' :
  OwnerEpoch fence ≠ 0 → sound_record group key → Forall usable_event es →
  live (take_over group fence key) key es = Some (p, key') →
  until (queryCooldown (take_over group fence' key')) = until (queryCooldown p) ∧
  (queryCooldownLetsRun p = true → failures (queryCooldown (take_over group fence' key')) = failures (queryCooldown p)) ∧
  (∀ clk slot, attempting p = false →
    (deferUnavailableQuery clk slot (take_over group fence' key')).2 = (deferUnavailableQuery clk slot p).2).
Proof.
  intros He Hsound Hu Hlive. destruct (live_kept _ _ _ _ _ (take_over_kept group fence key He Hsound) Hu Hlive) as [_ _ Hrec _].
  assert (queryGroup p = group) as Hg by (by eapply live_group).
  unfold recorded in Hrec. rewrite Hg in Hrec. unfold queryCooldownLetsRun. destruct (until (queryCooldown p)) as [u|] eqn:Hu'.
  - destruct Hrec as (r & Hload & Hagrees). destruct Hagrees as (Eu & Ef & Eq & Es & Ess & _). rewrite Hu' in Eu.
    assert (take_over group fence' key' = emitQueryCooldown QueryCooldownRestored (set_memory
      (mkCooldownMemory (rec_EnteredAt r) QueryCooldownRestored (rec_ExitedAt r) (rec_ExitReason r) (rec_Reentries r) (rec_LastProbe r))
      (set_state (mkCooldown (rec_Failures r) (mkSlot "" 0) (rec_QueryRevision r) (rec_ScheduleRevision r) (rec_SegmentStart r) (rec_Until r) None
        (rec_LastQueryAt r) (rec_Reason r) (rec_Timeouts r) (rec_FirstTimeoutAt r)) (set_loaded true fence' (new_pool group true))))) as ->.
    { unfold take_over, restoreQueryCooldown. cbn [cooldownLoaded new_pool cooldownStore negb]. by rewrite Hload, Eu. }
    rewrite emit_state. cbn [queryCooldown set_memory set_state until failures]. split_and!; [done|by intros _|].
    intros clk slot Ha. apply defer_same; rewrite ?emit_state, ?emit_attempting; cbn; try done; congruence.
  - assert (queryCooldown (take_over group fence' key') = no_cooldown) as E.
    { unfold take_over, restoreQueryCooldown. cbn [cooldownLoaded new_pool cooldownStore negb].
      destruct (LoadQueryCooldown true group key') as [r| | |] eqn:Hload; try done. by rewrite (Hrec r eq_refl). }
    rewrite E. split_and!; [done|by rewrite bool_decide_eq_false_2 by (by intros [])|].
    intros clk slot Ha. rewrite !defer_outside; [done|done|by rewrite E].
Qed.

(** C14: A restart or a change of owner keeps the pool: after any life of an owner whose
    writes were accepted, the next owner takes the Query Group over in the pool exactly
    when the first left it there, with the same cooldown, failures and query, and its
    first answer on every Slot is the one the first would have given. That is so whenever
    it takes over before the record's lifetime is over. *)
Theorem restart_keeps_pool group fence fence' key es p key' :
  OwnerEpoch fence ≠ 0 → sound_record group key → Forall usable_event es →
  live (take_over group fence key) key es = Some (p, key') →
  until (queryCooldown (take_over group fence' key')) = until (queryCooldown p) ∧
  (queryCooldownLetsRun p = true → failures (queryCooldown (take_over group fence' key')) = failures (queryCooldown p)) ∧
  (∀ clk slot, attempting p = false →
    (deferUnavailableQuery clk slot (take_over group fence' key')).2 = (deferUnavailableQuery clk slot p).2) ∧
  ∀ elapsed, (∀ value, key' = Some value → elapsed < stored_lifetime value) →
    take_over group fence' (key_after elapsed key') = take_over group fence' key'.
Proof.
  intros He Hsound Hu Hlive. destruct (restart_same _ _ fence' _ _ _ _ He Hsound Hu Hlive) as (Huntil & Hfailures & Hdefer).
  split_and!; [done..|]. intros elapsed. apply take_over_later.
Qed.
End store.
