(* ===== verification/RunnerRound.v ===== *)
(** One round of a Runner (scheduler/runtime.go, runOneTracked): from its flight to
    the execution of at most one frozen Slot, with the gates between. *)
From S2P Require Import Prelude GoHash Reason QueryPermits Runner QueryCooldown.

Open Scope Z_scope.

(** ** Flights

    One Query Group's flight is held by one holder at a time. *)
Definition FlightHeldBySlot : string := "slot".
Definition FlightHeldBySupplement : string := "supplement".
Definition FlightHeldByMaintenance : string := "maintenance".

Record flightHold : Type := mkHold {
  holder : string;
  turnedAway : bool;
}.

Definition Flights : Type := gmap string flightHold.

(** [tryAcquireAs]: the flight is taken, or what holds it is told. *)
Definition tryAcquireAs (group held_by : string) (active : Flights) : Flights * option string :=
  match active !! group with
  | Some hold =>
      (if (held_by =? FlightHeldBySlot)%string && negb (holder hold =? FlightHeldBySlot)%string && negb (turnedAway hold)
       then <[group := mkHold (holder hold) true]> active else active,
       Some (holder hold))
  | None => (<[group := mkHold held_by false]> active, None)
  end.

(** The release it returns; the answer is whether the turned-away Slot is told. *)
Definition releaseFlight (group : string) (active : Flights) : Flights * bool :=
  (delete group active, match active !! group with Some hold => turnedAway hold | None => false end).

(** ** What a round is answered *)

Record SlotDueFacts : Type := mkDueFacts {
  df_NotDueUntilUnix : Z;
  df_IntervalSeconds : Z;
  df_Retired : bool;
}.

(** [Next]'s answer: a due Slot, none, or an error by what it is. *)
Inductive NextAnswer : Type :=
  | NextDue (slot : FrozenSlot)
  | NextNotDue
  | NextNotExecutable (RetryWithin : Z)
  | NextRetry
  | NextBlocked (word : string)
  | NextFailed.

(** The request a round executes; [rq_normalBudget] is [WithNormalQueryBudget]. *)
Record SlotExecutionRequest : Type := mkRequest {
  rq_Slot : FrozenSlot;
  rq_ReplayExpired : bool;
  rq_Operation : Operation;
  rq_AttemptNo : Z;
  rq_OwnerFence : OwnerFence;
  rq_normalBudget : bool;
}.

(** [Execute]'s answer: a result, or an error by what it is; [ExecuteBacksOff] is an
    error [executionErrorBacksOff] counts. *)
Inductive ExecuteAnswer : Type :=
  | Executed (result : SlotExecutionResult)
  | ExecuteNotExecutable (RetryWithin : Z)
  | ExecuteDeferred (ReadinessReadyAt : Z)
  | ExecuteBacksOff
  | ExecuteCancelled.

(** An admission's answer: refused, or let through, with what gives it back or, of an
    admission that broke its contract, without. *)
Inductive AdmissionAnswer : Type :=
  | AdmissionDenied
  | AdmissionReleased
  | AdmissionWithoutRelease.

(** What the round's surroundings answer: its context, the session asked twice, the
    cooldown's store, the source, the checks of the Slot and of the request, the
    admission when there is one, and the executor. *)
Record Surroundings : Type := mkSurroundings {
  sr_cancelled : bool;
  sr_fence : option OwnerFence;
  sr_load : LoadAnswer;
  sr_next : bool → NextAnswer * SlotDueFacts;
  sr_slotValid : FrozenSlot → bool;
  sr_fenceAgain : option OwnerFence;
  sr_requestValid : SlotExecutionRequest → bool;
  sr_admission : option (Operation → AdmissionAnswer);
  sr_execute : SlotExecutionRequest → ExecuteAnswer;
}.

(** ** The Runner *)

Inductive DueVerdict : Type :=
  | DueVerdictUnknown
  | DueVerdictDue
  | DueVerdictNotDue.

Record RunnerDueBound : Type := mkDueBound {
  NotDueUntilUnix : Z;
  IntervalSeconds : Z;
  Deferred : bool;
  QueryCooldown : bool;
  Retired : bool;
  bound_Executed : bool;
  Verdict : DueVerdict;
}.

Record Runner : Type := mkRunner {
  rn_pool : Pool;
  rn_attempt : option recoveryAttempt;
  sourceFailures : Z;
  sourceNextAt : option Z;
  nextDeadline : option Z;
  dueBound : RunnerDueBound;
}.

Definition no_bound : RunnerDueBound := mkDueBound 0 0 false false false false DueVerdictUnknown.

Definition NewRunner (group : string) (store : bool) : Runner := mkRunner (new_pool group store) None 0 None None no_bound.

Definition set_pool (p : Pool) (r : Runner) : Runner := mkRunner p (rn_attempt r) (sourceFailures r) (sourceNextAt r) (nextDeadline r) (dueBound r).
Definition set_attempt (a : option recoveryAttempt) (r : Runner) : Runner := mkRunner (rn_pool r) a (sourceFailures r) (sourceNextAt r) (nextDeadline r) (dueBound r).
Definition set_source (n : Z) (at_ : option Z) (r : Runner) : Runner := mkRunner (rn_pool r) (rn_attempt r) n at_ (nextDeadline r) (dueBound r).
Definition set_deadline (at_ : option Z) (r : Runner) : Runner := mkRunner (rn_pool r) (rn_attempt r) (sourceFailures r) (sourceNextAt r) at_ (dueBound r).
Definition set_bound (b : RunnerDueBound) (r : Runner) : Runner := mkRunner (rn_pool r) (rn_attempt r) (sourceFailures r) (sourceNextAt r) (nextDeadline r) b.

Definition group_of_runner (r : Runner) : string := queryGroup (rn_pool r).

Definition NextReadyAt (r : Runner) : option Z :=
  match rn_attempt r with
  | Some a => if After (at_nextAt a) (sourceNextAt r) then at_nextAt a else sourceNextAt r
  | None => sourceNextAt r
  end.

Definition Unix (at_ : Z) : Z := at_ `div` Second.
Definition runnerBoundSecond (at_ : option Z) : Z := match at_ with Some at_ => Unix at_ | None => 0 end.

(** [recordDueBound]: the decision of a round as the bound a dispatcher acts on. *)
Definition recordDueBound (decision : string) (facts : SlotDueFacts) (r : Runner) : Runner :=
  let ready := runnerBoundSecond (NextReadyAt r) in
  let interval := df_IntervalSeconds facts in
  set_bound
    (if (decision =? "source_not_due")%string then mkDueBound (df_NotDueUntilUnix facts) interval false false (df_Retired facts) false DueVerdictNotDue
     else if (decision =? "source_backoff")%string then mkDueBound ready interval true false false false DueVerdictNotDue
     else if bool_decide (decision ∈ ["source_retry"; "source_blocked"; "view_not_executable"]%string) then mkDueBound ready interval true false false false DueVerdictUnknown
     else if (decision =? "query_readiness_deferred")%string then mkDueBound ready interval true false false true DueVerdictDue
     else if (decision =? "query_cooldown")%string then mkDueBound (runnerBoundSecond (wakeAt (queryCooldown (rn_pool r)))) interval false true false false DueVerdictDue
     else if bool_decide (decision ∈ ["execute"; "execution_returned"; "operation_not_ready"; "admission_denied"]%string)
     then match NextReadyAt r with
          | Some _ => mkDueBound ready interval true false false true DueVerdictDue
          | None => mkDueBound 0 interval false false false true DueVerdictDue
          end
     else mkDueBound 0 interval false false false false DueVerdictUnknown) r.

(** [NextDeadline] *)
Definition NextDeadline (now : Z) (r : Runner) : option Z :=
  match nextDeadline r with
  | Some at_ => Some at_
  | None =>
      let b := dueBound r in
      if (IntervalSeconds b <=? 0) || Retired b then None
      else if match Verdict b with DueVerdictNotDue => true | _ => false end && negb (Deferred b) && (0 <? NotDueUntilUnix b)
      then Some ((NotDueUntilUnix b + IntervalSeconds b) * Second)
      else Some (now + i64 (IntervalSeconds b * Second))
  end.

(** ** The round *)

Record RoundAnswer : Type := mkRoundAnswer {
  decision : string;
  attempted : bool;
  requested : option SlotExecutionRequest;
}.

(** The Query Group waits out its source: one more failure, and its backoff. *)
Definition backOffSource (l : RecoveryLimits) (now : Z) (r : Runner) : Runner :=
  let n := u32 (sourceFailures r + 1) in set_source n (Some (now + retryDelay l (group_of_runner r) n)) r.

Definition refuseViewNotExecutable (l : RecoveryLimits) (now RetryWithin : Z) (r : Runner) : Runner :=
  let n := u32 (sourceFailures r + 1) in
  let delay := retryDelay l (group_of_runner r) n in
  set_source n (Some (now + (if (0 <? RetryWithin) && (RetryWithin <? delay) then RetryWithin else delay))) r.

Section round.
Variables (recoveryOn : bool) (l : RecoveryLimits) (clk : nat → Z).

(** What a result or an error of the executor does to the Runner. *)
Definition afterExecute (s : Surroundings) (slot : FrozenSlot) (request : SlotExecutionRequest) (facts : SlotDueFacts) (r : Runner) : Runner * string :=
  match sr_execute s request with
  | ExecuteNotExecutable within => (refuseViewNotExecutable l (clk 6%nat) within r, "view_not_executable"%string)
  | ExecuteDeferred readyAt => (if clk 6%nat <? readyAt then set_source (sourceFailures r) (Some readyAt) r else r,
                                if clk 6%nat <? readyAt then "query_readiness_deferred"%string else "execution_returned"%string)
  | ExecuteBacksOff => (set_attempt (recordExecutionFailure recoveryOn l (group_of_runner r) (rn_attempt r) slot (clk 6%nat)) r, "execution_returned"%string)
  | ExecuteCancelled => (r, "execution_returned"%string)
  | Executed result =>
      let r := set_attempt (recordResult recoveryOn l (group_of_runner r) (rn_attempt r) slot result (clk 6%nat)) (set_deadline None r) in
      (set_pool (recordQueryAvailability (λ reading, clk (7 + reading)%nat) slot (rq_Operation request) result (df_IntervalSeconds facts) (rq_normalBudget request) (rn_pool r)) r,
       "execution_returned"%string)
  end.

(** A due Slot that passed its checks: the cooldown, the attempt's turn, the session
    asked again, the request, the admission, the executor. *)
Definition runSlot (s : Surroundings) (slot : FrozenSlot) (facts : SlotDueFacts) (r : Runner) : Runner * RoundAnswer :=
  let r := set_deadline (Some (FromUnixMilli (EarliestQueryDeadlineUnixMilli slot))) r in
  let '(p, held) := deferUnavailableQuery (λ reading, clk (16 + reading)%nat) slot (set_attempting (bool_decide (is_Some (rn_attempt r))) (rn_pool r)) in
  let r := set_pool p r in
  if held then (r, mkRoundAnswer "query_cooldown" false None)
  else
    let '(attempt, (operation, ready)) := operationFor recoveryOn (rn_attempt r) slot (clk 3%nat) in
    let r := set_attempt attempt r in
    if negb ready then (r, mkRoundAnswer "operation_not_ready" false None)
    else
      match sr_fenceAgain s with
      | None => (r, mkRoundAnswer "ownership_rejected" false None)
      | Some fence =>
          if negb (bool_decide (fence = Dispatch_OwnerFence slot)) then (r, mkRoundAnswer "ownership_rejected" false None)
          else
            let request := mkRequest slot (Disposition (Recovery slot) =? ReplayExpired)%string operation (attemptNo (rn_attempt r) slot) fence
              (queryCooldownLetsRun (rn_pool r)) in
            if negb (sr_requestValid s request) then (r, mkRoundAnswer "source_next" false None)
            else
              match default AdmissionReleased ((λ admission, admission operation) <$> sr_admission s) with
              | AdmissionDenied => (r, mkRoundAnswer "admission_denied" false None)
              | AdmissionWithoutRelease => (r, mkRoundAnswer "source_next" false None)
              | AdmissionReleased => let '(r, word) := afterExecute s slot request facts r in (r, mkRoundAnswer word true (Some request))
              end
      end.

(** Under the flight. *)
Definition runHeld (s : Surroundings) (r : Runner) : Runner * RoundAnswer * SlotDueFacts :=
  let none := mkDueFacts 0 0 false in
  if match sourceNextAt r with Some at_ => clk 0%nat <? at_ | None => false end then (r, mkRoundAnswer "source_backoff" false None, none)
  else
    match sr_fence s with
    | None => (r, mkRoundAnswer "ownership_rejected" false None, none)
    | Some fence =>
        let r := set_pool (restoreQueryCooldown fence (sr_load s) (rn_pool r)) r in
        let '(answer, facts) := sr_next s (queryCooldownHolds (clk 1%nat) (rn_pool r)) in
        match answer with
        | NextNotExecutable within => (refuseViewNotExecutable l (clk 2%nat) within r, mkRoundAnswer "view_not_executable" true None, facts)
        | NextRetry => (backOffSource l (clk 2%nat) r, mkRoundAnswer "source_retry" true None, facts)
        | NextBlocked _ => (backOffSource l (clk 2%nat) r, mkRoundAnswer "source_blocked" true None, facts)
        | NextFailed => (r, mkRoundAnswer "source_error" false None, facts)
        | NextNotDue => (set_deadline None (set_attempt None r), mkRoundAnswer "source_not_due" false None, facts)
        | NextDue slot =>
            let r := set_source 0 None r in
            if negb (sr_slotValid s slot) then (r, mkRoundAnswer "source_next" false None, facts)
            else let '(r, answer) := runSlot s slot facts r in (r, answer, facts)
        end
    end.

(** [runOneTracked]: the flight is held for the round and given back after it, and
    every round rewrites the bound. *)
Definition runOne (s : Surroundings) (active : Flights) (r : Runner) : Runner * Flights * RoundAnswer :=
  let none := mkDueFacts 0 0 false in
  if sr_cancelled s then (recordDueBound "cancelled" none r, active, mkRoundAnswer "cancelled" false None)
  else
    match tryAcquireAs (group_of_runner r) FlightHeldBySlot active with
    | (active, Some _) => (recordDueBound "single_flight_busy" none r, active, mkRoundAnswer "single_flight_busy" false None)
    | (active, None) =>
        let '(r, answer, facts) := runHeld s r in
        (recordDueBound (decision answer) facts r, (releaseFlight (group_of_runner r) active).1, answer)
    end.
End round.
