(* ===== verification/RunnerSpec.v ===== *)
(** What a Runner promises: the bounds of its backoff, when a round executes, and that
    a Slot that failed is not run again before its backoff. *)
From Stdlib Require Import Ascii.
From S2P Require Import Prelude GoHash Reason QueryPermits Runner QueryCooldown QueryCooldownSpec.
From S2P Require Import QueryCooldownStore RunnerRound.

Open Scope Z_scope.

(** ** The backoff *)

Lemma doubled_spec n limit delay :
  0 < delay ≤ limit → limit < 2 ^ 61 → doubled n limit delay = Z.min limit (delay * 2 ^ Z.of_nat n).
Proof.
  revert delay. induction n as [|n IH]; intros delay Hd Hc; cbn [doubled]; [simpl; lia|].
  rewrite Nat2Z.inj_succ, Z.pow_succ_r by lia. assert (1 ≤ 2 ^ Z.of_nat n) by (apply Z.lt_pred_le, Z.pow_pos_nonneg; lia).
  destruct (Z.ltb_spec delay limit) as [Hlt|Hge]; [|assert (delay ≤ delay * 2 ^ Z.of_nat n) by nia; nia].
  pose proof (Z.quot_div_nonneg limit 2 ltac:(lia) ltac:(lia)) as Hq.
  pose proof (Z.mod_pos_bound limit 2 ltac:(lia)). pose proof (Z.div_mod limit 2 ltac:(lia)).
  destruct (Z.ltb_spec (limit `quot` 2) delay) as [Hhalf|Hhalf]; rewrite Hq in Hhalf.
  - assert (limit ≤ delay * 2) by lia. nia.
  - rewrite i64_id by go_lia. rewrite IH by lia. f_equal. ring.
Qed.

(** The backoff before its jitter. *)
Definition retry_base (l : RecoveryLimits) (failures : Z) : Z :=
  Z.min (RetryMaxDelay l) (RetryMinDelay l * 2 ^ Z.max 0 (failures - 1)).

Lemma limits_delays l : RecoveryLimits_Validate l = true → 0 < RetryMinDelay l ≤ RetryMaxDelay l.
Proof. unfold RecoveryLimits_Validate. intros Hl. apply negb_true_iff in Hl. repeat (apply orb_false_iff in Hl as [Hl ?]). breflect. lia. Qed.

(** The backoff of a Runner starts at the least delay, doubles with every failure up
    to the greatest, spreads by at most a quarter, and is never past the greatest. *)
Lemma retryDelay_spec l group n :
  RecoveryLimits_Validate l = true → RetryMaxDelay l < 2 ^ 61 →
  retry_base l n ≤ retryDelay l group n ≤ Z.min (RetryMaxDelay l) (retry_base l n + retry_base l n / 4) ∧ RetryMinDelay l ≤ retry_base l n.
Proof.
  intros Hl%limits_delays Hmax. unfold retryDelay. rewrite doubled_spec by lia. rewrite ZifyInst.of_nat_to_nat_eq. fold (retry_base l n).
  assert (RetryMinDelay l ≤ retry_base l n ≤ RetryMaxDelay l) as Hbase.
  { unfold retry_base. assert (1 ≤ 2 ^ Z.max 0 (n - 1)) by (apply Z.lt_pred_le, Z.pow_pos_nonneg; lia).
    split; [apply Z.min_glb; [lia|nia]|apply Z.le_min_l]. }
  assert (0 ≤ retry_base l n / 4) by (apply Z.div_pos; lia).
  destruct (_ || _); [lia|]. rewrite Z.quot_div_nonneg by lia. case_match; breflect; [lia|].
  set (hash := fnv32a _). pose proof (Z.mod_pos_bound hash (retry_base l n / 4 + 1) ltac:(lia)).
  assert (retry_base l n / 4 ≤ retry_base l n) by (apply Z.div_le_upper_bound; lia).
  rewrite i64_id by go_lia. destruct (Z.ltb_spec (RetryMaxDelay l) (retry_base l n + hash mod (retry_base l n / 4 + 1))); lia.
Qed.

(** ** When a round executes *)

(** The pool as a round meets its Slot: read back from the store, and told whether the
    Runner has an attempt. *)
Definition round_pool (s : Surroundings) (r : Runner) (fence : OwnerFence) : Pool := restoreQueryCooldown fence (sr_load s) (rn_pool r).
Definition meeting_pool (s : Surroundings) (r : Runner) (fence : OwnerFence) : Pool :=
  set_attempting (bool_decide (is_Some (rn_attempt r))) (round_pool s r fence).

(** What held when the executor was asked. *)
Record gates (recoveryOn : bool) (clk : nat → Z) (s : Surroundings) (active : Flights) (r : Runner) (request : SlotExecutionRequest) (fence : OwnerFence) : Prop := {
  gt_context : sr_cancelled s = false;
  gt_flight : active !! group_of_runner r = None;
  gt_source : ∀ at_, sourceNextAt r = Some at_ → at_ ≤ clk 0%nat;
  gt_fence : sr_fence s = Some fence;
  gt_due : (sr_next s (queryCooldownHolds (clk 1%nat) (round_pool s r fence))).1 = NextDue (rq_Slot request);
  gt_again : sr_fenceAgain s = Some (rq_OwnerFence request) ∧ rq_OwnerFence request = Dispatch_OwnerFence (rq_Slot request);
  gt_valid : sr_slotValid s (rq_Slot request) = true ∧ sr_requestValid s request = true;
  gt_admitted : ∀ admission, sr_admission s = Some admission → admission (rq_Operation request) = AdmissionReleased;
  gt_held : (deferUnavailableQuery (λ reading, clk (16 + reading)%nat) (rq_Slot request) (meeting_pool s r fence)).2 = false;
  gt_budget : rq_normalBudget request =
    queryCooldownLetsRun (deferUnavailableQuery (λ reading, clk (16 + reading)%nat) (rq_Slot request) (meeting_pool s r fence)).1;
  gt_operation : (operationFor recoveryOn (rn_attempt r) (rq_Slot request) (clk 3%nat)).2 = (rq_Operation request, true);
}.

Lemma runSlot_requests recoveryOn l clk s slot facts r r' answer request :
  runSlot recoveryOn l clk s slot facts r = (r', answer) → requested answer = Some request →
  rq_Slot request = slot ∧ sr_fenceAgain s = Some (rq_OwnerFence request) ∧ rq_OwnerFence request = Dispatch_OwnerFence slot ∧
  sr_requestValid s request = true ∧ (∀ admission, sr_admission s = Some admission → admission (rq_Operation request) = AdmissionReleased) ∧
  let p := set_attempting (bool_decide (is_Some (rn_attempt r))) (rn_pool r) in
  (deferUnavailableQuery (λ reading, clk (16 + reading)%nat) slot p).2 = false ∧
  rq_normalBudget request = queryCooldownLetsRun (deferUnavailableQuery (λ reading, clk (16 + reading)%nat) slot p).1 ∧
  (operationFor recoveryOn (rn_attempt r) slot (clk 3%nat)).2 = (rq_Operation request, true).
Proof.
  unfold runSlot. cbn [rn_pool rn_attempt set_deadline]. destruct (deferUnavailableQuery _ _ _) as [p held] eqn:Hd. destruct held; [by intros [= _ <-]|].
  cbn [rn_attempt set_pool set_deadline]. destruct (operationFor _ _ _ _) as [a [operation ready]] eqn:Hop. destruct ready; cbn [negb]; [|by intros [= _ <-]].
  destruct (sr_fenceAgain s) as [fence|] eqn:Hf; [|by intros [= _ <-]]. destruct (negb (bool_decide (fence = _))) eqn:Hsame; [by intros [= _ <-]|].
  breflect. set (rq := mkRequest _ _ _ _ _ _). destruct (sr_requestValid s rq) eqn:Hv; cbn [negb]; [|by intros [= _ <-]].
  destruct (default AdmissionReleased _) eqn:Hanswer; [by intros [= _ <-]| |by intros [= _ <-]]. destruct (afterExecute _ _ _ _ _ _ _ _) as [r1 word].
  intros [= _ <-]. cbn [requested]. intros [= <-]. split_and!; try done. intros admission Ha. by rewrite Ha in Hanswer.
Qed.

(** No round changes the Query Group. *)
Lemma afterExecute_group recoveryOn l clk s slot request facts r :
  group_of_runner (afterExecute recoveryOn l clk s slot request facts r).1 = group_of_runner r.
Proof.
  unfold afterExecute, group_of_runner. destruct (sr_execute s request) as [result| | | |]; try done; [|by case_match].
  apply (event_group (rn_pool r) (Answers _ slot (rq_Operation request) result (df_IntervalSeconds facts) (rq_normalBudget request))).
Qed.

Lemma runSlot_group recoveryOn l clk s slot facts r : group_of_runner (runSlot recoveryOn l clk s slot facts r).1 = group_of_runner r.
Proof.
  unfold runSlot. cbn [rn_pool rn_attempt set_deadline].
  pose proof (event_group (set_attempting (bool_decide (is_Some (rn_attempt r))) (rn_pool r)) (Meets (λ reading, clk (16 + reading)%nat) slot)) as Hd.
  cbn [pool_event] in Hd. destruct (deferUnavailableQuery _ _ _) as [q held]. cbn [fst] in Hd.
  change (queryGroup (set_attempting _ (rn_pool r))) with (group_of_runner r) in Hd. destruct held; [done|].
  destruct (operationFor _ _ _ _) as [a [operation ready]]. destruct (negb ready); [done|]. destruct (sr_fenceAgain s) as [fence|]; [|done].
  destruct (negb _); [done|]. destruct (negb _); [done|]. destruct (default AdmissionReleased _); [done| |done];
    match goal with |- context [afterExecute ?a ?b ?c ?d ?e ?f ?g ?h] => pose proof (afterExecute_group a b c d e f g h) as Ha; destruct (afterExecute a b c d e f g h) end;
    cbn [fst] in *; rewrite Ha; exact Hd.
Qed.

Lemma runHeld_group recoveryOn l clk s r : group_of_runner (runHeld recoveryOn l clk s r).1.1 = group_of_runner r.
Proof.
  unfold runHeld. destruct (sourceNextAt r) as [at_|]; [destruct (clk 0%nat <? at_); [done|]|];
    (destruct (sr_fence s) as [fence|]; [|done]); pose proof (restore_group fence (sr_load s) (rn_pool r)) as Hr;
    (destruct (sr_next s _) as [[slot| | | | |] facts]; try exact Hr); (destruct (negb _); [exact Hr|]);
    match goal with |- context [runSlot ?a ?b ?c ?d ?e ?f ?g] => pose proof (runSlot_group a b c d e f g) as Hs; destruct (runSlot a b c d e f g) end;
    cbn [fst] in *; rewrite Hs; exact Hr.
Qed.

(** C34: A round executes a Slot only through every gate: its context lives, its Query
    Group's flight was free, its source's backoff and the Slot's attempt are due, the
    session confirms the owner before and after the source and it is the Slot's, the
    cooldown does not hold the Slot, and the operation is admitted with what releases it; it runs on a normal
    round's budget exactly when the pool let it through. Whatever the round did, the
    flight is given back. *)
Theorem round_executes recoveryOn l clk s active r r' active' answer :
  runOne recoveryOn l clk s active r = (r', active', answer) →
  (active !! group_of_runner r = None → active' = active) ∧
  ∀ request, requested answer = Some request → ∃ fence, gates recoveryOn clk s active r request fence.
Proof.
  unfold runOne. destruct (sr_cancelled s) eqn:Hctx; [by intros [= _ <- <-]|]. unfold tryAcquireAs.
  destruct (active !! group_of_runner r) as [hold|] eqn:Hflight; [by case_match; intros [= _ <- <-]|].
  destruct (runHeld recoveryOn l clk s r) as [[r1 answer1] facts] eqn:Hheld. intros [= _ <- <-]. split.
  { intros _. cbn [fst releaseFlight]. pose proof (runHeld_group recoveryOn l clk s r) as Hg. rewrite Hheld in Hg. cbn [fst] in Hg. rewrite Hg. by apply delete_insert_id. }
  intros request Hreq. revert Hheld. unfold runHeld. case_cond; [by intros; simplify_eq|]. rename Hcond into Hsource. intros Hheld.
  destruct (sr_fence s) as [fence|] eqn:Hfence; [|by simplify_eq]. destruct (sr_next s _) as [next facts'] eqn:Hnext.
  destruct next; try by simplify_eq. destruct (sr_slotValid s slot) eqn:Hvalid; cbn [negb] in Hheld; [|by simplify_eq].
  destruct (runSlot _ _ _ _ _ _ _) as [r2 a2] eqn:Hrun. simplify_eq.
  destruct (runSlot_requests _ _ _ _ _ _ _ _ _ _ Hrun Hreq) as (Hs & Hag & Hown & Hrv & Hadm & Hd & Hb & Hop). subst slot.
  exists fence. split; try done; [|unfold round_pool; cbn [rn_pool set_pool] in Hnext; by rewrite Hnext].
  - intros at_ Hat. rewrite Hat in Hsource. by apply Z.ltb_ge in Hsource.
Qed.

(** ** A failed Slot waits *)

(** An attempt of the Slot's contract that is not due yet keeps it from running. *)
Lemma operation_waits attempt slot now a at_ :
  attempt = Some a → at_contract a = Contract slot → at_nextAt a = Some at_ → now < at_ →
  (operationFor true attempt slot now).2 = (""%string, false).
Proof.
  intros -> Hc Hat Hlt. unfold operationFor, of_contract. cbn [negb]. rewrite decide_True by done. rewrite Hat. cbn [After].
  by rewrite (proj2 (Z.ltb_lt _ _)).
Qed.

Lemma attempt_for_contract slot attempt : at_contract (attempt_for slot attempt) = Contract slot.
Proof. unfold attempt_for, of_contract. destruct attempt as [a|]; [case_decide|]; done. Qed.

(** The state a failed execution leaves. *)
Lemma failure_backoff l group attempt slot now :
  ∃ a, recordExecutionFailure true l group attempt slot now = Some a ∧ at_contract a = Contract slot ∧
    at_failures a = u32 (at_failures (attempt_for slot attempt) + 1) ∧ at_nextAt a = Some (now + retryDelay l group (at_failures a)).
Proof. eexists. split; [reflexivity|]. cbn. split; [apply attempt_for_contract|done]. Qed.

Lemma retrying_backoff l group attempt slot result now :
  Completed result = false → res_Result result = ResultRetrying →
  ∃ a, recordResult true l group attempt slot result now = Some a ∧ at_contract a = Contract slot ∧
    at_failures a = u32 (at_failures (attempt_for slot attempt) + 1) ∧ at_nextAt a = Some (now + retryDelay l group (at_failures a)).
Proof.
  intros Hc Hr. unfold recordResult. rewrite Hc, Hr, String.eqb_refl. cbn [negb orb]. eexists. split; [reflexivity|]. cbn.
  split; [apply attempt_for_contract|done].
Qed.

(** C36: A failed Slot waits its backoff and no longer: after an execution that failed
    with an error or asked to be retried, the Runner's next attempt of the same frozen
    contract is due after the backoff of one more failure, within the limits, and until
    then a round leaves it alone. *)
Theorem failed_waits l group attempt slot answer now :
  RecoveryLimits_Validate l = true → RetryMaxDelay l < 2 ^ 61 →
  (answer = None ∨ ∃ result, answer = Some result ∧ Completed result = false ∧ res_Result result = ResultRetrying) →
  let after := match answer with
    | None => recordExecutionFailure true l group attempt slot now
    | Some result => recordResult true l group attempt slot result now
    end in
  ∃ a at_, after = Some a ∧ at_nextAt a = Some at_ ∧ at_failures a = u32 (at_failures (attempt_for slot attempt) + 1) ∧
    now + RetryMinDelay l ≤ now + retry_base l (at_failures a) ≤ at_ ≤ now + RetryMaxDelay l ∧
    (∀ later, later < at_ → (operationFor true after slot later).2.2 = false) ∧
    (∀ later, at_ ≤ later → (operationFor true after slot later).2.2 = true).
Proof.
  intros Hl Hmax Hanswer after.
  assert (∃ a, after = Some a ∧ at_contract a = Contract slot ∧
    at_failures a = u32 (at_failures (attempt_for slot attempt) + 1) ∧ at_nextAt a = Some (now + retryDelay l group (at_failures a))) as (a & Ea & Hc & Hf & Hat).
  { subst after. destruct Hanswer as [->|(result & -> & ? & ?)]; [apply failure_backoff|by apply retrying_backoff]. }
  destruct (retryDelay_spec l group (at_failures a) Hl Hmax) as [[Hlo Hhi] Hmin].
  exists a, (now + retryDelay l group (at_failures a)). split_and!; try done; try lia.
  - intros later Hlater. by rewrite (operation_waits _ _ _ _ _ Ea Hc Hat Hlater).
  - intros later Hlater. rewrite Ea. unfold operationFor, of_contract. cbn [negb]. rewrite decide_True by done. rewrite Hat. cbn [After].
    rewrite (proj2 (Z.ltb_ge _ _)) by lia. by case_match.
Qed.

(** * Examples

    A Runner at work: three timed out queries put a Query Group in the pool, a restart
    keeps it there, a held Slot wakes, a failed execution backs off. *)

(** ** A text for the record

    Any value that can be numbered is written in binary. *)
Fixpoint pos_text (p : positive) : string :=
  match p with xH => "" | xO p => String "0"%char (pos_text p) | xI p => String "1"%char (pos_text p) end.

Fixpoint text_pos (s : string) : option positive :=
  match s with
  | EmptyString => Some xH
  | String c s => p ← text_pos s; Some (if Ascii.eqb c "1"%char then xI p else xO p)
  end.

Lemma text_pos_text p : text_pos (pos_text p) = Some p.
Proof. induction p as [p IH|p IH|]; cbn; rewrite ?IH; done. Qed.

#[local] Instance probe_eq_dec : EqDecision QueryCooldownProbe.
Proof. solve_decision. Defined.
#[local] Instance probe_countable : Countable QueryCooldownProbe.
Proof.
  apply (inj_countable' (λ p, (probe_At p, probe_Operation p, probe_Outcome p, probe_Measured p, probe_BudgetMillis p, probe_ElapsedMillis p))
    (λ '(a, b, c, d, e, f), mkProbe a b c d e f)). by intros [].
Defined.

#[local] Instance record_eq_dec : EqDecision QueryCooldownRecord.
Proof. solve_decision. Defined.
#[local] Instance record_countable : Countable QueryCooldownRecord.
Proof.
  apply (inj_countable' (λ r, (rec_QueryGroup r, rec_OwnerEpoch r, rec_EnteredAt r, rec_Until r, rec_LastQueryAt r, rec_Failures r, rec_QueryRevision r,
      rec_ScheduleRevision r, (rec_SegmentStart r, rec_ExitedAt r, rec_ExitReason r, rec_Reentries r, rec_Reason r, rec_Timeouts r, rec_FirstTimeoutAt r, rec_LastProbe r)))
    (λ '(a, b, c, d, e, f, g, h, (i, j, k, l, m, n, o, p)), mkRecord a b c d e f g h i j k l m n o p)). by intros [].
Defined.

#[local] Instance binary_text : RecordText := {|
  marshal_record := λ r, Some (pos_text (encode r));
  unmarshal_record := λ s, p ← text_pos s; decode p;
  stored_epoch := λ s, p ← text_pos s; rec_OwnerEpoch <$> (decode p : option QueryCooldownRecord);
|}.

#[local] Instance binary_text_laws : RecordTextLaws.
Proof.
  split. intros r s [= <-]. cbn [unmarshal_record stored_epoch binary_text]. rewrite text_pos_text. cbn [mbind option_bind].
  rewrite decode_encode. by split.
Defined.

(** ** A Query Group whose backend does not answer *)

Definition ex_slot (time : Z) : FrozenSlot :=
  mkFrozenSlot false (mkContract (mkSlot "group" time) "s1" "q1" "r1" 60 "d1" 0) (time * 1000 + 30000) (time * 1000 + 600000)
    OperationNormal (mkFence "group" "w1" 7 "lease") (mkRecoveryFacts 0 ReplayLive "" 0 0).

Definition ex_at (seconds : Z) : nat → Z := λ _, seconds * Second.

Definition ex_timeout : SlotExecutionResult := mkExecutionResult QueryAvailabilityUnavailable ReasonQueryTimeout None true "degraded" "".

Definition ex_answer (time : Z) : PoolEvent := Answers (ex_at (time + 30)) (ex_slot time) OperationNormal ex_timeout 60 false.

Definition ex_events : list PoolEvent := [ex_answer 60; Meets (ex_at 120) (ex_slot 120); ex_answer 120; Meets (ex_at 180) (ex_slot 180); ex_answer 180].

Lemma ex_events_usable : Forall usable_event ex_events.
Proof. repeat constructor; discriminate || done. Qed.

Lemma pool_is_evidence_witness :
  Forall usable_event ex_events ∧ evidence ex_events = mkEvidence 3 (Some (mkSlot "group" 180)) "q1" ∧
  (queryCooldownLetsRun (pool_run (new_pool "group" true) ex_events) = true ↔ unavailableThreshold ≤ ev_count (evidence ex_events)) ∧
  failures (queryCooldown (pool_run (new_pool "group" true) ex_events)) = Z.min 32 (ev_count (evidence ex_events)).
Proof. split; [exact ex_events_usable|]. split; [reflexivity|exact (pool_is_evidence "group" true ex_events ex_events_usable)]. Defined.

(** ** A restart *)

Definition ex_fence : OwnerFence := mkFence "group" "w1" 7 "lease".
Definition ex_successor : OwnerFence := mkFence "group" "w2" 8 "other".

Definition ex_life : option (Pool * option StoredValue) := live (take_over "group" ex_fence None) None ex_events.

Definition ex_left : Pool * option StoredValue := default (new_pool "" false, None) ex_life.

Example ex_life_ends : ex_life = Some ex_left ∧ until (queryCooldown ex_left.1) ≠ None ∧ failures (queryCooldown ex_left.1) = 3.
Proof. split_and!; [vm_compute; reflexivity|vm_compute; discriminate|vm_compute; reflexivity]. Qed.

Lemma ex_sound : sound_record "group" None.
Proof. intros r Hr. discriminate. Qed.

Lemma restart_keeps_pool_witness :
  live (take_over "group" ex_fence None) None ex_events = Some (ex_left.1, ex_left.2) ∧
  until (queryCooldown (take_over "group" ex_successor ex_left.2)) = until (queryCooldown ex_left.1) ∧
  (queryCooldownLetsRun ex_left.1 = true → failures (queryCooldown (take_over "group" ex_successor ex_left.2)) = failures (queryCooldown ex_left.1)) ∧
  (∀ clk slot, attempting ex_left.1 = false →
    (deferUnavailableQuery clk slot (take_over "group" ex_successor ex_left.2)).2 = (deferUnavailableQuery clk slot ex_left.1).2) ∧
  take_over "group" ex_successor (key_after 604799999 ex_left.2) = take_over "group" ex_successor ex_left.2 ∧
  key_after 604800000 ex_left.2 = None.
Proof.
  assert (live (take_over "group" ex_fence None) None ex_events = Some (ex_left.1, ex_left.2)) as Hlive by (vm_compute; reflexivity).
  assert (OwnerEpoch ex_fence ≠ 0) as Hepoch by discriminate.
  split; [exact Hlive|].
  destruct (restart_keeps_pool "group" ex_fence ex_successor None ex_events ex_left.1 ex_left.2 Hepoch ex_sound ex_events_usable Hlive)
    as (Huntil & Hfailures & Hdefer & Hlater).
  split; [exact Huntil|]. split; [exact Hfailures|]. split; [exact Hdefer|]. split; [|vm_compute; reflexivity].
  apply Hlater. intros value Hvalue. assert (stored_lifetime <$> ex_left.2 = Some 604800000) as Hl by (vm_compute; reflexivity).
  rewrite Hvalue in Hl. injection Hl as ->. reflexivity.
Defined.

(** ** A held Slot *)

Definition ex_held : Pool := (deferUnavailableQuery (ex_at 240) (ex_slot 240) ex_left.1).1.

Example ex_held_until : (wakeAt (queryCooldown ex_held), until (queryCooldown ex_held)) = (until (queryCooldown ex_left.1), until (queryCooldown ex_left.1)).
Proof. vm_compute. reflexivity. Qed.

Lemma held_wakes_witness :
  deferUnavailableQuery (ex_at 240) (ex_slot 240) ex_left.1 = (ex_held, true) ∧
  ∃ at_ until_, wakeAt (queryCooldown ex_held) = Some at_ ∧ until (queryCooldown ex_held) = Some until_ ∧
    ex_at 240 2%nat < at_ ∧ at_ ≤ until_ ∧ at_ ≤ FromUnixMilli (RecoveryUntilUnixMilli (ex_slot 240)) ∧
    ExpiredRange (ex_slot 240) = false ∧ Disposition (Recovery (ex_slot 240)) ≠ ReplayExpired ∧ attempting ex_left.1 = false ∧
    ∀ later slot', (∀ n, until_ ≤ later n) ∨ (∀ n, FromUnixMilli (RecoveryUntilUnixMilli slot') ≤ later n) →
      (deferUnavailableQuery later slot' ex_held).2 = false.
Proof.
  assert (monotone (ex_at 240)) as Hclk by (intros i j _; reflexivity || apply Z.le_refl).
  assert (deferUnavailableQuery (ex_at 240) (ex_slot 240) ex_left.1 = (ex_held, true)) as Hdefer by (vm_compute; reflexivity).
  split; [exact Hdefer|exact (held_wakes (ex_at 240) (ex_slot 240) ex_left.1 ex_held Hclk Hdefer)].
Defined.

(** ** A round *)

Definition ex_limits : RecoveryLimits := mkLimits 4 2 16 16 4 10 (3600 * Second) Second (60 * Second).

Definition ex_surroundings (answer : ExecuteAnswer) : Surroundings :=
  mkSurroundings false (Some ex_fence) LoadAbsent (λ held, (NextDue (ex_slot 300), mkDueFacts 0 60 false)) (λ _, true) (Some ex_fence) (λ _, true)
    (Some (λ operation, if (operation =? OperationNormal)%string then AdmissionReleased else AdmissionDenied)) (λ _, answer).

Definition ex_round : Runner * Flights * RoundAnswer := runOne true ex_limits (ex_at 300) (ex_surroundings (Executed ex_timeout)) ∅ (NewRunner "group" true).

Example ex_round_runs :
  (decision ex_round.2, attempted ex_round.2, failures (queryCooldown (rn_pool ex_round.1.1))) = ("execution_returned"%string, true, 1).
Proof. vm_compute. reflexivity. Qed.

Lemma round_executes_witness :
  ex_round = (ex_round.1.1, ex_round.1.2, ex_round.2) ∧
  ((∅ : Flights) !! group_of_runner (NewRunner "group" true) = None → ex_round.1.2 = ∅) ∧
  ∃ request fence, requested ex_round.2 = Some request ∧
    gates true (ex_at 300) (ex_surroundings (Executed ex_timeout)) ∅ (NewRunner "group" true) request fence.
Proof.
  assert (runOne true ex_limits (ex_at 300) (ex_surroundings (Executed ex_timeout)) ∅ (NewRunner "group" true) = (ex_round.1.1, ex_round.1.2, ex_round.2)) as Hround.
  { unfold ex_round. destruct (runOne _ _ _ _ _ _) as [[? ?] ?]. reflexivity. }
  destruct (round_executes true ex_limits (ex_at 300) (ex_surroundings (Executed ex_timeout)) ∅ (NewRunner "group" true) _ _ _ Hround) as [Hflight Hgates].
  split; [exact Hround|]. split; [exact Hflight|].
  assert (∃ request, requested ex_round.2 = Some request) as [request Hreq] by (eexists; vm_compute; reflexivity).
  destruct (Hgates request Hreq) as [fence Hg]. exists request, fence. split; [exact Hreq|exact Hg].
Defined.

(** ** A failed Slot *)

Definition ex_attempt : option recoveryAttempt := Some (mkAttempt (Contract (ex_slot 300)) OperationRetry (Some (301 * Second)) 1 false).

Lemma failed_waits_witness :
  RecoveryLimits_Validate ex_limits = true ∧
  ∃ a at_, recordExecutionFailure true ex_limits "group" ex_attempt (ex_slot 300) (310 * Second) = Some a ∧ at_nextAt a = Some at_ ∧ at_failures a = 2 ∧
    310 * Second + 2 * Second ≤ at_ ≤ 370 * Second.
Proof.
  assert (RecoveryLimits_Validate ex_limits = true) as Hl by reflexivity.
  assert (RetryMaxDelay ex_limits < 2 ^ 61) as Hmax by reflexivity.
  split; [exact Hl|].
  destruct (failed_waits ex_limits "group" ex_attempt (ex_slot 300) None (310 * Second) Hl Hmax (or_introl eq_refl)) as (a & at_ & Ha & Hat & Hf & (_ & Hlo & Hhi) & _).
  exists a, at_. split; [exact Ha|]. split; [exact Hat|].
  assert (at_failures a = 2) as Hf2 by (rewrite Hf; vm_compute; reflexivity). split; [exact Hf2|]. rewrite Hf2 in Hlo. split; [exact Hlo|exact Hhi].
Defined.
